(* ===== verification/_CoqProject ===== *)
-Q . S2P
Prelude.v
Bytes.v
Dlist.v
Kmalloc.v
KmallocLists.v
BuddyTree.v
KmallocAlloc.v
KmallocFree.v
KmallocSafety.v
Block.v
BlockProofs.v
BlockAlloc.v
SdCard.v
PageCache.v
BlockTheorems.v
CString.v
Dcache.v
Inode.v
InodeLayout.v
InodeMap.v
InodeMapRun.v
InodeIO.v
InodeTheorems.v
InodeHit.v
Dir.v
DirTheorems.v
Fs.v
FdTheorems.v
InodeTable.v
DirImage.v
Mkfs.v
MkfsTheorems.v
PathTheorems.v
TreeGrow.v
CreateTheorems.v
Sched.v
SchedProofs.v
SchedTheorems.v
Locks.v
Proc.v
LockProofs.v
LockOps.v
LockTable.v
LockCreate.v
Mailbox.v
LockTheorems.v
LockClaims.v
LockDemo.v
Pgtable.v
PgtableProofs.v
Frames.v
FrameProofs.v
FrameAlloc.v
EvictProofs.v
Vm.v
SwapProofs.v
MmTheorems.v
MmDemo.v
Screen.v
ScreenTheorems.v
E1000.v
Net.v
NetTheorems.v
Pipe.v
PipeHeap.v
PipeProofs.v
PipeTheorems.v
PipeDemo.v
Printk.v
Etc.v
EtcTheorems.v
UserCalls.v
Syscall.v
SyscallTheorems.v
Irq.v
IrqTheorems.v
Image.v
ImageTheorems.v
Shell.v
ShellTheorems.v
