(* ===== verification/Prelude.v ===== *)
(** * UCAS-OS-Lab kernel: a verification development

    The program is a small operating-system kernel for RISC-V (Sv39, two harts,
    one kernel lock): a process scheduler with blocking locks, a buddy heap, page
    frames with replacement and swapping, a page cache and a file system on an
    SD card, pipes that move pages, a network driver with a reliable stream, and
    a text screen, with system calls, a small user library, a shell and the
    builder of the boot image. This library translates the project's own code
    under src/ into executable definitions and proves what each part promises to
    the others.

    ** How the code is modelled

    - An operation is a function of the state-and-outcome monad [M] below: [Ok]
      with a value and the new state, [Panic] for a halted kernel (a failed
      [assert] or [asserts], [err_halt]) and for an access that would fault (a
      null pointer, an index outside of a C array: the message is "fault"), and
      [OutOfFuel] for a loop that does not end within its fuel.
    - Integers are [Z], with [u8] ... [u64], [i32], [i64] written where the C
      type can wrap. Pointers to elements of global arrays are indices; memory
      that is addressed by bytes or words is a function or a finite map.
    - The kernel lock is held from the entry of a call to its call of
      [do_scheduler]. A call that may wait is a function for each stretch between
      two such points, and returns whether the caller was parked. Interleavings
      are sequences of such stretches (rules of an inductive step relation).
    - A spin lock found taken would be waited for forever, since its holder needs
      the kernel lock: that is an outcome [Panic], and theorems exclude it.
    - Log output ([pretty_log...]) and TLB or cache flushes have no effect on the
      modelled state.

    ** Parts, files and sources

    - Lists (libs/list.c, include/os/list.h): Dlist.v, with every pointer write,
      and the refinement to sequences that the other models use.
    - Kernel heap (kernel/mm/kmalloc.c): Kmalloc.v; KmallocLists.v and BuddyTree.v
      relate the memory to a buddy tree, KmallocAlloc.v and KmallocFree.v run the
      two calls, KmallocSafety.v has the theorems over all histories.
    - Strings (libs/string.c): CString.v.
    - Block layer (kernel/fs/block.c): Block.v over the interface [SectorStore],
      of which the card (SdCard.v) and the page cache over it (kernel/fs/cache.c,
      PageCache.v) are instances; BlockProofs.v, BlockAlloc.v and
      BlockTheorems.v show that the buffers and the bitmap are an array of blocks.
    - Directory-entry cache (kernel/fs/dcache.c): Dcache.v.
    - Inodes (kernel/fs/inode.c): Inode.v; InodeLayout.v, InodeMap.v, InodeMapRun.v
      and InodeIO.v show that a file is an array of bytes, InodeTheorems.v states it;
      InodeTable.v and InodeHit.v run the reference-counted table of open inodes.
    - Directories and calls (kernel/fs/dir.c, fs.cpp): Dir.v and Fs.v; DirTheorems.v
      and DirImage.v on one directory, PathTheorems.v on the tree of directories,
      TreeGrow.v and CreateTheorems.v on creating a name in it, FdTheorems.v on
      descriptors. Formatting, mounting and flushing the volume through buffers and
      page cache: Mkfs.v, MkfsTheorems.v.
    - Scheduler (kernel/sched): Sched.v, SchedProofs.v, SchedTheorems.v.
    - Locks (kernel/locking) and the end of a process: Locks.v and Proc.v;
      LockProofs.v, LockOps.v, LockTable.v (the class [LockTable] verifies the five
      tables once), LockCreate.v, Mailbox.v, LockTheorems.v, LockClaims.v, LockDemo.v.
    - Page tables (arch/riscv/include/pgtable.h, kernel/mm/mm.c, ioremap.c):
      Pgtable.v, PgtableProofs.v and Vm.v.
    - Page frames, groups, replacement, swap (kernel/mm/pageframe.c, pagegroup.cpp,
      pf_evict.cpp, swap.c) and the page cache (kernel/fs/cache.c) over page tables and
      frames, with what happens when it runs full: Frames.v, Vm.v;
      FrameProofs.v, FrameAlloc.v, EvictProofs.v, SwapProofs.v, MmTheorems.v, MmDemo.v.
    - Pipes (kernel/mm/pipe.c): Pipe.v over the class [SegmentHeap], which
      PipeHeap.v discharges with the kernel heap; PipeProofs.v, PipeTheorems.v, PipeDemo.v.
    - Screen (drivers/screen.c): Screen.v; ScreenTheorems.v against the class
      [Terminal] of terminals that obey the commands the driver sends.
    - Network card (drivers/e1000.c): E1000.v, with the steps the card makes on
      its own. Calls and stream (kernel/net/net.c): Net.v, NetTheorems.v.
    - Formatted output (libs/printk.c) and configuration files (kernel/fs/etc.c):
      Printk.v, Etc.v, EtcTheorems.v.
    - System calls: UserCalls.v has the wrappers of tiny_libc/syscall.c, Syscall.v the
      handlers and the table of kernel/syscall/syscall.cpp over the class [Kernel] of
      what they call, SyscallTheorems.v their composition and the instance of
      [Kernel] for the file calls.
    - Traps (kernel/irq/irq.c) and the interrupt controller (drivers/plic.c): Irq.v
      over the class [Machine], IrqTheorems.v.
    - Boot image (tools/createimage.c), boot block and loader (kernel/loader): Image.v,
      ImageTheorems.v.
    - The line editor of the shell (test/shell.c), with the colours of the line:
      Shell.v, ShellTheorems.v.
    - This file and Bytes.v hold what the parts share: the monad with its notation
      and tactics, machine integers, lemmas on lists, little-endian bytes.

    ** What the theorems show

    - Heap: live blocks are disjoint and inside the pool, payloads are kept, both
      calls return, a request fails only when no block is free, and freeing all
      gives the whole pool back (for requests whose size with the header fits 64 bits).
    - File system: the block buffers refine an array of blocks and the bitmap a
      set; the entry cache refines a map; a write followed by a read returns the
      bytes; links act on a table of names; a path leads to the inode the tree of
      directories says, and every other reference is given back; creating a name
      adds exactly that name to the tree and leaves every other file alone; a
      descriptor is a file with two positions; formatting makes an empty tree; what
      was flushed, from the buffers and from the page cache, is there after a restart.
    - Processes: as long as the idle processes keep their harts and no process is killed
      a second time, the scheduler keeps its invariant, always finds a process and
      picks the one the accounting prefers; the locks keep theirs in the states
      that calls, scheduling and killing can reach, waiters of a semaphore not being
      killed; a mutex excludes, a mailbox is
      a queue of bytes, a barrier opens at its goal, a semaphore counts, and a
      killed process leaves no lock behind. The excluded cases are findings.
    - Memory: allocation gives out free frames and finds them, freeing gives back
      exactly the block, second chance chooses a page that was not used and stops,
      a page survives swapping, pages cross a pipe in order and without a copy.
    - Devices: the terminal shows the buffer after a refresh; the rings of the
      network card are two queues under every interleaving with the card; the
      stream is received as it was sent, through loss, repetition and noise.
    - System: each user call reaches the handler of its name with its arguments and
      gets its result; reads, writes and seeks of a program go through library,
      trap, table, descriptors, inodes, blocks and card and act on an abstract file;
      a trap runs the handler of its cause; processor time adds up; programs put
      in an image are found, loaded and started as they were; the shell's editor
      keeps the line, its words, the screen and the colour of the command in step.
    - Output: formatted output stays in its buffer, and a printed configuration
      is read back as it was.
    - Lemmas next to the witnesses (the ...Demo files and the ends of
      ScreenTheorems.v, NetTheorems.v, E1000.v, EtcTheorems.v, SyscallTheorems.v,
      IrqTheorems.v, ShellTheorems.v, SchedTheorems.v and PageCache.v) show where the code does not do what it means
      to; the manifest lists them as findings.

    ** Fuel

    Loops over C arrays and lists recurse on them. Where a loop needs fuel, the
    definition next to it says why it is enough and a theorem shows that it never
    runs out under the invariant: [kfree_fuel] covers every free list of the pool,
    [frame_fuel] and [swap_fuel] one round over their tables, [second_fuel] two
    rounds over the page list, [pipe_fuel] one turn per page, [itoa_fuel] the 64
    digits of a word, the fuel of [vsn_loop] the characters of the format,
    [lint_fuel] the words of a line, since each call of [lint] moves on by one; the
    stream takes one turn per packet that arrives.

    ** Not modelled

    Assembly (trap entry, context switch) and firmware calls; starting the second
    hart; [create_task_pgdir]; the C++ runtime; the branch of [swapout] that kills
    the processes of a group (the run of the model ends there); device files; in
    PageCache.v the pages given up when the frames of the cache are used up (there
    [overrun] is set; Frames.v and Vm.v have that path); the pipes, descriptors and
    memory that [cleanup_proc] gives back (Proc.v has its locks and its place in
    the process table); printing of listings and statistics; the loops of the daemons around their
    turns; the rest of the user library, the commands of the shell and the test
    programs; vendored code. A system call is related to the component behind it
    for the file calls; for the others up to the interface [Kernel].

    ** What could follow

    Instances of [Kernel] for the other components, [pipe_open] and
    [cleanup_pipe] as a reference-count invariant, removing names as an update of
    the tree of PathTheorems.v, and the page cache of Vm.v against that of PageCache.v. *)

From Stdlib Require Export ZArith Lia.
From stdpp Require Export base numbers strings functions fin_maps gmap list.

#[global] Open Scope Z_scope.
#[export] Set Warnings "-clear-no-such-hyp".

(** ** Machine integers

    A C integer is a [Z]; every operation of the source that can leave the
    range of its type is followed by the wrap-around of that type. *)
Definition wrap (w x : Z) : Z := x mod 2 ^ w.
Definition swrap (w x : Z) : Z :=
  let y := wrap w x in if y <? 2 ^ (w - 1) then y else y - 2 ^ w.

Definition u8 : Z → Z := wrap 8.
Definition u16 : Z → Z := wrap 16.
Definition u32 : Z → Z := wrap 32.
Definition u64 : Z → Z := wrap 64.
Definition i32 : Z → Z := swrap 32.
Definition i64 : Z → Z := swrap 64.

Lemma u64_small x : 0 ≤ x < 2 ^ 64 → u64 x = x.
Proof. intros Hx. by apply Z.mod_small. Qed.
Lemma wrap_wrap v w x : 0 ≤ v ≤ w → wrap v (wrap w x) = wrap v x.
Proof.
  intros Hv. unfold wrap. apply Z.mod_mod_divide.
  exists (2 ^ (w - v)). rewrite <- Z.pow_add_r by lia. f_equal. lia.
Qed.
Lemma swrap_small w x : 0 < w → - 2 ^ (w - 1) ≤ x < 2 ^ (w - 1) → swrap w x = x.
Proof.
  intros Hw Hx. assert (2 ^ w = 2 * 2 ^ (w - 1)) as E by (rewrite <- Z.pow_succ_r by lia; f_equal; lia).
  unfold swrap, wrap. destruct (decide (0 ≤ x)) as [Hp|Hn].
  - rewrite Z.mod_small by lia. by rewrite (proj2 (Z.ltb_lt _ _)) by lia.
  - replace (x mod 2 ^ w) with (x + 2 ^ w) by (apply (Z.mod_unique_pos _ _ (-1)); lia).
    rewrite (proj2 (Z.ltb_ge _ _)) by lia. lia.
Qed.
Lemma i32_id x : - 2 ^ 31 ≤ x < 2 ^ 31 → i32 x = x.
Proof. apply (swrap_small 32). lia. Qed.

(** The null pointer. *)
Definition NULL : Z := 0.

(** ** Outcomes and the state-and-panic monad

    [Panic] is a call of [_panic]/[_panics] (a failed [asserts], [assert] or
    [err_halt]), which never returns; [OutOfFuel] is reported by a loop whose
    fuel is spent, so that it is never confused with a result. *)
Inductive outcome (A : Type) : Type :=
| Ok (a : A)
| Panic (why : string)
| OutOfFuel.
Arguments Ok {A} a.
Arguments Panic {A} why.
Arguments OutOfFuel {A}.

Definition M (S A : Type) : Type := S → outcome (A * S).

Definition ret {S A} (a : A) : M S A := fun s => Ok (a, s).
Definition bind {S A B} (m : M S A) (k : A → M S B) : M S B := fun s =>
  match m s with
  | Ok (a, s') => k a s'
  | Panic why => Panic why
  | OutOfFuel => OutOfFuel
  end.
Definition panic {S A} (why : string) : M S A := fun _ => Panic why.
Definition no_fuel {S A} : M S A := fun _ => OutOfFuel.
Definition gets {S A} (f : S → A) : M S A := fun s => Ok (f s, s).
Definition modify {S} (f : S → S) : M S unit := fun s => Ok (tt, f s).
(** [asserts(cond, msg)] *)
Definition asserts {S} (b : bool) (msg : string) : M S unit :=
  if b then ret tt else panic msg.

Declare Scope os_scope.
Delimit Scope os_scope with os.
#[global] Open Scope os_scope.

Notation "x <- m ;; k" := (bind m (fun x => k))
  (at level 100, m at next level, right associativity) : os_scope.
Notation "m ;; k" := (bind m (fun _ => k))
  (at level 100, right associativity) : os_scope.
Notation "'let*' p ':=' m 'in' k" := (bind m (fun p => k))
  (at level 100, p pattern, m at next level, right associativity) : os_scope.

(** ** Evaluation lemmas and tactics for the monad *)
Lemma bind_Ok {S A B} (m : M S A) (k : A → M S B) s a s' :
  m s = Ok (a, s') → bind m k s = k a s'.
Proof. unfold bind. by intros ->. Qed.

Lemma bind_Ok_inv {S A B} (m : M S A) (k : A → M S B) s r :
  bind m k s = Ok r → ∃ a s', m s = Ok (a, s') ∧ k a s' = Ok r.
Proof. unfold bind. destruct (m s) as [[a s']| |]; naive_solver. Qed.

Lemma bind_assoc {S A B C} (m : M S A) (f : A → M S B) (k : B → M S C) s :
  bind m (fun a => bind (f a) k) s = bind (bind m f) k s.
Proof. unfold bind. by destruct (m s) as [[a s']| |]. Qed.

Lemma asserts_true {S} (b : bool) msg (s : S) : b = true → asserts b msg s = Ok (tt, s).
Proof. by intros ->. Qed.

(** Run the next primitive of a monadic program in the goal. *)
Ltac mrun :=
  repeat first
    [ progress cbn [bind ret gets modify fst snd]
    | progress unfold bind, ret, gets, modify, panic, no_fuel
    | rewrite asserts_true by (first [done | lia]) ].

(** Split every conjunction and existential of the context. *)
Ltac destr := repeat match goal with
  | H : _ ∧ _ |- _ => destruct H
  | H : ∃ _, _ |- _ => destruct H
  end.

(** ** Lists *)
Lemma cons_snoc {A} (x : A) (l : list A) : ∃ k y, x :: l = k ++ [y].
Proof.
  destruct (exists_last (l := x :: l)) as (k & y & E); [done|]. eauto.
Qed.

Lemma snoc_inv {A} (l : list A) : l = [] ∨ ∃ k y, l = k ++ [y].
Proof. destruct l as [|x l]; [by left|]. right. apply cons_snoc. Qed.

Lemma snoc_cons {A} (l : list A) (x : A) : ∃ y k, l ++ [x] = y :: k.
Proof. destruct l; simpl; eauto. Qed.

Lemma NoDup_mid {A} (l1 l2 : list A) x :
  NoDup (l1 ++ x :: l2) ↔ (x ∉ l1) ∧ (x ∉ l2) ∧ NoDup (l1 ++ l2).
Proof. rewrite !NoDup_app, NoDup_cons. set_solver. Qed.

Lemma filter_all {A} (P : A → Prop) `{∀ x, Decision (P x)} (l : list A) : (∀ x, x ∈ l → P x) → filter P l = l.
Proof.
  induction l as [|x l IH]; intros Hall; [done|]. rewrite filter_cons_True by (apply Hall; left).
  by rewrite IH by (intros y Hy; apply Hall; by right).
Qed.

Lemma filter_none {A} (P : A → Prop) `{∀ x, Decision (P x)} (l : list A) : (∀ x, x ∈ l → ¬ P x) → filter P l = [].
Proof.
  induction l as [|x l IH]; intros Hall; [done|]. rewrite filter_cons_False by (apply Hall; left).
  by rewrite IH by (intros y Hy; apply Hall; by right).
Qed.

Lemma length_lookup_eq {A B} (l : list A) (k : list B) :
  (∀ i, is_Some (l !! i) ↔ is_Some (k !! i)) → length l = length k.
Proof.
  intros Hk. apply Nat.le_antisymm; apply Nat.nlt_ge; intros Hlt.
  - specialize (Hk (length k)). rewrite !lookup_lt_is_Some in Hk. lia.
  - specialize (Hk (length l)). rewrite !lookup_lt_is_Some in Hk. lia.
Qed.
