(* ===== verification/Bytes.v ===== *)
(** * Little-endian integers as sequences of bytes

    The layout of the multi-byte fields of inodes, directory entries and
    page-table entries. *)

From S2P Require Import Prelude.

Fixpoint le (n : nat) (x : Z) : list Z :=
  match n with
  | O => []
  | S n => x mod 256 :: le n (x / 256)
  end.
Fixpoint unle (l : list Z) : Z :=
  match l with
  | [] => 0
  | b :: l => b + 256 * unle l
  end.

Lemma le_length n x : length (le n x) = n.
Proof. revert x. induction n; intros x; simpl; auto. Qed.

Lemma unle_le n x : unle (le n x) = x mod 256 ^ Z.of_nat n.
Proof.
  revert x. induction n as [|n IH]; intros x; cbn [le unle].
  - change (256 ^ Z.of_nat 0) with 1. by rewrite Z.mod_1_r.
  - rewrite IH, Nat2Z.inj_succ, Z.pow_succ_r by lia.
    rewrite Z.rem_mul_r by lia. lia.
Qed.

Lemma unle_le_small n x : 0 ≤ x < 256 ^ Z.of_nat n → unle (le n x) = x.
Proof. intros Hx. rewrite unle_le. by apply Z.mod_small. Qed.

(** [memcpy] of [p] to the start of a buffer: the bytes behind it stay. *)
Definition overlay (p buf : list Z) : list Z := p ++ drop (length p) buf.

Lemma overlay_take p buf : take (Z.to_nat (Z.of_nat (length p))) (overlay p buf) = p.
Proof. unfold overlay. rewrite Nat2Z.id. by rewrite take_app_length. Qed.
