(* ===== verification/Dlist.v ===== *)
(** * libs/list.c and include/os/list.h: the intrusive doubly linked lists

    The scheduler queues, the wait lists of every lock, the page lists of the
    page-frame groups and the segments of a pipe are all instances of this
    circular list with a sentinel head. The model keeps the store of nodes
    (address to [next], [prev], [container]) and performs the pointer writes
    of the source one by one; the theorems show that the store always
    represents a family of disjoint sequences and that every operation is the
    expected operation on one of them. *)

From S2P Require Import Prelude.

(** The memory the library reads and writes, one map per field of
    [list_node_t] (two fields of a C struct never alias); a [list_t] starts
    with its [head] node, so the address of a list is the address of its
    head. [names] is the [name] field of the lists. *)
Record lheap := mk_lheap {
  next : gmap Z Z;
  prev : gmap Z Z;
  container : gmap Z Z;
  names : gmap Z string;
}.

(** A load of a field; an access to an address where there is no node (NULL in
    particular) is a fault. *)
Definition load (field : lheap → gmap Z Z) (p : Z) : M lheap Z := fun h =>
  match field h !! p with
  | Some v => Ok (v, h)
  | None => Panic "fault"
  end.
Definition get_next : Z → M lheap Z := load next.
Definition get_prev : Z → M lheap Z := load prev.
Definition get_container : Z → M lheap Z := load container.

(** Stores; they fault where the load does. *)
Definition set_next (p v : Z) : M lheap unit :=
  get_next p ;;
  modify (fun h => mk_lheap (<[p := v]> (next h)) (prev h) (container h) (names h)).
Definition set_prev (p v : Z) : M lheap unit :=
  get_prev p ;;
  modify (fun h => mk_lheap (next h) (<[p := v]> (prev h)) (container h) (names h)).
Definition set_container (p v : Z) : M lheap unit :=
  get_container p ;;
  modify (fun h => mk_lheap (next h) (prev h) (<[p := v]> (container h)) (names h)).

Definition nonnull (p : Z) : bool := negb (p =? NULL).

Definition list_holding (node : Z) : M lheap bool :=
  n <- get_next node ;;
  p <- get_prev node ;;
  asserts (negb (xorb (nonnull n) (nonnull p))) "node link broken" ;;
  c <- get_container node ;;
  asserts (negb (xorb (nonnull n) (nonnull c))) "node container broken" ;;
  ret (nonnull n || nonnull p).

Definition list_prepend (list node : Z) : M lheap unit :=
  holding <- list_holding node ;;
  if holding then ret tt (* logged *) else
  let head := list in
  hn <- get_next head ;;
  set_next node hn ;;
  set_prev node head ;;
  hn <- get_next head ;;
  set_prev hn node ;;
  set_next head node ;;
  set_container node list.

Definition list_append (list node : Z) : M lheap unit :=
  holding <- list_holding node ;;
  if holding then ret tt (* logged *) else
  let head := list in
  hp <- get_prev head ;;
  set_prev node hp ;;
  set_next node head ;;
  hp <- get_prev head ;;
  set_next hp node ;;
  set_prev head node ;;
  set_container node list.

Definition list_shift (list : Z) : M lheap Z :=
  let head := list in
  hn <- get_next head ;;
  if hn =? head then ret NULL else
  let node := hn in
  nn <- get_next node ;;
  set_next head nn ;;
  nn <- get_next node ;;
  set_prev nn head ;;
  set_prev node NULL ;;
  set_next node NULL ;;
  set_container node NULL ;;
  ret node.

Definition list_pop (list : Z) : M lheap Z :=
  let head := list in
  hp <- get_prev head ;;
  if hp =? head then ret NULL else
  let node := hp in
  np <- get_prev node ;;
  set_prev head np ;;
  np <- get_prev node ;;
  set_next np head ;;
  set_prev node NULL ;;
  set_next node NULL ;;
  set_container node NULL ;;
  ret node.

(** The [while (current != head)] loop of [list_size]. *)
Fixpoint list_size_loop (fuel : nat) (head current size : Z) : M lheap Z :=
  match fuel with
  | O => no_fuel
  | S fuel =>
      if current =? head then ret size else
      nx <- get_next current ;;
      list_size_loop fuel head nx (u64 (size + 1))
  end.
Definition list_size (fuel : nat) (list : Z) : M lheap Z :=
  hn <- get_next list ;; list_size_loop fuel list hn 0.

Definition list_delete (node : Z) : M lheap unit :=
  holding <- list_holding node ;;
  asserts holding "trying to delete a node not in any list" ;;
  p <- get_prev node ;;
  n <- get_next node ;;
  set_next p n ;;
  n <- get_next node ;;
  p <- get_prev node ;;
  set_prev n p ;;
  set_next node NULL ;;
  set_prev node NULL ;;
  set_container node NULL.

Definition list_init (list : Z) (name : string) : M lheap unit :=
  set_next list list ;;
  set_prev list list ;;
  modify (fun h => mk_lheap (next h) (prev h) (container h) (<[list := name]> (names h))).

Definition list_node_destruct (node : Z) : M lheap unit :=
  holding <- list_holding node ;;
  if holding then list_delete node else ret tt.

(** ** The sequences a store represents *)

(** [maps f ks vs]: the field [f] sends the nodes [ks] to [vs], in order. *)
Definition maps (f : gmap Z Z) (ks vs : list Z) : Prop :=
  Forall2 (fun k v => f !! k = Some v) ks vs.

(** The circular list headed by [l] holds exactly the nodes [xs], in order. *)
Record dlist (h : lheap) (l : Z) (xs : list Z) : Prop := {
  dl_nodup : NoDup (l :: xs);
  dl_nonnull : NULL ∉ l :: xs;
  dl_next : maps (next h) (l :: xs) (xs ++ [l]);
  dl_prev : maps (prev h) (xs ++ [l]) (l :: xs);
  dl_container : Forall (fun x => container h !! x = Some l) xs;
}.

(** A node that is in no list: the three fields are null. *)
Record detached (h : lheap) (n : Z) : Prop := {
  det_next : next h !! n = Some NULL;
  det_prev : prev h !! n = Some NULL;
  det_container : container h !! n = Some NULL;
}.

(** ** Lemmas *)
Section maps.
Implicit Types f g : gmap Z Z.

Lemma maps_ext f g ks vs :
  (∀ k, k ∈ ks → g !! k = f !! k) → maps f ks vs → maps g ks vs.
Proof.
  intros Hext Hm. induction Hm as [|k v ks vs Hk Hm IH]; constructor.
  - rewrite Hext; [done | set_solver].
  - apply IH. intros k' Hk'. apply Hext. set_solver.
Qed.

Lemma maps_insert f ks vs k v : k ∉ ks → maps f ks vs → maps (<[k := v]> f) ks vs.
Proof.
  intros Hk. apply maps_ext. intros k' Hk'.
  rewrite lookup_insert_ne; [done | set_solver].
Qed.

Lemma maps_app f ks1 ks2 vs1 vs2 :
  length ks1 = length vs1 →
  maps f (ks1 ++ ks2) (vs1 ++ vs2) ↔ maps f ks1 vs1 ∧ maps f ks2 vs2.
Proof.
  intros Hlen. split.
  - intros Hm. apply Forall2_app_inv in Hm; [done | by rewrite Hlen].
  - intros [H1 H2]. by apply Forall2_app.
Qed.

Lemma maps_cons f k v ks vs : maps f (k :: ks) (v :: vs) ↔ f !! k = Some v ∧ maps f ks vs.
Proof. apply Forall2_cons_iff. Qed.

Lemma maps_nil f : maps f [] [].
Proof. constructor. Qed.

Lemma maps_lookup f ks vs k : maps f ks vs → k ∈ ks → ∃ v, f !! k = Some v ∧ v ∈ vs.
Proof.
  intros Hm. induction Hm as [|k' v ks vs E Hm IH]; [set_solver|].
  intros [->|Hk]%elem_of_cons; [set_solver|]. destruct IH as (v' & ? & ?); set_solver.
Qed.
End maps.

(** The neighbours of a position of a circular list. *)
Record neighbours (l : Z) (xs1 xs2 : list Z) (p q : Z) (A R : list Z) : Prop := {
  nb_left : l :: xs1 = A ++ [p];
  nb_right : xs2 ++ [l] = q :: R;
}.
Arguments nb_left {l xs1 xs2 p q A R} _.
Arguments nb_right {l xs1 xs2 p q A R} _.

Lemma neighbours_exist l xs1 xs2 : ∃ p q A R, neighbours l xs1 xs2 p q A R.
Proof.
  destruct (cons_snoc l xs1) as (A & p & E1), (snoc_cons xs2 l) as (q & R & E2).
  by exists p, q, A, R.
Qed.

Section splice.
Context (l : Z) (xs1 xs2 : list Z) (p q : Z) (A R : list Z).
Context (Hnb : neighbours l xs1 xs2 p q A R).

Lemma nb_length_l : length A = length xs1.
Proof.
  pose proof (f_equal length (nb_left Hnb)) as E.
  rewrite length_app in E. simpl in E. lia.
Qed.

Lemma nb_length_r : length R = length xs2.
Proof.
  pose proof (f_equal length (nb_right Hnb)) as E.
  rewrite length_app in E. simpl in E. lia.
Qed.

(** The node sequence seen from the left and from the right of the gap. *)
Lemma nb_keys ys : l :: xs1 ++ ys = A ++ p :: ys.
Proof.
  change (l :: xs1 ++ ys) with ((l :: xs1) ++ ys).
  by rewrite (nb_left Hnb), <- app_assoc.
Qed.

Lemma nb_vals ys : (ys ++ xs2) ++ [l] = ys ++ q :: R.
Proof. by rewrite <- app_assoc, (nb_right Hnb). Qed.

Lemma nb_nodup_l ys : NoDup (l :: xs1 ++ ys) → (p ∉ A) ∧ (p ∉ ys).
Proof. rewrite nb_keys, NoDup_mid. tauto. Qed.

Lemma nb_nodup_r ys : NoDup (l :: ys ++ xs2) → (q ∉ ys) ∧ (q ∉ R).
Proof.
  intros Hn. assert (NoDup (ys ++ q :: R)) as Hn'.
  { rewrite <- nb_vals. apply NoDup_cons in Hn as [Hl Hn]. apply NoDup_app.
    split; [done|]. split; [set_solver | apply NoDup_singleton]. }
  apply NoDup_mid in Hn'. tauto.
Qed.

Lemma nb_elem x : x ∈ l :: xs1 ++ xs2 ↔ x ∈ A ∨ x = p ∨ x ∈ xs2.
Proof. rewrite nb_keys. set_solver. Qed.

Lemma nb_p_in : p ∈ l :: xs1.
Proof. rewrite (nb_left Hnb). set_solver. Qed.

Lemma nb_q_in : q ∈ l :: xs2.
Proof.
  assert (q ∈ xs2 ++ [l]) as Hq by (rewrite (nb_right Hnb); set_solver).
  set_solver.
Qed.

Lemma nb_A_in : A ⊆ l :: xs1.
Proof. rewrite (nb_left Hnb). set_solver. Qed.

Lemma nb_R_in : R ⊆ l :: xs2.
Proof.
  intros x Hx. assert (x ∈ xs2 ++ [l]) as Hq
    by (rewrite (nb_right Hnb); set_solver).
  set_solver.
Qed.
End splice.
Arguments nb_length_l {l xs1 xs2 p q A R} _.
Arguments nb_keys {l xs1 xs2 p q A R} _ ys.
Arguments nb_vals {l xs1 xs2 p q A R} _ ys.
Arguments nb_nodup_l {l xs1 xs2 p q A R} _ {ys} _.
Arguments nb_nodup_r {l xs1 xs2 p q A R} _ {ys} _.
Arguments nb_p_in {l xs1 xs2 p q A R} _.
Arguments nb_q_in {l xs1 xs2 p q A R} _.
Arguments nb_A_in {l xs1 xs2 p q A R} _.
Arguments nb_R_in {l xs1 xs2 p q A R} _.

(** Everything the splice lemmas need about a gap of a duplicate-free list. *)
Ltac gap_facts Hnb Hnd :=
  pose proof (nb_length_l Hnb);
  pose proof (nb_nodup_l Hnb Hnd) as [? ?]; pose proof (nb_nodup_r Hnb Hnd) as [? ?];
  pose proof (nb_p_in Hnb); pose proof (nb_q_in Hnb);
  pose proof (nb_A_in Hnb); pose proof (nb_R_in Hnb).

(** Solve a [maps] goal over a field that was updated outside its keys, or a
    lookup in such a field. *)
Ltac field_solve :=
  repeat first
    [ assumption
    | apply maps_insert; [set_solver|]
    | rewrite lookup_insert_eq; reflexivity
    | rewrite lookup_insert_ne by set_solver ].

(** ** Splicing a node in and out of a circular list *)
Lemma dlist_splice_in h h' l xs1 xs2 p q A R n :
  neighbours l xs1 xs2 p q A R →
  dlist h l (xs1 ++ xs2) → n ∉ l :: xs1 ++ xs2 → n ≠ NULL →
  next h' = <[p := n]> (<[n := q]> (next h)) →
  prev h' = <[q := n]> (<[n := p]> (prev h)) →
  container h' = <[n := l]> (container h) →
  dlist h' l (xs1 ++ n :: xs2).
Proof.
  intros Hnb [Hnd Hnn Hx Hp Hc] Hfr Hn0 Ex Ep Ec.
  gap_facts Hnb Hnd.
  rewrite (nb_keys Hnb), (nb_vals Hnb) in Hx, Hp.
  apply maps_app in Hx as [Hx1 [Hxp Hx2]%maps_cons]; [|done].
  apply maps_app in Hp as [Hp1 [Hpq Hp2']%maps_cons]; [|done].
  split.
  - apply (NoDup_mid (l :: xs1)). set_solver.
  - set_solver.
  - rewrite (nb_keys Hnb), <- app_assoc, <- app_comm_cons,
      (nb_right Hnb), Ex.
    apply maps_app; [done|]. rewrite !maps_cons. split_and!; field_solve.
  - rewrite (nb_keys Hnb), <- app_assoc, <- app_comm_cons,
      (nb_right Hnb), Ep.
    apply maps_app; [done|]. rewrite !maps_cons. split_and!; field_solve.
  - rewrite Ec. rewrite Forall_forall in Hc |- *. intros x Hxin.
    destruct (decide (x = n)) as [->|Hne]; [by rewrite lookup_insert_eq|].
    rewrite lookup_insert_ne by done. apply Hc. set_solver.
Qed.

Lemma dlist_splice_out h h' l xs1 xs2 p q A R x :
  neighbours l xs1 xs2 p q A R →
  dlist h l (xs1 ++ x :: xs2) →
  next h' = <[x := NULL]> (<[p := q]> (next h)) →
  prev h' = <[x := NULL]> (<[q := p]> (prev h)) →
  container h' = <[x := NULL]> (container h) →
  dlist h' l (xs1 ++ xs2) ∧ detached h' x.
Proof.
  intros Hnb [Hnd Hnn Hx Hp Hc] Ex Ep Ec.
  assert (NoDup (l :: xs1 ++ xs2) ∧ (x ∉ l :: xs1 ++ xs2)) as [Hnd' Hfr].
  { apply (NoDup_mid (l :: xs1)) in Hnd. set_solver. }
  gap_facts Hnb Hnd'.
  rewrite (nb_keys Hnb), <- app_assoc, <- app_comm_cons,
    (nb_right Hnb) in Hx, Hp.
  apply maps_app in Hx as [Hx1 [Hxp [Hxx Hx2]%maps_cons]%maps_cons]; [|done].
  apply maps_app in Hp as [Hp1 [Hpq [Hpx Hp2']%maps_cons]%maps_cons]; [|done].
  split; split.
  - done.
  - set_solver.
  - rewrite (nb_keys Hnb), (nb_vals Hnb), Ex.
    apply maps_app; [done|]. rewrite !maps_cons. split_and!; field_solve.
  - rewrite (nb_keys Hnb), (nb_vals Hnb), Ep.
    apply maps_app; [done|]. rewrite !maps_cons. split_and!; field_solve.
  - rewrite Ec. rewrite Forall_forall in Hc |- *. intros y Hy.
    rewrite lookup_insert_ne by set_solver. apply Hc. set_solver.
  - by rewrite Ex, lookup_insert_eq.
  - by rewrite Ep, lookup_insert_eq.
  - by rewrite Ec, lookup_insert_eq.
Qed.

(** ** Running the library on a represented store *)

Lemma nonnull_true p : p ≠ NULL → nonnull p = true.
Proof. unfold nonnull. intros H. by apply negb_true_iff, Z.eqb_neq. Qed.

(** Resolve the loads and stores of a list program against the field facts of
    the context. *)
Ltac lrun :=
  repeat first
    [ progress mrun
    | progress unfold set_next, set_prev, set_container, get_next, get_prev,
        get_container, load
    | progress cbn [next prev container names]
    | rewrite nonnull_true by done
    | match goal with H : ?f !! ?k = Some _ |- context [?f !! ?k] => rewrite H end
    | rewrite lookup_insert_eq
    | rewrite lookup_insert_ne by first [done | congruence | set_solver] ].

Lemma list_holding_detached h n : detached h n → list_holding n h = Ok (false, h).
Proof. intros []. unfold list_holding. by lrun. Qed.

Lemma dlist_member h l xs x :
  dlist h l xs → x ∈ xs →
  ∃ n p, next h !! x = Some n ∧ prev h !! x = Some p ∧ container h !! x = Some l ∧
    n ≠ NULL ∧ p ≠ NULL ∧ l ≠ NULL.
Proof.
  intros [Hnd Hnn Hx Hp Hc] Hin.
  destruct (maps_lookup _ _ _ x Hx) as (n & En & Hn); [set_solver|].
  destruct (maps_lookup _ _ _ x Hp) as (p & Ep & Hp'); [set_solver|].
  rewrite Forall_forall in Hc. specialize (Hc x Hin).
  exists n, p. split_and!; try done; intros ->; set_solver.
Qed.

Lemma list_holding_member h l xs x :
  dlist h l xs → x ∈ xs → list_holding x h = Ok (true, h).
Proof.
  intros Hd Hin. destruct (dlist_member _ _ _ _ Hd Hin) as (n & p & ? & ? & ? & Hn & Hp & Hl).
  unfold list_holding. by lrun.
Qed.

(** A detached node is in no represented list. *)
Lemma detached_fresh h l xs n : dlist h l xs → detached h n → n ∉ l :: xs.
Proof.
  intros [Hnd Hnn Hx Hp Hc] [Hn _ _] Hin.
  destruct (maps_lookup _ _ _ n Hx Hin) as (v & E & Hv).
  rewrite Hn in E. injection E as <-. set_solver.
Qed.

(** The first and the last link of a represented list. *)
Lemma dlist_ends h l xs1 xs2 p q A R :
  neighbours l xs1 xs2 p q A R → dlist h l (xs1 ++ xs2) →
  next h !! p = Some q ∧ prev h !! q = Some p.
Proof.
  intros Hnb [Hnd Hnn Hx Hp Hc]. pose proof (nb_length_l Hnb).
  rewrite (nb_keys Hnb), (nb_vals Hnb) in Hx, Hp.
  apply maps_app in Hx as [_ [? _]%maps_cons]; [|done].
  apply maps_app in Hp as [_ [? _]%maps_cons]; done.
Qed.

(** The store after [list_prepend]/[list_append] put [n] between [p] and [q]. *)
Definition spliced_in (h : lheap) (l p q n : Z) : lheap :=
  mk_lheap (<[p := n]> (<[n := q]> (next h))) (<[q := n]> (<[n := p]> (prev h)))
    (<[n := l]> (container h)) (names h).

Lemma list_append_run h l xs n :
  dlist h l xs → detached h n →
  ∃ p A, l :: xs = A ++ [p] ∧
    list_append l n h = Ok (tt, spliced_in h l p l n).
Proof.
  intros Hd Hn. pose proof (detached_fresh _ _ _ _ Hd Hn) as Hfr.
  destruct (cons_snoc l xs) as (A & p & E). exists p, A. split; [done|].
  assert (neighbours l xs [] p l A []) as Hnb by done.
  assert (p ∈ l :: xs) as Hp by exact (nb_p_in Hnb).
  rewrite <- (app_nil_r xs) in Hd.
  destruct (dlist_ends _ _ _ _ _ _ _ _ Hnb Hd) as [Hpl Hlp].
  unfold list_append. rewrite (bind_Ok _ _ _ _ _ (list_holding_detached _ _ Hn)).
  destruct Hn as [Hn1 Hn2 Hn3]. lrun. done.
Qed.

Lemma list_prepend_run h l xs n :
  dlist h l xs → detached h n →
  ∃ q R, xs ++ [l] = q :: R ∧
    list_prepend l n h = Ok (tt, spliced_in h l l q n).
Proof.
  intros Hd Hn. pose proof (detached_fresh _ _ _ _ Hd Hn) as Hfr.
  destruct (snoc_cons xs l) as (q & R & E). exists q, R. split; [done|].
  assert (neighbours l [] xs l q [] R) as Hnb by done.
  assert (q ∈ l :: xs) as Hq by exact (nb_q_in Hnb).
  destruct (dlist_ends _ _ [] _ _ _ _ _ Hnb Hd) as [Hpl Hlp].
  unfold list_prepend. rewrite (bind_Ok _ _ _ _ _ (list_holding_detached _ _ Hn)).
  destruct Hn as [Hn1 Hn2 Hn3]. lrun. done.
Qed.

(** The store after [x] was taken out from between [p] and [q]. *)
Definition spliced_out (h : lheap) (p q x : Z) : lheap :=
  mk_lheap (<[x := NULL]> (<[p := q]> (next h))) (<[x := NULL]> (<[q := p]> (prev h)))
    (<[x := NULL]> (container h)) (names h).

(** The links around a member [x]. *)
Lemma dlist_links h l xs1 x xs2 p q A R :
  neighbours l xs1 xs2 p q A R → dlist h l (xs1 ++ x :: xs2) →
  next h !! p = Some x ∧ prev h !! x = Some p ∧ next h !! x = Some q ∧ prev h !! q = Some x ∧
  p ≠ x ∧ q ≠ x ∧ container h !! x = Some l.
Proof.
  intros Hnb Hd.
  assert (neighbours l xs1 (x :: xs2) p x A (q :: R)) as Hnb1.
  { split; [apply Hnb|]. simpl. by rewrite (nb_right Hnb). }
  assert (neighbours l (xs1 ++ [x]) xs2 x q (A ++ [p]) R) as Hnb2.
  { split; [|apply Hnb]. by rewrite app_comm_cons, (nb_left Hnb). }
  destruct (dlist_ends _ _ _ _ _ _ _ _ Hnb1 Hd) as [? ?].
  destruct (dlist_member _ _ _ x Hd) as (? & ? & ? & ? & ? & _); [set_solver|].
  destruct Hd as [Hnd Hnn Hx Hp Hc].
  pose proof (nb_p_in Hnb). pose proof (nb_q_in Hnb).
  pose proof (proj1 (NoDup_mid (l :: xs1) xs2 x) Hnd) as (? & ? & _).
  rewrite (cons_middle x xs1 xs2), app_assoc in *.
  destruct (dlist_ends h _ _ _ _ _ _ _ Hnb2) as [? ?]; [by split|].
  split_and!; try done; set_solver.
Qed.

Lemma list_delete_run h l xs1 x xs2 p q A R :
  neighbours l xs1 xs2 p q A R → dlist h l (xs1 ++ x :: xs2) →
  list_delete x h = Ok (tt, spliced_out h p q x).
Proof.
  intros Hnb Hd. unfold list_delete.
  rewrite (bind_Ok _ _ _ _ _ (list_holding_member _ _ _ x Hd ltac:(set_solver))).
  destruct (dlist_links _ _ _ _ _ _ _ _ _ Hnb Hd) as (? & ? & ? & ? & ? & ? & ?).
  by lrun.
Qed.

Lemma list_shift_run h l x xs :
  dlist h l (x :: xs) →
  ∃ q R, neighbours l [] xs l q [] R ∧ list_shift l h = Ok (x, spliced_out h l q x).
Proof.
  intros Hd. destruct (snoc_cons xs l) as (q & R & E). exists q, R.
  assert (neighbours l [] xs l q [] R) as Hnb by done. split; [done|].
  destruct (dlist_links _ _ [] _ _ _ _ _ _ Hnb Hd) as (? & ? & ? & ? & Hlx & ? & ?).
  unfold list_shift. lrun. rewrite (proj2 (Z.eqb_neq x l)) by done. by lrun.
Qed.

Lemma list_pop_run h l xs x :
  dlist h l (xs ++ [x]) →
  ∃ p A, neighbours l xs [] p l A [] ∧ list_pop l h = Ok (x, spliced_out h p l x).
Proof.
  intros Hd. destruct (cons_snoc l xs) as (A & p & E). exists p, A.
  assert (neighbours l xs [] p l A []) as Hnb by done. split; [done|].
  destruct (dlist_links _ _ _ _ _ _ _ _ _ Hnb Hd) as (? & ? & ? & ? & ? & Hlx & ?).
  unfold list_pop. lrun. rewrite (proj2 (Z.eqb_neq x l)) by done. by lrun.
Qed.

Lemma list_empty_run h l :
  dlist h l [] → list_shift l h = Ok (NULL, h) ∧ list_pop l h = Ok (NULL, h).
Proof.
  intros [_ _ [Hn _]%maps_cons [Hp _]%maps_cons _].
  unfold list_shift, list_pop. lrun. by rewrite Z.eqb_refl.
Qed.

Lemma list_size_loop_run h l xs cur k fuel size :
  maps (next h) xs k → xs ++ [l] = cur :: k → l ∉ xs →
  (length xs < fuel)%nat → 0 ≤ size → size + Z.of_nat (length xs) < 2 ^ 64 →
  list_size_loop fuel l cur size h = Ok (size + Z.of_nat (length xs), h).
Proof.
  revert xs cur k size. induction fuel as [|fuel IH]; intros xs cur k size Hm E Hl Hf H0 H64; [lia|].
  destruct xs as [|x xs]; simpl in *; injection E as <- <-.
  - rewrite Z.eqb_refl. unfold ret. f_equal. f_equal. lia.
  - rewrite (proj2 (Z.eqb_neq x l)) by set_solver.
    destruct (snoc_cons xs l) as (y & ys & Ey). rewrite Ey in Hm.
    apply maps_cons in Hm as [Hx Hm]. lrun. unfold u64, wrap.
    rewrite Z.mod_small by lia.
    rewrite (IH xs y ys); [do 2 f_equal; lia | done | done | set_solver | lia | lia | lia].
Qed.

Lemma list_size_run h l xs fuel :
  dlist h l xs → (length xs < fuel)%nat → Z.of_nat (length xs) < 2 ^ 64 →
  list_size fuel l h = Ok (Z.of_nat (length xs), h).
Proof.
  intros [Hnd Hnn Hx Hp Hc] Hf H64. destruct (snoc_cons xs l) as (q & R & E).
  rewrite E in Hx. apply maps_cons in Hx as [Hlq Hx]. unfold list_size. lrun.
  apply (list_size_loop_run _ _ xs _ R); try done.
  apply NoDup_cons in Hnd. tauto.
Qed.

(** A list is unaffected by changes to nodes that are not its own. *)
Lemma dlist_frame h h' l xs :
  (∀ a, a ∈ l :: xs → next h' !! a = next h !! a ∧ prev h' !! a = prev h !! a ∧
    container h' !! a = container h !! a) →
  dlist h l xs → dlist h' l xs.
Proof.
  intros Hs [Hnd Hnn Hx Hp Hc]. split; try done.
  - eapply maps_ext; [|done]. intros. by apply Hs.
  - eapply maps_ext; [|done]. intros. apply Hs. set_solver.
  - rewrite Forall_forall in Hc |- *. intros x Hx'. rewrite <- (Hc x Hx'). apply Hs. set_solver.
Qed.

(** ** The abstract specification: a family of sequences *)

(** [seqs] maps a list to its elements, [loose] is the set of the nodes that
    are in no list. *)
Record seqs_state := mk_seqs { seqs : gmap Z (list Z); loose : gset Z }.

Inductive list_op :=
| OpPrepend (l n : Z)
| OpAppend (l n : Z)
| OpShift (l : Z)
| OpPop (l : Z)
| OpDelete (n : Z)
| OpDestruct (n : Z)
| OpSize (l : Z).

(** What an operation returns and does on the sequences. *)
Inductive seq_step : list_op → seqs_state → Z → seqs_state → Prop :=
| step_prepend L D l n xs :
    L !! l = Some xs → n ∈ D →
    seq_step (OpPrepend l n) (mk_seqs L D) 0 (mk_seqs (<[l := n :: xs]> L) (D ∖ {[n]}))
| step_prepend_held L D l n l' xs' :
    L !! l' = Some xs' → n ∈ xs' →
    seq_step (OpPrepend l n) (mk_seqs L D) 0 (mk_seqs L D)
| step_append L D l n xs :
    L !! l = Some xs → n ∈ D →
    seq_step (OpAppend l n) (mk_seqs L D) 0 (mk_seqs (<[l := xs ++ [n]]> L) (D ∖ {[n]}))
| step_append_held L D l n l' xs' :
    L !! l' = Some xs' → n ∈ xs' →
    seq_step (OpAppend l n) (mk_seqs L D) 0 (mk_seqs L D)
| step_shift L D l x xs :
    L !! l = Some (x :: xs) →
    seq_step (OpShift l) (mk_seqs L D) x (mk_seqs (<[l := xs]> L) (D ∪ {[x]}))
| step_shift_empty L D l :
    L !! l = Some [] → seq_step (OpShift l) (mk_seqs L D) NULL (mk_seqs L D)
| step_pop L D l x xs :
    L !! l = Some (xs ++ [x]) →
    seq_step (OpPop l) (mk_seqs L D) x (mk_seqs (<[l := xs]> L) (D ∪ {[x]}))
| step_pop_empty L D l :
    L !! l = Some [] → seq_step (OpPop l) (mk_seqs L D) NULL (mk_seqs L D)
| step_delete L D l xs1 x xs2 :
    L !! l = Some (xs1 ++ x :: xs2) →
    seq_step (OpDelete x) (mk_seqs L D) 0 (mk_seqs (<[l := xs1 ++ xs2]> L) (D ∪ {[x]}))
| step_destruct L D l xs1 x xs2 :
    L !! l = Some (xs1 ++ x :: xs2) →
    seq_step (OpDestruct x) (mk_seqs L D) 0 (mk_seqs (<[l := xs1 ++ xs2]> L) (D ∪ {[x]}))
| step_destruct_loose L D x :
    x ∈ D → seq_step (OpDestruct x) (mk_seqs L D) 0 (mk_seqs L D)
| step_size L D l xs :
    L !! l = Some xs → Z.of_nat (length xs) < 2 ^ 64 →
    seq_step (OpSize l) (mk_seqs L D) (Z.of_nat (length xs)) (mk_seqs L D).

(** The operation of list.c; [void] functions return 0. *)
Definition run_op (fuel : nat) (op : list_op) : M lheap Z :=
  match op with
  | OpPrepend l n => list_prepend l n ;; ret 0
  | OpAppend l n => list_append l n ;; ret 0
  | OpShift l => list_shift l
  | OpPop l => list_pop l
  | OpDelete n => list_delete n ;; ret 0
  | OpDestruct n => list_node_destruct n ;; ret 0
  | OpSize l => list_size fuel l
  end.

(** The store represents the sequences. *)
Record represents (h : lheap) (a : seqs_state) : Prop := {
  rep_dlist l xs : seqs a !! l = Some xs → dlist h l xs;
  rep_disjoint l1 l2 xs1 xs2 :
    seqs a !! l1 = Some xs1 → seqs a !! l2 = Some xs2 → l1 ≠ l2 → (l1 :: xs1) ## (l2 :: xs2);
  rep_loose n : n ∈ loose a → detached h n ∧ n ≠ NULL;
}.

Lemma detached_frame h h' a :
  next h' !! a = next h !! a ∧ prev h' !! a = prev h !! a ∧
  container h' !! a = container h !! a →
  detached h a → detached h' a.
Proof. intros (E1 & E2 & E3) []. split; congruence. Qed.

(** Nodes away from the gap are not written. *)
Lemma spliced_in_other h l p q n a :
  a ≠ n → a ≠ p → a ≠ q →
  next (spliced_in h l p q n) !! a = next h !! a ∧
  prev (spliced_in h l p q n) !! a = prev h !! a ∧
  container (spliced_in h l p q n) !! a = container h !! a.
Proof. intros. simpl. by rewrite !lookup_insert_ne by done. Qed.

Lemma spliced_out_other h p q x a :
  a ≠ x → a ≠ p → a ≠ q →
  next (spliced_out h p q x) !! a = next h !! a ∧
  prev (spliced_out h p q x) !! a = prev h !! a ∧
  container (spliced_out h p q x) !! a = container h !! a.
Proof. intros. simpl. by rewrite !lookup_insert_ne by done. Qed.

(** [a] is not [b]: it belongs to a list disjoint from the one of [b]. *)
Ltac elsewhere Hdisj Ha :=
  intros ->; refine (Hdisj _ _ Ha); clear Hdisj Ha; set_solver.

(** Replacing the elements of one list keeps the family disjoint, when the new
    elements are old ones or fresh. *)
Lemma disjoint_update (L : gmap Z (list Z)) l xs xs' :
  (∀ l1 l2 ys1 ys2, L !! l1 = Some ys1 → L !! l2 = Some ys2 → l1 ≠ l2 →
    (l1 :: ys1) ## (l2 :: ys2)) →
  L !! l = Some xs →
  (∀ x, x ∈ xs' → x ∈ xs ∨ ∀ l' ys, L !! l' = Some ys → x ∉ l' :: ys) →
  ∀ l1 l2 ys1 ys2, <[l := xs']> L !! l1 = Some ys1 → <[l := xs']> L !! l2 = Some ys2 →
    l1 ≠ l2 → (l1 :: ys1) ## (l2 :: ys2).
Proof.
  intros Hdisj Hl Hin l1 l2 ys1 ys2 H1 H2 Hne b Hb1 Hb2.
  apply lookup_insert_Some in H1 as [[<- <-]|[? H1]];
    apply lookup_insert_Some in H2 as [[<- <-]|[? H2]]; [done|..].
  - apply elem_of_cons in Hb1 as [->|[Hb1|Hb1]%Hin];
      [by apply (Hdisj l l2 _ _ Hl H2 Hne l); [left|] | | by apply (Hb1 l2 ys2)].
    by apply (Hdisj l l2 _ _ Hl H2 Hne b); [right|].
  - apply elem_of_cons in Hb2 as [->|[Hb2|Hb2]%Hin];
      [by apply (Hdisj l1 l _ _ H1 Hl Hne l); [|left] | | by apply (Hb2 l1 ys1)].
    by apply (Hdisj l1 l _ _ H1 Hl Hne b); [|right].
  - by apply (Hdisj l1 l2 _ _ H1 H2 Hne b).
Qed.

Section simulation.
Context (h : lheap) (L : gmap Z (list Z)) (D : gset Z).
Context (Hrep : represents h (mk_seqs L D)).

(** A loose node, a list and a gap of it. *)
Lemma represents_in l xs1 xs2 n p q A R :
  L !! l = Some (xs1 ++ xs2) → n ∈ D → neighbours l xs1 xs2 p q A R →
  represents (spliced_in h l p q n) (mk_seqs (<[l := xs1 ++ n :: xs2]> L) (D ∖ {[n]})).
Proof.
  destruct Hrep as [Hd Hdisj Hloose]; simpl in *. intros Hl HnD Hnb.
  destruct (Hloose n HnD) as [Hn Hn0].
  pose proof (nb_p_in Hnb). pose proof (nb_q_in Hnb).
  assert (∀ l' xs', L !! l' = Some xs' → n ∉ l' :: xs') as Hfr.
  { intros l' xs' Hl'. eapply detached_fresh; eauto. }
  split; simpl.
  - intros l' xs' [[<- <-]|[Hne Hl']]%lookup_insert_Some.
    + eapply dlist_splice_in; eauto.
    + eapply dlist_frame; [|eauto]. intros a Ha.
      pose proof (Hfr l' xs' Hl'). specialize (Hdisj l l' _ _ Hl Hl' Hne).
      apply spliced_in_other; [set_solver | elsewhere Hdisj Ha..].
  - eapply disjoint_update; [exact Hdisj | exact Hl |]. intros x.
    rewrite elem_of_app, elem_of_cons.
    intros [?|[->|?]]; [left; set_solver | right; apply Hfr | left; set_solver].
  - intros m Hm. destruct (Hloose m) as [Hdet Hm0]; [set_solver|]. split; [|done].
    pose proof (detached_fresh _ _ _ _ (Hd _ _ Hl) Hdet).
    eapply detached_frame; [|done]. apply spliced_in_other; set_solver.
Qed.

Lemma represents_out l xs1 x xs2 p q A R :
  L !! l = Some (xs1 ++ x :: xs2) → neighbours l xs1 xs2 p q A R →
  represents (spliced_out h p q x) (mk_seqs (<[l := xs1 ++ xs2]> L) (D ∪ {[x]})).
Proof.
  destruct Hrep as [Hd Hdisj Hloose]; simpl in *. intros Hl Hnb.
  pose proof (nb_p_in Hnb). pose proof (nb_q_in Hnb).
  destruct (dlist_splice_out h (spliced_out h p q x) l xs1 xs2 p q A R x) as [Hd' Hdet]; eauto.
  split; simpl.
  - intros l' xs' [[<- <-]|[Hne Hl']]%lookup_insert_Some; [done|].
    eapply dlist_frame; [|eauto]. intros a Ha.
    specialize (Hdisj l l' _ _ Hl Hl' Hne). apply spliced_out_other; elsewhere Hdisj Ha.
  - eapply disjoint_update; [exact Hdisj | exact Hl |]. intros y Hy. left. set_solver.
  - intros m [Hm| ->%elem_of_singleton]%elem_of_union.
    + destruct (Hloose m) as [Hm' Hm0]; [done|]. split; [|done].
      pose proof (detached_fresh _ _ _ _ (Hd _ _ Hl) Hm').
      eapply detached_frame; [|done]. apply spliced_out_other; set_solver.
    + split; [done|]. destruct (Hd _ _ Hl) as [_ Hnn _ _ _]. intros ->. set_solver.
Qed.
End simulation.

(** Fuel for [list_size] that is enough in an abstract state. *)
Definition enough_fuel (fuel : nat) (a : seqs_state) : Prop :=
  ∀ l xs, seqs a !! l = Some xs → (length xs < fuel)%nat.

(** C31 list.c implements the sequence specification. From a store that
    represents a family of disjoint sequences, every operation the
    specification allows runs to completion, returns what the specification
    says and leaves a store that represents the resulting family: appending
    and prepending insert at the ends, shift and pop take from the ends (NULL
    when the list is empty), delete and destruct take a member out from
    anywhere, a node that is already in a list is never inserted twice, and
    [list_size] terminates with the length. *)
Theorem list_refines_sequences fuel op h a r a' :
  represents h a → enough_fuel fuel a → seq_step op a r a' →
  ∃ h', run_op fuel op h = Ok (r, h') ∧ represents h' a'.
Proof.
  intros Hrep Hfuel Hstep. destruct Hstep; simpl; unfold list_node_destruct;
    pose proof (rep_dlist _ _ Hrep) as Hd; simpl in Hd.
  - destruct (rep_loose _ _ Hrep n) as [Hn _]; [done|].
    destruct (list_prepend_run h l xs n) as (q & R & E & Hrun); eauto.
    rewrite (bind_Ok _ _ _ _ _ Hrun). eexists; split; [done|].
    by apply (represents_in h L D Hrep l [] xs n l q [] R).
  - unfold list_prepend. rewrite (bind_Ok _ _ h tt h); [by eexists|].
    by rewrite (bind_Ok _ _ _ _ _ (list_holding_member _ _ _ n (Hd _ _ H) H0)).
  - destruct (rep_loose _ _ Hrep n) as [Hn _]; [done|].
    destruct (list_append_run h l xs n) as (p & A & E & Hrun); eauto.
    rewrite (bind_Ok _ _ _ _ _ Hrun). eexists; split; [done|].
    apply (represents_in h L D Hrep l xs [] n p l A []); [by rewrite app_nil_r | done | done].
  - unfold list_append. rewrite (bind_Ok _ _ h tt h); [by eexists|].
    by rewrite (bind_Ok _ _ _ _ _ (list_holding_member _ _ _ n (Hd _ _ H) H0)).
  - destruct (list_shift_run h l x xs) as (q & R & Hnb & Hrun); eauto.
    eexists; split; [done|]. by eapply (represents_out h L D Hrep l [] x xs).
  - eexists; split; [by apply list_empty_run, Hd | done].
  - destruct (list_pop_run h l xs x) as (p & A & Hnb & Hrun); eauto.
    eexists; split; [done|]. rewrite <- (app_nil_r xs) at 1.
    by eapply (represents_out h L D Hrep l xs x []).
  - eexists; split; [by apply list_empty_run, Hd | done].
  - destruct (neighbours_exist l xs1 xs2) as (p & q & A & R & Hnb).
    rewrite (bind_Ok _ _ _ _ _ (list_delete_run _ _ _ _ _ _ _ _ _ Hnb (Hd _ _ H))).
    eexists; split; [done|]. by eapply represents_out.
  - destruct (neighbours_exist l xs1 xs2) as (p & q & A & R & Hnb).
    erewrite (bind_Ok _ _ h tt); [eexists; split; [done|]; by eapply represents_out|].
    rewrite (bind_Ok _ _ _ _ _ (list_holding_member _ _ _ x (Hd _ _ H) ltac:(set_solver))).
    by rewrite (list_delete_run _ _ _ _ _ _ _ _ _ Hnb (Hd _ _ H)).
  - destruct (rep_loose _ _ Hrep x) as [Hx _]; [done|].
    rewrite (bind_Ok _ _ h tt h); [by eexists|].
    by rewrite (bind_Ok _ _ _ _ _ (list_holding_detached _ _ Hx)).
  - exists h. split; [|done]. by apply list_size_run; eauto.
Qed.

(** [list_init] makes the node at [l] the head of an empty list. *)
Lemma list_init_empty h l name :
  l ≠ NULL → is_Some (next h !! l) → is_Some (prev h !! l) →
  ∃ h', list_init l name h = Ok (tt, h') ∧ dlist h' l [] ∧
    (∀ a, a ≠ l → next h' !! a = next h !! a ∧ prev h' !! a = prev h !! a) ∧
    container h' = container h.
Proof.
  intros Hl [n En] [p Ep]. unfold list_init. lrun. eexists. split; [done|]. simpl.
  split_and!; [|intros a Ha; by rewrite !lookup_insert_ne by congruence|done].
  split; simpl.
  - apply NoDup_singleton.
  - set_solver.
  - apply maps_cons. split; [by rewrite lookup_insert_eq | apply maps_nil].
  - apply maps_cons. split; [by rewrite lookup_insert_eq | apply maps_nil].
  - done.
Qed.

(** A store with an initialised list at 100 and two loose nodes. *)
Definition demo_heap : lheap :=
  mk_lheap {[100 := 100; 1 := NULL; 2 := NULL]} {[100 := 100; 1 := NULL; 2 := NULL]}
    {[100 := NULL; 1 := NULL; 2 := NULL]} {[100 := "ready"%string]}.

Lemma demo_heap_represents : represents demo_heap (mk_seqs {[100 := []]} {[1; 2]}).
Proof.
  split; simpl.
  - intros l xs [<- <-]%lookup_singleton_Some. split; simpl.
    + apply NoDup_singleton.
    + set_solver.
    + apply maps_cons. split; [done | apply maps_nil].
    + apply maps_cons. split; [done | apply maps_nil].
    + done.
  - intros l1 l2 xs1 xs2 [<- _]%lookup_singleton_Some [<- _]%lookup_singleton_Some. done.
  - intros n [->%elem_of_singleton| ->%elem_of_singleton]%elem_of_union; by repeat split.
Qed.

Lemma list_refines_sequences_witness :
  ∃ h', run_op 5 (OpAppend 100 1) demo_heap = Ok (0, h') ∧
    represents h' (mk_seqs (<[100 := [1]]> {[100 := []]}) ({[1; 2]} ∖ {[1]})).
Proof.
  apply (list_refines_sequences 5 (OpAppend 100 1) demo_heap (mk_seqs {[100 := []]} {[1; 2]}) 0).
  - exact demo_heap_represents.
  - intros l xs Hl. simpl in Hl. apply lookup_singleton_Some in Hl as [<- <-]. simpl. lia.
  - apply (step_append {[100 := []]} {[1; 2]} 100 1 []); [reflexivity | set_solver].
Defined.
