(* ===== verification/Kmalloc.v ===== *)
(** * kernel/mm/kmalloc.c: the buddy allocator

    The pool of 1024 pages is divided into blocks of 2^4 .. 2^22 bytes. Free
    blocks are threaded through their own first word into one singly linked
    list per order; an allocated block starts with an 8-byte header (order and
    magic). The model keeps the memory as 64-bit words, so the header and the
    link of a free block overlap exactly as in the source.

    The abstraction is the buddy tree: a binary tree over the pool whose
    leaves are the blocks. Allocation splits a free leaf along its left spine,
    freeing collapses the path upwards while the sibling is a free leaf. *)

From S2P Require Import Prelude.

(** ** Constants *)
Definition PAGE_SIZE : Z := 4096.
Definition POOL_PAGES : Z := 1024.
Definition MIN_ORDER : Z := 4.
Definition MIN_BLOCK_SIZE : Z := Z.shiftl 1 MIN_ORDER.
Definition POOL_BYTES : Z := POOL_PAGES * PAGE_SIZE.
(** [ILOG2_CONST(POOL_BYTES)], the trailing zeros of a power of two. *)
Definition MAX_ORDER : Z := Z.log2 POOL_BYTES.
Definition ORDER_COUNT : Z := MAX_ORDER - MIN_ORDER + 1.
Definition HEADER_MAGIC : Z := 0xC0DECAFE.
(** [sizeof(block_header_t)]: two [uint32_t]. *)
Definition sizeof_header : Z := 8.

(** ** State *)
Record kstate := mk_kstate {
  mem : gmap Z Z;          (* the 64-bit words of kernel memory, by address *)
  free_lists : list Z;
  pool_base : Z;
  pool_end : Z;
  kmalloc_ready : bool;
}.

(** Memory that was never written reads as zero. *)
Definition word (m : gmap Z Z) (a : Z) : Z := default 0 (m !! a).

Definition set_mem (m : gmap Z Z) (s : kstate) : kstate :=
  mk_kstate m (free_lists s) (pool_base s) (pool_end s) (kmalloc_ready s).
Definition set_free_lists (f : list Z) (s : kstate) : kstate :=
  mk_kstate (mem s) f (pool_base s) (pool_end s) (kmalloc_ready s).

Definition load_word (a : Z) : M kstate Z := gets (fun s => word (mem s) a).
Definition store_word (a v : Z) : M kstate unit :=
  modify (fun s => set_mem (<[a := v]> (mem s)) s).

(** [free_lists[idx]]; an index outside the array is a fault. *)
Definition load_list (idx : Z) : M kstate Z := fun s =>
  if idx <? 0 then Panic "fault" else
  match free_lists s !! Z.to_nat idx with
  | Some p => Ok (p, s)
  | None => Panic "fault"
  end.
Definition store_list (idx v : Z) : M kstate unit :=
  load_list idx ;;
  modify (fun s => set_free_lists (<[Z.to_nat idx := v]> (free_lists s)) s).

(** The fields of [block_header_t]: [order] is the low half of the first word
    of the block and [magic] the high half. *)
Definition header_order (w : Z) : Z := w mod 2 ^ 32.
Definition header_magic (w : Z) : Z := w / 2 ^ 32.
Definition set_header_order (a v : Z) : M kstate unit :=
  w <- load_word a ;; store_word a (header_magic w * 2 ^ 32 + u32 v).
Definition set_header_magic (a v : Z) : M kstate unit :=
  w <- load_word a ;; store_word a (u32 v * 2 ^ 32 + header_order w).

(** ** Operations *)
Definition order_size (order : Z) : Z := u64 (Z.shiftl 1 order).
Definition order_index (order : Z) : Z := order - MIN_ORDER.

Definition push_block (order addr : Z) : M kstate unit :=
  let idx := order_index order in
  head <- load_list idx ;;
  store_word addr head ;;
  store_list idx addr.

Definition pop_block (order : Z) : M kstate Z :=
  let idx := order_index order in
  block <- load_list idx ;;
  if block =? 0 then ret 0 else
  nxt <- load_word block ;;
  store_list idx nxt ;;
  ret block.

(** [while (cur > order) { cur--; push_block(cur, block + order_size(cur)); }] *)
Fixpoint split_loop (n : nat) (cur order block : Z) : M kstate unit :=
  if cur >? order then
    match n with
    | O => no_fuel
    | S n =>
        let cur := cur - 1 in
        let buddy := u64 (block + order_size cur) in
        push_block cur buddy ;;
        split_loop n cur order block
    end
  else ret tt.

(** [for (int cur = order; cur <= MAX_ORDER; cur++)] *)
Fixpoint acquire_loop (n : nat) (cur order : Z) : M kstate Z :=
  if cur <=? MAX_ORDER then
    match n with
    | O => no_fuel
    | S n =>
        block <- pop_block cur ;;
        if block =? 0 then acquire_loop n (cur + 1) order else
        split_loop (Z.to_nat (cur - order)) cur order block ;;
        ret block
    end
  else ret 0.

Definition acquire_block (order : Z) : M kstate Z :=
  acquire_loop (Z.to_nat (MAX_ORDER - order + 1)) order order.

(** The place [prev] of the search loop of [merge_block] points to. *)
Inductive slot :=
| ListHead (idx : Z)   (* &free_lists[idx] *)
| NextOf (addr : Z).   (* &cur->next *)

Definition store_slot (p : slot) (v : Z) : M kstate unit :=
  match p with
  | ListHead idx => store_list idx v
  | NextOf a => store_word a v
  end.

(** [while (cur) { if (cur == buddy) { *prev = cur->next; found; break; } ... }] *)
Fixpoint unlink_loop (fuel : nat) (buddy : Z) (prev : slot) (cur : Z) : M kstate bool :=
  match fuel with
  | O => no_fuel
  | S fuel =>
      if cur =? 0 then ret false else
      if cur =? buddy then
        nxt <- load_word cur ;; store_slot prev nxt ;; ret true
      else
        nxt <- load_word cur ;; unlink_loop fuel buddy (NextOf cur) nxt
  end.

(** The outer loop of [merge_block]; it returns the final address and order. *)
Fixpoint merge_loop (n fuel : nat) (addr order : Z) : M kstate (Z * Z) :=
  if order <? MAX_ORDER then
    match n with
    | O => no_fuel
    | S n =>
        base <- gets pool_base ;;
        let offset := u64 (addr - base) in
        let buddy := u64 (base + Z.lxor offset (order_size order)) in
        let idx := order_index order in
        cur <- load_list idx ;;
        found <- unlink_loop fuel buddy (ListHead idx) cur ;;
        if negb found then ret (addr, order) else
        merge_loop n fuel (if buddy <? addr then buddy else addr) (order + 1)
    end
  else ret (addr, order).

Definition merge_block (fuel : nat) (addr order : Z) : M kstate unit :=
  let* (addr, order) := merge_loop (Z.to_nat (MAX_ORDER - order)) fuel addr order in
  push_block order addr.

(** [while (order <= MAX_ORDER && order_size(order) < total) order++] *)
Fixpoint fit_order (n : nat) (order total : Z) : Z :=
  match n with
  | O => order
  | S n => if (order <=? MAX_ORDER) && (order_size order <? total)
           then fit_order n (order + 1) total else order
  end.

Section Allocator.

(** The address [alloc_pageframe(PAGE_GROUP_KERNEL, POOL_PAGES)] returns. *)
Context (pool_addr : Z).

Definition init_kmalloc : M kstate unit :=
  let base := pool_addr in
  asserts (negb (base =? 0)) "alloc_pageframe failed" ;;
  modify (fun s => mk_kstate (mem s) (replicate (Z.to_nat ORDER_COUNT) 0) base
    (u64 (base + POOL_BYTES)) (kmalloc_ready s)) ;;
  push_block MAX_ORDER base ;;
  modify (fun s => mk_kstate (mem s) (free_lists s) (pool_base s) (pool_end s) true).

Definition ensure_ready : M kstate unit :=
  ready <- gets kmalloc_ready ;;
  if negb ready then init_kmalloc else ret tt.

Definition kmalloc (size : Z) : M kstate Z :=
  ensure_ready ;;
  if size =? 0 then ret NULL else
  let total := u64 (size + sizeof_header) in
  let total := if total <? MIN_BLOCK_SIZE then MIN_BLOCK_SIZE else total in
  let order := fit_order (Z.to_nat (ORDER_COUNT + 1)) MIN_ORDER total in
  if order >? MAX_ORDER then ret NULL (* logged *) else
  block <- acquire_block order ;;
  if block =? 0 then ret NULL (* logged *) else
  set_header_order block (u32 order) ;;
  set_header_magic block HEADER_MAGIC ;;
  ret (u64 (block + sizeof_header)).

Definition kfree (fuel : nat) (ptr : Z) : M kstate unit :=
  ensure_ready ;;
  if ptr =? NULL then ret tt else
  let addr := u64 (ptr - sizeof_header) in
  base <- gets pool_base ;;
  pend <- gets pool_end ;;
  if (addr <? base) || (addr >=? pend) then ret tt (* logged *) else
  w <- load_word addr ;;
  if negb (header_magic w =? HEADER_MAGIC) || (header_order w >? MAX_ORDER) ||
     (header_order w <? MIN_ORDER) then ret tt (* logged *) else
  set_header_magic addr 0 ;;
  w <- load_word addr ;;
  merge_block fuel addr (header_order w).

End Allocator.
