(* ===== verification/KmallocLists.v ===== *)
(** * The free lists of kmalloc.c as a multiset of blocks

    [flists s F U]: the words of memory link the free blocks [F] (pairs order,
    address) into the per-order lists, and the blocks [U] carry a valid
    header. Each list primitive of the allocator is specified on [F]. *)

From S2P Require Import Prelude Kmalloc.

(** The list starting at [p] holds exactly [xs]. *)
Fixpoint chain (m : gmap Z Z) (p : Z) (xs : list Z) : Prop :=
  match xs with
  | [] => p = 0
  | x :: xs => p = x ∧ x ≠ 0 ∧ chain m (word m x) xs
  end.

(** The addresses of the blocks of order [o]. *)
Definition of_order (o : Z) (F : list (Z * Z)) : list Z :=
  (filter (fun b => b.1 = o) F).*2.

Definition header_word (o : Z) : Z := HEADER_MAGIC * 2 ^ 32 + o.

Record flists (s : kstate) (F U : list (Z * Z)) : Prop := {
  fl_length : length (free_lists s) = Z.to_nat ORDER_COUNT;
  fl_chain o : MIN_ORDER ≤ o ≤ MAX_ORDER →
    ∃ p xs, free_lists s !! Z.to_nat (order_index o) = Some p ∧
      chain (mem s) p xs ∧ xs ≡ₚ of_order o F;
  fl_header o a : (o, a) ∈ U → word (mem s) a = header_word o;
  fl_nodup : NoDup (F.*2 ++ U.*2);
  fl_nonnull a : a ∈ F.*2 ++ U.*2 → a ≠ 0;
}.

Lemma order_bounds : MIN_ORDER = 4 ∧ MAX_ORDER = 22 ∧ ORDER_COUNT = 19 ∧ POOL_BYTES = 2 ^ 22.
Proof. vm_compute. auto. Qed.

Lemma order_size_pow o : 0 ≤ o ≤ MAX_ORDER → order_size o = 2 ^ o.
Proof.
  destruct order_bounds as (_ & -> & _). intros Ho. unfold order_size, u64, wrap.
  rewrite Z.shiftl_1_l. apply Z.mod_small. split; [lia|].
  apply Z.pow_lt_mono_r; lia.
Qed.

(** ** Words *)
Lemma word_insert_eq m a v : word (<[a := v]> m) a = v.
Proof. unfold word. by rewrite lookup_insert_eq. Qed.

Lemma word_insert_ne m a b v : a ≠ b → word (<[a := v]> m) b = word m b.
Proof. intros. unfold word. by rewrite lookup_insert_ne. Qed.

Lemma chain_insert m p xs a v : a ∉ xs → chain m p xs → chain (<[a := v]> m) p xs.
Proof.
  revert p. induction xs as [|x xs IH]; intros p Ha; simpl; [done|].
  intros (-> & Hx & Hc). split_and!; [done..|].
  rewrite word_insert_ne by set_solver. apply IH; [set_solver | done].
Qed.

(** ** Blocks by order *)
Lemma of_order_cons o o' a F :
  of_order o ((o', a) :: F) = if decide (o' = o) then a :: of_order o F else of_order o F.
Proof. unfold of_order. rewrite filter_cons. simpl. by case_decide. Qed.

#[global] Instance of_order_perm o : Proper ((≡ₚ) ==> (≡ₚ)) (of_order o).
Proof. intros F1 F2 E. unfold of_order. by rewrite E. Qed.

Lemma elem_of_order o a F : a ∈ of_order o F ↔ (o, a) ∈ F.
Proof.
  unfold of_order. rewrite list_elem_of_fmap. split.
  - intros ([o' a'] & -> & [Ho Hin]%list_elem_of_filter). simpl in *. by subst.
  - intros Hin. exists (o, a). split; [done|]. by apply list_elem_of_filter.
Qed.

Lemma of_order_sub o F : of_order o F ⊆ F.*2.
Proof.
  intros a Ha. apply elem_of_order in Ha. apply list_elem_of_fmap. by exists (o, a).
Qed.

(** Chains do not care how the blocks are listed. *)
#[global] Instance flists_perm s : Proper ((≡ₚ) ==> (≡ₚ) ==> iff) (flists s).
Proof.
  assert (∀ F1 F2 U1 U2, F1 ≡ₚ F2 → U1 ≡ₚ U2 → flists s F1 U1 → flists s F2 U2) as Himp.
  { intros F1 F2 U1 U2 EF EU [H1 H2 H3 H4 H5]. split.
    - done.
    - intros o Ho. destruct (H2 o Ho) as (p & xs & ? & ? & ?).
      exists p, xs. split_and!; [done..|]. by rewrite <- EF.
    - intros o a Hin. apply H3. by rewrite EU.
    - by rewrite <- EF, <- EU.
    - intros a. rewrite <- EF, <- EU. apply H5. }
  intros F1 F2 EF U1 U2 EU. split; apply Himp; done.
Qed.

(** ** The list primitives *)
Lemma load_list_run s F U o :
  flists s F U → MIN_ORDER ≤ o ≤ MAX_ORDER →
  ∃ p xs, load_list (order_index o) s = Ok (p, s) ∧
    free_lists s !! Z.to_nat (order_index o) = Some p ∧
    chain (mem s) p xs ∧ xs ≡ₚ of_order o F.
Proof.
  intros Hf Ho. destruct (fl_chain _ _ _ Hf o Ho) as (p & xs & E & Hc & Hp).
  exists p, xs. split_and!; try done. unfold load_list, order_index in *.
  rewrite (proj2 (Z.ltb_ge _ _)) by lia. by rewrite E.
Qed.

(** The state after [free_lists[order_index(o)] = v] and [mem[a] = w]. *)
Definition relinked (s : kstate) (o v : Z) (m : gmap Z Z) : kstate :=
  mk_kstate m (<[Z.to_nat (order_index o) := v]> (free_lists s)) (pool_base s) (pool_end s)
    (kmalloc_ready s).

Lemma chain_ext m m' p xs :
  (∀ a, a ∈ xs → word m' a = word m a) → chain m p xs → chain m' p xs.
Proof.
  revert p. induction xs as [|x xs IH]; intros p Hext; simpl; [done|].
  intros (-> & ? & Hc). split_and!; [done..|]. rewrite Hext by set_solver.
  apply IH; [|done]. intros. apply Hext. set_solver.
Qed.

(** An address has one order. *)
Lemma order_unique (G : list (Z * Z)) o o' a :
  NoDup G.*2 → (o, a) ∈ G → (o', a) ∈ G → o = o'.
Proof.
  intros HG H1 H2.
  destruct (list_elem_of_lookup_1 _ _ H1) as [i Hi], (list_elem_of_lookup_1 _ _ H2) as [j Hj].
  assert (i = j) as ->.
  { eapply NoDup_lookup; [exact HG | |]; rewrite list_lookup_fmap; [rewrite Hi | rewrite Hj]; done. }
  rewrite Hi in Hj. by injection Hj.
Qed.

(** Relinking one list keeps the others, if the write is outside their blocks. *)
Lemma flists_relinked s F F' U o v m xs :
  flists s F U → MIN_ORDER ≤ o ≤ MAX_ORDER →
  chain m v xs → xs ≡ₚ of_order o F' →
  (∀ o', o' ≠ o → of_order o' F' = of_order o' F) →
  (∀ a, a ∉ of_order o F → a ∉ of_order o F' → word m a = word (mem s) a) →
  NoDup (F'.*2 ++ U.*2) → (∀ a, a ∈ F'.*2 ++ U.*2 → a ≠ 0) →
  flists (relinked s o v m) F' U.
Proof.
  intros Hf Ho Hc Hxs Hother Hm Hnd Hnn. pose proof (fl_nodup _ _ _ Hf) as Hnd0.
  split; simpl; try done.
  - rewrite length_insert. apply Hf.
  - intros o' Ho'. destruct (decide (o' = o)) as [->|Hne].
    + exists v, xs. rewrite list_lookup_insert_eq; [done|].
      rewrite (fl_length _ _ _ Hf). unfold order_index, ORDER_COUNT. lia.
    + destruct (fl_chain _ _ _ Hf o' Ho') as (p & ys & E & Hc' & Hp).
      exists p, ys. rewrite list_lookup_insert_ne by (unfold order_index; lia).
      rewrite (Hother o' Hne). split_and!; [done | | done].
      eapply chain_ext; [|done]. intros a Ha. rewrite Hp in Ha.
      apply Hm; intros Hao; apply Hne.
      * apply elem_of_order in Ha, Hao. apply NoDup_app in Hnd0 as [? _].
        by eapply (order_unique F).
      * rewrite <- (Hother o' Hne) in Ha. apply elem_of_order in Ha, Hao.
        apply NoDup_app in Hnd as [? _]. by eapply (order_unique F').
  - intros o' a Ha. rewrite <- (fl_header _ _ _ Hf o' a Ha). 
    assert (a ∈ U.*2) as HaU by (apply list_elem_of_fmap; by exists (o', a)).
    apply Hm; intros Hao%of_order_sub.
    + apply NoDup_app in Hnd0 as (_ & H & _). by apply (H a).
    + apply NoDup_app in Hnd as (_ & H & _). by apply (H a).
Qed.

Lemma flists_cons_ok s F U o a :
  flists s F U → a ∉ F.*2 ++ U.*2 → a ≠ 0 →
  NoDup (((o, a) :: F).*2 ++ U.*2) ∧ (∀ b, b ∈ ((o, a) :: F).*2 ++ U.*2 → b ≠ 0).
Proof.
  intros Hf Ha H0. simpl. split.
  - apply NoDup_cons. split; [done | apply Hf].
  - intros b [->|Hb]%elem_of_cons; [done | by eapply fl_nonnull].
Qed.

Lemma push_block_run s F U o a :
  flists s F U → MIN_ORDER ≤ o ≤ MAX_ORDER → a ∉ F.*2 ++ U.*2 → a ≠ 0 →
  ∃ s', push_block o a s = Ok (tt, s') ∧ flists s' ((o, a) :: F) U ∧
    pool_base s' = pool_base s ∧ pool_end s' = pool_end s ∧ kmalloc_ready s' = kmalloc_ready s ∧
    (∀ b, b ≠ a → mem s' !! b = mem s !! b).
Proof.
  intros Hf Ho Ha H0. destruct (load_list_run s F U o Hf Ho) as (p & xs & Hrun & E & Hc & Hp).
  destruct (flists_cons_ok s F U o a Hf Ha H0) as [Hnd Hnn].
  exists (relinked s o a (<[a := p]> (mem s))). split_and!; try done.
  - unfold push_block. rewrite (bind_Ok _ _ _ _ _ Hrun). unfold store_list, load_list in *.
    destruct (order_index o <? 0); [done|]. mrun. simpl. by rewrite E.
  - assert (a ∉ xs) as Hax by (rewrite Hp; intros ?%of_order_sub; set_solver).
    eapply flists_relinked; [done | done | | | | | done | done].
    + instantiate (1 := a :: xs). simpl. split_and!; [done..|].
      rewrite word_insert_eq. by apply chain_insert.
    + rewrite of_order_cons, decide_True by done. by rewrite Hp.
    + intros o' Hne. by rewrite of_order_cons, decide_False.
    + intros b _. rewrite of_order_cons, decide_True by done. intros Hb.
      apply word_insert_ne. set_solver.
  - intros b Hb. simpl. by rewrite lookup_insert_ne.
Qed.

Lemma pop_block_run s F U o :
  flists s F U → MIN_ORDER ≤ o ≤ MAX_ORDER →
  (of_order o F = [] ∧ pop_block o s = Ok (0, s)) ∨
  ∃ a F' s', a ≠ 0 ∧ F ≡ₚ (o, a) :: F' ∧ pop_block o s = Ok (a, s') ∧ flists s' F' U ∧
    pool_base s' = pool_base s ∧ pool_end s' = pool_end s ∧ kmalloc_ready s' = kmalloc_ready s ∧
    mem s' = mem s.
Proof.
  intros Hf Ho. destruct (load_list_run s F U o Hf Ho) as (p & xs & Hrun & E & Hc & Hp).
  unfold pop_block. rewrite (bind_Ok _ _ _ _ _ Hrun). destruct xs as [|x xs]; simpl in Hc.
  - left. subst. split; [by apply Permutation_nil | by mrun].
  - right. destruct Hc as (-> & Hx & Hc). rewrite (proj2 (Z.eqb_neq x 0)) by done.
    assert ((o, x) ∈ F) as Hin by (apply elem_of_order; rewrite <- Hp; left).
    apply elem_of_Permutation in Hin as [F' HF].
    exists x, F', (relinked s o (word (mem s) x) (mem s)). split_and!; try done.
    + unfold store_list, load_list in *. destruct (order_index o <? 0); [done|].
      mrun. simpl. by rewrite E.
    + rewrite HF in Hf, Hp. rewrite of_order_cons, decide_True in Hp by done.
      apply (Permutation_cons_inv (a := x)) in Hp.
      eapply flists_relinked; [done | done | done | done | | done | |].
      * intros o' Hne. by rewrite of_order_cons, decide_False.
      * pose proof (fl_nodup _ _ _ Hf) as Hnd. by apply NoDup_cons in Hnd as [_ ?].
      * intros b Hb. apply (fl_nonnull _ _ _ Hf). by right.
Qed.

(** ** Searching a list for the buddy *)
Definition slot_after (r : list Z) (prev : slot) : slot :=
  match last r with Some a => NextOf a | None => prev end.

Lemma unlink_loop_run s b fuel prev cur xs :
  chain (mem s) cur xs → (length xs < fuel)%nat →
  ((b ∉ xs) ∧ unlink_loop fuel b prev cur s = Ok (false, s)) ∨
  ∃ r1 r2, xs = r1 ++ b :: r2 ∧ (b ∉ r1) ∧
    unlink_loop fuel b prev cur s =
      (store_slot (slot_after r1 prev) (word (mem s) b) ;; ret true) s.
Proof.
  revert prev cur xs. induction fuel as [|fuel IH]; intros prev cur xs Hc Hf; [lia|].
  destruct xs as [|x xs]; simpl in Hc.
  - subst. left. split; [set_solver | done].
  - destruct Hc as (-> & Hx & Hc). simpl. rewrite (proj2 (Z.eqb_neq x 0)) by done.
    destruct (Z.eqb_spec x b) as [->|Hne].
    + right. exists [], xs. split_and!; [done | set_solver | done].
    + simpl in Hf. destruct (IH (NextOf x) _ xs Hc ltac:(lia)) as [[Hb Hr]|(r1 & r2 & -> & Hb & Hr)].
      * left. split; [set_solver|]. done.
      * right. exists (x :: r1), r2. split_and!; [done | set_solver|].
        unfold load_word. mrun. rewrite Hr. unfold slot_after.
        destruct r1 as [|z r1]; [done|]. rewrite last_cons_cons.
        destruct (last (z :: r1)) eqn:El; [done | by apply last_None in El].
Qed.

Lemma chain_unlink m p r a b r2 :
  NoDup (r ++ a :: b :: r2) → chain m p (r ++ a :: b :: r2) →
  chain (<[a := word m b]> m) p (r ++ a :: r2).
Proof.
  revert p. induction r as [|x r IH]; intros p; simpl.
  - intros [Ha Hnd]%NoDup_cons (-> & Ha0 & Eb & Hb0 & Hc). split_and!; [done..|].
    rewrite word_insert_eq. apply chain_insert; [set_solver | done].
  - intros [Hx Hnd]%NoDup_cons (-> & Hx0 & Hc). split_and!; [done..|].
    rewrite word_insert_ne by set_solver. by apply IH.
Qed.

(** Taking the block [b] out of the list of order [o]. *)
Lemma unlink_run s F F' U o b fuel p xs :
  flists s F U → MIN_ORDER ≤ o ≤ MAX_ORDER → F ≡ₚ (o, b) :: F' →
  free_lists s !! Z.to_nat (order_index o) = Some p → chain (mem s) p xs →
  xs ≡ₚ of_order o F → (length xs < fuel)%nat →
  ∃ s', unlink_loop fuel b (ListHead (order_index o)) p s = Ok (true, s') ∧ flists s' F' U ∧
    pool_base s' = pool_base s ∧ pool_end s' = pool_end s ∧ kmalloc_ready s' = kmalloc_ready s ∧
    (∀ a, a ∉ F.*2 → mem s' !! a = mem s !! a).
Proof.
  intros Hf Ho HF E Hc Hp Hlen.
  destruct (unlink_loop_run s b fuel (ListHead (order_index o)) p xs Hc Hlen)
    as [[Hb _]|(r1 & r2 & -> & Hb & Hrun)].
  { exfalso. apply Hb. rewrite Hp. apply elem_of_order. rewrite HF. by left. }
  assert (NoDup (r1 ++ b :: r2)) as Hnd.
  { rewrite Hp. pose proof (fl_nodup _ _ _ Hf) as Hnd. apply NoDup_app in Hnd as [Hnd _].
    unfold of_order. eapply sublist_NoDup; [exact Hnd|]. apply fmap_sublist, sublist_filter. }
  assert (r1 ⊆ F.*2) as Hr1 by (intros a Ha; apply (of_order_sub o); rewrite <- Hp; set_solver).
  rewrite HF in Hf. assert (r1 ++ r2 ≡ₚ of_order o F') as Hp'.
  { rewrite HF, of_order_cons, decide_True in Hp by done.
    rewrite <- Permutation_middle in Hp. by apply Permutation_cons_inv in Hp. }
  assert (∀ v m, chain m v (r1 ++ r2) → (∀ a, a ∉ r1 → word m a = word (mem s) a) →
    flists (relinked s o v m) F' U) as Hgoal.
  { intros v m Hc' Hm. pose proof (fl_nodup _ _ _ Hf) as [_ ?]%NoDup_cons.
    eapply flists_relinked; [done | done | done | done | | | done |].
    - intros o' Hne. by rewrite of_order_cons, decide_False.
    - intros a Ha _. apply Hm. intros Hin. apply Ha. rewrite <- HF, <- Hp. set_solver.
    - intros a Ha. apply (fl_nonnull _ _ _ Hf). by right. }
  rewrite Hrun. unfold slot_after. destruct (snoc_inv r1) as [->|(r & a & ->)].
  - simpl in *. destruct Hc as (-> & Hb0 & Hc). exists (relinked s o (word (mem s) b) (mem s)).
    split_and!; try done; [|by apply Hgoal].
    unfold store_list, load_list, order_index in *. rewrite (proj2 (Z.ltb_ge _ _)) by lia.
    mrun. by rewrite E.
  - rewrite last_snoc. exists (relinked s o p (<[a := word (mem s) b]> (mem s))).
    rewrite <- !app_assoc in *. simpl in *.
    split_and!; try done.
    + unfold relinked, set_mem. mrun. by rewrite list_insert_id.
    + apply Hgoal.
      * by apply chain_unlink.
      * intros c Hc'. apply word_insert_ne. set_solver.
    + intros c Hc'. simpl. apply lookup_insert_ne. set_solver.
Qed.

(** ** Headers *)
Lemma header_word_fields o :
  0 ≤ o < 2 ^ 32 → header_order (header_word o) = o ∧ header_magic (header_word o) = HEADER_MAGIC.
Proof.
  intros Ho. unfold header_order, header_magic, header_word. split.
  - rewrite Z.add_comm, Z.mod_add by done. by apply Z.mod_small.
  - rewrite Z.div_add_l by done. rewrite Z.div_small by done. lia.
Qed.

Lemma set_header_run s F U o a :
  flists s F U → MIN_ORDER ≤ o ≤ MAX_ORDER → a ∉ F.*2 ++ U.*2 → a ≠ 0 →
  ∃ s', (set_header_order a (u32 o) ;; set_header_magic a HEADER_MAGIC) s = Ok (tt, s') ∧
    flists s' F ((o, a) :: U) ∧
    pool_base s' = pool_base s ∧ pool_end s' = pool_end s ∧ kmalloc_ready s' = kmalloc_ready s ∧
    (∀ b, b ≠ a → mem s' !! b = mem s !! b).
Proof.
  intros Hf Ho Ha H0. destruct order_bounds as (E1 & E2 & _).
  exists (set_mem (<[a := header_word o]> (mem s)) s).
  split_and!; try done; [| |intros; by apply lookup_insert_ne].
  - unfold set_header_order, set_header_magic, load_word, store_word. mrun.
    unfold set_mem; simpl. rewrite word_insert_eq, insert_insert_eq.
    do 4 f_equal. unfold header_order, header_word, u32, wrap.
    rewrite (Z.mod_small o) by lia. rewrite (Z.mod_small o) by lia.
    rewrite (Z.add_comm _ o), Z.mod_add by done.
    rewrite !Z.mod_small by (unfold HEADER_MAGIC; lia). done.
  - destruct Hf as [H1 H2 H3 H4 H5]. apply not_elem_of_app in Ha as [HaF HaU]. split; simpl; try done.
    + intros o' Ho'. destruct (H2 o' Ho') as (p & xs & ? & ? & Hp).
      exists p, xs. split_and!; [done | | done]. apply chain_insert; [|done].
      rewrite Hp. intros ?%of_order_sub. done.
    + intros o' b [[= -> ->]|Hb]%elem_of_cons; [by rewrite word_insert_eq|].
      rewrite word_insert_ne; [by apply H3|]. intros ->. apply HaU, list_elem_of_fmap. by exists (o', b).
    + apply NoDup_mid. rewrite NoDup_app in H4 |- *. naive_solver.
    + intros b Hb. rewrite elem_of_app, elem_of_cons in Hb.
      destruct Hb as [Hb|[->|Hb]]; [apply H5; set_solver | done | apply H5; set_solver].
Qed.

(** Forgetting a used block and writing anything into it. *)
Lemma flists_forget s F U o a v :
  flists s F ((o, a) :: U) → flists (set_mem (<[a := v]> (mem s)) s) F U.
Proof.
  intros [H1 H2 H3 H4 H5]. simpl in *. apply NoDup_mid in H4 as (HaF & HaU & H4).
  split; simpl; try done.
  - intros o' Ho'. destruct (H2 o' Ho') as (p & xs & ? & ? & Hp).
    exists p, xs. split_and!; [done | | done]. apply chain_insert; [|done].
    rewrite Hp. intros ?%of_order_sub. done.
  - intros o' b Hb. rewrite word_insert_ne; [apply H3; by right|].
    intros ->. apply HaU, list_elem_of_fmap. by exists (o', b).
  - intros b Hb. apply H5. set_solver.
Qed.
