(* ===== verification/BuddyTree.v ===== *)
(** * The buddy tree: the abstract state of kmalloc.c

    A tree of order [o] at address [a] covers the addresses [a, a + 2^o). Its
    leaves are the blocks; a leaf is free or used. The blocks of a tree are
    disjoint and cover it by construction. *)

From S2P Require Import Prelude Kmalloc KmallocLists.

Inductive btree :=
| BFree
| BUsed
| BNode (l r : btree).

#[global] Instance btree_eq_dec : EqDecision btree.
Proof. solve_decision. Defined.

(** The free (resp. used) blocks, as pairs (order, address). *)
Fixpoint free_blocks (t : btree) (o a : Z) : list (Z * Z) :=
  match t with
  | BFree => [(o, a)]
  | BUsed => []
  | BNode l r => free_blocks l (o - 1) a ++ free_blocks r (o - 1) (a + 2 ^ (o - 1))
  end.

Fixpoint used_blocks (t : btree) (o a : Z) : list (Z * Z) :=
  match t with
  | BFree => []
  | BUsed => [(o, a)]
  | BNode l r => used_blocks l (o - 1) a ++ used_blocks r (o - 1) (a + 2 ^ (o - 1))
  end.

(** No block is smaller than the minimum. *)
Fixpoint deep_enough (t : btree) (o : Z) : Prop :=
  match t with
  | BNode l r => MIN_ORDER < o ∧ deep_enough l (o - 1) ∧ deep_enough r (o - 1)
  | _ => MIN_ORDER ≤ o
  end.

(** Two free buddies are never left apart. *)
Fixpoint coalesced (t : btree) : Prop :=
  match t with
  | BNode l r => ¬ (l = BFree ∧ r = BFree) ∧ coalesced l ∧ coalesced r
  | _ => True
  end.

(** ** Blocks *)
Definition inside (o a : Z) (b : Z * Z) : Prop := a ≤ b.2 ∧ b.2 + 2 ^ b.1 ≤ a + 2 ^ o.
Definition apart (b c : Z * Z) : Prop := b.2 + 2 ^ b.1 ≤ c.2 ∨ c.2 + 2 ^ c.1 ≤ b.2.

Lemma pow2_split o : 0 < o → 2 ^ o = 2 ^ (o - 1) + 2 ^ (o - 1).
Proof. intros. replace o with (Z.succ (o - 1)) at 1 by lia. rewrite Z.pow_succ_r by lia. lia. Qed.

Lemma deep_enough_order t o : deep_enough t o → MIN_ORDER ≤ o.
Proof. destruct t; simpl; lia. Qed.

(** All blocks of a tree. *)
Definition all_blocks (t : btree) (o a : Z) : list (Z * Z) := free_blocks t o a ++ used_blocks t o a.

Lemma all_blocks_node l r o a :
  all_blocks (BNode l r) o a ≡ₚ all_blocks l (o - 1) a ++ all_blocks r (o - 1) (a + 2 ^ (o - 1)).
Proof. unfold all_blocks. simpl. solve_Permutation. Qed.

Lemma all_blocks_inside t o a b :
  deep_enough t o → b ∈ all_blocks t o a → inside o a b ∧ MIN_ORDER ≤ b.1 ≤ o.
Proof.
  revert o a. induction t as [| |l IHl r IHr]; intros o a Hd Hb.
  - apply list_elem_of_singleton in Hb as ->. unfold inside. simpl in *. lia.
  - apply list_elem_of_singleton in Hb as ->. unfold inside. simpl in *. lia.
  - rewrite all_blocks_node in Hb. simpl in Hd. destruct Hd as (Ho & Hl & Hr).
    assert (0 < MIN_ORDER) by reflexivity. pose proof (pow2_split o ltac:(lia)).
    assert (0 < 2 ^ (o - 1)) by (apply Z.pow_pos_nonneg; lia).
    apply elem_of_app in Hb as [Hb|Hb];
      [destruct (IHl _ _ Hl Hb) as [Hi ?] | destruct (IHr _ _ Hr Hb) as [Hi ?]];
      unfold inside in *; lia.
Qed.

(** The blocks of a tree do not overlap. *)
Lemma all_blocks_apart t o a :
  deep_enough t o → NoDup (all_blocks t o a).*2 ∧
  ∀ b c, b ∈ all_blocks t o a → c ∈ all_blocks t o a → b = c ∨ apart b c.
Proof.
  revert o a. induction t as [| |l IHl r IHr]; intros o a Hd.
  - simpl. split; [apply NoDup_singleton | set_solver].
  - simpl. split; [apply NoDup_singleton | set_solver].
  - simpl in Hd. destruct Hd as (Ho & Hl & Hr).
    destruct (IHl (o - 1) a Hl) as [Hnl Hal], (IHr (o - 1) (a + 2 ^ (o - 1)) Hr) as [Hnr Har].
    assert (∀ b c, b ∈ all_blocks l (o - 1) a → c ∈ all_blocks r (o - 1) (a + 2 ^ (o - 1)) →
      apart b c ∧ b.2 < c.2) as Hlr.
    { intros b c [Hb Hb1]%all_blocks_inside [Hc _]%all_blocks_inside; [|done..].
      unfold inside, apart in *. assert (0 < 2 ^ b.1); [|lia].
      apply Z.pow_pos_nonneg; [lia|]. assert (0 < MIN_ORDER) by reflexivity. lia. }
    split.
    + rewrite all_blocks_node, fmap_app. apply NoDup_app. split_and!; try done.
      intros x (b & -> & Hb)%list_elem_of_fmap (c & E & Hc)%list_elem_of_fmap.
      destruct (Hlr _ _ Hb Hc). lia.
    + intros b c. rewrite all_blocks_node, !elem_of_app.
      intros [Hb|Hb] [Hc|Hc]; eauto; right; [by apply Hlr|].
      destruct (Hlr c b Hc Hb) as [[?|?] _]; [by right | by left].
Qed.

(** ** Paths: a tree with a hole *)

(** The way up from the hole: the hole is the left (right) child and the
    sibling is given; innermost frame first. *)
Inductive frame :=
| OnLeft (sibling : btree)
| OnRight (sibling : btree).

Fixpoint plug (c : list frame) (t : btree) : btree :=
  match c with
  | [] => t
  | OnLeft r :: c => plug c (BNode t r)
  | OnRight l :: c => plug c (BNode l t)
  end.

(** The address of the parent, and of the root, of a hole of order [o] at [a]. *)
Definition parent_addr (f : frame) (o a : Z) : Z :=
  match f with OnLeft _ => a | OnRight _ => a - 2 ^ o end.
Definition buddy_addr (f : frame) (o a : Z) : Z :=
  match f with OnLeft _ => a + 2 ^ o | OnRight _ => a - 2 ^ o end.
Definition sibling (f : frame) : btree := match f with OnLeft s | OnRight s => s end.

Fixpoint root_addr (c : list frame) (o a : Z) : Z :=
  match c with
  | [] => a
  | f :: c => root_addr c (o + 1) (parent_addr f o a)
  end.

(** The blocks around the hole. *)
Fixpoint around (P : btree → Z → Z → list (Z * Z)) (c : list frame) (o a : Z) : list (Z * Z) :=
  match c with
  | [] => []
  | f :: c => P (sibling f) o (buddy_addr f o a) ++ around P c (o + 1) (parent_addr f o a)
  end.

Definition clen (c : list frame) : Z := Z.of_nat (length c).

Lemma plug_free c t o a :
  free_blocks (plug c t) (o + clen c) (root_addr c o a) ≡ₚ
    free_blocks t o a ++ around free_blocks c o a.
Proof.
  unfold clen. revert t o a. induction c as [|f c IH]; intros t o a; simpl.
  - rewrite Z.add_0_r. by rewrite app_nil_r.
  - rewrite Nat2Z.inj_succ. replace (o + Z.succ _) with (o + 1 + Z.of_nat (length c)) by lia.
    destruct f as [r|l]; rewrite IH; simpl; rewrite Z.add_simpl_r; [solve_Permutation|].
    rewrite Z.sub_add. solve_Permutation.
Qed.

Lemma plug_used c t o a :
  used_blocks (plug c t) (o + clen c) (root_addr c o a) ≡ₚ
    used_blocks t o a ++ around used_blocks c o a.
Proof.
  unfold clen. revert t o a. induction c as [|f c IH]; intros t o a; simpl.
  - rewrite Z.add_0_r. by rewrite app_nil_r.
  - rewrite Nat2Z.inj_succ. replace (o + Z.succ _) with (o + 1 + Z.of_nat (length c)) by lia.
    destruct f as [r|l]; rewrite IH; simpl; rewrite Z.add_simpl_r; [solve_Permutation|].
    rewrite Z.sub_add. solve_Permutation.
Qed.

Lemma plug_app c d t : plug (c ++ d) t = plug d (plug c t).
Proof. revert t. induction c as [|[r|l] c IH]; intros t; simpl; auto. Qed.

Lemma root_addr_app c d o a :
  root_addr (c ++ d) o a = root_addr d (o + clen c) (root_addr c o a).
Proof.
  unfold clen. revert o a. induction c as [|f c IH]; intros o a; simpl.
  - by rewrite Z.add_0_r.
  - rewrite IH. f_equal. lia.
Qed.

(** A leaf is the plug of a path. *)
Definition located (leaf t : btree) (o a : Z) (b : Z * Z) (c : list frame) : Prop :=
  t = plug c leaf ∧ o = b.1 + clen c ∧ a = root_addr c b.1 b.2.

Lemma located_left leaf l r o a b c :
  located leaf l (o - 1) a b c → located leaf (BNode l r) o a b (c ++ [OnLeft r]).
Proof.
  intros (-> & E & ->). unfold located, clen in *. rewrite plug_app, root_addr_app, length_app.
  simpl. split_and!; [done | lia | done].
Qed.

Lemma located_right leaf l r o a b c :
  located leaf r (o - 1) (a + 2 ^ (o - 1)) b c → located leaf (BNode l r) o a b (c ++ [OnRight l]).
Proof.
  intros (-> & E & E2). unfold located, clen in *. rewrite plug_app, root_addr_app, length_app.
  simpl. unfold clen. rewrite <- E, <- E2. split_and!; [done | lia | lia].
Qed.

Lemma free_located t o a b : b ∈ free_blocks t o a → ∃ c, located BFree t o a b c.
Proof.
  revert o a. induction t as [| |l IHl r IHr]; intros o a; simpl.
  - intros ->%list_elem_of_singleton. exists []. unfold located, clen. simpl. by rewrite Z.add_0_r.
  - by intros ?%not_elem_of_nil.
  - intros [[c Hc]%IHl|[c Hc]%IHr]%elem_of_app; eauto using located_left, located_right.
Qed.

Lemma used_located t o a b : b ∈ used_blocks t o a → ∃ c, located BUsed t o a b c.
Proof.
  revert o a. induction t as [| |l IHl r IHr]; intros o a; simpl.
  - by intros ?%not_elem_of_nil.
  - intros ->%list_elem_of_singleton. exists []. unfold located, clen. simpl. by rewrite Z.add_0_r.
  - intros [[c Hc]%IHl|[c Hc]%IHr]%elem_of_app; eauto using located_left, located_right.
Qed.

(** ** Replacing what is in the hole *)
Lemma plug_deep c t o : deep_enough (plug c t) (o + clen c) → deep_enough t o.
Proof.
  unfold clen. revert t o. induction c as [|f c IH]; intros t o; simpl; [by rewrite Z.add_0_r|].
  rewrite Nat2Z.inj_succ. replace (o + Z.succ _) with (o + 1 + Z.of_nat (length c)) by lia.
  destruct f; intros H%IH; simpl in H; rewrite Z.add_simpl_r in H; tauto.
Qed.

Lemma plug_deep_replace c t t' o :
  deep_enough (plug c t) (o + clen c) → deep_enough t' o → deep_enough (plug c t') (o + clen c).
Proof.
  unfold clen. revert t t' o. induction c as [|f c IH]; intros t t' o; simpl; [by rewrite Z.add_0_r|].
  rewrite Nat2Z.inj_succ. replace (o + Z.succ _) with (o + 1 + Z.of_nat (length c)) by lia.
  destruct f as [s|s]; intros H Ht'; (eapply IH; [exact H|]); apply (plug_deep c) in H; simpl in *;
    rewrite Z.add_simpl_r in *; tauto.
Qed.

Lemma plug_coalesced c t : coalesced (plug c t) → coalesced t.
Proof.
  revert t. induction c as [|[s|s] c IH]; intros t; simpl; [done|..]; intros H%IH; simpl in H; tauto.
Qed.

Lemma plug_coalesced_replace c t t' :
  coalesced (plug c t) → t' ≠ BFree → coalesced t' → coalesced (plug c t').
Proof.
  revert t t'. induction c as [|[s|s] c IH]; intros t t' H Hne Ht'; simpl in *; [done|..];
    (eapply IH; [exact H | done |]); apply plug_coalesced in H; simpl in *; naive_solver.
Qed.

(** A used leaf may become free if its buddy is not a free block. *)
Lemma plug_coalesced_free c :
  coalesced (plug c BUsed) →
  match c with f :: _ => sibling f ≠ BFree | [] => True end → coalesced (plug c BFree).
Proof.
  destruct c as [|[s|s] c]; simpl; [done|..]; intros H Hs;
    (eapply plug_coalesced_replace; [exact H | done |]); apply plug_coalesced in H; simpl in *;
    naive_solver.
Qed.

(** Everything free again and coalesced: one block. *)
Lemma coalesced_all_free t o a : coalesced t → used_blocks t o a = [] → t = BFree.
Proof.
  revert o a. induction t as [| |l IHl r IHr]; intros o a; simpl; [done..|].
  intros (Hlr & Hl & Hr) [El Er]%app_eq_nil. exfalso. apply Hlr. eauto.
Qed.

(** ** Alignment: the XOR of the source finds the buddy *)
Lemma lxor_pow2_add x o : 0 ≤ o → x mod 2 ^ (o + 1) = 0 → Z.lxor x (2 ^ o) = x + 2 ^ o.
Proof.
  intros Ho Hx. symmetry. apply Z.add_nocarry_lxor. apply Z.bits_inj'. intros n Hn.
  rewrite Z.bits_0, Z.land_spec, Z.pow2_bits_eqb by lia.
  destruct (Z.eqb_spec o n) as [<-|]; [|apply andb_false_r].
  rewrite andb_true_r. apply Z.div_exact in Hx; [|lia]. rewrite Hx, Z.mul_comm.
  apply Z.mul_pow2_bits_low. lia.
Qed.

Lemma lxor_pow2_sub x o : 0 ≤ o → (x - 2 ^ o) mod 2 ^ (o + 1) = 0 → Z.lxor x (2 ^ o) = x - 2 ^ o.
Proof.
  intros Ho Hx. pose proof (lxor_pow2_add _ _ Ho Hx) as E.
  replace (x - 2 ^ o + 2 ^ o) with x in E by lia. rewrite <- E at 1.
  by rewrite Z.lxor_assoc, Z.lxor_nilpotent, Z.lxor_0_r.
Qed.

Lemma root_aligned c o a : 0 ≤ o → (a - root_addr c o a) mod 2 ^ o = 0.
Proof.
  revert o a. induction c as [|f c IH]; intros o a Ho; simpl.
  - rewrite Z.sub_diag. by apply Z.mod_0_l, Z.pow_nonzero.
  - specialize (IH (o + 1) (parent_addr f o a) ltac:(lia)).
    apply Z.mod_divide in IH; [|apply Z.pow_nonzero; lia]. apply Z.mod_divide; [by apply Z.pow_nonzero|].
    rewrite Z.pow_add_r in IH by lia. destruct f as [s|s]; simpl in *.
    + eapply Z.divide_trans; [|exact IH]. apply Z.divide_factor_l.
    + destruct IH as [k Hk]. exists (k * 2 + 1). lia.
Qed.

Lemma buddy_xor f c o a :
  0 ≤ o → Z.lxor (a - root_addr (f :: c) o a) (2 ^ o) = buddy_addr f o a - root_addr (f :: c) o a.
Proof.
  intros Ho. pose proof (root_aligned c (o + 1) (parent_addr f o a) ltac:(lia)) as H.
  destruct f as [s|s]; simpl in *.
  - rewrite lxor_pow2_add by done. lia.
  - rewrite lxor_pow2_sub; [lia | done |]. rewrite <- H. f_equal. lia.
Qed.

(** ** The blocks around a hole are outside of it *)
Lemma around_outside c t o a b :
  deep_enough (plug c t) (o + clen c) →
  b ∈ around free_blocks c o a ++ around used_blocks c o a →
  b.2 + 2 ^ b.1 ≤ a ∨ a + 2 ^ o ≤ b.2.
Proof.
  unfold clen. revert t o a. induction c as [|f c IH]; intros t o a Hd; simpl; [set_solver|].
  rewrite length_cons, Nat2Z.inj_succ in Hd.
  replace (o + Z.succ _) with (o + 1 + Z.of_nat (length c)) in Hd by lia. simpl in Hd.
  assert (0 < 2 ^ o ∧ 2 ^ (o + 1) = 2 ^ o + 2 ^ o) as [Hpos Hpow].
  { assert (MIN_ORDER < o + 1) as Ho.
    { destruct f; apply (plug_deep c) in Hd; simpl in Hd; lia. }
    assert (4 = MIN_ORDER) by reflexivity. rewrite (pow2_split (o + 1)) by lia.
    rewrite Z.add_simpl_r. split; [apply Z.pow_pos_nonneg; lia | lia]. }
  assert (b ∈ all_blocks (sibling f) o (buddy_addr f o a) ∨
    b ∈ around free_blocks c (o + 1) (parent_addr f o a) ++
        around used_blocks c (o + 1) (parent_addr f o a) → 
    b.2 + 2 ^ b.1 ≤ a ∨ a + 2 ^ o ≤ b.2) as Hcase.
  { assert (deep_enough (sibling f) o) as Hs.
    { destruct f; apply (plug_deep c) in Hd; simpl in *; rewrite Z.add_simpl_r in Hd; tauto. }
    intros [Hb|Hb].
    - apply all_blocks_inside in Hb as [Hi _]; [|done]. unfold inside in Hi.
      destruct f; simpl in *; lia.
    - destruct f; (eapply IH in Hb; [|exact Hd]); simpl in *; lia. }
  unfold all_blocks in Hcase. rewrite !elem_of_app in *. tauto.
Qed.

(** ** The left spine produced by splitting a free block [k] times *)
Fixpoint split_tree (k : nat) : btree :=
  match k with
  | O => BUsed
  | S k => BNode (split_tree k) BFree
  end.

Lemma split_tree_used k o a : used_blocks (split_tree k) o a = [(o - Z.of_nat k, a)].
Proof.
  revert o. induction k as [|k IH]; intros o; simpl; [by rewrite Z.sub_0_r|].
  rewrite IH. simpl. do 2 f_equal. lia.
Qed.

Lemma split_tree_deep k o : MIN_ORDER + Z.of_nat k ≤ o → deep_enough (split_tree k) o.
Proof.
  revert o. induction k as [|k IH]; intros o Ho; simpl; [lia|].
  split_and!; [lia | apply IH; lia | lia].
Qed.

Lemma split_tree_coalesced k : coalesced (split_tree k) ∧ split_tree k ≠ BFree.
Proof. induction k as [|k [IH1 IH2]]; simpl; split; try done. naive_solver. Qed.

(** The sibling of a hole is a free block of the tree iff it is a free leaf. *)
Lemma buddy_free_iff f c t o a :
  deep_enough (plug (f :: c) t) (o + clen (f :: c)) →
  (o, buddy_addr f o a) ∈ around free_blocks (f :: c) o a ↔ sibling f = BFree.
Proof.
  intros Hd. simpl. split; [|intros ->; set_solver].
  assert (deep_enough (sibling f) o ∧ 0 < 2 ^ o ∧ 2 ^ (o + 1) = 2 ^ o + 2 ^ o ∧
    ∃ t', deep_enough (plug c t') (o + 1 + clen c)) as (Hs & Hpos & Hpow & t' & Hd').
  { unfold clen in Hd. rewrite length_cons, Nat2Z.inj_succ in Hd.
    replace (o + Z.succ _) with (o + 1 + clen c) in Hd by (unfold clen; lia). simpl in Hd.
    assert (4 = MIN_ORDER) by reflexivity.
    assert (MIN_ORDER < o + 1 ∧ deep_enough (sibling f) o) as [Ho ?].
    { destruct f; apply (plug_deep c) in Hd; simpl in *; rewrite Z.add_simpl_r in Hd; tauto. }
    rewrite (pow2_split (o + 1)), Z.add_simpl_r by lia.
    split_and!; [done | apply Z.pow_pos_nonneg; lia | done | destruct f; eauto]. }
  intros [Hb|Hb]%elem_of_app.
  - destruct (sibling f) as [| |l r]; [done | by apply not_elem_of_nil in Hb |].
    exfalso. simpl in Hb, Hs. destruct Hs as (_ & Hl & Hr).
    apply elem_of_app in Hb as [Hb|Hb];
      (eapply or_introl, elem_of_app, all_blocks_inside in Hb as [_ Hb]; [|done]); simpl in Hb; lia.
  - exfalso. eapply or_introl, elem_of_app, (around_outside _ t') in Hb; [|done].
    destruct f; simpl in *; lia.
Qed.

(** A hole lies inside the tree it is in. *)
Lemma hole_inside c o a :
  0 ≤ o → root_addr c o a ≤ a ∧ a + 2 ^ o ≤ root_addr c o a + 2 ^ (o + clen c).
Proof.
  unfold clen. revert o a. induction c as [|f c IH]; intros o a Ho.
  - simpl. rewrite Z.add_0_r. lia.
  - rewrite length_cons, Nat2Z.inj_succ.
    replace (o + Z.succ _) with (o + 1 + Z.of_nat (length c)) by lia. simpl.
    specialize (IH (o + 1) (parent_addr f o a) ltac:(lia)).
    pose proof (pow2_split (o + 1) ltac:(lia)) as E. rewrite Z.add_simpl_r in E.
    assert (0 < 2 ^ o) by (apply Z.pow_pos_nonneg; lia). destruct f; simpl in *; lia.
Qed.

(** So does its buddy. *)
Lemma buddy_inside f c o a :
  0 ≤ o → root_addr (f :: c) o a ≤ buddy_addr f o a ∧
    buddy_addr f o a + 2 ^ o ≤ root_addr (f :: c) o a + 2 ^ (o + clen (f :: c)).
Proof.
  intros Ho. pose proof (hole_inside c (o + 1) (parent_addr f o a) ltac:(lia)) as IH.
  pose proof (pow2_split (o + 1) ltac:(lia)) as E. rewrite Z.add_simpl_r in E.
  assert (0 < 2 ^ o) by (apply Z.pow_pos_nonneg; lia).
  unfold clen in *. rewrite length_cons, Nat2Z.inj_succ.
  replace (o + Z.succ _) with (o + 1 + Z.of_nat (length c)) by lia.
  destruct f; simpl in *; lia.
Qed.

(** The number of blocks is bounded by the size of the tree. *)
Lemma all_blocks_count t o a :
  deep_enough t o → Z.of_nat (length (all_blocks t o a)) * 2 ^ MIN_ORDER ≤ 2 ^ o.
Proof.
  revert o a. induction t as [| |l IHl r IHr]; intros o a Hd.
  1, 2: simpl in *; rewrite Z.mul_1_l; apply Z.pow_le_mono_r; lia.
  rewrite all_blocks_node, length_app, Nat2Z.inj_add. simpl in Hd. destruct Hd as (Ho & Hl & Hr).
  assert (0 < MIN_ORDER) by reflexivity. rewrite (pow2_split o) by lia.
  specialize (IHl _ a Hl). specialize (IHr _ (a + 2 ^ (o - 1)) Hr). lia.
Qed.
