(* ===== verification/KmallocAlloc.v ===== *)
(** * Allocation: kmalloc of kmalloc.c carves a block out of the buddy tree

    The invariant [kinv] ties the machine state to a buddy tree: the free
    lists hold the free leaves, the used leaves carry headers, and no two free
    buddies are left apart. [kmalloc_run] describes every outcome of [kmalloc]. *)

From S2P Require Import Prelude Kmalloc KmallocLists BuddyTree.

(** What no operation after initialisation changes. *)
Definition same_pool (s s' : kstate) : Prop :=
  pool_base s' = pool_base s ∧ pool_end s' = pool_end s ∧ kmalloc_ready s' = kmalloc_ready s.

#[global] Instance same_pool_preorder : PreOrder same_pool.
Proof. split; unfold same_pool; [done | intros ???; intuition congruence]. Qed.

(** The page-frame allocator's promise about the pool it hands out. *)
Class PoolAt (base : Z) := {
  pool_pos : 0 < base;
  pool_page : base mod PAGE_SIZE = 0;
  pool_fits : base + POOL_BYTES < 2 ^ 64;
}.

(** The state [s] represents the buddy tree [t] over the pool at [base]. *)
Record kinv (base : Z) (s : kstate) (t : btree) : Prop := {
  ki_ready : kmalloc_ready s = true;
  ki_base : pool_base s = base;
  ki_end : pool_end s = u64 (base + POOL_BYTES);
  ki_deep : deep_enough t MAX_ORDER;
  ki_coalesced : coalesced t;
  ki_lists : flists s (free_blocks t MAX_ORDER base) (used_blocks t MAX_ORDER base);
}.

(** ** Splitting *)
Lemma pow2_le a b : 0 ≤ a ≤ b → 0 < 2 ^ a ≤ 2 ^ b.
Proof. intros. split; [apply Z.pow_pos_nonneg; lia | apply Z.pow_le_mono_r; lia]. Qed.

Lemma split_loop_run n s F U cur order a :
  flists s F U → MIN_ORDER ≤ order ≤ cur → cur ≤ MAX_ORDER → n = Z.to_nat (cur - order) →
  0 < a → a + 2 ^ cur ≤ 2 ^ 64 →
  (∀ b, b ∈ F.*2 ++ U.*2 → b < a ∨ a + 2 ^ cur ≤ b) →
  ∃ s', split_loop n cur order a s = Ok (tt, s') ∧
    flists s' (free_blocks (split_tree n) cur a ++ F) U ∧ same_pool s s' ∧
    (∀ b, b ∉ (free_blocks (split_tree n) cur a).*2 → mem s' !! b = mem s !! b).
Proof.
  destruct order_bounds as (E1 & E2 & _).
  revert s F cur. induction n as [|n IH]; intros s F cur Hf Ho Hm Hn Ha Hend Hout.
  - exists s. simpl. rewrite Z.gtb_ltb, (proj2 (Z.ltb_ge _ _)) by lia. done.
  - pose proof (pow2_split cur ltac:(lia)) as Hp. pose proof (pow2_le 0 (cur - 1) ltac:(lia)) as Hq.
    destruct (push_block_run s F U (cur - 1) (a + 2 ^ (cur - 1)) Hf) as (s1 & R1 & Hf1 & ? & ? & ? & Hm1);
      [lia | intros Hb; destruct (Hout _ Hb); lia | lia |].
    destruct (IH s1 ((cur - 1, a + 2 ^ (cur - 1)) :: F) (cur - 1) Hf1) as (s2 & R2 & Hf2 & Hs & Hm2);
      [lia | lia | lia | lia | lia | |].
    { simpl. intros b [->|Hb]%elem_of_cons; [lia|]. destruct (Hout _ Hb); lia. }
    exists s2. simpl. rewrite Z.gtb_ltb, (proj2 (Z.ltb_lt _ _)) by lia.
    rewrite order_size_pow by lia. unfold u64, wrap. rewrite Z.mod_small by lia.
    rewrite (bind_Ok _ _ _ _ _ R1). split_and!; [done | | |].
    + by rewrite <- app_assoc.
    + transitivity s1; [by unfold same_pool | done].
    + intros b. rewrite fmap_app, not_elem_of_app. simpl. intros [Hb1 Hb2].
      rewrite Hm2, Hm1; set_solver.
Qed.

(** ** The first block that fits *)
Section Alloc.

Context {base : Z} {HP : PoolAt base}.

Lemma kinv_inside s t b : kinv base s t → b ∈ all_blocks t MAX_ORDER base →
  base ≤ b.2 ∧ b.2 + 2 ^ b.1 ≤ base + POOL_BYTES ∧ b.2 + 2 ^ b.1 ≤ 2 ^ 64 ∧ MIN_ORDER ≤ b.1 ≤ MAX_ORDER.
Proof.
  intros Hk Hb. apply all_blocks_inside in Hb as [[H1 H2] H3]; [|apply Hk].
  pose proof pool_fits. destruct order_bounds as (_ & E2 & _ & E4). rewrite E2, E4 in *. lia.
Qed.

(** A free block [b] of [t] at the end of path [c], cut down to [order]. *)
Definition carved (t t' : btree) (order : Z) (b : Z * Z) : Prop :=
  ∃ c, located BFree t MAX_ORDER base b c ∧ order ≤ b.1 ∧
    t' = plug c (split_tree (Z.to_nat (b.1 - order))).

Lemma carved_used t t' order b : carved t t' order b →
  used_blocks t' MAX_ORDER base ≡ₚ (order, b.2) :: used_blocks t MAX_ORDER base.
Proof.
  intros (c & (-> & -> & ->) & Ho & ->). rewrite !plug_used, split_tree_used. simpl.
  by replace (b.1 - Z.of_nat (Z.to_nat (b.1 - order))) with order by lia.
Qed.

Lemma carved_free t t' order b : carved t t' order b →
  ∃ F, free_blocks t MAX_ORDER base ≡ₚ b :: F ∧
    free_blocks t' MAX_ORDER base ≡ₚ free_blocks (split_tree (Z.to_nat (b.1 - order))) b.1 b.2 ++ F.
Proof.
  intros (c & (-> & -> & ->) & Ho & ->). exists (around free_blocks c b.1 b.2).
  rewrite !plug_free. simpl. by destruct b.
Qed.

Lemma carved_shape t t' order b : carved t t' order b → MIN_ORDER ≤ order →
  deep_enough t MAX_ORDER → coalesced t → deep_enough t' MAX_ORDER ∧ coalesced t'.
Proof.
  intros (c & (-> & E & _) & Ho & ->) Hm Hd Hc. rewrite E in *. split.
  - eapply plug_deep_replace; [done|]. apply split_tree_deep. lia.
  - destruct (split_tree_coalesced (Z.to_nat (b.1 - order))). by eapply plug_coalesced_replace.
Qed.

(** What [acquire_block] leaves: the carved tree, the new block not yet in use. *)
Definition acquired (s : kstate) (t : btree) (order a : Z) (s' : kstate) : Prop :=
  ∃ o t', carved t t' order (o, a) ∧
    (∀ b, b ∈ free_blocks t MAX_ORDER base → order ≤ b.1 → o ≤ b.1) ∧
    flists s' (free_blocks t' MAX_ORDER base) (used_blocks t MAX_ORDER base) ∧ same_pool s s' ∧
    (∀ b, b ∉ (free_blocks t' MAX_ORDER base).*2 → mem s' !! b = mem s !! b).

Lemma carve_run s t order o a F s1 :
  kinv base s t → MIN_ORDER ≤ order ≤ o → a ≠ 0 →
  free_blocks t MAX_ORDER base ≡ₚ (o, a) :: F →
  flists s1 F (used_blocks t MAX_ORDER base) → same_pool s s1 → mem s1 = mem s →
  (∀ b, b ∈ free_blocks t MAX_ORDER base → order ≤ b.1 → o ≤ b.1) →
  ∃ s', split_loop (Z.to_nat (o - order)) o order a s1 = Ok (tt, s') ∧ acquired s t order a s'.
Proof.
  intros Hk Ho Ha HF Hf1 Hs1 Hm1 Hmin.
  assert ((o, a) ∈ free_blocks t MAX_ORDER base) as Hin by (rewrite HF; by left).
  destruct (free_located _ _ _ _ Hin) as [c Hc].
  assert (carved t (plug c (split_tree (Z.to_nat (o - order)))) order (o, a)) as Hcv
    by (exists c; split_and!; [done | simpl; lia | done]).
  destruct (carved_free _ _ _ _ Hcv) as (F' & HF1 & HF2). simpl in HF2.
  rewrite HF in HF1. apply Permutation_cons_inv in HF1. rewrite <- HF1 in HF2.
  destruct (kinv_inside s t (o, a) Hk) as (? & ? & ? & ?); [apply elem_of_app; by left|]. simpl in *.
  pose proof (pool_pos (base := base)).
  destruct (split_loop_run (Z.to_nat (o - order)) s1 F (used_blocks t MAX_ORDER base) o order a)
    as (s2 & R2 & Hf2 & Hs2 & Hm2); [done | lia | lia | done | lia | lia | |].
  { destruct (all_blocks_apart t MAX_ORDER base (ki_deep _ _ _ Hk)) as [Hnd Hap].
    unfold all_blocks in Hnd, Hap. rewrite HF, fmap_app in Hnd. simpl in Hnd.
    apply NoDup_cons in Hnd as [Hna _]. intros b Hb. rewrite <- fmap_app in Hb.
    apply list_elem_of_fmap in Hb as ([o' b'] & -> & Hb). simpl.
    destruct (Hap (o, a) (o', b')) as [E|Hapart].
    - apply elem_of_app. by left.
    - rewrite HF. simpl. by right.
    - exfalso. apply Hna. injection E as -> ->. rewrite <- fmap_app.
      apply list_elem_of_fmap. by exists (o', b').
    - unfold apart in Hapart. simpl in Hapart. pose proof (pow2_le 0 o').
      assert (0 < 2 ^ o'); [|lia]. apply Z.pow_pos_nonneg; [lia|].
      assert ((o', b') ∈ all_blocks t MAX_ORDER base) as Hbt.
      { unfold all_blocks. rewrite HF. simpl. by right. }
      destruct (kinv_inside s t _ Hk Hbt) as (_ & _ & _ & ?). simpl in *.
      assert (0 < MIN_ORDER) by done. lia. }
  exists s2. split; [done|]. exists o, (plug c (split_tree (Z.to_nat (o - order)))).
  split_and!; [done | done | by rewrite HF2 | by transitivity s1 |].
  intros b Hb. rewrite <- Hm1. apply Hm2. intros Hb'. apply Hb. rewrite HF2, fmap_app. set_solver.
Qed.

Lemma acquire_loop_run n s t cur order :
  kinv base s t → MIN_ORDER ≤ order ≤ cur → n = Z.to_nat (MAX_ORDER - cur + 1) →
  (∀ b, b ∈ free_blocks t MAX_ORDER base → order ≤ b.1 → cur ≤ b.1) →
  (acquire_loop n cur order s = Ok (0, s) ∧
     ∀ b, b ∈ free_blocks t MAX_ORDER base → b.1 < order) ∨
  ∃ a s', a ≠ 0 ∧ acquire_loop n cur order s = Ok (a, s') ∧ acquired s t order a s'.
Proof.
  intros Hk. revert cur. induction n as [|n IH]; intros cur Ho Hn Hmin.
  - left. simpl. rewrite (proj2 (Z.leb_gt _ _)) by lia. split; [done|]. intros b Hb.
    destruct (decide (order ≤ b.1)) as [Hle|]; [|lia]. apply Hmin in Hle; [|done].
    destruct (kinv_inside s t b Hk); [apply elem_of_app; by left | lia].
  - simpl. rewrite (proj2 (Z.leb_le _ _)) by lia.
    destruct (pop_block_run s _ _ cur (ki_lists _ _ _ Hk)) as [[Hno R]|Hsome]; [lia | |].
    + rewrite (bind_Ok _ _ _ _ _ R). simpl. apply IH; [lia | lia |]. intros b Hb Hle.
      specialize (Hmin b Hb Hle). destruct (decide (b.1 = cur)) as [<-|]; [|lia].
      destruct b as [o a]. apply elem_of_order in Hb. simpl in *. rewrite Hno in Hb. set_solver.
    + destruct Hsome as (a & F & s1 & Ha & HF & R & Hf1 & Hp1 & Hp2 & Hp3 & Hm1). right.
      rewrite (bind_Ok _ _ _ _ _ R). rewrite (proj2 (Z.eqb_neq _ _)) by done.
      destruct (carve_run s t order cur a F s1) as (s2 & R2 & Hq); try done.
      exists a, s2. rewrite (bind_Ok _ _ _ _ _ R2). done.
Qed.

(** ** The order requested *)
Lemma fit_order_run n order total :
  MIN_ORDER ≤ order ≤ MAX_ORDER + 1 → n = Z.to_nat (MAX_ORDER + 2 - order) →
  let r := fit_order n order total in
  order ≤ r ≤ MAX_ORDER + 1 ∧ (r ≤ MAX_ORDER → total ≤ 2 ^ r) ∧ (∀ o, order ≤ o < r → 2 ^ o < total).
Proof.
  destruct order_bounds as (E1 & E2 & _). simpl.
  revert order. induction n as [|n IH]; intros order Ho Hn; [lia|]. simpl.
  destruct (Z.leb_spec order MAX_ORDER); simpl; [|split_and!; intros; lia].
  rewrite order_size_pow by lia. destruct (Z.ltb_spec (2 ^ order) total); [|split_and!; intros; lia].
  destruct (IH (order + 1)) as (H1 & H2 & H3); [lia | lia |]. split_and!; [lia | lia | done |].
  intros o Hr. destruct (decide (o = order)) as [->|]; [done|]. apply H3. lia.
Qed.

(** The order [kmalloc] asks for, [MAX_ORDER + 1] when the request is too large. *)
Definition request_order (size : Z) : Z :=
  let total := u64 (size + sizeof_header) in
  fit_order (Z.to_nat (ORDER_COUNT + 1)) MIN_ORDER
    (if total <? MIN_BLOCK_SIZE then MIN_BLOCK_SIZE else total).

Lemma request_order_bounds size :
  0 < size → size + sizeof_header < 2 ^ 64 →
  MIN_ORDER ≤ request_order size ≤ MAX_ORDER + 1 ∧
  (request_order size ≤ MAX_ORDER → size + sizeof_header ≤ 2 ^ request_order size) ∧
  (MIN_ORDER < request_order size → 2 ^ (request_order size - 1) < size + sizeof_header).
Proof.
  intros Hs Hw. destruct order_bounds as (E1 & E2 & E3 & _).
  unfold request_order. unfold u64, wrap. rewrite Z.mod_small by (unfold sizeof_header in *; lia).
  set (total := if _ <? _ then _ else _).
  destruct (fit_order_run (Z.to_nat (ORDER_COUNT + 1)) MIN_ORDER total) as (H1 & H2 & H3);
    [lia | lia |]. cbv zeta in H1, H2, H3. revert H1 H2 H3.
  generalize (fit_order (Z.to_nat (ORDER_COUNT + 1)) MIN_ORDER total). intros r H1 H2 H3.
  assert (MIN_BLOCK_SIZE = 16) as E by done. assert (2 ^ MIN_ORDER = 16) as E' by done.
  unfold total in *. rewrite E in *. destruct (Z.ltb_spec (size + sizeof_header) 16).
  - split_and!; [lia | lia | intros Hr; specialize (H2 Hr); lia |].
    intros Hr. specialize (H3 MIN_ORDER ltac:(lia)). lia.
  - split_and!; [lia | lia | done |]. intros Hr. apply H3. lia.
Qed.

(** ** kmalloc *)

(** The new block: the smallest free block that fits was cut down to [o]; only
    words at which a block starts were written. *)
Definition allocated (s : kstate) (t : btree) (o p : Z) (s' : kstate) (t' : btree) : Prop :=
  kinv base s' t' ∧
  (∃ b, carved t t' o b ∧ b.2 = p - sizeof_header ∧
     ∀ b', b' ∈ free_blocks t MAX_ORDER base → o ≤ b'.1 → b.1 ≤ b'.1) ∧
  (∀ w, w ∉ (all_blocks t' MAX_ORDER base).*2 → mem s' !! w = mem s !! w).

Lemma ensure_ready_noop pool_addr s : kmalloc_ready s = true → ensure_ready pool_addr s = Ok (tt, s).
Proof. intros E. unfold ensure_ready. mrun. by rewrite E. Qed.

Lemma kmalloc_run s t size :
  kinv base s t → 0 ≤ size →
  (kmalloc base size s = Ok (NULL, s) ∧
     (size = 0 ∨ MAX_ORDER < request_order size ∨
      ∀ b, b ∈ free_blocks t MAX_ORDER base → b.1 < request_order size)) ∨
  ∃ p s' t', kmalloc base size s = Ok (p, s') ∧ 0 < size ∧ p ≠ NULL ∧
    request_order size ≤ MAX_ORDER ∧ allocated s t (request_order size) p s' t'.
Proof.
  intros Hk Hs. destruct order_bounds as (E1 & E2 & E3 & _). unfold kmalloc.
  rewrite (bind_Ok _ _ _ _ _ (ensure_ready_noop base s (ki_ready _ _ _ Hk))).
  destruct (Z.eqb_spec size 0) as [->|Hnz]; [left; auto|].
  fold (request_order size). cbv zeta. set (o := request_order size).
  rewrite Z.gtb_ltb. destruct (Z.ltb_spec MAX_ORDER o); [left; auto|].
  assert (MIN_ORDER ≤ o) as Hmin.
  { unfold o, request_order. eapply fit_order_run; lia. }
  unfold acquire_block.
  destruct (acquire_loop_run (Z.to_nat (MAX_ORDER - o + 1)) s t o o Hk) as [[R Hno]|Hyes];
    [lia | done | done | |].
  - left. rewrite (bind_Ok _ _ _ _ _ R). split; [done|]. by right; right.
  - right. destruct Hyes as (a & s1 & Ha & R & ob & t' & Hcv & Hbest & Hf1 & Hs1 & Hm1).
    rewrite (bind_Ok _ _ _ _ _ R). rewrite (proj2 (Z.eqb_neq _ _)) by done.
    destruct (carved_shape _ _ _ _ Hcv Hmin (ki_deep _ _ _ Hk) (ki_coalesced _ _ _ Hk)) as [Hd' Hc'].
    pose proof (carved_used _ _ _ _ Hcv) as HU. simpl in HU.
    destruct (all_blocks_apart t' MAX_ORDER base Hd') as [Hnd' _].
    unfold all_blocks in Hnd'. rewrite fmap_app, HU in Hnd'. simpl in Hnd'.
    apply NoDup_mid in Hnd' as (HaF & HaU & _).
    destruct (set_header_run s1 _ _ o a Hf1) as (s2 & R2 & Hf2 & Hp1 & Hp2 & Hp3 & Hm2);
      [lia | set_solver | done |].
    assert ((o, a) ∈ all_blocks t' MAX_ORDER base) as Hina.
    { apply elem_of_app. right. rewrite HU. by left. }
    apply all_blocks_inside in Hina as [[Hi1 Hi2] _]; [|done]. simpl in Hi1, Hi2.
    pose proof (pool_fits (base := base)). pose proof (pow2_le MIN_ORDER o ltac:(lia)).
    rewrite E2 in Hi2. assert (POOL_BYTES = 2 ^ 22) as EP by done. rewrite EP in *.
    assert (2 ^ MIN_ORDER = 16) as E16 by done. unfold sizeof_header in *.
    pose proof (pool_pos (base := base)).
    assert (u64 (a + 8) = a + 8) as Ep by (unfold u64, wrap; apply Z.mod_small; lia).
    exists (a + 8), s2, t'. rewrite Ep. split_and!; [|lia|unfold NULL; lia|done|].
    + unfold bind in R2 |- *. destruct (set_header_order a (u32 o) s1) as [[]| |]; try done.
      destruct (set_header_magic a HEADER_MAGIC _) as [[[] ?]| |]; try done. by injection R2 as <-.
    + assert (same_pool s s2) as (Hq1 & Hq2 & Hq3) by (by transitivity s1).
      split_and!.
      * split; [by rewrite Hq3, (ki_ready _ _ _ Hk) | by rewrite Hq1, (ki_base _ _ _ Hk)
               | by rewrite Hq2, (ki_end _ _ _ Hk) | done | done |].
        by rewrite HU.
      * exists (ob, a). split_and!; [done | unfold sizeof_header; simpl; lia | done].
      * intros w Hw. unfold all_blocks in Hw. rewrite fmap_app, HU in Hw. simpl in Hw.
        rewrite Hm2, Hm1; set_solver.
Qed.

End Alloc.
