(* ===== verification/KmallocFree.v ===== *)
(** * Release: kfree of kmalloc.c gives a leaf of the buddy tree back

    [merge_loop] climbs the path from the freed leaf to the root, consuming
    every sibling that is a free leaf; what is left is coalesced again. *)

From S2P Require Import Prelude Kmalloc KmallocLists BuddyTree KmallocAlloc.

(** ** Climbing *)

(** The hole at [(o, a)] on path [c] of the pool tree, outside of which the
    lists describe the blocks. *)
Record hole (base : Z) (s : kstate) (c : list frame) (o a : Z) : Prop := {
  ho_order : o + clen c = MAX_ORDER;
  ho_min : MIN_ORDER ≤ o;
  ho_root : root_addr c o a = base;
  ho_deep : deep_enough (plug c BUsed) MAX_ORDER;
  ho_coalesced : coalesced (plug c BUsed);
  ho_base : pool_base s = base;
  ho_lists : flists s (around free_blocks c o a) (around used_blocks c o a);
}.

Section Free.

Context {base : Z} {HP : PoolAt base}.

Lemma hole_bounds s c o a : hole base s c o a → 0 < base ≤ a ∧ a + 2 ^ o ≤ base + POOL_BYTES < 2 ^ 64.
Proof.
  intros Hh. destruct order_bounds as (E1 & E2 & _ & E4).
  pose proof (hole_inside c o a) as Hi. pose proof (ho_min _ _ _ _ _ Hh).
  rewrite (ho_root _ _ _ _ _ Hh), (ho_order _ _ _ _ _ Hh), E2 in Hi.
  pose proof (pool_pos (base := base)). pose proof (pool_fits (base := base)). lia.
Qed.

(** The address computed by the source is the buddy's. *)
Lemma source_buddy s f c o a :
  hole base s (f :: c) o a →
  u64 (base + Z.lxor (u64 (a - base)) (order_size o)) = buddy_addr f o a ∧
  buddy_addr f o a ≠ 0 ∧
  (if buddy_addr f o a <? a then buddy_addr f o a else a) = parent_addr f o a.
Proof.
  intros Hh. destruct order_bounds as (E1 & E2 & _ & E4). destruct (hole_bounds _ _ _ _ Hh) as [H1 H2].
  pose proof (ho_min _ _ _ _ _ Hh) as Hm. pose proof (ho_order _ _ _ _ _ Hh) as Ho.
  assert (0 ≤ clen (f :: c)) by (unfold clen; lia).
  assert (u64 (a - base) = a - base) as ->
    by (unfold u64, wrap; apply Z.mod_small; pose proof (pow2_le 0 o); lia).
  rewrite order_size_pow by lia.
  pose proof (buddy_xor f c o a ltac:(lia)) as Ex. pose proof (buddy_inside f c o a ltac:(lia)) as Hi.
  rewrite (ho_root _ _ _ _ _ Hh) in Ex, Hi. rewrite Ho, E2 in Hi. rewrite Ex.
  pose proof (pow2_le 0 o ltac:(lia)) as Hp.
  split_and!; [|lia|].
  - replace (base + (buddy_addr f o a - base)) with (buddy_addr f o a) by lia.
    unfold u64, wrap. apply Z.mod_small. lia.
  - destruct f; simpl in *; case Z.ltb_spec; lia.
Qed.

(** Merging with a free sibling moves the hole one level up. *)
Lemma hole_up s s' f c o a :
  hole base s (f :: c) o a → sibling f = BFree → pool_base s' = pool_base s →
  flists s' (around free_blocks c (o + 1) (parent_addr f o a)) (around used_blocks (f :: c) o a) →
  hole base s' c (o + 1) (parent_addr f o a).
Proof.
  intros [H1 H2 H3 H4 H5 H6 H7] Hs Hb Hf. simpl in *. rewrite Hs in Hf. simpl in Hf.
  assert (o + 1 + clen c = MAX_ORDER) as Ho by (unfold clen in *; simpl in H1; lia).
  assert (plug (f :: c) BUsed = plug c (BNode BUsed BFree) ∨
          plug (f :: c) BUsed = plug c (BNode BFree BUsed)) as Hplug.
  { destruct f; simpl in *; subst; auto. }
  split; [lia | lia | done | | | by rewrite Hb | done].
  - rewrite <- Ho in H4 |- *. destruct Hplug as [E|E]; simpl in E; rewrite E in H4;
      (eapply plug_deep_replace; [exact H4 | simpl; lia]).
  - destruct Hplug as [E|E]; simpl in E; rewrite E in H5;
      (eapply plug_coalesced_replace; [exact H5 | done | done]).
Qed.

(** The climb stops below a sibling that is not a free leaf, or at the root. *)
Definition stopped (c : list frame) : Prop :=
  match c with f :: _ => sibling f ≠ BFree | [] => True end.

Lemma unlink_absent s f c o a fuel p xs :
  hole base s (f :: c) o a → sibling f ≠ BFree →
  chain (mem s) p xs → xs ≡ₚ of_order o (around free_blocks (f :: c) o a) → (length xs < fuel)%nat →
  unlink_loop fuel (buddy_addr f o a) (ListHead (order_index o)) p s = Ok (false, s).
Proof.
  intros Hh Hs Hc Hp Hlen.
  assert (buddy_addr f o a ∉ xs) as Hno.
  { rewrite Hp, elem_of_order. pose proof (ho_deep _ _ _ _ _ Hh) as Hd.
    rewrite <- (ho_order _ _ _ _ _ Hh) in Hd. by rewrite (buddy_free_iff f c _ o a Hd). }
  destruct (unlink_loop_run s (buddy_addr f o a) fuel (ListHead (order_index o)) p xs Hc Hlen)
    as [[_ R]|(r1 & r2 & -> & _)]; [done | set_solver].
Qed.

Lemma of_order_length o F : (length (of_order o F) ≤ length F)%nat.
Proof. unfold of_order. rewrite length_fmap. apply length_filter. Qed.

Lemma merge_loop_run c s o a fuel :
  hole base s c o a → (length (around free_blocks c o a) < fuel)%nat →
  ∃ c' o' a' s', merge_loop (Z.to_nat (MAX_ORDER - o)) fuel a o s = Ok ((a', o'), s') ∧
    hole base s' c' o' a' ∧ stopped c' ∧
    around used_blocks c' o' a' = around used_blocks c o a ∧ same_pool s s' ∧
    (a' = a ∨ a' ∈ (around free_blocks c o a).*2) ∧
    (∀ w, w ∉ (around free_blocks c o a).*2 → mem s' !! w = mem s !! w).
Proof.
  revert s o a. induction c as [|f c IH]; intros s o a Hh Hfuel.
  - exists [], o, a, s. pose proof (ho_order _ _ _ _ _ Hh) as Ho. unfold clen in Ho. simpl in Ho.
    replace (Z.to_nat (MAX_ORDER - o)) with O by lia. simpl.
    rewrite (proj2 (Z.ltb_ge _ _)) by lia. split_and!; try done. by left.
  - pose proof (ho_order _ _ _ _ _ Hh) as Ho. pose proof (ho_min _ _ _ _ _ Hh) as Hmin.
    assert (0 ≤ clen c) by (unfold clen; lia).
    assert (clen (f :: c) = clen c + 1) as El by (unfold clen; simpl; lia).
    destruct (source_buddy _ _ _ _ _ Hh) as (Eb & Hb0 & Epar).
    pose proof (ho_lists _ _ _ _ _ Hh) as Hf.
    destruct (load_list_run s _ _ o Hf) as (p & xs & R & E & Hc & Hp); [lia|].
    assert (length xs < fuel)%nat as Hlen.
    { rewrite Hp. eapply Nat.le_lt_trans; [apply of_order_length | done]. }
    replace (Z.to_nat (MAX_ORDER - o)) with (S (Z.to_nat (MAX_ORDER - (o + 1)))) by lia.
    cbn [merge_loop]. rewrite (proj2 (Z.ltb_lt _ _)) by lia.
    unfold gets at 1. cbn [bind]. rewrite (ho_base _ _ _ _ _ Hh), Eb.
    rewrite (bind_Ok _ _ _ _ _ R).
    destruct (decide (sibling f = BFree)) as [Hs|Hs].
    + assert (around free_blocks (f :: c) o a =
        (o, buddy_addr f o a) :: around free_blocks c (o + 1) (parent_addr f o a)) as Earound.
      { simpl. by rewrite Hs. }
      destruct (unlink_run s _ (around free_blocks c (o + 1) (parent_addr f o a)) _ o
        (buddy_addr f o a) fuel p xs Hf) as (s1 & R1 & Hf1 & Hq1 & Hq2 & Hq3 & Hm1);
        [lia | by rewrite Earound | done | done | done | done |].
      rewrite (bind_Ok _ _ _ _ _ R1). cbn [negb]. rewrite Epar.
      destruct (IH s1 (o + 1) (parent_addr f o a)) as (c' & o' & a' & s2 & R2 & Hh2 & Hst & HU & Hs2 & Ha & Hm2).
      { by eapply hole_up. }
      { rewrite Earound in Hfuel. simpl in Hfuel. lia. }
      exists c', o', a', s2. split_and!; [done | done | done | | | |].
      * rewrite HU. simpl. by rewrite Hs.
      * transitivity s1; [by unfold same_pool | done].
      * rewrite Earound. simpl. destruct Ha as [->|Ha]; [|right; set_solver].
        destruct f; simpl; [by left | right; by left].
      * intros w Hw. rewrite Hm2, Hm1; [done | done |]. rewrite Earound in Hw. set_solver.
    + rewrite (bind_Ok _ _ _ _ _ (unlink_absent _ _ _ _ _ _ _ _ Hh Hs Hc Hp Hlen)).
      exists (f :: c), o, a, s. split_and!; try done. by left.
Qed.

(** ** kfree *)
Lemma free_count s t : kinv base s t →
  (length (all_blocks t MAX_ORDER base) < Z.to_nat (2 ^ 18 + 1))%nat.
Proof.
  intros Hk. pose proof (all_blocks_count t MAX_ORDER base (ki_deep _ _ _ Hk)) as H.
  replace (2 ^ MAX_ORDER) with (2 ^ 18 * 2 ^ MIN_ORDER) in H by reflexivity.
  apply Z.mul_le_mono_pos_r in H; [lia | done].
Qed.

Lemma hole_push s c o a :
  hole base s c o a → stopped c → kmalloc_ready s = true → pool_end s = u64 (base + POOL_BYTES) →
  ∃ s', push_block o a s = Ok (tt, s') ∧ kinv base s' (plug c BFree) ∧
    used_blocks (plug c BFree) MAX_ORDER base ≡ₚ around used_blocks c o a ∧
    (o, a) ∈ free_blocks (plug c BFree) MAX_ORDER base ∧
    (∀ w, w ≠ a → mem s' !! w = mem s !! w).
Proof.
  intros Hh Hst Hr He. destruct (hole_bounds _ _ _ _ Hh) as [Hb1 Hb2].
  pose proof (ho_min _ _ _ _ _ Hh). pose proof (ho_deep _ _ _ _ _ Hh) as Hd.
  pose proof (ho_order _ _ _ _ _ Hh) as Ho. assert (0 ≤ clen c) by (unfold clen; lia).
  destruct (push_block_run s _ _ o a (ho_lists _ _ _ _ _ Hh)) as (s' & R & Hf & Hq1 & Hq2 & Hq3 & Hm);
    [lia | | lia |].
  { rewrite <- fmap_app. intros (b & -> & Hb)%list_elem_of_fmap. rewrite <- Ho in Hd.
    pose proof (around_outside _ _ _ _ _ Hd Hb). pose proof (pow2_le 0 o).
    assert (MIN_ORDER = 4) by done.
    assert (0 < 2 ^ b.1); [|lia]. apply Z.pow_pos_nonneg; [lia|].
    eapply (plug_deep_replace _ _ BUsed) in Hd; [|simpl; lia].
    destruct (all_blocks_inside (plug c BUsed) (o + clen c) (root_addr c o b.2) b Hd) as [_ Hi]; [|lia].
    unfold all_blocks. rewrite plug_free, plug_used. simpl. set_solver. }
  assert (free_blocks (plug c BFree) MAX_ORDER base ≡ₚ (o, a) :: around free_blocks c o a) as HF.
  { rewrite <- Ho, <- (ho_root _ _ _ _ _ Hh). by rewrite plug_free. }
  assert (used_blocks (plug c BFree) MAX_ORDER base ≡ₚ around used_blocks c o a) as HU.
  { rewrite <- Ho, <- (ho_root _ _ _ _ _ Hh). by rewrite plug_used. }
  exists s'. split_and!; [done | | done | rewrite HF; by left | done].
  split; [congruence | by rewrite Hq1, (ho_base _ _ _ _ _ Hh) | congruence | | | by rewrite HF, HU].
  - rewrite <- Ho in Hd |- *. eapply plug_deep_replace; [exact Hd | simpl; lia].
  - apply plug_coalesced_free; [apply Hh | done].
Qed.

(** The link of a free block is null or another free block. *)
Lemma chain_next m p xs a : chain m p xs → a ∈ xs → word m a = 0 ∨ word m a ∈ xs.
Proof.
  revert p. induction xs as [|x xs IH]; intros p; simpl; [set_solver|].
  intros (_ & _ & Hc) [->|Ha]%elem_of_cons.
  - destruct xs as [|y ys]; simpl in Hc; [by left | right]. destruct Hc as (-> & _). set_solver.
  - destruct (IH _ Hc Ha); [by left | right; set_solver].
Qed.

Lemma free_word s t b : kinv base s t → b ∈ free_blocks t MAX_ORDER base →
  word (mem s) b.2 = 0 ∨ word (mem s) b.2 ∈ (free_blocks t MAX_ORDER base).*2.
Proof.
  intros Hk Hb. destruct (kinv_inside s t b Hk) as (_ & _ & _ & Ho); [apply elem_of_app; by left|].
  destruct (fl_chain _ _ _ (ki_lists _ _ _ Hk) b.1 Ho) as (p & xs & _ & Hc & Hp).
  destruct (chain_next _ _ _ b.2 Hc) as [H|H]; [|by left|right].
  - rewrite Hp, elem_of_order. by destruct b.
  - rewrite Hp in H. by apply of_order_sub in H.
Qed.

(** Freeing the leaf [(o, a)]: its path is closed with a free leaf somewhere
    above it, and nothing but words at which a block of [t] starts is written. *)
Definition released (s : kstate) (t : btree) (o p : Z) (s' : kstate) (t' : btree) : Prop :=
  kinv base s' t' ∧
  used_blocks t MAX_ORDER base ≡ₚ (o, p - sizeof_header) :: used_blocks t' MAX_ORDER base ∧
  (∀ w, w ∉ (all_blocks t MAX_ORDER base).*2 → mem s' !! w = mem s !! w).

(** The word at the start of the block just freed is not a valid header: it
    is a link of the free list, or the old header with its magic erased. *)
Definition disarmed (t' : btree) (w : Z) : Prop :=
  header_magic w = 0 ∨ w ∈ (free_blocks t' MAX_ORDER base).*2.

Lemma used_hole s t o a v :
  kinv base s t → (o, a) ∈ used_blocks t MAX_ORDER base →
  ∃ c, hole base (set_mem (<[a := v]> (mem s)) s) c o a ∧
    used_blocks t MAX_ORDER base ≡ₚ (o, a) :: around used_blocks c o a ∧
    free_blocks t MAX_ORDER base ≡ₚ around free_blocks c o a.
Proof.
  intros Hk Hin. destruct (used_located _ _ _ _ Hin) as (c & Ht & Ho & Hr). simpl in *.
  assert (used_blocks t MAX_ORDER base ≡ₚ (o, a) :: around used_blocks c o a) as HU.
  { rewrite Ht, Ho, Hr, plug_used. done. }
  assert (free_blocks t MAX_ORDER base ≡ₚ around free_blocks c o a) as HF.
  { rewrite Ht, Ho, Hr, plug_free. done. }
  destruct (kinv_inside s t (o, a) Hk) as (_ & _ & _ & Hb); [apply elem_of_app; by right|].
  exists c. split_and!; [|done|done]. pose proof (ki_lists _ _ _ Hk) as Hf. rewrite HU, HF in Hf.
  split; [done | simpl in Hb; lia | done | rewrite <- Ht; apply Hk | rewrite <- Ht; apply Hk
         | apply Hk | by eapply flists_forget].
Qed.

Lemma kfree_run s t o a fuel :
  kinv base s t → (o, a) ∈ used_blocks t MAX_ORDER base → (Z.to_nat (2 ^ 18 + 1) ≤ fuel)%nat →
  ∃ s' t', kfree base fuel (a + sizeof_header) s = Ok (tt, s') ∧
    released s t o (a + sizeof_header) s' t' ∧ disarmed t' (word (mem s') a).
Proof.
  intros Hk Hin Hfuel. destruct order_bounds as (E1 & E2 & _).
  destruct (kinv_inside s t (o, a) Hk) as (Hb1 & Hb2 & Hb3 & Hb4); [apply elem_of_app; by right|].
  simpl in Hb1, Hb2, Hb3, Hb4. pose proof (pow2_le MIN_ORDER o ltac:(lia)) as Hpow.
  replace (2 ^ MIN_ORDER) with 16 in Hpow by done.
  pose proof (pool_fits (base := base)) as Hfit. pose proof (pool_pos (base := base)) as Hpos.
  destruct (header_word_fields o ltac:(lia)) as [Ho1 Ho2].
  pose proof (fl_header _ _ _ (ki_lists _ _ _ Hk) o a Hin) as Hw.
  set (s1 := set_mem (<[a := o]> (mem s)) s).
  destruct (used_hole s t o a o Hk Hin) as (c & Hh & HU & HF). fold s1 in Hh.
  destruct (merge_loop_run c s1 o a fuel Hh) as (c' & o' & a' & s2 & R2 & Hh2 & Hst & HU2 & Hs2 & Ha' & Hm2).
  { pose proof (free_count s t Hk) as Hcnt. unfold all_blocks in Hcnt.
    rewrite HF, length_app in Hcnt. lia. }
  destruct Hs2 as (Hq1 & Hq2 & Hq3). simpl in Hq1, Hq2, Hq3.
  destruct (hole_push s2 c' o' a' Hh2 Hst) as (s3 & R3 & Hk3 & HU3 & Hfree & Hm3);
    [rewrite Hq3; apply Hk | rewrite Hq2; apply Hk |].
  assert (a ∉ (around free_blocks c o a).*2) as Hna.
  { pose proof (fl_nodup _ _ _ (ki_lists _ _ _ Hk)) as Hnd. rewrite HU, HF in Hnd. simpl in Hnd.
    by apply NoDup_mid in Hnd as (? & _). }
  exists s3, (plug c' BFree). split_and!.
  - unfold kfree. rewrite (bind_Ok _ _ _ _ _ (ensure_ready_noop base s (ki_ready _ _ _ Hk))).
    unfold sizeof_header in *. rewrite (proj2 (Z.eqb_neq _ NULL)) by (unfold NULL; lia).
    replace (a + 8 - 8) with a by lia.
    assert (u64 a = a ∧ u64 (base + POOL_BYTES) = base + POOL_BYTES) as [-> Eend]
      by (unfold u64, wrap; rewrite !Z.mod_small; lia).
    unfold set_header_magic, load_word, store_word, merge_block. mrun.
    rewrite (ki_base _ _ _ Hk), (ki_end _ _ _ Hk), Eend.
    rewrite (proj2 (Z.ltb_ge a base)) by lia. rewrite Z.geb_leb, (proj2 (Z.leb_gt (base + POOL_BYTES) a)) by lia.
    cbn [orb]. rewrite Hw, Ho1, Ho2, Z.eqb_refl. cbn [negb orb].
    rewrite Z.gtb_ltb, (proj2 (Z.ltb_ge _ _)) by lia. rewrite (proj2 (Z.ltb_ge _ _)) by lia. cbn [orb].
    cbn [mem set_mem]. rewrite Hw, Ho1. replace (u32 0 * 2 ^ 32 + o) with o by done.
    rewrite word_insert_eq. replace (header_order o) with o
      by (unfold header_order; rewrite Z.mod_small; lia).
    fold s1. rewrite R2. exact R3.
  - split_and!; [done | |].
    + rewrite HU3, HU, HU2. by rewrite Z.add_simpl_r.
    + intros w Hw'. unfold all_blocks in Hw'. rewrite fmap_app, HF, HU in Hw'. simpl in Hw'.
      rewrite Hm3, Hm2; [simpl; apply lookup_insert_ne; set_solver | set_solver |].
      destruct Ha' as [->|Ha']; set_solver.
  - destruct (decide (a' = a)) as [->|Hne].
    + destruct (free_word s3 _ _ Hk3 Hfree) as [E|E]; simpl in E; unfold disarmed;
        [left; by rewrite E | by right].
    + left. unfold word. rewrite Hm3, Hm2 by done. simpl. rewrite lookup_insert_eq. simpl.
      unfold header_magic. apply Z.div_small. lia.
Qed.

(** A pointer whose block does not carry a valid header is ignored. *)
Lemma kfree_reject s t fuel p :
  kinv base s t → header_magic (word (mem s) (u64 (p - sizeof_header))) ≠ HEADER_MAGIC →
  kfree base fuel p s = Ok (tt, s).
Proof.
  intros Hk Hw. unfold kfree.
  rewrite (bind_Ok _ _ _ _ _ (ensure_ready_noop base s (ki_ready _ _ _ Hk))).
  destruct (p =? NULL); [done|]. unfold load_word. mrun.
  destruct (_ || _); [done|]. by rewrite (proj2 (Z.eqb_neq _ _)).
Qed.

End Free.
