(* ===== verification/KmallocSafety.v ===== *)
(** * The kernel heap over time

    Histories of [kmalloc], [kfree] and client stores, started from any memory
    before the first call. [heap_step] records the live allocations with their
    requested sizes; the theorems state what a client may rely on. *)

From S2P Require Import Prelude Kmalloc KmallocLists BuddyTree KmallocAlloc KmallocFree.

(** Enough turns for a search of any free list of the pool. *)
Definition kfree_fuel : nat := Z.to_nat (2 ^ 18 + 1).

(** The live allocations: pointer to requested size. *)
Abbreviation live_map := (gmap Z Z).

Inductive heap_step (base : Z) : kstate * live_map → kstate * live_map → Prop :=
| step_malloc s L size p s' :
    0 ≤ size → size + sizeof_header < 2 ^ 64 →
    kmalloc base size s = Ok (p, s') →
    heap_step base (s, L) (s', if p =? NULL then L else <[p := size]> L)
| step_free s L p s' :
    p ∈ dom L → kfree base kfree_fuel p s = Ok (tt, s') →
    heap_step base (s, L) (s', delete p L)
| step_free_null s L s' :
    kfree base kfree_fuel NULL s = Ok (tt, s') → heap_step base (s, L) (s', L)
| step_store s L p size w v :
    L !! p = Some size → w mod 8 = 0 → p ≤ w → w + 8 ≤ p + size →
    heap_step base (s, L) (set_mem (<[w := v]> (mem s)) s, L).

Definition heap_reachable (base : Z) (s : kstate) (L : live_map) : Prop :=
  ∃ s0, kmalloc_ready s0 = false ∧ rtc (heap_step base) (s0, ∅) (s, L).

(** The used leaves of the tree are the live allocations. *)
Record tracks (base : Z) (t : btree) (L : live_map) : Prop := {
  tr_live p size : L !! p = Some size →
    0 < size ∧ size + sizeof_header < 2 ^ 64 ∧
    (request_order size, p - sizeof_header) ∈ used_blocks t MAX_ORDER base;
  tr_used b : b ∈ used_blocks t MAX_ORDER base → is_Some (L !! (b.2 + sizeof_header));
}.

(** Before the first call nothing is live; afterwards a tree is represented. *)
Definition heap_inv (base : Z) (s : kstate) (L : live_map) : Prop :=
  (kmalloc_ready s = false ∧ L = ∅) ∨ ∃ t, kinv base s t ∧ tracks base t L.

Section Safety.

Context {base : Z} {HP : PoolAt base}.

(** ** The first call *)
Lemma init_kmalloc_run s : kmalloc_ready s = false →
  ∃ s', ensure_ready base s = Ok (tt, s') ∧ kinv base s' BFree.
Proof.
  intros Hr. pose proof (pool_pos (base := base)). pose proof (pool_fits (base := base)).
  set (s1 := mk_kstate (mem s) (replicate (Z.to_nat ORDER_COUNT) 0) base (u64 (base + POOL_BYTES))
    (kmalloc_ready s)).
  assert (flists s1 [] []) as Hf1.
  { split; [apply length_replicate | | set_solver | constructor | set_solver].
    intros o Ho. exists 0, []. split_and!; [|done|done]. apply lookup_replicate.
    split; [done|]. unfold order_index, ORDER_COUNT. lia. }
  destruct (push_block_run s1 [] [] MAX_ORDER base Hf1) as (s2 & R & Hf2 & Hq1 & Hq2 & Hq3 & _);
    [done | set_solver | lia |].
  exists (mk_kstate (mem s2) (free_lists s2) (pool_base s2) (pool_end s2) true). split.
  - unfold ensure_ready, init_kmalloc. mrun. rewrite Hr. cbn [negb].
    rewrite (proj2 (Z.eqb_neq _ _)) by lia. cbn [negb asserts]. mrun. fold s1. by rewrite R.
  - split; [done..| | |]; [done | done |]. simpl. destruct Hf2. by split.
Qed.

(** A call runs as on the initialised heap. *)
Lemma heap_inv_ready s L : heap_inv base s L →
  ∃ s1 t, kinv base s1 t ∧ tracks base t L ∧
    (∀ size, kmalloc base size s = kmalloc base size s1) ∧
    (∀ fuel p, kfree base fuel p s = kfree base fuel p s1) ∧
    (L ≠ ∅ → s1 = s).
Proof.
  intros [[Hr ->]|(t & Hk & Ht)].
  - destruct (init_kmalloc_run s Hr) as (s1 & R & Hk). exists s1, BFree.
    pose proof (ensure_ready_noop base s1 (ki_ready _ _ _ Hk)) as R1. split_and!; try done.
    + split; [done|]. simpl. set_solver.
    + intros. unfold kmalloc. by rewrite (bind_Ok _ _ _ _ _ R), (bind_Ok _ _ _ _ _ R1).
    + intros. unfold kfree. by rewrite (bind_Ok _ _ _ _ _ R), (bind_Ok _ _ _ _ _ R1).
  - by exists s, t.
Qed.

(** ** Every step keeps the invariant *)
Lemma used_nodup s t : kinv base s t → NoDup (used_blocks t MAX_ORDER base).*2.
Proof. intros Hk. pose proof (fl_nodup _ _ _ (ki_lists _ _ _ Hk)) as H. by apply NoDup_app in H as (_ & _ & ?). Qed.

Lemma tracks_malloc s t L size p s' t' :
  tracks base t L → 0 < size → size + sizeof_header < 2 ^ 64 →
  allocated (base := base) s t (request_order size) p s' t' → tracks base t' (<[p := size]> L).
Proof.
  intros [H1 H2] Hs Hw (Hk & (b & Hcv & Hb & _) & _).
  pose proof (carved_used _ _ _ _ Hcv) as HU. rewrite Hb in HU. split.
  - intros q sz. destruct (decide (p = q)) as [<-|Hne].
    + rewrite lookup_insert_eq. intros [= <-]. split_and!; [done..|]. rewrite HU. by left.
    + rewrite lookup_insert_ne by done. intros Hq. destruct (H1 _ _ Hq) as (? & ? & ?).
      split_and!; [done..|]. rewrite HU. by right.
  - intros c. rewrite HU. intros [->|Hc]%elem_of_cons.
    + simpl. rewrite Z.sub_add, lookup_insert_eq. done.
    + destruct (H2 _ Hc) as [sz Hsz].
      destruct (decide (p = c.2 + sizeof_header)) as [->|];
        [rewrite lookup_insert_eq | rewrite lookup_insert_ne]; eauto.
Qed.

Lemma tracks_free s t L o p s' t' :
  kinv base s t → tracks base t L → released (base := base) s t o p s' t' →
  tracks base t' (delete p L).
Proof.
  intros Hk [H1 H2] (_ & HU & _). pose proof (used_nodup _ _ Hk) as Hnd. rewrite HU in Hnd. simpl in Hnd.
  apply NoDup_cons in Hnd as [Hnot _]. split.
  - intros q sz. rewrite lookup_delete_Some. intros [Hne Hq]. destruct (H1 _ _ Hq) as (? & ? & Hin).
    split_and!; [done..|]. rewrite HU in Hin. apply elem_of_cons in Hin as [[=]|]; [lia | done].
  - intros c Hc. rewrite lookup_delete_ne; [apply H2; rewrite HU; by right|].
    intros ->. apply Hnot. rewrite Z.add_simpl_r. apply list_elem_of_fmap. by exists c.
Qed.

(** A word inside a live payload is not the start of any block. *)
Lemma payload_not_start s t L p size w b :
  kinv base s t → tracks base t L → L !! p = Some size → p ≤ w → w + 8 ≤ p + size →
  b ∈ all_blocks t MAX_ORDER base → w ≠ b.2.
Proof.
  intros Hk Ht Hp Hw1 Hw2 Hb ->. destruct (tr_live _ _ _ Ht _ _ Hp) as (Hs & Hov & Hin).
  destruct (all_blocks_apart _ _ base (ki_deep _ _ _ Hk)) as [_ Hap].
  destruct (Hap b (request_order size, p - sizeof_header) Hb) as [->|Ha]; [apply elem_of_app; by right | |].
  - simpl in *. unfold sizeof_header in *. lia.
  - destruct (kinv_inside s t b Hk Hb) as (? & ? & ? & ?).
    destruct (kinv_inside s t (request_order size, p - sizeof_header) Hk) as (? & ? & ? & ?);
      [apply elem_of_app; by right|].
    destruct (request_order_bounds size Hs Hov) as (_ & Hfit & _). simpl in *.
    specialize (Hfit ltac:(lia)). unfold apart, sizeof_header in *. simpl in *.
    pose proof (pow2_le 0 b.1). assert (MIN_ORDER = 4) by done. lia.
Qed.

Lemma kinv_store s t w v :
  kinv base s t → w ∉ (all_blocks t MAX_ORDER base).*2 →
  kinv base (set_mem (<[w := v]> (mem s)) s) t.
Proof.
  intros [H1 H2 H3 H4 H5 [L1 L2 L3 L4 L5]] Hw. unfold all_blocks in Hw. rewrite fmap_app, not_elem_of_app in Hw.
  destruct Hw as [HwF HwU]. split; [done..|]. split; simpl; try done.
  - intros o Ho. destruct (L2 o Ho) as (q & xs & ? & Hc & Hp). exists q, xs. split_and!; [done| |done].
    apply chain_insert; [|done]. rewrite Hp. intros ?%of_order_sub. done.
  - intros o a Ha. rewrite word_insert_ne; [by apply L3|]. intros ->. apply HwU.
    apply list_elem_of_fmap. by exists (o, a).
Qed.

Lemma kfree_null s1 t fuel : kinv base s1 t → kfree base fuel NULL s1 = Ok (tt, s1).
Proof.
  intros Hk. unfold kfree.
  by rewrite (bind_Ok _ _ _ _ _ (ensure_ready_noop base s1 (ki_ready _ _ _ Hk))).
Qed.

Lemma heap_step_inv s L s' L' :
  heap_inv base s L → heap_step base (s, L) (s', L') → heap_inv base s' L'.
Proof.
  intros Hinv Hstep. destruct (heap_inv_ready s L Hinv) as (s1 & t & Hk & Ht & Em & Ef & Es).
  inversion Hstep as [? ? size p ? Hs Hov R|? ? p ? Hin R|? ? ? R|? ? p size w v Hp Hal Hw1 Hw2]; subst.
  - rewrite Em in R. right. destruct (kmalloc_run s1 t size Hk Hs) as [[R' _]|(q & s2 & t2 & R' & ? & Hq & ? & Hal)];
      rewrite R' in R; injection R as <- <-.
    + by exists t.
    + exists t2. rewrite (proj2 (Z.eqb_neq _ _)) by done. split; [by destruct Hal as [? _]|].
      by eapply tracks_malloc.
  - rewrite Ef in R. apply elem_of_dom in Hin as [size Hsize].
    destruct (tr_live _ _ _ Ht _ _ Hsize) as (_ & _ & Hu).
    destruct (kfree_run s1 t _ _ kfree_fuel Hk Hu) as (s2 & t2 & R' & Hrel & _); [done|].
    rewrite Z.sub_add in R', Hrel. rewrite R' in R. injection R as <-. right. exists t2.
    split; [by destruct Hrel as [? _] | by eapply tracks_free].
  - rewrite Ef, (kfree_null s1 t) in R by done. injection R as <-. right. by exists t.
  - assert (s1 = s) as -> by (apply Es; intros ->; by rewrite lookup_empty in Hp).
    right. exists t. split; [|done]. apply kinv_store; [done|].
    intros (b & -> & Hb)%list_elem_of_fmap. by eapply payload_not_start.
Qed.

Lemma heap_steps_inv x y :
  rtc (heap_step base) x y → heap_inv base x.1 x.2 → heap_inv base y.1 y.2.
Proof.
  induction 1 as [|[s L] [s1 L1] y Hst _ IH]; [done|]. intros H0. apply IH. by eapply heap_step_inv.
Qed.

Lemma heap_reachable_inv s L : heap_reachable base s L → heap_inv base s L.
Proof. intros (s0 & Hr & Hsteps). apply (heap_steps_inv _ _ Hsteps). by left. Qed.

(** ** Full pools *)

(** Two ranges of [2^o] bytes share an address. *)
Definition overlap (b c : Z * Z) : Prop := b.2 < c.2 + 2 ^ c.1 ∧ c.2 < b.2 + 2 ^ b.1.

(** In a coalesced tree without a free leaf of order [r] or more, every aligned
    range of order [r] overlaps a used leaf. *)
Lemma tree_full t o a r x k :
  deep_enough t o → coalesced t → (∀ b, b ∈ free_blocks t o a → b.1 < r) → 0 ≤ r →
  x = a + k * 2 ^ r → 0 ≤ k → x + 2 ^ r ≤ a + 2 ^ o →
  ∃ b, b ∈ used_blocks t o a ∧ overlap b (r, x).
Proof.
  assert (MIN_ORDER = 4) as E4 by done.
  revert o a k. induction t as [| |l IHl r' IHr]; intros o a k Hd Hc Hfree Hr Hx Hk Hend.
  - exfalso. specialize (Hfree (o, a)). simpl in *. specialize (Hfree ltac:(set_solver)).
    assert (2 ^ o < 2 ^ r) by (apply Z.pow_lt_mono_r; lia). nia.
  - exists (o, a). unfold overlap. simpl in *. pose proof (pow2_le 0 r). pose proof (pow2_le 0 o).
    split; [set_solver | nia].
  - simpl in Hd, Hc, Hfree, Hend |- *. destruct Hd as (Ho & Hdl & Hdr), Hc as (Hlr & Hcl & Hcr).
    pose proof (pow2_split o ltac:(lia)) as Ep.
    destruct (decide (o ≤ r)) as [Hor|Hor].
    + destruct (used_blocks l (o - 1) a ++ used_blocks r' (o - 1) (a + 2 ^ (o - 1))) as [|b bs] eqn:EU.
      { exfalso. apply app_eq_nil in EU as [E1 E2]. apply Hlr. eauto using coalesced_all_free. }
      exists b. split; [by left|].
      assert (b ∈ all_blocks (BNode l r') o a) as Hb.
      { apply elem_of_app. right. simpl. rewrite EU. by left. }
      apply all_blocks_inside in Hb as [[Hb1 Hb2] Hb3]; [|simpl; auto]. unfold overlap. simpl.
      pose proof (pow2_le 0 b.1). pose proof (pow2_le o r). assert (k = 0) as -> by nia. nia.
    + pose proof (Z.pow_add_r 2 (o - 1 - r) r ltac:(lia) ltac:(lia)) as Em.
      replace (o - 1 - r + r) with (o - 1) in Em by lia. pose proof (pow2_le 0 r).
      destruct (decide (k < 2 ^ (o - 1 - r))).
      * destruct (IHl (o - 1) a k) as (b & Hb & ?); try done; [set_solver | nia | set_solver].
      * destruct (IHr (o - 1) (a + 2 ^ (o - 1)) (k - 2 ^ (o - 1 - r))) as (b & Hb & ?);
          try done; [set_solver | nia | lia | nia | set_solver].
Qed.

(** ** What a client may rely on *)
Lemma used_aligned t b : deep_enough t MAX_ORDER → b ∈ used_blocks t MAX_ORDER base → b.2 mod 16 = 0.
Proof.
  intros Hd Hb. destruct (used_located _ _ _ _ Hb) as (c & _ & _ & Hr).
  apply (or_intror (A := b ∈ free_blocks t MAX_ORDER base)), elem_of_app, all_blocks_inside in Hb as [_ Ho]; [|done].
  assert (MIN_ORDER = 4) by done. pose proof (root_aligned c b.1 b.2 ltac:(lia)) as Ha. rewrite <- Hr in Ha.
  apply Z.mod_divide in Ha; [|apply Z.pow_nonzero; lia]. destruct Ha as [k Ek].
  pose proof (Z.pow_add_r 2 (b.1 - 4) 4 ltac:(lia) ltac:(lia)) as Ep. replace (b.1 - 4 + 4) with b.1 in Ep by lia.
  pose proof (pool_page (base := base)) as Hp. apply Z.mod_divide in Hp as [q Eq]; [|done].
  unfold PAGE_SIZE in Eq. apply Z.mod_divide; [done|].
  exists (k * 2 ^ (b.1 - 4) + q * 256). change (2 ^ 4) with 16 in Ep. rewrite Ep in Ek. lia.
Qed.

Lemma live_block s t L p size :
  kinv base s t → tracks base t L → L !! p = Some size →
  let b := (request_order size, p - sizeof_header) in
  b ∈ used_blocks t MAX_ORDER base ∧ b ∈ all_blocks t MAX_ORDER base ∧
  base ≤ b.2 ∧ b.2 + 2 ^ b.1 ≤ base + POOL_BYTES ∧ size + sizeof_header ≤ 2 ^ b.1 ∧ b.2 mod 16 = 0.
Proof.
  intros Hk Ht Hp. destruct (tr_live _ _ _ Ht _ _ Hp) as (Hs & Hov & Hin).
  assert ((request_order size, p - sizeof_header) ∈ all_blocks t MAX_ORDER base) as Ha
    by (apply elem_of_app; by right).
  destruct (kinv_inside s t _ Hk Ha) as (? & ? & ? & ?).
  destruct (request_order_bounds size Hs Hov) as (_ & Hfit & _). simpl in *.
  split_and!; [done..|apply Hfit; lia|]. by apply (used_aligned t (request_order size, p - sizeof_header) (ki_deep _ _ _ Hk)).
Qed.

Lemma live_disjoint s t L p q n m :
  kinv base s t → tracks base t L → L !! p = Some n → L !! q = Some m → p ≠ q →
  p + n ≤ q ∨ q + m ≤ p.
Proof.
  intros Hk Ht Hp Hq Hne.
  destruct (live_block s t L p n Hk Ht Hp) as (_ & Hp1 & _ & _ & Hpf & _).
  destruct (live_block s t L q m Hk Ht Hq) as (_ & Hq1 & _ & _ & Hqf & _).
  destruct (all_blocks_apart _ _ base (ki_deep _ _ _ Hk)) as [_ Hap].
  destruct (Hap _ _ Hp1 Hq1) as [[=]|[Ha|Ha]]; unfold sizeof_header in *; simpl in *; lia.
Qed.


(** C35 At every point of every history of requests of at most 2^64 - 9 bytes
    the allocator answers: [kmalloc] returns for every size, and [kfree]
    returns for every live pointer within [kfree_fuel] turns of its search. *)
Theorem kmalloc_kfree_return s L :
  heap_reachable base s L →
  (∀ size, 0 ≤ size → ∃ p s', kmalloc base size s = Ok (p, s')) ∧
  (∀ p, p ∈ dom L → ∃ s', kfree base kfree_fuel p s = Ok (tt, s')).
Proof.
  intros Hr%heap_reachable_inv. destruct (heap_inv_ready s L Hr) as (s1 & t & Hk & Ht & Em & Ef & _).
  split.
  - intros size Hs. rewrite Em. destruct (kmalloc_run s1 t size Hk Hs) as [[R _]|(p & s2 & ? & R & _)]; eauto.
  - intros p [size Hp]%elem_of_dom. rewrite Ef.
    destruct (live_block s1 t L p size Hk Ht Hp) as (Hu & _).
    destruct (kfree_run s1 t _ _ kfree_fuel Hk Hu) as (s2 & t2 & R & _); [done|].
    rewrite Z.sub_add in R. eauto.
Qed.

(** C36 No call touches the payload of a live allocation: after a history of
    requests of at most 2^64 - 9 bytes, the words of a live payload survive
    every further [kmalloc] of at most 2^64 - 9 bytes and every release, the
    release of the allocation itself included. *)
Theorem kmalloc_keeps_payloads s L p n w s' :
  heap_reachable base s L → L !! p = Some n → p ≤ w → w + 8 ≤ p + n →
  (∃ size r, 0 ≤ size ∧ size + sizeof_header < 2 ^ 64 ∧ kmalloc base size s = Ok (r, s')) ∨
  (∃ q, q ∈ dom L ∧ kfree base kfree_fuel q s = Ok (tt, s')) →
  mem s' !! w = mem s !! w.
Proof.
  intros Hr%heap_reachable_inv Hp Hw1 Hw2 Hcall.
  destruct (heap_inv_ready s L Hr) as (s1 & t & Hk & Ht & _ & _ & Es).
  assert (s1 = s) as -> by (apply Es; intros ->; by rewrite lookup_empty in Hp). clear Es.
  destruct Hcall as [(size & r & Hs & Hov & R)|(q & [m Hq]%elem_of_dom & R)].
  - destruct (kmalloc_run s t size Hk Hs) as [[R' _]|(r' & s2 & t2 & R' & Hs' & Hr' & Ho & Hal)];
      rewrite R' in R; injection R as <- <-; [done|]. destruct (Hal) as (Hk2 & (b & Hcv & Hb & _) & Hm).
    apply Hm. intros (c & -> & Hc)%list_elem_of_fmap.
    assert (tracks base t2 (<[r' := size]> L)) as Ht2 by (by eapply tracks_malloc).
    eapply payload_not_start; [exact Hk2 | exact Ht2 | | exact Hw1 | exact Hw2 | exact Hc | done].
    rewrite lookup_insert_ne; [done|]. intros ->.
    destruct (live_block s t L p n Hk Ht Hp) as (Hin & _).
    pose proof (used_nodup _ _ Hk2) as Hnd. rewrite (carved_used _ _ _ _ Hcv) in Hnd. simpl in Hnd.
    apply NoDup_cons in Hnd as [Hnot _]. apply Hnot. rewrite Hb.
    apply list_elem_of_fmap. by exists (request_order n, p - sizeof_header).
  - destruct (live_block s t L q m Hk Ht Hq) as (Hu & _).
    destruct (kfree_run s t _ _ kfree_fuel Hk Hu) as (s2 & t2 & R' & (_ & _ & Hm) & _); [done|].
    rewrite Z.sub_add in R'. rewrite R' in R. injection R as <-. apply Hm.
    intros (c & -> & Hc)%list_elem_of_fmap.
    eapply payload_not_start; [exact Hk | exact Ht | exact Hp | exact Hw1 | exact Hw2 | exact Hc | done].
Qed.

(** [kmalloc] fails only when it must: when it returns NULL for a
    request, every naturally aligned block of the pool of the size the request
    needs overlaps the block of some live allocation. *)
Theorem kmalloc_fails_only_when_full s L size s' k :
  heap_reachable base s L → 0 < size → size + sizeof_header ≤ POOL_BYTES →
  kmalloc base size s = Ok (NULL, s') →
  0 ≤ k → (k + 1) * 2 ^ request_order size ≤ POOL_BYTES →
  ∃ p n, L !! p = Some n ∧
    overlap (request_order n, p - sizeof_header) (request_order size, base + k * 2 ^ request_order size).
Proof.
  intros Hr%heap_reachable_inv Hs Hsz R Hk0 Hk1.
  destruct (heap_inv_ready s L Hr) as (s1 & t & Hk & Ht & Em & _). rewrite Em in R.
  destruct order_bounds as (E1 & E2 & _ & E4).
  destruct (request_order_bounds size Hs ltac:(lia)) as (Ho1 & _ & Ho2).
  assert (request_order size ≤ MAX_ORDER) as Hle.
  { destruct (decide (request_order size ≤ MAX_ORDER)); [done|].
    assert (request_order size = MAX_ORDER + 1) as E by lia.
    specialize (Ho2 ltac:(lia)). rewrite E, E2 in Ho2. rewrite E4 in Hsz. simpl in *. lia. }
  destruct (kmalloc_run s1 t size Hk ltac:(lia)) as [[_ [?|[?|Hno]]]|(p & s2 & t2 & R' & _ & Hp & _)];
    [lia | lia | | congruence].
  destruct (tree_full t MAX_ORDER base (request_order size) (base + k * 2 ^ request_order size) k)
    as (b & Hb & Hov); [apply Hk | apply Hk | done | lia | done | done | rewrite E2, <- E4; lia |].
  destruct (tr_used _ _ _ Ht b Hb) as [n Hn]. exists (b.2 + sizeof_header), n. split; [done|].
  rewrite Z.add_simpl_r. destruct (tr_live _ _ _ Ht _ _ Hn) as (_ & _ & Hb'). rewrite Z.add_simpl_r in Hb'.
  replace (request_order n) with b.1; [by destruct b|].
  destruct b as [o a]. simpl in *. eapply (order_unique (used_blocks t MAX_ORDER base)); [|done..].
  by eapply used_nodup.
Qed.

Lemma tracks_empty s t : kinv base s t → tracks base t ∅ → t = BFree.
Proof.
  intros Hk Ht. eapply (coalesced_all_free t MAX_ORDER base); [apply Hk|].
  destruct (used_blocks t MAX_ORDER base) as [|b bs] eqn:E; [done|].
  destruct (tr_used _ _ _ Ht b) as [? H]; [rewrite E; by left | by rewrite lookup_empty in H].
Qed.

Lemma bfree_malloc s size :
  kinv base s BFree → 0 < size → request_order size ≤ MAX_ORDER →
  ∃ s' t', kmalloc base size s = Ok (base + sizeof_header, s') ∧ kinv base s' t' ∧
    used_blocks t' MAX_ORDER base = [(request_order size, base)].
Proof.
  intros Hk Hs Ho.
  destruct (kmalloc_run s BFree size Hk ltac:(lia)) as [[_ [?|[?|Hno]]]|(p & s2 & t2 & R & _ & _ & _ & Hal)];
    [lia | lia | specialize (Hno (MAX_ORDER, base) ltac:(by left)); simpl in Hno; lia |].
  destruct Hal as (Hk2 & (b & Hcv & Hb & _) & _). exists s2, t2.
  pose proof (carved_used _ _ _ _ Hcv) as HU. destruct (carved_free _ _ _ _ Hcv) as (F & HF & _).
  simpl in HF, HU. apply Permutation_singleton_l in HF. injection HF as <- <-. simpl in *.
  split_and!; [|done|].
  - replace (base + sizeof_header) with p by lia. done.
  - by apply Permutation_singleton_r in HU.
Qed.

(** The free lists of a pool that is one block. *)
Definition one_block (base : Z) (s : kstate) : Prop :=
  free_lists s !! Z.to_nat (order_index MAX_ORDER) = Some base ∧ word (mem s) base = NULL ∧
  ∀ o, MIN_ORDER ≤ o < MAX_ORDER → free_lists s !! Z.to_nat (order_index o) = Some NULL.

Lemma bfree_one_block s : kinv base s BFree → one_block base s.
Proof.
  intros Hk. pose proof (fl_chain _ _ _ (ki_lists _ _ _ Hk)) as Hc. simpl in Hc.
  assert (MIN_ORDER = 4 ∧ MAX_ORDER = 22) as [E1 E2] by done.
  destruct (Hc MAX_ORDER ltac:(lia)) as (p & xs & Hp & Hch & Hxs). rewrite of_order_cons, decide_True in Hxs by done.
  apply Permutation_singleton_r in Hxs as ->. simpl in Hch. destruct Hch as (-> & _ & Hw). split_and!; [done | done |].
  intros o Ho. destruct (Hc o ltac:(lia)) as (q & ys & Hq & Hch & Hys). rewrite of_order_cons, decide_False in Hys by lia.
  apply Permutation_nil_r in Hys as ->. simpl in Hch. by subst.
Qed.

(** C37 Nothing is lost: once every allocation of a history of requests of at
    most 2^64 - 9 bytes has been released, whatever the order, the free lists
    hold one block, the whole pool (or the first call, which sets them up, is still
    to come), and any request that fits it is served at
    its start. *)
Theorem kfree_all_restores s L size :
  heap_reachable base s L → L = ∅ → 0 < size → size + sizeof_header ≤ POOL_BYTES →
  (kmalloc_ready s = true → one_block base s) ∧
  ∃ s', kmalloc base size s = Ok (base + sizeof_header, s').
Proof.
  intros Hr%heap_reachable_inv -> Hs Hsz. split.
  { intros Hrd. destruct Hr as [[Hn _]|(t & Hk & Ht)]; [congruence|].
    assert (t = BFree) as -> by (by eapply tracks_empty). by apply bfree_one_block. }
  destruct (heap_inv_ready s ∅ Hr) as (s1 & t & Hk & Ht & Em & _).
  assert (t = BFree) as -> by (by eapply tracks_empty).
  destruct order_bounds as (E1 & E2 & _ & E4).
  destruct (request_order_bounds size Hs ltac:(lia)) as (Ho1 & _ & Ho2).
  destruct (bfree_malloc s1 size Hk Hs) as (s2 & t2 & R & _); [|rewrite Em; eauto].
  destruct (decide (request_order size ≤ MAX_ORDER)); [done|].
  assert (request_order size = MAX_ORDER + 1) as E by lia.
  specialize (Ho2 ltac:(lia)). rewrite E, E2 in Ho2. rewrite E4 in Hsz. simpl in *. lia.
Qed.

(** C38 Releasing a live pointer twice in a row is harmless: the second call
    changes nothing, as long as the high half of no pool address is the magic. *)
Theorem kfree_twice_harmless s L p s1 :
  heap_reachable base s L → p ∈ dom L →
  (∀ a, base ≤ a < base + POOL_BYTES → a / 2 ^ 32 ≠ HEADER_MAGIC) →
  kfree base kfree_fuel p s = Ok (tt, s1) →
  kfree base kfree_fuel p s1 = Ok (tt, s1).
Proof.
  intros Hr%heap_reachable_inv [n Hp]%elem_of_dom Hmagic R.
  destruct (heap_inv_ready s L Hr) as (s0 & t & Hk & Ht & _ & Ef & _). rewrite Ef in R.
  destruct (live_block s0 t L p n Hk Ht Hp) as (Hu & _ & Hb1 & Hb2 & _ & _). simpl in *.
  destruct (kfree_run s0 t _ _ kfree_fuel Hk Hu) as (s2 & t2 & R' & (Hk2 & _) & Hd); [done|].
  rewrite Z.sub_add in R'. rewrite R' in R. injection R as <-.
  eapply kfree_reject; [done|]. pose proof (pool_fits (base := base)). pose proof (pool_pos (base := base)).
  pose proof (Z.pow_pos_nonneg 2 (request_order n)) as Hpow.
  assert (0 ≤ request_order n).
  { destruct (tr_live _ _ _ Ht _ _ Hp) as (? & ? & _). assert (MIN_ORDER = 4) by done.
    destruct (request_order_bounds n); [done..|]. lia. }
  unfold u64, wrap. rewrite Z.mod_small by lia.
  destruct Hd as [E|(b & E & Hb)%list_elem_of_fmap]; [by rewrite E|].
  unfold header_magic. rewrite E. apply Hmagic.
  destruct (kinv_inside s2 t2 b Hk2) as (? & ? & ? & ?); [apply elem_of_app; by left|].
  assert (MIN_ORDER = 4) by done. pose proof (pow2_le 0 b.1). lia.
Qed.

(** The sum of the request and the header wraps: on a fresh heap a
    request of 2^64 - 1 bytes succeeds and gets a block of 16 bytes. *)
Theorem kmalloc_huge_request_wraps s :
  kmalloc_ready s = false →
  ∃ s' t', kmalloc base (2 ^ 64 - 1) s = Ok (base + sizeof_header, s') ∧ kinv base s' t' ∧
    used_blocks t' MAX_ORDER base = [(MIN_ORDER, base)].
Proof.
  intros Hr. destruct (heap_inv_ready s ∅) as (s1 & t & Hk & Ht & Em & _); [by left|].
  assert (t = BFree) as -> by (by eapply tracks_empty).
  destruct (bfree_malloc s1 (2 ^ 64 - 1) Hk) as (s2 & t2 & R & Hk2 & HU); [done..|].
  exists s2, t2. rewrite Em. done.
Qed.

End Safety.

(** ** A concrete heap *)
Definition demo_pool : Z := 0xffffffc052000000.

#[global] Instance demo_pool_at : PoolAt demo_pool.
Proof. by split. Qed.

Definition demo_boot : kstate := mk_kstate ∅ [] 0 0 false.

(** The state after [kmalloc(size)]. *)
Definition after_malloc (size : Z) (s : kstate) : kstate :=
  match kmalloc demo_pool size s with Ok (_, s') => s' | _ => s end.

(** 100 bytes and then 5000 bytes: blocks of 128 and 8192 bytes. *)
Definition demo_heap2 : kstate := after_malloc 5000 (after_malloc 100 demo_boot).
Definition demo_live2 : live_map :=
  <[demo_pool + 8192 + 8 := 5000]> (<[demo_pool + 8 := 100]> ∅).

Lemma demo_reachable2 : heap_reachable demo_pool demo_heap2 demo_live2.
Proof.
  exists demo_boot. split; [done|]. eapply rtc_l; [|apply rtc_once].
  - apply (step_malloc _ _ _ 100 (demo_pool + 8) (after_malloc 100 demo_boot)); vm_compute; congruence.
  - apply (step_malloc _ _ _ 5000 (demo_pool + 8192 + 8) demo_heap2); vm_compute; congruence.
Qed.

(** The whole pool given to one client. *)
Definition demo_heap_full : kstate := after_malloc (2 ^ 22 - 8) demo_boot.

Lemma demo_reachable_full :
  heap_reachable demo_pool demo_heap_full (<[demo_pool + 8 := 2 ^ 22 - 8]> ∅).
Proof.
  exists demo_boot. split; [done|]. apply rtc_once.
  apply (step_malloc _ _ _ (2 ^ 22 - 8) (demo_pool + 8) demo_heap_full); vm_compute; congruence.
Qed.


Lemma kmalloc_kfree_return_witness :
  (∃ p s', kmalloc demo_pool 64 demo_heap2 = Ok (p, s')) ∧
  (∃ s', kfree demo_pool kfree_fuel (demo_pool + 8) demo_heap2 = Ok (tt, s')).
Proof.
  destruct (kmalloc_kfree_return demo_heap2 demo_live2 demo_reachable2) as [H1 H2].
  split; [apply H1; done | apply H2, elem_of_dom; exists 100; reflexivity].
Defined.

Lemma kmalloc_keeps_payloads_witness :
  mem (after_malloc 64 demo_heap2) !! (demo_pool + 16) = mem demo_heap2 !! (demo_pool + 16).
Proof.
  apply (kmalloc_keeps_payloads demo_heap2 demo_live2 (demo_pool + 8) 100 (demo_pool + 16)
    (after_malloc 64 demo_heap2) demo_reachable2); [reflexivity | done | done |].
  left. exists 64, (demo_pool + 128 + 8). vm_compute. repeat split; congruence.
Defined.

Lemma kmalloc_fails_only_when_full_witness : ∃ p n,
  (<[demo_pool + 8 := 2 ^ 22 - 8]> ∅ : live_map) !! p = Some n ∧
  overlap (request_order n, p - sizeof_header)
    (request_order 64, demo_pool + 5 * 2 ^ request_order 64).
Proof.
  apply (kmalloc_fails_only_when_full demo_heap_full _ 64 demo_heap_full 5 demo_reachable_full);
    vm_compute; congruence.
Defined.

(** The state after [kfree(p)]. *)
Definition after_free (p : Z) (s : kstate) : kstate :=
  match kfree demo_pool kfree_fuel p s with Ok (_, s') => s' | _ => s end.
(** The first allocation released, then the second. *)
Definition demo_heap3 : kstate := after_free (demo_pool + 8) demo_heap2.
Definition demo_heap4 : kstate := after_free (demo_pool + 8192 + 8) demo_heap3.

Lemma demo_reachable4 :
  heap_reachable demo_pool demo_heap4 (delete (demo_pool + 8192 + 8) (delete (demo_pool + 8) demo_live2)).
Proof.
  destruct demo_reachable2 as (s0 & H0 & Hs). exists s0. split; [exact H0|]. etransitivity; [exact Hs|].
  eapply rtc_l; [|apply rtc_once].
  - apply (step_free _ _ _ (demo_pool + 8) demo_heap3); [apply elem_of_dom; by exists 100 | vm_compute; reflexivity].
  - apply (step_free _ _ _ (demo_pool + 8192 + 8) demo_heap4); [apply elem_of_dom; by exists 5000 | vm_compute; reflexivity].
Qed.

Lemma kfree_all_restores_witness : one_block demo_pool demo_heap4 ∧
  ∃ s', kmalloc demo_pool 4000000 demo_heap4 = Ok (demo_pool + sizeof_header, s').
Proof.
  destruct (kfree_all_restores demo_heap4 _ 4000000 demo_reachable4) as [H1 H2]; [reflexivity | done | done |].
  split; [apply H1; vm_compute; reflexivity | exact H2].
Defined.

Lemma kfree_twice_harmless_witness :
  kfree demo_pool kfree_fuel (demo_pool + 8) demo_heap3 = Ok (tt, demo_heap3).
Proof.
  apply (kfree_twice_harmless demo_heap2 demo_live2 (demo_pool + 8) demo_heap3 demo_reachable2).
  - apply elem_of_dom. by exists 100.
  - intros a Ha E. assert (demo_pool / 2 ^ 32 ≤ a / 2 ^ 32) as H by (apply Z.div_le_mono; lia).
    rewrite E in H. vm_compute in H. congruence.
  - vm_compute. reflexivity.
Defined.

Lemma kmalloc_huge_request_wraps_witness :
  ∃ s' t', kmalloc demo_pool (2 ^ 64 - 1) demo_boot = Ok (demo_pool + sizeof_header, s') ∧
    kinv demo_pool s' t' ∧ used_blocks t' MAX_ORDER demo_pool = [(MIN_ORDER, demo_pool)].
Proof. apply (kmalloc_huge_request_wraps demo_boot). reflexivity. Defined.
