(* ===== verification/Block.v ===== *)
(** * kernel/fs/block.c: the block buffers and the block bitmap

    Eight buffers sit between the file system and the page cache. A
    [block_t *] is the index of its buffer. The store below (cache.c, and the
    SD card under it) is reached through the interface [SectorStore]. *)

From S2P Require Import Prelude.

(** ** Constants of include/os/fs.h *)
Definition SECTOR_SIZE : Z := 512.
Definition NSECTOR_BLOCK : Z := 8.
Definition BLOCK_SIZE : Z := NSECTOR_BLOCK * SECTOR_SIZE.
Definition BLOCK_CONCURRENCY : nat := 8.
Definition sizeof_diskinode : Z := 64.
Definition INODE_PER_BLOCK : Z := BLOCK_SIZE / sizeof_diskinode.
(** Bits of one block of the bitmap. *)
Definition MAP_BITS : Z := BLOCK_SIZE * 8.

(** ** The store of cache.c

    [sread k] is what [cached_block_read] delivers for the start sector [k], [sfill k] the
    store it leaves (it may have cached the block), [swrite k v] what
    [cached_block_write] leaves. *)
Class SectorStore (D : Type) := {
  sread : Z → D → list Z;
  sfill : Z → D → D;
  swrite : Z → list Z → D → D;
  sread_length k d : length (sread k d) = Z.to_nat BLOCK_SIZE;
  sread_sfill k j d : sread j (sfill k d) = sread j d;
  sread_swrite k v d : length v = Z.to_nat BLOCK_SIZE → sread k (swrite k v d) = v;
  sread_swrite_apart k j v d : length v = Z.to_nat BLOCK_SIZE →
    k + NSECTOR_BLOCK ≤ j ∨ j + NSECTOR_BLOCK ≤ k → sread j (swrite k v d) = sread j d;
}.

(** ** State *)
Record superblock_t := mk_superblock {
  magic : Z;
  fs_size : Z;
  start_sector : Z;
  root_inode : Z;
  block_map_offset : Z;
  inode_offset : Z;
  datablock_offset : Z;
  inode_count : Z;
  block_count : Z;
  used_inode : Z;
  used_block : Z;
}.

Definition set_used_block (f : Z → Z) (b : superblock_t) : superblock_t :=
  mk_superblock (magic b) (fs_size b) (start_sector b) (root_inode b) (block_map_offset b)
    (inode_offset b) (datablock_offset b) (inode_count b) (block_count b) (used_inode b)
    (f (used_block b)).
Definition set_used_inode (f : Z → Z) (b : superblock_t) : superblock_t :=
  mk_superblock (magic b) (fs_size b) (start_sector b) (root_inode b) (block_map_offset b)
    (inode_offset b) (datablock_offset b) (inode_count b) (block_count b) (f (used_inode b))
    (used_block b).

Record block_t := mk_block {
  valid : bool;
  block_num : Z;
  refcnt : Z;
  data : list Z;       (* BLOCK_SIZE bytes *)
}.

Record bstate (D : Type) := mk_bstate {
  superblock : superblock_t;
  blocks : list block_t;
  disk : D;
}.
Arguments mk_bstate {D} _ _ _.
Arguments superblock {D} _.
Arguments blocks {D} _.
Arguments disk {D} _.

Definition set_blocks {D} (bs : list block_t) (s : bstate D) : bstate D :=
  mk_bstate (superblock s) bs (disk s).
Definition set_disk {D} (d : D) (s : bstate D) : bstate D :=
  mk_bstate (superblock s) (blocks s) d.
Definition set_superblock {D} (b : superblock_t) (s : bstate D) : bstate D :=
  mk_bstate b (blocks s) (disk s).

(** The static array before the first call. *)
Definition empty_block : block_t := mk_block false 0 0 (replicate (Z.to_nat BLOCK_SIZE) 0).
Definition empty_blocks : list block_t := replicate BLOCK_CONCURRENCY empty_block.

(** ** Macros *)
Definition BLOCKID2MAPBLOCK (b : superblock_t) (n : Z) : Z :=
  i32 (block_map_offset b + Z.quot n MAP_BITS).
Definition BLOCKID2MAPOFFSET (n : Z) : Z := Z.rem n MAP_BITS.

(** The start sector of a block, as [block_read] and [block_write] compute it. *)
Definition sector_of (b : superblock_t) (n : Z) : Z :=
  i32 (u32 (start_sector b + n * NSECTOR_BLOCK)).

Definition bit_set (x bit : Z) : bool := Z.testbit x bit.

Section Block.

Context {D : Type} `{SectorStore D}.

Abbreviation BM := (M (bstate D)).

(** ** Buffers *)
Definition get_buf (i : nat) : BM block_t := fun s =>
  match blocks s !! i with Some b => Ok (b, s) | None => Panic "fault" end.
Definition put_buf (i : nat) (b : block_t) : BM unit :=
  get_buf i ;; modify (fun s => set_blocks (<[i := b]> (blocks s)) s).

Definition set_data (d : list Z) (b : block_t) : block_t :=
  mk_block (valid b) (block_num b) (refcnt b) d.
Definition set_refcnt (r : Z) (b : block_t) : block_t :=
  mk_block (valid b) (block_num b) r (data b).

(** [blk->data[k]], and [blk->data[k] = v]; outside the array is a fault. *)
Definition load_byte (i : nat) (k : Z) : BM Z :=
  b <- get_buf i ;;
  if (0 <=? k) && (k <? BLOCK_SIZE)
  then ret (default 0 (data b !! Z.to_nat k)) else panic "fault".
Definition store_byte (i : nat) (k v : Z) : BM unit :=
  b <- get_buf i ;;
  if (0 <=? k) && (k <? BLOCK_SIZE)
  then put_buf i (set_data (<[Z.to_nat k := v]> (data b)) b) else panic "fault".

Definition block_read (n : Z) : BM (list Z) :=
  d <- gets (fun s => sread (sector_of (superblock s) n) (disk s)) ;;
  modify (fun s => set_disk (sfill (sector_of (superblock s) n) (disk s)) s) ;;
  ret d.
Definition block_write (n : Z) (d : list Z) : BM unit :=
  modify (fun s => set_disk (swrite (sector_of (superblock s) n) d (disk s)) s).

(** The first loop of [block_open]: a valid buffer of the block. *)
Definition find_open (n : Z) (bs : list block_t) : option (nat * block_t) :=
  list_find (fun b => valid b = true ∧ block_num b = n) bs.
(** The second loop: an invalid buffer, or one nobody holds. *)
Definition find_room (bs : list block_t) : option (nat * block_t) :=
  list_find (fun b => valid b = false ∨ refcnt b = 0) bs.

Definition block_open (n : Z) : BM nat :=
  bs <- gets blocks ;;
  match find_open n bs with
  | Some (i, b) => put_buf i (set_refcnt (refcnt b + 1) b) ;; ret i
  | None =>
      match find_room bs with
      | Some (i, b) =>
          (if valid b then block_write (block_num b) (data b) else ret tt) ;;
          d <- block_read n ;;
          put_buf i (mk_block true n 1 d) ;;
          ret i
      | None => panic "no available block buffer"
      end
  end.

Definition block_close (i : nat) : BM unit :=
  b <- get_buf i ;;
  asserts (refcnt b >? 0) "block_close with refcnt <= 0" ;;
  put_buf i (set_refcnt (refcnt b - 1) b).

Definition block_memset (n v : Z) : BM unit :=
  i <- block_open n ;;
  b <- get_buf i ;;
  put_buf i (set_data (replicate (Z.to_nat BLOCK_SIZE) v) b) ;;
  block_close i.

(** ** The bitmap *)

(** The inner loop of [block_alloc]: the first clear bit of the open map block
    [i] at [boffset] or later. *)
Fixpoint scan_map (n : nat) (i : nat) (bblock boffset count : Z) : BM (option Z) :=
  match n with
  | O => ret None
  | S n =>
      if (boffset <? MAP_BITS) && (bblock + boffset <? count) then
        let byte_offset := boffset / 8 in
        let bit_in_byte := boffset mod 8 in
        byte <- load_byte i byte_offset ;;
        if negb (bit_set byte bit_in_byte) then
          store_byte i byte_offset (u8 (Z.lor byte (Z.shiftl 1 bit_in_byte))) ;;
          ret (Some boffset)
        else scan_map n i bblock (boffset + 1) count
      else ret None
  end.

(** The outer loop, over the blocks of the bitmap. *)
Fixpoint alloc_loop (n : nat) (bblock : Z) : BM Z :=
  sb <- gets superblock ;;
  if bblock <? block_count sb then
    match n with
    | O => no_fuel
    | S n =>
        map <- block_open (BLOCKID2MAPBLOCK sb bblock) ;;
        found <- scan_map (Z.to_nat MAP_BITS) map bblock 0 (block_count sb) ;;
        block_close map ;;
        match found with
        | Some boffset =>
            modify (fun s => set_superblock (set_used_block (fun u => u32 (u + 1)) (superblock s)) s) ;;
            ret (i32 (u32 (datablock_offset sb + bblock + boffset)))
        | None => alloc_loop n (bblock + MAP_BITS)
        end
    end
  else ret (-1).

Definition block_alloc : BM Z :=
  sb <- gets superblock ;;
  alloc_loop (Z.to_nat (block_count sb / MAP_BITS + 1)) 0.

Definition block_allocset (v : Z) : BM Z :=
  n <- block_alloc ;;
  (if n >=? 0 then block_memset n v else ret tt) ;;
  ret n.

Definition block_free (n : Z) : BM unit :=
  sb <- gets superblock ;;
  asserts (u32 n >=? datablock_offset sb) "block_free on non-data block" ;;
  let n := i32 (u32 (n - datablock_offset sb)) in
  map <- block_open (BLOCKID2MAPBLOCK sb n) ;;
  let bit_offset := BLOCKID2MAPOFFSET n in
  let byte_offset := Z.quot bit_offset 8 in
  let bit_in_byte := Z.rem bit_offset 8 in
  byte <- load_byte map byte_offset ;;
  asserts (bit_set byte bit_in_byte) "block_free on free block" ;;
  store_byte map byte_offset (u8 (Z.land byte (Z.lnot (Z.shiftl 1 bit_in_byte)))) ;;
  block_close map ;;
  modify (fun s => set_superblock (set_used_block (fun u => u32 (u - 1)) (superblock s)) s).

(** [flush_block_cache]: every valid buffer is written back. *)
Fixpoint flush_loop (bs : list block_t) : BM unit :=
  match bs with
  | [] => ret tt
  | b :: bs => (if valid b then block_write (block_num b) (data b) else ret tt) ;; flush_loop bs
  end.
Definition flush_block_cache : BM unit :=
  bs <- gets blocks ;; flush_loop bs.

End Block.
