(* ===== verification/BlockProofs.v ===== *)
(** * The block buffers refine a plain array of blocks

    [bst s C held]: seen through the buffers, block [n] contains [C n], and
    the open handles are the multiset [held]. Opening, reading, writing,
    closing, evicting and flushing are specified on [C] and [held] alone. *)

From S2P Require Import Prelude Block.

(** ** Geometry of a formatted volume *)
Definition nblocks (b : superblock_t) : Z := datablock_offset b + block_count b.
Definition map_blocks (b : superblock_t) : Z := (block_count b + MAP_BITS - 1) / MAP_BITS.

Record sb_ok (b : superblock_t) : Prop := {
  so_start : 0 ≤ start_sector b;
  so_map : 0 ≤ block_map_offset b;
  so_counts : 0 ≤ block_count b ∧ 0 ≤ inode_count b < 2 ^ 31;
  so_inodes : block_map_offset b + map_blocks b ≤ inode_offset b;
  so_data : inode_offset b + (inode_count b + INODE_PER_BLOCK - 1) / INODE_PER_BLOCK ≤ datablock_offset b;
  so_end : start_sector b + NSECTOR_BLOCK * nblocks b < 2 ^ 31;
}.

Definition in_range (b : superblock_t) (n : Z) : Prop := 0 ≤ n < nblocks b.

(** The number of open handles of block [n]. *)
Definition times (n : Z) (held : list Z) : Z := Z.of_nat (length (filter (eq n) held)).

Lemma times_cons n m held : times n (m :: held) = (if decide (n = m) then 1 else 0) + times n held.
Proof. unfold times. rewrite filter_cons. repeat case_decide; simpl; try lia; congruence. Qed.

Lemma times_pos n held : 0 < times n held ↔ n ∈ held.
Proof.
  induction held as [|m held IH]; [unfold times; simpl; set_solver by lia|].
  rewrite times_cons, elem_of_cons. case_decide.
  - subst. split; [by left|]. unfold times. lia.
  - rewrite Z.add_0_l, IH. naive_solver.
Qed.

Lemma times_nonneg n held : 0 ≤ times n held.
Proof. unfold times. lia. Qed.

#[global] Instance times_perm n : Proper ((≡ₚ) ==> eq) (times n).
Proof. intros h1 h2 E. unfold times. by rewrite E. Qed.

Lemma sector_of_small b n : sb_ok b → in_range b n → sector_of b n = start_sector b + n * NSECTOR_BLOCK.
Proof.
  intros [] Hn. unfold in_range, sector_of, i32, swrap, u32, wrap, NSECTOR_BLOCK in *.
  rewrite !(Z.mod_small (start_sector b + n * 8)) by lia.
  rewrite (proj2 (Z.ltb_lt _ _)); [done|]. simpl. lia.
Qed.

Section BlockProofs.

Context {D : Type} `{SectorStore D}.
Implicit Types (s : bstate D) (C : Z → list Z) (held : list Z).

Record bst s C held : Prop := {
  bs_sb : sb_ok (superblock s);
  bs_len : length (blocks s) = BLOCK_CONCURRENCY;
  bs_size n : in_range (superblock s) n → length (C n) = Z.to_nat BLOCK_SIZE;
  bs_uniq i j b c : blocks s !! i = Some b → blocks s !! j = Some c →
    valid b = true → valid c = true → block_num b = block_num c → i = j;
  bs_valid i b : blocks s !! i = Some b → valid b = true →
    in_range (superblock s) (block_num b) ∧ data b = C (block_num b) ∧
    refcnt b = times (block_num b) held;
  bs_disk n : in_range (superblock s) n →
    (∀ i b, blocks s !! i = Some b → valid b = true → block_num b ≠ n) →
    sread (sector_of (superblock s) n) (disk s) = C n ∧ times n held = 0;
}.

(** The buffer [i] holds block [n]. *)
Definition buf s (i : nat) (n : Z) : Prop :=
  ∃ b, blocks s !! i = Some b ∧ valid b = true ∧ block_num b = n.

#[global] Instance bst_perm s C : Proper ((≡ₚ) ==> iff) (bst s C).
Proof.
  assert (∀ h1 h2, h1 ≡ₚ h2 → bst s C h1 → bst s C h2) as Himp.
  { intros h1 h2 E [H1 H2 H3 H4 H5 H6]. split; try done.
    - intros i b. rewrite <- E. apply H5.
    - intros n. rewrite <- E. apply H6. }
  intros h1 h2 E. split; by apply Himp.
Qed.

Lemma get_buf_run s i b : blocks s !! i = Some b → get_buf i s = Ok (b, s).
Proof. intros E. unfold get_buf. by rewrite E. Qed.

Lemma put_buf_run s i b b' :
  blocks s !! i = Some b → put_buf i b' s = Ok (tt, set_blocks (<[i := b']> (blocks s)) s).
Proof. intros E. unfold put_buf. by rewrite (bind_Ok _ _ _ _ _ (get_buf_run _ _ _ E)). Qed.

(** Replacing a buffer by one of the same block. *)
Lemma bst_update s C held i b b' C' held' :
  bst s C held → blocks s !! i = Some b → valid b = true →
  valid b' = true → block_num b' = block_num b →
  data b' = C' (block_num b) → refcnt b' = times (block_num b) held' →
  (∀ n, n ≠ block_num b → C' n = C n ∧ times n held' = times n held) →
  length (C' (block_num b)) = Z.to_nat BLOCK_SIZE →
  bst (set_blocks (<[i := b']> (blocks s)) s) C' held'.
Proof.
  intros [H1 H2 H3 H4 H5 H6] Hi Hv Hv' Hn Hd Hr Hne Hlen. destruct (H5 _ _ Hi Hv) as (Hin & _).
  assert (∀ j c, <[i := b']> (blocks s) !! j = Some c →
    (j = i ∧ c = b') ∨ (j ≠ i ∧ blocks s !! j = Some c)) as Hlk.
  { intros j c [(-> & -> & _)|[? ?]]%list_lookup_insert_Some; auto. }
  split; simpl; [done | by rewrite length_insert | | | |].
  - intros n Hn'. destruct (decide (n = block_num b)) as [->|Hneq]; [done|].
    destruct (Hne n Hneq) as [-> _]. auto.
  - intros j k c d [[-> ->]|[Hj Ej]]%Hlk [[-> ->]|[Hk Ek]]%Hlk Vc Vd E; try done; [| |by eapply H4].
    + rewrite Hn in E. destruct Hk. symmetry. by eapply H4.
    + rewrite Hn in E. destruct Hj. by eapply H4.
  - intros j c [[-> ->]|[Hj Ej]]%Hlk Vc; [rewrite Hn; done|].
    destruct (H5 _ _ Ej Vc) as (? & -> & ->).
    assert (block_num c ≠ block_num b) as Hcb by (intros E; destruct Hj; by eapply H4).
    destruct (Hne _ Hcb) as [-> ->]. done.
  - intros n Hn' Hno. assert (n ≠ block_num b) as Hnb.
    { intros ->. apply (Hno i b'); [|done..]. apply list_lookup_insert_eq. by eapply lookup_lt_Some. }
    destruct (Hne n Hnb) as [-> ->]. apply H6; [done|]. intros j c Ej Vc.
    destruct (decide (j = i)) as [->|Hji]; [congruence|].
    apply (Hno j c); [|done]. by rewrite list_lookup_insert_ne.
Qed.

Lemma buf_same s i n j b b' m :
  buf s j m → blocks s !! i = Some b → valid b' = true → block_num b' = n → n = block_num b →
  buf (set_blocks (<[i := b']> (blocks s)) s) j m.
Proof.
  intros (c & Ej & Vc & <-) Ei V' N' ->. destruct (decide (j = i)) as [->|Hne].
  - exists b'. simpl. rewrite list_lookup_insert_eq by (by eapply lookup_lt_Some).
    split_and!; [done..|]. congruence.
  - exists c. simpl. by rewrite list_lookup_insert_ne.
Qed.

(** ** Opening *)
Lemma room_exists s C held :
  bst s C held → (length held < BLOCK_CONCURRENCY)%nat → is_Some (find_room (blocks s)).
Proof.
  intros [_ Hlen _ Hu Hv _] Hroom. destruct (find_room (blocks s)) as [x|] eqn:E; [done|]. exfalso.
  apply list_find_None in E. rewrite Forall_lookup in E.
  assert (∀ i b, blocks s !! i = Some b → valid b = true ∧ refcnt b ≠ 0) as Hall.
  { intros i b Hi. specialize (E i b Hi). destruct (valid b); naive_solver. }
  assert (block_num <$> blocks s ⊆+ held) as Hsub.
  { apply NoDup_submseteq.
    - apply NoDup_alt. intros i j n Hi Hj. rewrite list_lookup_fmap in Hi, Hj.
      apply fmap_Some in Hi as (b & Hi & ->), Hj as (c & Hj & Ec).
      eapply Hu; try done; by eapply Hall.
    - intros n (b & -> & Hb)%list_elem_of_fmap. apply list_elem_of_lookup_1 in Hb as [i Hi].
      destruct (Hall _ _ Hi) as [Vb Rb]. destruct (Hv _ _ Hi Vb) as (_ & _ & Er).
      apply times_pos. pose proof (times_nonneg (block_num b) held). lia. }
  apply submseteq_length in Hsub. rewrite length_fmap in Hsub. lia.
Qed.

(** Two blocks of the volume are apart on the store. *)
Lemma sectors_apart b n m :
  sb_ok b → in_range b n → in_range b m → n ≠ m →
  sector_of b n + NSECTOR_BLOCK ≤ sector_of b m ∨ sector_of b m + NSECTOR_BLOCK ≤ sector_of b n.
Proof. intros Hb Hn Hm Hne. rewrite !sector_of_small by done. unfold NSECTOR_BLOCK. lia. Qed.

Lemma sread_other s C held n m :
  bst s C held → in_range (superblock s) n → in_range (superblock s) m → n ≠ m →
  sread (sector_of (superblock s) m)
    (swrite (sector_of (superblock s) n) (C n) (disk s)) =
  sread (sector_of (superblock s) m) (disk s).
Proof.
  intros Hb Hn Hm Hne. apply sread_swrite_apart; [by apply Hb|].
  apply sectors_apart; [apply Hb | done..].
Qed.

(** The write-back of a buffer about to be reused keeps the contents. *)
Lemma evict_run s C held i b :
  bst s C held → blocks s !! i = Some b → (valid b = false ∨ refcnt b = 0) →
  ∃ d, (if valid b then block_write (block_num b) (data b) else ret tt) s = Ok (tt, set_disk d s) ∧
    ∀ n, in_range (superblock s) n →
      (∀ j c, blocks s !! j = Some c → valid c = true → j ≠ i → block_num c ≠ n) →
      sread (sector_of (superblock s) n) d = C n ∧ times n held = 0.
Proof.
  intros Hb Hi Hroom. destruct (valid b) eqn:V.
  - destruct Hroom as [|Hr]; [done|]. destruct (bs_valid _ _ _ Hb _ _ Hi V) as (Hin & Hd & Er).
    exists (swrite (sector_of (superblock s) (block_num b)) (C (block_num b)) (disk s)).
    split; [by rewrite <- Hd|]. intros n Hn Hno. destruct (decide (block_num b = n)) as [<-|Hne].
    + rewrite sread_swrite by (by apply Hb). split; [done | lia].
    + rewrite (sread_other s C held) by done. apply Hb; [done|].
      intros j c Hj Vc. destruct (decide (j = i)) as [->|]; [congruence | by eapply Hno].
  - exists (disk s). split; [by destruct s|]. intros n Hn Hno. apply Hb; [done|].
    intros j c Hj Vc. apply (Hno j c Hj Vc). intros ->. congruence.
Qed.

Lemma block_open_run s C held n :
  bst s C held → in_range (superblock s) n → (length held < BLOCK_CONCURRENCY)%nat →
  ∃ i s', block_open n s = Ok (i, s') ∧ bst s' C (n :: held) ∧ buf s' i n ∧
    superblock s' = superblock s ∧ (∀ j m, m ∈ held → buf s j m → buf s' j m).
Proof.
  intros Hb Hn Hroom. unfold block_open, gets. cbn [bind].
  destruct (find_open n (blocks s)) as [[i b]|] eqn:Efind.
  - apply list_find_Some in Efind as (Hi & [Vb Nb] & _).
    destruct (bs_valid _ _ _ Hb _ _ Hi Vb) as (Hin & Hd & Er).
    eexists i, _. rewrite (bind_Ok _ _ _ _ _ (put_buf_run _ _ _ _ Hi)).
    split_and!; [done | | | done |].
    + eapply bst_update; [exact Hb | done..| | |]; simpl.
      * rewrite times_cons, decide_True by done. lia.
      * intros m Hm. split; [done|]. rewrite times_cons, decide_False by congruence. lia.
      * by apply Hb.
    + exists (set_refcnt (refcnt b + 1) b). simpl. rewrite list_lookup_insert_eq; [done|].
      by eapply lookup_lt_Some.
    + intros j m _ Hbuf. by eapply buf_same.
  - destruct (room_exists s C held Hb Hroom) as [[i b] Er]. rewrite Er.
    apply list_find_Some in Er as (Hi & Hfree & _). apply list_find_None in Efind.
    assert (∀ j c, blocks s !! j = Some c → valid c = true → block_num c ≠ n) as Hno.
    { rewrite Forall_lookup in Efind. intros j c Hj Vc Ec. by apply (Efind j c Hj). }
    destruct (evict_run s C held i b Hb Hi Hfree) as (d & Rw & Hd). rewrite (bind_Ok _ _ _ _ _ Rw).
    destruct (Hd n Hn ltac:(intros; by eapply Hno)) as [Hdn Ht].
    set (d' := sfill (sector_of (superblock s) n) d).
    rewrite (bind_Ok _ _ _ (C n) (set_disk d' s)) by (by rewrite <- Hdn).
    eexists i, _. rewrite (bind_Ok _ _ _ _ _ (put_buf_run (set_disk d' s) i b _ Hi)).
    split_and!; [done | | | done |].
    + assert (∀ j c, <[i := mk_block true n 1 (C n)]> (blocks s) !! j = Some c →
        (j = i ∧ c = mk_block true n 1 (C n)) ∨ (j ≠ i ∧ blocks s !! j = Some c)) as Hlk.
      { intros j c [(-> & -> & _)|[? ?]]%list_lookup_insert_Some; auto. }
      destruct Hb as [H1 H2 H3 H4 H5 H6]. split; simpl; [done | by rewrite length_insert | done | | |].
      * intros j k c e [[-> ->]|[Hj Ej]]%Hlk [[-> ->]|[Hk Ek]]%Hlk Vc Vd E; try done; simpl in E.
        -- by destruct (Hno _ _ Ek Vd).
        -- by destruct (Hno _ _ Ej Vc).
        -- by eapply H4.
      * intros j c [[-> ->]|[Hj Ej]]%Hlk Vc; simpl.
        -- rewrite times_cons, decide_True by done. split_and!; [done..|lia].
        -- rewrite times_cons, decide_False by (by eapply Hno). by apply (H5 j).
      * intros m Hm Hnm. rewrite times_cons, decide_False.
        -- unfold d'. rewrite sread_sfill. apply Hd; [done|]. intros j c Ej Vc Hj. apply (Hnm j c); [|done].
           by rewrite list_lookup_insert_ne.
        -- intros ->. apply (Hnm i (mk_block true n 1 (C n))); [|done..].
           apply list_lookup_insert_eq. by eapply lookup_lt_Some.
    + exists (mk_block true n 1 (C n)). simpl. rewrite list_lookup_insert_eq; [done|].
      by eapply lookup_lt_Some.
    + intros j m Hm (c & Ej & Vc & <-). exists c. simpl. rewrite list_lookup_insert_ne; [done|].
      intros ->. assert (b = c) as -> by congruence. destruct (bs_valid _ _ _ Hb _ _ Ej Vc) as (_ & _ & Erc).
      apply times_pos in Hm. destruct Hfree; [congruence | lia].
Qed.

(** ** Using and closing an open block *)
Lemma buf_data s C held i n :
  bst s C held → buf s i n →
  ∃ b, get_buf i s = Ok (b, s) ∧ blocks s !! i = Some b ∧ valid b = true ∧ block_num b = n ∧
    data b = C n ∧ refcnt b = times n held ∧ in_range (superblock s) n.
Proof.
  intros Hb (b & Hi & Vb & <-). destruct (bs_valid _ _ _ Hb _ _ Hi Vb) as (? & ? & ?).
  exists b. split_and!; try done. by apply get_buf_run.
Qed.

(** What an access through a handle may change. *)
Record bstep s s' : Prop := {
  bp_sb : superblock s' = superblock s;
  bp_buf j m : buf s j m → buf s' j m;
}.

#[global] Instance bstep_preorder : PreOrder bstep.
Proof. split; [by split|]. intros s1 s2 s3 [E1 B1] [E2 B2]. split; [congruence | auto]. Qed.

Lemma put_data_run s C held i n d b :
  bst s C held → buf s i n → length d = Z.to_nat BLOCK_SIZE → blocks s !! i = Some b →
  ∃ s', put_buf i (set_data d b) s = Ok (tt, s') ∧ bst s' (<[n := d]> C) held ∧ bstep s s'.
Proof.
  intros Hb Hbuf Hlen Hi. destruct (buf_data _ _ _ _ _ Hb Hbuf) as (b' & _ & Hi' & Vb & <- & Hd & Hr & Hin).
  assert (b' = b) as -> by congruence.
  eexists. rewrite (put_buf_run _ _ _ _ Hi). split_and!; [done| |].
  - eapply bst_update; [exact Hb | done..| | | |]; simpl.
    + by rewrite fn_lookup_insert.
    + done.
    + intros m Hm. by rewrite fn_lookup_insert_ne.
    + by rewrite fn_lookup_insert.
  - split; [done|]. intros j m Hj. by eapply buf_same.
Qed.

Lemma load_byte_run s C held i n k :
  bst s C held → buf s i n → 0 ≤ k < BLOCK_SIZE →
  ∃ v, C n !! Z.to_nat k = Some v ∧ load_byte i k s = Ok (v, s).
Proof.
  intros Hb Hbuf Hk. destruct (buf_data _ _ _ _ _ Hb Hbuf) as (b & R & _ & _ & _ & Hd & _ & Hin).
  destruct (lookup_lt_is_Some_2 (C n) (Z.to_nat k)) as [v Hv].
  { rewrite (bs_size _ _ _ Hb n Hin). lia. }
  exists v. split; [done|]. unfold load_byte. rewrite (bind_Ok _ _ _ _ _ R).
  rewrite (proj2 (Z.leb_le _ _)), (proj2 (Z.ltb_lt _ _)) by lia. cbn [andb]. by rewrite Hd, Hv.
Qed.

Lemma store_byte_run s C held i n k v :
  bst s C held → buf s i n → 0 ≤ k < BLOCK_SIZE →
  ∃ s', store_byte i k v s = Ok (tt, s') ∧ bst s' (<[n := <[Z.to_nat k := v]> (C n)]> C) held ∧ bstep s s'.
Proof.
  intros Hb Hbuf Hk. destruct (buf_data _ _ _ _ _ Hb Hbuf) as (b & R & Hi & _ & _ & Hd & _ & Hin).
  unfold store_byte. rewrite (bind_Ok _ _ _ _ _ R).
  rewrite (proj2 (Z.leb_le _ _)), (proj2 (Z.ltb_lt _ _)) by lia. cbn [andb]. rewrite Hd.
  apply put_data_run; try done. rewrite length_insert. by apply Hb.
Qed.

Lemma block_close_run s C held i n :
  bst s C (n :: held) → buf s i n →
  ∃ s', block_close i s = Ok (tt, s') ∧ bst s' C held ∧ bstep s s'.
Proof.
  intros Hb Hbuf. destruct (buf_data _ _ _ _ _ Hb Hbuf) as (b & R & Hi & Vb & <- & Hd & Hr & Hin).
  rewrite times_cons, decide_True in Hr by done. pose proof (times_nonneg (block_num b) held).
  unfold block_close. rewrite (bind_Ok _ _ _ _ _ R). unfold asserts.
  rewrite Z.gtb_ltb, (proj2 (Z.ltb_lt _ _)) by lia. unfold ret at 1. cbn [bind].
  eexists. rewrite (put_buf_run _ _ _ _ Hi). split_and!; [done| |].
  - eapply bst_update; [exact Hb | done..| | |]; simpl.
    + lia.
    + intros m Hm. split; [done|]. by rewrite times_cons, decide_False.
    + by apply Hb.
  - split; [done|]. intros j m Hj. by eapply buf_same.
Qed.

Lemma block_memset_run s C held n v :
  bst s C held → in_range (superblock s) n → (length held < BLOCK_CONCURRENCY)%nat →
  ∃ s', block_memset n v s = Ok (tt, s') ∧
    bst s' (<[n := replicate (Z.to_nat BLOCK_SIZE) v]> C) held ∧
    superblock s' = superblock s ∧ (∀ j m, m ∈ held → buf s j m → buf s' j m).
Proof.
  intros Hb Hn Hroom. destruct (block_open_run s C held n Hb Hn Hroom) as (i & s1 & R1 & Hb1 & Hi1 & E1 & K1).
  destruct (buf_data _ _ _ _ _ Hb1 Hi1) as (b & R & Hi & _).
  destruct (put_data_run s1 C (n :: held) i n (replicate (Z.to_nat BLOCK_SIZE) v) b Hb1 Hi1)
    as (s2 & R2 & Hb2 & P2); [apply length_replicate | done |].
  destruct (block_close_run s2 _ held i n Hb2) as (s3 & R3 & Hb3 & P3); [by apply P2|].
  exists s3. unfold block_memset. rewrite (bind_Ok _ _ _ _ _ R1), (bind_Ok _ _ _ _ _ R), (bind_Ok _ _ _ _ _ R2).
  split_and!; [done..| |].
  - by rewrite (bp_sb _ _ P3), (bp_sb _ _ P2).
  - intros j m Hm Hj. by apply P3, P2, K1.
Qed.

(** ** Flushing *)
Lemma flush_loop_run s C held bs :
  bst s C held → (∀ b, b ∈ bs → valid b = true → in_range (superblock s) (block_num b) ∧ data b = C (block_num b)) →
  ∃ d, flush_loop bs s = Ok (tt, set_disk d s) ∧ bst (set_disk d s) C held ∧
    (∀ n, in_range (superblock s) n →
       (∃ b, b ∈ bs ∧ valid b = true ∧ block_num b = n) ∨
         sread (sector_of (superblock s) n) (disk s) = C n →
       sread (sector_of (superblock s) n) d = C n).
Proof.
  revert s. induction bs as [|b bs IH]; intros s Hb Hbs; simpl.
  - exists (disk s). split_and!; [by destruct s | by destruct s | set_solver].
  - assert (∃ d, (if valid b then block_write (block_num b) (data b) else ret tt) s = Ok (tt, set_disk d s) ∧
      bst (set_disk d s) C held ∧ ∀ n, in_range (superblock s) n →
        (valid b = true ∧ block_num b = n) ∨ sread (sector_of (superblock s) n) (disk s) = C n →
        sread (sector_of (superblock s) n) d = C n) as (d1 & R1 & Hb1 & K1).
    { destruct (valid b) eqn:V.
      - destruct (Hbs b) as [Hin Hd]; [by left | done |].
        exists (swrite (sector_of (superblock s) (block_num b)) (C (block_num b)) (disk s)).
        assert (∀ n, in_range (superblock s) n →
          (block_num b = n ∨ sread (sector_of (superblock s) n) (disk s) = C n) →
          sread (sector_of (superblock s) n)
            (swrite (sector_of (superblock s) (block_num b)) (C (block_num b)) (disk s)) = C n) as Hw.
        { intros n Hn Hor. destruct (decide (block_num b = n)) as [<-|Hne].
          - apply sread_swrite. by apply Hb.
          - rewrite (sread_other s C held) by done. naive_solver. }
        split_and!; [by rewrite <- Hd | | naive_solver].
        destruct Hb as [H1 H2 H3 H4 H5 H6]. split; simpl; try done.
        intros n Hn Hno. destruct (H6 n Hn Hno) as [E ?]. split; [|done]. apply Hw; auto.
      - exists (disk s). split_and!; [by destruct s | by destruct s | naive_solver]. }
    rewrite (bind_Ok _ _ _ _ _ R1). destruct (IH (set_disk d1 s) Hb1) as (d & R & Hb2 & K).
    { intros c Hc. apply Hbs. by right. }
    exists d. split_and!; [done | done |]. intros n Hn Hor. apply K; [done|]. simpl.
    destruct Hor as [(c & [->|Hc]%elem_of_cons & V & N)|Hdisk]; [right; apply K1; auto | left; eauto | right; apply K1; auto].
Qed.

Lemma flush_run s C held :
  bst s C held →
  ∃ d, flush_block_cache s = Ok (tt, set_disk d s) ∧ bst (set_disk d s) C held ∧
    (∀ n, in_range (superblock s) n → sread (sector_of (superblock s) n) d = C n).
Proof.
  intros Hb. destruct (flush_loop_run s C held (blocks s) Hb) as (d & R & Hb' & K).
  { intros b Hin V. apply list_elem_of_lookup_1 in Hin as [i Hi].
    by destruct (bs_valid _ _ _ Hb _ _ Hi V) as (? & ? & _). }
  exists d. split_and!; [exact R | done |]. intros n Hn. apply K; [done|].
  destruct (find_open n (blocks s)) as [[i b]|] eqn:E.
  - apply list_find_Some in E as (Hi & [V N] & _). left. exists b.
    split; [|done]. by eapply list_elem_of_lookup_2.
  - right. apply list_find_None in E. apply Hb; [done|]. rewrite Forall_lookup in E.
    intros i b Hi V N. by apply (E i b Hi).
Qed.

End BlockProofs.
