(* ===== verification/BlockAlloc.v ===== *)
(** * The block bitmap of block.c refines a set of allocated data blocks

    [map_bit b C k] reads bit [k] of the bitmap out of the contents [C] of the
    volume; [block_alloc] and [block_free] are specified on these bits. *)

From S2P Require Import Prelude Block BlockProofs.

Definition map_block (b : superblock_t) (k : Z) : Z := block_map_offset b + k / MAP_BITS.
Definition map_byte (k : Z) : nat := Z.to_nat (k mod MAP_BITS / 8).

(** Is data block [k] (counted from [datablock_offset]) allocated? *)
Definition map_bit (b : superblock_t) (C : Z → list Z) (k : Z) : bool :=
  bit_set (default 0 (C (map_block b k) !! map_byte k)) (k mod 8).

(** The contents after bit [k] is given the value [v]. *)
Definition put_bit (v : bool) (byte bit : Z) : Z :=
  u8 (if v then Z.lor byte (Z.shiftl 1 bit) else Z.land byte (Z.lnot (Z.shiftl 1 bit))).
Definition mark (b : superblock_t) (v : bool) (k : Z) (C : Z → list Z) : Z → list Z :=
  <[map_block b k := <[map_byte k := put_bit v (default 0 (C (map_block b k) !! map_byte k)) (k mod 8)]>
    (C (map_block b k))]> C.

(** ** Bits *)
Lemma put_bit_spec v x i j :
  0 ≤ i < 8 → 0 ≤ j < 8 → bit_set (put_bit v x i) j = if decide (i = j) then v else bit_set x j.
Proof.
  intros Hi Hj. unfold bit_set, put_bit, u8, wrap.
  rewrite Z.mod_pow2_bits_low by lia. destruct v.
  - rewrite Z.lor_spec, Z.shiftl_1_l, Z.pow2_bits_eqb by lia.
    case_decide; [subst; by rewrite Z.eqb_refl, orb_true_r|].
    rewrite (proj2 (Z.eqb_neq _ _)) by done. apply orb_false_r.
  - rewrite Z.land_spec, Z.lnot_spec, Z.shiftl_1_l, Z.pow2_bits_eqb by lia.
    case_decide; [subst; by rewrite Z.eqb_refl, andb_false_r|].
    rewrite (proj2 (Z.eqb_neq _ _)) by done. apply andb_true_r.
Qed.

Lemma map_bits_pos : MAP_BITS = 32768 ∧ BLOCK_SIZE = 4096.
Proof. done. Qed.

Lemma map_byte_range k : 0 ≤ k mod MAP_BITS / 8 < BLOCK_SIZE.
Proof.
  destruct map_bits_pos as [-> ->]. pose proof (Z.mod_pos_bound k 32768 ltac:(lia)).
  split; [apply Z.div_pos; lia | apply Z.div_lt_upper_bound; lia].
Qed.

Lemma map_position_inj b k j :
  map_block b k = map_block b j → map_byte k = map_byte j → k mod 8 = j mod 8 → k = j.
Proof.
  unfold map_block, map_byte. intros E1 E2 E3. pose proof (map_byte_range k). pose proof (map_byte_range j).
  destruct map_bits_pos as [EM EB]. rewrite EM, EB in *.
  assert (k / 32768 = j / 32768) by lia. assert (k mod 32768 / 8 = j mod 32768 / 8) by lia.
  assert (k mod 32768 mod 8 = k mod 8 ∧ j mod 32768 mod 8 = j mod 8) as [K1 K2].
  { split; apply Z.mod_mod_divide; by exists 4096. }
  pose proof (Z.div_mod k 32768 ltac:(lia)). pose proof (Z.div_mod j 32768 ltac:(lia)).
  pose proof (Z.div_mod (k mod 32768) 8 ltac:(lia)). pose proof (Z.div_mod (j mod 32768) 8 ltac:(lia)). lia.
Qed.

Lemma map_position b m q :
  0 ≤ q < MAP_BITS →
  map_block b (m * MAP_BITS + q) = block_map_offset b + m ∧
  Z.of_nat (map_byte (m * MAP_BITS + q)) = q / 8 ∧ (m * MAP_BITS + q) mod 8 = q mod 8.
Proof.
  unfold map_block, map_byte. destruct map_bits_pos as [-> _]. intros Hq.
  rewrite (Z.add_comm (m * 32768) q), Z.div_add, Z.mod_add, Z.div_small, Z.mod_small by lia. split_and!; [lia| |].
  - rewrite Z2Nat.id; [done|]. apply Z.div_pos; lia.
  - replace (q + m * 32768) with (q + (m * 4096) * 8) by lia. by apply Z.mod_add.
Qed.

Section Bitmap.

Context {D : Type} `{SectorStore D}.
Implicit Types (s : bstate D) (C : Z → list Z) (held : list Z).

Lemma map_block_range b k :
  sb_ok b → 0 ≤ k < block_count b → block_map_offset b ≤ map_block b k < inode_offset b ∧ in_range b (map_block b k).
Proof.
  intros [] Hk. unfold in_range, nblocks, map_block, map_blocks in *.
  destruct map_bits_pos as [EM EB]. rewrite EM in *. change INODE_PER_BLOCK with 64 in *.
  assert (0 ≤ k / 32768 ∧ k / 32768 + 1 ≤ (block_count b + 32768 - 1) / 32768) as [? ?].
  { split; [apply Z.div_pos; lia|]. apply Z.div_le_lower_bound; [lia|].
    pose proof (Z.mul_div_le k 32768 ltac:(lia)). lia. }
  assert (0 ≤ (inode_count b + 64 - 1) / 64) by (apply Z.div_pos; lia). lia.
Qed.

(** The bit changes; every other bit and every block outside the map stay. *)
Lemma mark_bit b v k j C :
  length (C (map_block b k)) = Z.to_nat BLOCK_SIZE →
  map_bit b (mark b v k C) j = if decide (k = j) then v else map_bit b C j.
Proof.
  intros Hlen. unfold map_bit, mark.
  pose proof (Z.mod_pos_bound k 8 ltac:(lia)). pose proof (Z.mod_pos_bound j 8 ltac:(lia)).
  assert (map_byte k < length (C (map_block b k)))%nat as Hlt.
  { rewrite Hlen. pose proof (map_byte_range k). unfold map_byte. lia. }
  destruct (decide (map_block b k = map_block b j)) as [E1|E1].
  - rewrite <- E1, fn_lookup_insert. destruct (decide (map_byte k = map_byte j)) as [E2|E2].
    + rewrite <- E2, list_lookup_insert_eq by done. cbn [default from_option id].
      rewrite put_bit_spec by done. repeat case_decide; subst; try done.
      by destruct (map_position_inj b k j).
    + rewrite list_lookup_insert_ne by done. case_decide; subst; done.
  - rewrite fn_lookup_insert_ne by done. case_decide; subst; done.
Qed.

Lemma mark_other b v k C n : n ≠ map_block b k → mark b v k C n = C n.
Proof. intros. unfold mark. by rewrite fn_lookup_insert_ne. Qed.

Lemma mark_length b v k C n : length (mark b v k C n) = length (C n).
Proof.
  unfold mark. destruct (decide (n = map_block b k)) as [->|].
  - by rewrite fn_lookup_insert, length_insert.
  - by rewrite fn_lookup_insert_ne.
Qed.

(** ** block_alloc *)
Lemma scan_map_run n s C held i bblock boffset :
  let b := superblock s in
  bst s C held → buf s i (map_block b bblock) → bblock mod MAP_BITS = 0 →
  0 ≤ boffset ≤ MAP_BITS → n = Z.to_nat (MAP_BITS - boffset) →
  (∃ r s', scan_map n i bblock boffset (block_count b) s = Ok (Some r, s') ∧
     boffset ≤ r < MAP_BITS ∧ bblock + r < block_count b ∧ map_bit b C (bblock + r) = false ∧
     (∀ q, boffset ≤ q < r → map_bit b C (bblock + q) = true) ∧
     bst s' (mark b true (bblock + r) C) held ∧ bstep s s') ∨
  (scan_map n i bblock boffset (block_count b) s = Ok (None, s) ∧
     ∀ q, boffset ≤ q < MAP_BITS → bblock + q < block_count b → map_bit b C (bblock + q) = true).
Proof.
  intros b Hb Hbuf Hal Hoff Hn. destruct map_bits_pos as [EM EB].
  assert (∀ q, 0 ≤ q < MAP_BITS → map_block b (bblock + q) = map_block b bblock ∧
    Z.of_nat (map_byte (bblock + q)) = q / 8 ∧ (bblock + q) mod 8 = q mod 8) as Hpos.
  { intros q Hq. apply Z.mod_divide in Hal as [m ->]; [|lia].
    destruct (map_position b m q Hq) as (-> & ? & ?), (map_position b m 0 ltac:(lia)) as (E0 & _).
    by rewrite Z.add_0_r in E0. }
  revert boffset Hoff Hn. induction n as [|n IH]; intros boffset Hoff Hn.
  - right. split; [done|]. intros; lia.
  - simpl. rewrite (proj2 (Z.ltb_lt boffset MAP_BITS)) by lia. cbn [andb].
    destruct (Z.ltb_spec (bblock + boffset) (block_count b)) as [Hlt|Hge].
    2: { right. split; [done|]. intros; lia. }
    destruct (Hpos boffset ltac:(lia)) as (Eb & Eby & Ebit).
    assert (0 ≤ boffset / 8 < BLOCK_SIZE) as Hbyte.
    { rewrite EB. split; [apply Z.div_pos; lia | apply Z.div_lt_upper_bound; lia]. }
    destruct (load_byte_run s C held i _ (boffset / 8) Hb Hbuf Hbyte) as (v & Hv & R).
    rewrite (bind_Ok _ _ _ _ _ R).
    assert (map_byte (bblock + boffset) = Z.to_nat (boffset / 8)) as Emb by lia.
    assert (map_bit b C (bblock + boffset) = bit_set v (boffset mod 8)) as Ev.
    { unfold map_bit. by rewrite Eb, Emb, Hv, Ebit. }
    destruct (bit_set v (boffset mod 8)) eqn:Eset; cbn [negb].
    + destruct (IH (boffset + 1) ltac:(lia) ltac:(lia)) as [(r & s' & R' & ? & ? & ? & Hq & ? & ?)|[R' Hq]].
      * left. exists r, s'. split_and!; try done; try lia. intros q Hqr.
        destruct (decide (q = boffset)) as [->|]; [done | apply Hq; lia].
      * right. split; [done|]. intros q Hqr Hc.
        destruct (decide (q = boffset)) as [->|]; [done | apply Hq; lia].
    + left. destruct (store_byte_run s C held i _ (boffset / 8)
        (u8 (Z.lor v (Z.shiftl 1 (boffset mod 8)))) Hb Hbuf Hbyte) as (s' & R' & Hb' & P').
      exists boffset, s'. rewrite (bind_Ok _ _ _ _ _ R'). split_and!; try done; [lia | intros; lia |].
      unfold mark. rewrite Eb, Emb, Ebit, Hv. done.
Qed.

Lemma bst_used s C held f g :
  bst s C held →
  bst (set_superblock (set_used_block f (set_used_inode g (superblock s))) s) C held.
Proof. intros [[] H2 H3 H4 H5 H6]. by split. Qed.

(** The superblock after [used_block] was changed by [f]. *)
Definition counted s s' (f : Z → Z) : Prop := superblock s' = set_used_block f (superblock s).

Lemma map_block_BLOCKID b k : sb_ok b → 0 ≤ k < block_count b → BLOCKID2MAPBLOCK b k = map_block b k.
Proof.
  intros Hb Hk. destruct (map_block_range b k Hb Hk) as [_ Hr]. unfold in_range in Hr.
  unfold BLOCKID2MAPBLOCK. rewrite Z.quot_div_nonneg by (destruct map_bits_pos; lia).
  fold (map_block b k). destruct Hb. unfold i32, swrap, wrap, NSECTOR_BLOCK in *.
  rewrite Z.mod_small by lia. rewrite (proj2 (Z.ltb_lt _ _)); [done|]. simpl. lia.
Qed.

Lemma alloc_loop_eq n bblock s : alloc_loop n bblock s =
  if bblock <? block_count (superblock s) then
    match n with
    | O => OutOfFuel
    | S n =>
        (map <- block_open (BLOCKID2MAPBLOCK (superblock s) bblock) ;;
         found <- scan_map (Z.to_nat MAP_BITS) map bblock 0 (block_count (superblock s)) ;;
         block_close map ;;
         match found with
         | Some boffset =>
             modify (fun s => set_superblock (set_used_block (fun u => u32 (u + 1)) (superblock s)) s) ;;
             ret (i32 (u32 (datablock_offset (superblock s) + bblock + boffset)))
         | None => alloc_loop n (bblock + MAP_BITS)
         end) s
    end
  else Ok (-1, s).
Proof. destruct n; cbn [alloc_loop]; unfold gets at 1; cbn [bind]; by destruct (_ <? _). Qed.

Lemma alloc_loop_run n s C held bblock :
  let b := superblock s in
  bst s C held → (length held < BLOCK_CONCURRENCY)%nat → bblock mod MAP_BITS = 0 → 0 ≤ bblock →
  (Z.to_nat ((block_count b - bblock + MAP_BITS - 1) / MAP_BITS) ≤ n)%nat →
  (∀ j, 0 ≤ j < bblock → j < block_count b → map_bit b C j = true) →
  (∃ k s', alloc_loop n bblock s = Ok (datablock_offset b + k, s') ∧ 0 ≤ k < block_count b ∧
     map_bit b C k = false ∧ (∀ j, 0 ≤ j < k → map_bit b C j = true) ∧
     bst s' (mark b true k C) held ∧ counted s s' (fun u => u32 (u + 1)) ∧
     (∀ i m, m ∈ held → buf s i m → buf s' i m)) ∨
  (∃ s', alloc_loop n bblock s = Ok (-1, s') ∧ bst s' C held ∧ superblock s' = superblock s ∧
     (∀ i m, m ∈ held → buf s i m → buf s' i m) ∧
     (∀ j, 0 ≤ j < block_count b → map_bit b C j = true)).
Proof.
  destruct map_bits_pos as [EM EB]. revert s bblock.
  induction n as [|n IH]; intros s bblock b Hb Hroom Hal Hpos Hfuel Hbefore; rewrite alloc_loop_eq;
    fold b; destruct (Z.ltb_spec bblock (block_count b)) as [Hlt|Hge].
  - exfalso. assert (1 ≤ (block_count b - bblock + MAP_BITS - 1) / MAP_BITS); [|lia].
    apply Z.div_le_lower_bound; lia.
  - right. exists s. split_and!; try done. intros; apply Hbefore; lia.
  - rewrite (map_block_BLOCKID b bblock) by (done || apply Hb).
    destruct (map_block_range b bblock (bs_sb _ _ _ Hb) ltac:(lia)) as [_ Hin].
    destruct (block_open_run s C held (map_block b bblock) Hb Hin Hroom) as (i & s1 & R1 & Hb1 & Hi1 & E1 & K1).
    rewrite (bind_Ok _ _ _ _ _ R1).
    destruct (scan_map_run (Z.to_nat MAP_BITS) s1 C _ i bblock 0 Hb1)
      as [(r & s2 & R2 & Hr & Hrc & Hbit & Hq & Hb2 & P2)|[R2 Hq]];
      [by rewrite E1 | done | lia | f_equal; lia | |]; rewrite E1 in *; fold b in Hq, R2 |- *;
      rewrite (bind_Ok _ _ _ _ _ R2).
    + fold b in Hrc, Hbit, Hb2. left.
      destruct (block_close_run s2 _ held i (map_block b bblock) Hb2) as (s3 & R3 & Hb3 & P3); [by apply P2|].
      rewrite (bind_Ok _ _ _ _ _ R3).
      exists (bblock + r), (set_superblock (set_used_block (fun u => u32 (u + 1)) (superblock s3)) s3).
      split_and!; [|lia..|done| |exact (bst_used _ _ _ (fun u => u32 (u + 1)) id Hb3)| |].
      * unfold modify, ret. cbn [bind]. do 2 f_equal. destruct Hb as [[] _ _ _ _ _].
        fold b in so_start, so_map, so_counts, so_inodes, so_data, so_end.
        assert (0 ≤ datablock_offset b).
        { unfold map_blocks in *. rewrite EM in *. change INODE_PER_BLOCK with 64 in *.
          pose proof (Z.div_pos (block_count b + 32768 - 1) 32768 ltac:(lia) ltac:(lia)).
          pose proof (Z.div_pos (inode_count b + 64 - 1) 64 ltac:(lia) ltac:(lia)). lia. }
        unfold nblocks, NSECTOR_BLOCK in *. unfold i32, swrap, u32, wrap. rewrite Z.add_assoc.
        rewrite (Z.mod_small (datablock_offset b + bblock + r) (2 ^ 32)) by lia.
        rewrite Z.mod_small by lia. rewrite (proj2 (Z.ltb_lt _ _)); [done|]. simpl. lia.
      * intros j Hj. destruct (decide (j < bblock)); [apply Hbefore; lia|].
        replace j with (bblock + (j - bblock)) by lia. apply Hq. lia.
      * unfold counted. simpl. by rewrite (bp_sb _ _ P3), (bp_sb _ _ P2), E1.
      * intros j m Hm Hj. destruct (bp_buf _ _ P3 j m) as (c & ?); [by apply P2, K1|]. by exists c.
    + destruct (block_close_run s1 _ held i (map_block b bblock) Hb1 Hi1) as (s3 & R3 & Hb3 & P3).
      rewrite (bind_Ok _ _ _ _ _ R3).
      assert (superblock s3 = b) as E3 by (by rewrite (bp_sb _ _ P3), E1).
      specialize (IH s3 (bblock + MAP_BITS)). cbv zeta in IH. rewrite E3 in IH.
      destruct IH as [IH|IH]; [done | done | | lia | | | |].
      * replace (bblock + MAP_BITS) with (bblock + 1 * MAP_BITS) by lia. by rewrite Z.mod_add by lia.
      * replace (block_count b - (bblock + MAP_BITS) + MAP_BITS - 1)
          with ((block_count b - bblock + MAP_BITS - 1) + (-1) * MAP_BITS) by lia.
        rewrite Z.div_add by lia. lia.
      * intros j Hj Hjc. destruct (decide (j < bblock)); [apply Hbefore; lia|].
        replace j with (bblock + (j - bblock)) by lia. apply Hq; lia.
      * left. destruct IH as (k & s' & R' & ? & ? & ? & ? & Hcnt & Hk). exists k, s'.
        assert (counted s s' (fun u => u32 (u + 1))) by (unfold counted in *; by rewrite Hcnt, E3).
        split_and!; try done; try lia. intros j m Hm Hj. by apply Hk, P3, K1.
      * right. destruct IH as (s' & R' & ? & Esb & Hk & ?). exists s'.
        split_and!; try done. intros j m Hm Hj. by apply Hk, P3, K1.
  - right. exists s. split_and!; try done. intros; apply Hbefore; lia.
Qed.

(** ** The operations on the bits *)
Definition first_free (b : superblock_t) (C : Z → list Z) : option Z :=
  snd <$> list_find (fun k => map_bit b C k = false) (seqZ 0 (block_count b)).

Lemma first_free_Some b C k :
  0 ≤ k < block_count b → map_bit b C k = false → (∀ j, 0 ≤ j < k → map_bit b C j = true) →
  first_free b C = Some k.
Proof.
  intros Hk Hbit Hbefore. unfold first_free. apply fmap_Some. exists (Z.to_nat k, k). split; [|done].
  apply list_find_Some. split_and!; [|done|].
  - rewrite lookup_seqZ_lt by lia. f_equal. lia.
  - intros i y Hi Hlt. apply lookup_seqZ in Hi as [-> ?]. rewrite Hbefore by lia. done.
Qed.

Lemma first_free_None b C : (∀ j, 0 ≤ j < block_count b → map_bit b C j = true) → first_free b C = None.
Proof.
  intros Hall. unfold first_free.
  destruct (list_find _ _) as [[i k]|] eqn:E; [|done]. exfalso.
  apply list_find_Some in E as (Hi & Hbit & _). apply lookup_seqZ in Hi as [-> ?].
  rewrite Hall in Hbit by lia. done.
Qed.

Lemma first_free_is b C k :
  first_free b C = Some k → 0 ≤ k < block_count b ∧ map_bit b C k = false.
Proof.
  unfold first_free. intros ([i k'] & E & ->)%fmap_Some. simpl.
  apply list_find_Some in E as (Hi & Hbit & _). apply lookup_seqZ in Hi as [-> ?]. split; [lia | done].
Qed.

Lemma first_free_full b C : first_free b C = None → ∀ j, 0 ≤ j < block_count b → map_bit b C j = true.
Proof.
  unfold first_free. intros E j Hj. apply fmap_None in E. apply list_find_None in E.
  rewrite Forall_lookup in E. apply not_false_iff_true.
  apply (E (Z.to_nat j) j). rewrite lookup_seqZ_lt by lia. f_equal. lia.
Qed.

(** [block_alloc] marks the first clear bit. *)
Lemma block_alloc_run s C held :
  let b := superblock s in
  bst s C held → (length held < BLOCK_CONCURRENCY)%nat →
  ∃ s', (∀ i m, m ∈ held → buf s i m → buf s' i m) ∧
    match first_free b C with
    | Some k => block_alloc s = Ok (datablock_offset b + k, s') ∧ bst s' (mark b true k C) held ∧
        counted s s' (fun u => u32 (u + 1))
    | None => block_alloc s = Ok (-1, s') ∧ bst s' C held ∧ counted s s' id
    end.
Proof.
  intros b Hb Hroom. unfold block_alloc, gets. cbn [bind]. fold b.
  destruct map_bits_pos as [EM EB].
  destruct (alloc_loop_run (Z.to_nat (block_count b / MAP_BITS + 1)) s C held 0 Hb Hroom) as [Hyes|Hno].
  - done.
  - done.
  - fold b. rewrite EM. rewrite Z.sub_0_r. apply Z2Nat.inj_le.
    + pose proof (so_counts _ (bs_sb _ _ _ Hb)). fold b in H0. apply Z.div_pos; lia.
    + pose proof (so_counts _ (bs_sb _ _ _ Hb)). fold b in H0.
      pose proof (Z.div_pos (block_count b) 32768). lia.
    + replace (block_count b + 32768 - 1) with (block_count b - 1 + 1 * 32768) by lia.
      rewrite Z.div_add by lia. apply Z.add_le_mono_r, Z.div_le_mono; lia.
  - intros; lia.
  - destruct Hyes as (k & s' & R & Hk & Hbit & Hbefore & Hb' & Hc & Hkeep). exists s'. split; [done|].
    rewrite (first_free_Some b C k) by done. done.
  - destruct Hno as (s' & R & Hb' & E & Hkeep & Hall). exists s'. split; [done|].
    rewrite first_free_None by done. split_and!; [done..|]. unfold counted. rewrite E. by destruct (superblock s).
Qed.

Lemma data_range b k : sb_ok b → 0 ≤ k < block_count b →
  in_range b (datablock_offset b + k) ∧ inode_offset b ≤ datablock_offset b + k ∧
  0 ≤ datablock_offset b.
Proof.
  intros Hb Hk. destruct (map_block_range b k Hb Hk) as [? ?]. destruct Hb. unfold in_range, nblocks in *.
  change INODE_PER_BLOCK with 64 in *. pose proof (Z.div_pos (inode_count b + 64 - 1) 64). lia.
Qed.

Lemma data_not_map b k j : sb_ok b → 0 ≤ k < block_count b → 0 ≤ j < block_count b →
  datablock_offset b + k ≠ map_block b j.
Proof.
  intros Hb Hk Hj. destruct (data_range b k Hb Hk) as (_ & ? & _).
  destruct (map_block_range b j Hb Hj) as [? _]. lia.
Qed.

(** [block_allocset] also fills the new block. *)
Lemma block_allocset_run s C held v :
  let b := superblock s in
  bst s C held → (length held < BLOCK_CONCURRENCY)%nat →
  ∃ s', (∀ i m, m ∈ held → buf s i m → buf s' i m) ∧
    match first_free b C with
    | Some k => block_allocset v s = Ok (datablock_offset b + k, s') ∧
        bst s' (<[datablock_offset b + k := replicate (Z.to_nat BLOCK_SIZE) v]> (mark b true k C)) held ∧
        counted s s' (fun u => u32 (u + 1))
    | None => block_allocset v s = Ok (-1, s') ∧ bst s' C held ∧ counted s s' id
    end.
Proof.
  intros b Hb Hroom. destruct (block_alloc_run s C held Hb Hroom) as (s1 & K1 & Hs1). fold b in Hs1.
  destruct (first_free b C) as [k|] eqn:Ef.
  - destruct Hs1 as (R1 & Hb1 & Hc1). destruct (first_free_is _ _ _ Ef) as [Hk _].
    destruct (data_range b k (bs_sb _ _ _ Hb) Hk) as (Hin & _ & ?).
    assert (in_range (superblock s1) (datablock_offset b + k)) as Hin1 by (by rewrite Hc1).
    destruct (block_memset_run s1 _ held (datablock_offset b + k) v Hb1 Hin1 Hroom) as (s2 & R2 & Hb2 & E2 & K2).
    exists s2. split; [intros i m Hm Hi; apply K2; auto|]. split_and!; [|done|].
    + unfold block_allocset. rewrite (bind_Ok _ _ _ _ _ R1).
      rewrite Z.geb_leb, (proj2 (Z.leb_le _ _)) by lia. by rewrite (bind_Ok _ _ _ _ _ R2).
    + unfold counted. by rewrite E2.
  - destruct Hs1 as (R1 & Hb1 & Hc1). exists s1. split; [done|]. split_and!; [|done|done].
    unfold block_allocset. by rewrite (bind_Ok _ _ _ _ _ R1).
Qed.

(** The address arithmetic of [block_free] undoes the one of [block_alloc]. *)
Lemma free_address b k :
  sb_ok b → 0 ≤ k < block_count b →
  u32 (datablock_offset b + k) = datablock_offset b + k ∧
  i32 (u32 (datablock_offset b + k - datablock_offset b)) = k ∧
  BLOCKID2MAPOFFSET k = k mod MAP_BITS ∧
  Z.quot (k mod MAP_BITS) 8 = k mod MAP_BITS / 8 ∧ Z.rem (k mod MAP_BITS) 8 = k mod 8.
Proof.
  intros Hb Hk. destruct (data_range b k Hb Hk) as (Hin & _ & ?). destruct Hb. unfold in_range, nblocks in *.
  destruct map_bits_pos as [EM EB]. unfold NSECTOR_BLOCK in *.
  replace (datablock_offset b + k - datablock_offset b) with k by lia.
  unfold u32, i32, swrap, wrap. rewrite !(Z.mod_small k) by lia.
  rewrite (Z.mod_small (datablock_offset b + k)) by lia.
  rewrite (proj2 (Z.ltb_lt k _)) by (simpl; lia).
  pose proof (Z.mod_pos_bound k MAP_BITS ltac:(lia)).
  unfold BLOCKID2MAPOFFSET. rewrite Z.rem_mod_nonneg, Z.quot_div_nonneg, Z.rem_mod_nonneg by lia.
  split_and!; try done. rewrite EM. apply Z.mod_mod_divide. by exists 4096.
Qed.

(** The run of [block_free] on a data block, whatever its bit. *)
Lemma block_free_run s C held k :
  let b := superblock s in
  bst s C held → (length held < BLOCK_CONCURRENCY)%nat → 0 ≤ k < block_count b →
  if map_bit b C k then
    ∃ s', block_free (datablock_offset b + k) s = Ok (tt, s') ∧ bst s' (mark b false k C) held ∧
      counted s s' (fun u => u32 (u - 1)) ∧ (∀ i m, m ∈ held → buf s i m → buf s' i m)
  else block_free (datablock_offset b + k) s = Panic "block_free on free block".
Proof.
  intros b Hb Hroom Hk. pose proof (bs_sb _ _ _ Hb) as Hsb. fold b in Hsb.
  destruct (free_address b k Hsb Hk) as (E1 & E2 & E3 & E4 & E5).
  destruct (map_block_range b k Hsb Hk) as [_ Hin].
  destruct (block_open_run s C held (map_block b k) Hb Hin Hroom) as (i & s1 & R1 & Hb1 & Hi1 & Es1 & K1).
  destruct (load_byte_run s1 C _ i _ (k mod MAP_BITS / 8) Hb1 Hi1 (map_byte_range k)) as (v & Hv & R2).
  assert (map_bit b C k = bit_set v (k mod 8)) as ->.
  { unfold map_bit, map_byte. by rewrite Hv. }
  assert (∀ r, (asserts (bit_set v (k mod 8)) "block_free on free block" ;;
      store_byte i (k mod MAP_BITS / 8) (u8 (Z.land v (Z.lnot (Z.shiftl 1 (k mod 8))))) ;;
      block_close i ;;
      modify (fun s => set_superblock (set_used_block (fun u => u32 (u - 1)) (superblock s)) s)) s1 = r →
    block_free (datablock_offset b + k) s = r) as Hrun.
  { intros r <-. unfold block_free, gets. cbn [bind]. fold b. rewrite E1. unfold asserts at 1.
    rewrite Z.geb_leb, (proj2 (Z.leb_le _ _)) by lia. unfold ret at 1. cbn [bind].
    rewrite E2, E3, E4, E5, (map_block_BLOCKID b k Hsb Hk).
    by rewrite (bind_Ok _ _ _ _ _ R1), (bind_Ok _ _ _ _ _ R2). }
  destruct (bit_set v (k mod 8)) eqn:Eset; [|by apply Hrun].
  destruct (store_byte_run s1 C _ i _ (k mod MAP_BITS / 8)
    (u8 (Z.land v (Z.lnot (Z.shiftl 1 (k mod 8))))) Hb1 Hi1 (map_byte_range k)) as (s2 & R3 & Hb2 & P2).
  destruct (block_close_run s2 _ held i _ Hb2) as (s3 & R4 & Hb3 & P3); [by apply P2|].
  eexists. split_and!; [apply Hrun; unfold asserts, ret at 1; cbn [bind];
    by rewrite (bind_Ok _ _ _ _ _ R3), (bind_Ok _ _ _ _ _ R4) | | |].
  - pose proof (bst_used _ _ _ (fun u => u32 (u - 1)) id Hb3) as Hb4.
    unfold mark, map_byte. rewrite Hv. exact Hb4.
  - unfold counted. simpl. by rewrite (bp_sb _ _ P3), (bp_sb _ _ P2), Es1.
  - intros j m Hm Hj. destruct (bp_buf _ _ P3 j m) as (c & ?); [by apply P2, K1|]. by exists c.
Qed.

End Bitmap.
