(* ===== verification/SdCard.v ===== *)
(** * The SD card, a [SectorStore]

    The card is an array of bytes; [bios_sd_read] and [bios_sd_write] copy
    whole sectors. Under [POLICY_WRITE_THROUGH], [cached_block_read] and
    [cached_block_write] of cache.c are exactly these calls, so the card is an
    instance of the interface block.c is verified against. *)

From S2P Require Import Prelude Block.

Definition sdcard : Type := Z → Z.

(** [bios_sd_read(mem, num_of_blocks, block_id)] *)
Definition bios_sd_read (num_of_blocks block_id : Z) (d : sdcard) : list Z :=
  (fun j => d (block_id * SECTOR_SIZE + j)) <$> seqZ 0 (num_of_blocks * SECTOR_SIZE).

(** [bios_sd_write(mem, num_of_blocks, block_id)] *)
Definition bios_sd_write (num_of_blocks block_id : Z) (v : list Z) (d : sdcard) : sdcard := fun a =>
  let j := a - block_id * SECTOR_SIZE in
  if (0 <=? j) && (j <? num_of_blocks * SECTOR_SIZE) then default 0 (v !! Z.to_nat j) else d a.

Lemma sd_read_length n k d : length (bios_sd_read n k d) = Z.to_nat (n * SECTOR_SIZE).
Proof. unfold bios_sd_read. by rewrite length_fmap, length_seqZ. Qed.

Lemma sd_read_lookup n k d i :
  bios_sd_read n k d !! i =
    if decide (Z.of_nat i < n * SECTOR_SIZE) then Some (d (k * SECTOR_SIZE + Z.of_nat i)) else None.
Proof.
  unfold bios_sd_read. rewrite list_lookup_fmap. case_decide.
  - rewrite lookup_seqZ_lt by done. done.
  - rewrite lookup_seqZ_ge by lia. done.
Qed.

Lemma sd_read_write n k v d :
  length v = Z.to_nat (n * SECTOR_SIZE) → bios_sd_read n k (bios_sd_write n k v d) = v.
Proof.
  intros Hlen. apply list_eq. intros i. rewrite sd_read_lookup. unfold bios_sd_write.
  replace (k * SECTOR_SIZE + Z.of_nat i - k * SECTOR_SIZE) with (Z.of_nat i) by lia.
  rewrite Nat2Z.id. case_decide as Hi.
  - rewrite (proj2 (Z.leb_le _ _)), (proj2 (Z.ltb_lt _ _)) by lia. cbn [andb].
    destruct (lookup_lt_is_Some_2 v i) as [x ->]; [lia | done].
  - symmetry. apply lookup_ge_None. lia.
Qed.

Lemma sd_read_write_apart n k j v d :
  k + n ≤ j ∨ j + n ≤ k → bios_sd_read n j (bios_sd_write n k v d) = bios_sd_read n j d.
Proof.
  intros Hap. apply list_eq. intros i. rewrite !sd_read_lookup. case_decide; [|done].
  f_equal. unfold bios_sd_write, SECTOR_SIZE in *.
  destruct (Z.leb_spec 0 (j * 512 + Z.of_nat i - k * 512)); cbn [andb]; [|done].
  rewrite (proj2 (Z.ltb_ge _ _)); [done|]. lia.
Qed.

#[global] Instance sdcard_store : SectorStore sdcard := {
  sread := bios_sd_read NSECTOR_BLOCK;
  sfill _ d := d;
  swrite := bios_sd_write NSECTOR_BLOCK;
  sread_length k d := sd_read_length _ _ _;
  sread_sfill k j d := eq_refl;
  sread_swrite k v d Hv := sd_read_write _ _ _ _ Hv;
  sread_swrite_apart k j v d _ Hap := sd_read_write_apart _ _ _ _ _ Hap;
}.
