(* ===== verification/PageCache.v ===== *)
(** * kernel/fs/cache.c: the page cache as a [SectorStore]

    Between the block buffers and the card, [cached_block_read] and
    [cached_block_write] keep blocks in page frames: under [POLICY_WRITE_BACK]
    a block lives in a page of the address space [cache_pgdir], at the address its
    start sector names, and reaches the card when [flush_fs_cache] frees that address space;
    under [POLICY_WRITE_THROUGH] the calls go to the card.

    The cache is modelled here by its pages: [find_pte], [alloc_pageframe], [bind_page]
    and the copies through the page tables (Vm.v) are a lookup and an update of a
    finite map from start sectors to the bytes of a frame. Start sectors are multiples of
    8, so no block straddles two pages. What happens when the frames of the group are used up
    is not part of this model (Frames.v has it): [overrun] records that a page had to be
    given up, and the theorems show when it does not come to that. *)

From S2P Require Import Prelude Block SdCard.

Definition FS_FIRST_SECTOR : Z := 512 * 1024 * 1024 / SECTOR_SIZE.   (* FS_START_SECTOR *)
Definition FS_END_SECTOR : Z := 1024 * 1024 * 1024 / SECTOR_SIZE.

Inductive cache_policy_t := POLICY_WRITE_BACK | POLICY_WRITE_THROUGH.
Record cache_config_t := mk_config { policy : cache_policy_t; write_back_freq : Z }.

Definition FS_CACHE_SIZE : nat := 8 * 1024.
(** The frames of the group that page tables can take: the addresses from 512 MB to 1 GB need
    a top table, one below it and 256 of the last level. *)
Definition CACHE_TABLES : nat := 258.
Definition CACHE_ROOM : nat := FS_CACHE_SIZE - CACHE_TABLES.

(** The bytes of a frame. *)
Definition page := Z → Z.
Record pcache := mk_pcache {
  pc_card : sdcard;
  pagecache_config : cache_config_t;
  pages : gmap Z page;
  overrun : bool;
}.
Definition set_pages (m : gmap Z page) (d : pcache) : pcache := mk_pcache (pc_card d) (pagecache_config d) m (overrun d).
Definition set_pc_card (c : sdcard) (d : pcache) : pcache := mk_pcache c (pagecache_config d) (pages d) (overrun d).
Definition set_config (c : cache_config_t) (d : pcache) : pcache := mk_pcache (pc_card d) c (pages d) (overrun d).

Definition zero_page : page := fun _ => 0.
Definition page_bytes (p : page) : list Z := p <$> seqZ 0 BLOCK_SIZE.
Definition bytes_page (v : list Z) : page := fun j => default 0 (v !! Z.to_nat j).

(** A new frame; without [load] its bytes are overwritten before they are read. *)
Definition cache_swapin (start_sector : Z) (load : bool) (d : pcache) : pcache :=
  match pages d !! start_sector with
  | Some _ => d
  | None =>
      let p := if load then bytes_page (bios_sd_read NSECTOR_BLOCK start_sector (pc_card d)) else zero_page in
      mk_pcache (pc_card d) (pagecache_config d) (<[start_sector := p]> (pages d))
        (overrun d || bool_decide (CACHE_ROOM ≤ size (pages d))%nat)
  end.

Definition cached_block_read (start_sector : Z) (d : pcache) : list Z * pcache :=
  match policy (pagecache_config d) with
  | POLICY_WRITE_THROUGH => (bios_sd_read NSECTOR_BLOCK start_sector (pc_card d), d)
  | POLICY_WRITE_BACK =>
      let d := cache_swapin start_sector true d in
      (page_bytes (default zero_page (pages d !! start_sector)), d)
  end.

Definition cached_block_write (start_sector : Z) (src : list Z) (d : pcache) : pcache :=
  match policy (pagecache_config d) with
  | POLICY_WRITE_THROUGH => set_pc_card (bios_sd_write NSECTOR_BLOCK start_sector src (pc_card d)) d
  | POLICY_WRITE_BACK =>
      let d := cache_swapin start_sector false d in
      set_pages (<[start_sector := bytes_page src]> (pages d)) d
  end.

(** The call for a page that is freed. *)
Definition fs_cache_swap_free (sector_id : Z) (p : page) (c : sdcard) : sdcard :=
  if sector_id <? FS_FIRST_SECTOR then c else bios_sd_write NSECTOR_BLOCK sector_id (page_bytes p) c.
(** [free_top_pgdir] frees every page; the new address space has none. The pages are
    apart, so their order does not matter. *)
Definition flush_fs_cache (d : pcache) : pcache :=
  mk_pcache (map_fold fs_cache_swap_free (pc_card d) (pages d)) (pagecache_config d) ∅ (overrun d).
(** The daemon is started elsewhere. *)
Definition init_fs_cache (d : pcache) : pcache :=
  mk_pcache (pc_card d) (mk_config (policy (pagecache_config d)) 10) ∅ (overrun d).

(** ** The interface *)

Lemma page_bytes_length p : length (page_bytes p) = Z.to_nat BLOCK_SIZE.
Proof. unfold page_bytes. by rewrite length_fmap, length_seqZ. Qed.

Lemma page_bytes_page v : length v = Z.to_nat BLOCK_SIZE → page_bytes (bytes_page v) = v.
Proof.
  intros Hv. apply list_eq. intros i. unfold page_bytes. rewrite list_lookup_fmap.
  destruct (decide (Z.of_nat i < BLOCK_SIZE)) as [Hi|Hi].
  - rewrite lookup_seqZ_lt by done. destruct (lookup_lt_is_Some_2 v i) as [x Hx]; [lia|].
    cbn [fmap option_fmap option_map]. unfold bytes_page. by rewrite Z.add_0_l, Nat2Z.id, Hx.
  - rewrite lookup_seqZ_ge by lia. symmetry. apply lookup_ge_None. lia.
Qed.

(** What a block holds, in the cache or on the card. *)
Definition block_bytes (k : Z) (d : pcache) : list Z :=
  match pages d !! k with Some p => page_bytes p | None => bios_sd_read NSECTOR_BLOCK k (pc_card d) end.

Lemma swapin_config k l d : pagecache_config (cache_swapin k l d) = pagecache_config d.
Proof. unfold cache_swapin. by destruct (pages d !! k). Qed.
Lemma swapin_card k l d : pc_card (cache_swapin k l d) = pc_card d.
Proof. unfold cache_swapin. by destruct (pages d !! k). Qed.
Lemma swapin_other k j l d : j ≠ k → pages (cache_swapin k l d) !! j = pages d !! j.
Proof. intros Hne. unfold cache_swapin. destruct (pages d !! k); [done|]. cbn. by rewrite lookup_insert_ne. Qed.

Lemma swapin_bytes k j d : block_bytes j (cache_swapin k true d) = block_bytes j d.
Proof.
  unfold block_bytes. rewrite swapin_card. destruct (decide (j = k)) as [->|Hne]; [|by rewrite swapin_other].
  unfold cache_swapin. destruct (pages d !! k) as [p|] eqn:E; [by rewrite E|]. cbn [pages].
  rewrite lookup_insert_eq. apply page_bytes_page, sd_read_length.
Qed.

Lemma read_back k d : policy (pagecache_config d) = POLICY_WRITE_BACK → fst (cached_block_read k d) = block_bytes k d.
Proof.
  intros E. unfold cached_block_read. rewrite E. cbv zeta. cbn [fst]. rewrite <- (swapin_bytes k k d). unfold block_bytes.
  assert (is_Some (pages (cache_swapin k true d) !! k)) as [p ->]; [|done]. unfold cache_swapin.
  destruct (pages d !! k) as [p|] eqn:Ep; [by exists p|]. cbn [pages]. rewrite lookup_insert_eq. by eexists.
Qed.
Lemma read_through k d : policy (pagecache_config d) = POLICY_WRITE_THROUGH →
  cached_block_read k d = (bios_sd_read NSECTOR_BLOCK k (pc_card d), d).
Proof. intros E. unfold cached_block_read. by rewrite E. Qed.
Lemma read_back_store k d : policy (pagecache_config d) = POLICY_WRITE_BACK → snd (cached_block_read k d) = cache_swapin k true d.
Proof. intros E. unfold cached_block_read. by rewrite E. Qed.

Lemma write_back_pages k v d : policy (pagecache_config d) = POLICY_WRITE_BACK →
  pc_card (cached_block_write k v d) = pc_card d ∧ pages (cached_block_write k v d) = <[k := bytes_page v]> (pages d) ∧
  pagecache_config (cached_block_write k v d) = pagecache_config d.
Proof.
  intros E. unfold cached_block_write. rewrite E. cbn [set_pages pc_card pages pagecache_config].
  rewrite swapin_card, swapin_config. split_and!; [done| |done]. unfold cache_swapin.
  destruct (pages d !! k); [done|]. cbn. apply insert_insert_eq.
Qed.

Lemma cached_read_length k d : length (fst (cached_block_read k d)) = Z.to_nat BLOCK_SIZE.
Proof.
  unfold cached_block_read. destruct (policy _); cbn [fst]; [apply page_bytes_length | apply sd_read_length].
Qed.
Lemma cached_read_fill k j d : fst (cached_block_read j (snd (cached_block_read k d))) = fst (cached_block_read j d).
Proof.
  destruct (policy (pagecache_config d)) eqn:E; [|by rewrite (read_through k) by done].
  rewrite read_back_store by done. rewrite !read_back by (by rewrite ?swapin_config). apply swapin_bytes.
Qed.
Lemma cached_read_write k v d :
  length v = Z.to_nat BLOCK_SIZE → fst (cached_block_read k (cached_block_write k v d)) = v.
Proof.
  intros Hv. destruct (policy (pagecache_config d)) eqn:E.
  - destruct (write_back_pages k v d E) as (_ & Ep & Ec). rewrite read_back by (by rewrite Ec).
    unfold block_bytes. rewrite Ep, lookup_insert_eq. by apply page_bytes_page.
  - unfold cached_block_write, cached_block_read. rewrite E. cbn. rewrite E. cbn. by apply sd_read_write.
Qed.
Lemma cached_read_write_apart k j v d :
  length v = Z.to_nat BLOCK_SIZE → k + NSECTOR_BLOCK ≤ j ∨ j + NSECTOR_BLOCK ≤ k →
  fst (cached_block_read j (cached_block_write k v d)) = fst (cached_block_read j d).
Proof.
  intros Hv Hap. destruct (policy (pagecache_config d)) eqn:E.
  - destruct (write_back_pages k v d E) as (E1 & Ep & Ec). rewrite !read_back by (by rewrite ?Ec).
    unfold block_bytes. rewrite Ep, E1, lookup_insert_ne by (unfold NSECTOR_BLOCK in *; lia). done.
  - unfold cached_block_write, cached_block_read. rewrite E. cbn. rewrite E. cbn. by apply sd_read_write_apart.
Qed.

#[global] Instance pcache_store : SectorStore pcache := {
  sread k d := fst (cached_block_read k d);
  sfill k d := snd (cached_block_read k d);
  swrite := cached_block_write;
  sread_length := cached_read_length;
  sread_sfill := cached_read_fill;
  sread_swrite := cached_read_write;
  sread_swrite_apart := cached_read_write_apart;
}.

(** ** Flushing *)

(** The pages are blocks of the volume behind the superblock. *)
Definition page_key (k : Z) : Prop := k mod NSECTOR_BLOCK = 0 ∧ FS_FIRST_SECTOR + NSECTOR_BLOCK ≤ k.
Definition keys_ok (m : gmap Z page) : Prop := ∀ k p, m !! k = Some p → page_key k.

Lemma flushed_reads (c : sdcard) (m : gmap Z page) k :
  keys_ok m → k mod NSECTOR_BLOCK = 0 →
  bios_sd_read NSECTOR_BLOCK k (map_fold fs_cache_swap_free c m) =
    match m !! k with Some p => page_bytes p | None => bios_sd_read NSECTOR_BLOCK k c end.
Proof.
  intros Hm Hk. revert Hm. apply (map_fold_weak_ind (fun r m => keys_ok m →
    bios_sd_read NSECTOR_BLOCK k r = match m !! k with Some p => page_bytes p | None => bios_sd_read NSECTOR_BLOCK k c end)); [done|].
  intros i p m' r Hi IH Hm. destruct (Hm i p) as [Ha Hf]; [apply lookup_insert_eq|].
  assert (keys_ok m') as Hm' by (intros j q Hj; apply (Hm j q); rewrite lookup_insert_ne; congruence).
  unfold fs_cache_swap_free. rewrite (proj2 (Z.ltb_ge i FS_FIRST_SECTOR)) by (unfold NSECTOR_BLOCK in *; lia).
  destruct (decide (i = k)) as [->|Hne].
  - rewrite lookup_insert_eq. apply sd_read_write, page_bytes_length.
  - rewrite lookup_insert_ne by done. rewrite sd_read_write_apart; [by apply IH|].
    unfold NSECTOR_BLOCK in *. apply Z.mod_divide in Ha as [x ->]; [|lia]. apply Z.mod_divide in Hk as [y ->]; [|lia]. lia.
Qed.

(** A cache that is in order: under write-through nothing is cached. *)
Record cache_settled (d : pcache) : Prop := {
  ct_keys : keys_ok (pages d);
  ct_through : policy (pagecache_config d) = POLICY_WRITE_THROUGH → pages d = ∅;
}.

Lemma settled_read k d : cache_settled d → fst (cached_block_read k d) = block_bytes k d.
Proof.
  intros [_ Ht]. destruct (policy (pagecache_config d)) eqn:E; [by apply read_back|].
  rewrite read_through by done. unfold block_bytes. by rewrite (Ht eq_refl), lookup_empty.
Qed.

(** Flushing moves the pages to the card and changes no block. *)
Lemma flush_moves k d :
  cache_settled d → k mod NSECTOR_BLOCK = 0 →
  bios_sd_read NSECTOR_BLOCK k (pc_card (flush_fs_cache d)) = fst (cached_block_read k d) ∧
  fst (cached_block_read k (flush_fs_cache d)) = fst (cached_block_read k d).
Proof.
  intros Hd Hk. assert (cache_settled (flush_fs_cache d)) as Hf by (split; [intros j p Hj; cbn [flush_fs_cache pages] in Hj; by rewrite lookup_empty in Hj | done]).
  rewrite !settled_read by done. unfold block_bytes. cbn [flush_fs_cache pages pc_card]. rewrite lookup_empty.
  rewrite flushed_reads by (done || apply Hd). done.
Qed.

(** A write of a block of the volume. *)
Lemma write_settled k v d :
  cache_settled d → page_key k → (size (pages d) < CACHE_ROOM)%nat →
  let d' := cached_block_write k v d in
  cache_settled d' ∧ (size (pages d') ≤ S (size (pages d)))%nat ∧ overrun d' = overrun d.
Proof.
  intros [Hk Ht] Hkey Hroom. cbv zeta. destruct (policy (pagecache_config d)) eqn:E.
  - destruct (write_back_pages k v d E) as (_ & Ep & Ec). split_and!.
    + split; [|by rewrite Ec, E]. rewrite Ep. intros j p [[<- _]|[_ Hj]]%lookup_insert_Some; [done | by eapply Hk].
    + rewrite Ep. destruct (pages d !! k) eqn:El; [rewrite map_size_insert_Some by done; lia | rewrite map_size_insert_None by done; lia].
    + unfold cached_block_write, cache_swapin. rewrite E. destruct (pages d !! k); [done|]. cbn [overrun set_pages].
      rewrite bool_decide_false by lia. apply orb_false_r.
  - unfold cached_block_write. rewrite E. split_and!; [split|cbn; lia|done]; cbn; [done|]. intros _. by apply Ht.
Qed.

(** [etc_vm_daemon] changes the policy and flushes nothing. A block that was written
    into the cache is then read from the card as it was before; and once it was
    written through, the next flush replaces it with the older page. *)
Lemma policy_switch_stale k v w d :
  policy (pagecache_config d) = POLICY_WRITE_BACK → page_key k → keys_ok (pages d) →
  length v = Z.to_nat BLOCK_SIZE → length w = Z.to_nat BLOCK_SIZE →
  let d1 := set_config (mk_config POLICY_WRITE_THROUGH 10) (cached_block_write k v d) in
  fst (cached_block_read k d1) = bios_sd_read NSECTOR_BLOCK k (pc_card d) ∧
  fst (cached_block_read k (cached_block_write k w d1)) = w ∧
  fst (cached_block_read k (flush_fs_cache (cached_block_write k w d1))) = v.
Proof.
  intros E [Hk Hf] Hm Hv Hw d1. destruct (write_back_pages k v d E) as (E1 & Ep & _).
  split_and!; [|by apply cached_read_write|].
  - rewrite read_through by done. cbn. by rewrite E1.
  - rewrite read_through by done. cbn. unfold flush_fs_cache. cbn. rewrite flushed_reads; [|rewrite Ep|done].
    + rewrite Ep, lookup_insert_eq. by apply page_bytes_page.
    + intros j p [[<- _]|[_ Hj]]%lookup_insert_Some; [done | by eapply Hm].
Qed.
