(* ===== verification/BlockTheorems.v ===== *)
(** * Block.c against its specification

    The abstract machine is an array of blocks [C] of which the bitmap is a
    part; every sequence of operations of block.c computes what the array
    computes, and a flush makes the store below equal to the array. *)

From S2P Require Import Prelude Block BlockProofs BlockAlloc SdCard.

(** ** Operations and their specification *)
Inductive bop :=
| BLoad (n k : Z)        (* open block n, read byte k, close *)
| BStore (n k v : Z)     (* open block n, write byte k, close *)
| BFill (n v : Z)        (* block_memset *)
| BAlloc (v : Z)         (* block_allocset *)
| BFree (n : Z)          (* block_free *)
| BFlush.                (* flush_block_cache *)

Section Ops.

Context {D : Type} `{SectorStore D}.

Definition bop_run (op : bop) : M (bstate D) Z :=
  match op with
  | BLoad n k => i <- block_open n ;; v <- load_byte i k ;; block_close i ;; ret v
  | BStore n k v => i <- block_open n ;; store_byte i k v ;; block_close i ;; ret 0
  | BFill n v => block_memset n v ;; ret 0
  | BAlloc v => block_allocset v
  | BFree n => block_free n ;; ret 0
  | BFlush => flush_block_cache ;; ret 0
  end.

Fixpoint bops_run (ops : list bop) : M (bstate D) (list Z) :=
  match ops with
  | [] => ret []
  | op :: ops => r <- bop_run op ;; rs <- bops_run ops ;; ret (r :: rs)
  end.

End Ops.

(** The array machine; [None] outside the contract of the operation. *)
Definition bop_spec (b : superblock_t) (C : Z → list Z) (op : bop) : option (Z * (Z → list Z)) :=
  match op with
  | BLoad n k =>
      if decide (0 ≤ n < nblocks b ∧ 0 ≤ k < BLOCK_SIZE)
      then Some (default 0 (C n !! Z.to_nat k), C) else None
  | BStore n k v =>
      if decide (0 ≤ n < nblocks b ∧ 0 ≤ k < BLOCK_SIZE)
      then Some (0, <[n := <[Z.to_nat k := v]> (C n)]> C) else None
  | BFill n v =>
      if decide (0 ≤ n < nblocks b)
      then Some (0, <[n := replicate (Z.to_nat BLOCK_SIZE) v]> C) else None
  | BAlloc v =>
      match first_free b C with
      | Some k => Some (datablock_offset b + k,
          <[datablock_offset b + k := replicate (Z.to_nat BLOCK_SIZE) v]> (mark b true k C))
      | None => Some (-1, C)
      end
  | BFree n =>
      let k := n - datablock_offset b in
      if decide (0 ≤ k < block_count b ∧ map_bit b C k = true)
      then Some (0, mark b false k C) else None
  | BFlush => Some (0, C)
  end.

Fixpoint bops_spec (b : superblock_t) (C : Z → list Z) (ops : list bop) : option (list Z * (Z → list Z)) :=
  match ops with
  | [] => Some ([], C)
  | op :: ops =>
      match bop_spec b C op with
      | Some (r, C1) =>
          match bops_spec b C1 ops with
          | Some (rs, C2) => Some (r :: rs, C2)
          | None => None
          end
      | None => None
      end
  end.

Section Refinement.

Context {D : Type} `{SectorStore D}.
Implicit Types (s : bstate D) (C : Z → list Z).

Lemma no_handles : (length ([] : list Z) < BLOCK_CONCURRENCY)%nat.
Proof. unfold BLOCK_CONCURRENCY. simpl. lia. Qed.

(** One operation: the result and the array agree, nothing stays open. *)
Lemma bop_refines s C op r C' :
  bst s C [] → bop_spec (superblock s) C op = Some (r, C') →
  ∃ s' f, bop_run op s = Ok (r, s') ∧ bst s' C' [] ∧ superblock s' = set_used_block f (superblock s).
Proof.
  intros Hb Hspec. assert (superblock s = set_used_block id (superblock s)) as Eid by (by destruct (superblock s)).
  destruct op as [n k|n k v|n v|v|n|]; simpl in Hspec |- *.
  - case_decide as Hd; [|done]. destruct Hd as [Hn Hk]. injection Hspec as <- <-.
    destruct (block_open_run s C [] n Hb Hn no_handles) as (i & s1 & R1 & Hb1 & Hi1 & E1 & _).
    destruct (load_byte_run s1 C [n] i n k Hb1 Hi1 Hk) as (v & Hv & R2).
    destruct (block_close_run s1 C [] i n Hb1 Hi1) as (s2 & R3 & Hb2 & P2).
    exists s2, id. rewrite (bind_Ok _ _ _ _ _ R1), (bind_Ok _ _ _ _ _ R2), (bind_Ok _ _ _ _ _ R3), Hv.
    split_and!; [done..|]. rewrite <- Eid. by rewrite (bp_sb _ _ P2).
  - case_decide as Hd; [|done]. destruct Hd as [Hn Hk]. injection Hspec as <- <-.
    destruct (block_open_run s C [] n Hb Hn no_handles) as (i & s1 & R1 & Hb1 & Hi1 & E1 & _).
    destruct (store_byte_run s1 C [n] i n k v Hb1 Hi1 Hk) as (s2 & R2 & Hb2 & P2).
    destruct (block_close_run s2 _ [] i n Hb2) as (s3 & R3 & Hb3 & P3); [by apply P2|].
    exists s3, id. rewrite (bind_Ok _ _ _ _ _ R1), (bind_Ok _ _ _ _ _ R2), (bind_Ok _ _ _ _ _ R3).
    split_and!; [done..|]. rewrite <- Eid. by rewrite (bp_sb _ _ P3), (bp_sb _ _ P2).
  - case_decide as Hn; [|done]. injection Hspec as <- <-.
    destruct (block_memset_run s C [] n v Hb Hn no_handles) as (s1 & R1 & Hb1 & E1 & _).
    exists s1, id. rewrite (bind_Ok _ _ _ _ _ R1). split_and!; [done..|]. by rewrite <- Eid.
  - destruct (block_allocset_run s C [] v Hb no_handles) as (s1 & _ & Hs1).
    destruct (first_free (superblock s) C) as [k|]; injection Hspec as <- <-;
      destruct Hs1 as (R & ? & Hc); eauto.
  - case_decide as Hd; [|done]. destruct Hd as [Hk Hbit]. injection Hspec as <- <-.
    pose proof (block_free_run s C [] _ Hb no_handles Hk) as Hrun. cbv zeta in Hrun. rewrite Hbit in Hrun.
    destruct Hrun as (s1 & R & Hb1 & Hc & _).
    replace (datablock_offset (superblock s) + (n - datablock_offset (superblock s))) with n in R by lia.
    exists s1, (fun u => u32 (u - 1)). by rewrite (bind_Ok _ _ _ _ _ R).
  - injection Hspec as <- <-. destruct (flush_run s C [] Hb) as (d & R & Hb1 & _).
    exists (set_disk d s), id. rewrite (bind_Ok _ _ _ _ _ R). done.
Qed.

(** The specification does not look at the counter of used blocks. *)
Lemma bops_spec_used b f C ops : bops_spec (set_used_block f b) C ops = bops_spec b C ops.
Proof.
  revert C. induction ops as [|op ops IH]; intros C; [done|]. cbn [bops_spec].
  replace (bop_spec (set_used_block f b) C op) with (bop_spec b C op) by (by destruct op).
  destruct (bop_spec b C op) as [[r C1]|]; [|done]. by rewrite IH.
Qed.

(** C11 Every sequence of block operations computes what the plain array of
    blocks computes, through at most eight buffers with eviction and
    write-back; no operation panics inside its contract, and after
    [flush_block_cache] the store below holds exactly the array. *)
Theorem block_layer_refines_array s C ops rs C' :
  bst s C [] → bops_spec (superblock s) C ops = Some (rs, C') →
  ∃ s', bops_run ops s = Ok (rs, s') ∧ bst s' C' [] ∧
    ∃ s'', flush_block_cache s' = Ok (tt, s'') ∧
      ∀ n, 0 ≤ n < nblocks (superblock s) → sread (sector_of (superblock s) n) (disk s'') = C' n.
Proof.
  revert s C rs. induction ops as [|op ops IH]; intros s C rs Hb Hspec; simpl in Hspec.
  - injection Hspec as <- <-. exists s. destruct (flush_run s C [] Hb) as (d & R & _ & K).
    split_and!; [done..|]. by exists (set_disk d s).
  - destruct (bop_spec (superblock s) C op) as [[r C1]|] eqn:E1; [|done].
    destruct (bops_spec (superblock s) C1 ops) as [[rs1 C2]|] eqn:E2; [|done]. injection Hspec as <- <-.
    destruct (bop_refines s C op r C1 Hb E1) as (s1 & f & R1 & Hb1 & Es).
    destruct (IH s1 C1 rs1 Hb1) as (s2 & R2 & Hb2 & s3 & R3 & K); [by rewrite Es, bops_spec_used|].
    exists s2. cbn [bops_run]. rewrite (bind_Ok _ _ _ _ _ R1), (bind_Ok _ _ _ _ _ R2).
    split_and!; [done..|]. exists s3. split; [done|]. rewrite Es in K. exact K.
Qed.

(** Allocation never hands out a block twice and touches nothing
    else: [block_allocset] returns the first free data block, fills it, and
    leaves every other block outside the bitmap and every other bit alone. *)
Theorem block_alloc_fresh s C held v n s' :
  let b := superblock s in
  bst s C held → (length held < BLOCK_CONCURRENCY)%nat → block_allocset v s = Ok (n, s') → n ≠ -1 →
  ∃ k C', n = datablock_offset b + k ∧ 0 ≤ k < block_count b ∧ bst s' C' held ∧
    map_bit b C k = false ∧ C' n = replicate (Z.to_nat BLOCK_SIZE) v ∧
    (∀ j, 0 ≤ j < block_count b → map_bit b C' j = if decide (j = k) then true else map_bit b C j) ∧
    (∀ m, m ≠ n → m ≠ map_block b k → C' m = C m).
Proof.
  intros b Hb Hroom R Hn. destruct (block_allocset_run s C held v Hb Hroom) as (s1 & _ & Hs1). fold b in Hs1.
  destruct (first_free b C) as [k|] eqn:E; destruct Hs1 as (R1 & Hb1 & _); rewrite R in R1;
    injection R1 as -> ->; [|done].
  destruct (first_free_is _ _ _ E) as [Hk Hbit]. pose proof (bs_sb _ _ _ Hb) as Hsb.
  pose proof (data_not_map b k) as Hdm.
  eexists k, _. split_and!; [done | lia | lia | exact Hb1 | done | | |].
  - by rewrite fn_lookup_insert.
  - intros j Hj. unfold map_bit at 1. rewrite fn_lookup_insert_ne by (by apply Hdm).
    fold (map_bit b (mark b true k C) j). rewrite mark_bit.
    + repeat case_decide; congruence.
    + apply Hb. apply map_block_range; [apply Hsb | done].
  - intros m Hm1 Hm2. rewrite fn_lookup_insert_ne by done. by apply mark_other.
Qed.

(** [block_free] when only the counter of used blocks differs from [b]. *)
Lemma block_free_counted s C held k b f :
  superblock s = set_used_block f b →
  bst s C held → (length held < BLOCK_CONCURRENCY)%nat → 0 ≤ k < block_count b →
  if map_bit b C k then
    ∃ s', block_free (datablock_offset b + k) s = Ok (tt, s') ∧ bst s' (mark b false k C) held ∧
      superblock s' = set_used_block (fun u => u32 (f u - 1)) b
  else block_free (datablock_offset b + k) s = Panic "block_free on free block".
Proof.
  intros E Hb Hroom Hk. pose proof (block_free_run s C held k Hb Hroom) as Hrun.
  unfold counted in Hrun. rewrite E in Hrun. specialize (Hrun Hk). cbv zeta in Hrun.
  change (map_bit (set_used_block f b) C k) with (map_bit b C k) in Hrun.
  destruct (map_bit b C k); [|exact Hrun]. destruct Hrun as (s' & R & Hb' & Hc & _). by exists s'.
Qed.

(** Freeing what was allocated restores the bitmap bit for bit, and
    freeing it once more is caught: the second [block_free] panics. *)
Theorem block_alloc_free_roundtrip s C held v n s' :
  let b := superblock s in
  bst s C held → (length held < BLOCK_CONCURRENCY)%nat → block_allocset v s = Ok (n, s') → n ≠ -1 →
  ∃ s2 C2, block_free n s' = Ok (tt, s2) ∧ bst s2 C2 held ∧
    (∀ j, 0 ≤ j < block_count b → map_bit b C2 j = map_bit b C j) ∧
    block_free n s2 = Panic "block_free on free block".
Proof.
  intros b Hb Hroom R Hn. destruct (block_allocset_run s C held v Hb Hroom) as (s1 & _ & Hs1). fold b in Hs1.
  destruct (first_free b C) as [k|] eqn:E; destruct Hs1 as (R1 & Hb1 & Hc); rewrite R in R1;
    injection R1 as -> ->; [|done].
  destruct (first_free_is _ _ _ E) as [Hk Hbit]. pose proof (bs_sb _ _ _ Hb) as Hsb. fold b in Hsb.
  set (C1 := <[datablock_offset b + k := replicate (Z.to_nat BLOCK_SIZE) v]> (mark b true k C)) in *.
  assert (∀ j, 0 ≤ j < block_count b → map_bit b C1 j = if decide (k = j) then true else map_bit b C j) as Hbits.
  { intros j Hj. unfold map_bit at 1, C1. rewrite fn_lookup_insert_ne by (by apply data_not_map).
    apply mark_bit. apply Hb. by apply map_block_range. }
  assert (∀ C, bst s1 C held → length (C (map_block b k)) = Z.to_nat BLOCK_SIZE) as Hlen.
  { intros C0 HC0. apply HC0. rewrite Hc. change (in_range b (map_block b k)). by apply map_block_range. }
  pose proof (block_free_counted s1 C1 held k b _ Hc Hb1 Hroom Hk) as Hrun.
  rewrite Hbits, decide_True in Hrun by done. destruct Hrun as (s2 & R2 & Hb2 & Hc2).
  exists s2, (mark b false k C1). split_and!; [done..| |].
  - intros j Hj. rewrite mark_bit by (by apply Hlen). rewrite Hbits by done.
    case_decide; subst; done.
  - pose proof (block_free_counted s2 _ held k b _ Hc2 Hb2 Hroom Hk) as Hrun.
    rewrite mark_bit, decide_True in Hrun by (try done; by apply Hlen). done.
Qed.

End Refinement.

(** ** A freshly formatted volume *)

(** The superblock [do_mkfs] writes: 1 superblock, 32 + 1 map blocks, 512 inode
    blocks, and the rest of the 512 MB volume for data. *)
Definition mkfs_superblock : superblock_t :=
  mk_superblock 0xDF4C4459 1048576 1048576 1 1 34 546 32768 130526 0 0.

Lemma mkfs_superblock_ok : sb_ok mkfs_superblock.
Proof. split; vm_compute; repeat split; congruence. Qed.

(** Empty buffers over any store represent what the store holds. *)
Lemma bst_boot {D} `{SectorStore D} b d :
  sb_ok b → bst (mk_bstate b empty_blocks d) (fun n => sread (sector_of b n) d) [].
Proof.
  intros Hb. assert (∀ i c, empty_blocks !! i = Some c → valid c = false) as Hinv.
  { intros i c [-> _]%lookup_replicate. done. }
  split; cbn [superblock blocks disk]; try done.
  - intros n _. apply sread_length.
  - intros i j c d' Hi _ Vc. apply Hinv in Hi. congruence.
  - intros i c Hi Vc. apply Hinv in Hi. congruence.
Qed.

(** A small volume of the same layout: 64 inodes and 200 data blocks from 35. *)
Definition demo_superblock : superblock_t :=
  mk_superblock 0xDF4C4459 1880 1048576 1 1 34 35 64 200 0 0.
Lemma demo_superblock_ok : sb_ok demo_superblock.
Proof. split; vm_compute; repeat split; congruence. Qed.

Definition demo_volume : bstate sdcard := mk_bstate demo_superblock empty_blocks (fun _ => 0).
Definition demo_contents : Z → list Z := fun n => sread (sector_of demo_superblock n) (fun _ : Z => 0).
Definition demo_ops : list bop :=
  [BAlloc 7; BAlloc 0; BLoad 35 100; BStore 36 5 42; BFree 35; BLoad 36 5; BAlloc 1].

Lemma demo_volume_ok : bst demo_volume demo_contents [].
Proof. apply bst_boot, demo_superblock_ok. Qed.

Lemma block_layer_refines_array_witness :
  ∃ s', bops_run demo_ops demo_volume = Ok ([35; 36; 7; 0; 0; 42; 35], s').
Proof.
  destruct (bops_spec demo_superblock demo_contents demo_ops) as [[rs C']|] eqn:E.
  - assert (fst <$> bops_spec demo_superblock demo_contents demo_ops =
      Some [35; 36; 7; 0; 0; 42; 35]) as Ers by (vm_compute; reflexivity).
    rewrite E in Ers. simpl in Ers. injection Ers as ->.
    destruct (block_layer_refines_array demo_volume demo_contents demo_ops _ C' demo_volume_ok E)
      as (s' & R & _). eauto.
  - exfalso. assert (fst <$> bops_spec demo_superblock demo_contents demo_ops ≠ None) as Hne
      by (vm_compute; congruence). by rewrite E in Hne.
Defined.

(** The state after the first allocation. *)
Definition demo_allocated : bstate sdcard :=
  match block_allocset 7 demo_volume with Ok (_, s) => s | _ => demo_volume end.

Lemma demo_allocset : block_allocset 7 demo_volume = Ok (35, demo_allocated).
Proof.
  assert (match block_allocset 7 demo_volume with Ok (n, _) => n = 35 | _ => False end) as En
    by (vm_compute; reflexivity).
  unfold demo_allocated. destruct (block_allocset 7 demo_volume) as [[n s]| |]; [by subst | done..].
Qed.

Lemma block_alloc_fresh_witness : ∃ C', bst demo_allocated C' [] ∧
  C' 35 = replicate (Z.to_nat BLOCK_SIZE) 7 ∧ C' 100 = demo_contents 100.
Proof.
  destruct (block_alloc_fresh demo_volume demo_contents [] 7 35 demo_allocated demo_volume_ok
    no_handles demo_allocset) as (k & C' & Ek & Hk & Hb & _ & Hn & _ & Hm); [done|].
  exists C'. split_and!; [done..|]. apply Hm; [done|].
  simpl in Ek. assert (k = 0) as -> by lia. vm_compute. congruence.
Defined.

Lemma block_alloc_free_roundtrip_witness : ∃ s2, block_free 35 demo_allocated = Ok (tt, s2) ∧
  block_free 35 s2 = Panic "block_free on free block".
Proof.
  destruct (block_alloc_free_roundtrip demo_volume demo_contents [] 7 35 demo_allocated demo_volume_ok
    no_handles demo_allocset) as (s2 & C2 & R & _ & _ & Hp); [done|]. eauto.
Defined.
