(* ===== verification/CString.v ===== *)
(** * libs/string.c and tiny_libc/string.c: memory and C strings

    Memory is a function from addresses to bytes; a pointer is an address and
    [char] is unsigned, as on RISC-V. The loops of the source that stop at a
    NUL take fuel and report [None] when it runs out. *)

From S2P Require Import Prelude.

Abbreviation memory := (Z → Z).

(** [for (; len != 0; len--) *dest++ = *src++;] *)
Fixpoint memcpy_loop (n : nat) (dest src : Z) (m : memory) : memory :=
  match n with
  | O => m
  | S n => memcpy_loop n (dest + 1) (src + 1) (<[dest := m src]> m)
  end.
Definition memcpy (dest src len : Z) (m : memory) : memory := memcpy_loop (Z.to_nat (u32 len)) dest src m.

Fixpoint memset_loop (n : nat) (dst val : Z) (m : memory) : memory :=
  match n with
  | O => m
  | S n => memset_loop n (dst + 1) val (<[dst := val]> m)
  end.
Definition memset (dest val len : Z) (m : memory) : memory := memset_loop (Z.to_nat (u32 len)) dest (u8 val) m.
Definition bzero (dest len : Z) (m : memory) : memory := memset dest 0 len m.

(** [while (src[i] != '\0') i++;] *)
Fixpoint strlen_loop (fuel : nat) (m : memory) (src i : Z) : option Z :=
  match fuel with
  | O => None
  | S fuel => if m (src + i) =? 0 then Some i else strlen_loop fuel m src (i + 1)
  end.
Definition strlen (fuel : nat) (m : memory) (src : Z) : option Z := strlen_loop fuel m src 0.

Fixpoint strcmp (fuel : nat) (m : memory) (str1 str2 : Z) : option Z :=
  match fuel with
  | O => None
  | S fuel =>
      if negb (m str1 =? 0) && negb (m str2 =? 0) then
        if negb (m str1 =? m str2) then Some (m str1 - m str2)
        else strcmp fuel m (str1 + 1) (str2 + 1)
      else Some (m str1 - m str2)
  end.

(** [strncmp] on two character streams: [f i] is [str1[i]], [g i] is [str2[i]]. *)
Fixpoint strncmp_loop (n : nat) (f g : Z → Z) (i : Z) : Z :=
  match n with
  | O => 0
  | S n => if (f i =? 0) || negb (f i =? g i) then f i - g i else strncmp_loop n f g (i + 1)
  end.
Definition strncmp (f g : Z → Z) (n : Z) : Z := strncmp_loop (Z.to_nat (u32 n)) f g 0.

(** [while ( *src) *dest++ = *src++; *dest = '\0';] *)
Fixpoint copy_string (fuel : nat) (dest src : Z) (m : memory) : option memory :=
  match fuel with
  | O => None
  | S fuel =>
      if m src =? 0 then Some (<[dest := 0]> m)
      else copy_string fuel (dest + 1) (src + 1) (<[dest := m src]> m)
  end.
Definition strcpy (fuel : nat) (dest src : Z) (m : memory) : option memory := copy_string fuel dest src m.

(** [while ( *src && n-- > 0) *dest++ = *src++; while (n-- > 0) *dest++ = '\0';] *)
Fixpoint strncpy_loop (n : nat) (dest src : Z) (m : memory) : memory :=
  if m src =? 0 then memset_loop n dest 0 m else
  match n with
  | O => m
  | S n => strncpy_loop n (dest + 1) (src + 1) (<[dest := m src]> m)
  end.
Definition strncpy (dest src n : Z) (m : memory) : memory := strncpy_loop (Z.to_nat n) dest src m.

(** [while ( *dest != '\0') dest++;] and then the copy. *)
Definition strcat (fuel : nat) (dest src : Z) (m : memory) : option memory :=
  match strlen fuel m dest with
  | Some i => copy_string fuel (dest + i) src m
  | None => None
  end.

(** [for (i = 0, j = len - 1; i < j; i++, j--)] swaps the ends. *)
Fixpoint strrev_loop (n : nat) (str i j : Z) (m : memory) : memory :=
  match n with
  | O => m
  | S n =>
      if i <? j then
        let tmp := m (str + i) in
        let m := <[str + i := m (str + j)]> m in
        let m := <[str + j := tmp]> m in
        strrev_loop n str (i + 1) (j - 1) m
      else m
  end.
Definition strrev (fuel : nat) (str : Z) (m : memory) : option memory :=
  match strlen fuel m str with
  | Some len => Some (strrev_loop (Z.to_nat len) str 0 (len - 1) m)
  | None => None
  end.

(** ** Arrays and strings in memory *)

(** The bytes [l] are at [p]. *)
Definition at_mem (m : memory) (p : Z) (l : list Z) : Prop :=
  ∀ i x, l !! i = Some x → m (p + Z.of_nat i) = x.

(** The NUL-terminated string [l] is at [p]. *)
Definition cstr (m : memory) (p : Z) (l : list Z) : Prop :=
  at_mem m p l ∧ m (p + Z.of_nat (length l)) = 0 ∧ Forall (fun x => x ≠ 0) l.

(** [m'] differs from [m] at most in [n] bytes from [p]. *)
Definition only (p n : Z) (m m' : memory) : Prop := ∀ a, a < p ∨ p + n ≤ a → m' a = m a.

Lemma at_mem_cons m p x l : at_mem m p (x :: l) ↔ m p = x ∧ at_mem m (p + 1) l.
Proof.
  split.
  - intros Hm. split; [rewrite <- (Z.add_0_r p); by apply (Hm 0%nat)|].
    intros i y Hi. rewrite <- (Hm (S i) y Hi). f_equal. lia.
  - intros [H0 Hm] [|i] y Hi; simpl in Hi; [injection Hi as <-; by rewrite Z.add_0_r|].
    rewrite <- (Hm i y Hi). f_equal. lia.
Qed.

Lemma cstr_nil m p : cstr m p [] ↔ m p = 0.
Proof. unfold cstr, at_mem. simpl. rewrite Z.add_0_r. split; [tauto|]. intros E. split_and!; [|done|done]. intros i x Hi. by rewrite lookup_nil in Hi. Qed.

Lemma cstr_cons m p x l : cstr m p (x :: l) ↔ m p = x ∧ x ≠ 0 ∧ cstr m (p + 1) l.
Proof.
  unfold cstr. rewrite at_mem_cons, Forall_cons, length_cons.
  replace (p + Z.of_nat (S (length l))) with (p + 1 + Z.of_nat (length l)) by lia. tauto.
Qed.

Lemma at_mem_ext m m' p l :
  (∀ a, p ≤ a < p + Z.of_nat (length l) → m' a = m a) → at_mem m p l → at_mem m' p l.
Proof. intros Hext Hm i x Hi. rewrite Hext; [by apply Hm|]. apply lookup_lt_Some in Hi. lia. Qed.

Lemma cstr_ext m m' p l :
  (∀ a, p ≤ a ≤ p + Z.of_nat (length l) → m' a = m a) → cstr m p l → cstr m' p l.
Proof.
  intros Hext (H1 & H2 & H3). split_and!; [|rewrite Hext; [done | lia] | done].
  eapply at_mem_ext; [|done]. intros. apply Hext. lia.
Qed.

(** ** Block operations *)
Lemma memcpy_loop_spec n dest src m :
  (src + Z.of_nat n ≤ dest ∨ dest ≤ src) →
  ∀ a, memcpy_loop n dest src m a =
    if decide (dest ≤ a < dest + Z.of_nat n) then m (src + (a - dest)) else m a.
Proof.
  revert dest src m. induction n as [|n IH]; intros dest src m Hov a; cbn [memcpy_loop].
  - case_decide; [lia | done].
  - rewrite IH by lia. repeat case_decide; try lia.
    + rewrite fn_lookup_insert_ne by lia. f_equal. lia.
    + replace a with dest by lia. rewrite fn_lookup_insert. f_equal. lia.
    + rewrite fn_lookup_insert_ne; [done | lia].
Qed.

Lemma memset_loop_spec n dst v m a :
  memset_loop n dst v m a = if decide (dst ≤ a < dst + Z.of_nat n) then v else m a.
Proof.
  revert dst m. induction n as [|n IH]; intros dst m; cbn [memset_loop].
  - case_decide; [lia | done].
  - rewrite IH. repeat case_decide; try lia; try done.
    + replace a with dst by lia. by rewrite fn_lookup_insert.
    + rewrite fn_lookup_insert_ne; [done | lia].
Qed.

(** ** Strings *)
Lemma strlen_loop_run fuel m p l i :
  cstr m (p + i) l → (length l < fuel)%nat → strlen_loop fuel m p i = Some (i + Z.of_nat (length l)).
Proof.
  revert i fuel. induction l as [|x l IH]; intros i [|fuel] Hs Hf; simpl in Hf; try lia; cbn [strlen_loop].
  - apply cstr_nil in Hs. rewrite Hs. simpl. f_equal. lia.
  - apply cstr_cons in Hs as (-> & Hx & Hs). rewrite (proj2 (Z.eqb_neq _ _)) by done.
    rewrite IH; [simpl; f_equal; lia | | lia]. by replace (p + (i + 1)) with (p + i + 1) by lia.
Qed.

(** Comparison of byte strings: the sign of the first difference. *)
Fixpoint bytes_diff (l k : list Z) : Z :=
  match l, k with
  | [], [] => 0
  | [], y :: _ => - y
  | x :: _, [] => x
  | x :: l, y :: k => if x =? y then bytes_diff l k else x - y
  end.

Lemma bytes_diff_0 l k :
  Forall (fun x => x ≠ 0) l → Forall (fun x => x ≠ 0) k → bytes_diff l k = 0 ↔ l = k.
Proof.
  revert k. induction l as [|x l IH]; intros [|y k] Hl Hk; simpl; try done.
  - apply Forall_cons in Hk as [? _]. split; [lia | done].
  - apply Forall_cons in Hl as [? _]. split; [lia | done].
  - apply Forall_cons in Hl as [? Hl], Hk as [? Hk].
    destruct (Z.eqb_spec x y) as [->|Hne]; [rewrite IH by done; naive_solver|].
    split; [lia | congruence].
Qed.

Lemma strcmp_run fuel m p q l k :
  cstr m p l → cstr m q k → (length l < fuel)%nat → strcmp fuel m p q = Some (bytes_diff l k).
Proof.
  revert p q l k. induction fuel as [|fuel IH]; intros p q l k Hl Hk Hf; [lia|]. cbn [strcmp].
  destruct l as [|x l], k as [|y k]; rewrite ?cstr_nil, ?cstr_cons in Hl; rewrite ?cstr_nil, ?cstr_cons in Hk.
  - by rewrite Hl, Hk.
  - destruct Hk as (-> & ? & _). rewrite Hl. done.
  - destruct Hl as (-> & ? & _). rewrite Hk. rewrite (proj2 (Z.eqb_neq x 0)) by done. simpl. f_equal. lia.
  - destruct Hl as (-> & ? & Hl), Hk as (-> & ? & Hk). rewrite !(proj2 (Z.eqb_neq _ 0)) by done.
    simpl in *. destruct (Z.eqb_spec x y); [apply IH; [done..|lia] | done].
Qed.

Lemma copy_string_run fuel m dest src l :
  cstr m src l → (length l < fuel)%nat → dest + Z.of_nat (length l) < src ∨ src + Z.of_nat (length l) < dest →
  ∃ m', copy_string fuel dest src m = Some m' ∧ cstr m' dest l ∧ only dest (Z.of_nat (length l) + 1) m m'.
Proof.
  revert fuel m dest src. induction l as [|x l IH]; intros [|fuel] m dest src Hs Hf Hap; simpl in Hf; try lia;
    cbn [copy_string].
  - apply cstr_nil in Hs. rewrite Hs. eexists. split_and!; [done | |].
    + apply cstr_nil. by rewrite fn_lookup_insert.
    + intros a Ha. simpl in Ha. rewrite fn_lookup_insert_ne; [done | lia].
  - pose proof Hs as Hs0. apply cstr_cons in Hs as (-> & Hx & Hs). rewrite (proj2 (Z.eqb_neq _ _)) by done.
    rewrite length_cons in *.
    destruct (IH fuel (<[dest := x]> m) (dest + 1) (src + 1)) as (m' & R & Hc & Ho); [|lia|lia|].
    + eapply cstr_ext; [|exact Hs]. intros a Ha. apply fn_lookup_insert_ne. lia.
    + exists m'. split_and!; [done | |].
      * apply cstr_cons. split_and!; [|done|done]. rewrite Ho by lia. by rewrite fn_lookup_insert.
      * intros a Ha. rewrite Ho by lia. apply fn_lookup_insert_ne. lia.
Qed.

Lemma strncpy_loop_run n m dest src l :
  cstr m src l → (dest + Z.of_nat n ≤ src ∨ src + Z.of_nat (length l) < dest) →
  at_mem (strncpy_loop n dest src m) dest (take n l ++ replicate (n - length l) 0) ∧
  only dest (Z.of_nat n) m (strncpy_loop n dest src m).
Proof.
  revert n m dest src. induction l as [|x l IH]; intros n m dest src Hs Hap.
  - apply cstr_nil in Hs. assert (strncpy_loop n dest src m = memset_loop n dest 0 m) as ->.
    { destruct n; cbn [strncpy_loop]; by rewrite Hs. }
    rewrite take_nil, Nat.sub_0_r. split.
    + intros i y [-> Hi]%lookup_replicate. rewrite memset_loop_spec, decide_True; [done | lia].
    + intros a Ha. rewrite memset_loop_spec, decide_False; [done | lia].
  - apply cstr_cons in Hs as (Ex & Hx & Hs). rewrite length_cons in Hap.
    destruct n as [|n]; cbn [strncpy_loop]; rewrite Ex, (proj2 (Z.eqb_neq _ _)) by done.
    + split; [intros i y Hi; by destruct i | done].
    + destruct (IH n (<[dest := x]> m) (dest + 1) (src + 1)) as [Ha Ho]; [|lia|].
      { eapply cstr_ext; [|exact Hs]. intros a Ha. apply fn_lookup_insert_ne. lia. }
      split.
      * simpl. apply at_mem_cons. split; [|done]. rewrite Ho by lia. by rewrite fn_lookup_insert.
      * intros a Hr. rewrite Ho by lia. apply fn_lookup_insert_ne. lia.
Qed.

Lemma strrev_loop_spec n m p i j a :
  j - i + 1 ≤ 2 * Z.of_nat n →
  strrev_loop n p i j m a =
    if decide (i ≤ a - p ≤ j) then m (p + (i + j - (a - p))) else m a.
Proof.
  revert m i j. induction n as [|n IH]; intros m i j Hn; cbn [strrev_loop].
  - case_decide; [lia | done].
  - destruct (Z.ltb_spec i j) as [Hlt|Hge].
    + cbv zeta. rewrite IH by lia. case_decide as Hin; [rewrite decide_True by lia|].
      * rewrite !fn_lookup_insert_ne by lia. f_equal. lia.
      * destruct (decide (a = p + j)) as [->|Hj].
        { rewrite fn_lookup_insert, decide_True by lia. f_equal. lia. }
        rewrite fn_lookup_insert_ne by lia. destruct (decide (a = p + i)) as [->|Hi].
        { rewrite fn_lookup_insert, decide_True by lia. f_equal. lia. }
        rewrite fn_lookup_insert_ne, decide_False by lia. done.
    + case_decide; [f_equal; lia | done].
Qed.

(** Streams compared up to [n] characters: equal iff the strings, cut at [n], are. *)
Definition bytes (l : list Z) : Z → Z := fun i => default 0 (l !! Z.to_nat i).

(** The string in a buffer of at most [n] characters. *)
Fixpoint upto_nul (l : list Z) : list Z :=
  match l with
  | [] => []
  | x :: l => if x =? 0 then [] else x :: upto_nul l
  end.
Definition canon (n : nat) (l : list Z) : list Z := upto_nul (take n l).

Lemma strncmp_loop_canon n l k i :
  0 ≤ i →
  strncmp_loop n (bytes l) (bytes k) i = 0 ↔
    canon n (drop (Z.to_nat i) l) = canon n (drop (Z.to_nat i) k).
Proof.
  unfold canon. revert i. induction n as [|n IH]; intros i Hi; cbn [strncmp_loop]; [done|].
  assert (Z.to_nat (i + 1) = S (Z.to_nat i)) as Ei by lia.
  unfold bytes in *. specialize (IH (i + 1) ltac:(lia)). rewrite Ei in IH.
  destruct (l !! Z.to_nat i) as [x|] eqn:El, (k !! Z.to_nat i) as [y|] eqn:Ek; simpl.
  - rewrite (drop_S _ _ _ El), (drop_S _ _ _ Ek). simpl.
    destruct (Z.eqb_spec x 0) as [->|Hx], (Z.eqb_spec y 0) as [->|Hy]; simpl; try done.
    + split; [lia | done].
    + rewrite (proj2 (Z.eqb_neq x 0)) by done. simpl. split; [lia | done].
    + destruct (Z.eqb_spec x y) as [->|Hxy]; simpl; [rewrite IH; split; [by intros -> | by intros [= ->]]|].
      split; [lia | congruence].
  - rewrite (drop_S _ _ _ El). rewrite (drop_ge k) by (by apply lookup_ge_None). simpl.
    destruct (Z.eqb_spec x 0) as [->|Hx]; simpl; [done|].
    split; [lia | done].
  - rewrite (drop_S _ _ _ Ek). rewrite (drop_ge l) by (by apply lookup_ge_None). simpl.
    destruct (Z.eqb_spec y 0) as [->|Hy]; simpl; [done|]. split; [lia | done].
  - rewrite (drop_ge k), (drop_ge l) by (by apply lookup_ge_None). done.
Qed.

Lemma strncmp_canon n l k :
  0 ≤ n < 2 ^ 32 → strncmp (bytes l) (bytes k) n = 0 ↔ canon (Z.to_nat n) l = canon (Z.to_nat n) k.
Proof.
  intros Hn. unfold strncmp, u32, wrap. rewrite Z.mod_small by done.
  by rewrite strncmp_loop_canon.
Qed.

(** ** Properties *)

(** The string routines compute what C strings promise: [strlen] the
    length, [strcmp] zero exactly on equal strings and otherwise the difference
    of the first differing characters, [strcpy] and [strcat] the copy and the
    concatenation with nothing written outside, [strrev] the reversal. *)
Theorem string_routines_correct m p q l k fuel :
  cstr m p l → cstr m q k → (length l + length k < fuel)%nat →
  strlen fuel m p = Some (Z.of_nat (length l)) ∧
  strcmp fuel m p q = Some (bytes_diff l k) ∧ (bytes_diff l k = 0 ↔ l = k) ∧
  (∀ dest, dest + Z.of_nat (length l) < p ∨ p + Z.of_nat (length l) < dest →
    ∃ m', strcpy fuel dest p m = Some m' ∧ cstr m' dest l ∧ only dest (Z.of_nat (length l) + 1) m m') ∧
  (p + Z.of_nat (length l + length k) < q ∨ q + Z.of_nat (length k) < p →
    ∃ m', strcat fuel p q m = Some m' ∧ cstr m' p (l ++ k) ∧ only p (Z.of_nat (length l + length k) + 1) m m') ∧
  (∃ m', strrev fuel p m = Some m' ∧ cstr m' p (reverse l) ∧ only p (Z.of_nat (length l)) m m').
Proof.
  intros Hl Hk Hf. pose proof (strlen_loop_run fuel m p l 0) as Hlen. rewrite Z.add_0_r in Hlen.
  specialize (Hlen Hl ltac:(lia)). rewrite Z.add_0_l in Hlen. fold (strlen fuel m p) in Hlen.
  destruct (Hl) as (Hl1 & Hl2 & Hl3). destruct (Hk) as (_ & _ & Hk3).
  split_and!; [done | apply strcmp_run; [done..|lia] | by apply bytes_diff_0 | | |].
  - intros dest Hap. apply copy_string_run; [done | lia | lia].
  - intros Hap. unfold strcat. rewrite Hlen.
    destruct (copy_string_run fuel m (p + Z.of_nat (length l)) q k) as (m' & R & (Hc1 & Hc2 & Hc3) & Ho);
      [done | lia | lia |].
    exists m'. split_and!; [done | |].
    + unfold cstr. rewrite length_app, Forall_app. split_and!; [| |done|done].
      * intros i x [Hi|[Hi Hx]]%lookup_app_Some.
        -- rewrite Ho by (apply lookup_lt_Some in Hi; lia). by apply Hl1.
        -- rewrite <- (Hc1 _ _ Hx). f_equal. lia.
      * rewrite <- Hc2. f_equal. lia.
    + intros a Ha. apply Ho. lia.
  - unfold strrev. rewrite Hlen. eexists. split_and!; [done | |].
    + unfold cstr. rewrite length_reverse, Forall_reverse. split_and!; [| |done].
      * intros i x Hi. pose proof (lookup_lt_Some _ _ _ Hi) as Hlt. rewrite length_reverse in Hlt.
        rewrite strrev_loop_spec, decide_True by lia. rewrite reverse_lookup in Hi by done.
        rewrite <- (Hl1 _ _ Hi). f_equal. lia.
      * rewrite strrev_loop_spec, decide_False by lia. done.
    + intros a Ha. rewrite strrev_loop_spec, decide_False by lia. done.
Qed.

(** The string "kernel" at 100 and "os" at 200. *)
Definition demo_strings : memory := fun a =>
  if (100 <=? a) && (a <? 106) then default 0 ([107; 101; 114; 110; 101; 108] !! Z.to_nat (a - 100))
  else if (200 <=? a) && (a <? 202) then default 0 ([111; 115] !! Z.to_nat (a - 200)) else 0.

Lemma demo_cstr p l : Forall (fun x => x ≠ 0) l → 
  (fun a => demo_strings (p + Z.of_nat a)) <$> seq 0 (S (length l)) = l ++ [0] → cstr demo_strings p l.
Proof.
  intros Hl E.
  assert (∀ i x, (l ++ [0]) !! i = Some x → demo_strings (p + Z.of_nat i) = x) as Hi.
  { intros i x Hx. rewrite <- E in Hx. rewrite list_lookup_fmap in Hx.
    apply fmap_Some in Hx as (j & Hj & ->). apply lookup_seq in Hj as [-> _]. done. }
  split_and!; [|apply Hi; by rewrite lookup_app_r, Nat.sub_diag|done].
  intros i x Hx. apply Hi. by apply lookup_app_l_Some.
Qed.

Lemma string_routines_correct_witness :
  strcmp 20 demo_strings 100 200 = Some (-4) ∧
  ∃ m', strcat 20 100 200 demo_strings = Some m' ∧ cstr m' 100 [107; 101; 114; 110; 101; 108; 111; 115].
Proof.
  destruct (string_routines_correct demo_strings 100 200 [107; 101; 114; 110; 101; 108] [111; 115] 20)
    as (_ & Hc & _ & _ & Hcat & _).
  - apply demo_cstr; [repeat constructor; done | reflexivity].
  - apply demo_cstr; [repeat constructor; done | reflexivity].
  - simpl. lia.
  - split; [exact Hc|]. destruct Hcat as (m' & R & Hm & _); [simpl; lia|]. by exists m'.
Defined.

(** [strncpy] writes exactly [n] bytes: the string cut at [n]
    characters, padded with NULs, whatever the length of the source. *)
Theorem strncpy_fills_exactly m dest src l n :
  cstr m src l → 0 ≤ n → dest + n ≤ src ∨ src + Z.of_nat (length l) < dest →
  at_mem (strncpy dest src n m) dest (take (Z.to_nat n) l ++ replicate (Z.to_nat n - length l) 0) ∧
  only dest n m (strncpy dest src n m).
Proof.
  intros Hs Hn Hap. unfold strncpy.
  destruct (strncpy_loop_run (Z.to_nat n) m dest src l Hs) as [H1 H2]; [lia|].
  rewrite Z2Nat.id in H2 by lia. done.
Qed.

Lemma strncpy_fills_exactly_witness :
  at_mem (strncpy 300 100 8 demo_strings) 300 [107; 101; 114; 110; 101; 108; 0; 0].
Proof.
  apply (strncpy_fills_exactly demo_strings 300 100 [107; 101; 114; 110; 101; 108] 8); [|lia|simpl; lia].
  apply demo_cstr; [repeat constructor; done | reflexivity].
Defined.
