(* ===== verification/Dcache.v ===== *)
(** * kernel/fs/dcache.c: the directory-entry cache

    256 chained buckets indexed by an FNV-1a hash of the parent inode and the
    name. A chain is the list of its nodes in order; [kmalloc] is represented
    by the outcomes [allocs] of the coming calls (a call succeeds when the list
    is used up), so that both branches of every allocation are modelled. The
    refinement theorem relates the table to a finite map from (parent, name). *)

From S2P Require Import Prelude CString.

Definition MAX_FILE_NAME : Z := 28.
Definition DENTRY_CACHE_BUCKETS : Z := 256.

Record dentry_t := mk_dentry {
  name : list Z;          (* char name[MAX_FILE_NAME] *)
  inode_num : Z;
}.

Record dcache_entry := mk_entry {
  parent_inode : Z;
  offset : Z;
  dentry : dentry_t;
}.

Record dcache := mk_dcache {
  dcache_table : option (list (list dcache_entry));   (* None: not allocated *)
  dcache_locked : bool;
  dcache_enabled : bool;
  allocs : list bool;
}.

Definition set_table (t : option (list (list dcache_entry))) (d : dcache) : dcache :=
  mk_dcache t (dcache_locked d) (dcache_enabled d) (allocs d).
Definition set_locked (b : bool) (d : dcache) : dcache :=
  mk_dcache (dcache_table d) b (dcache_enabled d) (allocs d).
Definition set_enabled (b : bool) (d : dcache) : dcache :=
  mk_dcache (dcache_table d) (dcache_locked d) b (allocs d).

Abbreviation DM := (M dcache).

(** ** Primitives *)
Definition spin_lock_acquire : DM unit :=
  l <- gets dcache_locked ;;
  asserts (negb l) "dcache_lock: deadlock" ;;
  modify (set_locked true).
Definition spin_lock_release : DM unit := modify (set_locked false).

(** Did [kmalloc] return a block? *)
Definition kmalloc_ok : DM bool := fun d =>
  match allocs d with
  | [] => Ok (true, d)
  | b :: bs => Ok (b, mk_dcache (dcache_table d) (dcache_locked d) (dcache_enabled d) bs)
  end.

(** ** Hash *)
Definition FNV_PRIME : Z := 16777619.

(** [for (; i < MAX_FILE_NAME && name[i]; i++)]; the hash and the final [i]. *)
Fixpoint hash_loop (n : nat) (name : Z → Z) (hash i : Z) : Z * Z :=
  match n with
  | O => (hash, i)
  | S n =>
      if (i <? MAX_FILE_NAME) && negb (name i =? 0)
      then hash_loop n name (u32 (Z.lxor hash (u8 (name i)) * FNV_PRIME)) (i + 1)
      else (hash, i)
  end.

Definition dcache_hash (parent_inode : Z) (name : Z → Z) : Z :=
  let '(hash, i) := hash_loop (Z.to_nat MAX_FILE_NAME) name (Z.lxor 2166136261 (u32 parent_inode)) 0 in
  let hash := u32 (Z.lxor hash i * FNV_PRIME) in
  Z.land hash (DENTRY_CACHE_BUCKETS - 1).

(** The match of the loops: [entry->parent_inode == parent_inode &&
    strncmp(entry->dentry.name, name, MAX_FILE_NAME) == 0]. *)
Definition entry_matches (parent : Z) (nm : list Z) (e : dcache_entry) : bool :=
  (parent_inode e =? parent) && (strncmp (bytes (name (dentry e))) (bytes nm) MAX_FILE_NAME =? 0).

(** ** Operations *)
Definition load_bucket (b : Z) : DM (list dcache_entry) := fun d =>
  match dcache_table d with
  | Some t => match t !! Z.to_nat b with Some c => Ok (c, d) | None => Panic "fault" end
  | None => Panic "fault"
  end.
Definition store_bucket (b : Z) (c : list dcache_entry) : DM unit :=
  modify (fun d => set_table (option_map (fun t => <[Z.to_nat b := c]> t) (dcache_table d)) d).

(** A loop over all the buckets. *)
Definition map_buckets (f : list dcache_entry → list dcache_entry) : DM unit :=
  modify (fun d => set_table (option_map (List.map f) (dcache_table d)) d).

Definition dcache_reset : DM unit :=
  t <- gets dcache_table ;;
  match t with
  | None => ret tt
  | Some _ =>
      spin_lock_acquire ;;
      map_buckets (fun _ => []) ;;
      spin_lock_release
  end.

Definition init_dentry_cache : DM unit :=
  t <- gets dcache_table ;;
  (match t with
   | None =>
       ok <- kmalloc_ok ;;
       asserts ok "dentry cache allocation failed" ;;
       modify (set_locked false) ;;
       modify (set_table (Some (replicate (Z.to_nat DENTRY_CACHE_BUCKETS) [])))
   | Some _ => dcache_reset
   end) ;;
  spin_lock_acquire ;;
  modify (set_enabled true) ;;
  spin_lock_release.

Definition dcache_get (parent : Z) (nm : list Z) : DM (option (dentry_t * Z)) :=
  t <- gets dcache_table ;;
  match t with
  | None => ret None
  | Some _ =>
      let bucket := dcache_hash parent (bytes nm) in
      spin_lock_acquire ;;
      en <- gets dcache_enabled ;;
      if negb en then spin_lock_release ;; ret None else
      chain <- load_bucket bucket ;;
      match list_find (fun e => entry_matches parent nm e = true) chain with
      | Some (_, e) => spin_lock_release ;; ret (Some (dentry e, offset e))
      | None => spin_lock_release ;; ret None
      end
  end.

Definition dcache_put (parent : Z) (entry : dentry_t) (off : Z) : DM unit :=
  t <- gets dcache_table ;;
  match t with
  | None => ret tt
  | Some _ =>
      if inode_num entry =? 0 then ret tt else
      let bucket := dcache_hash parent (bytes (name entry)) in
      spin_lock_acquire ;;
      en <- gets dcache_enabled ;;
      if negb en then spin_lock_release else
      chain <- load_bucket bucket ;;
      match list_find (fun e => entry_matches parent (name entry) e = true) chain with
      | Some (i, e) =>
          store_bucket bucket (<[i := mk_entry (parent_inode e) off entry]> chain) ;;
          spin_lock_release
      | None =>
          ok <- kmalloc_ok ;;
          if negb ok then spin_lock_release else
          store_bucket bucket (mk_entry parent off entry :: chain) ;;
          spin_lock_release
      end
  end.

Definition dcache_remove (parent : Z) (nm : list Z) : DM unit :=
  t <- gets dcache_table ;;
  match t with
  | None => ret tt
  | Some _ =>
      let bucket := dcache_hash parent (bytes nm) in
      spin_lock_acquire ;;
      en <- gets dcache_enabled ;;
      if negb en then spin_lock_release else
      chain <- load_bucket bucket ;;
      (match list_find (fun e => entry_matches parent nm e = true) chain with
       | Some (i, _) => store_bucket bucket (delete i chain)
       | None => ret tt
       end) ;;
      spin_lock_release
  end.

Definition dcache_invalidate (parent : Z) : DM unit :=
  t <- gets dcache_table ;;
  match t with
  | None => ret tt
  | Some _ =>
      spin_lock_acquire ;;
      en <- gets dcache_enabled ;;
      if negb en then spin_lock_release else
      map_buckets (filter (fun e => parent_inode e ≠ parent)) ;;
      spin_lock_release
  end.

Definition dcache_set_enabled (enabled : bool) : DM unit :=
  t <- gets dcache_table ;;
  match t with
  | None =>
      modify (set_enabled enabled) ;;
      if enabled then init_dentry_cache else ret tt
  | Some _ =>
      spin_lock_acquire ;;
      old <- gets dcache_enabled ;;
      let changed := negb (Bool.eqb old enabled) in
      modify (set_enabled enabled) ;;
      spin_lock_release ;;
      if negb enabled || changed then dcache_reset else ret tt
  end.

Definition dcache_is_enabled : DM bool :=
  t <- gets dcache_table ;;
  match t with
  | None => gets dcache_enabled
  | Some _ =>
      spin_lock_acquire ;;
      enabled <- gets dcache_enabled ;;
      spin_lock_release ;;
      ret enabled
  end.

(** ** Keys *)

(** The characters of a name that matter. *)
Definition key_name (nm : list Z) : list Z := canon (Z.to_nat MAX_FILE_NAME) nm.
Definition entry_key (e : dcache_entry) : Z * list Z := (parent_inode e, key_name (name (dentry e))).

Lemma entry_matches_iff parent nm e :
  entry_matches parent nm e = true ↔ entry_key e = (parent, key_name nm).
Proof.
  unfold entry_matches, entry_key, key_name. rewrite andb_true_iff, !Z.eqb_eq.
  rewrite (strncmp_canon MAX_FILE_NAME) by done.
  split; [by intros [-> ->] | by intros [= -> ->]].
Qed.

Lemma hash_loop_canon n nm hash i :
  0 ≤ i → Z.of_nat n + i = MAX_FILE_NAME →
  hash_loop n (bytes nm) hash i =
    (foldl (fun h c => u32 (Z.lxor h (u8 c) * FNV_PRIME)) hash (canon n (drop (Z.to_nat i) nm)),
     i + Z.of_nat (length (canon n (drop (Z.to_nat i) nm)))).
Proof.
  unfold canon. revert hash i. induction n as [|n IH]; intros hash i Hi Hn; cbn [hash_loop].
  - simpl. f_equal. lia.
  - rewrite (proj2 (Z.ltb_lt _ _)) by lia. cbn [andb]. unfold bytes at 1.
    assert (Z.to_nat (i + 1) = S (Z.to_nat i)) as Ei by lia.
    destruct (nm !! Z.to_nat i) as [c|] eqn:Ec.
    + cbn [default from_option id]. rewrite (drop_S _ _ _ Ec). cbn [take upto_nul].
      destruct (Z.eqb_spec c 0) as [->|Hc]; cbn [negb].
      * simpl. f_equal. lia.
      * rewrite IH by lia. rewrite Ei. unfold bytes. rewrite Ec. simpl. f_equal. lia.
    + rewrite drop_ge by (by apply lookup_ge_None). simpl. f_equal. lia.
Qed.

(** The bucket depends on the key alone and is in range. *)
Lemma dcache_hash_key parent nm nm' :
  key_name nm = key_name nm' → dcache_hash parent (bytes nm) = dcache_hash parent (bytes nm').
Proof. intros E. unfold dcache_hash. rewrite !hash_loop_canon by done. rewrite !drop_0. unfold key_name in E. by rewrite E. Qed.

Lemma dcache_hash_range parent f : 0 ≤ dcache_hash parent f < DENTRY_CACHE_BUCKETS.
Proof.
  unfold dcache_hash. destruct (hash_loop _ _ _ _) as [h i].
  change (DENTRY_CACHE_BUCKETS - 1) with (Z.ones 8). rewrite Z.land_ones by lia.
  by apply Z.mod_pos_bound.
Qed.

(** ** The finite map behind the table *)
Abbreviation dmap := (gmap (Z * list Z) (dentry_t * Z)).

Lemma upto_nul_length l : (length (upto_nul l) ≤ length l)%nat.
Proof. induction l as [|x l IH]; simpl; [lia|]. destruct (x =? 0); simpl; lia. Qed.

Lemma upto_nul_idemp l : upto_nul (upto_nul l) = upto_nul l.
Proof.
  induction l as [|x l IH]; simpl; [done|]. destruct (x =? 0) eqn:E; simpl; [done|]. by rewrite E, IH.
Qed.

Lemma key_name_idemp nm : key_name (key_name nm) = key_name nm.
Proof.
  unfold key_name, canon. rewrite (take_ge (upto_nul _)); [apply upto_nul_idemp|].
  etrans; [apply upto_nul_length | rewrite length_take; lia].
Qed.

(** The bucket of a key. *)
Definition hash_key (k : Z * list Z) : nat := Z.to_nat (dcache_hash k.1 (bytes k.2)).

Lemma hash_key_name p nm : hash_key (p, key_name nm) = Z.to_nat (dcache_hash p (bytes nm)).
Proof. unfold hash_key. simpl. f_equal. apply dcache_hash_key, key_name_idemp. Qed.

Lemma hash_key_lt k : (hash_key k < Z.to_nat DENTRY_CACHE_BUCKETS)%nat.
Proof. unfold hash_key. pose proof (dcache_hash_range k.1 (bytes k.2)). lia. Qed.

Definition entry_val (e : dcache_entry) : dentry_t * Z := (dentry e, offset e).

(** A well-formed chain of bucket [i]. *)
Definition chain_ok (i : nat) (c : list dcache_entry) : Prop :=
  NoDup (entry_key <$> c) ∧ ∀ e, e ∈ c → hash_key (entry_key e) = i.

(** The table [t] holds the map [m]. *)
Record table_map (t : list (list dcache_entry)) (m : dmap) : Prop := {
  tm_length : length t = Z.to_nat DENTRY_CACHE_BUCKETS;
  tm_chain i c : t !! i = Some c → chain_ok i c;
  tm_map k v : m !! k = Some v ↔
    ∃ c e, t !! hash_key k = Some c ∧ e ∈ c ∧ entry_key e = k ∧ v = entry_val e;
}.

(** What the cache promises: unlocked, and a map when it is allocated; nothing
    is cached while it is disabled. *)
Definition dcache_holds (d : dcache) (m : dmap) : Prop :=
  dcache_locked d = false ∧ (dcache_enabled d = false → m = ∅) ∧
  match dcache_table d with Some t => table_map t m | None => m = ∅ end.

(** The map is determined by the table. *)
Lemma dcache_holds_inj d m1 m2 : dcache_holds d m1 → dcache_holds d m2 → m1 = m2.
Proof.
  intros (_ & _ & H1) (_ & _ & H2). destruct (dcache_table d) as [t|]; [|congruence].
  apply map_eq. intros k. apply option_eq. intros v. by rewrite (tm_map _ _ H1), (tm_map _ _ H2).
Qed.

Lemma table_map_empty : table_map (replicate (Z.to_nat DENTRY_CACHE_BUCKETS) []) ∅.
Proof.
  split; [apply length_replicate | |].
  - intros i c [-> _]%lookup_replicate. split; [constructor | set_solver].
  - intros k v. rewrite lookup_empty. split; [done|]. intros (c & e & Hc & He & _).
    apply lookup_replicate in Hc as [-> _]. set_solver.
Qed.

(** Replacing the chain of one bucket. *)
Lemma table_map_store t m m' i c c' :
  table_map t m → t !! i = Some c → chain_ok i c' →
  (∀ k, hash_key k ≠ i → m' !! k = m !! k) →
  (∀ k v, hash_key k = i → m' !! k = Some v ↔ ∃ e, e ∈ c' ∧ entry_key e = k ∧ v = entry_val e) →
  table_map (<[i := c']> t) m'.
Proof.
  intros [H1 H2 H3] Hi Hok Hne Heq. pose proof (lookup_lt_Some _ _ _ Hi) as Hlt. split.
  - by rewrite length_insert.
  - intros j c0 [(-> & -> & _)|[? ?]]%list_lookup_insert_Some; eauto.
  - intros k v. destruct (decide (hash_key k = i)) as [Ek|Ek].
    + rewrite Heq, Ek by done. rewrite list_lookup_insert_eq by done. naive_solver.
    + rewrite Hne, H3 by done. by rewrite list_lookup_insert_ne.
Qed.

(** Chains seen from a key: at most one node. *)
Lemma chain_find i c p nm :
  chain_ok i c →
  match list_find (fun e => entry_matches p nm e = true) c with
  | Some (j, e) => c !! j = Some e ∧ entry_key e = (p, key_name nm) ∧
      ∀ e', e' ∈ c → entry_key e' = (p, key_name nm) → e' = e
  | None => ∀ e, e ∈ c → entry_key e ≠ (p, key_name nm)
  end.
Proof.
  intros [Hnd _]. destruct (list_find _ c) as [[j e]|] eqn:E.
  - apply list_find_Some in E as (Hj & Hm%entry_matches_iff & _). split_and!; [done..|].
    intros e' He' Hk. apply list_elem_of_lookup_1 in He' as [j' Hj'].
    assert (j' = j) as ->; [|congruence].
    eapply NoDup_lookup; [exact Hnd | |]; rewrite list_lookup_fmap.
    + rewrite Hj'. simpl. by rewrite Hk.
    + rewrite Hj. simpl. by rewrite Hm.
  - apply list_find_None in E. rewrite Forall_forall in E. intros e He Hk.
    apply (E e He). by apply entry_matches_iff.
Qed.

(** ** Each operation on the map *)
Lemma lock_run d : dcache_locked d = false → spin_lock_acquire d = Ok (tt, set_locked true d).
Proof. intros E. unfold spin_lock_acquire, gets, modify, asserts. cbn [bind]. by rewrite E. Qed.

Lemma unlock_lock d : dcache_locked d = false → set_locked false (set_locked true d) = d.
Proof. destruct d; simpl. by intros ->. Qed.

Lemma reset_run d m :
  dcache_locked d = false → match dcache_table d with Some t => table_map t m | None => True end →
  ∃ d', dcache_reset d = Ok (tt, d') ∧ dcache_holds d' ∅ ∧ dcache_enabled d' = dcache_enabled d.
Proof.
  intros Hl Ht. unfold dcache_reset, gets. cbn [bind].
  destruct (dcache_table d) as [t|] eqn:Et.
  - rewrite (bind_Ok _ _ _ _ _ (lock_run d Hl)). eexists. split_and!; [done | | done].
    split_and!; [done..|]. cbn. rewrite Et. cbn.
    replace (List.map (fun _ => []) t) with (replicate (Z.to_nat DENTRY_CACHE_BUCKETS) ([] : list dcache_entry)).
    + apply table_map_empty.
    + rewrite <- (tm_length _ _ Ht). clear. induction t; simpl; congruence.
  - exists d. split_and!; [done | | done]. split_and!; [done..|]. by rewrite Et.
Qed.

Lemma init_run d m :
  dcache_holds d m → (dcache_table d = None → hd true (allocs d) = true) →
  ∃ d', init_dentry_cache d = Ok (tt, d') ∧ dcache_holds d' ∅ ∧ dcache_enabled d' = true.
Proof.
  intros Hd Hal. unfold init_dentry_cache, gets. cbn [bind].
  destruct (dcache_table d) as [t|] eqn:Et.
  - destruct Hd as (Hl & _ & Ht). rewrite Et in Ht.
    destruct (reset_run d m Hl) as (d1 & R1 & (Hl1 & _ & Ht1) & _); [by rewrite Et|]. rewrite (bind_Ok _ _ _ _ _ R1).
    rewrite (bind_Ok _ _ _ _ _ (lock_run d1 Hl1)). eexists. split_and!; done.
  - specialize (Hal eq_refl).
    assert (∃ d1, kmalloc_ok d = Ok (true, d1)) as (d1 & R1).
    { unfold kmalloc_ok. destruct (allocs d) as [|b bs]; [eauto|]. simpl in Hal. subst. eauto. }
    rewrite (bind_Ok (bind kmalloc_ok _) _ d tt
      (set_table (Some (replicate (Z.to_nat DENTRY_CACHE_BUCKETS) [])) (set_locked false d1)));
      [|by rewrite (bind_Ok _ _ _ _ _ R1)].
    erewrite bind_Ok; [|by apply lock_run]. eexists. split_and!; [done | | done].
    split_and!; [done..|]. apply table_map_empty.
Qed.

(** A get finds what the map holds. *)
Lemma get_run d m p nm :
  dcache_holds d m → ∃ d', dcache_get p nm d = Ok (m !! (p, key_name nm), d') ∧ dcache_holds d' m ∧
    dcache_table d' = dcache_table d ∧ dcache_enabled d' = dcache_enabled d.
Proof.
  intros (Hl & He & Ht). unfold dcache_get, gets. cbn [bind].
  destruct (dcache_table d) as [t|] eqn:Et.
  2: { exists d. subst. rewrite lookup_empty. split_and!; try done. split_and!; [done..|]. by rewrite Et. }
  rewrite (bind_Ok _ _ _ _ _ (lock_run d Hl)). cbn [bind dcache_enabled set_locked].
  destruct (dcache_enabled d) eqn:Een; cbn [negb].
  2: { specialize (He eq_refl). subst. eexists. rewrite lookup_empty.
       split_and!; [done | | done | done]. split_and!; [done..|]. cbn. by rewrite Et. }
  pose proof (unlock_lock d Hl) as Ed.
  destruct (lookup_lt_is_Some_2 t (hash_key (p, key_name nm))) as [c Hc].
  { rewrite (tm_length _ _ Ht). apply hash_key_lt. }
  rewrite hash_key_name in Hc. unfold load_bucket. unfold bind at 1. cbn [dcache_table set_locked].
  rewrite Et, Hc. pose proof (chain_find _ _ p nm (tm_chain _ _ Ht _ _ Hc)) as Hfind.
  exists d. assert (dcache_holds d m) by (split_and!; [done | by rewrite Een | by rewrite Et]).
  destruct (list_find _ c) as [[j e]|].
  - destruct Hfind as (Hj & Hk & _). unfold spin_lock_release, modify, ret, bind. rewrite Ed.
    split_and!; [|done..]. do 2 f_equal. symmetry. apply (tm_map _ _ Ht). exists c, e.
    rewrite hash_key_name. split_and!; [done | by eapply list_elem_of_lookup_2 | done | done].
  - unfold spin_lock_release, modify, ret, bind. rewrite Ed. split_and!; [|done..].
    do 2 f_equal. symmetry. apply eq_None_not_Some. intros [v Hv]. apply (tm_map _ _ Ht) in Hv as (c' & e & Hc' & He' & Hk & _).
    rewrite hash_key_name in Hc'. apply (Hfind e); congruence.
Qed.

(** The bucket of a name, with the lock held. *)
Lemma bucket_run d m p nm t al :
  dcache_holds d m → dcache_table d = Some t →
  ∃ c, t !! hash_key (p, key_name nm) = Some c ∧ chain_ok (hash_key (p, key_name nm)) c ∧
    load_bucket (dcache_hash p (bytes nm)) (mk_dcache (Some t) true (dcache_enabled d) al) =
      Ok (c, mk_dcache (Some t) true (dcache_enabled d) al).
Proof.
  intros (_ & _ & Ht) Et. rewrite Et in Ht.
  destruct (lookup_lt_is_Some_2 t (hash_key (p, key_name nm))) as [c Hc].
  { rewrite (tm_length _ _ Ht). apply hash_key_lt. }
  exists c. split_and!; [done | by eapply tm_chain|].
  unfold load_bucket. cbn. rewrite <- hash_key_name. by rewrite Hc.
Qed.

(** In a chain, replacing the node of a key. *)
Lemma chain_replace i c j e e' :
  chain_ok i c → c !! j = Some e → entry_key e' = entry_key e → chain_ok i (<[j := e']> c).
Proof.
  intros [Hnd Hh] Hj Hk. assert (entry_key <$> <[j := e']> c = entry_key <$> c) as E.
  { rewrite list_fmap_insert. apply list_insert_id. rewrite list_lookup_fmap, Hj. simpl. by rewrite Hk. }
  split; [by rewrite E|]. intros x Hx. apply list_elem_of_lookup_1 in Hx as [q Hq].
  apply list_lookup_insert_Some in Hq as [(-> & -> & _)|[_ Hq]].
  - rewrite Hk. apply Hh. by eapply list_elem_of_lookup_2.
  - apply Hh. by eapply list_elem_of_lookup_2.
Qed.

(** A new node at the front. *)
Lemma chain_cons i c e :
  chain_ok i c → hash_key (entry_key e) = i → (∀ x, x ∈ c → entry_key x ≠ entry_key e) → chain_ok i (e :: c).
Proof.
  intros [Hnd Hh] He Hfresh. split.
  - simpl. apply NoDup_cons. split; [|done]. intros (x & Hxk & Hx)%list_elem_of_fmap. by apply (Hfresh x Hx).
  - intros x [->|Hx]%elem_of_cons; [done | by apply Hh].
Qed.

(** The chain with the node [e] of the key replaced by [e']. *)
Lemma replace_elem i c j e e' x :
  chain_ok i c → c !! j = Some e → entry_key e' = entry_key e →
  x ∈ <[j := e']> c ↔ x = e' ∨ (x ∈ c ∧ entry_key x ≠ entry_key e).
Proof.
  intros [Hnd _] Hj Ek. split.
  - intros [q Hq]%list_elem_of_lookup_1.
    apply list_lookup_insert_Some in Hq as [(_ & -> & _)|[Hne Hq]]; [by left|right].
    split; [by eapply list_elem_of_lookup_2|]. intros Hk. apply Hne.
    eapply NoDup_lookup; [exact Hnd | |]; rewrite list_lookup_fmap; [rewrite Hj | rewrite Hq]; simpl; by rewrite ?Hk.
  - intros [->|[Hx Hne]].
    + eapply (list_elem_of_lookup_2 _ j). apply list_lookup_insert_eq. by eapply lookup_lt_Some.
    + apply list_elem_of_lookup_1 in Hx as [q Hq]. apply (list_elem_of_lookup_2 _ q).
      rewrite list_lookup_insert_ne; [done|]. intros ->. apply Hne. congruence.
Qed.

(** A chain that differs from the old one in the node of key [k] only. *)
Lemma table_map_put t m k c c' e :
  table_map t m → t !! hash_key k = Some c → chain_ok (hash_key k) c' → entry_key e = k →
  (∀ x, x ∈ c' ↔ x = e ∨ (x ∈ c ∧ entry_key x ≠ k)) →
  table_map (<[hash_key k := c']> t) (<[k := entry_val e]> m).
Proof.
  intros Ht Hc Hok Ek Hin. eapply table_map_store; [done | done | done | |].
  - intros k' Hk'. rewrite lookup_insert_ne; [done|]. congruence.
  - intros k' v Hk'. destruct (decide (k = k')) as [<-|Hne].
    + rewrite lookup_insert_eq. split.
      * intros [= <-]. exists e. rewrite Hin. auto.
      * intros (x & [->|[_ ?]]%Hin & Hxk & ->); [done | congruence].
    + rewrite lookup_insert_ne, (tm_map _ _ Ht) by done. rewrite Hk'. split.
      * intros (c0 & x & Hc' & Hx & Hxk & ->). exists x. rewrite Hin.
        split_and!; [right; split; congruence | done | done].
      * intros (x & [->|[Hx _]]%Hin & Hxk & ->); [congruence | eauto 10].
Qed.

(** A put changes the value of a cached name, and adds a new one unless the
    allocation fails. *)
Lemma put_run d m p en off :
  dcache_holds d m →
  ∃ d' m', dcache_put p en off d = Ok (tt, d') ∧ dcache_holds d' m' ∧
    dcache_enabled d' = dcache_enabled d ∧ (is_Some (dcache_table d') ↔ is_Some (dcache_table d)) ∧
    (m' = <[(p, key_name (name en)) := (en, off)]> m ∨
     m' = m ∧ (dcache_table d = None ∨ dcache_enabled d = false ∨ inode_num en = 0 ∨
               (m !! (p, key_name (name en)) = None ∧ hd true (allocs d) = false))).
Proof.
  intros Hd. pose proof Hd as (Hl & He & Ht). unfold dcache_put, gets. cbn [bind].
  destruct (dcache_table d) as [t|] eqn:Et; [|exists d, m; rewrite Et; naive_solver].
  destruct (Z.eqb_spec (inode_num en) 0) as [H0|H0]; [exists d, m; rewrite Et; naive_solver|].
  rewrite (bind_Ok _ _ _ _ _ (lock_run d Hl)). cbn [bind dcache_enabled set_locked].
  destruct (dcache_enabled d) eqn:Een; cbn [negb].
  2: { exists d, m. unfold spin_lock_release, modify. rewrite unlock_lock by done.
       rewrite Een, Et. split_and!; [done | done | done | done | right; auto]. }
  destruct (bucket_run d m p (name en) t (allocs d) Hd Et) as (c & Hc & Hok & R).
  rewrite Een in R. assert (set_locked true d = mk_dcache (Some t) true true (allocs d)) as ->
    by (by destruct d; simpl in *; subst).
  rewrite (bind_Ok _ _ _ _ _ R). pose proof (chain_find _ _ p (name en) Hok) as Hfind.
  set (k := (p, key_name (name en))) in *. destruct (list_find _ c) as [[j e]|].
  - destruct Hfind as (Hj & Hk & _). eexists _, (<[k := (en, off)]> m).
    split_and!; [done | | done | by split; cbn; eauto | by left]. split_and!; [done | done |]. cbn.
    rewrite <- hash_key_name. fold k. set (e' := mk_entry (parent_inode e) off en).
    assert (entry_key e' = k) as Ek' by (unfold entry_key in Hk |- *; simpl; by injection Hk as -> _).
    apply (table_map_put t m k c _ e'); [done | done | | done |].
    + eapply chain_replace; [done | done|]. congruence.
    + intros x. rewrite <- Hk. eapply replace_elem; [done | done | congruence].
  - assert (m !! k = None) as Hnone.
    { apply eq_None_not_Some. intros [v Hv]. apply (tm_map _ _ Ht) in Hv as (c' & e & Hc' & He' & Hk & _).
      apply (Hfind e); congruence. }
    assert (∃ b al, kmalloc_ok (mk_dcache (Some t) true true (allocs d)) =
      Ok (b, mk_dcache (Some t) true true al) ∧ b = hd true (allocs d)) as (b & al & Rk & Eb).
    { unfold kmalloc_ok. simpl. destruct (allocs d); eauto. }
    rewrite (bind_Ok _ _ _ _ _ Rk). destruct b; cbn [negb].
    + eexists _, (<[k := (en, off)]> m).
      split_and!; [done | | done | by split; cbn; eauto | by left]. split_and!; [done | done |]. cbn.
      rewrite <- hash_key_name. fold k.
      apply (table_map_put t m k c _ (mk_entry p off en)); [done | done | by apply chain_cons | done |].
      intros x. rewrite elem_of_cons. naive_solver.
    + eexists _, m. by split_and!; [done | | done | by split; cbn; eauto | right; auto 10].
Qed.

Lemma remove_run d m p nm :
  dcache_holds d m →
  ∃ d', dcache_remove p nm d = Ok (tt, d') ∧ dcache_holds d' (delete (p, key_name nm) m) ∧
    dcache_enabled d' = dcache_enabled d.
Proof.
  intros Hd. pose proof Hd as (Hl & He & Ht). unfold dcache_remove, gets. cbn [bind].
  destruct (dcache_table d) as [t|] eqn:Et.
  2: { exists d. subst. rewrite delete_empty. split_and!; done. }
  rewrite (bind_Ok _ _ _ _ _ (lock_run d Hl)). cbn [bind dcache_enabled set_locked].
  destruct (dcache_enabled d) eqn:Een; cbn [negb].
  2: { exists d. unfold spin_lock_release, modify. rewrite unlock_lock by done. specialize (He eq_refl). subst.
       rewrite delete_empty. done. }
  destruct (bucket_run d m p nm t (allocs d) Hd Et) as (c & Hc & Hok & R).
  rewrite Een in R. assert (set_locked true d = mk_dcache (Some t) true true (allocs d)) as ->
    by (by destruct d; simpl in *; subst).
  rewrite (bind_Ok _ _ _ _ _ R). pose proof (chain_find _ _ p nm Hok) as Hfind.
  set (k := (p, key_name nm)) in *. destruct (list_find _ c) as [[j e]|].
  - destruct Hfind as (Hj & Hk & Huniq). eexists. split_and!; [done | | done].
    split_and!; [done | done |]. cbn. rewrite <- hash_key_name. fold k.
    assert (c ≡ₚ e :: delete j c) as Hperm by (by apply delete_Permutation).
    destruct Hok as [Hnd Hh]. pose proof Hnd as Hnd'. rewrite Hperm in Hnd'. simpl in Hnd'.
    apply NoDup_cons in Hnd' as [Hnot Hnd'].
    eapply table_map_store; [done | done | | |].
    + split; [done|]. intros x Hx. apply Hh. rewrite Hperm. by right.
    + intros k' Hk'. rewrite lookup_delete_ne; [done|]. congruence.
    + intros k' v Hk'. destruct (decide (k = k')) as [<-|Hne].
      * rewrite lookup_delete_eq. split; [done|]. intros (x & Hx & Hxk & _). exfalso. apply Hnot.
        apply list_elem_of_fmap. exists x. split; congruence.
      * rewrite lookup_delete_ne, (tm_map _ _ Ht) by done. rewrite Hk'. split.
        -- intros (c' & x & Hc' & Hx & Hxk & ->). assert (c' = c) as -> by congruence.
           rewrite Hperm in Hx. apply elem_of_cons in Hx as [->|Hx]; [congruence | eauto].
        -- intros (x & Hx & Hxk & ->). exists c, x. split_and!; [done | | done | done].
           rewrite Hperm. by right.
  - eexists. split_and!; [done | | done]. split_and!; [done | done |]. cbn.
    rewrite delete_id; [done|]. apply eq_None_not_Some. intros [v Hv].
    apply (tm_map _ _ Ht) in Hv as (c' & e & Hc' & He' & Hk & _). apply (Hfind e); congruence.
Qed.

Lemma invalidate_run d m p :
  dcache_holds d m →
  ∃ d', dcache_invalidate p d = Ok (tt, d') ∧ dcache_holds d' (filter (fun kv => kv.1.1 ≠ p) m) ∧
    dcache_enabled d' = dcache_enabled d.
Proof.
  intros Hd. pose proof Hd as (Hl & He & Ht). unfold dcache_invalidate, gets. cbn [bind].
  destruct (dcache_table d) as [t|] eqn:Et.
  2: { exists d. subst. rewrite map_filter_empty. split_and!; done. }
  rewrite (bind_Ok _ _ _ _ _ (lock_run d Hl)). cbn [bind dcache_enabled set_locked].
  destruct (dcache_enabled d) eqn:Een; cbn [negb].
  2: { exists d. unfold spin_lock_release, modify. rewrite unlock_lock by done. specialize (He eq_refl). subst.
       by rewrite map_filter_empty. }
  eexists. split_and!; [done | | by cbn]. split_and!; [done | by cbn; rewrite Een |]. cbn. rewrite Et. cbn.
  change (List.map ?f t) with (f <$> t). destruct Ht as [H1 H2 H3]. split.
  - by rewrite length_fmap.
  - intros i c Hi. rewrite list_lookup_fmap in Hi. apply fmap_Some in Hi as (c0 & Hi & ->).
    destruct (H2 _ _ Hi) as [Hnd Hh]. split.
    + eapply sublist_NoDup; [exact Hnd|]. apply fmap_sublist, sublist_filter.
    + intros e [_ He']%list_elem_of_filter. by apply Hh.
  - intros k v. rewrite map_lookup_filter_Some, H3, list_lookup_fmap. simpl. split.
    + intros [(c & e & Hc & Hin & Hk & ->) Hp]. rewrite Hc. simpl. eexists _, e.
      split_and!; [done | | done | done]. apply list_elem_of_filter. split; [|done]. by subst k.
    + intros (c & e & (c0 & Hc & ->)%fmap_Some & [Hp Hin]%list_elem_of_filter & Hk & ->).
      split; [eauto 10 | by subst k].
Qed.

Lemma set_enabled_run d m b :
  dcache_holds d m → (dcache_table d = None → hd true (allocs d) = true) →
  ∃ d', dcache_set_enabled b d = Ok (tt, d') ∧ dcache_enabled d' = b ∧
    dcache_holds d' (if b && dcache_enabled d then m else ∅).
Proof.
  intros Hd Hal. pose proof Hd as (Hl & He & Ht). unfold dcache_set_enabled, gets. cbn [bind].
  destruct (dcache_table d) as [t|] eqn:Et.
  - rewrite (bind_Ok _ _ _ _ _ (lock_run d Hl)). cbn [bind].
    set (d1 := set_locked false (set_enabled b (set_locked true d))).
    assert (dcache_table d1 = Some t) as Et1 by (by unfold d1; cbn).
    unfold modify at 1, spin_lock_release, modify at 1. cbn [bind]. fold d1.
    replace (dcache_enabled (set_locked true d)) with (dcache_enabled d) by done.
    destruct (reset_run d1 m) as (d2 & R2 & Hd2 & E2); [done | by rewrite Et1|].
    destruct (dcache_enabled d) eqn:Een, b; cbn [andb negb orb Bool.eqb].
    + exists d1. split_and!; [done | done |]. split_and!; [done | done | by rewrite Et1].
    + exists d2. split_and!; [done | by rewrite E2 | done].
    + exists d2. split_and!; [done | by rewrite E2 | done].
    + exists d2. split_and!; [done | by rewrite E2 | done].
  - subst m. unfold modify at 1. cbn [bind]. destruct b; cbn [andb].
    + destruct (init_run (set_enabled true d) ∅) as (d' & R & Hd' & E').
      * split_and!; [done | done |]. cbn. by rewrite Et.
      * intros _. by apply Hal.
      * exists d'. split_and!; [done | done |]. by destruct (dcache_enabled d).
    + eexists. split_and!; [done | done |]. split_and!; [done | done |]. cbn. by rewrite Et.
Qed.

(** ** The cache against the map *)
Inductive dop :=
| DGet (p : Z) (nm : list Z)
| DPut (p : Z) (en : dentry_t) (off : Z)
| DRemove (p : Z) (nm : list Z)
| DInvalidate (p : Z)
| DReset
| DEnable (b : bool)
| DInit.

Definition dop_run (op : dop) : DM (option (dentry_t * Z)) :=
  match op with
  | DGet p nm => dcache_get p nm
  | DPut p en off => dcache_put p en off ;; ret None
  | DRemove p nm => dcache_remove p nm ;; ret None
  | DInvalidate p => dcache_invalidate p ;; ret None
  | DReset => dcache_reset ;; ret None
  | DEnable b => dcache_set_enabled b ;; ret None
  | DInit => init_dentry_cache ;; ret None
  end.

(** The result and the next map; only a put of a new name may be dropped, and
    only when the cache is off, the entry is void or the allocation fails. *)
Definition dop_spec (d : dcache) (m : dmap) (op : dop) (r : option (dentry_t * Z)) (m' : dmap) : Prop :=
  match op with
  | DGet p nm => r = m !! (p, key_name nm) ∧ m' = m
  | DPut p en off => r = None ∧
      (m' = <[(p, key_name (name en)) := (en, off)]> m ∨
       m' = m ∧ (dcache_table d = None ∨ dcache_enabled d = false ∨ inode_num en = 0 ∨
                 (m !! (p, key_name (name en)) = None ∧ hd true (allocs d) = false)))
  | DRemove p nm => r = None ∧ m' = delete (p, key_name nm) m
  | DInvalidate p => r = None ∧ m' = filter (fun kv => kv.1.1 ≠ p) m
  | DReset | DInit => r = None ∧ m' = ∅
  | DEnable b => r = None ∧ m' = if b && dcache_enabled d then m else ∅
  end.

(** C14 The hash table is a finite map from (parent inode, name cut at 28
    characters) to (entry, offset): every operation returns, leaves the lock
    free and the table well formed, and acts as the operation of the map. *)
Theorem dcache_refines_map d m op :
  dcache_holds d m → (dcache_table d = None → hd true (allocs d) = true) →
  ∃ r d' m', dop_run op d = Ok (r, d') ∧ dcache_holds d' m' ∧ dop_spec d m op r m'.
Proof.
  intros Hd Hal. destruct op as [p nm|p en off|p nm|p| |b|]; simpl.
  - destruct (get_run d m p nm Hd) as (d' & R & Hd' & _). eauto 10.
  - destruct (put_run d m p en off Hd) as (d' & m' & R & Hd' & _ & _ & Hcase).
    exists None, d', m'. by rewrite (bind_Ok _ _ _ _ _ R).
  - destruct (remove_run d m p nm Hd) as (d' & R & Hd' & _).
    exists None, d', (delete (p, key_name nm) m). by rewrite (bind_Ok _ _ _ _ _ R).
  - destruct (invalidate_run d m p Hd) as (d' & R & Hd' & _).
    eexists None, d', _. rewrite (bind_Ok _ _ _ _ _ R). eauto.
  - destruct Hd as (Hl & He & Ht). destruct (reset_run d m Hl) as (d' & R & Hd' & _).
    { by destruct (dcache_table d). }
    exists None, d', ∅. by rewrite (bind_Ok _ _ _ _ _ R).
  - destruct (set_enabled_run d m b Hd Hal) as (d' & R & _ & Hd').
    eexists None, d', _. rewrite (bind_Ok _ _ _ _ _ R). eauto.
  - destruct (init_run d m Hd Hal) as (d' & R & Hd' & _).
    exists None, d', ∅. by rewrite (bind_Ok _ _ _ _ _ R).
Qed.

(** A cache that holds "bin" of inode 1, and the lookup of a longer spelling. *)
Definition demo_bin : dentry_t := mk_dentry ([98; 105; 110] ++ replicate 25 0) 7.
Definition demo_dcache : dcache :=
  match (init_dentry_cache ;; dcache_put 1 demo_bin 64) (mk_dcache None false true []) with
  | Ok (_, d) => d | _ => mk_dcache None false true [] end.

Lemma demo_dcache_holds : dcache_holds demo_dcache {[(1, [98; 105; 110]) := (demo_bin, 64)]}.
Proof.
  destruct (init_run (mk_dcache None false true []) ∅) as (d1 & R1 & H1 & E1); [done | done |].
  destruct (put_run d1 ∅ 1 demo_bin 64 H1) as (d2 & m2 & R2 & H2 & _ & _ & Hm).
  assert (demo_dcache = d2) as Ed.
  { unfold demo_dcache. by rewrite (bind_Ok _ _ _ _ _ R1), R2. }
  rewrite Ed. destruct Hm as [->|[-> Hbad]]; [done|].
  exfalso. injection R1 as E. subst d1. vm_compute in Hbad. naive_solver.
Qed.

Lemma dcache_refines_map_witness :
  ∃ d', dcache_get 1 [98; 105; 110; 0; 120] demo_dcache = Ok (Some (demo_bin, 64), d').
Proof.
  destruct (dcache_refines_map demo_dcache _ (DGet 1 [98; 105; 110; 0; 120]) demo_dcache_holds)
    as (r & d' & m' & R & _ & Hr & _); [by vm_compute|].
  exists d'. simpl in R. rewrite R, Hr. reflexivity.
Defined.
