(* ===== verification/Inode.v ===== *)
(** * kernel/fs/inode.c: inodes and file contents

    The in-memory table of 64 inodes over the block layer. An [inode_t *] is
    an index of the table. The first 64 bytes of an [inode_t] are the disk
    image; they are copied byte for byte from and to the inode blocks. *)

From S2P Require Import Prelude Bytes Block Dcache.

Definition NINODE : nat := 64.
Definition FS_TYPE_DIR : Z := 1.
Definition FS_TYPE_FILE : Z := 2.
Definition FS_TYPE_DEV : Z := 4.
Definition NUM_DIRECT_BLOCKS : Z := 10.
Definition NUM_INDIRECT_BLOCKS : Z := BLOCK_SIZE / 4.
Definition NUM_DOUBLE_INDIRECT_BLOCKS : Z := NUM_INDIRECT_BLOCKS * NUM_INDIRECT_BLOCKS.

(** ** The inode *)
Record diskinode_t := mk_dinode {
  d_type : Z;              (* uint16_t *)
  d_link_count : Z;        (* uint16_t *)
  d_inode_num : Z;         (* uint32_t *)
  d_size : Z;              (* uint32_t *)
  d_blocks : Z;            (* uint32_t *)
  d_direct : list Z;       (* int32_t[10] *)
  d_indirect : Z;          (* int32_t *)
  d_double_indirect : Z;   (* int32_t *)
}.

Record inode_t := mk_inode {
  node : diskinode_t;
  i_valid : bool;
  ref_count : Z;           (* uint16_t *)
  lock_acquired : bool;
}.

Definition set_node (n : diskinode_t) (i : inode_t) : inode_t :=
  mk_inode n (i_valid i) (ref_count i) (lock_acquired i).
Definition set_valid (v : bool) (i : inode_t) : inode_t :=
  mk_inode (node i) v (ref_count i) (lock_acquired i).
Definition set_ref (r : Z) (i : inode_t) : inode_t :=
  mk_inode (node i) (i_valid i) r (lock_acquired i).
Definition set_lock (l : bool) (i : inode_t) : inode_t :=
  mk_inode (node i) (i_valid i) (ref_count i) l.

Definition set_type (t : Z) (n : diskinode_t) : diskinode_t :=
  mk_dinode t (d_link_count n) (d_inode_num n) (d_size n) (d_blocks n) (d_direct n) (d_indirect n)
    (d_double_indirect n).
Definition set_link_count (l : Z) (n : diskinode_t) : diskinode_t :=
  mk_dinode (d_type n) l (d_inode_num n) (d_size n) (d_blocks n) (d_direct n) (d_indirect n)
    (d_double_indirect n).
Definition set_inode_num (k : Z) (n : diskinode_t) : diskinode_t :=
  mk_dinode (d_type n) (d_link_count n) k (d_size n) (d_blocks n) (d_direct n) (d_indirect n)
    (d_double_indirect n).
Definition set_size (z : Z) (n : diskinode_t) : diskinode_t :=
  mk_dinode (d_type n) (d_link_count n) (d_inode_num n) z (d_blocks n) (d_direct n) (d_indirect n)
    (d_double_indirect n).
Definition set_direct (l : list Z) (n : diskinode_t) : diskinode_t :=
  mk_dinode (d_type n) (d_link_count n) (d_inode_num n) (d_size n) (d_blocks n) l (d_indirect n)
    (d_double_indirect n).
Definition set_indirect (b : Z) (n : diskinode_t) : diskinode_t :=
  mk_dinode (d_type n) (d_link_count n) (d_inode_num n) (d_size n) (d_blocks n) (d_direct n) b
    (d_double_indirect n).
Definition set_double_indirect (b : Z) (n : diskinode_t) : diskinode_t :=
  mk_dinode (d_type n) (d_link_count n) (d_inode_num n) (d_size n) (d_blocks n) (d_direct n)
    (d_indirect n) b.

(** After [memset(inode, 0)] and the resets of the block pointers to -1. *)
Definition empty_dinode : diskinode_t := mk_dinode 0 0 0 0 0 (replicate 10 (-1)) (-1) (-1).
Definition empty_inode : inode_t := mk_inode empty_dinode false 0 false.

(** ** Layout: little-endian fields *)
Definition enc_dinode (n : diskinode_t) : list Z :=
  le 2 (d_type n) ++ le 2 (d_link_count n) ++ le 4 (d_inode_num n) ++ le 4 (d_size n) ++
  le 4 (d_blocks n) ++ mjoin (le 4 <$> d_direct n) ++ le 4 (d_indirect n) ++ le 4 (d_double_indirect n).

(** The field of [w] bytes at offset [o], and a signed one. *)
Definition field (o w : nat) (l : list Z) : Z := unle (take w (drop o l)).
Definition ifield (o : nat) (l : list Z) : Z := i32 (field o 4 l).

Definition dec_dinode (l : list Z) : diskinode_t :=
  mk_dinode (field 0 2 l) (field 2 2 l) (field 4 4 l) (field 8 4 l) (field 12 4 l)
    ((fun i => ifield (16 + 4 * i) l) <$> seq 0 10) (ifield 56 l) (ifield 60 l).

(** ** State *)
Record fstate (D : Type) := mk_fstate {
  fb : bstate D;
  inodes : list inode_t;
  fdc : dcache;
}.
Arguments mk_fstate {D} _ _ _.
Arguments fb {D} _.
Arguments inodes {D} _.
Arguments fdc {D} _.

Section Inode.

Context {D : Type} `{SectorStore D}.

Abbreviation FM := (M (fstate D)).

(** Calls into the layers below. *)
Definition liftb {A} (m : M (bstate D) A) : FM A := fun s =>
  match m (fb s) with
  | Ok (a, b) => Ok (a, mk_fstate b (inodes s) (fdc s))
  | Panic why => Panic why
  | OutOfFuel => OutOfFuel
  end.
Definition liftd {A} (m : M dcache A) : FM A := fun s =>
  match m (fdc s) with
  | Ok (a, d) => Ok (a, mk_fstate (fb s) (inodes s) d)
  | Panic why => Panic why
  | OutOfFuel => OutOfFuel
  end.

Definition get_inode (p : nat) : FM inode_t := fun s =>
  match inodes s !! p with Some i => Ok (i, s) | None => Panic "fault" end.
Definition put_inode (p : nat) (i : inode_t) : FM unit :=
  get_inode p ;; modify (fun s => mk_fstate (fb s) (<[p := i]> (inodes s)) (fdc s)).
Definition upd_inode (p : nat) (f : inode_t → inode_t) : FM unit :=
  i <- get_inode p ;; put_inode p (f i).
Definition upd_node (p : nat) (f : diskinode_t → diskinode_t) : FM unit :=
  upd_inode p (fun i => set_node (f (node i)) i).

Definition the_superblock : FM superblock_t := gets (fun s => superblock (fb s)).
Definition count_inode (f : Z → Z) : FM unit :=
  modify (fun s => mk_fstate
    (set_superblock (set_used_inode f (superblock (fb s))) (fb s)) (inodes s) (fdc s)).

(** ** Disk inodes in blocks *)
Definition INODE2BLOCK (b : superblock_t) (n : Z) : Z := i32 (inode_offset b + u32 n / INODE_PER_BLOCK).
Definition INODE2OFFSET (n : Z) : Z := u32 n mod INODE_PER_BLOCK.

(** [((diskinode_t* )blk->data)[k]] read and written. *)
Definition load_dinode (i : nat) (k : Z) : M (bstate D) diskinode_t :=
  b <- get_buf i ;; ret (dec_dinode (drop (Z.to_nat (k * sizeof_diskinode)) (data b))).
Definition splice (o : nat) (v d : list Z) : list Z := take o d ++ v ++ drop (o + length v) d.
Definition store_dinode (i : nat) (k : Z) (n : diskinode_t) : M (bstate D) unit :=
  b <- get_buf i ;;
  put_buf i (set_data (splice (Z.to_nat (k * sizeof_diskinode)) (enc_dinode n) (data b)) b).

(** [((int* )blk->data)[k]] read and written. *)
Definition load_int (i : nat) (k : Z) : M (bstate D) Z :=
  b <- get_buf i ;;
  if (0 <=? k) && (k <? NUM_INDIRECT_BLOCKS) then ret (ifield (4 * Z.to_nat k) (data b)) else panic "fault".
Definition store_int (i : nat) (k v : Z) : M (bstate D) unit :=
  b <- get_buf i ;;
  if (0 <=? k) && (k <? NUM_INDIRECT_BLOCKS)
  then put_buf i (set_data (splice (4 * Z.to_nat k) (le 4 v) (data b)) b) else panic "fault".

(** ** The table of inodes *)

(** The loop of [inode_ref]: a referenced slot of the inode, else the first
    slot of type 0. *)
Fixpoint ref_scan (l : list inode_t) (i : nat) (inode_num : Z) (empty : option nat) : nat + option nat :=
  match l with
  | [] => inr empty
  | x :: l =>
      if negb (d_type (node x) =? 0) && (d_inode_num (node x) =? inode_num) && (ref_count x >? 0)
      then inl i
      else ref_scan l (S i) inode_num
             (if (d_type (node x) =? 0) && bool_decide (empty = None) then Some i else empty)
  end.

Definition inode_ref (inode_num : Z) : FM nat :=
  tbl <- gets inodes ;;
  match ref_scan tbl 0 (u32 inode_num) None with
  | inl p => upd_inode p (fun i => set_ref (u16 (ref_count i + 1)) i) ;; ret p
  | inr (Some p) =>
      upd_inode p (fun i => set_valid false (set_ref 1 (set_node (set_inode_num (u32 inode_num) (node i)) i))) ;;
      ret p
  | inr None => panic "no free inode cache available"
  end.

(** [for (int i = 1; i < superblock.inode_count; i++)] of [inode_alloc]. *)
Fixpoint alloc_inode_loop (n : nat) (i type : Z) : FM nat :=
  b <- the_superblock ;;
  if i <? inode_count b then
    match n with
    | O => no_fuel
    | S n =>
        blk <- liftb (block_open (INODE2BLOCK b i)) ;;
        di <- liftb (load_dinode blk (INODE2OFFSET i)) ;;
        if d_type di =? 0 then
          count_inode (fun u => u32 (u + 1)) ;;
          liftb (store_dinode blk (INODE2OFFSET i)
            (mk_dinode (u16 type) 0 i 0 0 (replicate 10 (-1)) (-1) (-1))) ;;
          liftb (block_close blk) ;;
          inode_ref i
        else
          liftb (block_close blk) ;;
          alloc_inode_loop n (i + 1) type
    end
  else panic "no free inode available on disk".

Definition inode_alloc (type : Z) : FM nat :=
  asserts ((type =? FS_TYPE_FILE) || (type =? FS_TYPE_DIR) || (type =? FS_TYPE_DEV)) "invalid inode type" ;;
  b <- the_superblock ;;
  alloc_inode_loop (Z.to_nat (inode_count b)) 1 type.

(** [mutex_acquire]: a process that already holds the lock waits for itself. *)
Definition mutex_acquire (p : nat) : FM unit :=
  i <- get_inode p ;;
  asserts (negb (lock_acquired i)) "mutex_acquire: blocked on its own lock" ;;
  put_inode p (set_lock true i).

Definition inode_open (p : nat) : FM unit :=
  mutex_acquire p ;;
  i <- get_inode p ;;
  if negb (i_valid i) then
    b <- the_superblock ;;
    blk <- liftb (block_open (INODE2BLOCK b (d_inode_num (node i)))) ;;
    di <- liftb (load_dinode blk (INODE2OFFSET (d_inode_num (node i)))) ;;
    upd_inode p (set_node di) ;;
    liftb (block_close blk) ;;
    upd_inode p (set_valid true) ;;
    i <- get_inode p ;;
    asserts (negb (d_type (node i) =? 0)) "loaded inode with type 0"
  else ret tt.

Definition inode_unlock (p : nat) : FM unit :=
  i <- get_inode p ;;
  asserts (lock_acquired i) "unlock a free inode" ;;
  put_inode p (set_lock false i).

(** [memcpy(diskinode, inode, sizeof(diskinode_t))] *)
Definition write_back (p : nat) : FM unit :=
  i <- get_inode p ;;
  b <- the_superblock ;;
  blk <- liftb (block_open (INODE2BLOCK b (d_inode_num (node i)))) ;;
  liftb (store_dinode blk (INODE2OFFSET (d_inode_num (node i))) (node i)) ;;
  liftb (block_close blk).

Definition inode_clear (p : nat) : FM unit :=
  i <- get_inode p ;;
  asserts (ref_count i =? 0) "inode_clear with ref_count > 0" ;;
  (if i_valid i then write_back p else ret tt) ;;
  put_inode p empty_inode.

Definition init_inodes : FM unit :=
  foldr (fun p m => inode_clear p ;; m) (ret tt) (seq 0 NINODE).

Definition inode_sync (p : nat) : FM unit :=
  i <- get_inode p ;;
  asserts (lock_acquired i) "sync a free inode" ;;
  write_back p.

(** ** Mapping file blocks *)

(** The common tail of the indirect cases: entry [k] of the open array block
    [blk], allocated with zeroes when it is negative. *)
Definition map_entry (blk : nat) (k : Z) : M (bstate D) Z :=
  e <- load_int blk k ;;
  if e <? 0 then
    n <- block_allocset 0 ;;
    (if n >=? 0 then store_int blk k n else ret tt) ;;
    ret n
  else ret e.

Definition inode_mapblock (p : nat) (block_in_file : Z) : FM Z :=
  i <- get_inode p ;;
  if block_in_file <? NUM_DIRECT_BLOCKS then
    (if block_in_file <? 0 then panic "fault" else
     let e := default 0 (d_direct (node i) !! Z.to_nat block_in_file) in
     if e <? 0 then
       n <- liftb (block_allocset 0) ;;
       if n <? 0 then ret (-1) else
       upd_node p (fun d => set_direct (<[Z.to_nat block_in_file := n]> (d_direct d)) d) ;;
       ret n
     else ret e)
  else
  let block_in_file := block_in_file - NUM_DIRECT_BLOCKS in
  if block_in_file <? NUM_INDIRECT_BLOCKS then
    (ok <- (if d_indirect (node i) <? 0 then
              n <- liftb (block_allocset 255) ;;
              if n <? 0 then ret false else upd_node p (set_indirect n) ;; ret true
            else ret true) ;;
     if negb ok then ret (-1) else
     i <- get_inode p ;;
     blk <- liftb (block_open (d_indirect (node i))) ;;
     n <- liftb (map_entry blk block_in_file) ;;
     liftb (block_close blk) ;;
     ret n)
  else
  let block_in_file := block_in_file - NUM_INDIRECT_BLOCKS in
  asserts (block_in_file <? NUM_DOUBLE_INDIRECT_BLOCKS) "block_in_file out of range" ;;
  ok <- (if d_double_indirect (node i) <? 0 then
           n <- liftb (block_allocset 255) ;;
           if n <? 0 then ret false else upd_node p (set_double_indirect n) ;; ret true
         else ret true) ;;
  if negb ok then ret (-1) else
  i <- get_inode p ;;
  root_blk <- liftb (block_open (d_double_indirect (node i))) ;;
  let index := block_in_file / NUM_INDIRECT_BLOCKS in
  let offset := block_in_file mod NUM_INDIRECT_BLOCKS in
  e <- liftb (load_int root_blk index) ;;
  ok <- (if e <? 0 then
           direct <- liftb (block_allocset 255) ;;
           if direct <? 0 then ret false else liftb (store_int root_blk index direct) ;; ret true
         else ret true) ;;
  if negb ok then liftb (block_close root_blk) ;; ret (-1) else
  e <- liftb (load_int root_blk index) ;;
  blk <- liftb (block_open e) ;;
  n <- liftb (map_entry blk offset) ;;
  liftb (block_close blk) ;;
  liftb (block_close root_blk) ;;
  ret n.

(** ** Deleting *)

(** Free the blocks named by the entries [k], [k+1], .. of the open block. *)
Fixpoint free_entries (n : nat) (blk : nat) (k : Z) (each : Z → M (bstate D) unit) : M (bstate D) unit :=
  match n with
  | O => ret tt
  | S n =>
      e <- load_int blk k ;;
      (if e >=? 0 then each e else ret tt) ;;
      free_entries n blk (k + 1) each
  end.

Definition free_array (n : Z) : M (bstate D) unit :=
  blk <- block_open n ;;
  free_entries (Z.to_nat NUM_INDIRECT_BLOCKS) blk 0 block_free ;;
  block_close blk ;;
  block_free n.

Definition free_double (n : Z) : M (bstate D) unit :=
  root_blk <- block_open n ;;
  free_entries (Z.to_nat NUM_INDIRECT_BLOCKS) root_blk 0 free_array ;;
  block_close root_blk ;;
  block_free n.

Fixpoint free_direct (n : nat) (p : nat) (k : nat) : FM unit :=
  match n with
  | O => ret tt
  | S n =>
      i <- get_inode p ;;
      let e := default (-1) (d_direct (node i) !! k) in
      (if e >=? 0 then
         liftb (block_free e) ;; upd_node p (fun d => set_direct (<[k := -1]> (d_direct d)) d)
       else ret tt) ;;
      free_direct n p (S k)
  end.

Definition inode_delete (p : nat) : FM unit :=
  free_direct (Z.to_nat NUM_DIRECT_BLOCKS) p 0 ;;
  i <- get_inode p ;;
  (if d_indirect (node i) >=? 0 then
     liftb (free_array (d_indirect (node i))) ;; upd_node p (set_indirect (-1))
   else ret tt) ;;
  (if d_double_indirect (node i) >=? 0 then
     liftb (free_double (d_double_indirect (node i))) ;; upd_node p (set_double_indirect (-1))
   else ret tt) ;;
  upd_inode p (set_valid false) ;;
  upd_node p (set_type 0) ;;
  count_inode (fun u => u32 (u - 1)).

(** [inode_deref] and [inode_close] call each other; the inner call finds the
    inode invalid, so the depth is two. *)
Fixpoint deref_rec (depth : nat) (p : nat) : FM unit :=
  i <- get_inode p ;;
  asserts (ref_count i >? 0) "inode_close with ref_count <= 0" ;;
  (if (ref_count i =? 1) && i_valid i && (d_link_count (node i) =? 0) then
     match depth with
     | O => no_fuel
     | S depth =>
         inode_open p ;;
         inode_delete p ;;
         inode_unlock p ;;
         deref_rec depth p
     end
   else ret tt) ;;
  upd_inode p (fun i => set_ref (u16 (ref_count i - 1)) i) ;;
  i <- get_inode p ;;
  if ref_count i =? 0 then inode_clear p else ret tt.

Definition inode_deref (p : nat) : FM unit := deref_rec 1 p.
Definition inode_close (p : nat) : FM unit := inode_unlock p ;; inode_deref p.

(** ** Reading and writing *)

(** The loop of [inode_read]; the bytes delivered so far are [acc]. *)
Fixpoint read_loop (fuel : nat) (p : nat) (offset length total : Z) (acc : list Z) : FM (list Z) :=
  if total <? length then
    match fuel with
    | O => no_fuel
    | S fuel =>
        let block_in_file := offset / BLOCK_SIZE in
        let block_offset := offset mod BLOCK_SIZE in
        block_num <- inode_mapblock p block_in_file ;;
        if block_num <? 0 then ret acc else
        blk <- liftb (block_open block_num) ;;
        let chunk_size := Z.min (BLOCK_SIZE - block_offset) (length - total) in
        b <- liftb (get_buf blk) ;;
        liftb (block_close blk) ;;
        read_loop fuel p (u32 (offset + chunk_size)) length (total + chunk_size)
          (acc ++ take (Z.to_nat chunk_size) (drop (Z.to_nat block_offset) (data b)))
    end
  else ret acc.

(** The turns of a transfer of [length] bytes: one per block touched. *)
Definition io_fuel (length : Z) : nat := Z.to_nat (length / BLOCK_SIZE + 2).

Definition inode_read (p : nat) (offset length : Z) : FM (list Z) :=
  i <- get_inode p ;;
  if d_type (node i) =? FS_TYPE_DEV then panic "device without driver" else
  let size := d_size (node i) in
  if (offset >? size) || (u32 (offset + length) <? offset) then ret [] else
  let length := if u32 (offset + length) >? size then u32 (size - offset) else length in
  read_loop (io_fuel length) p offset length 0 [].

(** The loop of [inode_write]; it returns the final [offset] and [total]. *)
Fixpoint write_loop (fuel : nat) (p : nat) (src : list Z) (offset length total : Z) : FM (Z * Z) :=
  if total <? length then
    match fuel with
    | O => no_fuel
    | S fuel =>
        let block_in_file := offset / BLOCK_SIZE in
        let block_offset := offset mod BLOCK_SIZE in
        block_num <- inode_mapblock p block_in_file ;;
        if block_num <? 0 then ret (offset, total) else
        blk <- liftb (block_open block_num) ;;
        let chunk_size := Z.min (BLOCK_SIZE - block_offset) (length - total) in
        b <- liftb (get_buf blk) ;;
        liftb (put_buf blk (set_data
          (splice (Z.to_nat block_offset) (take (Z.to_nat chunk_size) src) (data b)) b)) ;;
        liftb (block_close blk) ;;
        write_loop fuel p (drop (Z.to_nat chunk_size) src) (u32 (offset + chunk_size)) length
          (total + chunk_size)
    end
  else ret (offset, total).

(** [src] holds the [length] bytes of the source buffer. *)
Definition inode_write (p : nat) (src : list Z) (offset : Z) : FM Z :=
  i <- get_inode p ;;
  if d_type (node i) =? FS_TYPE_DEV then panic "device without driver" else
  let len := Z.of_nat (length src) in
  let* (offset, total) := write_loop (io_fuel len) p src offset len 0 in
  i <- get_inode p ;;
  (if offset >? d_size (node i) then upd_node p (set_size offset) else ret tt) ;;
  inode_sync p ;;
  ret total.

End Inode.
