(* ===== verification/InodeLayout.v ===== *)
(** * Byte layout of inodes and of arrays of block numbers *)

From S2P Require Import Prelude Bytes Block Inode.

(** ** Signed block numbers *)
Lemma i32_small x : - 2 ^ 31 ≤ x < 2 ^ 31 → i32 (x mod 2 ^ 32) = x.
Proof.
  intros Hx. unfold i32, swrap, wrap. rewrite Z.mod_mod by lia.
  destruct (decide (0 ≤ x)).
  - rewrite Z.mod_small by lia. rewrite (proj2 (Z.ltb_lt _ _)); [done|]. simpl. lia.
  - rewrite <- (Z.mod_add x 1) by lia. rewrite Z.mod_small by lia.
    rewrite (proj2 (Z.ltb_ge _ _)); [lia|]. simpl. lia.
Qed.

Lemma i32_le x : - 2 ^ 31 ≤ x < 2 ^ 31 → i32 (unle (le 4 x)) = x.
Proof. intros Hx. rewrite unle_le. change (256 ^ Z.of_nat 4) with (2 ^ 32). by apply i32_small. Qed.

(** ** Splices *)
Lemma splice_length o v d : (o + length v ≤ length d)%nat → length (splice o v d) = length d.
Proof. intros Hl. unfold splice. rewrite !length_app, length_take, length_drop. lia. Qed.

Lemma splice_lookup o v d i :
  (o + length v ≤ length d)%nat →
  splice o v d !! i = if decide (o ≤ i < o + length v)%nat then v !! (i - o)%nat else d !! i.
Proof.
  intros Hl. unfold splice. case_decide as Hi.
  - rewrite lookup_app_r by (rewrite length_take; lia).
    rewrite length_take, Nat.min_l by lia. by rewrite lookup_app_l by lia.
  - destruct (decide (i < o)%nat).
    + rewrite lookup_app_l by (rewrite length_take; lia). by rewrite lookup_take_lt by lia.
    + rewrite lookup_app_r by (rewrite length_take; lia). rewrite length_take, Nat.min_l by lia.
      rewrite lookup_app_r by lia. rewrite lookup_drop. f_equal. lia.
Qed.

(** The field at its own splice, and at a disjoint one. *)
Lemma field_ext o w l l' :
  (∀ i, (o ≤ i < o + w)%nat → l !! i = l' !! i) → field o w l = field o w l'.
Proof.
  intros Hext. unfold field. f_equal. apply list_eq. intros i.
  destruct (decide (i < w)%nat).
  - rewrite !lookup_take_lt, !lookup_drop by lia. apply Hext. lia.
  - rewrite !lookup_take_ge by lia. done.
Qed.

Lemma field_splice_other o w k v d :
  (k + length v ≤ length d)%nat → (o + w ≤ k ∨ k + length v ≤ o)%nat →
  field o w (splice k v d) = field o w d.
Proof.
  intros Hl Hap. apply field_ext. intros i Hi. rewrite splice_lookup by done.
  rewrite decide_False; [done|]. lia.
Qed.

Lemma drop_splice o v d : (o + length v ≤ length d)%nat → drop o (splice o v d) = v ++ drop (o + length v) d.
Proof.
  intros Hl. unfold splice. rewrite drop_app_length'; [done|]. rewrite length_take. lia.
Qed.

Lemma field_splice_same o v d :
  (o + length v ≤ length d)%nat → field o (length v) (splice o v d) = unle v.
Proof. intros Hl. unfold field. by rewrite drop_splice, take_app_length by done. Qed.

(** ** Arrays of block numbers *)

(** Entry [k] of a block seen as [int[1024]]. *)
Definition entry (C : Z → list Z) (b : Z) (k : nat) : Z := ifield (4 * k) (C b).
Definition set_entry (k : nat) (v : Z) (d : list Z) : list Z := splice (4 * k) (le 4 v) d.

Lemma set_entry_length k v d :
  length d = Z.to_nat BLOCK_SIZE → (k < 1024)%nat → length (set_entry k v d) = Z.to_nat BLOCK_SIZE.
Proof.
  intros Hd Hk. change (Z.to_nat BLOCK_SIZE) with 4096%nat in *.
  unfold set_entry. rewrite splice_length; [done|]. rewrite le_length. lia.
Qed.

Lemma ifield_set_entry k j v d :
  length d = Z.to_nat BLOCK_SIZE → (k < 1024)%nat → - 2 ^ 31 ≤ v < 2 ^ 31 →
  ifield (4 * j) (set_entry k v d) = if decide (k = j) then v else ifield (4 * j) d.
Proof.
  intros Hd Hk Hv. change (Z.to_nat BLOCK_SIZE) with 4096%nat in *. unfold ifield, set_entry.
  case_decide as Hkj.
  - subst j. pose proof (field_splice_same (4 * k) (le 4 v) d) as E.
    rewrite le_length in E. rewrite E by lia. by apply i32_le.
  - f_equal. apply field_splice_other; rewrite le_length; lia.
Qed.

(** A block of 0xff bytes is an array of -1. *)
Lemma entry_ff k : (k < 1024)%nat → ifield (4 * k) (replicate (Z.to_nat BLOCK_SIZE) 255) = -1.
Proof.
  intros Hk. change (Z.to_nat BLOCK_SIZE) with 4096%nat. unfold ifield, field.
  rewrite drop_replicate, take_replicate, Nat.min_l by lia. reflexivity.
Qed.

(** ** Disk inodes *)
Record dinode_wf (n : diskinode_t) : Prop := {
  wf_type : 0 ≤ d_type n < 2 ^ 16;
  wf_link : 0 ≤ d_link_count n < 2 ^ 16;
  wf_num : 0 ≤ d_inode_num n < 2 ^ 32;
  wf_size : 0 ≤ d_size n < 2 ^ 32;
  wf_blocks : 0 ≤ d_blocks n < 2 ^ 32;
  wf_direct : length (d_direct n) = 10%nat ∧ Forall (fun x => - 2 ^ 31 ≤ x < 2 ^ 31) (d_direct n);
  wf_indirect : - 2 ^ 31 ≤ d_indirect n < 2 ^ 31;
  wf_double : - 2 ^ 31 ≤ d_double_indirect n < 2 ^ 31;
}.

Lemma enc_dinode_length n : length (d_direct n) = 10%nat → length (enc_dinode n) = 64%nat.
Proof.
  intros Hd. unfold enc_dinode. rewrite !length_app, !le_length, length_join.
  destruct (d_direct n) as [|? [|? [|? [|? [|? [|? [|? [|? [|? [|? []]]]]]]]]]]; simpl in *; try done.
Qed.

(** The bytes written for an inode are read back as that inode. *)
Lemma dec_enc_dinode n rest : dinode_wf n → dec_dinode (enc_dinode n ++ rest) = n.
Proof.
  intros [H1 H2 H3 H4 H5 [H6 H6'] H7 H8].
  destruct n as [ty lk num sz bl dir ind dbl]. simpl in *.
  destruct dir as [|d0 [|d1 [|d2 [|d3 [|d4 [|d5 [|d6 [|d7 [|d8 [|d9 []]]]]]]]]]]; simpl in H6; try done.
  rewrite !Forall_cons in H6'. destr.
  transitivity (mk_dinode (unle (le 2 ty)) (unle (le 2 lk)) (unle (le 4 num)) (unle (le 4 sz))
    (unle (le 4 bl)) [i32 (unle (le 4 d0)); i32 (unle (le 4 d1)); i32 (unle (le 4 d2));
      i32 (unle (le 4 d3)); i32 (unle (le 4 d4)); i32 (unle (le 4 d5)); i32 (unle (le 4 d6));
      i32 (unle (le 4 d7)); i32 (unle (le 4 d8)); i32 (unle (le 4 d9))]
    (i32 (unle (le 4 ind))) (i32 (unle (le 4 dbl)))); [reflexivity|].
  rewrite !i32_le by done. rewrite !unle_le_small by done. done.
Qed.

(** A slot of an inode block, after one slot was written. *)
Lemma dinode_slot_roundtrip_lemma n d k j :
  dinode_wf n → length d = Z.to_nat BLOCK_SIZE → 0 ≤ k < INODE_PER_BLOCK → 0 ≤ j < INODE_PER_BLOCK →
  let d' := splice (Z.to_nat (k * sizeof_diskinode)) (enc_dinode n) d in
  dec_dinode (drop (Z.to_nat (j * sizeof_diskinode)) d') =
    if decide (j = k) then n else dec_dinode (drop (Z.to_nat (j * sizeof_diskinode)) d).
Proof.
  intros Hwf Hd Hk Hj d'. change (Z.to_nat BLOCK_SIZE) with 4096%nat in *.
  change INODE_PER_BLOCK with 64 in *. unfold sizeof_diskinode in *.
  pose proof (enc_dinode_length n (proj1 (wf_direct _ Hwf))) as Hlen.
  case_decide as Hjk.
  - subst j. unfold d'. rewrite drop_splice by lia. by apply dec_enc_dinode.
  - assert (∀ o w, (o + w ≤ 64)%nat →
      field o w (drop (Z.to_nat (j * 64)) d') = field o w (drop (Z.to_nat (j * 64)) d)) as Hf.
    { intros o w How. apply field_ext. intros i Hi. rewrite !lookup_drop. unfold d'.
      rewrite splice_lookup by lia. rewrite decide_False; [done|]. lia. }
    unfold dec_dinode, ifield. rewrite !Hf by lia. f_equal.
    apply list_fmap_ext. intros q i Hi. apply lookup_seq in Hi as [-> ?]. rewrite Hf by lia. done.
Qed.

(** Writing an inode into its slot of an inode block and reading the
    slot gives the same inode, and reading any other slot of the block gives
    what it gave before. *)
Theorem dinode_slot_roundtrip n d k j :
  dinode_wf n → length d = Z.to_nat BLOCK_SIZE → 0 ≤ k < INODE_PER_BLOCK → 0 ≤ j < INODE_PER_BLOCK →
  let d' := splice (Z.to_nat (k * sizeof_diskinode)) (enc_dinode n) d in
  dec_dinode (drop (Z.to_nat (j * sizeof_diskinode)) d') =
    if decide (j = k) then n else dec_dinode (drop (Z.to_nat (j * sizeof_diskinode)) d).
Proof. intros Hwf Hd Hk Hj. by apply dinode_slot_roundtrip_lemma. Qed.

Lemma dinode_slot_roundtrip_witness :
  dec_dinode (drop 128 (splice 128 (enc_dinode (mk_dinode 2 1 130 77 0 (replicate 10 (-1)) 600 (-1)))
    (replicate 4096 0))) = mk_dinode 2 1 130 77 0 (replicate 10 (-1)) 600 (-1).
Proof.
  apply (dinode_slot_roundtrip (mk_dinode 2 1 130 77 0 (replicate 10 (-1)) 600 (-1)) (replicate 4096 0) 2 2);
    [|reflexivity|done..].
  split; try done. split; [done|]. repeat constructor; done.
Defined.
