(* ===== verification/InodeMap.v ===== *)
(** * inode_mapblock of inode.c: the tree of block pointers

    A [slot] names one place of an inode's pointer tree; [ptr] reads it out of
    the inode and the contents [C] of the volume. Well-formedness says that
    every pointer in use is an allocated data block and that no block is
    pointed to twice; [inode_mapblock] extends the tree by fresh blocks. *)

From S2P Require Import Prelude Block BlockProofs BlockAlloc Dcache Inode InodeLayout.

Inductive slot :=
| SDirect (k : nat)
| SInd
| SIndEntry (k : nat)
| SDbl
| SMid (i : nat)
| SLeaf (i k : nat).

#[global] Instance slot_eq_dec : EqDecision slot.
Proof. solve_decision. Defined.

Definition slot_ok (sl : slot) : Prop :=
  match sl with
  | SDirect k => (k < 10)%nat
  | SInd | SDbl => True
  | SIndEntry k | SMid k => (k < 1024)%nat
  | SLeaf i k => (i < 1024)%nat ∧ (k < 1024)%nat
  end.

(** An entry of the array block [b], if there is one. *)
Definition via (C : Z → list Z) (b : Z) (k : nat) : Z := if b <? 0 then -1 else entry C b k.

Definition ptr (n : diskinode_t) (C : Z → list Z) (sl : slot) : Z :=
  match sl with
  | SDirect k => default (-1) (d_direct n !! k)
  | SInd => d_indirect n
  | SIndEntry k => via C (d_indirect n) k
  | SDbl => d_double_indirect n
  | SMid i => via C (d_double_indirect n) i
  | SLeaf i k => via C (via C (d_double_indirect n) i) k
  end.

(** An allocated data block. *)
Definition alloc_block (b : superblock_t) (C : Z → list Z) (x : Z) : Prop :=
  0 ≤ x - datablock_offset b < block_count b ∧ map_bit b C (x - datablock_offset b) = true.

Record tree_ok (b : superblock_t) (C : Z → list Z) (n : diskinode_t) : Prop := {
  to_direct : length (d_direct n) = 10%nat;
  to_alloc sl : slot_ok sl → 0 ≤ ptr n C sl → alloc_block b C (ptr n C sl);
  to_inj s1 s2 : slot_ok s1 → slot_ok s2 → 0 ≤ ptr n C s1 → ptr n C s1 = ptr n C s2 → s1 = s2;
}.

(** The block is part of the tree. *)
Definition owns (n : diskinode_t) (C : Z → list Z) (x : Z) : Prop :=
  ∃ sl, slot_ok sl ∧ ptr n C sl = x ∧ 0 ≤ x.

(** The block is one of the tree's arrays of pointers. *)
Definition is_index (sl : slot) : bool :=
  match sl with SInd | SDbl | SMid _ => true | _ => false end.

(** ** Changing the contents outside of the tree *)
Lemma via_ext C C' b k : (0 ≤ b → C' b = C b) → via C' b k = via C b k.
Proof.
  intros E. unfold via. destruct (Z.ltb_spec b 0); [done|]. unfold entry. by rewrite E by lia.
Qed.

Lemma ptr_ext n C C' :
  (∀ sl, slot_ok sl → is_index sl = true → 0 ≤ ptr n C sl → C' (ptr n C sl) = C (ptr n C sl)) →
  ∀ sl, slot_ok sl → ptr n C' sl = ptr n C sl.
Proof.
  intros E sl Hsl. destruct sl as [k| |k| |i|i k]; simpl in *; try done.
  - apply via_ext. intros. by apply (E SInd).
  - apply via_ext. intros. by apply (E SDbl).
  - destruct Hsl as [Hi Hk].
    assert (via C' (d_double_indirect n) i = via C (d_double_indirect n) i) as ->
      by (apply via_ext; intros; by apply (E SDbl)).
    apply via_ext. intros. by apply (E (SMid i)).
Qed.

Lemma alloc_range b C x : sb_ok b → alloc_block b C x → in_range b x ∧ 0 ≤ x < 2 ^ 31.
Proof.
  intros Hb [Hx _]. destruct (data_range b _ Hb Hx) as (Hin & _ & ?).
  replace (datablock_offset b + (x - datablock_offset b)) with x in Hin by lia. split; [done|].
  destruct Hb. unfold in_range, NSECTOR_BLOCK in *. lia.
Qed.

Lemma alloc_not_map b C x k : sb_ok b → alloc_block b C x → 0 ≤ k < block_count b → x ≠ map_block b k.
Proof.
  intros Hb [Hx _] Hk. pose proof (data_not_map b _ k Hb Hx Hk) as Hne.
  by replace (datablock_offset b + (x - datablock_offset b)) with x in Hne by lia.
Qed.

(** The contents after [block_allocset(v)] gave out data block [k]. *)
Definition fresh (b : superblock_t) (k v : Z) (C : Z → list Z) : Z → list Z :=
  <[datablock_offset b + k := replicate (Z.to_nat BLOCK_SIZE) v]> (mark b true k C).

Section Fresh.

Context (b : superblock_t) (C : Z → list Z) (k v : Z).
Context (Hb : sb_ok b) (Hk : 0 ≤ k < block_count b) (Hfree : map_bit b C k = false).
Context (Hlen : ∀ n, in_range b n → length (C n) = Z.to_nat BLOCK_SIZE).

Lemma fresh_bit j : 0 ≤ j < block_count b →
  map_bit b (fresh b k v C) j = if decide (j = k) then true else map_bit b C j.
Proof.
  intros Hj. unfold map_bit at 1, fresh. rewrite fn_lookup_insert_ne by (by apply data_not_map).
  fold (map_bit b (mark b true k C) j). rewrite mark_bit.
  - repeat case_decide; congruence.
  - apply Hlen. by apply map_block_range.
Qed.

Lemma fresh_not_alloc : ¬ alloc_block b C (datablock_offset b + k).
Proof.
  intros [_ Hbit]. replace (datablock_offset b + k - datablock_offset b) with k in Hbit by lia. congruence.
Qed.

Lemma fresh_alloc x : alloc_block b C x → alloc_block b (fresh b k v C) x.
Proof. intros [Hx Hbit]. split; [done|]. rewrite fresh_bit by done. by case_decide. Qed.

Lemma fresh_self : alloc_block b (fresh b k v C) (datablock_offset b + k).
Proof.
  unfold alloc_block. replace (datablock_offset b + k - datablock_offset b) with k by lia.
  split; [done|]. by rewrite fresh_bit, decide_True.
Qed.

Lemma fresh_other x : alloc_block b C x → fresh b k v C x = C x.
Proof.
  intros Hx. unfold fresh. rewrite fn_lookup_insert_ne by (intros <-; by apply fresh_not_alloc).
  apply mark_other. by eapply alloc_not_map.
Qed.

(** Blocks in front of the data, the bitmap apart, are untouched. *)
Lemma fresh_meta x : x < datablock_offset b → x ≠ map_block b k → fresh b k v C x = C x.
Proof. intros Hx Hm. unfold fresh. rewrite fn_lookup_insert_ne by lia. by apply mark_other. Qed.

(** Allocating a block changes no pointer. *)
Lemma fresh_ptr n sl : tree_ok b C n → slot_ok sl → ptr n (fresh b k v C) sl = ptr n C sl.
Proof.
  intros Ht Hsl. apply ptr_ext; [|done]. intros s1 H1 _ Hp. apply fresh_other. by apply Ht.
Qed.

End Fresh.

(** ** Growing the tree *)

(** What [inode_mapblock] may do to a volume and the inode it works for. *)
Record extends (b : superblock_t) (C : Z → list Z) (n : diskinode_t) (C' : Z → list Z) (n' : diskinode_t) : Prop := {
  ex_ok : tree_ok b C' n';
  ex_ptr sl : slot_ok sl → 0 ≤ ptr n C sl → ptr n' C' sl = ptr n C sl;
  ex_data sl : slot_ok sl → is_index sl = false → 0 ≤ ptr n C sl → C' (ptr n C sl) = C (ptr n C sl);
  ex_new sl : slot_ok sl → is_index sl = false → ptr n C sl < 0 → 0 ≤ ptr n' C' sl →
    C' (ptr n' C' sl) = replicate (Z.to_nat BLOCK_SIZE) 0;
  ex_frame x : alloc_block b C x → ¬ owns n C x → C' x = C x;
  ex_alloc x : alloc_block b C x → alloc_block b C' x;
  ex_fresh x : owns n' C' x → owns n C x ∨ ¬ alloc_block b C x;
  ex_meta x : inode_offset b ≤ x < datablock_offset b → C' x = C x;
  ex_fields : d_type n' = d_type n ∧ d_link_count n' = d_link_count n ∧
    d_inode_num n' = d_inode_num n ∧ d_size n' = d_size n ∧ d_blocks n' = d_blocks n;
  ex_wf : dinode_wf n → dinode_wf n';
}.

Lemma extends_refl b C n : tree_ok b C n → extends b C n C n.
Proof. intros Ht. split; try done; try tauto; intros; lia. Qed.

Lemma extends_trans b C n C1 n1 C2 n2 :
  extends b C n C1 n1 → extends b C1 n1 C2 n2 → extends b C n C2 n2.
Proof.
  intros E1 E2. split.
  - apply E2.
  - intros sl Hsl Hp. pose proof (ex_ptr _ _ _ _ _ E1 sl Hsl Hp) as E.
    rewrite <- E. apply E2; [done | by rewrite E].
  - intros sl Hsl Hi Hp. pose proof (ex_ptr _ _ _ _ _ E1 sl Hsl Hp) as E.
    rewrite <- (ex_data _ _ _ _ _ E1 sl Hsl Hi Hp), <- E. apply E2; [done | done | by rewrite E].
  - intros sl Hsl Hi Hp Hp2. destruct (decide (0 ≤ ptr n1 C1 sl)) as [Hp1|Hp1].
    + pose proof (ex_ptr _ _ _ _ _ E2 sl Hsl Hp1) as E. rewrite E.
      rewrite (ex_data _ _ _ _ _ E2 sl Hsl Hi Hp1). by apply (ex_new _ _ _ _ _ E1).
    + apply (ex_new _ _ _ _ _ E2); [done | done | lia | done].
  - intros x Hx Hn. rewrite <- (ex_frame _ _ _ _ _ E1 x Hx Hn). apply E2.
    + by apply E1.
    + intros Ho. destruct (ex_fresh _ _ _ _ _ E1 x Ho); tauto.
  - intros x Hx. by apply E2, E1.
  - intros x Ho. destruct (ex_fresh _ _ _ _ _ E2 x Ho) as [Ho1|Hn1].
    + by apply (ex_fresh _ _ _ _ _ E1).
    + right. intros Hx. by apply Hn1, E1.
  - intros x Hx. rewrite <- (ex_meta _ _ _ _ _ E1 x Hx). by apply (ex_meta _ _ _ _ _ E2).
  - pose proof (ex_fields _ _ _ _ _ E1). pose proof (ex_fields _ _ _ _ _ E2). destr. split_and!; congruence.
  - intros Hwf. by apply (ex_wf _ _ _ _ _ E2), (ex_wf _ _ _ _ _ E1).
Qed.

(** One fresh block [r], linked in at the empty slot [sl]. *)
Lemma grow b C n k v sl C' n' :
  let r := datablock_offset b + k in
  sb_ok b → 0 ≤ k < block_count b → map_bit b C k = false →
  (∀ m, in_range b m → length (C m) = Z.to_nat BLOCK_SIZE) →
  tree_ok b C n → slot_ok sl → ptr n C sl < 0 →
  (∀ s1, slot_ok s1 → ptr n' C' s1 = if decide (s1 = sl) then r else ptr n C s1) →
  (∀ x, (∀ s1, slot_ok s1 → is_index s1 = true → 0 ≤ ptr n C s1 → ptr n C s1 ≠ x) →
     C' x = fresh b k v C x) →
  (is_index sl = false → v = 0) → length (d_direct n') = 10%nat →
  d_type n' = d_type n ∧ d_link_count n' = d_link_count n ∧ d_inode_num n' = d_inode_num n ∧
    d_size n' = d_size n ∧ d_blocks n' = d_blocks n →
  (dinode_wf n → dinode_wf n') →
  extends b C n C' n'.
Proof.
  intros r Hb Hk Hfree Hlen Ht Hsl Hempty Hptr HC Hv Hdir Hfields Hwf.
  assert (0 ≤ r) as Hr0 by (unfold r; destruct (data_range b k Hb Hk) as (_ & _ & ?); lia).
  assert (¬ alloc_block b C r) as Hr by (by apply fresh_not_alloc).
  assert (∀ s1, slot_ok s1 → ptr n C s1 ≠ r) as Hnr.
  { intros s1 H1 E. apply Hr. rewrite <- E. apply Ht; [done | lia]. }
  assert (∀ x, ¬ owns n C x → C' x = fresh b k v C x) as HCn.
  { intros x Hx. apply HC. intros s1 H1 _ H0 E. apply Hx. exists s1. split_and!; [done | done | lia]. }
  assert (∀ j, 0 ≤ j < block_count b → map_bit b C' j = if decide (j = k) then true else map_bit b C j) as Hbit.
  { intros j Hj. rewrite <- (fresh_bit b C k v) by done. unfold map_bit. rewrite HCn; [done|].
    intros (s1 & H1 & E & H0). apply (alloc_not_map b C (map_block b j) j); [done | | done | done].
    rewrite <- E. apply Ht; [done | lia]. }
  assert (∀ x, alloc_block b C x → alloc_block b C' x) as Hall.
  { intros x [Hx Hb1]. split; [done|]. rewrite Hbit by done. by case_decide. }
  assert (alloc_block b C' r) as Hall_r.
  { unfold alloc_block, r. replace (datablock_offset b + k - datablock_offset b) with k by lia.
    split; [done|]. by rewrite Hbit, decide_True. }
  assert (C' r = replicate (Z.to_nat BLOCK_SIZE) v) as HCr.
  { rewrite HCn; [by apply fn_lookup_insert|]. intros (s1 & H1 & E & _). by apply (Hnr s1). }
  split; try done.
  - split; [done | |].
    + intros s1 H1 H0. rewrite Hptr in * by done. case_decide; [done|]. apply Hall. by apply Ht.
    + intros s1 s2 H1 H2 H0 E. rewrite !Hptr in * by done. repeat case_decide; subst; try done.
      * by destruct (Hnr s2 H2).
      * by destruct (Hnr s1 H1).
      * by eapply (to_inj _ _ _ Ht).
  - intros s1 H1 H0. rewrite Hptr by done. case_decide; [subst; lia | done].
  - intros s1 H1 Hi H0. rewrite HC.
    + apply fresh_other; [done | done | done|]. by apply Ht.
    + intros s2 H2 Hi2 H02 E. assert (s2 = s1) by (by eapply (to_inj _ _ _ Ht)). congruence.
  - intros s1 H1 Hi Hneg Hp. rewrite Hptr in * by done. case_decide; [subst; by rewrite HCr, Hv | lia].
  - intros x Hx Hn. rewrite HCn by done. by apply fresh_other.
  - intros x (s1 & H1 & E & H0). rewrite Hptr in E by done. case_decide.
    + right. by subst x.
    + left. by exists s1.
  - intros x Hx. assert (¬ owns n C x) as Hn.
    { intros (s1 & H1 & E & H0). destruct (to_alloc _ _ _ Ht s1 H1) as [? _]; lia. }
    rewrite HCn by done. apply fresh_meta; [done | lia |].
    destruct (map_block_range b k Hb Hk) as [? _]. lia.
Qed.

(** *** The three kinds of links *)
Section Link.

Context (b : superblock_t) (C : Z → list Z) (n : diskinode_t) (k : Z).
Context (Hb : sb_ok b) (Hk : 0 ≤ k < block_count b) (Hfree : map_bit b C k = false).
Context (Hlen : ∀ m, in_range b m → length (C m) = Z.to_nat BLOCK_SIZE).
Context (Ht : tree_ok b C n).

Let r := datablock_offset b + k.

Lemma r_range : 0 ≤ r < 2 ^ 31 ∧ in_range b r.
Proof.
  destruct (data_range b k Hb Hk) as (Hin & _ & ?). unfold r. destruct Hb.
  unfold in_range, NSECTOR_BLOCK in *. split; [lia | done].
Qed.

Lemma fresh_at : fresh b k 255 C r = replicate (Z.to_nat BLOCK_SIZE) 255.
Proof. apply fn_lookup_insert. Qed.

(** A direct pointer. *)
Lemma grow_direct j :
  (j < 10)%nat → ptr n C (SDirect j) < 0 →
  extends b C n (fresh b k 0 C) (set_direct (<[j := r]> (d_direct n)) n).
Proof.
  intros Hj Hneg. apply (grow b C n k 0 (SDirect j)); try done.
  - intros s1 H1. destruct s1 as [q| |q| |i|i q].
    1: { simpl. pose proof (to_direct _ _ _ Ht). case_decide as E.
         - injection E as ->. rewrite list_lookup_insert_eq; [done | lia].
         - rewrite list_lookup_insert_ne; [done | congruence]. }
    all: rewrite decide_False by done; apply (fresh_ptr b C k 0 Hb Hk Hfree n _ Ht H1).
  - simpl. by rewrite length_insert, (to_direct _ _ _ Ht).
  - intros [? ? ? ? ? [? ?] ? ?]. split; try done. simpl. rewrite length_insert. split; [done|].
    apply Forall_insert; [done|]. pose proof r_range as [? _]. lia.
Qed.

(** The index block of the single indirection. *)
Lemma grow_indirect :
  ptr n C SInd < 0 → extends b C n (fresh b k 255 C) (set_indirect r n).
Proof.
  intros Hneg. pose proof r_range as [Hr _]. apply (grow b C n k 255 SInd); try done;
    [|by destruct Ht | intros []; split; simpl; try done; lia].
  intros s1 H1. destruct s1 as [q| |q| |i|i q]; try (rewrite decide_False by done).
  - done.
  - by rewrite decide_True.
  - simpl in *. unfold via. rewrite (proj2 (Z.ltb_ge r 0)), (proj2 (Z.ltb_lt _ 0)) by lia.
    unfold entry. rewrite fresh_at. by apply entry_ff.
  - apply (fresh_ptr b C k 255 Hb Hk Hfree n SDbl Ht H1).
  - apply (fresh_ptr b C k 255 Hb Hk Hfree n (SMid i) Ht H1).
  - apply (fresh_ptr b C k 255 Hb Hk Hfree n (SLeaf i q) Ht H1).
Qed.

(** The root of the double indirection. *)
Lemma grow_double :
  ptr n C SDbl < 0 → extends b C n (fresh b k 255 C) (set_double_indirect r n).
Proof.
  intros Hneg. pose proof r_range as [Hr _]. apply (grow b C n k 255 SDbl); try done;
    [|by destruct Ht | intros []; split; simpl; try done; lia].
  intros s1 H1. simpl in Hneg. destruct s1 as [q| |q| |i|i q]; try (rewrite decide_False by done).
  - done.
  - done.
  - apply (fresh_ptr b C k 255 Hb Hk Hfree n (SIndEntry q) Ht H1).
  - by rewrite decide_True.
  - simpl in *. unfold via. rewrite (proj2 (Z.ltb_ge r 0)), (proj2 (Z.ltb_lt _ 0)) by lia.
    unfold entry. rewrite fresh_at. by apply entry_ff.
  - simpl in *. unfold via. rewrite (proj2 (Z.ltb_ge r 0)), (proj2 (Z.ltb_lt (d_double_indirect n) 0)) by lia.
    unfold entry. rewrite fresh_at, entry_ff by tauto. done.
Qed.

(** An entry of an index block [x]. *)
Definition linked (x : Z) (j : nat) (v : Z) : Z → list Z :=
  <[x := set_entry j r (fresh b k v C x)]> (fresh b k v C).

Lemma linked_entry psl j v y q :
  slot_ok psl → ptr n C psl = y → 0 ≤ y → (j < 1024)%nat →
  entry (linked y j v) y q = if decide (j = q) then r else entry C y q.
Proof.
  intros Hp Ey Hy Hj. pose proof r_range as [Hr _]. unfold entry, linked. rewrite fn_lookup_insert.
  assert (alloc_block b C y) as Hall by (rewrite <- Ey; apply Ht; [done | lia]).
  rewrite (fresh_other b C k v Hb Hk Hfree y Hall).
  apply ifield_set_entry; [|done|lia]. apply Hlen. by eapply alloc_range.
Qed.

Lemma linked_other x j v y : y ≠ x → linked x j v y = fresh b k v C y.
Proof. intros. unfold linked. by rewrite fn_lookup_insert_ne. Qed.

(** Reading through another index block. *)
Lemma linked_via psl j v x y q :
  slot_ok psl → ptr n C psl = y → y ≠ x → via (linked x j v) y q = via C y q.
Proof.
  intros Hp Ey Hne. apply via_ext. intros H0. rewrite linked_other by done.
  apply (fresh_other b C k v Hb Hk Hfree). rewrite <- Ey. apply Ht; [done | lia].
Qed.

Lemma index_ne s1 s2 : slot_ok s1 → slot_ok s2 → s1 ≠ s2 → 0 ≤ ptr n C s2 → ptr n C s1 ≠ ptr n C s2.
Proof. intros H1 H2 Hne H0 E. apply Hne. symmetry. by apply (to_inj _ _ _ Ht). Qed.

(** Linking [r] at entry [j] of the index block of [psl]. *)
Lemma grow_entry psl j v sl :
  slot_ok psl → is_index psl = true → 0 ≤ ptr n C psl → (j < 1024)%nat → slot_ok sl → ptr n C sl < 0 →
  (is_index sl = false → v = 0) →
  (∀ s1, slot_ok s1 → ptr n (linked (ptr n C psl) j v) s1 = if decide (s1 = sl) then r else ptr n C s1) →
  extends b C n (linked (ptr n C psl) j v) n.
Proof.
  intros Hp Hi H0 Hj Hsl Hneg Hv Hptr. apply (grow b C n k v sl); try done.
  - intros x Hx. apply linked_other. intros ->. by apply (Hx psl).
  - apply Ht.
Qed.

Lemma grow_ind_entry j :
  (j < 1024)%nat → 0 ≤ d_indirect n → entry C (d_indirect n) j < 0 →
  extends b C n (linked (d_indirect n) j 0) n.
Proof.
  intros Hj H0 Hneg. assert (via C (d_indirect n) j < 0) as Hneg'
    by (unfold via; by rewrite (proj2 (Z.ltb_ge _ 0)) by lia).
  apply (grow_entry SInd j 0 (SIndEntry j)); try done.
  intros s1 H1. destruct s1 as [q| |q| |i|i q]; simpl; try (rewrite decide_False by done); try done.
  - unfold via. rewrite (proj2 (Z.ltb_ge _ 0)) by lia.
    rewrite (linked_entry SInd) by done. repeat case_decide; congruence.
  - apply (linked_via SDbl); [done | done|]. by apply (index_ne SDbl SInd).
  - simpl in H1. rewrite (linked_via SDbl j 0 (d_indirect n) (d_double_indirect n)); [|done|done|by apply (index_ne SDbl SInd)].
    apply (linked_via (SMid i)); [tauto | done|]. apply (index_ne (SMid i) SInd); simpl; [tauto | done..].
Qed.

Lemma grow_mid i :
  (i < 1024)%nat → 0 ≤ d_double_indirect n → entry C (d_double_indirect n) i < 0 →
  extends b C n (linked (d_double_indirect n) i 255) n.
Proof.
  intros Hi H0 Hneg. pose proof r_range as [Hr _].
  assert (via C (d_double_indirect n) i < 0) as Hneg' by (unfold via; by rewrite (proj2 (Z.ltb_ge _ 0)) by lia).
  assert (r ≠ d_double_indirect n) as Hrd.
  { intros E. apply (fresh_not_alloc b C k Hfree). fold r. rewrite E. by apply (to_alloc _ _ _ Ht SDbl). }
  assert (∀ q, (q < 1024)%nat → via (linked (d_double_indirect n) i 255) (d_double_indirect n) q =
    if decide (i = q) then r else via C (d_double_indirect n) q) as Hmid.
  { intros q Hq. unfold via. rewrite (proj2 (Z.ltb_ge _ 0)) by lia. by rewrite (linked_entry SDbl). }
  apply (grow_entry SDbl i 255 (SMid i)); try done.
  intros s1 H1. destruct s1 as [q| |q| |q|q j]; simpl in *; try (rewrite decide_False by done); try done.
  - apply (linked_via SInd); [done | done|]. by apply (index_ne SInd SDbl).
  - rewrite Hmid by done. repeat case_decide; congruence.
  - rewrite Hmid by tauto. case_decide as Eq.
    + subst q. unfold via at 1. rewrite (proj2 (Z.ltb_ge r 0)) by lia. unfold entry. rewrite linked_other by done.
      rewrite fresh_at, entry_ff by tauto. unfold via at 1. by rewrite (proj2 (Z.ltb_lt _ 0)) by lia.
    + apply (linked_via (SMid q)); [tauto | done|]. apply (index_ne (SMid q) SDbl); simpl; [tauto | done..].
Qed.

Lemma grow_leaf i j :
  (i < 1024)%nat → (j < 1024)%nat → 0 ≤ via C (d_double_indirect n) i →
  entry C (via C (d_double_indirect n) i) j < 0 →
  extends b C n (linked (via C (d_double_indirect n) i) j 0) n.
Proof.
  intros Hi Hj H0 Hneg. set (m := via C (d_double_indirect n) i) in *.
  assert (via C m j < 0) as Hneg' by (unfold via; by rewrite (proj2 (Z.ltb_ge _ 0)) by lia).
  assert (0 ≤ d_double_indirect n) as Hd.
  { unfold m, via in H0. destruct (Z.ltb_spec (d_double_indirect n) 0); lia. }
  assert (∀ q, (q < 1024)%nat →
    via (linked m j 0) (d_double_indirect n) q = via C (d_double_indirect n) q) as Hmid.
  { intros q Hq. apply (linked_via SDbl); [done | done|]. by apply (index_ne SDbl (SMid i)). }
  apply (grow_entry (SMid i) j 0 (SLeaf i j)); try done.
  intros s1 H1. destruct s1 as [q| |q| |q|q x]; simpl in *; try (rewrite decide_False by done); try done.
  - apply (linked_via SInd); [done | done|]. by apply (index_ne SInd (SMid i)).
  - by apply Hmid.
  - rewrite Hmid by tauto. destruct (decide (q = i)) as [->|Hq].
    + fold m. unfold via at 1. rewrite (proj2 (Z.ltb_ge m 0)) by lia.
      rewrite (linked_entry (SMid i)) by done.
      case_decide; [subst; by rewrite decide_True | rewrite decide_False by congruence].
      unfold via. by rewrite (proj2 (Z.ltb_ge m 0)) by lia.
    + rewrite decide_False by congruence. apply (linked_via (SMid q)); [tauto | done|].
      apply (index_ne (SMid q) (SMid i)); simpl; [tauto | done | congruence | done].
Qed.

End Link.

(** ** The block layer for a fixed geometry *)

(** Only the counters of the superblock differ from [b]. *)
Definition geo (b b' : superblock_t) : Prop := ∃ f g, b' = set_used_block f (set_used_inode g b).

Lemma geo_refl b : geo b b.
Proof. exists id, id. by destruct b. Qed.

Lemma geo_count b b' f : geo b b' → geo b (set_used_block f b').
Proof. intros (f' & g & ->). by exists (fun u => f (f' u)), g. Qed.

Section Geo.

Context {D : Type} `{SectorStore D}.
Implicit Types (s : bstate D) (C : Z → list Z) (held : list Z).

Definition bsg (b : superblock_t) s C held : Prop := bst s C held ∧ geo b (superblock s).

Definition keeps s s' (held : list Z) : Prop := ∀ i m, m ∈ held → buf s i m → buf s' i m.

Lemma keeps_trans s1 s2 s3 held : keeps s1 s2 held → keeps s2 s3 held → keeps s1 s3 held.
Proof. intros K1 K2 i m Hm Hi. by apply K2, K1. Qed.

Lemma bsg_sb b s C held : bsg b s C held → sb_ok b.
Proof. intros [Hb (f & g & E)]. pose proof (bs_sb _ _ _ Hb) as Hs. rewrite E in Hs. destruct Hs. by split. Qed.

Lemma bsg_len b s C held n : bsg b s C held → in_range b n → length (C n) = Z.to_nat BLOCK_SIZE.
Proof. intros [Hb (f & g & E)] Hn. apply Hb. by rewrite E. Qed.

Lemma open_geo b s C held n :
  bsg b s C held → in_range b n → (length held < BLOCK_CONCURRENCY)%nat →
  ∃ i s', block_open n s = Ok (i, s') ∧ bsg b s' C (n :: held) ∧ buf s' i n ∧ keeps s s' held.
Proof.
  intros [Hb Hg] Hn Hroom. destruct (block_open_run s C held n Hb) as (i & s' & R & Hb' & Hi & E & K); [|done|].
  - by destruct Hg as (f & g & ->).
  - exists i, s'. split_and!; try done. split; [done|]. by rewrite E.
Qed.

Lemma close_geo b s C held i n :
  bsg b s C (n :: held) → buf s i n →
  ∃ s', block_close i s = Ok (tt, s') ∧ bsg b s' C held ∧ bstep s s'.
Proof.
  intros [Hb Hg] Hi. destruct (block_close_run s C held i n Hb Hi) as (s' & R & Hb' & P).
  exists s'. split_and!; try done. split; [done|]. by rewrite (bp_sb _ _ P).
Qed.

Lemma put_geo b s C held i n d c :
  bsg b s C held → buf s i n → length d = Z.to_nat BLOCK_SIZE → blocks s !! i = Some c →
  ∃ s', put_buf i (set_data d c) s = Ok (tt, s') ∧ bsg b s' (<[n := d]> C) held ∧ bstep s s'.
Proof.
  intros [Hb Hg] Hi Hd Hc. destruct (put_data_run s C held i n d c Hb Hi Hd Hc) as (s' & R & Hb' & P).
  exists s'. split_and!; try done. split; [done|]. by rewrite (bp_sb _ _ P).
Qed.

Lemma allocset_geo b s C held v :
  bsg b s C held → (length held < BLOCK_CONCURRENCY)%nat →
  ∃ s', keeps s s' held ∧
    match first_free b C with
    | Some k => block_allocset v s = Ok (datablock_offset b + k, s') ∧ bsg b s' (fresh b k v C) held
    | None => block_allocset v s = Ok (-1, s') ∧ bsg b s' C held
    end.
Proof.
  intros [Hb Hg] Hroom. destruct (block_allocset_run s C held v Hb Hroom) as (s' & K & Hs').
  exists s'. split; [done|]. destruct Hg as (f & g & E). unfold counted in Hs'. rewrite E in Hs'.
  change (first_free (set_used_block f (set_used_inode g b)) C) with (first_free b C) in Hs'.
  destruct (first_free b C) as [k|]; destruct Hs' as (R & Hb' & Hc).
  - split; [done|]. split; [done|]. rewrite Hc. apply geo_count. by exists f, g.
  - split; [done|]. split; [done|]. rewrite Hc. apply geo_count. by exists f, g.
Qed.

(** ** Arrays of pointers in open blocks *)
Lemma load_int_run b s C held i x k :
  bsg b s C held → buf s i x → 0 ≤ k < 1024 →
  load_int i k s = Ok (entry C x (Z.to_nat k), s).
Proof.
  intros [Hb _] Hi Hk. destruct (buf_data _ _ _ _ _ Hb Hi) as (c & R & _ & _ & _ & Hd & _).
  unfold load_int. rewrite (bind_Ok _ _ _ _ _ R). change NUM_INDIRECT_BLOCKS with 1024.
  rewrite (proj2 (Z.leb_le _ _)), (proj2 (Z.ltb_lt _ _)) by lia. cbn [andb]. by rewrite Hd.
Qed.

Lemma store_int_run b s C held i x k v :
  bsg b s C held → buf s i x → in_range b x → 0 ≤ k < 1024 →
  ∃ s', store_int i k v s = Ok (tt, s') ∧
    bsg b s' (<[x := set_entry (Z.to_nat k) v (C x)]> C) held ∧ bstep s s'.
Proof.
  intros Hb Hi Hx Hk. destruct (buf_data _ _ _ _ _ (proj1 Hb) Hi) as (c & R & Hc & _ & _ & Hd & _).
  unfold store_int. rewrite (bind_Ok _ _ _ _ _ R). change NUM_INDIRECT_BLOCKS with 1024.
  rewrite (proj2 (Z.leb_le _ _)), (proj2 (Z.ltb_lt _ _)) by lia. cbn [andb]. rewrite Hd.
  apply put_geo; try done. apply set_entry_length; [|lia]. by eapply bsg_len.
Qed.

(** The entry of an index block, allocated on demand. *)
Lemma map_entry_run b s C held n blk x k :
  bsg b s C held → (length held < BLOCK_CONCURRENCY)%nat → buf s blk x → x ∈ held → in_range b x →
  0 ≤ k < 1024 → tree_ok b C n →
  (∀ q, 0 ≤ q < block_count b → map_bit b C q = false → entry C x (Z.to_nat k) < 0 →
     extends b C n (linked b C q x (Z.to_nat k) 0) n ∧
     entry (linked b C q x (Z.to_nat k) 0) x (Z.to_nat k) = datablock_offset b + q) →
  ∃ r s' C', map_entry blk k s = Ok (r, s') ∧ bsg b s' C' held ∧ keeps s s' held ∧
    extends b C n C' n ∧
    (0 ≤ r ∧ r = entry C' x (Z.to_nat k) ∨
     r = -1 ∧ first_free b C' = None ∧ entry C' x (Z.to_nat k) < 0).
Proof.
  intros Hb Hroom Hblk Hx Hin Hk Ht Hgrow. unfold map_entry.
  rewrite (bind_Ok _ _ _ _ _ (load_int_run b s C held blk x k Hb Hblk Hk)).
  destruct (Z.ltb_spec (entry C x (Z.to_nat k)) 0) as [Hneg|Hpos].
  2: { exists (entry C x (Z.to_nat k)), s, C. split_and!; [done | done | by intros i m | by apply extends_refl | by left]. }
  destruct (allocset_geo b s C held 0 Hb Hroom) as (s1 & K1 & Hs1).
  destruct (first_free b C) as [q|] eqn:Ef; destruct Hs1 as (R1 & Hb1); rewrite (bind_Ok _ _ _ _ _ R1).
  - destruct (first_free_is _ _ _ Ef) as [Hq Hbit]. destruct (Hgrow q Hq Hbit Hneg) as [Hex Hent].
    destruct (data_range b q (bsg_sb _ _ _ _ Hb) Hq) as (_ & _ & ?).
    destruct (store_int_run b s1 _ held blk x k (datablock_offset b + q) Hb1) as (s2 & R2 & Hb2 & P2);
      [by apply K1 | done | done |].
    exists (datablock_offset b + q), s2, (linked b C q x (Z.to_nat k) 0).
    rewrite Z.geb_leb, (proj2 (Z.leb_le _ _)) by lia. rewrite (bind_Ok _ _ _ _ _ R2).
    split_and!; [done | done | | done | left; split; [lia | by rewrite Hent]].
    intros i m Hm Hi. by apply P2, K1.
  - exists (-1), s1, C. split_and!; [done | done | done | by apply extends_refl | by right].
Qed.

End Geo.
