(* ===== verification/InodeMapRun.v ===== *)
(** * The run of inode_mapblock

    [mapblock_run]: the call returns the block of the file block, or -1 with
    the volume full; the pointer tree only grows. *)

From S2P Require Import Prelude Block BlockProofs BlockAlloc Dcache Inode InodeLayout InodeMap.

(** The slot of a file block. *)
Definition slot_of (f : Z) : slot :=
  if f <? 10 then SDirect (Z.to_nat f)
  else if f <? 1034 then SIndEntry (Z.to_nat (f - 10))
  else SLeaf (Z.to_nat ((f - 1034) / 1024)) (Z.to_nat ((f - 1034) mod 1024)).

Definition MAX_FILE_BLOCKS : Z := NUM_DIRECT_BLOCKS + NUM_INDIRECT_BLOCKS + NUM_DOUBLE_INDIRECT_BLOCKS.

Lemma file_consts : NUM_DIRECT_BLOCKS = 10 ∧ NUM_INDIRECT_BLOCKS = 1024 ∧
  NUM_DOUBLE_INDIRECT_BLOCKS = 1048576 ∧ MAX_FILE_BLOCKS = 1049610.
Proof. done. Qed.

Lemma leaf_index g : 0 ≤ g < 1048576 → 0 ≤ g / 1024 < 1024 ∧ 0 ≤ g mod 1024 < 1024.
Proof.
  intros Hg. split; [|apply Z.mod_pos_bound; lia].
  split; [apply Z.div_pos; lia | apply Z.div_lt_upper_bound; lia].
Qed.

Lemma slot_of_ok f : 0 ≤ f < MAX_FILE_BLOCKS → slot_ok (slot_of f) ∧ is_index (slot_of f) = false.
Proof.
  intros Hf. destruct file_consts as (_ & _ & _ & EM). rewrite EM in Hf. unfold slot_of.
  destruct (Z.ltb_spec f 10); [simpl; lia|]. destruct (Z.ltb_spec f 1034); [simpl; lia|].
  pose proof (leaf_index (f - 1034) ltac:(lia)). simpl. lia.
Qed.

Lemma slot_of_inj f g :
  0 ≤ f < MAX_FILE_BLOCKS → 0 ≤ g < MAX_FILE_BLOCKS → slot_of f = slot_of g → f = g.
Proof.
  intros Hf Hg. destruct file_consts as (_ & _ & _ & EM). rewrite EM in *. unfold slot_of.
  destruct (Z.ltb_spec f 10), (Z.ltb_spec g 10); try done; [intros [=]; lia | | |];
    repeat (match goal with |- context [?a <? 1034] => destruct (Z.ltb_spec a 1034) end); try done.
  - intros [=]. lia.
  - pose proof (leaf_index (f - 1034) ltac:(lia)). pose proof (leaf_index (g - 1034) ltac:(lia)).
    intros [= E1 E2]. pose proof (Z.div_mod (f - 1034) 1024). pose proof (Z.div_mod (g - 1034) 1024). lia.
Qed.

Section MapRun.

Context {D : Type} `{SectorStore D}.
Implicit Types (s : fstate D) (C : Z → list Z) (held : list Z).

(** ** Lifting *)
Lemma liftb_Ok {A} (m : M (bstate D) A) s a b' :
  m (fb s) = Ok (a, b') → liftb m s = Ok (a, mk_fstate b' (inodes s) (fdc s)).
Proof. intros E. unfold liftb. by rewrite E. Qed.

Lemma get_inode_run s p i : inodes s !! p = Some i → get_inode p s = Ok (i, s).
Proof. intros E. unfold get_inode. by rewrite E. Qed.

Lemma put_inode_run s p i i' :
  inodes s !! p = Some i → put_inode p i' s = Ok (tt, mk_fstate (fb s) (<[p := i']> (inodes s)) (fdc s)).
Proof. intros E. unfold put_inode. by rewrite (bind_Ok _ _ _ _ _ (get_inode_run _ _ _ E)). Qed.

Lemma upd_node_run s p i f :
  inodes s !! p = Some i →
  upd_node p f s = Ok (tt, mk_fstate (fb s) (<[p := set_node (f (node i)) i]> (inodes s)) (fdc s)).
Proof.
  intros E. unfold upd_node, upd_inode. rewrite (bind_Ok _ _ _ _ _ (get_inode_run _ _ _ E)).
  by apply (put_inode_run s p i).
Qed.

(** The effect of a call on behalf of the inode [i] at [p]. *)
Record mapped (b : superblock_t) s C (p : nat) (i : inode_t) held s' C' (n' : diskinode_t) : Prop := {
  mp_bsg : bsg b (fb s') C' held;
  mp_keeps : keeps (fb s) (fb s') held;
  mp_ext : extends b C (node i) C' n';
  mp_inodes : inodes s' = <[p := set_node n' i]> (inodes s);
  mp_fdc : fdc s' = fdc s;
}.

Lemma mapped_refl b s C p i held :
  bsg b (fb s) C held → tree_ok b C (node i) → inodes s !! p = Some i → mapped b s C p i held s C (node i).
Proof.
  intros Hb Ht Hi. split; [done | by intros ? ? | by apply extends_refl | | done].
  rewrite list_insert_id; [done|]. by destruct i.
Qed.

Lemma mapped_lookup b s C p i held s' C' n' :
  mapped b s C p i held s' C' n' → inodes s !! p = Some i → inodes s' !! p = Some (set_node n' i).
Proof.
  intros Hm Hi. rewrite (mp_inodes _ _ _ _ _ _ _ _ _ Hm). apply list_lookup_insert_eq. by eapply lookup_lt_Some.
Qed.

Lemma mapped_trans b s C p i held s1 C1 n1 s2 C2 n2 :
  mapped b s C p i held s1 C1 n1 → mapped b s1 C1 p (set_node n1 i) held s2 C2 n2 →
  mapped b s C p i held s2 C2 n2.
Proof.
  intros [B1 K1 E1 I1 F1] [B2 K2 E2 I2 F2]. simpl in *. split.
  - done.
  - by eapply keeps_trans.
  - by eapply extends_trans.
  - rewrite I2, I1, list_insert_insert_eq. done.
  - congruence.
Qed.

(** Work inside the block layer that leaves the inode alone. *)
Lemma mapped_blocks b s C p i held bs' C' :
  inodes s !! p = Some i → bsg b bs' C' held → keeps (fb s) bs' held → extends b C (node i) C' (node i) →
  mapped b s C p i held (mk_fstate bs' (inodes s) (fdc s)) C' (node i).
Proof.
  intros Hi Hb K E. split; try done. simpl. rewrite list_insert_id; [done|]. by destruct i.
Qed.

(** ** The index blocks named by the inode itself *)
Lemma ensure_run b s C held p i e (get : diskinode_t → Z) (set : Z → diskinode_t → diskinode_t) :
  bsg b (fb s) C held → (length held < BLOCK_CONCURRENCY)%nat → inodes s !! p = Some i →
  tree_ok b C (node i) → e = get (node i) → (∀ x n, get (set x n) = x) →
  (∀ k, 0 ≤ k < block_count b → map_bit b C k = false → get (node i) < 0 →
     extends b C (node i) (fresh b k 255 C) (set (datablock_offset b + k) (node i))) →
  ∃ ok s1 C1 n1,
    (if e <? 0 then
       n <- liftb (block_allocset 255) ;;
       if n <? 0 then ret false else upd_node p (set n) ;; ret true
     else ret true) s = Ok (ok, s1) ∧
    mapped b s C p i held s1 C1 n1 ∧ if ok then 0 ≤ get n1 else first_free b C1 = None ∧ get n1 < 0.
Proof.
  intros Hb Hroom Hi Ht -> Hget Hgrow. destruct (Z.ltb_spec (get (node i)) 0) as [Hneg|Hpos].
  2: { exists true, s, C, (node i). split_and!; [done | by apply mapped_refl | done]. }
  destruct (allocset_geo b (fb s) C held 255 Hb Hroom) as (bs1 & K1 & Hs1).
  destruct (first_free b C) as [k|] eqn:Ef; destruct Hs1 as (R1 & Hb1);
    rewrite (bind_Ok _ _ _ _ _ (liftb_Ok _ s _ _ R1)).
  - destruct (first_free_is _ _ _ Ef) as [Hk Hbit].
    destruct (data_range b k (bsg_sb _ _ _ _ Hb) Hk) as (_ & _ & ?).
    rewrite (proj2 (Z.ltb_ge _ 0)) by lia.
    set (s1 := mk_fstate bs1 (inodes s) (fdc s)).
    rewrite (bind_Ok _ _ _ _ _ (upd_node_run s1 p i (set (datablock_offset b + k)) Hi)).
    eexists true, _, (fresh b k 255 C), (set (datablock_offset b + k) (node i)).
    split_and!; [done | | rewrite Hget; lia]. split; try done. by apply Hgrow.
  - exists false, (mk_fstate bs1 (inodes s) (fdc s)), C, (node i). split_and!; [done | | done | done].
    apply mapped_blocks; try done. by apply extends_refl.
Qed.

(** ** The call *)
Lemma room_le held k j : (length held + k ≤ BLOCK_CONCURRENCY)%nat → (j < k)%nat →
  (length held + j < BLOCK_CONCURRENCY)%nat.
Proof. lia. Qed.

(** The result of mapping file block [f]. *)
Definition map_result (b : superblock_t) C' (n' : diskinode_t) (f r : Z) : Prop :=
  (0 ≤ r ∧ r = ptr n' C' (slot_of f)) ∨ (r = -1 ∧ first_free b C' = None ∧ ptr n' C' (slot_of f) < 0).

Lemma map_direct b s C held p i f :
  bsg b (fb s) C held → (length held + 3 ≤ BLOCK_CONCURRENCY)%nat → inodes s !! p = Some i →
  tree_ok b C (node i) → 0 ≤ f < 10 →
  ∃ r s' C' n', inode_mapblock p f s = Ok (r, s') ∧ mapped b s C p i held s' C' n' ∧ map_result b C' n' f r.
Proof.
  intros Hb Hroom Hi Ht Hf. unfold inode_mapblock. rewrite (bind_Ok _ _ _ _ _ (get_inode_run _ _ _ Hi)).
  change NUM_DIRECT_BLOCKS with 10. rewrite (proj2 (Z.ltb_lt f 10)), (proj2 (Z.ltb_ge f 0)) by lia.
  unfold map_result, slot_of. rewrite (proj2 (Z.ltb_lt f 10)) by lia.
  destruct (lookup_lt_is_Some_2 (d_direct (node i)) (Z.to_nat f)) as [e He];
    [rewrite (to_direct _ _ _ Ht); lia|]. rewrite He. cbn [default from_option id].
  destruct (Z.ltb_spec e 0) as [Hneg|Hpos].
  2: { exists e, s, C, (node i). split_and!; [done | by apply mapped_refl |]. left. simpl. by rewrite He. }
  destruct (allocset_geo b (fb s) C held 0 Hb ltac:(lia)) as (bs1 & K1 & Hs1).
  destruct (first_free b C) as [k|] eqn:Ef; destruct Hs1 as (R1 & Hb1);
    rewrite (bind_Ok _ _ _ _ _ (liftb_Ok _ s _ _ R1)).
  - destruct (first_free_is _ _ _ Ef) as [Hk Hbit].
    destruct (data_range b k (bsg_sb _ _ _ _ Hb) Hk) as (_ & _ & ?).
    rewrite (proj2 (Z.ltb_ge _ 0)) by lia. set (s1 := mk_fstate bs1 (inodes s) (fdc s)).
    rewrite (bind_Ok _ _ _ _ _ (upd_node_run s1 p i _ Hi)).
    eexists _, _, (fresh b k 0 C), (set_direct (<[Z.to_nat f := datablock_offset b + k]> (d_direct (node i))) (node i)).
    split_and!; [done | |].
    + split; try done. apply grow_direct; try done; [by eapply bsg_sb | intros; by eapply bsg_len | lia | by simpl; rewrite He].
    + left. simpl. rewrite list_lookup_insert_eq; [simpl; lia|]. by eapply lookup_lt_Some.
  - exists (-1), (mk_fstate bs1 (inodes s) (fdc s)), C, (node i).
    split_and!; [done | | right; simpl; by rewrite He].
    apply mapped_blocks; try done. by apply extends_refl.
Qed.

(** Open the index block [x], map its entry [k], close it. *)
Lemma through_index b s C held p i psl k :
  let x := ptr (node i) C psl in
  bsg b (fb s) C held → (length held + 2 ≤ BLOCK_CONCURRENCY)%nat → inodes s !! p = Some i →
  tree_ok b C (node i) → slot_ok psl → 0 ≤ x → 0 ≤ k < 1024 →
  (∀ q, 0 ≤ q < block_count b → map_bit b C q = false → entry C x (Z.to_nat k) < 0 →
     extends b C (node i) (linked b C q x (Z.to_nat k) 0) (node i)) →
  ∃ r s' C', (∀ A (K : Z → M (fstate D) A),
      (blk <- liftb (block_open x) ;; n <- liftb (map_entry blk k) ;;
       liftb (block_close blk) ;; K n) s = K r s') ∧
    mapped b s C p i held s' C' (node i) ∧
    (0 ≤ r ∧ r = entry C' x (Z.to_nat k) ∨
     r = -1 ∧ first_free b C' = None ∧ entry C' x (Z.to_nat k) < 0).
Proof.
  intros x Hb Hroom Hi Ht Hp Hx Hk Hgrow. pose proof (bsg_sb _ _ _ _ Hb) as Hsb.
  assert (alloc_block b C x) as Hal by (by apply Ht).
  destruct (alloc_range b C x Hsb Hal) as [Hin _].
  destruct (open_geo b (fb s) C held x Hb Hin ltac:(lia)) as (blk & bs1 & R1 & Hb1 & Hbuf1 & K1).
  destruct (map_entry_run b bs1 C (x :: held) (node i) blk x k Hb1) as (r & bs2 & C2 & R2 & Hb2 & K2 & Hex & Hr);
    [simpl; lia | done | by left | done | done | done | |].
  { intros q Hq Hbit Hneg. split; [by apply Hgrow|].
    rewrite (linked_entry b C (node i) q Hsb Hq Hbit (fun m Hm => bsg_len _ _ _ _ m Hb Hm) Ht psl);
      [by rewrite decide_True | done | done | done | lia]. }
  destruct (close_geo b bs2 C2 held blk x Hb2) as (bs3 & R3 & Hb3 & P3); [apply K2; [by left | done]|].
  exists r, (mk_fstate bs3 (inodes s) (fdc s)), C2. split_and!; [| | done].
  { intros A K. rewrite (bind_Ok _ _ _ _ _ (liftb_Ok _ s _ _ R1)).
    rewrite (bind_Ok _ _ _ _ _ (liftb_Ok _ (mk_fstate bs1 (inodes s) (fdc s)) _ _ R2)).
    by rewrite (bind_Ok _ _ _ _ _ (liftb_Ok _ (mk_fstate bs2 (inodes s) (fdc s)) _ _ R3)). }
  apply mapped_blocks; try done.
  intros j m Hm Hj. apply P3, K2; [by right|]. by apply K1.
Qed.

Lemma map_indirect b s C held p i f :
  bsg b (fb s) C held → (length held + 3 ≤ BLOCK_CONCURRENCY)%nat → inodes s !! p = Some i →
  tree_ok b C (node i) → 10 ≤ f < 1034 →
  ∃ r s' C' n', inode_mapblock p f s = Ok (r, s') ∧ mapped b s C p i held s' C' n' ∧ map_result b C' n' f r.
Proof.
  intros Hb Hroom Hi Ht Hf. unfold inode_mapblock. rewrite (bind_Ok _ _ _ _ _ (get_inode_run _ _ _ Hi)).
  change NUM_DIRECT_BLOCKS with 10. change NUM_INDIRECT_BLOCKS with 1024. cbv zeta.
  rewrite (proj2 (Z.ltb_ge f 10)), (proj2 (Z.ltb_lt (f - 10) 1024)) by lia.
  unfold map_result, slot_of. rewrite (proj2 (Z.ltb_ge f 10)), (proj2 (Z.ltb_lt f 1034)) by lia.
  destruct (ensure_run b s C held p i (d_indirect (node i)) d_indirect set_indirect Hb ltac:(lia) Hi Ht)
    as (ok & s1 & C1 & n1 & R1 & M1 & Hok); [done | done | |].
  { intros k Hk Hbit Hneg. apply grow_indirect; try done; [by eapply bsg_sb | intros; by eapply bsg_len]. }
  rewrite (bind_Ok _ _ _ _ _ R1). destruct ok; cbn [negb].
  2: { exists (-1), s1, C1, n1. split_and!; [done | done | right]. destruct Hok as [Hfull Hneg].
       split_and!; [done | done |]. simpl. unfold via. by rewrite (proj2 (Z.ltb_lt _ 0)) by lia. }
  pose proof (mapped_lookup _ _ _ _ _ _ _ _ _ M1 Hi) as Hi1.
  rewrite (bind_Ok _ _ _ _ _ (get_inode_run _ _ _ Hi1)).
  pose proof (ex_ok _ _ _ _ _ (mp_ext _ _ _ _ _ _ _ _ _ M1)) as Ht1.
  destruct (through_index b s1 C1 held p (set_node n1 i) SInd (f - 10)) as (r & s2 & C2 & R2 & M2 & Hr);
    [apply M1 | lia | done | done | done | done | lia | |].
  { intros q Hq Hbit Hneg. simpl in *. apply grow_ind_entry; try done;
      [eapply bsg_sb, M1 | intros; eapply bsg_len; [apply M1 | done] | lia]. }
  exists r, s2, C2, n1. split_and!; [exact (R2 _ ret) | by eapply mapped_trans |]. simpl in *.
  unfold via. rewrite (proj2 (Z.ltb_ge _ 0)) by lia. done.
Qed.

(** The middle level of the double indirection, in the open root [x]. *)
Lemma ensure_mid b s C held n blk idx :
  let x := d_double_indirect n in
  bsg b (fb s) C held → (length held < BLOCK_CONCURRENCY)%nat → buf (fb s) blk x → x ∈ held →
  tree_ok b C n → 0 ≤ x → 0 ≤ idx < 1024 →
  ∃ ok bs' C',
    (if entry C x (Z.to_nat idx) <? 0 then
       direct <- liftb (block_allocset 255) ;;
       if direct <? 0 then ret false else liftb (store_int blk idx direct) ;; ret true
     else ret true) s = Ok (ok, mk_fstate bs' (inodes s) (fdc s)) ∧
    bsg b bs' C' held ∧ keeps (fb s) bs' held ∧ extends b C n C' n ∧
    if ok then 0 ≤ entry C' x (Z.to_nat idx) else first_free b C' = None ∧ entry C' x (Z.to_nat idx) < 0.
Proof.
  intros x Hb Hroom Hbuf Hx Ht Hx0 Hidx. pose proof (bsg_sb _ _ _ _ Hb) as Hsb.
  assert (alloc_block b C x) as Hal by (by apply (to_alloc _ _ _ Ht SDbl)).
  destruct (alloc_range b C x Hsb Hal) as [Hin _].
  destruct (Z.ltb_spec (entry C x (Z.to_nat idx)) 0) as [Hneg|Hpos].
  2: { exists true, (fb s), C. split_and!; [by destruct s | done | by intros ? ? | by apply extends_refl | done]. }
  destruct (allocset_geo b (fb s) C held 255 Hb Hroom) as (bs1 & K1 & Hs1).
  destruct (first_free b C) as [k|] eqn:Ef; destruct Hs1 as (R1 & Hb1);
    rewrite (bind_Ok _ _ _ _ _ (liftb_Ok _ s _ _ R1)).
  - destruct (first_free_is _ _ _ Ef) as [Hk Hbit]. destruct (data_range b k Hsb Hk) as (_ & _ & ?).
    rewrite (proj2 (Z.ltb_ge _ 0)) by lia.
    destruct (store_int_run b bs1 _ held blk x idx (datablock_offset b + k) Hb1) as (bs2 & R2 & Hb2 & P2);
      [by apply K1 | done | done |].
    rewrite (bind_Ok _ _ _ _ _ (liftb_Ok _ (mk_fstate bs1 (inodes s) (fdc s)) _ _ R2)).
    exists true, bs2, (linked b C k x (Z.to_nat idx) 255). split_and!; [done | done | | |].
    + intros j m Hm Hj. by apply P2, K1.
    + apply grow_mid; try done; [intros; by eapply bsg_len | lia].
    + rewrite (linked_entry b C n k Hsb Hk Hbit (fun m Hm => bsg_len _ _ _ _ m Hb Hm) Ht SDbl);
        [|done | done | done | lia]. rewrite decide_True by done. lia.
  - exists false, bs1, C. split_and!; [done | done | done | by apply extends_refl | done | done].
Qed.

Lemma map_double b s C held p i f :
  bsg b (fb s) C held → (length held + 3 ≤ BLOCK_CONCURRENCY)%nat → inodes s !! p = Some i →
  tree_ok b C (node i) → 1034 ≤ f < MAX_FILE_BLOCKS →
  ∃ r s' C' n', inode_mapblock p f s = Ok (r, s') ∧ mapped b s C p i held s' C' n' ∧ map_result b C' n' f r.
Proof.
  intros Hb Hroom Hi Ht Hf. unfold inode_mapblock. rewrite (bind_Ok _ _ _ _ _ (get_inode_run _ _ _ Hi)).
  destruct file_consts as (_ & _ & E3 & E4). rewrite E4 in Hf. rewrite E3.
  change NUM_DIRECT_BLOCKS with 10. change NUM_INDIRECT_BLOCKS with 1024. cbv zeta.
  rewrite (proj2 (Z.ltb_ge f 10)), (proj2 (Z.ltb_ge (f - 10) 1024)) by lia.
  unfold map_result, slot_of. rewrite (proj2 (Z.ltb_ge f 10)), (proj2 (Z.ltb_ge f 1034)) by lia.
  unfold asserts. rewrite (proj2 (Z.ltb_lt (f - 10 - 1024) 1048576)) by lia. unfold ret at 1. cbn [bind].
  replace (f - 10 - 1024) with (f - 1034) by lia. set (g := f - 1034).
  destruct (leaf_index g ltac:(lia)) as [Hidx Hoff].
  destruct (ensure_run b s C held p i (d_double_indirect (node i)) d_double_indirect set_double_indirect
    Hb ltac:(lia) Hi Ht) as (ok & s1 & C1 & n1 & R1 & M1 & Hok); [done | done | |].
  { intros k Hk Hbit Hneg. apply grow_double; try done; [by eapply bsg_sb | intros; by eapply bsg_len]. }
  rewrite (bind_Ok _ _ _ _ _ R1). destruct ok; cbn [negb].
  2: { exists (-1), s1, C1, n1. split_and!; [done | done | right]. destruct Hok as [Hfull Hneg].
       split_and!; [done | done |]. simpl. unfold via at 2. by rewrite (proj2 (Z.ltb_lt _ 0)) by lia. }
  pose proof (mapped_lookup _ _ _ _ _ _ _ _ _ M1 Hi) as Hi1.
  rewrite (bind_Ok _ _ _ _ _ (get_inode_run _ _ _ Hi1)). cbn [node set_node].
  pose proof (ex_ok _ _ _ _ _ (mp_ext _ _ _ _ _ _ _ _ _ M1)) as Ht1.
  pose proof (mp_bsg _ _ _ _ _ _ _ _ _ M1) as Hb1. pose proof (bsg_sb _ _ _ _ Hb1) as Hsb.
  set (x := d_double_indirect n1) in *.
  assert (alloc_block b C1 x) as Hal by (by apply (to_alloc _ _ _ Ht1 SDbl)).
  destruct (alloc_range b C1 x Hsb Hal) as [Hin _].
  destruct (open_geo b (fb s1) C1 held x Hb1 Hin ltac:(lia)) as (root & bs2 & R2 & Hb2 & Hroot & K2).
  set (s2 := mk_fstate bs2 (inodes s1) (fdc s1)).
  rewrite (bind_Ok _ _ _ _ _ (liftb_Ok _ s1 _ _ R2)).
  rewrite (bind_Ok _ _ _ _ _ (liftb_Ok _ s2 _ _ (load_int_run b bs2 C1 (x :: held) root x (g / 1024) Hb2 Hroot Hidx))).
  destruct (ensure_mid b s2 C1 (x :: held) n1 root (g / 1024)) as (ok & bs3 & C3 & R3 & Hb3 & K3 & Ex3 & Hok3);
    [done | simpl; lia | done | by left | done | done | done |]. fold x in R3, Hok3.
  change (mk_fstate (fb s2) (inodes s2) (fdc s2)) with s2. rewrite (bind_Ok _ _ _ _ _ R3).
  set (s3 := mk_fstate bs3 (inodes s2) (fdc s2)).
  assert (buf bs3 root x) as Hroot3 by (apply K3; [by left | done]).
  assert (keeps (fb s1) bs3 held) as K13 by (intros j m Hm Hj; apply K3; [by right | by apply K2]).
  destruct ok; cbn [negb].
  2: { destruct (close_geo b bs3 C3 held root x Hb3 Hroot3) as (bs4 & R4 & Hb4 & P4).
       rewrite (bind_Ok _ _ _ _ _ (liftb_Ok _ s3 _ _ R4)).
       exists (-1), (mk_fstate bs4 (inodes s3) (fdc s3)), C3, n1. split_and!; [done | |].
       2: { right. destruct Hok3 as [Hfull Hneg]. split_and!; [done | done |]. simpl. fold x.
            unfold via. rewrite (proj2 (Z.ltb_ge x 0)) by lia. by rewrite (proj2 (Z.ltb_lt _ 0)) by lia. }
       eapply mapped_trans; [exact M1|].
       apply (mapped_blocks b s1 C1 p (set_node n1 i) held bs4 C3); try done.
       intros j m Hm Hj. by apply P4, K13. }
  rewrite (bind_Ok _ _ _ _ _ (liftb_Ok _ s3 _ _ (load_int_run b bs3 C3 (x :: held) root x (g / 1024) Hb3 Hroot3 Hidx))).
  change (mk_fstate (fb s3) (inodes s3) (fdc s3)) with s3.
  pose proof (ex_ok _ _ _ _ _ Ex3) as Ht3.
  assert (ptr n1 C3 (SMid (Z.to_nat (g / 1024))) = entry C3 x (Z.to_nat (g / 1024))) as Emid.
  { simpl. unfold via. fold x. by rewrite (proj2 (Z.ltb_ge x 0)) by lia. }
  destruct (through_index b s3 C3 (x :: held) p (set_node n1 i) (SMid (Z.to_nat (g / 1024))) (g mod 1024))
    as (r & s5 & C5 & R5 & M5 & Hr); [done | simpl; lia | done | done | simpl; lia | | done | |].
  { cbn [node set_node]. rewrite Emid. done. }
  { cbn [node set_node]. intros q Hq Hbit Hneg. rewrite Emid in *. rewrite <- Emid. simpl.
    apply grow_leaf; try done; [intros; by eapply (bsg_len b bs3) | lia | lia | simpl in Emid; by rewrite Emid
      | simpl in Emid; by rewrite Emid]. }
  cbn [node set_node] in R5, Hr, M5. rewrite Emid in R5, Hr. rewrite R5.
  pose proof (mp_bsg _ _ _ _ _ _ _ _ _ M5) as Hb5.
  assert (buf (fb s5) root x) as Hroot5 by (apply (mp_keeps _ _ _ _ _ _ _ _ _ M5); [by left | done]).
  destruct (close_geo b (fb s5) C5 held root x Hb5 Hroot5) as (bs6 & R6 & Hb6 & P6).
  rewrite (bind_Ok _ _ _ _ _ (liftb_Ok _ s5 _ _ R6)).
  exists r, (mk_fstate bs6 (inodes s5) (fdc s5)), C5, n1. split_and!; [done | |].
  - eapply mapped_trans; [exact M1|].
    assert (inodes s5 = inodes s1 ∧ fdc s5 = fdc s1) as [-> ->].
    { destruct M5 as [_ _ _ I5 F5]. simpl in I5, F5. rewrite I5. split; [|done].
      apply list_insert_id. by rewrite Hi1. }
    apply (mapped_blocks b s1 C1 p (set_node n1 i) held bs6 C5); try done.
    + intros j m Hm Hj. apply P6, (mp_keeps _ _ _ _ _ _ _ _ _ M5); [by right | by apply K13].
    + eapply extends_trans; [exact Ex3 | apply M5].
  - simpl. fold x.
    pose proof (ex_ptr _ _ _ _ _ (mp_ext _ _ _ _ _ _ _ _ _ M5) (SMid (Z.to_nat (g / 1024)))) as Ep.
    cbn [node set_node] in Ep. rewrite Emid in Ep. specialize (Ep ltac:(simpl; lia) Hok3).
    simpl in Ep. fold x in Ep. rewrite Ep. unfold via. rewrite (proj2 (Z.ltb_ge _ 0)) by lia. done.
Qed.

(** [inode_mapblock] on every file block. *)
Lemma mapblock_run b s C held p i f :
  bsg b (fb s) C held → (length held + 3 ≤ BLOCK_CONCURRENCY)%nat → inodes s !! p = Some i →
  tree_ok b C (node i) → 0 ≤ f < MAX_FILE_BLOCKS →
  ∃ r s' C' n', inode_mapblock p f s = Ok (r, s') ∧ mapped b s C p i held s' C' n' ∧ map_result b C' n' f r.
Proof.
  intros Hb Hroom Hi Ht Hf. destruct (decide (f < 10)); [apply map_direct; [done..|lia]|].
  destruct (decide (f < 1034)); [apply map_indirect; [done..|lia] | apply map_double; [done..|lia]].
Qed.

End MapRun.
