(* ===== verification/InodeIO.v ===== *)
(** * inode_read and inode_write of inode.c refine an array of bytes

    [fbyte n C o] is byte [o] of the file of inode [n] on the volume [C]; a
    hole reads as zero. Writing replaces a range of this array, reading
    returns a range of it, and nothing of another file changes. *)

From S2P Require Import Prelude Block BlockProofs BlockAlloc Dcache Inode InodeLayout InodeMap InodeMapRun.

Definition zero_block : list Z := replicate (Z.to_nat BLOCK_SIZE) 0.

(** Block [f] of the file. *)
Definition fblock (n : diskinode_t) (C : Z → list Z) (f : Z) : list Z :=
  if ptr n C (slot_of f) <? 0 then zero_block else C (ptr n C (slot_of f)).

(** Byte [o] of the file. *)
Definition fbyte (n : diskinode_t) (C : Z → list Z) (o : Z) : Z :=
  default 0 (fblock n C (o / BLOCK_SIZE) !! Z.to_nat (o mod BLOCK_SIZE)).

(** What may change on a volume when the inode [n] is worked on: blocks of
    its own tree and blocks that were free. *)
Record evolves (b : superblock_t) (C : Z → list Z) (n : diskinode_t) (C' : Z → list Z) (n' : diskinode_t) : Prop := {
  ev_ok : tree_ok b C' n';
  ev_ptr sl : slot_ok sl → 0 ≤ ptr n C sl → ptr n' C' sl = ptr n C sl;
  ev_frame x : alloc_block b C x → ¬ owns n C x → C' x = C x;
  ev_alloc x : alloc_block b C x → alloc_block b C' x;
  ev_fresh x : owns n' C' x → owns n C x ∨ ¬ alloc_block b C x;
  ev_meta x : inode_offset b ≤ x < datablock_offset b → C' x = C x;
  ev_fields : d_type n' = d_type n ∧ d_link_count n' = d_link_count n ∧
    d_inode_num n' = d_inode_num n ∧ d_size n' = d_size n ∧ d_blocks n' = d_blocks n;
  ev_wf : dinode_wf n → dinode_wf n';
}.

Lemma extends_evolves b C n C' n' : extends b C n C' n' → evolves b C n C' n'.
Proof. intros []. by split. Qed.

Lemma evolves_trans b C n C1 n1 C2 n2 :
  evolves b C n C1 n1 → evolves b C1 n1 C2 n2 → evolves b C n C2 n2.
Proof.
  intros E1 E2. split.
  - apply E2.
  - intros sl Hsl Hp. pose proof (ev_ptr _ _ _ _ _ E1 sl Hsl Hp) as E.
    rewrite <- E. apply (ev_ptr _ _ _ _ _ E2); [done | by rewrite E].
  - intros x Hx Hn. rewrite <- (ev_frame _ _ _ _ _ E1 x Hx Hn). apply (ev_frame _ _ _ _ _ E2).
    + by apply (ev_alloc _ _ _ _ _ E1).
    + intros Ho. destruct (ev_fresh _ _ _ _ _ E1 x Ho); tauto.
  - intros x Hx. by apply (ev_alloc _ _ _ _ _ E2), (ev_alloc _ _ _ _ _ E1).
  - intros x Ho. destruct (ev_fresh _ _ _ _ _ E2 x Ho) as [Ho1|Hn1].
    + by apply (ev_fresh _ _ _ _ _ E1).
    + right. intros Hx. by apply Hn1, (ev_alloc _ _ _ _ _ E1).
  - intros x Hx. rewrite <- (ev_meta _ _ _ _ _ E1 x Hx). by apply (ev_meta _ _ _ _ _ E2).
  - pose proof (ev_fields _ _ _ _ _ E1). pose proof (ev_fields _ _ _ _ _ E2). destr. split_and!; congruence.
  - intros Hwf. by apply (ev_wf _ _ _ _ _ E2), (ev_wf _ _ _ _ _ E1).
Qed.

(** Growing the pointer tree does not change the file. *)
Lemma extends_fblock b C n C' n' f :
  extends b C n C' n' → 0 ≤ f < MAX_FILE_BLOCKS → fblock n' C' f = fblock n C f.
Proof.
  intros E Hf. destruct (slot_of_ok f Hf) as [Hsl Hi]. unfold fblock.
  destruct (Z.ltb_spec (ptr n C (slot_of f)) 0) as [Hneg|Hpos].
  - destruct (Z.ltb_spec (ptr n' C' (slot_of f)) 0); [done|]. by apply (ex_new _ _ _ _ _ E).
  - rewrite (ex_ptr _ _ _ _ _ E) by done. rewrite (proj2 (Z.ltb_ge _ 0)) by lia.
    by apply (ex_data _ _ _ _ _ E).
Qed.

(** ** Overwriting a data block *)
Section Overwrite.

Context (b : superblock_t) (C : Z → list Z) (n : diskinode_t) (f : Z) (d : list Z).
Context (Hb : sb_ok b) (Ht : tree_ok b C n) (Hf : 0 ≤ f < MAX_FILE_BLOCKS).

Let r := ptr n C (slot_of f).
Context (Hr : 0 ≤ ptr n C (slot_of f)).

Lemma overwrite_ptr sl : slot_ok sl → ptr n (<[r := d]> C) sl = ptr n C sl.
Proof.
  intros Hsl. destruct (slot_of_ok f Hf) as [Hf1 Hf2]. apply ptr_ext; [|done].
  intros s1 H1 Hi H0. apply fn_lookup_insert_ne. unfold r. intros E.
  assert (slot_of f = s1) as Es by (by apply (to_inj _ _ _ Ht)). congruence.
Qed.

Lemma overwrite_alloc : alloc_block b C r.
Proof. apply Ht; [by apply slot_of_ok | done]. Qed.

Lemma overwrite_bit k : 0 ≤ k < block_count b → map_bit b (<[r := d]> C) k = map_bit b C k.
Proof.
  intros Hk. unfold map_bit. rewrite fn_lookup_insert_ne; [done|].
  apply (alloc_not_map b C r k); [done | apply overwrite_alloc | done].
Qed.

Lemma overwrite_evolves : evolves b C n (<[r := d]> C) n.
Proof.
  assert (∀ x, alloc_block b C x ↔ alloc_block b (<[r := d]> C) x) as Hal.
  { intros x. unfold alloc_block. split; intros [Hx Hbit]; (split; [done|]); by rewrite overwrite_bit in *. }
  split; try done.
  - split; [apply Ht | |].
    + intros sl Hsl H0. rewrite overwrite_ptr in * by done. apply Hal. by apply Ht.
    + intros s1 s2 H1 H2 H0 E. rewrite !overwrite_ptr in * by done. by apply (to_inj _ _ _ Ht).
  - intros sl Hsl _. by apply overwrite_ptr.
  - intros x Hx Hn. apply fn_lookup_insert_ne. intros <-. apply Hn. exists (slot_of f).
    split_and!; [by apply slot_of_ok | done | done].
  - intros x Hx. by apply Hal.
  - intros x (sl & Hsl & E & H0). left. exists sl. by rewrite overwrite_ptr in E.
  - intros x Hx. apply fn_lookup_insert_ne. intros E. destruct overwrite_alloc as [? _]. lia.
Qed.

Lemma overwrite_fblock g :
  0 ≤ g < MAX_FILE_BLOCKS → fblock n (<[r := d]> C) g = if decide (g = f) then d else fblock n C g.
Proof.
  intros Hg. unfold fblock. rewrite overwrite_ptr by (by apply slot_of_ok). case_decide as E.
  - subst g. rewrite (proj2 (Z.ltb_ge _ 0)) by done. apply fn_lookup_insert.
  - destruct (Z.ltb_spec (ptr n C (slot_of g)) 0); [done|]. apply fn_lookup_insert_ne. intros E'.
    apply E. symmetry. apply slot_of_inj; [done..|].
    apply (to_inj _ _ _ Ht); [by apply slot_of_ok | by apply slot_of_ok | done | done].
Qed.

End Overwrite.

(** ** Bytes *)
Lemma block_split o : o = BLOCK_SIZE * (o / BLOCK_SIZE) + o mod BLOCK_SIZE ∧ 0 ≤ o mod BLOCK_SIZE < BLOCK_SIZE.
Proof. split; [by apply Z.div_mod | by apply Z.mod_pos_bound]. Qed.

Lemma file_block_range o : 0 ≤ o < 2 ^ 32 → 0 ≤ o / BLOCK_SIZE < MAX_FILE_BLOCKS.
Proof.
  intros Ho. destruct file_consts as (_ & _ & _ & ->). change BLOCK_SIZE with 4096.
  split; [apply Z.div_pos; lia | apply Z.div_lt_upper_bound; lia].
Qed.

(** Position of a byte at [q] bytes into block [f]. *)
Lemma byte_position f q : 0 ≤ q < BLOCK_SIZE → (BLOCK_SIZE * f + q) / BLOCK_SIZE = f ∧ (BLOCK_SIZE * f + q) mod BLOCK_SIZE = q.
Proof.
  intros Hq. change BLOCK_SIZE with 4096 in *. rewrite Z.add_comm, Z.mul_comm.
  rewrite Z.div_add, Z.mod_add, Z.div_small, Z.mod_small by lia. lia.
Qed.

Lemma fblock_length b (C : Z → list Z) n f :
  (∀ m, in_range b m → length (C m) = Z.to_nat BLOCK_SIZE) → sb_ok b → tree_ok b C n →
  0 ≤ f < MAX_FILE_BLOCKS → length (fblock n C f) = Z.to_nat BLOCK_SIZE.
Proof.
  intros Hlen Hb Ht Hf. unfold fblock. destruct (Z.ltb_spec (ptr n C (slot_of f)) 0); [apply length_replicate|].
  apply Hlen. eapply alloc_range; [done|]. apply Ht; [by apply slot_of_ok | done].
Qed.

(** A piece of a block is a range of the file. *)
Lemma chunk_bytes n C f q k :
  length (fblock n C f) = Z.to_nat BLOCK_SIZE → 0 ≤ q → 0 ≤ k → q + k ≤ BLOCK_SIZE →
  take (Z.to_nat k) (drop (Z.to_nat q) (fblock n C f)) = fbyte n C <$> seqZ (BLOCK_SIZE * f + q) k.
Proof.
  intros Hlen Hq Hk Hqk. apply list_eq. intros j. rewrite list_lookup_fmap.
  destruct (decide (Z.of_nat j < k)) as [Hj|Hj].
  - rewrite lookup_take_lt, lookup_drop by lia. rewrite lookup_seqZ_lt by done. simpl. unfold fbyte.
    destruct (byte_position f (q + Z.of_nat j)) as [E1 E2]; [lia|].
    replace (BLOCK_SIZE * f + q + Z.of_nat j) with (BLOCK_SIZE * f + (q + Z.of_nat j)) by lia.
    rewrite E1, E2. replace (Z.to_nat (q + Z.of_nat j)) with (Z.to_nat q + j)%nat by lia.
    destruct (lookup_lt_is_Some_2 (fblock n C f) (Z.to_nat q + j)) as [x ->]; [lia | done].
  - rewrite lookup_take_ge by lia. by rewrite lookup_seqZ_ge by lia.
Qed.

(** Bytes after a piece of block [f] was replaced. *)
Lemma splice_bytes n C n' C' f q v o :
  length (fblock n C f) = Z.to_nat BLOCK_SIZE → 0 ≤ q → q + Z.of_nat (length v) ≤ BLOCK_SIZE →
  0 ≤ o < 2 ^ 32 →
  (∀ g, 0 ≤ g < MAX_FILE_BLOCKS →
     fblock n' C' g = if decide (g = f) then splice (Z.to_nat q) v (fblock n C f) else fblock n C g) →
  fbyte n' C' o =
    let a := BLOCK_SIZE * f + q in
    if decide (a ≤ o < a + Z.of_nat (length v)) then default 0 (v !! Z.to_nat (o - a)) else fbyte n C o.
Proof.
  intros Hlen Hq Hqv Ho Hblk. cbv zeta. set (a := BLOCK_SIZE * f + q). unfold fbyte at 1. rewrite Hblk by (by apply file_block_range).
  destruct (block_split o) as [Eo Hm]. case_decide as Ef.
  - rewrite splice_lookup by lia. unfold a. rewrite <- Ef. case_decide as Hin.
    + rewrite decide_True by lia. do 2 f_equal. lia.
    + rewrite decide_False by lia. unfold fbyte. by rewrite Ef.
  - rewrite decide_False; [done|]. intros Hin. apply Ef. unfold a in Hin.
    replace o with (BLOCK_SIZE * f + (o - BLOCK_SIZE * f)) by lia.
    apply byte_position. change BLOCK_SIZE with 4096 in *. lia.
Qed.

Section IO.

Context {D : Type} `{SectorStore D}.
Implicit Types (s : fstate D) (C : Z → list Z) (held : list Z).

(** The effect of a transfer on behalf of the inode [i] at [p]. *)
Record worked (b : superblock_t) s C (p : nat) (i : inode_t) held s' C' (n' : diskinode_t) : Prop := {
  wk_bsg : bsg b (fb s') C' held;
  wk_keeps : keeps (fb s) (fb s') held;
  wk_ev : evolves b C (node i) C' n';
  wk_inodes : inodes s' = <[p := set_node n' i]> (inodes s);
  wk_fdc : fdc s' = fdc s;
}.

Lemma mapped_worked b s C p i held s' C' n' :
  mapped b s C p i held s' C' n' → worked b s C p i held s' C' n'.
Proof. intros []. split; try done. by apply extends_evolves. Qed.

Lemma worked_lookup b s C p i held s' C' n' :
  worked b s C p i held s' C' n' → inodes s !! p = Some i → inodes s' !! p = Some (set_node n' i).
Proof.
  intros Hm Hi. rewrite (wk_inodes _ _ _ _ _ _ _ _ _ Hm). apply list_lookup_insert_eq. by eapply lookup_lt_Some.
Qed.

Lemma worked_trans b s C p i held s1 C1 n1 s2 C2 n2 :
  worked b s C p i held s1 C1 n1 → worked b s1 C1 p (set_node n1 i) held s2 C2 n2 →
  worked b s C p i held s2 C2 n2.
Proof.
  intros [B1 K1 E1 I1 F1] [B2 K2 E2 I2 F2]. simpl in *. split.
  - done.
  - by eapply keeps_trans.
  - by eapply evolves_trans.
  - rewrite I2, I1, list_insert_insert_eq. done.
  - congruence.
Qed.

(** The turns a transfer of [rem] bytes at [offset] still needs. *)
Definition turns (offset rem : Z) : Z := (offset mod BLOCK_SIZE + rem + BLOCK_SIZE - 1) / BLOCK_SIZE.

Lemma turns_step offset rem :
  0 ≤ offset → 0 < rem →
  let chunk := Z.min (BLOCK_SIZE - offset mod BLOCK_SIZE) rem in
  0 < chunk ≤ rem ∧ offset mod BLOCK_SIZE + chunk ≤ BLOCK_SIZE ∧ 0 < turns offset rem ∧
  (chunk < rem → turns (offset + chunk) (rem - chunk) = turns offset rem - 1).
Proof.
  intros Ho Hr. cbv zeta. destruct (block_split offset) as [Eo Hm]. unfold turns.
  change BLOCK_SIZE with 4096 in *. split_and!; [lia.. | |].
  - apply Z.div_str_pos. lia.
  - intros Hlt. replace (Z.min (4096 - offset mod 4096) rem) with (4096 - offset mod 4096) in * by lia.
    replace (offset + (4096 - offset mod 4096)) with ((offset / 4096 + 1) * 4096) by lia.
    rewrite Z.mod_mul by lia.
    replace (0 + (rem - (4096 - offset mod 4096)) + 4096 - 1)
      with (offset mod 4096 + rem + 4096 - 1 + (-1) * 4096) by lia.
    rewrite Z.div_add by lia. lia.
Qed.

Lemma io_fuel_enough offset len : 0 ≤ len → turns offset len ≤ Z.of_nat (io_fuel len).
Proof.
  intros Hl. unfold turns, io_fuel. destruct (block_split offset) as [_ Hm].
  change BLOCK_SIZE with 4096 in *. pose proof (Z.div_pos len 4096 ltac:(lia) ltac:(lia)).
  rewrite Z2Nat.id by lia. apply Z.lt_succ_r, Z.div_lt_upper_bound; [lia|].
  pose proof (Z.div_mod len 4096 ltac:(lia)). pose proof (Z.mod_pos_bound len 4096 ltac:(lia)). lia.
Qed.

(** Open the data block of file block [f], replace its contents, close it. *)
Lemma overwrite_run b s C held p i f d :
  bsg b (fb s) C held → (length held + 3 ≤ BLOCK_CONCURRENCY)%nat → inodes s !! p = Some i →
  tree_ok b C (node i) → 0 ≤ f < MAX_FILE_BLOCKS →
  let r := ptr (node i) C (slot_of f) in
  0 ≤ r → (∀ l, length l = Z.to_nat BLOCK_SIZE → length (d l) = Z.to_nat BLOCK_SIZE) →
  ∃ s', (∀ A (K : M (fstate D) A),
      (blk <- liftb (block_open r) ;; c <- liftb (get_buf blk) ;;
       liftb (put_buf blk (set_data (d (data c)) c)) ;; liftb (block_close blk) ;; K) s = K s') ∧
    worked b s C p i held s' (<[r := d (C r)]> C) (node i).
Proof.
  intros Hb Hroom Hi Ht Hf r Hr Hd. pose proof (bsg_sb _ _ _ _ Hb) as Hsb.
  assert (alloc_block b C r) as Hal by (apply Ht; [by apply slot_of_ok | done]).
  destruct (alloc_range b C r Hsb Hal) as [Hin _].
  destruct (open_geo b (fb s) C held r Hb Hin ltac:(lia)) as (blk & bs1 & R1 & Hb1 & Hbuf1 & K1).
  destruct (buf_data _ _ _ _ _ (proj1 Hb1) Hbuf1) as (c & R2 & Hc & _ & _ & Ec & _).
  destruct (put_geo b bs1 C (r :: held) blk r (d (data c)) c Hb1 Hbuf1) as (bs2 & R3 & Hb2 & P2); [|done|].
  { rewrite Ec. apply Hd. by eapply bsg_len. }
  destruct (close_geo b bs2 _ held blk r Hb2) as (bs3 & R4 & Hb3 & P3); [by apply P2|].
  exists (mk_fstate bs3 (inodes s) (fdc s)). split.
  - intros A K. rewrite (bind_Ok _ _ _ _ _ (liftb_Ok _ s _ _ R1)).
    rewrite (bind_Ok _ _ _ _ _ (liftb_Ok _ (mk_fstate bs1 (inodes s) (fdc s)) _ _ R2)).
    rewrite (bind_Ok _ _ _ _ _ (liftb_Ok _ (mk_fstate bs1 (inodes s) (fdc s)) _ _ R3)).
    by rewrite (bind_Ok _ _ _ _ _ (liftb_Ok _ (mk_fstate bs2 (inodes s) (fdc s)) _ _ R4)).
  - rewrite <- Ec. split; simpl; [done | | | | done].
    + intros j m Hm Hj. apply P3, P2. by apply K1.
    + by apply overwrite_evolves.
    + rewrite list_insert_id; [done|]. by destruct i.
Qed.

(** ** The write loop *)
Lemma write_loop_run fuel b s C held p i src offset len total :
  bsg b (fb s) C held → (length held + 3 ≤ BLOCK_CONCURRENCY)%nat → inodes s !! p = Some i →
  tree_ok b C (node i) → Z.of_nat (length src) = len - total → 0 ≤ offset → offset + (len - total) < 2 ^ 32 →
  0 ≤ total → (total < len → turns offset (len - total) ≤ Z.of_nat fuel) →
  ∃ k s' C' n', write_loop fuel p src offset len total s = Ok ((offset + k, total + k), s') ∧
    0 ≤ k ≤ len - total ∧ worked b s C p i held s' C' n' ∧
    (∀ o, 0 ≤ o < 2 ^ 32 → fbyte n' C' o =
       if decide (offset ≤ o < offset + k) then default 0 (src !! Z.to_nat (o - offset)) else fbyte (node i) C o) ∧
    (∀ o, offset ≤ o < offset + k → 0 ≤ ptr n' C' (slot_of (o / BLOCK_SIZE))) ∧
    (k < len - total → first_free b C' = None).
Proof.
  revert s C i src offset total.
  induction fuel as [|fuel IH]; intros s C i src offset total Hb Hroom Hi Ht Hsrc Ho Hend Htot Hfuel;
    cbn [write_loop]; destruct (Z.ltb_spec total len) as [Hlt|Hge].
  - destruct (turns_step offset (len - total) Ho ltac:(lia)) as (_ & _ & ? & _). specialize (Hfuel Hlt). lia.
  - exists 0, s, C, (node i). rewrite !Z.add_0_r. split_and!; [done | lia | lia | | | lia | lia].
    + by apply mapped_worked, mapped_refl.
    + intros o _. rewrite decide_False by lia. done.
  - destruct (turns_step offset (len - total) Ho ltac:(lia)) as (Hch & Hbo & Hturn & Hnext).
    set (chunk := Z.min (BLOCK_SIZE - offset mod BLOCK_SIZE) (len - total)) in *.
    destruct (block_split offset) as [_ Hm].
    set (f := offset / BLOCK_SIZE). assert (0 ≤ f < MAX_FILE_BLOCKS) as Hf by (apply file_block_range; lia).
    destruct (mapblock_run b s C held p i f Hb Hroom Hi Ht Hf) as (r & s1 & C1 & n1 & R1 & M1 & Hr).
    rewrite (bind_Ok _ _ _ _ _ R1). destruct Hr as [[Hr0 Er]|(-> & Hfull & _)].
    2: { exists 0, s1, C1, n1. rewrite !Z.add_0_r. split_and!; [done | lia | lia | by apply mapped_worked | | lia | done].
         intros o Hor. rewrite decide_False by lia. unfold fbyte.
         by rewrite (extends_fblock b C (node i) C1 n1 _ (mp_ext _ _ _ _ _ _ _ _ _ M1)) by (by apply file_block_range). }
    rewrite (proj2 (Z.ltb_ge r 0)) by lia.
    pose proof (mapped_lookup _ _ _ _ _ _ _ _ _ M1 Hi) as Hi1.
    pose proof (ex_ok _ _ _ _ _ (mp_ext _ _ _ _ _ _ _ _ _ M1)) as Ht1.
    pose proof (mp_bsg _ _ _ _ _ _ _ _ _ M1) as Hb1.
    assert (length (take (Z.to_nat chunk) src) = Z.to_nat chunk) as Hlen by (rewrite length_take; lia).
    destruct (overwrite_run b s1 C1 held p (set_node n1 i) f
      (splice (Z.to_nat (offset mod BLOCK_SIZE)) (take (Z.to_nat chunk) src)) Hb1 Hroom Hi1 Ht1 Hf)
      as (s2 & R2 & W2).
    { cbn [node set_node]. by rewrite <- Er. }
    { intros l Hl. rewrite splice_length; [done|]. rewrite Hl, Hlen. lia. }
    cbn [node set_node] in R2, W2. rewrite <- Er in R2, W2. rewrite R2.
    set (C2 := <[r := _]> C1) in *. pose proof (worked_lookup _ _ _ _ _ _ _ _ _ W2 Hi1) as Hi2.
    unfold u32, wrap. rewrite Z.mod_small by lia.
    destruct (IH s2 C2 (set_node n1 i) (drop (Z.to_nat chunk) src) (offset + chunk) (total + chunk))
      as (k & s3 & C3 & n3 & R3 & Hk & W3 & Hbytes & Hmapd & Hshort).
    { apply W2. } { done. } { done. } { apply W2. } { rewrite length_drop. lia. } { lia. } { lia. } { lia. }
    { intros Hlt'. specialize (Hnext ltac:(lia)). specialize (Hfuel Hlt).
      replace (len - (total + chunk)) with (len - total - chunk) by lia. lia. }
    exists (chunk + k), s3, C3, n3. rewrite R3. split_and!; [do 3 f_equal; lia | lia | lia | | | | intros; apply Hshort; lia].
    + eapply worked_trans; [by apply mapped_worked|].
      destruct W2 as [? K2 E2 I2 F2], W3 as [? K3 E3 I3 F3]. simpl in *. split; simpl; [done | | | |].
      * by eapply keeps_trans.
      * by eapply evolves_trans.
      * rewrite I3, I2, list_insert_insert_eq. done.
      * congruence.
    + intros o Hor. rewrite Hbytes by done. cbn [node set_node].
      rewrite (splice_bytes n1 C1 n1 C2 f (offset mod BLOCK_SIZE) (take (Z.to_nat chunk) src) o).
      * cbv zeta. rewrite Hlen. replace (BLOCK_SIZE * f + offset mod BLOCK_SIZE) with offset
          by (unfold f; by apply Z.div_mod).
        rewrite Z2Nat.id by lia. repeat case_decide; try lia.
        -- rewrite lookup_drop. do 2 f_equal. lia.
        -- rewrite lookup_take_lt by lia. done.
        -- unfold fbyte. by rewrite (extends_fblock b C (node i) C1 n1 _ (mp_ext _ _ _ _ _ _ _ _ _ M1))
             by (by apply file_block_range).
      * apply (fblock_length b); [intros; by eapply bsg_len | by eapply bsg_sb | done | done].
      * apply block_split.
      * rewrite Hlen. lia.
      * done.
      * intros g Hg. unfold C2. rewrite Er. rewrite (overwrite_fblock b); [|done|done|by rewrite <- Er|done].
        case_decide; [|done]. unfold fblock. by rewrite (proj2 (Z.ltb_ge _ 0)) by lia.
    + intros o Hor. destruct (decide (offset + chunk ≤ o)); [apply Hmapd; lia|].
      assert (o / BLOCK_SIZE = f) as ->.
      { pose proof (Z.div_mod offset BLOCK_SIZE ltac:(done)) as Eo. fold f in Eo.
        replace o with (BLOCK_SIZE * f + (o - BLOCK_SIZE * f)) by lia. apply byte_position. lia. }
      destruct (slot_of_ok f Hf) as [Hsl _].
      assert (ptr n1 C2 (slot_of f) = r) as E2.
      { unfold C2. rewrite Er. apply (overwrite_ptr b); try done; by rewrite <- Er. }
      rewrite (ev_ptr _ _ _ _ _ (wk_ev _ _ _ _ _ _ _ _ _ W3)); cbn [node set_node]; [lia | done | lia].
  - exists 0, s, C, (node i). rewrite !Z.add_0_r. split_and!; [done | lia | lia | | | lia | lia].
    + by apply mapped_worked, mapped_refl.
    + intros o _. rewrite decide_False by lia. done.
Qed.

(** ** The read loop *)

(** Open a data block, take its contents, close it. *)
Lemma peek_run b s C held p i f :
  bsg b (fb s) C held → (length held + 3 ≤ BLOCK_CONCURRENCY)%nat → inodes s !! p = Some i →
  tree_ok b C (node i) → 0 ≤ f < MAX_FILE_BLOCKS →
  let r := ptr (node i) C (slot_of f) in
  0 ≤ r →
  ∃ s' c, data c = C r ∧ (∀ A (K : block_t → M (fstate D) A),
      (blk <- liftb (block_open r) ;; c <- liftb (get_buf blk) ;; liftb (block_close blk) ;; K c) s = K c s') ∧
    mapped b s C p i held s' C (node i).
Proof.
  intros Hb Hroom Hi Ht Hf r Hr. pose proof (bsg_sb _ _ _ _ Hb) as Hsb.
  assert (alloc_block b C r) as Hal by (apply Ht; [by apply slot_of_ok | done]).
  destruct (alloc_range b C r Hsb Hal) as [Hin _].
  destruct (open_geo b (fb s) C held r Hb Hin ltac:(lia)) as (blk & bs1 & R1 & Hb1 & Hbuf1 & K1).
  destruct (buf_data _ _ _ _ _ (proj1 Hb1) Hbuf1) as (c & R2 & Hc & _ & _ & Ec & _).
  destruct (close_geo b bs1 _ held blk r Hb1 Hbuf1) as (bs3 & R4 & Hb3 & P3).
  exists (mk_fstate bs3 (inodes s) (fdc s)), c. split_and!; [done | |].
  - intros A K. rewrite (bind_Ok _ _ _ _ _ (liftb_Ok _ s _ _ R1)).
    rewrite (bind_Ok _ _ _ _ _ (liftb_Ok _ (mk_fstate bs1 (inodes s) (fdc s)) _ _ R2)).
    by rewrite (bind_Ok _ _ _ _ _ (liftb_Ok _ (mk_fstate bs1 (inodes s) (fdc s)) _ _ R4)).
  - apply mapped_blocks; try done; [|by apply extends_refl]. intros j m Hm Hj. apply P3. by apply K1.
Qed.

Lemma read_loop_run fuel b s C held p i offset len total acc :
  bsg b (fb s) C held → (length held + 3 ≤ BLOCK_CONCURRENCY)%nat → inodes s !! p = Some i →
  tree_ok b C (node i) → 0 ≤ offset → offset + (len - total) < 2 ^ 32 → 0 ≤ total ≤ len →
  (total < len → turns offset (len - total) ≤ Z.of_nat fuel) →
  ∃ k s' C' n', read_loop fuel p offset len total acc s =
      Ok (acc ++ (fbyte (node i) C <$> seqZ offset k), s') ∧
    0 ≤ k ≤ len - total ∧ mapped b s C p i held s' C' n' ∧
    (k < len - total → first_free b C' = None ∧ ptr (node i) C (slot_of ((offset + k) / BLOCK_SIZE)) < 0).
Proof.
  revert s C i offset total acc.
  induction fuel as [|fuel IH]; intros s C i offset total acc Hb Hroom Hi Ht Ho Hend Htot Hfuel;
    cbn [read_loop]; destruct (Z.ltb_spec total len) as [Hlt|Hge].
  - destruct (turns_step offset (len - total) Ho ltac:(lia)) as (_ & _ & ? & _). specialize (Hfuel Hlt). lia.
  - exists 0, s, C, (node i). rewrite app_nil_r. split_and!; [done | lia | lia | by apply mapped_refl | lia].
  - destruct (turns_step offset (len - total) Ho ltac:(lia)) as (Hch & Hbo & Hturn & Hnext).
    set (chunk := Z.min (BLOCK_SIZE - offset mod BLOCK_SIZE) (len - total)) in *.
    destruct (block_split offset) as [Eo Hm].
    set (f := offset / BLOCK_SIZE) in *. assert (0 ≤ f < MAX_FILE_BLOCKS) as Hf by (apply file_block_range; lia).
    destruct (mapblock_run b s C held p i f Hb Hroom Hi Ht Hf) as (r & s1 & C1 & n1 & R1 & M1 & Hr).
    rewrite (bind_Ok _ _ _ _ _ R1).     assert (∀ g, 0 ≤ g < MAX_FILE_BLOCKS → ptr n1 C1 (slot_of g) < 0 → ptr (node i) C (slot_of g) < 0) as Hback.
    { intros g Hg Hneg. destruct (slot_of_ok g Hg) as [Hsl _].
      destruct (decide (ptr (node i) C (slot_of g) < 0)); [done|].
      rewrite (ex_ptr _ _ _ _ _ (mp_ext _ _ _ _ _ _ _ _ _ M1)) in Hneg by (done || lia). lia. }
    destruct Hr as [[Hr0 Er]|(-> & Hfull & Hneg)].
    2: { exists 0, s1, C1, n1. rewrite app_nil_r. split_and!; [done | lia | lia | done |].
         intros _. rewrite Z.add_0_r. split; [done | by apply Hback]. }
    rewrite (proj2 (Z.ltb_ge r 0)) by lia.
    pose proof (mapped_lookup _ _ _ _ _ _ _ _ _ M1 Hi) as Hi1.
    pose proof (ex_ok _ _ _ _ _ (mp_ext _ _ _ _ _ _ _ _ _ M1)) as Ht1.
    pose proof (mp_bsg _ _ _ _ _ _ _ _ _ M1) as Hb1.
    destruct (peek_run b s1 C1 held p (set_node n1 i) f Hb1 Hroom Hi1 Ht1 Hf) as (s2 & c & Ec & R2 & M2).
    { cbn [node set_node]. by rewrite <- Er. }
    cbn [node set_node] in R2, M2, Ec. rewrite <- Er in R2, Ec. rewrite R2.
    pose proof (mapped_lookup _ _ _ _ _ _ _ _ _ M2 Hi1) as Hi2.
    assert (∀ o, 0 ≤ o < 2 ^ 32 → fbyte n1 C1 o = fbyte (node i) C o) as Hsame.
    { intros o Hor. unfold fbyte. by rewrite (extends_fblock b C (node i) C1 n1 _ (mp_ext _ _ _ _ _ _ _ _ _ M1))
        by (by apply file_block_range). }
    unfold u32, wrap. rewrite Z.mod_small by lia.
    destruct (IH s2 C1 (set_node n1 i) (offset + chunk) (total + chunk)
      (acc ++ take (Z.to_nat chunk) (drop (Z.to_nat (offset mod BLOCK_SIZE)) (data c))))
      as (k & s3 & C3 & n3 & R3 & Hk & M3 & Hshort).
    { apply M2. } { done. } { done. } { done. } { lia. } { lia. } { lia. }
    { intros Hlt'. specialize (Hnext ltac:(lia)). specialize (Hfuel Hlt).
      replace (len - (total + chunk)) with (len - total - chunk) by lia. lia. }
    exists (chunk + k), s3, C3, n3. rewrite R3. split_and!; [ | lia | lia | |].
    3: { intros Hlt'. destruct Hshort as [Hfull Hneg]; [lia|]. split; [done|].
         replace (offset + (chunk + k)) with (offset + chunk + k) by lia. apply Hback; [|done].
         apply file_block_range. lia. }
    + assert (data c = fblock n1 C1 f) as ->.
      { unfold fblock. rewrite <- Er. by rewrite (proj2 (Z.ltb_ge r 0)) by lia. }
      assert (length (fblock n1 C1 f) = Z.to_nat BLOCK_SIZE) as Hfl
        by (apply (fblock_length b); [intros; by eapply bsg_len | by eapply bsg_sb | done | done]).
      rewrite (chunk_bytes n1 C1 f _ _ Hfl) by lia.
      rewrite <- Eo, <- app_assoc. do 3 f_equal. rewrite seqZ_app by lia. rewrite fmap_app.
      cbn [node set_node].
      f_equal; apply list_fmap_ext; intros j o Hj; apply lookup_seqZ in Hj as [-> ?]; apply Hsame; lia.
    + eapply mapped_trans; [exact M1|].
      destruct M2 as [? K2 E2 I2 F2], M3 as [? K3 E3 I3 F3]. simpl in *. split; simpl; [done | | | |].
      * by eapply keeps_trans.
      * exact E3.
      * rewrite I3, I2, list_insert_insert_eq. done.
      * congruence.
  - exists 0, s, C, (node i). rewrite app_nil_r. split_and!; [done | lia | lia | by apply mapped_refl | lia].
Qed.

End IO.
