(* ===== verification/InodeTheorems.v ===== *)
(** * Files as byte arrays: the contract of inode_read and inode_write *)

From S2P Require Import Prelude Block BlockProofs BlockAlloc SdCard BlockTheorems Dcache Inode.
From S2P Require Import InodeLayout InodeMap InodeMapRun InodeIO.

(** The image of inode [j] on the volume. *)
Definition disk_inode (b : superblock_t) (C : Z → list Z) (j : Z) : diskinode_t :=
  dec_dinode (drop (Z.to_nat (INODE2OFFSET j * sizeof_diskinode)) (C (INODE2BLOCK b j))).

(** ** The inode table *)
Lemma inode_block_range b j :
  sb_ok b → 0 ≤ j < inode_count b →
  INODE2BLOCK b j = inode_offset b + j / INODE_PER_BLOCK ∧
  inode_offset b ≤ INODE2BLOCK b j < datablock_offset b ∧ in_range b (INODE2BLOCK b j) ∧
  INODE2OFFSET j = j mod INODE_PER_BLOCK ∧ 0 ≤ j < 2 ^ 31.
Proof.
  intros Hb Hj. destruct Hb. change INODE_PER_BLOCK with 64 in *.
  pose proof (Z.div_pos (block_count b + MAP_BITS - 1) MAP_BITS) as Hm. unfold map_blocks in *.
  assert (MAP_BITS = 32768) as EM by done. rewrite EM in *. unfold NSECTOR_BLOCK in *.
  pose proof (Z.div_pos j 64 ltac:(lia) ltac:(lia)).
  assert (j / 64 + 1 ≤ (inode_count b + 64 - 1) / 64).
  { apply Z.div_le_lower_bound; [lia|]. pose proof (Z.mul_div_le j 64 ltac:(lia)). lia. }
  assert (j < 2 ^ 31) by lia.
  assert (INODE2BLOCK b j = inode_offset b + j / 64) as E.
  { unfold INODE2BLOCK, i32, swrap, u32, wrap. change INODE_PER_BLOCK with 64.
    rewrite (Z.mod_small j) by lia. unfold nblocks in *. rewrite Z.mod_small by lia.
    rewrite (proj2 (Z.ltb_lt _ _)); [done|]. simpl. lia. }
  rewrite E. unfold in_range, nblocks, INODE2OFFSET, u32, wrap in *. change INODE_PER_BLOCK with 64.
  rewrite (Z.mod_small j) by lia. split_and!; try done; lia.
Qed.

Lemma inode_slot_eq b j k :
  sb_ok b → 0 ≤ j < inode_count b → 0 ≤ k < inode_count b →
  INODE2BLOCK b j = INODE2BLOCK b k → INODE2OFFSET j = INODE2OFFSET k → j = k.
Proof.
  intros Hb Hj Hk. destruct (inode_block_range b j Hb Hj) as (-> & _ & _ & -> & _).
  destruct (inode_block_range b k Hb Hk) as (-> & _ & _ & -> & _). change INODE_PER_BLOCK with 64.
  pose proof (Z.div_mod j 64). pose proof (Z.div_mod k 64). lia.
Qed.

(** ** Changing a block of the inode table *)
Section Meta.

Context (b : superblock_t) (C : Z → list Z) (x : Z) (d : list Z).
Context (Hb : sb_ok b) (Hx : inode_offset b ≤ x < datablock_offset b).

Lemma meta_ptr n sl : tree_ok b C n → slot_ok sl → ptr n (<[x := d]> C) sl = ptr n C sl.
Proof.
  intros Ht Hsl. apply ptr_ext; [|done]. intros s1 H1 _ H0. apply fn_lookup_insert_ne.
  destruct (to_alloc _ _ _ Ht s1 H1 H0) as [? _]. lia.
Qed.

Lemma meta_alloc y : alloc_block b (<[x := d]> C) y ↔ alloc_block b C y.
Proof.
  unfold alloc_block. split; intros [Hy Hbit]; (split; [done|]); rewrite <- Hbit; unfold map_bit;
    rewrite fn_lookup_insert_ne; try done; destruct (map_block_range b _ Hb Hy) as [? _]; lia.
Qed.

Lemma meta_full : first_free b C = None → first_free b (<[x := d]> C) = None.
Proof.
  intros Hfull. apply first_free_None. intros j Hj. pose proof (first_free_full b C Hfull j Hj) as Hbit.
  unfold map_bit in *. rewrite fn_lookup_insert_ne; [done|]. destruct (map_block_range b j Hb Hj) as [? _]. lia.
Qed.

Lemma meta_tree n : tree_ok b C n → tree_ok b (<[x := d]> C) n.
Proof.
  intros Ht. split; [apply Ht | |].
  - intros sl Hsl H0. rewrite meta_ptr in * by done. apply meta_alloc. by apply Ht.
  - intros s1 s2 H1 H2 H0 E. rewrite !meta_ptr in * by done. by apply (to_inj _ _ _ Ht).
Qed.

Lemma meta_fbyte n o : tree_ok b C n → 0 ≤ o < 2 ^ 32 → fbyte n (<[x := d]> C) o = fbyte n C o.
Proof.
  intros Ht Ho. unfold fbyte, fblock.
  destruct (slot_of_ok _ (file_block_range o Ho)) as [Hsl _]. rewrite meta_ptr by done.
  destruct (Z.ltb_spec (ptr n C (slot_of (o / BLOCK_SIZE))) 0); [done|].
  rewrite fn_lookup_insert_ne; [done|]. destruct (to_alloc _ _ _ Ht _ Hsl) as [? _]; lia.
Qed.

Lemma meta_owns n y : tree_ok b C n → owns n (<[x := d]> C) y ↔ owns n C y.
Proof. intros Ht. unfold owns. split; intros (sl & Hsl & E & H0); exists sl; by rewrite meta_ptr in *. Qed.

End Meta.

(** ** Another file on the same volume *)

(** The trees of [n] and [m] share no block. *)
Definition apart_files (C : Z → list Z) (n m : diskinode_t) : Prop :=
  ∀ x, owns m C x → ¬ owns n C x.

(** While file [n] became [n'], the other files of the volume stayed as they were. *)
Definition others_kept (b : superblock_t) (C : Z → list Z) (n : diskinode_t) (C' : Z → list Z) (n' : diskinode_t) : Prop :=
  ∀ m, tree_ok b C m → apart_files C n m →
    tree_ok b C' m ∧ apart_files C' n' m ∧ (∀ sl, slot_ok sl → ptr m C' sl = ptr m C sl) ∧
    ∀ o, 0 ≤ o < 2 ^ 32 → fbyte m C' o = fbyte m C o.

Lemma evolves_other b C n C' n' : evolves b C n C' n' → others_kept b C n C' n'.
Proof.
  intros E m Hm Hap.
  assert (∀ sl, slot_ok sl → 0 ≤ ptr m C sl → C' (ptr m C sl) = C (ptr m C sl)) as Hsame.
  { intros sl Hsl H0. apply (ev_frame _ _ _ _ _ E); [by apply Hm|]. apply Hap. by exists sl. }
  assert (∀ sl, slot_ok sl → ptr m C' sl = ptr m C sl) as Hptr.
  { intros sl Hsl. apply ptr_ext; [|done]. intros s1 H1 _ H0. by apply Hsame. }
  split_and!.
  - split; [apply Hm | |].
    + intros sl Hsl H0. rewrite Hptr in * by done. apply (ev_alloc _ _ _ _ _ E). by apply Hm.
    + intros s1 s2 H1 H2 H0 E'. rewrite !Hptr in * by done. by apply (to_inj _ _ _ Hm).
  - intros x (sl & Hsl & Ex & H0) Hn. rewrite Hptr in Ex by done.
    destruct (ev_fresh _ _ _ _ _ E x Hn) as [Hn0|Hfree].
    + apply (Hap x); [by exists sl | done].
    + apply Hfree. subst x. by apply Hm.
  - exact Hptr.
  - intros o Ho. unfold fbyte, fblock. destruct (slot_of_ok _ (file_block_range o Ho)) as [Hsl _].
    rewrite Hptr by done. destruct (Z.ltb_spec (ptr m C (slot_of (o / BLOCK_SIZE))) 0); [done|].
    by rewrite Hsame.
Qed.

(** ** The contract *)
Section Contract.

Context {D : Type} `{SectorStore D}.
Implicit Types (s : fstate D) (C : Z → list Z).

(** The inode at [p] is open: locked, loaded, well formed, and no block
    handle is held. *)
Record file_open (b : superblock_t) s C (p : nat) (i : inode_t) : Prop := {
  fo_bsg : bsg b (fb s) C [];
  fo_slot : inodes s !! p = Some i;
  fo_lock : lock_acquired i = true;
  fo_type : d_type (node i) ≠ FS_TYPE_DEV;
  fo_num : 0 ≤ d_inode_num (node i) < inode_count b;
  fo_tree : tree_ok b C (node i);
  fo_wf : dinode_wf (node i);
}.

Lemma write_back_core b s C p i :
  bsg b (fb s) C [] → inodes s !! p = Some i → 0 ≤ d_inode_num (node i) < inode_count b → dinode_wf (node i) →
  let x := INODE2BLOCK b (d_inode_num (node i)) in
  let k := INODE2OFFSET (d_inode_num (node i)) in
  ∃ bs', write_back p s = Ok (tt, mk_fstate bs' (inodes s) (fdc s)) ∧
    bsg b bs' (<[x := splice (Z.to_nat (k * sizeof_diskinode)) (enc_dinode (node i)) (C x)]> C) [].
Proof.
  intros Hb Hi Hnum Hwf x k. pose proof (bsg_sb _ _ _ _ Hb) as Hsb.
  destruct (inode_block_range b _ Hsb Hnum) as (_ & Hx & Hin & Hk & _). fold x in Hx, Hin. fold k in Hk.
  destruct (open_geo b (fb s) C [] x Hb Hin) as (blk & bs1 & R1 & Hb1 & Hbuf1 & _);
    [unfold BLOCK_CONCURRENCY; simpl; lia|].
  destruct (buf_data _ _ _ _ _ (proj1 Hb1) Hbuf1) as (c & R2 & Hc & _ & _ & Ec & _).
  set (v := splice (Z.to_nat (k * sizeof_diskinode)) (enc_dinode (node i)) (C x)).
  assert (length v = Z.to_nat BLOCK_SIZE) as Hv.
  { pose proof (bsg_len _ _ _ _ x Hb Hin) as Hl. unfold v. rewrite splice_length; [done|].
    rewrite (enc_dinode_length _ (proj1 (wf_direct _ Hwf))), Hl, Hk.
    change INODE_PER_BLOCK with 64. pose proof (Z.mod_pos_bound (d_inode_num (node i)) 64 ltac:(lia)).
    unfold sizeof_diskinode. change (Z.to_nat BLOCK_SIZE) with 4096%nat. lia. }
  destruct (put_geo b bs1 C [x] blk x v c Hb1 Hbuf1 Hv Hc) as (bs2 & R3 & Hb2 & P2).
  destruct (close_geo b bs2 _ [] blk x Hb2) as (bs3 & R4 & Hb3 & _); [by apply P2|].
  exists bs3. split; [|done]. unfold write_back. rewrite (bind_Ok _ _ _ _ _ (get_inode_run _ _ _ Hi)).
  unfold the_superblock, gets. cbn [bind].
  assert (INODE2BLOCK (superblock (fb s)) (d_inode_num (node i)) = x) as ->.
  { destruct Hb as [_ (f & g & ->)]. done. }
  rewrite (bind_Ok _ _ _ _ _ (liftb_Ok _ s _ _ R1)).
  assert (store_dinode blk (INODE2OFFSET (d_inode_num (node i))) (node i) bs1 = Ok (tt, bs2)) as R5.
  { unfold store_dinode. rewrite (bind_Ok _ _ _ _ _ R2), Ec. exact R3. }
  rewrite (bind_Ok _ _ _ _ _ (liftb_Ok _ (mk_fstate bs1 (inodes s) (fdc s)) _ _ R5)).
  exact (liftb_Ok _ (mk_fstate bs2 (inodes s) (fdc s)) _ _ R4).
Qed.

Lemma write_back_run b s C p i :
  file_open b s C p i →
  let x := INODE2BLOCK b (d_inode_num (node i)) in
  let k := INODE2OFFSET (d_inode_num (node i)) in
  ∃ bs', write_back p s = Ok (tt, mk_fstate bs' (inodes s) (fdc s)) ∧
    bsg b bs' (<[x := splice (Z.to_nat (k * sizeof_diskinode)) (enc_dinode (node i)) (C x)]> C) [].
Proof. intros []. by apply write_back_core. Qed.

(** Reading the table after the image of [n] was stored. *)
Lemma stored_images_len b C n j :
  sb_ok b → (∀ y, in_range b y → length (C y) = Z.to_nat BLOCK_SIZE) →
  0 ≤ d_inode_num n < inode_count b → dinode_wf n → 0 ≤ j < inode_count b →
  let x := INODE2BLOCK b (d_inode_num n) in
  let k := INODE2OFFSET (d_inode_num n) in
  disk_inode b (<[x := splice (Z.to_nat (k * sizeof_diskinode)) (enc_dinode n) (C x)]> C) j =
    if decide (j = d_inode_num n) then n else disk_inode b C j.
Proof.
  intros Hsb Hlen Hnum Hwf Hj x k.
  destruct (inode_block_range b _ Hsb Hnum) as (_ & _ & Hin & Hk & _). fold x in Hin. fold k in Hk.
  destruct (inode_block_range b j Hsb Hj) as (_ & _ & _ & Hkj & _).
  change INODE_PER_BLOCK with 64 in Hk, Hkj.
  pose proof (Z.mod_pos_bound (d_inode_num n) 64 ltac:(lia)). pose proof (Z.mod_pos_bound j 64 ltac:(lia)).
  unfold disk_inode. destruct (decide (INODE2BLOCK b j = x)) as [Ex|Ex].
  - rewrite Ex, fn_lookup_insert.
    rewrite (dinode_slot_roundtrip_lemma n (C x) k (INODE2OFFSET j) Hwf);
      [|by apply Hlen | change INODE_PER_BLOCK with 64; lia..].
    repeat case_decide; try congruence.
    exfalso. eauto using inode_slot_eq.
  - rewrite fn_lookup_insert_ne by congruence. rewrite decide_False; [done|]. intros ->. by apply Ex.
Qed.

Lemma stored_images b bs C n j :
  bsg b bs C [] → 0 ≤ d_inode_num n < inode_count b → dinode_wf n → 0 ≤ j < inode_count b →
  let x := INODE2BLOCK b (d_inode_num n) in
  let k := INODE2OFFSET (d_inode_num n) in
  disk_inode b (<[x := splice (Z.to_nat (k * sizeof_diskinode)) (enc_dinode n) (C x)]> C) j =
    if decide (j = d_inode_num n) then n else disk_inode b C j.
Proof. intros Hb. apply stored_images_len; [by eapply bsg_sb | intros y Hy; by eapply bsg_len]. Qed.

Lemma synced_images b s C p i j :
  file_open b s C p i → 0 ≤ j < inode_count b →
  let x := INODE2BLOCK b (d_inode_num (node i)) in
  let k := INODE2OFFSET (d_inode_num (node i)) in
  disk_inode b (<[x := splice (Z.to_nat (k * sizeof_diskinode)) (enc_dinode (node i)) (C x)]> C) j =
    if decide (j = d_inode_num (node i)) then node i else disk_inode b C j.
Proof. intros [] Hj. by eapply stored_images. Qed.

Lemma file_open_node b s C p i s' C' n' :
  file_open b s C p i → worked b s C p i [] s' C' n' → file_open b s' C' p (set_node n' i).
Proof.
  intros Hf Hw. destruct (ev_fields _ _ _ _ _ (wk_ev _ _ _ _ _ _ _ _ _ Hw)) as (Ety & _ & Enum & _).
  pose proof (wk_ev _ _ _ _ _ _ _ _ _ Hw) as Hev. destruct Hf. split; simpl.
  - apply Hw.
  - by eapply worked_lookup.
  - done.
  - by rewrite Ety.
  - by rewrite Enum.
  - apply Hev.
  - by apply (ev_wf _ _ _ _ _ Hev).
Qed.

Lemma file_open_size b s C p i z :
  file_open b s C p i → 0 ≤ z < 2 ^ 32 →
  file_open b (mk_fstate (fb s) (<[p := set_node (set_size z (node i)) i]> (inodes s)) (fdc s)) C p
    (set_node (set_size z (node i)) i).
Proof.
  intros [] Hz. split; simpl; try done.
  - apply list_lookup_insert_eq. by eapply lookup_lt_Some.
  - destruct fo_tree0 as [T1 T2 T3]. split; [done | |].
    + intros sl Hsl. specialize (T2 sl Hsl). by destruct sl.
    + intros s1 s2 H1 H2. specialize (T3 s1 s2 H1 H2). by destruct s1, s2.
  - destruct fo_wf0. by split.
Qed.

Lemma fbyte_size n z C o : fbyte (set_size z n) C o = fbyte n C o.
Proof. unfold fbyte, fblock. by destruct (slot_of (o / BLOCK_SIZE)). Qed.

Lemma owns_size n z C x : owns (set_size z n) C x ↔ owns n C x.
Proof. unfold owns. split; intros (sl & Hsl & E & H0); exists sl; by destruct sl. Qed.

(** The tail of [inode_write]: the size, then the image in the table. *)
Lemma finish_write b s C p i z :
  file_open b s C p i → 0 ≤ z < 2 ^ 32 →
  let n' := set_size (Z.max (d_size (node i)) z) (node i) in
  let x := INODE2BLOCK b (d_inode_num (node i)) in
  let d := splice (Z.to_nat (INODE2OFFSET (d_inode_num (node i)) * sizeof_diskinode)) (enc_dinode n') (C x) in
  ∃ s', (∀ A (K : M (fstate D) A), ((i <- get_inode p ;;
      (if z >? d_size (node i) then upd_node p (set_size z) else ret tt) ;; inode_sync p ;; K) s) = K s') ∧
    file_open b s' (<[x := d]> C) p (set_node n' i) ∧ fdc s' = fdc s ∧
    inodes s' = <[p := set_node n' i]> (inodes s) ∧
    (∀ j, 0 ≤ j < inode_count b → disk_inode b (<[x := d]> C) j =
       if decide (j = d_inode_num (node i)) then n' else disk_inode b C j).
Proof.
  intros Hf Hz n' x d. pose proof (wf_size _ (fo_wf _ _ _ _ _ Hf)) as Hsz.
  pose proof (fo_slot _ _ _ _ _ Hf) as Hi.
  set (s1 := mk_fstate (fb s) (<[p := set_node n' i]> (inodes s)) (fdc s)).
  assert (file_open b s1 C p (set_node n' i)) as Hf1 by (apply file_open_size; [done | lia]).
  assert ((if z >? d_size (node i) then upd_node p (set_size z) else ret tt) s = Ok (tt, s1)) as R1.
  { unfold s1, n'. rewrite Z.gtb_ltb. destruct (Z.ltb_spec (d_size (node i)) z).
    - rewrite (upd_node_run s p i _ Hi). by rewrite Z.max_r by lia.
    - rewrite Z.max_l by lia. replace (set_node (set_size (d_size (node i)) (node i)) i) with i
        by (by destruct i as [[]]). rewrite list_insert_id by done. by destruct s. }
  destruct (write_back_run b s1 C p _ Hf1) as (bs' & R2 & Hb'). cbn [node set_node n' set_size d_inode_num] in R2, Hb'.
  fold n' x in Hb'. fold d in Hb'.
  exists (mk_fstate bs' (inodes s1) (fdc s1)). split_and!.
  - intros A K. rewrite (bind_Ok _ _ _ _ _ (get_inode_run _ _ _ Hi)), (bind_Ok _ _ _ _ _ R1).
    unfold inode_sync. rewrite (bind_Ok _ _ s1 tt (mk_fstate bs' (inodes s1) (fdc s1))); [done|].
    rewrite (bind_Ok _ _ _ _ _ (get_inode_run _ _ _ (fo_slot _ _ _ _ _ Hf1))).
    cbn [lock_acquired set_node]. rewrite (fo_lock _ _ _ _ _ Hf). exact R2.
  - destruct Hf1 as [F1 F2 F3 F4 F5 F6 F7]. split; try done. apply meta_tree; [by eapply bsg_sb | | done].
    by apply inode_block_range; [eapply bsg_sb | apply F5].
  - done.
  - done.
  - intros j Hj. exact (synced_images b s1 C p (set_node n' i) j Hf1 Hj).
Qed.

(** What a write of [src] at [offset], of which [k] bytes went through, does to the file. *)
Definition written (n : diskinode_t) C (src : list Z) (offset k : Z) (n' : diskinode_t) C' : Prop :=
  d_size n' = Z.max (d_size n) (offset + k) ∧
  (∀ o, 0 ≤ o < 2 ^ 32 → fbyte n' C' o =
    if decide (offset ≤ o < offset + k) then default 0 (src !! Z.to_nat (o - offset)) else fbyte n C o).

Lemma inode_write_run b s C p i src offset :
  file_open b s C p i → 0 ≤ offset → offset + Z.of_nat (length src) < 2 ^ 32 →
  ∃ k s' C' n', inode_write p src offset s = Ok (k, s') ∧
    0 ≤ k ≤ Z.of_nat (length src) ∧ (k < Z.of_nat (length src) → first_free b C' = None) ∧
    file_open b s' C' p (set_node n' i) ∧ fdc s' = fdc s ∧ inodes s' = <[p := set_node n' i]> (inodes s) ∧
    written (node i) C src offset k n' C' ∧
    (∀ o, offset ≤ o < offset + k → 0 ≤ ptr n' C' (slot_of (o / BLOCK_SIZE))) ∧
    (d_type n' = d_type (node i) ∧ d_link_count n' = d_link_count (node i) ∧ d_inode_num n' = d_inode_num (node i)) ∧
    (∀ j, 0 ≤ j < inode_count b → disk_inode b C' j =
       if decide (j = d_inode_num (node i)) then n' else disk_inode b C j) ∧
    others_kept b C (node i) C' n' ∧
    (∀ o, 0 ≤ o < 2 ^ 32 → 0 ≤ ptr (node i) C (slot_of (o / BLOCK_SIZE)) → 0 ≤ ptr n' C' (slot_of (o / BLOCK_SIZE))).
Proof.
  intros Hf Ho Hend. set (len := Z.of_nat (length src)) in *.
  destruct (write_loop_run (io_fuel len) b s C [] p i src offset len 0) as (k & s1 & C1 & n1 & R1 & Hk & W1 & Hbytes & Hmapd & Hshort);
    [apply Hf | unfold BLOCK_CONCURRENCY; simpl; lia | apply Hf | apply Hf | lia | lia | lia | lia | |].
  { intros _. rewrite Z.sub_0_r. apply io_fuel_enough. lia. }
  pose proof (file_open_node _ _ _ _ _ _ _ _ Hf W1) as Hf1.
  pose proof (bsg_sb _ _ _ _ (fo_bsg _ _ _ _ _ Hf)) as Hsb.
  destruct (ev_fields _ _ _ _ _ (wk_ev _ _ _ _ _ _ _ _ _ W1)) as (Ety & Elk & Enum & Esz & _).
  destruct (finish_write b s1 C1 p (set_node n1 i) (offset + k) Hf1) as (s2 & R2 & Hf2 & Ed & Ei & Himg); [lia|].
  cbn [node set_node] in R2, Hf2, Himg, Ei. rewrite Enum, Esz in Hf2, Himg. rewrite Esz in Ei.
  set (n2 := set_size (Z.max (d_size (node i)) (offset + k)) n1) in *.
  set (x := INODE2BLOCK b (d_inode_num (node i))) in *. set (C2 := <[x := _]> C1) in *.
  destruct (inode_block_range b _ Hsb (fo_num _ _ _ _ _ Hf)) as (_ & Hx & _). fold x in Hx.
  exists k, s2, C2, n2. split_and!.
  - unfold inode_write. rewrite (bind_Ok _ _ _ _ _ (get_inode_run _ _ _ (fo_slot _ _ _ _ _ Hf))).
    rewrite (proj2 (Z.eqb_neq _ _)) by (apply Hf). fold len. rewrite (bind_Ok _ _ _ _ _ R1).
    by rewrite R2.
  - lia.
  - lia.
  - intros Hlt. apply meta_full; [done | done|]. apply Hshort. lia.
  - exact Hf2.
  - rewrite Ed. apply W1.
  - rewrite Ei, (wk_inodes _ _ _ _ _ _ _ _ _ W1), list_insert_insert_eq. done.
  - split; [done|]. intros o Hor. unfold n2, C2. rewrite fbyte_size, (meta_fbyte b) by (try done; apply W1). by apply Hbytes.
  - intros o Hor. unfold n2, C2.
    assert (∀ sl, ptr (set_size (Z.max (d_size (node i)) (offset + k)) n1) C2 sl = ptr n1 C2 sl) as -> by (by intros []).
    unfold C2. rewrite (meta_ptr b); [by apply Hmapd | done | apply W1 |].
    apply slot_of_ok, file_block_range. lia.
  - done.
  - done.
  - done.
  - intros j Hj. rewrite Himg by done. case_decide; [done|]. unfold disk_inode.
    destruct (inode_block_range b j Hsb Hj) as (_ & ? & _).
    by rewrite (ev_meta _ _ _ _ _ (wk_ev _ _ _ _ _ _ _ _ _ W1)).
  - intros m Hm Hap. destruct (evolves_other b C (node i) C1 n1 (wk_ev _ _ _ _ _ _ _ _ _ W1) m Hm Hap) as (Hm1 & Hap1 & Hp1 & Hb1).
    split_and!.
    + by apply meta_tree.
    + intros y Hy Hn. unfold C2 in Hy, Hn. rewrite (meta_owns b) in Hy by done.
      unfold n2 in Hn. rewrite owns_size in Hn. rewrite (meta_owns b) in Hn by (try done; apply W1).
      by apply (Hap1 y).
    + intros sl Hsl. unfold C2. rewrite (meta_ptr b) by done. by apply Hp1.
    + intros o Hor. unfold C2. rewrite (meta_fbyte b) by done. by apply Hb1.
  - intros o Hor Hp. destruct (slot_of_ok _ (file_block_range o Hor)) as [Hsl _].
    assert (ptr n2 C2 (slot_of (o / BLOCK_SIZE)) = ptr n1 C2 (slot_of (o / BLOCK_SIZE))) as ->
      by (unfold n2; by destruct (slot_of (o / BLOCK_SIZE))).
    unfold C2. rewrite (meta_ptr b) by (try done; apply W1).
    by rewrite (ev_ptr _ _ _ _ _ (wk_ev _ _ _ _ _ _ _ _ _ W1)).
Qed.

(** Every branch of [inode_read] on a regular file. *)
Lemma inode_read_run b s C p i offset len :
  file_open b s C p i → 0 ≤ offset < 2 ^ 32 → 0 ≤ len < 2 ^ 32 →
  let size := d_size (node i) in
  if decide (offset > size ∨ 2 ^ 32 ≤ offset + len) then inode_read p offset len s = Ok ([], s)
  else
    let avail := Z.min len (size - offset) in
    ∃ k s' C' n', inode_read p offset len s = Ok (fbyte (node i) C <$> seqZ offset k, s') ∧
      0 ≤ k ≤ avail ∧ mapped b s C p i [] s' C' n' ∧
      (k < avail → first_free b C' = None ∧ ptr (node i) C (slot_of ((offset + k) / BLOCK_SIZE)) < 0).
Proof.
  intros Hf Ho Hlen. cbv zeta. pose proof (wf_size _ (fo_wf _ _ _ _ _ Hf)) as Hsz.
  unfold inode_read. rewrite (bind_Ok _ _ _ _ _ (get_inode_run _ _ _ (fo_slot _ _ _ _ _ Hf))).
  rewrite (proj2 (Z.eqb_neq _ _)) by (apply Hf). cbv zeta. rewrite !Z.gtb_ltb.
  case_decide as Hbad.
  - assert ((d_size (node i) <? offset) || (u32 (offset + len) <? offset) = true) as ->; [|done].
    apply orb_true_iff. destruct Hbad as [Hbad|Hbad]; [left; apply Z.ltb_lt; lia | right].
    apply Z.ltb_lt. unfold u32, wrap. rewrite <- (Z.mod_add _ (-1)) by lia.
    rewrite Z.mod_small by lia. lia.
  - assert (u32 (offset + len) = offset + len) as E by (unfold u32, wrap; apply Z.mod_small; lia).
    rewrite E, (proj2 (Z.ltb_ge _ offset)) by lia. rewrite (proj2 (Z.ltb_ge _ offset)) by lia. cbn [orb].
    set (len' := if d_size (node i) <? offset + len then u32 (d_size (node i) - offset) else len).
    assert (len' = Z.min len (d_size (node i) - offset)) as El.
    { unfold len'. destruct (Z.ltb_spec (d_size (node i)) (offset + len)); [|lia].
      unfold u32, wrap. rewrite Z.mod_small by lia. lia. }
    destruct (read_loop_run (io_fuel len') b s C [] p i offset len' 0 []) as (k & s' & C' & n' & R & Hk & M & Hshort);
      [apply Hf | unfold BLOCK_CONCURRENCY; simpl; lia | apply Hf | apply Hf | lia | lia | lia | |].
    { intros _. rewrite Z.sub_0_r. apply io_fuel_enough. lia. }
    rewrite Z.sub_0_r in *. rewrite <- El. exists k, s', C', n'. rewrite R. done.
Qed.

(** C4 Writing to a file changes exactly the bytes written: for an open
    inode and a range below 4 GB, [inode_write] returns, [k] bytes were written
    and [k] is smaller than the request only if the volume is full; the size
    grows to the end of the write, every other byte of the file and every byte
    of every other file is unchanged, and the inode's image in the inode table
    is up to date while the images of the others are untouched. *)
Theorem inode_write_correct b s C p i src offset :
  file_open b s C p i → 0 ≤ offset → offset + Z.of_nat (length src) < 2 ^ 32 →
  ∃ k s' C' n', inode_write p src offset s = Ok (k, s') ∧
    0 ≤ k ≤ Z.of_nat (length src) ∧ (k < Z.of_nat (length src) → first_free b C' = None) ∧
    file_open b s' C' p (set_node n' i) ∧ written (node i) C src offset k n' C' ∧
    (∀ j, 0 ≤ j < inode_count b → disk_inode b C' j =
       if decide (j = d_inode_num (node i)) then n' else disk_inode b C j) ∧
    (∀ m, tree_ok b C m → apart_files C (node i) m →
       tree_ok b C' m ∧ ∀ o, 0 ≤ o < 2 ^ 32 → fbyte m C' o = fbyte m C o).
Proof.
  intros Hf Ho Hend. destruct (inode_write_run b s C p i src offset Hf Ho Hend)
    as (k & s' & C' & n' & R & Hk & Hfull & Hf' & _ & _ & Hw & _ & _ & Himg & Hother & _).
  exists k, s', C', n'. split_and!; try done; try lia. intros m Hm Hap. destruct (Hother m Hm Hap) as (? & _ & _ & ?). done.
Qed.

(** Reading returns a range of the file: nothing when the offset is past
    the end or the range wraps 32 bits, otherwise the bytes from the offset up
    to the end of the request or of the file, stopping early only at a hole of
    a full volume; the file and every other file read the same afterwards. *)
Theorem inode_read_correct b s C p i offset len :
  file_open b s C p i → 0 ≤ offset < 2 ^ 32 → 0 ≤ len < 2 ^ 32 →
  ∃ k s' C' n', inode_read p offset len s = Ok (fbyte (node i) C <$> seqZ offset k, s') ∧
    file_open b s' C' p (set_node n' i) ∧
    (∀ o, 0 ≤ o < 2 ^ 32 → fbyte n' C' o = fbyte (node i) C o) ∧
    (∀ m, tree_ok b C m → apart_files C (node i) m →
       tree_ok b C' m ∧ ∀ o, 0 ≤ o < 2 ^ 32 → fbyte m C' o = fbyte m C o) ∧
    let avail := if decide (offset > d_size (node i) ∨ 2 ^ 32 ≤ offset + len) then 0
                 else Z.min len (d_size (node i) - offset) in
    0 ≤ k ≤ avail ∧
    (k < avail → first_free b C' = None ∧ ptr (node i) C (slot_of ((offset + k) / BLOCK_SIZE)) < 0).
Proof.
  intros Hf Ho Hlen. pose proof (inode_read_run b s C p i offset len Hf Ho Hlen) as Hrun. cbv zeta in Hrun |- *.
  case_decide as Hbad.
  - exists 0, s, C, (node i). replace (set_node (node i) i) with i by (by destruct i).
    split_and!; try done; lia.
  - destruct Hrun as (k & s' & C' & n' & R & Hk & M & Hshort). exists k, s', C', n'.
    pose proof (mapped_worked _ _ _ _ _ _ _ _ _ M) as W. split_and!; try done; try lia.
    + by eapply file_open_node.
    + intros o Hor. unfold fbyte.
      by rewrite (extends_fblock b C (node i) C' n' _ (mp_ext _ _ _ _ _ _ _ _ _ M)) by (by apply file_block_range).
    + intros m Hm Hap. destruct (evolves_other b C (node i) C' n' (wk_ev _ _ _ _ _ _ _ _ _ W) m Hm Hap) as (? & _ & _ & ?). done.
Qed.

(** Write then read: what [inode_write] reports as written is read back
    byte for byte at the same offset, whatever the file held before. *)
Theorem inode_write_read_roundtrip b s C p i src offset k s' :
  file_open b s C p i → 0 ≤ offset → offset + Z.of_nat (length src) < 2 ^ 32 →
  inode_write p src offset s = Ok (k, s') →
  ∃ s'', inode_read p offset k s' = Ok (take (Z.to_nat k) src, s'').
Proof.
  intros Hf Ho Hend R. destruct (inode_write_run b s C p i src offset Hf Ho Hend)
    as (k' & s1 & C1 & n1 & R1 & Hk & _ & Hf1 & _ & _ & [Hsz Hbytes] & Hmapd & _).
  rewrite R in R1. injection R1 as <- <-.
  pose proof (inode_read_run b s' C1 p (set_node n1 i) offset k Hf1 ltac:(lia) ltac:(lia)) as Hrun.
  cbv zeta in Hrun. cbn [node set_node] in Hrun. rewrite decide_False in Hrun by lia.
  destruct Hrun as (k1 & s2 & C2 & n2 & R2 & Hk1 & _ & Hshort).
  assert (k1 = k) as ->.
  { destruct (decide (k1 < k)) as [Hlt|]; [|lia]. destruct Hshort as [_ Hneg]; [lia|].
    specialize (Hmapd (offset + k1) ltac:(lia)). lia. }
  exists s2. rewrite R2. do 2 f_equal. apply list_eq. intros j. rewrite list_lookup_fmap.
  destruct (decide (Z.of_nat j < k)) as [Hj|Hj].
  - rewrite lookup_seqZ_lt by done. simpl. rewrite Hbytes by lia. rewrite decide_True by lia.
    rewrite lookup_take_lt by lia. replace (Z.to_nat (offset + Z.of_nat j - offset)) with j by lia.
    destruct (lookup_lt_is_Some_2 src j) as [y ->]; [lia | done].
  - rewrite lookup_seqZ_ge by lia. by rewrite lookup_take_ge by lia.
Qed.

End Contract.

(** ** An empty file, opened *)
Definition demo_node : diskinode_t := mk_dinode 2 1 5 0 0 (replicate 10 (-1)) (-1) (-1).
Definition demo_inode : inode_t := mk_inode demo_node true 1 true.
Definition demo_fs : fstate sdcard :=
  mk_fstate demo_volume (demo_inode :: replicate 63 empty_inode) (mk_dcache None false true []).

Lemma empty_tree b C n :
  d_direct n = replicate 10 (-1) → d_indirect n = -1 → d_double_indirect n = -1 → tree_ok b C n.
Proof.
  intros E1 E2 E3. assert (∀ sl, slot_ok sl → ptr n C sl < 0) as Hneg.
  { intros [k| |k| |i|i k] Hsl; cbn [ptr slot_ok] in *; rewrite ?E1, ?E2, ?E3; try done.
    by rewrite lookup_replicate_2. }
  split; [by rewrite E1| |].
  - intros sl Hsl ?. specialize (Hneg sl Hsl). lia.
  - intros s1 s2 H1 _ ?. specialize (Hneg s1 H1). lia.
Qed.

Lemma demo_file_open : file_open demo_superblock demo_fs demo_contents 0 demo_inode.
Proof.
  split; try done.
  - split; [apply demo_volume_ok | apply geo_refl].
  - by apply empty_tree.
  - split; try done. split; [done|]. repeat constructor; done.
Qed.

Lemma inode_write_correct_witness : ∃ k s' C' n',
  inode_write 0 [10; 20; 30; 40] 4094 demo_fs = Ok (k, s') ∧
  written demo_node demo_contents [10; 20; 30; 40] 4094 k n' C'.
Proof.
  destruct (inode_write_correct demo_superblock demo_fs demo_contents 0 demo_inode [10; 20; 30; 40] 4094
    demo_file_open) as (k & s' & C' & n' & R & _ & _ & _ & Hw & _); [lia | simpl; lia |].
  exists k, s', C', n'. exact (conj R Hw).
Defined.

Lemma inode_read_correct_witness : ∃ s', inode_read 0 100 8 demo_fs = Ok ([], s').
Proof.
  destruct (inode_read_correct demo_superblock demo_fs demo_contents 0 demo_inode 100 8 demo_file_open)
    as (k & s' & C' & n' & R & _ & _ & _ & Hk & _); [lia | lia |].
  rewrite decide_True in Hk by (left; reflexivity). assert (k = 0) as -> by lia. exists s'. exact R.
Defined.

(** The state after the write. *)
Definition demo_fs_written : fstate sdcard :=
  match inode_write 0 [10; 20; 30; 40] 4094 demo_fs with Ok (_, s) => s | _ => demo_fs end.

Lemma demo_write : inode_write 0 [10; 20; 30; 40] 4094 demo_fs = Ok (4, demo_fs_written).
Proof.
  assert (match inode_write 0 [10; 20; 30; 40] 4094 demo_fs with Ok (k, _) => k = 4 | _ => False end) as Ek
    by (vm_compute; reflexivity).
  unfold demo_fs_written. destruct (inode_write _ _ _ _) as [[k s]| |]; [by subst | done..].
Qed.

Lemma inode_write_read_roundtrip_witness :
  ∃ s'', inode_read 0 4094 4 demo_fs_written = Ok ([10; 20; 30; 40], s'').
Proof.
  apply (inode_write_read_roundtrip demo_superblock demo_fs demo_contents 0 demo_inode [10; 20; 30; 40] 4094 4
    demo_fs_written demo_file_open); [lia | simpl; lia | exact demo_write].
Defined.
