(* ===== verification/InodeHit.v ===== *)
(** * Reading what is mapped changes nothing

    When every block of a range is mapped, [inode_mapblock] and [inode_read]
    allocate nothing: the volume and the inode table are as before, only the
    block buffers may hold other blocks. *)

From S2P Require Import Prelude Block BlockProofs BlockAlloc Dcache Inode InodeLayout InodeMap InodeMapRun InodeIO InodeTheorems.

Section Hit.

Context {D : Type} `{SectorStore D}.
Implicit Types (s : fstate D) (C : Z → list Z) (held : list Z).

(** Only buffers changed, and the held blocks are still buffered. *)
Record quiet (b : superblock_t) s C held s' : Prop := {
  qu_bsg : bsg b (fb s') C held;
  qu_keeps : keeps (fb s) (fb s') held;
  qu_inodes : inodes s' = inodes s;
  qu_fdc : fdc s' = fdc s;
}.

Lemma quiet_refl b s C held : bsg b (fb s) C held → quiet b s C held s.
Proof. intros Hb. split; [done | by intros ? ? | done..]. Qed.

Lemma quiet_trans b s C held s1 s2 : quiet b s C held s1 → quiet b s1 C held s2 → quiet b s C held s2.
Proof. intros [B1 K1 I1 F1] [B2 K2 I2 F2]. split; [done | by eapply keeps_trans | congruence..]. Qed.

Lemma quiet_blocks b s C held bs : bsg b bs C held → keeps (fb s) bs held → quiet b s C held (mk_fstate bs (inodes s) (fdc s)).
Proof. by split. Qed.

Lemma through_hit b s C held x k :
  bsg b (fb s) C held → (length held < BLOCK_CONCURRENCY)%nat → in_range b x → 0 ≤ k < 1024 →
  0 ≤ entry C x (Z.to_nat k) →
  ∃ s', quiet b s C held s' ∧ ∀ A (K : Z → M (fstate D) A),
    (blk <- liftb (block_open x) ;; n <- liftb (map_entry blk k) ;; liftb (block_close blk) ;; K n) s =
    K (entry C x (Z.to_nat k)) s'.
Proof.
  intros Hb Hroom Hin Hk He. destruct (open_geo b (fb s) C held x Hb Hin Hroom) as (blk & bs1 & R1 & Hb1 & Hbuf & K1).
  assert (map_entry blk k bs1 = Ok (entry C x (Z.to_nat k), bs1)) as R2.
  { unfold map_entry. rewrite (bind_Ok _ _ _ _ _ (load_int_run b bs1 C (x :: held) blk x k Hb1 Hbuf Hk)).
    by rewrite (proj2 (Z.ltb_ge _ 0)) by lia. }
  destruct (close_geo b bs1 C held blk x Hb1 Hbuf) as (bs2 & R3 & Hb2 & P2).
  exists (mk_fstate bs2 (inodes s) (fdc s)). split.
  - apply quiet_blocks; [done|]. intros j m Hm Hj. by apply P2, K1.
  - intros A K. rewrite (bind_Ok _ _ _ _ _ (liftb_Ok _ s _ _ R1)).
    rewrite (bind_Ok _ _ _ _ _ (liftb_Ok _ (mk_fstate bs1 (inodes s) (fdc s)) _ _ R2)).
    by rewrite (bind_Ok _ _ _ _ _ (liftb_Ok _ (mk_fstate bs1 (inodes s) (fdc s)) _ _ R3)).
Qed.

Lemma via_hit C x k : 0 ≤ via C x k → 0 ≤ x ∧ via C x k = entry C x k.
Proof. unfold via. destruct (Z.ltb_spec x 0); [done | lia]. Qed.

Lemma map_double_hit b s C held p i g :
  bsg b (fb s) C held → (length held + 3 ≤ BLOCK_CONCURRENCY)%nat → inodes s !! p = Some i →
  tree_ok b C (node i) → 0 ≤ g < 1048576 →
  0 ≤ ptr (node i) C (SLeaf (Z.to_nat (g / 1024)) (Z.to_nat (g mod 1024))) →
  ∃ s', quiet b s C held s' ∧ inode_mapblock p (g + 1034) s =
    Ok (ptr (node i) C (SLeaf (Z.to_nat (g / 1024)) (Z.to_nat (g mod 1024))), s').
Proof.
  intros Hb Hroom Hi Ht Hg Hp. cbn [ptr] in *. destruct (via_hit _ _ _ Hp) as [Hm0 Em].
  destruct (via_hit _ _ _ Hm0) as [Hx0 Ex]. set (x := d_double_indirect (node i)) in *.
  rewrite Ex in *. set (y := entry C x (Z.to_nat (g / 1024))) in *.
  destruct (leaf_index g Hg) as [Hidx Hoff]. pose proof (bsg_sb _ _ _ _ Hb) as Hsb.
  destruct (alloc_range b C x Hsb (to_alloc _ _ _ Ht SDbl I Hx0)) as [Hin _].
  assert (in_range b y) as Hiny.
  { apply (alloc_range b C y Hsb). pose proof (to_alloc _ _ _ Ht (SMid (Z.to_nat (g / 1024)))) as Hal.
    cbn [ptr slot_ok] in Hal. fold x in Hal. rewrite Ex in Hal. apply Hal; lia. }
  destruct (open_geo b (fb s) C held x Hb Hin ltac:(lia)) as (root & bs1 & R1 & Hb1 & Hroot & K1).
  set (s1 := mk_fstate bs1 (inodes s) (fdc s)).
  pose proof (load_int_run b bs1 C (x :: held) root x (g / 1024) Hb1 Hroot Hidx) as R2. fold y in R2.
  destruct (through_hit b s1 C (x :: held) y (g mod 1024) Hb1) as (s2 & Q2 & R3); [simpl; lia | done | done | lia |].
  destruct (close_geo b (fb s2) C held root x (qu_bsg _ _ _ _ _ Q2)) as (bs3 & R4 & Hb3 & P3).
  { apply (qu_keeps _ _ _ _ _ Q2); [by left | done]. }
  exists (mk_fstate bs3 (inodes s2) (fdc s2)). split.
  - destruct Q2 as [B2 K2 I2 F2]. split; cbn; [done | | done | done].
    intros j m Hm Hj. apply P3, K2; [by right | by apply K1].
  - unfold inode_mapblock. rewrite (bind_Ok _ _ _ _ _ (get_inode_run _ _ _ Hi)).
    destruct file_consts as (_ & _ & E3 & _). rewrite E3.
    change NUM_DIRECT_BLOCKS with 10. change NUM_INDIRECT_BLOCKS with 1024. cbv zeta.
    rewrite (proj2 (Z.ltb_ge (g + 1034) 10)), (proj2 (Z.ltb_ge (g + 1034 - 10) 1024)) by lia.
    replace (g + 1034 - 10 - 1024) with g by lia. rewrite (bind_Ok _ _ s tt s) by (apply asserts_true; apply Z.ltb_lt; lia).
    fold x. rewrite (proj2 (Z.ltb_ge x 0)) by lia. rewrite (bind_Ok _ _ s true s) by done. cbn [negb].
    rewrite (bind_Ok _ _ _ _ _ (get_inode_run _ _ _ Hi)). fold x.
    rewrite (bind_Ok _ _ _ _ _ (liftb_Ok _ s _ _ R1)).
    rewrite (bind_Ok _ _ _ _ _ (liftb_Ok _ s1 _ _ R2)). change (mk_fstate bs1 (inodes s1) (fdc s1)) with s1.
    rewrite (proj2 (Z.ltb_ge y 0)) by lia. rewrite (bind_Ok _ _ s1 true s1) by done. cbn [negb].
    rewrite (bind_Ok _ _ _ _ _ (liftb_Ok _ s1 _ _ R2)). change (mk_fstate bs1 (inodes s1) (fdc s1)) with s1.
    rewrite R3, Em. by rewrite (bind_Ok _ _ _ _ _ (liftb_Ok _ s2 _ _ R4)).
Qed.

Lemma mapblock_hit b s C held p i f :
  bsg b (fb s) C held → (length held + 3 ≤ BLOCK_CONCURRENCY)%nat → inodes s !! p = Some i →
  tree_ok b C (node i) → 0 ≤ f < MAX_FILE_BLOCKS → 0 ≤ ptr (node i) C (slot_of f) →
  ∃ s', quiet b s C held s' ∧ inode_mapblock p f s = Ok (ptr (node i) C (slot_of f), s').
Proof.
  intros Hb Hroom Hi Ht Hf. destruct file_consts as (_ & _ & _ & E4). rewrite E4 in Hf. unfold slot_of.
  destruct (Z.ltb_spec f 10); [|destruct (Z.ltb_spec f 1034)]; intros Hp.
  - exists s. split; [by apply quiet_refl|]. unfold inode_mapblock. rewrite (bind_Ok _ _ _ _ _ (get_inode_run _ _ _ Hi)).
    change NUM_DIRECT_BLOCKS with 10. rewrite (proj2 (Z.ltb_lt f 10)), (proj2 (Z.ltb_ge f 0)) by lia. cbn [ptr] in *.
    destruct (lookup_lt_is_Some_2 (d_direct (node i)) (Z.to_nat f)) as [e He];
      [rewrite (to_direct _ _ _ Ht); lia|]. rewrite He in *. cbn [default from_option id] in *.
    by rewrite (proj2 (Z.ltb_ge e 0)) by lia.
  - cbn [ptr] in *. destruct (via_hit _ _ _ Hp) as [Hx0 Ex]. set (x := d_indirect (node i)) in *.
    destruct (alloc_range b C x (bsg_sb _ _ _ _ Hb) (to_alloc _ _ _ Ht SInd I Hx0)) as [Hin _].
    destruct (through_hit b s C held x (f - 10) Hb) as (s' & Q & R); [lia | done | lia | lia |].
    exists s'. split; [done|]. unfold inode_mapblock. rewrite (bind_Ok _ _ _ _ _ (get_inode_run _ _ _ Hi)).
    change NUM_DIRECT_BLOCKS with 10. change NUM_INDIRECT_BLOCKS with 1024. cbv zeta.
    rewrite (proj2 (Z.ltb_ge f 10)), (proj2 (Z.ltb_lt (f - 10) 1024)) by lia. fold x.
    rewrite (proj2 (Z.ltb_ge x 0)) by lia. rewrite (bind_Ok _ _ s true s) by done. cbn [negb].
    rewrite (bind_Ok _ _ _ _ _ (get_inode_run _ _ _ Hi)). fold x. rewrite (R _ ret). by rewrite Ex.
  - destruct (map_double_hit b s C held p i (f - 1034) Hb Hroom Hi Ht ltac:(lia) Hp) as (s' & Q & R).
    exists s'. split; [done|]. by replace (f - 1034 + 1034) with f in R by lia.
Qed.

(** The bytes at [offset, offset + k) are in mapped blocks. *)
Definition solid (n : diskinode_t) C (offset k : Z) : Prop :=
  ∀ o, offset ≤ o < offset + k → 0 ≤ ptr n C (slot_of (o / BLOCK_SIZE)).

Lemma read_loop_hit fuel b s C held p i offset len total acc :
  bsg b (fb s) C held → (length held + 3 ≤ BLOCK_CONCURRENCY)%nat → inodes s !! p = Some i →
  tree_ok b C (node i) → 0 ≤ offset → offset + (len - total) < 2 ^ 32 → 0 ≤ total ≤ len →
  (total < len → turns offset (len - total) ≤ Z.of_nat fuel) → solid (node i) C offset (len - total) →
  ∃ s', read_loop fuel p offset len total acc s = Ok (acc ++ (fbyte (node i) C <$> seqZ offset (len - total)), s') ∧
    quiet b s C held s'.
Proof.
  revert s offset total acc.
  induction fuel as [|fuel IH]; intros s offset total acc Hb Hroom Hi Ht Ho Hend Htot Hfuel Hsol;
    cbn [read_loop]; destruct (Z.ltb_spec total len) as [Hlt|Hge].
  - destruct (turns_step offset (len - total) Ho ltac:(lia)) as (_ & _ & ? & _). specialize (Hfuel Hlt). lia.
  - exists s. replace (len - total) with 0 by lia. rewrite app_nil_r. split; [done | by apply quiet_refl].
  - destruct (turns_step offset (len - total) Ho ltac:(lia)) as (Hch & Hbo & Hturn & Hnext).
    set (chunk := Z.min (BLOCK_SIZE - offset mod BLOCK_SIZE) (len - total)) in *.
    destruct (block_split offset) as [Eo Hm].
    set (f := offset / BLOCK_SIZE) in *. assert (0 ≤ f < MAX_FILE_BLOCKS) as Hf by (apply file_block_range; lia).
    pose proof (Hsol offset ltac:(lia)) as Hp. fold f in Hp. set (r := ptr (node i) C (slot_of f)) in *.
    destruct (mapblock_hit b s C held p i f Hb Hroom Hi Ht Hf Hp) as (s1 & Q1 & R1). fold r in R1.
    rewrite (bind_Ok _ _ _ _ _ R1). rewrite (proj2 (Z.ltb_ge r 0)) by lia.
    assert (inodes s1 !! p = Some i) as Hi1 by (by rewrite (qu_inodes _ _ _ _ _ Q1)).
    destruct (peek_run b s1 C held p i f (qu_bsg _ _ _ _ _ Q1) Hroom Hi1 Ht Hf Hp) as (s2 & c & Ec & R2 & M2).
    fold r in R2, Ec. rewrite R2. unfold u32, wrap. rewrite Z.mod_small by lia.
    assert (quiet b s1 C held s2) as Q2.
    { destruct M2 as [? ? _ I2 F2]. split; try done. rewrite I2. apply list_insert_id. rewrite Hi1. by destruct i. }
    destruct (IH s2 (offset + chunk) (total + chunk)
      (acc ++ take (Z.to_nat chunk) (drop (Z.to_nat (offset mod BLOCK_SIZE)) (data c)))) as (s3 & R3 & Q3);
      [apply Q2 | done | by rewrite (qu_inodes _ _ _ _ _ Q2) | done | lia | lia | lia | | |].
    { intros Hlt'. specialize (Hnext ltac:(lia)). specialize (Hfuel Hlt).
      replace (len - (total + chunk)) with (len - total - chunk) by lia. lia. }
    { intros o Hor. apply Hsol. lia. }
    exists s3. rewrite R3. split; [|eauto using quiet_trans].
    assert (data c = fblock (node i) C f) as ->.
    { unfold fblock. fold r. by rewrite (proj2 (Z.ltb_ge r 0)) by lia. }
    assert (length (fblock (node i) C f) = Z.to_nat BLOCK_SIZE) as Hfl
      by (apply (fblock_length b); [intros; by eapply bsg_len | by eapply bsg_sb | done | done]).
    rewrite (chunk_bytes (node i) C f _ _ Hfl) by lia.
    rewrite <- Eo, <- app_assoc. do 3 f_equal. rewrite <- fmap_app, <- seqZ_app by lia. do 2 f_equal. lia.
  - exists s. replace (len - total) with 0 by lia. rewrite app_nil_r. split; [done | by apply quiet_refl].
Qed.

Lemma inode_read_hit b s C p i offset len :
  file_open b s C p i → 0 ≤ offset → 0 ≤ len → offset + len ≤ d_size (node i) → solid (node i) C offset len →
  ∃ s', inode_read p offset len s = Ok (fbyte (node i) C <$> seqZ offset len, s') ∧ quiet b s C [] s'.
Proof.
  intros Hf Ho Hlen Hsz Hsol. pose proof (wf_size _ (fo_wf _ _ _ _ _ Hf)) as Hwf.
  unfold inode_read. rewrite (bind_Ok _ _ _ _ _ (get_inode_run _ _ _ (fo_slot _ _ _ _ _ Hf))).
  rewrite (proj2 (Z.eqb_neq _ _)) by (apply Hf). cbv zeta. rewrite !Z.gtb_ltb.
  assert (u32 (offset + len) = offset + len) as -> by (unfold u32, wrap; apply Z.mod_small; lia).
  rewrite !(proj2 (Z.ltb_ge _ _)) by lia. cbn [orb].
  destruct (read_loop_hit (io_fuel len) b s C [] p i offset len 0 []) as (s' & R & Q);
    [apply Hf | unfold BLOCK_CONCURRENCY; simpl; lia | apply Hf | apply Hf | lia | lia | lia | | |].
  - intros _. rewrite Z.sub_0_r. apply io_fuel_enough. lia.
  - by rewrite Z.sub_0_r.
  - exists s'. rewrite Z.sub_0_r in R. done.
Qed.

(** An open file stays open when only buffers change. *)
Lemma quiet_open b s C p i s' : file_open b s C p i → quiet b s C [] s' → file_open b s' C p i.
Proof. intros [] [B _ I _]. split; try done. by rewrite I. Qed.

End Hit.
