(* ===== verification/Dir.v ===== *)
(** * kernel/fs/dir.c: directories and paths

    A directory is a file of 32-byte entries. A file name is the list of its
    characters (what the 28-byte buffers hold up to a NUL or their end), a
    path is a list of characters, and a suffix of it stands for a pointer into
    it. The working directory of the running process is an argument. *)

From S2P Require Import Prelude Bytes CString Block Dcache Inode.

Definition ERR_OPERATION_FAILED : Z := -1.
Definition ERR_FILE_NOT_EXISTS : Z := 1.
Definition ERR_FILE_EXISTS : Z := 2.
Definition ERR_FILE_NO_PERMISSION : Z := 3.
Definition ERR_FILE_TYPE_MISMATCH : Z := 4.
Definition ERR_DIRECTORY_NOT_EMPTY : Z := 5.
Definition ERR_FD_INVALID : Z := 6.

Definition sizeof_dentry : Z := 32.
Definition SLASH : Z := 47.
Definition DOT : list Z := [46].
Definition DOTDOT : list Z := [46; 46].

(** ** Directory entries as bytes *)
Definition enc_dentry (d : dentry_t) : list Z := name d ++ le 4 (inode_num d).
Definition dec_dentry (l : list Z) : dentry_t := mk_dentry (take 28 l) (field 28 4 l).

Definition filename_cmp (a b : list Z) : Z := strncmp (bytes a) (bytes b) MAX_FILE_NAME.
(** [strncpy] into a zeroed array of 28 characters. *)
Definition filename_cpy (src : list Z) : list Z :=
  let c := key_name src in c ++ replicate (Z.to_nat MAX_FILE_NAME - length c) 0.

(** ** path_shift *)
Fixpoint skip_slashes (path : list Z) : list Z :=
  match path with
  | c :: rest => if c =? SLASH then skip_slashes rest else path
  | [] => []
  end.
Fixpoint take_component (path : list Z) : list Z * list Z :=
  match path with
  | c :: rest => if c =? SLASH then ([], path) else let '(s, p) := take_component rest in (c :: s, p)
  | [] => ([], [])
  end.

(** The rest of the path and the next component cut at 28 characters. *)
Definition path_shift (path : list Z) : option (list Z * list Z) :=
  match skip_slashes path with
  | [] => None
  | path =>
      let '(s, path) := take_component path in
      Some (skip_slashes path, take (Z.to_nat MAX_FILE_NAME) s)
  end.

Section Dir.

Context {D : Type} `{SectorStore D}.

Abbreviation FM := (M (fstate D)).

(** [inode_read(dir, &dentry, 0, offset, sizeof(dentry_t))] and its assertion. *)
Definition read_dentry (dir : nat) (offset : Z) : FM dentry_t :=
  l <- inode_read dir (u32 offset) sizeof_dentry ;;
  asserts (Z.of_nat (length l) =? sizeof_dentry) "short read" ;;
  ret (dec_dentry l).

(** The loop of [dir_lookup]. *)
Fixpoint lookup_loop (n : nat) (dir : nat) (filename : list Z) (off : Z) : FM (option (nat * Z)) :=
  i <- get_inode dir ;;
  if off <? d_size (node i) then
    match n with
    | O => no_fuel
    | S n =>
        e <- read_dentry dir off ;;
        if inode_num e =? 0 then lookup_loop n dir filename (off + sizeof_dentry) else
        liftd (dcache_put (d_inode_num (node i)) e off) ;;
        if filename_cmp (name e) filename =? 0 then
          p <- inode_ref (inode_num e) ;; ret (Some (p, off))
        else lookup_loop n dir filename (off + sizeof_dentry)
    end
  else ret None.

(** The turns of a scan of the directory. *)
Definition dir_fuel (size : Z) : nat := Z.to_nat (size / sizeof_dentry + 1).

Definition dir_lookup (dir : nat) (filename : list Z) : FM (option (nat * Z)) :=
  i <- get_inode dir ;;
  asserts (d_type (node i) =? FS_TYPE_DIR) "dir_lookup on non-directory inode" ;;
  cached <- liftd (dcache_get (d_inode_num (node i)) filename) ;;
  match cached with
  | Some (e, off) => p <- inode_ref (inode_num e) ;; ret (Some (p, off))
  | None => lookup_loop (dir_fuel (d_size (node i))) dir filename 0
  end.

(** The loop of [dir_link]: the first void entry, or the end. *)
Fixpoint free_entry_loop (n : nat) (dir : nat) (off : Z) : FM Z :=
  i <- get_inode dir ;;
  if off <? d_size (node i) then
    match n with
    | O => no_fuel
    | S n =>
        e <- read_dentry dir off ;;
        if inode_num e =? 0 then ret off else free_entry_loop n dir (off + sizeof_dentry)
    end
  else ret off.

Definition dir_link (dir : nat) (filename : list Z) (num : Z) : FM Z :=
  i <- get_inode dir ;;
  asserts (d_type (node i) =? FS_TYPE_DIR) "dir_link on non-directory inode" ;;
  child <- dir_lookup dir filename ;;
  match child with
  | Some (c, _) => inode_deref c ;; ret ERR_FILE_EXISTS
  | None =>
      i <- get_inode dir ;;
      off <- free_entry_loop (dir_fuel (d_size (node i))) dir 0 ;;
      let e := mk_dentry (filename_cpy filename) (u32 num) in
      n <- inode_write dir (enc_dentry e) (u32 off) ;;
      if negb (n =? sizeof_dentry) then ret ERR_OPERATION_FAILED else
      i <- get_inode dir ;;
      liftd (dcache_put (d_inode_num (node i)) e off) ;;
      ret 0
  end.

(** The void entry written over a removed one. *)
Definition void_dentry : list Z := replicate (Z.to_nat sizeof_dentry) 0.

Definition is_dots (filename : list Z) : bool :=
  (filename_cmp filename DOT =? 0) || (filename_cmp filename DOTDOT =? 0).

Definition dir_unlink (dir : nat) (filename : list Z) : FM Z :=
  i <- get_inode dir ;;
  asserts (d_type (node i) =? FS_TYPE_DIR) "dir_unlink on non-directory inode" ;;
  if is_dots filename then ret ERR_FILE_NO_PERMISSION else
  found <- dir_lookup dir filename ;;
  match found with
  | None => ret ERR_FILE_NOT_EXISTS
  | Some (child, off) =>
      inode_open child ;;
      c <- get_inode child ;;
      if d_type (node c) =? FS_TYPE_DIR then inode_close child ;; ret ERR_FILE_TYPE_MISMATCH else
      upd_node child (fun d => set_link_count (u16 (d_link_count d - 1)) d) ;;
      n <- inode_write dir void_dentry (u32 off) ;;
      if negb (n =? sizeof_dentry) then inode_close child ;; ret ERR_OPERATION_FAILED else
      i <- get_inode dir ;;
      liftd (dcache_remove (d_inode_num (node i)) filename) ;;
      inode_close child ;;
      ret 0
  end.

(** The loop of [dir_isempty], from the third entry on. *)
Fixpoint empty_loop (n : nat) (dir : nat) (off : Z) : FM bool :=
  i <- get_inode dir ;;
  if off <? d_size (node i) then
    match n with
    | O => no_fuel
    | S n =>
        e <- read_dentry dir off ;;
        if negb (inode_num e =? 0) then ret false else empty_loop n dir (off + sizeof_dentry)
    end
  else ret true.
Definition dir_isempty (dir : nat) : FM bool :=
  i <- get_inode dir ;; empty_loop (dir_fuel (d_size (node i))) dir (2 * sizeof_dentry).

Definition dir_rmdir (dir : nat) (dirname : list Z) : FM Z :=
  i <- get_inode dir ;;
  asserts (d_type (node i) =? FS_TYPE_DIR) "dir_rmdir on non-directory inode" ;;
  if is_dots dirname then ret ERR_FILE_NO_PERMISSION else
  found <- dir_lookup dir dirname ;;
  match found with
  | None => ret ERR_FILE_NOT_EXISTS
  | Some (child, off) =>
      inode_open child ;;
      c <- get_inode child ;;
      if negb (d_type (node c) =? FS_TYPE_DIR) then inode_close child ;; ret ERR_FILE_TYPE_MISMATCH else
      empty <- dir_isempty child ;;
      if negb empty then inode_close child ;; ret ERR_DIRECTORY_NOT_EMPTY else
      n <- inode_write dir void_dentry (u32 off) ;;
      if negb (n =? sizeof_dentry) then ret ERR_OPERATION_FAILED else
      i <- get_inode dir ;;
      liftd (dcache_remove (d_inode_num (node i)) dirname) ;;
      c <- get_inode child ;;
      liftd (dcache_invalidate (d_inode_num (node c))) ;;
      (if d_type (node c) =? FS_TYPE_DIR
       then upd_node dir (fun d => set_link_count (u16 (d_link_count d - 1)) d) else ret tt) ;;
      upd_node child (fun d => set_link_count (u16 (d_link_count d - 1)) d) ;;
      inode_close child ;;
      ret 0
  end.

(** ** Paths *)

(** The loop of [path_resolve]; the inode and the last name. *)
Fixpoint resolve_loop (n : nat) (cur : nat) (path nm : list Z) (skip_last : bool) : FM (option (nat * list Z)) :=
  match path_shift path with
  | None =>
      if skip_last then inode_deref cur ;; ret None else ret (Some (cur, nm))
  | Some (path, nm) =>
      match n with
      | O => no_fuel
      | S n =>
          inode_open cur ;;
          c <- get_inode cur ;;
          if negb (d_type (node c) =? FS_TYPE_DIR) then inode_close cur ;; ret None else
          if skip_last && bool_decide (path = []) then inode_unlock cur ;; ret (Some (cur, nm)) else
          next <- dir_lookup cur nm ;;
          match next with
          | None => inode_close cur ;; ret None
          | Some (next, _) => inode_close cur ;; resolve_loop n next path nm skip_last
          end
      end
  end.

Definition path_resolve (cwd : Z) (path : list Z) (skip_last : bool) : FM (option (nat * list Z)) :=
  b <- the_superblock ;;
  cur <- (match path with
          | c :: _ => if c =? SLASH then inode_ref (root_inode b) else inode_ref cwd
          | [] => inode_ref cwd
          end) ;;
  match path with
  | [] => ret (Some (cur, []))
  | _ => resolve_loop (length path) cur path [] skip_last
  end.

Definition path_resolve_entry (cwd : Z) (path : list Z) : FM (option nat) :=
  r <- path_resolve cwd path false ;; ret (fst <$> r).
Definition path_resolve_parent (cwd : Z) (path : list Z) : FM (option (nat * list Z)) :=
  path_resolve cwd path true.

(** The label [fail] of [path_create]. *)
Definition create_fail (child parent : nat) : FM (option nat) :=
  upd_node child (set_link_count 0) ;;
  inode_close child ;;
  inode_close parent ;;
  ret None.

(** The two entries of a new directory; false when one could not be linked. *)
Definition create_dots (child : nat) (type self up : Z) : FM bool :=
  if type =? FS_TYPE_DIR then
    r1 <- dir_link child DOT self ;;
    if negb (r1 =? 0) then ret false else
    r2 <- dir_link child DOTDOT up ;;
    ret (r2 =? 0)
  else ret true.

(** The name is not there: a new inode, linked in the directory. *)
Definition create_child (parent : nat) (nm : list Z) (type : Z) : FM (option nat) :=
  child <- inode_alloc type ;;
  inode_open child ;;
  upd_node child (set_link_count 1) ;;
  c <- get_inode child ;;
  p <- get_inode parent ;;
  ok <- create_dots child type (d_inode_num (node c)) (d_inode_num (node p)) ;;
  if negb ok then create_fail child parent else
  c <- get_inode child ;;
  r3 <- dir_link parent nm (d_inode_num (node c)) ;;
  if negb (r3 =? 0) then create_fail child parent else
  (if type =? FS_TYPE_DIR
   then upd_node parent (fun d => set_link_count (u16 (d_link_count d + 1)) d) else ret tt) ;;
  inode_close parent ;;
  inode_unlock child ;;
  ret (Some child).

Definition path_create (cwd : Z) (path : list Z) (type : Z) : FM (option nat) :=
  r <- path_resolve_parent cwd path ;;
  match r with
  | None => ret None
  | Some (parent, nm) =>
      inode_open parent ;;
      found <- dir_lookup parent nm ;;
      match found with
      | Some (child, _) =>
          inode_open child ;;
          c <- get_inode child ;;
          if negb (d_type (node c) =? type) then
            inode_close child ;; inode_close parent ;; ret None
          else
            inode_unlock child ;; inode_close parent ;; ret (Some child)
      | None => create_child parent nm type
      end
  end.

Definition path_remove (cwd : Z) (path : list Z) (isdir : bool) : FM Z :=
  r <- path_resolve_parent cwd path ;;
  match r with
  | None => ret ERR_FILE_NOT_EXISTS
  | Some (parent, nm) =>
      inode_open parent ;;
      r <- (if isdir then dir_rmdir parent nm else dir_unlink parent nm) ;;
      inode_close parent ;;
      ret r
  end.

End Dir.
