(* ===== verification/DirTheorems.v ===== *)
(** * Paths and directories as the code promises them

    [path_shift] against the components of a path, the entry layout, and the
    contract of [dir_lookup] and [dir_link] on an open directory seen as a
    table of named entries. *)

From S2P Require Import Prelude Bytes CString Block BlockProofs BlockAlloc SdCard BlockTheorems Dcache Inode.
From S2P Require Import InodeLayout InodeMap InodeMapRun InodeIO InodeTheorems InodeHit Dir.

(** ** The components of a path *)

(** The pieces between slashes. *)
Fixpoint pieces (path : list Z) : list (list Z) :=
  match path with
  | [] => [[]]
  | c :: rest =>
      if c =? SLASH then [] :: pieces rest
      else match pieces rest with p :: ps => (c :: p) :: ps | [] => [[c]] end
  end.
Definition components (path : list Z) : list (list Z) := filter (fun p => p ≠ []) (pieces path).

Lemma components_skip path : components (skip_slashes path) = components path.
Proof.
  induction path as [|c rest IH]; [done|]. cbn [skip_slashes]. destruct (c =? SLASH) eqn:E; [|done].
  rewrite IH. unfold components. cbn [pieces]. by rewrite E.
Qed.

Lemma skip_slashes_hd path : match skip_slashes path with c :: _ => c ≠ SLASH | [] => True end.
Proof. induction path as [|c rest IH]; [done|]. simpl. destruct (Z.eqb_spec c SLASH); done. Qed.

Lemma skip_slashes_length path : (length (skip_slashes path) ≤ length path)%nat.
Proof. induction path as [|c rest IH]; [done|]. simpl. destruct (c =? SLASH); simpl; lia. Qed.

Lemma take_component_spec path :
  let '(s, rest) := take_component path in
  path = s ++ rest ∧ (SLASH ∉ s) ∧ match rest with c :: _ => c = SLASH | [] => True end.
Proof.
  induction path as [|c path IH]; simpl; [split_and!; try done; set_solver|].
  destruct (Z.eqb_spec c SLASH); [split_and!; try done; set_solver|].
  destruct (take_component path) as [s rest]. destruct IH as (-> & ? & ?). split_and!; try done. set_solver.
Qed.

Lemma pieces_nonempty path : pieces path ≠ [].
Proof. destruct path as [|c path]; [done|]. simpl. destruct (c =? SLASH); [done|]. by destruct (pieces path). Qed.

Lemma pieces_app s rest :
  SLASH ∉ s → match rest with c :: _ => c = SLASH | [] => True end →
  pieces (s ++ rest) = s :: match rest with [] => [] | _ :: r => pieces r end.
Proof.
  intros Hs Hr. induction s as [|c s IH]; simpl.
  - destruct rest as [|c rest]; [done|]. subst c. simpl. done.
  - apply not_elem_of_cons in Hs as [Hc Hs]. rewrite (proj2 (Z.eqb_neq c SLASH)) by congruence. by rewrite IH.
Qed.

Lemma components_cons s rest :
  s ≠ [] → SLASH ∉ s → match rest with c :: _ => c = SLASH | [] => True end →
  components (s ++ rest) = s :: components rest.
Proof.
  intros Hne Hs Hr. unfold components. rewrite pieces_app by done. rewrite filter_cons_True by done. f_equal.
  destruct rest as [|c rest]; [done|]. subst c. simpl. done.
Qed.

(** One step of path walking takes exactly the next component:
    [path_shift] fails only on a path without components, and otherwise cuts
    the first component (to 28 characters) and leaves a shorter path with the
    remaining components, which starts with no slash and is empty exactly when
    no component is left, the test [path_resolve] uses for the last one. *)
Theorem path_shift_components path :
  match path_shift path with
  | None => components path = []
  | Some (rest, nm) =>
      ∃ c, components path = c :: components rest ∧ nm = take (Z.to_nat MAX_FILE_NAME) c ∧ c ≠ [] ∧ (SLASH ∉ c) ∧
        (length rest < length path)%nat ∧ (rest = [] ↔ components rest = [])
  end.
Proof.
  unfold path_shift. pose proof (components_skip path) as Ec. pose proof (skip_slashes_hd path) as Hhd.
  pose proof (skip_slashes_length path) as Hlen.
  destruct (skip_slashes path) as [|c l] eqn:E; [by rewrite <- Ec|].
  pose proof (take_component_spec (c :: l)) as Htc. simpl in Htc.
  rewrite (proj2 (Z.eqb_neq c SLASH) Hhd) in Htc. cbn [take_component].
  rewrite (proj2 (Z.eqb_neq c SLASH) Hhd). destruct (take_component l) as [s rest].
  destruct Htc as (El & Hs & Hr). exists (c :: s). split_and!; try done.
  - rewrite <- Ec, El, components_skip. by apply components_cons.
  - apply (f_equal length) in El. rewrite length_app in El. simpl in *.
    pose proof (skip_slashes_length rest). lia.
  - rewrite components_skip. split; intros Hnil.
    + by rewrite <- components_skip, Hnil.
    + pose proof (skip_slashes_hd rest) as Hh. destruct (skip_slashes rest) as [|c' l'] eqn:E'; [done|].
      exfalso. rewrite <- components_skip, E' in Hnil. pose proof (take_component_spec (c' :: l')) as Ht. simpl in Ht.
      rewrite (proj2 (Z.eqb_neq c' SLASH) Hh) in Ht. destruct (take_component l') as [s' r'].
      destruct Ht as (Ht & ? & ?). rewrite Ht, (components_cons (c' :: s')) in Hnil by done. done.
Qed.

(** ** Entries *)
Definition live_name (nm : list Z) (e : dentry_t) : Prop := inode_num e ≠ 0 ∧ key_name (name e) = key_name nm.

Lemma filename_cmp_key a b : filename_cmp a b = 0 ↔ key_name a = key_name b.
Proof. apply strncmp_canon. done. Qed.

Lemma key_name_length nm : (length (key_name nm) ≤ 28)%nat.
Proof. unfold key_name, canon. etrans; [apply upto_nul_length | rewrite length_take; change (Z.to_nat MAX_FILE_NAME) with 28%nat; lia]. Qed.

Lemma upto_nul_pad l n : upto_nul (upto_nul l ++ replicate n 0) = upto_nul l.
Proof.
  induction l as [|x l IH]; simpl; [by destruct n|].
  destruct (Z.eqb_spec x 0) as [->|Hx]; simpl; [by destruct n|].
  rewrite (proj2 (Z.eqb_neq x 0) Hx). by rewrite IH.
Qed.

Lemma filename_cpy_length nm : length (filename_cpy nm) = 28%nat.
Proof. unfold filename_cpy. rewrite length_app, length_replicate. pose proof (key_name_length nm). change (Z.to_nat MAX_FILE_NAME) with 28%nat. lia. Qed.

Lemma filename_cpy_key nm : key_name (filename_cpy nm) = key_name nm.
Proof.
  unfold key_name at 1, canon. rewrite take_ge; [apply upto_nul_pad|].
  by rewrite filename_cpy_length.
Qed.

Lemma dec_enc_dentry e :
  length (name e) = 28%nat → 0 ≤ inode_num e < 2 ^ 32 → dec_dentry (enc_dentry e) = e.
Proof.
  intros Hl Hn. unfold dec_dentry, enc_dentry, field. rewrite take_app_length' by done.
  rewrite drop_app_length' by done. rewrite take_ge by (by rewrite le_length). rewrite unle_le_small by done. by destruct e.
Qed.

Lemma enc_dentry_length e : length (name e) = 28%nat → length (enc_dentry e) = 32%nat.
Proof. intros Hl. unfold enc_dentry. rewrite length_app, le_length. lia. Qed.

(** Entry [k] of the directory [n] on the volume [C]. *)
Definition entry_at (n : diskinode_t) (C : Z → list Z) (k : Z) : dentry_t :=
  dec_dentry (fbyte n C <$> seqZ (sizeof_dentry * k) sizeof_dentry).
Definition entries (n : diskinode_t) : Z := d_size n / sizeof_dentry.
(** Entry [k] is the one of the name [nm]. *)
Definition named (n : diskinode_t) (C : Z → list Z) (nm : list Z) (k : Z) : Prop :=
  0 ≤ k < entries n ∧ live_name nm (entry_at n C k).

Section Directory.

Context {D : Type} `{SectorStore D}.
Implicit Types (s : fstate D) (C : Z → list Z).

(** The cached entries of directory [num] are entries of the directory. *)
Definition cache_ok (d : dcache) (n : diskinode_t) C : Prop :=
  ∃ m, dcache_holds d m ∧
    ∀ nm e off, m !! (d_inode_num n, nm) = Some (e, off) →
      ∃ k, named n C nm k ∧ off = sizeof_dentry * k ∧ entry_at n C k = e ∧ key_name nm = nm.

(** An open directory: an open file of type directory, of whole entries,
    without holes, whose names are distinct, with a truthful cache. *)
Record dir_ok (b : superblock_t) s C (p : nat) (i : inode_t) : Prop := {
  do_file : file_open b s C p i;
  do_type : d_type (node i) = FS_TYPE_DIR;
  do_size : d_size (node i) = sizeof_dentry * entries (node i);
  do_small : d_size (node i) + sizeof_dentry < 2 ^ 32;
  do_mapped o : 0 ≤ o < d_size (node i) → 0 ≤ ptr (node i) C (slot_of (o / BLOCK_SIZE));
  do_uniq nm j k : named (node i) C nm j → named (node i) C nm k → j = k;
  do_cache : cache_ok (fdc s) (node i) C;
}.

(** The directory was looked at: neither the volume nor the inode table has
    changed, and the cache may know more entries of this directory. *)
Record looked (b : superblock_t) s C (p : nat) (i : inode_t) s' : Prop := {
  lk_dir : dir_ok b s' C p i;
  lk_inodes : inodes s' = inodes s;
  lk_cache m : dcache_holds (fdc s) m → ∃ m', dcache_holds (fdc s') m' ∧
    ∀ j nm, j ≠ d_inode_num (node i) → m' !! (j, nm) = m !! (j, nm);
}.

Lemma looked_refl b s C p i : dir_ok b s C p i → looked b s C p i s.
Proof. intros Hd. split; [done | done |]. intros m Hm. by exists m. Qed.

Lemma looked_trans b s C p i s1 s2 :
  looked b s C p i s1 → looked b s1 C p i s2 → looked b s C p i s2.
Proof.
  intros [D1 I1 M1] [D2 I2 M2]. split; [done | congruence |].
  intros m Hm. destruct (M1 m Hm) as (m1 & Hm1 & E1). destruct (M2 m1 Hm1) as (m2 & Hm2 & E2).
  exists m2. split; [done|]. intros j nm Hj. by rewrite E2, E1.
Qed.

(** A transfer that allocates nothing is a look. *)
Lemma quiet_looked b s C p i s' : dir_ok b s C p i → quiet b s C [] s' → looked b s C p i s'.
Proof.
  intros Hd Q. split; [|apply Q|].
  - pose proof (quiet_open _ _ _ _ _ _ (do_file _ _ _ _ _ Hd) Q). destruct Hd. split; try done.
    by rewrite (qu_fdc _ _ _ _ _ Q).
  - rewrite (qu_fdc _ _ _ _ _ Q). intros m Hm. by exists m.
Qed.

Lemma liftd_Ok {A} (m : M dcache A) s a d' :
  m (fdc s) = Ok (a, d') → liftd m s = Ok (a, mk_fstate (fb s) (inodes s) d').
Proof. unfold liftd. by intros ->. Qed.

(** The cache learns a true entry. *)
Lemma cache_put_looked b s C p i k :
  dir_ok b s C p i → 0 ≤ k < entries (node i) → inode_num (entry_at (node i) C k) ≠ 0 →
  ∃ s', liftd (dcache_put (d_inode_num (node i)) (entry_at (node i) C k) (sizeof_dentry * k)) s = Ok (tt, s') ∧
    looked b s C p i s'.
Proof.
  intros Hd Hk H0. destruct (do_cache _ _ _ _ _ Hd) as (m & Hm & Hc).
  destruct (put_run _ _ (d_inode_num (node i)) (entry_at (node i) C k) (sizeof_dentry * k) Hm)
    as (d' & m' & R & Hm' & _ & _ & Hcase).
  eexists. split; [by apply liftd_Ok|]. destruct Hd as [F T S1 S2 S3 S4 S5]. split; [|done|].
  - split; try done; [by destruct F; split|]. exists m'. split; [done|].
    intros nm e off Hx. destruct Hcase as [->|[-> _]]; [|by apply Hc].
    apply lookup_insert_Some in Hx as [[[= <-] [= <- <-]]|[_ Hx]]; [|by apply Hc].
    exists k. split_and!; [|reflexivity..|apply key_name_idemp].
    split; [exact Hk|]. split; [exact H0|]. symmetry. apply key_name_idemp.
  - intros m0 Hm0. rewrite (dcache_holds_inj _ _ _ Hm0 Hm). exists m'. split; [done|]. intros j nm Hj.
    destruct Hcase as [->|[-> _]]; [|done]. rewrite lookup_insert_ne; [done|]. congruence.
Qed.

Lemma read_dentry_run b s C p i k :
  dir_ok b s C p i → 0 ≤ k < entries (node i) →
  ∃ s', read_dentry p (sizeof_dentry * k) s = Ok (entry_at (node i) C k, s') ∧ looked b s C p i s'.
Proof.
  intros Hd Hk. pose proof (do_size _ _ _ _ _ Hd) as Hsz. pose proof (do_small _ _ _ _ _ Hd) as Hsm.
  unfold sizeof_dentry in *. set (off := 32 * k).
  destruct (inode_read_hit b s C p i off 32 (do_file _ _ _ _ _ Hd)) as (s' & R & Q); [lia | lia | lia | |].
  { intros o Ho. apply (do_mapped _ _ _ _ _ Hd). lia. }
  exists s'. split; [|by apply quiet_looked]. unfold read_dentry.
  assert (u32 off = off) as -> by (unfold u32, wrap; apply Z.mod_small; lia).
  unfold sizeof_dentry. rewrite (bind_Ok _ _ _ _ _ R). rewrite length_fmap, length_seqZ. done.
Qed.

(** The scan of [dir_lookup]: the reference of the entry of the name, or none. *)
Lemma lookup_loop_run fuel b s C p i nm k :
  dir_ok b s C p i → 0 ≤ k ≤ entries (node i) → entries (node i) - k < Z.of_nat fuel →
  (∀ j, named (node i) C nm j → k ≤ j) →
  ∃ s1, looked b s C p i s1 ∧
    ((∃ j, named (node i) C nm j ∧ lookup_loop fuel p nm (sizeof_dentry * k) s =
        (q <- inode_ref (inode_num (entry_at (node i) C j)) ;; ret (Some (q, sizeof_dentry * j))) s1) ∨
     (∀ j, ¬ named (node i) C nm j) ∧ lookup_loop fuel p nm (sizeof_dentry * k) s = Ok (None, s1)).
Proof.
  revert s k. induction fuel as [|fuel IH]; intros s k Hd Hk Hfuel Hbelow; [lia|].
  pose proof (do_size _ _ _ _ _ Hd) as Hsz. pose proof (do_small _ _ _ _ _ Hd) as Hsm.
  cbn [lookup_loop]. rewrite (bind_Ok _ _ _ _ _ (get_inode_run _ _ _ (fo_slot _ _ _ _ _ (do_file _ _ _ _ _ Hd)))).
  destruct (Z.ltb_spec (sizeof_dentry * k) (d_size (node i))) as [Hlt|Hge]; cycle 1.
  { exists s. split; [by apply looked_refl|]. right. split; [|done].
    intros j Hj. specialize (Hbelow j Hj). destruct Hj. unfold sizeof_dentry in *. lia. }
  assert (0 ≤ k < entries (node i)) as Hk' by (unfold sizeof_dentry in *; lia).
  destruct (read_dentry_run b s C p i k Hd Hk') as (s1 & R1 & L1). rewrite (bind_Ok _ _ _ _ _ R1).
  assert (∀ s2, looked b s C p i s2 → ¬ named (node i) C nm k →
    ∃ s3, looked b s C p i s3 ∧
    ((∃ j, named (node i) C nm j ∧ lookup_loop fuel p nm (sizeof_dentry * k + sizeof_dentry) s2 =
        (q <- inode_ref (inode_num (entry_at (node i) C j)) ;; ret (Some (q, sizeof_dentry * j))) s3) ∨
     (∀ j, ¬ named (node i) C nm j) ∧ lookup_loop fuel p nm (sizeof_dentry * k + sizeof_dentry) s2 = Ok (None, s3))) as Hnext.
  { intros s2 L2 Hnot. destruct (IH s2 (k + 1) (lk_dir _ _ _ _ _ _ L2)) as (s3 & L3 & Hres); [lia | lia | |].
    { intros j Hj. assert (j ≠ k) by (by intros ->). specialize (Hbelow j Hj). lia. }
    exists s3. split; [by eapply looked_trans|].
    by replace (sizeof_dentry * k + sizeof_dentry) with (sizeof_dentry * (k + 1)) by (unfold sizeof_dentry; lia). }
  destruct (Z.eqb_spec (inode_num (entry_at (node i) C k)) 0) as [Hz|Hz].
  { apply (Hnext s1 L1). intros [_ [? _]]. done. }
  destruct (cache_put_looked b s1 C p i k) as (s2 & R2 & L2); [apply L1 | done | done |].
  rewrite (bind_Ok _ _ _ _ _ R2). pose proof (looked_trans _ _ _ _ _ _ _ L1 L2) as L.
  destruct (Z.eqb_spec (filename_cmp (name (entry_at (node i) C k)) nm) 0) as [Hc|Hc].
  - exists s2. split; [done|]. left. exists k. split; [|done]. split; [done|].
    split; [done|]. by apply filename_cmp_key.
  - apply (Hnext s2 L). intros [_ [_ Hkey]]. by apply Hc, filename_cmp_key.
Qed.

Lemma dir_fuel_enough n : 0 ≤ d_size n → entries n < Z.of_nat (dir_fuel (d_size n)).
Proof. intros Hz. unfold dir_fuel, entries. pose proof (Z.div_pos (d_size n) sizeof_dentry Hz ltac:(done)). lia. Qed.

Lemma entries_pos b s C p i : file_open b s C p i → 0 ≤ d_size (node i) ∧ 0 ≤ entries (node i).
Proof.
  intros Hf. pose proof (wf_size _ (fo_wf _ _ _ _ _ Hf)). split; [lia|]. apply Z.div_pos; [lia | done].
Qed.

Lemma dir_lookup_run b s C p i nm :
  dir_ok b s C p i →
  ∃ s1, looked b s C p i s1 ∧
    ((∃ j, named (node i) C nm j ∧ dir_lookup p nm s =
        (q <- inode_ref (inode_num (entry_at (node i) C j)) ;; ret (Some (q, sizeof_dentry * j))) s1) ∨
     (∀ j, ¬ named (node i) C nm j) ∧ dir_lookup p nm s = Ok (None, s1)).
Proof.
  intros Hd. pose proof (fo_slot _ _ _ _ _ (do_file _ _ _ _ _ Hd)) as Hi.
  destruct (entries_pos _ _ _ _ _ (do_file _ _ _ _ _ Hd)) as [Hz He].
  unfold dir_lookup. rewrite (bind_Ok _ _ _ _ _ (get_inode_run _ _ _ Hi)).
  rewrite (do_type _ _ _ _ _ Hd). rewrite (bind_Ok _ _ s tt s) by done.
  destruct (do_cache _ _ _ _ _ Hd) as (m & Hm & Hc).
  destruct (get_run _ _ (d_inode_num (node i)) nm Hm) as (d' & R & Hm' & _).
  rewrite (bind_Ok _ _ _ _ _ (liftd_Ok _ s _ _ R)). set (s1 := mk_fstate _ _ d').
  assert (looked b s C p i s1) as L1.
  { split; [|done|].
    - destruct Hd as [F T S1 S2 S3 S4 S5]. split; try done; [by destruct F; split | by exists m].
    - intros m0 Hm0. exists m. split; [done|]. by rewrite (dcache_holds_inj _ _ _ Hm0 Hm). }
  destruct (m !! (d_inode_num (node i), key_name nm)) as [[e off]|] eqn:Ehit.
  - destruct (Hc _ _ _ Ehit) as (k & Hk & -> & <- & Hkey).
    exists s1. split; [done|]. left. exists k. split; [|done].
    destruct Hk as [Hr [H0 Hn]]. split; [exact Hr|]. split; [exact H0|]. rewrite Hn. exact Hkey.
  - destruct (lookup_loop_run (dir_fuel (d_size (node i))) b s1 C p i nm 0 (lk_dir _ _ _ _ _ _ L1)) as (s2 & L & Hres);
      [lia | rewrite Z.sub_0_r; by apply dir_fuel_enough | intros j [Hj _]; lia |].
    exists s2. rewrite Z.mul_0_r in Hres. split; [by eapply looked_trans | exact Hres].
Qed.

(** The scan of [dir_link]: a void entry, or the end. *)
Lemma free_entry_run fuel b s C p i k :
  dir_ok b s C p i → 0 ≤ k ≤ entries (node i) → entries (node i) - k < Z.of_nat fuel →
  ∃ j s1, looked b s C p i s1 ∧ free_entry_loop fuel p (sizeof_dentry * k) s = Ok (sizeof_dentry * j, s1) ∧
    k ≤ j ≤ entries (node i) ∧ (j < entries (node i) → inode_num (entry_at (node i) C j) = 0).
Proof.
  revert s k. induction fuel as [|fuel IH]; intros s k Hd Hk Hfuel; [lia|].
  pose proof (do_size _ _ _ _ _ Hd) as Hsz. pose proof (do_small _ _ _ _ _ Hd) as Hsm.
  cbn [free_entry_loop]. rewrite (bind_Ok _ _ _ _ _ (get_inode_run _ _ _ (fo_slot _ _ _ _ _ (do_file _ _ _ _ _ Hd)))).
  destruct (Z.ltb_spec (sizeof_dentry * k) (d_size (node i))) as [Hlt|Hge]; cycle 1.
  { exists k, s. split; [by apply looked_refl|]. split; [done|]. unfold sizeof_dentry in *. lia. }
  assert (0 ≤ k < entries (node i)) as Hk' by (unfold sizeof_dentry in *; lia).
  destruct (read_dentry_run b s C p i k Hd Hk') as (s1 & R1 & L1). rewrite (bind_Ok _ _ _ _ _ R1).
  destruct (Z.eqb_spec (inode_num (entry_at (node i) C k)) 0) as [Hz|Hz].
  { exists k, s1. split_and!; [exact L1 | done | lia | lia | done]. }
  destruct (IH s1 (k + 1) (lk_dir _ _ _ _ _ _ L1)) as (j & s2 & L2 & R2 & Hj & H0); [lia | lia |].
  exists j, s2. split_and!; [by eapply looked_trans | | lia | lia | done].
  by replace (sizeof_dentry * k + sizeof_dentry) with (sizeof_dentry * (k + 1)) by (unfold sizeof_dentry; lia).
Qed.

(** ** References *)

(** The slot [x] holds inode [num] and is in use. *)
Definition refers (num : Z) (x : inode_t) : Prop :=
  d_type (node x) ≠ 0 ∧ d_inode_num (node x) = num ∧ 0 < ref_count x.

Lemma ref_scan_spec l i num e :
  match ref_scan l i num e with
  | inl q => ∃ x, (i ≤ q)%nat ∧ l !! (q - i)%nat = Some x ∧ refers num x
  | inr r => (∀ x, x ∈ l → ¬ refers num x) ∧
      match r with
      | Some q => e = Some q ∨ (e = None ∧ ∃ x, (i ≤ q)%nat ∧ l !! (q - i)%nat = Some x ∧ d_type (node x) = 0)
      | None => e = None ∧ ∀ x, x ∈ l → d_type (node x) ≠ 0
      end
  end.
Proof.
  revert i e. induction l as [|x l IH]; intros i e; cbn [ref_scan].
  { split; [set_solver|]. destruct e; [by left | split; [done | set_solver]]. }
  destruct (negb (d_type (node x) =? 0) && (d_inode_num (node x) =? num) && (ref_count x >? 0)) eqn:E.
  { exists x. rewrite Nat.sub_diag. apply andb_true_iff in E as [[E1 E2]%andb_true_iff E3].
    rewrite Z.gtb_ltb in E3. apply Z.ltb_lt in E3. apply Z.eqb_eq in E2. apply negb_true_iff, Z.eqb_neq in E1.
    unfold refers. split_and!; [lia | done..]. }
  assert (¬ refers num x) as Hx.
  { intros (H1 & H2 & H3). rewrite (proj2 (Z.eqb_neq _ _) H1), (proj2 (Z.eqb_eq _ _) H2), Z.gtb_ltb,
      (proj2 (Z.ltb_lt _ _) H3) in E. done. }
  specialize (IH (S i) (if (d_type (node x) =? 0) && bool_decide (e = None) then Some i else e)).
  destruct (ref_scan l (S i) num _) as [q|r].
  - destruct IH as (y & Hq & Hy & ?). exists y. split_and!; [lia | | done..].
    replace (q - i)%nat with (S (q - S i)) by lia. done.
  - destruct IH as [Hno Hr]. split; [intros y [->|Hy]%elem_of_cons; [done | by apply Hno]|].
    destruct r as [q|].
    + destruct Hr as [Hr|(Hr & y & Hq & Hy & Hz)].
      * destruct (Z.eqb_spec (d_type (node x)) 0) as [Hz|Hz]; [|by left]. simpl in Hr.
        case_bool_decide as He; [|by left]. injection Hr as <-. right. split; [done|]. exists x.
        rewrite Nat.sub_diag. split_and!; [lia | done | done].
      * right. split.
        { destruct (d_type (node x) =? 0); [|done]. simpl in Hr. by case_bool_decide. }
        exists y. split_and!; [lia | | done]. replace (q - i)%nat with (S (q - S i)) by lia. done.
    + destruct Hr as [He Hall]. destruct (Z.eqb_spec (d_type (node x)) 0) as [Hz|Hz].
      * simpl in He. by case_bool_decide.
      * split; [done|]. intros y [->|Hy]%elem_of_cons; [done | by apply Hall].
Qed.

(** The slot a reference leaves behind. *)
Definition ref_slot (num : Z) (x x' : inode_t) : Prop :=
  (refers num x ∧ x' = set_ref (u16 (ref_count x + 1)) x) ∨
  (d_type (node x) = 0 ∧ x' = set_valid false (set_ref 1 (set_node (set_inode_num num (node x)) x))).

Lemma upd_inode_run s p x f :
  inodes s !! p = Some x → upd_inode p f s = Ok (tt, mk_fstate (fb s) (<[p := f x]> (inodes s)) (fdc s)).
Proof.
  intros E. unfold upd_inode. rewrite (bind_Ok _ _ _ _ _ (get_inode_run _ _ _ E)). by apply (put_inode_run s p x).
Qed.

Lemma inode_ref_run s num :
  match inode_ref num s with
  | Ok (q, s') => ∃ x x', inodes s !! q = Some x ∧ ref_slot (u32 num) x x' ∧
      ((∃ y, y ∈ inodes s ∧ refers (u32 num) y) → refers (u32 num) x) ∧
      s' = mk_fstate (fb s) (<[q := x']> (inodes s)) (fdc s)
  | Panic _ => ∀ x, x ∈ inodes s → d_type (node x) ≠ 0 ∧ ¬ refers (u32 num) x
  | OutOfFuel => False
  end.
Proof.
  unfold inode_ref, gets. cbn [bind]. pose proof (ref_scan_spec (inodes s) 0 (u32 num) None) as Hspec.
  destruct (ref_scan _ _ _ _) as [q|[q|]].
  - destruct Hspec as (x & _ & Hx & Hr). rewrite Nat.sub_0_r in Hx.
    rewrite (bind_Ok _ _ _ _ _ (upd_inode_run s q x _ Hx)). cbn. exists x. eexists. split_and!; [done | by left | done | done].
  - destruct Hspec as [Hno [?|(_ & x & _ & Hx & Hz)]]; [done|]. rewrite Nat.sub_0_r in Hx.
    rewrite (bind_Ok _ _ _ _ _ (upd_inode_run s q x _ Hx)). cbn. exists x. eexists.
    split_and!; [done | by right | | done]. intros (y & Hy & Hry). by destruct (Hno y Hy).
  - destruct Hspec as [Hno [_ Hall]]. intros x Hx. cbn. split; [by apply Hall | by apply Hno].
Qed.

(** Between calls every slot of the inode table is free or holds a referenced inode, with
    room for one more reference, and one slot is free. *)
Definition table_settled (l : list inode_t) : Prop :=
  Forall (fun x => x = empty_inode ∨ d_type (node x) ≠ 0 ∧ 0 < ref_count x < 2 ^ 16 - 1) l ∧ empty_inode ∈ l.

(** A reference taken and given back leaves everything as it was. *)
Lemma ref_deref_run s num :
  table_settled (inodes s) → ∃ q s1, inode_ref num s = Ok (q, s1) ∧ inode_deref q s1 = Ok (tt, s).
Proof.
  intros [Hall Hfree]. pose proof (inode_ref_run s num) as R.
  destruct (inode_ref num s) as [[q s1]| |]; [|by destruct (R _ Hfree)|done].
  destruct R as (x & x' & Hx & Hslot & _ & ->). exists q. eexists. split; [done|].
  set (s1 := mk_fstate _ _ _). pose proof (lookup_lt_Some _ _ _ Hx) as Hlt.
  assert (inodes s1 !! q = Some x') as Hq by (by apply list_lookup_insert_eq).
  assert (∀ y, mk_fstate (fb s) (<[q := y]> (inodes s1)) (fdc s) = mk_fstate (fb s) (<[q := y]> (inodes s)) (fdc s)) as Es.
  { intros y. unfold s1. cbn [inodes]. by rewrite list_insert_insert_eq. }
  assert (mk_fstate (fb s) (<[q := x]> (inodes s)) (fdc s) = s) as Eid by (rewrite list_insert_id by done; by destruct s).
  rewrite Forall_lookup in Hall. specialize (Hall q x Hx).
  assert (u16 (ref_count x' - 1) = ref_count x ∧ 0 < ref_count x' ∧ ((ref_count x' =? 1) && i_valid x' = false) ∧ set_ref (ref_count x) x' =
    (if ref_count x =? 0 then set_ref 0 (set_valid false (set_ref 1 (set_node (set_inode_num (u32 num) (node x)) x))) else x) ∧
    (ref_count x = 0 → x = empty_inode)) as (E1 & E2 & E3 & E4 & E5).
  { destruct Hslot as [[(Ht & Hn & Hr) ->]|[Ht ->]].
    - destruct Hall as [->|[_ Hc]]; [done|]. assert (u16 (ref_count x + 1) = ref_count x + 1) as E by (apply Z.mod_small; lia).
      destruct x as [nx vx rx lx]. cbn [set_ref ref_count i_valid] in *. rewrite E. split_and!.
      + replace (rx + 1 - 1) with rx by lia. apply Z.mod_small. lia.
      + lia.
      + rewrite (proj2 (Z.eqb_neq (rx + 1) 1)) by lia. done.
      + by rewrite (proj2 (Z.eqb_neq rx 0)) by lia.
      + lia.
    - destruct Hall as [->|[? _]]; [|done]. by split_and!. }
  unfold inode_deref. cbn [deref_rec]. rewrite (bind_Ok _ _ _ _ _ (get_inode_run _ _ _ Hq)).
  rewrite (proj2 (Z.gtb_lt (ref_count x') 0)) by done. rewrite (bind_Ok _ _ s1 tt s1) by done. rewrite E3. cbn [andb].
  rewrite (bind_Ok _ _ s1 tt s1) by done. rewrite (bind_Ok _ _ _ _ _ (upd_inode_run s1 q x' _ Hq)), E1. cbn [s1 fb fdc]. rewrite Es.
  set (s2 := mk_fstate _ _ _). assert (inodes s2 !! q = Some (set_ref (ref_count x) x')) as Hq2 by (by apply list_lookup_insert_eq).
  rewrite (bind_Ok _ _ _ _ _ (get_inode_run _ _ _ Hq2)). cbn [set_ref ref_count]. destruct (Z.eqb_spec (ref_count x) 0) as [E0|E0].
  - unfold inode_clear. rewrite (bind_Ok _ _ _ _ _ (get_inode_run _ _ _ Hq2)), E4. cbn [set_ref set_valid ref_count i_valid].
    rewrite (bind_Ok _ _ s2 tt s2) by done. rewrite (bind_Ok _ _ s2 tt s2) by done. rewrite (put_inode_run s2 q _ _ Hq2).
    cbn [s2 fb inodes fdc]. rewrite list_insert_insert_eq, <- (E5 E0), Eid. done.
  - unfold s2. by rewrite E4, Eid.
Qed.

(** A reference taken does not disturb an open directory. *)
Lemma inode_ref_dir b s C p i num :
  dir_ok b s C p i → (∃ x, x ∈ inodes s ∧ d_type (node x) = 0) →
  ∃ q x s' i', inode_ref num s = Ok (q, s') ∧ inodes s' !! q = Some x ∧ d_inode_num (node x) = u32 num ∧
    dir_ok b s' C p i' ∧ node i' = node i.
Proof.
  intros Hd (z & Hz & Hz0). pose proof (inode_ref_run s num) as R.
  pose proof (fo_slot _ _ _ _ _ (do_file _ _ _ _ _ Hd)) as Hi.
  destruct (inode_ref num s) as [[q s']| |]; [|by destruct (R z Hz)|done].
  destruct R as (x & x' & Hx & Hslot & _ & ->). set (s' := mk_fstate _ _ _).
  assert (d_inode_num (node x') = u32 num) as Hnum by (by destruct Hslot as [[(_ & ? & _) ->]|[_ ->]]).
  assert (inodes s' !! q = Some x') as Hq by (apply list_lookup_insert_eq; by eapply lookup_lt_Some).
  assert (∃ i', inodes s' !! p = Some i' ∧ node i' = node i ∧ lock_acquired i' = lock_acquired i) as (i' & Hi' & En & El).
  { destruct (decide (q = p)) as [->|Hne].
    - exists x'. split; [done|]. assert (x = i) as -> by congruence. destruct Hslot as [[_ ->]|[Hz' _]]; [done|].
      pose proof (do_type _ _ _ _ _ Hd) as Hty. rewrite Hz' in Hty. done.
    - exists i. split; [|done]. unfold s'. cbn. by rewrite list_lookup_insert_ne. }
  exists q, x', s', i'. split_and!; try done. destruct Hd as [F T S1 S2 S3 S4 S5].
  split; rewrite ?En; try done. destruct F as [F1 F2 F3 F4 F5 F6 F7]. split; rewrite ?En, ?El; done.
Qed.

(** ** The contract *)

(** Looking a name up in an open directory, with a free slot in the
    inode table: [dir_lookup] finds the entry of the name whether or not the
    cache knows it, returns its offset and a referenced slot of its inode, and
    returns none exactly when no entry has the name; the volume is unchanged,
    the directory stays open and the cache truthful. *)
Theorem dir_lookup_correct b s C p i nm :
  dir_ok b s C p i → (∃ x, x ∈ inodes s ∧ d_type (node x) = 0) →
  ∃ r s' i', dir_lookup p nm s = Ok (r, s') ∧ dir_ok b s' C p i' ∧ node i' = node i ∧
    match r with
    | Some (q, off) => ∃ j x, named (node i) C nm j ∧ off = sizeof_dentry * j ∧
        inodes s' !! q = Some x ∧ d_inode_num (node x) = u32 (inode_num (entry_at (node i) C j))
    | None => ∀ j, ¬ named (node i) C nm j
    end.
Proof.
  intros Hd Hfree. destruct (dir_lookup_run b s C p i nm Hd) as (s1 & L & [(j & Hj & R)|[Hno R]]).
  - destruct (inode_ref_dir b s1 C p i (inode_num (entry_at (node i) C j)) (lk_dir _ _ _ _ _ _ L))
      as (q & x & s2 & i2 & R2 & Hx & Hnum & Hd2 & En); [by rewrite (lk_inodes _ _ _ _ _ _ L)|].
    rewrite (bind_Ok _ _ _ _ _ R2) in R. exists (Some (q, sizeof_dentry * j)), s2, i2.
    split_and!; [exact R | exact Hd2 | exact En |]. exists j, x. done.
  - exists None, s1, i. split_and!; [exact R | apply L | done | exact Hno].
Qed.

(** Overwriting entry [k]. *)
Lemma written_entries n C n' C' e k :
  length (name e) = 28%nat → 0 ≤ inode_num e < 2 ^ 32 → d_size n = sizeof_dentry * entries n →
  d_size n + 2 * sizeof_dentry < 2 ^ 32 → 0 ≤ k ≤ entries n →
  written n C (enc_dentry e) (sizeof_dentry * k) sizeof_dentry n' C' →
  entries n' = Z.max (entries n) (k + 1) ∧ d_size n' = sizeof_dentry * entries n' ∧
  entry_at n' C' k = e ∧ (∀ j, 0 ≤ j < entries n → j ≠ k → entry_at n' C' j = entry_at n C j).
Proof.
  intros Hl Hn Hsz Hsm Hk [Hsz' Hb]. pose proof (enc_dentry_length e Hl) as Hel. unfold sizeof_dentry in *.
  assert (entries n' = Z.max (entries n) (k + 1)) as En.
  { unfold entries at 1. rewrite Hsz', Hsz. unfold sizeof_dentry.
    replace (Z.max (32 * entries n) (32 * k + 32)) with (Z.max (entries n) (k + 1) * 32) by lia. by rewrite Z.div_mul. }
  split_and!; [done | lia | |].
  - rewrite <- (dec_enc_dentry e Hl Hn). unfold entry_at, sizeof_dentry. f_equal. apply list_eq. intros j.
    rewrite list_lookup_fmap. destruct (decide (j < 32)%nat) as [Hj|Hj].
    + rewrite lookup_seqZ_lt by lia. cbn. rewrite Hb, decide_True by lia.
      replace (Z.to_nat (32 * k + Z.of_nat j - 32 * k)) with j by lia.
      destruct (lookup_lt_is_Some_2 (enc_dentry e) j) as [y ->]; [lia | done].
    + rewrite lookup_seqZ_ge by lia. rewrite lookup_ge_None_2 by lia. done.
  - intros j Hj Hne. unfold entry_at. f_equal. apply list_fmap_ext. intros x o Ho.
    apply lookup_seqZ in Ho as [-> Hx]. unfold sizeof_dentry in *. rewrite Hb, decide_False by lia. done.
Qed.

(** Writing an entry for a new name over a void entry or at the end. *)
Lemma entry_written_dir b s C p i s' C' n' e nm k :
  dir_ok b s C p i → d_size (node i) + 2 * sizeof_dentry < 2 ^ 32 →
  length (name e) = 28%nat → 0 < inode_num e < 2 ^ 32 → key_name (name e) = key_name nm →
  0 ≤ k ≤ entries (node i) → (k < entries (node i) → inode_num (entry_at (node i) C k) = 0) →
  (∀ j, ¬ named (node i) C nm j) →
  file_open b s' C' p (set_node n' i) → fdc s' = fdc s →
  written (node i) C (enc_dentry e) (sizeof_dentry * k) sizeof_dentry n' C' →
  (∀ o, sizeof_dentry * k ≤ o < sizeof_dentry * k + sizeof_dentry → 0 ≤ ptr n' C' (slot_of (o / BLOCK_SIZE))) →
  (∀ o, 0 ≤ o < 2 ^ 32 → 0 ≤ ptr (node i) C (slot_of (o / BLOCK_SIZE)) → 0 ≤ ptr n' C' (slot_of (o / BLOCK_SIZE))) →
  d_type n' = d_type (node i) → d_inode_num n' = d_inode_num (node i) →
  dir_ok b s' C' p (set_node n' i) ∧ named n' C' nm k ∧ entry_at n' C' k = e ∧
  (∀ x j, key_name x ≠ key_name nm →
    (named n' C' x j ↔ named (node i) C x j) ∧ (named (node i) C x j → entry_at n' C' j = entry_at (node i) C j)).
Proof.
  intros Hd Hroom Hlen Hnum Hkey Hk H0 Hno Hf Efdc Hw Hmapd Hkeep Ety Enum. pose proof (do_size _ _ _ _ _ Hd) as Hsz.
  destruct (written_entries (node i) C n' C' e k) as (En & Hsz' & Eek & Eej); [done | lia | done | lia | lia | done |].
  assert (named n' C' nm k) as Hnk.
  { split; [lia|]. rewrite Eek. split; [lia | exact Hkey]. }
  assert (∀ x j, j ≠ k → (named n' C' x j ↔ named (node i) C x j)) as Hother.
  { intros x j Hne. unfold named. split; intros [Hj Hl]; (split; [lia|]); rewrite Eej in * by lia; done. }
  assert (∀ x, named n' C' x k → key_name x = key_name nm) as Hat.
  { intros x [_ [_ Hx]]. rewrite Eek in Hx. congruence. }
  assert (∀ x j, named (node i) C x j → j ≠ k) as Hvoid.
  { intros x j [Hj [Hz _]] ->. apply Hz, H0. lia. }
  assert (∀ x j, key_name x ≠ key_name nm → (named n' C' x j ↔ named (node i) C x j)) as Hoth.
  { intros x j Hx. destruct (decide (j = k)) as [->|Hne]; [|by apply Hother].
    split; [intros Hn; by apply Hat in Hn | intros Hn; by apply Hvoid in Hn]. }
  split_and!; [|done | done |].
  2: { intros x j Hx. split; [by apply Hoth|]. intros Hj. pose proof (Hvoid _ _ Hj). destruct Hj. apply Eej; [lia | done]. }
  split; cbn [node set_node].
  - exact Hf.
  - rewrite Ety. apply Hd.
  - done.
  - rewrite Hsz', En. unfold sizeof_dentry in *. lia.
  - intros o Ho. rewrite (proj1 Hw) in Ho.
    destruct (decide (sizeof_dentry * k ≤ o < sizeof_dentry * k + sizeof_dentry)) as [Hin|Hout]; [by apply Hmapd|].
    apply Hkeep; [unfold sizeof_dentry in *; lia|]. apply (do_mapped _ _ _ _ _ Hd). unfold sizeof_dentry in *. lia.
  - intros x j1 j2 Hx1 Hx2. destruct (decide (key_name x = key_name nm)) as [Hx|Hx].
    + assert (∀ j, named n' C' x j → j = k) as Honly; [|by rewrite (Honly _ Hx1), (Honly _ Hx2)].
      intros j Hj. destruct (decide (j = k)) as [|Hne]; [done|]. apply Hother in Hj as [? [? Hj]]; [|done].
      exfalso. apply (Hno j). split; [done|]. split; [done|]. congruence.
    + apply Hoth in Hx1, Hx2; [|done..]. by eapply (do_uniq _ _ _ _ _ Hd).
  - rewrite Efdc. destruct (do_cache _ _ _ _ _ Hd) as (m & Hm & Hc). exists m. split; [done|].
    rewrite Enum. intros x e' off Hx. destruct (Hc x e' off Hx) as (j & Hj & -> & <- & Hkx). pose proof (Hvoid _ _ Hj) as Hne.
    exists j. split_and!; [by apply Hother | reflexivity | | exact Hkx]. destruct Hj. apply Eej; [lia | done].
Qed.

(** The end of [dir_link]: the entry is written over entry [k] and cached. *)
Definition link_at (p : nat) (nm : list Z) (num k : Z) : M (fstate D) Z :=
  let e := mk_dentry (filename_cpy nm) (u32 num) in
  n <- inode_write p (enc_dentry e) (u32 (sizeof_dentry * k)) ;;
  if negb (n =? sizeof_dentry) then ret ERR_OPERATION_FAILED else
  i <- get_inode p ;;
  liftd (dcache_put (d_inode_num (node i)) e (sizeof_dentry * k)) ;;
  ret 0.

(** The open directory [i] got the name [nm] for inode [num], as its entry [k]. *)
Record linked (b : superblock_t) s C (p : nat) (i : inode_t) (nm : list Z) (num k : Z) s' C' (n' : diskinode_t) : Prop := {
  ln_dir : dir_ok b s' C' p (set_node n' i);
  ln_inodes : inodes s' = <[p := set_node n' i]> (inodes s);
  ln_entries : entries n' = Z.max (entries (node i)) (k + 1);
  ln_fields : d_type n' = d_type (node i) ∧ d_link_count n' = d_link_count (node i) ∧ d_inode_num n' = d_inode_num (node i);
  ln_images j : 0 ≤ j < inode_count b → disk_inode b C' j = if decide (j = d_inode_num (node i)) then n' else disk_inode b C j;
  ln_named : named n' C' nm k;
  ln_num : inode_num (entry_at n' C' k) = num;
  ln_names x j : key_name x ≠ key_name nm →
    (named n' C' x j ↔ named (node i) C x j) ∧ (named (node i) C x j → entry_at n' C' j = entry_at (node i) C j);
  ln_others : others_kept b C (node i) C' n';
  ln_cache m : dcache_holds (fdc s) m → ∃ m', dcache_holds (fdc s') m' ∧
    ∀ j x, j ≠ d_inode_num (node i) → m' !! (j, x) = m !! (j, x);
}.

Lemma looked_linked b s C p i s1 nm num k s' C' n' :
  looked b s C p i s1 → linked b s1 C p i nm num k s' C' n' → linked b s C p i nm num k s' C' n'.
Proof.
  intros L [K1 K2 K3 K4 K5 K6 K7 K8 K9 K10]. rewrite (lk_inodes _ _ _ _ _ _ L) in K2. split; try done.
  intros m Hm. destruct (lk_cache _ _ _ _ _ _ L m Hm) as (m1 & Hm1 & E1). destruct (K10 m1 Hm1) as (m2 & Hm2 & E2).
  exists m2. split; [done|]. intros j x Hj. by rewrite E2, E1.
Qed.

Lemma link_at_run b s C p i nm num k :
  dir_ok b s C p i → 0 < num < 2 ^ 32 → d_size (node i) + 2 * sizeof_dentry < 2 ^ 32 →
  0 ≤ k ≤ entries (node i) → (k < entries (node i) → inode_num (entry_at (node i) C k) = 0) →
  (∀ j, ¬ named (node i) C nm j) →
  ∃ t s1 s' C' n', inode_write p (enc_dentry (mk_dentry (filename_cpy nm) num)) (sizeof_dentry * k) s = Ok (t, s1) ∧
    link_at p nm num k s = Ok (if t =? sizeof_dentry then 0 else ERR_OPERATION_FAILED, s') ∧
    (t = sizeof_dentry → linked b s C p i nm num k s' C' n') ∧
    (t ≠ sizeof_dentry → first_free b C' = None).
Proof.
  intros Hd Hnum Hroom Hk H0 Hno. pose proof (do_size _ _ _ _ _ Hd) as Hsz.
  set (e := mk_dentry (filename_cpy nm) num). pose proof (enc_dentry_length e (filename_cpy_length nm)) as Hel.
  assert (u32 num = num) as Eu by (unfold u32, wrap; apply Z.mod_small; lia).
  assert (u32 (sizeof_dentry * k) = sizeof_dentry * k) as Eo
    by (unfold u32, wrap; apply Z.mod_small; unfold sizeof_dentry in *; lia).
  destruct (inode_write_run b s C p i (enc_dentry e) (sizeof_dentry * k) (do_file _ _ _ _ _ Hd))
    as (t & s1 & C1 & n1 & R1 & Ht & Hfull & Hf1 & Efdc & Ei1 & Hw & Hmapd & Hfields & Himg & Hkept & Hkeep);
    [unfold sizeof_dentry in *; lia | rewrite Hel; unfold sizeof_dentry in *; lia |].
  rewrite Hel in Ht, Hfull. unfold link_at. cbv zeta. rewrite Eu, Eo. fold e. rewrite (bind_Ok _ _ _ _ _ R1).
  destruct (Z.eqb_spec t sizeof_dentry) as [->|Hshort]; cbn [negb].
  2: { exists t, s1, s1, C1, n1. rewrite (proj2 (Z.eqb_neq _ _) Hshort). split_and!; try done.
       intros _. apply Hfull. unfold sizeof_dentry in *. lia. }
  destruct (entry_written_dir b s C p i s1 C1 n1 e nm k) as (Hd1 & Hnk & Eek & Hoth);
    [exact Hd | lia | apply filename_cpy_length | cbn; lia | apply filename_cpy_key | lia | exact H0 | exact Hno
    | exact Hf1 | exact Efdc | exact Hw | exact Hmapd | exact Hkeep | apply Hfields | apply Hfields |].
  rewrite (bind_Ok _ _ _ _ _ (get_inode_run _ _ _ (fo_slot _ _ _ _ _ Hf1))). cbn [node set_node].
  destruct (cache_put_looked b s1 C1 p _ k Hd1) as (s2 & R2 & L2);
    [apply Hnk | cbn [node set_node]; rewrite Eek; cbn; lia |].
  cbn [node set_node] in R2, L2. rewrite Eek in R2. rewrite (bind_Ok _ _ _ _ _ R2).
  exists sizeof_dentry, s1, s2, C1, n1. split_and!; [done | done | intros _ | done].
  destruct (written_entries (node i) C n1 C1 e k) as (En & _); [apply filename_cpy_length | cbn; lia | done | lia | lia | done |].
  split; try done; [exact (lk_dir _ _ _ _ _ _ L2) | by rewrite (lk_inodes _ _ _ _ _ _ L2), Ei1 | by rewrite Eek |].
  intros m. rewrite <- Efdc. pose proof (lk_cache _ _ _ _ _ _ L2 m) as Hc. cbn [node set_node] in Hc.
  rewrite (proj2 (proj2 Hfields)) in Hc. exact Hc.
Qed.

(** [dir_link] of a new name, up to the entry it will use. *)
Lemma dir_link_prefix b s C p i nm num :
  dir_ok b s C p i →
  (∃ j s1, named (node i) C nm j ∧ looked b s C p i s1 ∧ dir_link p nm num s =
     (q <- inode_ref (inode_num (entry_at (node i) C j)) ;; inode_deref q ;; ret ERR_FILE_EXISTS) s1) ∨
  (∀ j, ¬ named (node i) C nm j) ∧
  ∃ k s1, looked b s C p i s1 ∧ dir_link p nm num s = link_at p nm num k s1 ∧
    0 ≤ k ≤ entries (node i) ∧ (k < entries (node i) → inode_num (entry_at (node i) C k) = 0).
Proof.
  intros Hd. pose proof (fo_slot _ _ _ _ _ (do_file _ _ _ _ _ Hd)) as Hi.
  destruct (entries_pos _ _ _ _ _ (do_file _ _ _ _ _ Hd)) as [Hz He].
  unfold dir_link. rewrite (bind_Ok _ _ _ _ _ (get_inode_run _ _ _ Hi)).
  rewrite (do_type _ _ _ _ _ Hd). rewrite (bind_Ok _ _ s tt s) by done.
  destruct (dir_lookup_run b s C p i nm Hd) as (s1 & L1 & [(j & Hj & R1)|[Hno R1]]).
  { left. exists j, s1. split_and!; [done | done |]. unfold bind. rewrite R1. unfold bind.
    by destruct (inode_ref _ s1) as [[q s2]| |]. }
  right. split; [done|]. rewrite (bind_Ok _ _ _ _ _ R1). pose proof (lk_dir _ _ _ _ _ _ L1) as Hd1.
  rewrite (bind_Ok _ _ _ _ _ (get_inode_run _ _ _ (fo_slot _ _ _ _ _ (do_file _ _ _ _ _ Hd1)))).
  destruct (free_entry_run (dir_fuel (d_size (node i))) b s1 C p i 0 Hd1) as (k & s2 & L2 & R2 & Hk & H0);
    [lia | rewrite Z.sub_0_r; by apply dir_fuel_enough |].
  rewrite Z.mul_0_r in R2. rewrite (bind_Ok _ _ _ _ _ R2).
  exists k, s2. split_and!; [by eapply looked_trans | done | lia | lia | done].
Qed.

(** C30 Linking a name that the directory does not have: [dir_link] returns
    0 and the directory has one more name, on a free or a new entry that holds
    the inode, while every other name keeps its entry, the names stay distinct
    and the cache truthful; or it reports failure, and then the volume is full.
    A name that exists is reported with [ERR_FILE_EXISTS], and the volume, its
    contents and the inode table are as they were, the reference taken by the lookup
    given back. Asked of the state: an open directory below 2^32 - 64 bytes, and an inode table in which
    every slot is free or holds an inode with 1 to 2^16 - 2 references, and one is free. *)
Theorem dir_link_correct b s C p i nm num :
  dir_ok b s C p i → 0 < num < 2 ^ 32 → d_size (node i) + 2 * sizeof_dentry < 2 ^ 32 → table_settled (inodes s) →
  (∃ j s', named (node i) C nm j ∧ dir_link p nm num s = Ok (ERR_FILE_EXISTS, s') ∧ looked b s C p i s') ∨
  (∀ j, ¬ named (node i) C nm j) ∧
  ∃ r s' C' n', dir_link p nm num s = Ok (r, s') ∧
    (r = 0 ∧ dir_ok b s' C' p (set_node n' i) ∧ inodes s' = <[p := set_node n' i]> (inodes s) ∧
       (∃ k, named n' C' nm k ∧ inode_num (entry_at n' C' k) = num) ∧
       (∀ x j, key_name x ≠ key_name nm →
          (named n' C' x j ↔ named (node i) C x j) ∧ (named (node i) C x j → entry_at n' C' j = entry_at (node i) C j)) ∨
     r = ERR_OPERATION_FAILED ∧ first_free b C' = None).
Proof.
  intros Hd Hnum Hroom Htbl.
  destruct (dir_link_prefix b s C p i nm num Hd) as [(j & s1 & Hj & L & R)|(Hno & k & s1 & L & R & Hk & H0)].
  { left. exists j, s1. pose proof (lk_inodes _ _ _ _ _ _ L) as Ei. rewrite <- Ei in Htbl.
    destruct (ref_deref_run s1 (inode_num (entry_at (node i) C j)) Htbl) as (q & s2 & R1 & R2).
    split_and!; [done| |done]. by rewrite R, (bind_Ok _ _ _ _ _ R1), (bind_Ok _ _ _ _ _ R2). }
  right. split; [done|]. rewrite R.
  destruct (link_at_run b s1 C p i nm num k (lk_dir _ _ _ _ _ _ L) Hnum Hroom Hk H0 Hno) as (t & s2 & s3 & C3 & n3 & _ & R3 & Hok & Hbad).
  exists (if t =? sizeof_dentry then 0 else ERR_OPERATION_FAILED), s3, C3, n3. split; [exact R3|].
  destruct (Z.eqb_spec t sizeof_dentry) as [Et|Et]; [left | right; split; [done | by apply Hbad]].
  destruct (looked_linked _ _ _ _ _ _ _ _ _ _ _ _ L (Hok Et)) as [K1 K2 _ _ _ K6 K7 K8 _ _].
  split_and!; [done | exact K1 | exact K2 | by exists k | exact K8].
Qed.

End Directory.

(** ** An empty directory, opened *)
Definition demo_dir_node : diskinode_t := mk_dinode FS_TYPE_DIR 1 5 0 0 (replicate 10 (-1)) (-1) (-1).
Definition demo_dir_inode : inode_t := mk_inode demo_dir_node true 1 true.
Definition demo_dir_fs : fstate sdcard :=
  mk_fstate demo_volume (demo_dir_inode :: replicate 63 empty_inode) (mk_dcache None false true []).

Lemma demo_dir_ok : dir_ok demo_superblock demo_dir_fs demo_contents 0 demo_dir_inode.
Proof.
  assert (∀ nm k, ¬ named demo_dir_node demo_contents nm k) as Hno.
  { intros nm k [Hk _]. change (entries demo_dir_node) with 0 in Hk. lia. }
  split.
  - split; [split; [apply demo_volume_ok | apply geo_refl] | done | done | done | done | by apply empty_tree |].
    split; try done. split; [done|]. repeat constructor; done.
  - reflexivity.
  - reflexivity.
  - reflexivity.
  - intros o Ho. change (d_size (node demo_dir_inode)) with 0 in Ho. lia.
  - intros nm j k Hj. by destruct (Hno nm j).
  - exists ∅. split; [done|]. intros nm e off. by rewrite lookup_empty.
Qed.

Lemma demo_dir_free : ∃ x, x ∈ inodes demo_dir_fs ∧ d_type (node x) = 0.
Proof. exists empty_inode. split; [right; left | reflexivity]. Qed.

Lemma demo_dir_settled : table_settled (inodes demo_dir_fs).
Proof. split; [|right; left]. constructor; [right; split; [done|]; split; reflexivity|]. apply Forall_replicate. by left. Qed.

Lemma dir_lookup_correct_witness : ∃ s', dir_lookup 0 [97] demo_dir_fs = Ok (None, s').
Proof.
  destruct (dir_lookup_correct demo_superblock demo_dir_fs demo_contents 0 demo_dir_inode [97] demo_dir_ok demo_dir_free)
    as ([[q off]|] & s' & i' & R & _ & _ & Hr); [exfalso|by exists s'].
  destruct Hr as (j & x & [Hj _] & _). change (entries (node demo_dir_inode)) with 0 in Hj. lia.
Defined.

Lemma dir_link_correct_witness : ∃ s' C' n' k, dir_link 0 [97] 7 demo_dir_fs = Ok (0, s') ∧
  named n' C' [97] k ∧ inode_num (entry_at n' C' k) = 7.
Proof.
  assert (match dir_link 0 [97] 7 demo_dir_fs with Ok (r, _) => r | _ => -9 end = 0) as Hval by reflexivity.
  destruct (dir_link_correct demo_superblock demo_dir_fs demo_contents 0 demo_dir_inode [97] 7 demo_dir_ok)
    as [(j & _ & [Hj _] & _)|(_ & r & s' & C' & n' & R & Hr)]; [lia | reflexivity | exact demo_dir_settled | |].
  - exfalso. change (entries (node demo_dir_inode)) with 0 in Hj. lia.
  - rewrite R in Hval. subst r. destruct Hr as [(_ & _ & _ & (k & Hk & Hn) & _)|[Hbad _]]; [|discriminate Hbad].
    exists s', C', n', k. exact (conj R (conj Hk Hn)).
Defined.
