(* ===== verification/Fs.v ===== *)
(** * kernel/fs/fs.cpp: the file-system calls

    Descriptors, the descriptor table and the working directory of the running
    process, over the inode and directory layers. A buffer of the caller is
    the list of its bytes. The calls run one at a time: a lock that is taken
    is never released by another process. *)

From S2P Require Import Prelude Block Dcache Inode Dir.

Definition NUM_FDESCS : nat := 32.
Definition NUM_MAX_PROC_FD : Z := 8.
Definition O_RDONLY : Z := 1.
Definition O_WRONLY : Z := 2.
Definition O_RDWR : Z := 3.
Definition SEEK_SET : Z := 0.
Definition SEEK_CUR : Z := 1.
Definition SEEK_END : Z := 2.
Definition ROOT_INODE : Z := 1.

Record fdesc_t := mk_fdesc {
  fd_inode : nat;
  fd_valid : bool;
  wpos : Z;            (* uint32_t *)
  rpos : Z;            (* uint32_t *)
  readable : bool;
  writable : bool;
}.
Definition empty_fdesc : fdesc_t := mk_fdesc 0 false 0 0 false false.
Definition set_wpos (w : Z) (f : fdesc_t) : fdesc_t :=
  mk_fdesc (fd_inode f) (fd_valid f) w (rpos f) (readable f) (writable f).
Definition set_rpos (r : Z) (f : fdesc_t) : fdesc_t :=
  mk_fdesc (fd_inode f) (fd_valid f) (wpos f) r (readable f) (writable f).
Definition invalidate (f : fdesc_t) : fdesc_t :=
  mk_fdesc (fd_inode f) false (wpos f) (rpos f) (readable f) (writable f).

Record pstate (D : Type) := mk_pstate {
  pfs : fstate D;
  fdesc_array : list fdesc_t;
  fd_table : list (option nat);     (* of the running process *)
  cwd_inode : Z;
}.
Arguments mk_pstate {D} _ _ _ _.
Arguments pfs {D} _.
Arguments fdesc_array {D} _.
Arguments fd_table {D} _.
Arguments cwd_inode {D} _.

Section Fs.

Context {D : Type} `{SectorStore D}.

Abbreviation PM := (M (pstate D)).

Definition liftf {A} (m : M (fstate D) A) : PM A := fun s =>
  match m (pfs s) with
  | Ok (a, f) => Ok (a, mk_pstate f (fdesc_array s) (fd_table s) (cwd_inode s))
  | Panic why => Panic why
  | OutOfFuel => OutOfFuel
  end.
Definition get_cwd : PM Z := gets cwd_inode.
Definition set_cwd (n : Z) : PM unit :=
  modify (fun s => mk_pstate (pfs s) (fdesc_array s) (fd_table s) n).
Definition get_fdesc (d : nat) : PM fdesc_t := fun s =>
  match fdesc_array s !! d with Some f => Ok (f, s) | None => Panic "fault" end.
Definition put_fdesc (d : nat) (f : fdesc_t) : PM unit :=
  get_fdesc d ;;
  modify (fun s => mk_pstate (pfs s) (<[d := f]> (fdesc_array s)) (fd_table s) (cwd_inode s)).
Definition set_fd (fd : nat) (d : option nat) : PM unit :=
  modify (fun s => mk_pstate (pfs s) (fdesc_array s) (<[fd := d]> (fd_table s)) (cwd_inode s)).
(** [current_running->fd_table[fd]], for [fd] in range. *)
Definition fd_lookup (fd : Z) : PM (option nat) := gets (fun s => mjoin (fd_table s !! Z.to_nat fd)).
Definition fd_bad (fd : Z) : bool := (fd <? 0) || (fd >=? NUM_MAX_PROC_FD).

(** ** Names *)
Definition do_cd (path : list Z) : PM Z :=
  cwd <- get_cwd ;;
  target <- liftf (path_resolve_entry cwd path) ;;
  match target with
  | None => ret ERR_FILE_NOT_EXISTS
  | Some t =>
      i <- liftf (get_inode t) ;;
      set_cwd (i32 (d_inode_num (node i))) ;;
      liftf (inode_deref t) ;;
      ret 0
  end.

Definition do_mkdir (path : list Z) : PM Z :=
  cwd <- get_cwd ;;
  inode <- liftf (path_create cwd path FS_TYPE_DIR) ;;
  match inode with
  | None => ret ERR_FILE_NOT_EXISTS
  | Some p => liftf (inode_deref p) ;; ret 0
  end.

Definition do_rmdir (path : list Z) : PM Z :=
  cwd <- get_cwd ;; liftf (path_remove cwd path true).

Definition do_ln (src_path dst_path : list Z) : PM Z :=
  cwd <- get_cwd ;;
  src <- liftf (path_resolve_entry cwd src_path) ;;
  match src with
  | None => ret ERR_FILE_NOT_EXISTS
  | Some src_inode =>
      liftf (inode_open src_inode) ;;
      si <- liftf (get_inode src_inode) ;;
      if d_type (node si) =? FS_TYPE_DIR then
        liftf (inode_close src_inode) ;; ret ERR_FILE_TYPE_MISMATCH
      else
      r <- liftf (path_resolve_parent cwd dst_path) ;;
      match r with
      | None => liftf (inode_close src_inode) ;; ret ERR_FILE_NOT_EXISTS
      | Some (parent, name) =>
          liftf (inode_open parent) ;;
          si <- liftf (get_inode src_inode) ;;
          r <- liftf (dir_link parent name (d_inode_num (node si))) ;;
          liftf (inode_close parent) ;;
          liftf (inode_close src_inode) ;;
          ret r
      end
  end.

Definition do_rm (path : list Z) : PM Z :=
  cwd <- get_cwd ;;
  r <- liftf (path_resolve_parent cwd path) ;;
  match r with
  | None => ret ERR_FILE_NOT_EXISTS
  | Some (dir, name) =>
      liftf (inode_open dir) ;;
      r <- liftf (dir_unlink dir name) ;;
      liftf (inode_close dir) ;;
      ret r
  end.

(** ** Descriptors *)
Definition do_open (path : list Z) (mode : Z) : PM Z :=
  let writable := negb (Z.land mode O_WRONLY =? 0) || negb (Z.land mode O_RDWR =? 0) in
  let readable := negb (Z.land mode O_RDONLY =? 0) || negb (Z.land mode O_RDWR =? 0) in
  cwd <- get_cwd ;;
  created <- (if writable then liftf (path_create cwd path FS_TYPE_FILE) else ret None) ;;
  inode <- (match created with
            | Some p => ret (Some p)
            | None => liftf (path_resolve_entry cwd path)
            end) ;;
  match inode with
  | None => ret (-1)
  | Some p =>
      liftf (inode_open p) ;;
      i <- liftf (get_inode p) ;;
      if d_type (node i) =? FS_TYPE_DIR then liftf (inode_close p) ;; ret (-1) else
      tbl <- gets fd_table ;;
      match list_find (fun e => e = None) tbl with
      | None => liftf (inode_close p) ;; ret (-1)
      | Some (fd, _) =>
          arr <- gets fdesc_array ;;
          match list_find (fun f => fd_valid f = false) arr with
          | Some (d, _) =>
              put_fdesc d (mk_fdesc p true 0 0 readable writable) ;;
              set_fd fd (Some d) ;;
              liftf (inode_unlock p) ;;
              ret (Z.of_nat fd)
          | None => liftf (inode_close p) ;; ret (-1)
          end
      end
  end.

(** The bytes delivered to the buffer; the call returns their number. *)
Definition do_read (fd length : Z) : PM (list Z) :=
  if fd_bad fd then ret [] else
  e <- fd_lookup fd ;;
  match e with
  | None => ret []
  | Some d =>
      fp <- get_fdesc d ;;
      liftf (inode_open (fd_inode fp)) ;;
      l <- liftf (inode_read (fd_inode fp) (rpos fp) (u32 length)) ;;
      put_fdesc d (set_rpos (u32 (rpos fp + Z.of_nat (List.length l))) fp) ;;
      liftf (inode_unlock (fd_inode fp)) ;;
      ret l
  end.

Definition do_write (fd : Z) (buff : list Z) : PM Z :=
  if fd_bad fd then ret 0 else
  e <- fd_lookup fd ;;
  match e with
  | None => ret 0
  | Some d =>
      fp <- get_fdesc d ;;
      liftf (inode_open (fd_inode fp)) ;;
      r <- liftf (inode_write (fd_inode fp) buff (wpos fp)) ;;
      put_fdesc d (set_wpos (u32 (wpos fp + r)) fp) ;;
      liftf (inode_unlock (fd_inode fp)) ;;
      ret r
  end.

Definition do_close (fd : Z) : PM Z :=
  if fd_bad fd then ret 0 else
  e <- fd_lookup fd ;;
  match e with
  | None => ret ERR_FD_INVALID
  | Some d =>
      fp <- get_fdesc d ;;
      liftf (inode_deref (fd_inode fp)) ;;
      put_fdesc d (invalidate fp) ;;
      set_fd (Z.to_nat fd) None ;;
      ret 0
  end.

(** The new position, before it is clipped at 0. *)
Definition seek_target (fp : fdesc_t) (size offset whence : Z) : Z :=
  let target := i32 (if rpos fp >? wpos fp then rpos fp else wpos fp) in
  if whence =? SEEK_SET then offset
  else if whence =? SEEK_CUR then i32 (target + offset)
  else if whence =? SEEK_END then i32 (u32 (size + u32 offset))
  else target.

Definition do_lseek (fd offset whence : Z) : PM Z :=
  if fd_bad fd then ret ERR_FD_INVALID else
  e <- fd_lookup fd ;;
  match e with
  | None => ret ERR_FD_INVALID
  | Some d =>
      fp <- get_fdesc d ;;
      liftf (inode_open (fd_inode fp)) ;;
      i <- liftf (get_inode (fd_inode fp)) ;;
      let target := seek_target fp (d_size (node i)) offset whence in
      let target := if target <? 0 then 0 else target in
      liftf (inode_unlock (fd_inode fp)) ;;
      i <- liftf (get_inode (fd_inode fp)) ;;
      put_fdesc d (set_rpos (if u32 target <? d_size (node i) then u32 target else d_size (node i))
                     (set_wpos (u32 target) fp)) ;;
      ret target
  end.

(** One turn of [cleanup_fd]. *)
Definition cleanup_one (fd : nat) : PM unit :=
  e <- fd_lookup (Z.of_nat fd) ;;
  match e with
  | None => ret tt
  | Some d =>
      fp <- get_fdesc d ;;
      i <- liftf (get_inode (fd_inode fp)) ;;
      (if lock_acquired i then liftf (inode_unlock (fd_inode fp)) else ret tt) ;;
      liftf (inode_deref (fd_inode fp)) ;;
      put_fdesc d (invalidate fp) ;;
      set_fd fd None
  end.
Definition cleanup_fd : PM unit :=
  foldr (fun fd m => cleanup_one fd ;; m) (ret tt) (seq 0 (Z.to_nat NUM_MAX_PROC_FD)).

End Fs.
