(* ===== verification/FdTheorems.v ===== *)
(** * Descriptors as files with two positions

    [do_read], [do_write] and [do_lseek] of kernel/fs/fs.cpp on an open
    descriptor, against an abstract file: a size, a byte for each offset, a
    position to read from and one to write to. *)

From S2P Require Import Prelude Block BlockProofs BlockAlloc SdCard BlockTheorems Dcache Inode.
From S2P Require Import InodeLayout InodeMap InodeMapRun InodeIO InodeTheorems Dir DirTheorems Fs.

(** ** The abstract file *)
Record afile := mk_afile {
  a_size : Z;
  a_byte : Z → Z;
  a_rpos : Z;
  a_wpos : Z;
}.

Inductive fcall :=
| CRead (len : Z)
| CWrite (buff : list Z)
| CSeek (offset whence : Z).

(** The bytes a call delivers and the number it returns. *)
Definition fres : Type := list Z * Z.

Definition a_read (len : Z) (a : afile) : fres * afile :=
  let k := Z.max 0 (Z.min len (a_size a - a_rpos a)) in
  ((a_byte a <$> seqZ (a_rpos a) k, k), mk_afile (a_size a) (a_byte a) (a_rpos a + k) (a_wpos a)).

Definition a_write (buff : list Z) (a : afile) : fres * afile :=
  let k := Z.of_nat (length buff) in
  (([], k), mk_afile (Z.max (a_size a) (a_wpos a + k))
     (fun o => if decide (a_wpos a ≤ o < a_wpos a + k) then default 0 (buff !! Z.to_nat (o - a_wpos a)) else a_byte a o)
     (a_rpos a) (a_wpos a + k)).

(** Where a seek leads, before it is clipped at the start. *)
Definition a_target (offset whence : Z) (a : afile) : Z :=
  if whence =? SEEK_SET then offset
  else if whence =? SEEK_CUR then Z.max (a_rpos a) (a_wpos a) + offset
  else if whence =? SEEK_END then a_size a + offset
  else Z.max (a_rpos a) (a_wpos a).

Definition a_seek (offset whence : Z) (a : afile) : fres * afile :=
  let t := Z.max 0 (a_target offset whence a) in
  (([], t), mk_afile (a_size a) (a_byte a) (Z.min t (a_size a)) t).

Definition a_call (c : fcall) (a : afile) : fres * afile :=
  match c with
  | CRead len => a_read len a
  | CWrite buff => a_write buff a
  | CSeek offset whence => a_seek offset whence a
  end.

(** The call stays in the range of a C [int]. *)
Definition a_fits (c : fcall) (a : afile) : bool :=
  match c with
  | CRead len => (0 <=? len) && (len <? 2 ^ 31)
  | CWrite buff => a_wpos a + Z.of_nat (length buff) <? 2 ^ 31
  | CSeek offset whence =>
      (- 2 ^ 31 <=? offset) && (offset <? 2 ^ 31) &&
      (- 2 ^ 31 <=? a_target offset whence a) && (a_target offset whence a <? 2 ^ 31)
  end.

Fixpoint a_calls (cs : list fcall) (a : afile) : list fres * afile :=
  match cs with
  | [] => ([], a)
  | c :: cs => let '(r, a) := a_call c a in let '(rs, a) := a_calls cs a in (r :: rs, a)
  end.

Fixpoint a_all_fit (cs : list fcall) (a : afile) : bool :=
  match cs with
  | [] => true
  | c :: cs => a_fits c a && a_all_fit cs (snd (a_call c a))
  end.

Section Descriptor.

Context {D : Type} `{SectorStore D}.
Implicit Types (s : pstate D) (f : fstate D) (C : Z → list Z).

Abbreviation PM := (M (pstate D)).

(** ** The calls of the kernel *)
Definition fd_call (fd : Z) (c : fcall) : PM fres :=
  match c with
  | CRead len => l <- do_read fd len ;; ret (l, Z.of_nat (length l))
  | CWrite buff => r <- do_write fd buff ;; ret ([], r)
  | CSeek offset whence => r <- do_lseek fd offset whence ;; ret ([], r)
  end.

Fixpoint fd_calls (fd : Z) (cs : list fcall) : PM (list fres) :=
  match cs with
  | [] => ret []
  | c :: cs => r <- fd_call fd c ;; rs <- fd_calls fd cs ;; ret (r :: rs)
  end.

(** ** The relation between the two *)

(** The state while the inode at [p] is locked. *)
Definition locked f (p : nat) (i : inode_t) : fstate D :=
  mk_fstate (fb f) (<[p := set_lock true i]> (inodes f)) (fdc f).

(** Descriptor [fd] is open on the inode [i], which nobody has locked. *)
Record fd_open (b : superblock_t) s C (fd : Z) (d : nat) (fp : fdesc_t) (i : inode_t) : Prop := {
  fo_fd : 0 ≤ fd < NUM_MAX_PROC_FD;
  fo_entry : fd_table s !! Z.to_nat fd = Some (Some d);
  fo_desc : fdesc_array s !! d = Some fp;
  fo_inode : inodes (pfs s) !! fd_inode fp = Some i;
  fo_loaded : i_valid i = true;
  fo_free : lock_acquired i = false;
  fo_file : file_open b (locked (pfs s) (fd_inode fp) i) C (fd_inode fp) (set_lock true i);
}.

Record shows C (n : diskinode_t) (fp : fdesc_t) (a : afile) : Prop := {
  sh_size : a_size a = d_size n;
  sh_byte o : 0 ≤ o < 2 ^ 32 → a_byte a o = fbyte n C o;
  sh_rpos : a_rpos a = rpos fp;
  sh_wpos : a_wpos a = wpos fp;
  sh_range : 0 ≤ a_size a < 2 ^ 31 ∧ 0 ≤ a_rpos a < 2 ^ 31 ∧ 0 ≤ a_wpos a < 2 ^ 31;
}.

(** ** Locking and unlocking *)
Lemma u32_small x : 0 ≤ x < 2 ^ 32 → u32 x = x.
Proof. apply Z.mod_small. Qed.

Lemma liftf_Ok {A} (m : M (fstate D) A) s a f :
  m (pfs s) = Ok (a, f) → liftf m s = Ok (a, mk_pstate f (fdesc_array s) (fd_table s) (cwd_inode s)).
Proof. unfold liftf. by intros ->. Qed.

Lemma open_valid_run f p i :
  inodes f !! p = Some i → i_valid i = true → lock_acquired i = false → inode_open p f = Ok (tt, locked f p i).
Proof.
  intros Hi Hv Hl. unfold inode_open, mutex_acquire.
  rewrite (bind_Ok _ _ f tt (locked f p i)).
  - rewrite (bind_Ok _ _ _ _ _ (get_inode_run (locked f p i) p (set_lock true i)
      ltac:(apply list_lookup_insert_eq; by eapply lookup_lt_Some))). cbn. by rewrite Hv.
  - rewrite (bind_Ok _ _ _ _ _ (get_inode_run _ _ _ Hi)), Hl. rewrite (bind_Ok _ _ f tt f) by done.
    by apply (put_inode_run f p i).
Qed.

Lemma unlock_run f p i :
  inodes f !! p = Some i → lock_acquired i = true →
  inode_unlock p f = Ok (tt, mk_fstate (fb f) (<[p := set_lock false i]> (inodes f)) (fdc f)).
Proof.
  intros Hi Hl. unfold inode_unlock. rewrite (bind_Ok _ _ _ _ _ (get_inode_run _ _ _ Hi)), Hl.
  rewrite (bind_Ok _ _ f tt f) by done. by apply (put_inode_run f p i).
Qed.

Lemma locked_lookup f p i : inodes f !! p = Some i → inodes (locked f p i) !! p = Some (set_lock true i).
Proof. intros Hi. apply list_lookup_insert_eq. by eapply lookup_lt_Some. Qed.

Lemma set_node_lock n l i : set_node n (set_lock l i) = set_lock l (set_node n i).
Proof. done. Qed.

Lemma get_fdesc_run s d fp : fdesc_array s !! d = Some fp → get_fdesc d s = Ok (fp, s).
Proof. unfold get_fdesc. by intros ->. Qed.

Lemma put_fdesc_run s d fp fp' :
  fdesc_array s !! d = Some fp →
  put_fdesc d fp' s = Ok (tt, mk_pstate (pfs s) (<[d := fp']> (fdesc_array s)) (fd_table s) (cwd_inode s)).
Proof. intros E. unfold put_fdesc. by rewrite (bind_Ok _ _ _ _ _ (get_fdesc_run _ _ _ E)). Qed.

(** The descriptor after the inode was worked on and unlocked. *)
Lemma fd_reopen b s C fd d fp i f C' n' fp' :
  fd_open b s C fd d fp i → fd_inode fp' = fd_inode fp →
  file_open b f C' (fd_inode fp) (set_node n' (set_lock true i)) →
  inodes f = <[fd_inode fp := set_node n' (set_lock true i)]> (inodes (pfs s)) →
  fd_open b (mk_pstate (mk_fstate (fb f) (<[fd_inode fp := set_node n' i]> (inodes (pfs s))) (fdc f))
      (<[d := fp']> (fdesc_array s)) (fd_table s) (cwd_inode s)) C' fd d fp' (set_node n' i).
Proof.
  intros [? ? Hd Hi Hv Hl _] Ep Hf Ei. split; cbn [fd_table fdesc_array pfs inodes i_valid lock_acquired set_node]; try done.
  - apply list_lookup_insert_eq. by eapply lookup_lt_Some.
  - rewrite Ep. apply list_lookup_insert_eq. by eapply lookup_lt_Some.
  - rewrite Ep. unfold locked. cbn [fb inodes fdc]. rewrite list_insert_insert_eq, <- set_node_lock, <- Ei. by destruct f.
Qed.

(** What the calls have in common: the checks, the descriptor, the lock. *)
Lemma fd_enter b s C fd d fp i {A} (k : nat → PM A) (bad none : PM A) :
  fd_open b s C fd d fp i →
  (if fd_bad fd then bad else
   e <- fd_lookup fd ;; match e with None => none | Some d => k d end) s = k d s.
Proof.
  intros [Hfd He _ _ _ _ _]. unfold fd_bad, NUM_MAX_PROC_FD in *.
  rewrite (proj2 (Z.ltb_ge _ _)), Z.geb_leb, (proj2 (Z.leb_gt _ _)) by lia. cbn [orb].
  unfold fd_lookup, gets. cbn [bind]. by rewrite He.
Qed.

(** Work [m] on the locked inode, then the new descriptor, then the unlocking. *)
Lemma fd_work b s C fd d fp i {A B} (m : M (fstate D) A) (upd : A → fdesc_t) (out : A → B) a f C' n' :
  fd_open b s C fd d fp i → fd_inode (upd a) = fd_inode fp →
  m (locked (pfs s) (fd_inode fp) i) = Ok (a, f) →
  file_open b f C' (fd_inode fp) (set_node n' (set_lock true i)) →
  inodes f = <[fd_inode fp := set_node n' (set_lock true i)]> (inodes (pfs s)) →
  ∃ s', (liftf (inode_open (fd_inode fp)) ;; a <- liftf m ;; put_fdesc d (upd a) ;;
         liftf (inode_unlock (fd_inode fp)) ;; ret (out a)) s = Ok (out a, s') ∧
    fd_open b s' C' fd d (upd a) (set_node n' i).
Proof.
  intros Ho Ep R Hf Ei. pose proof Ho as [_ _ Hd Hi Hv Hl _].
  eexists. split; [|by eapply fd_reopen].
  rewrite (bind_Ok _ _ _ _ _ (liftf_Ok _ s _ _ (open_valid_run _ _ _ Hi Hv Hl))).
  rewrite (bind_Ok _ _ _ _ _ (liftf_Ok m (mk_pstate (locked (pfs s) (fd_inode fp) i) (fdesc_array s) (fd_table s) (cwd_inode s)) _ _ R)).
  rewrite (bind_Ok _ _ _ _ _ (put_fdesc_run (mk_pstate f _ _ _) d fp _ Hd)). cbn [pfs fdesc_array fd_table cwd_inode].
  rewrite (bind_Ok _ _ _ _ _ (liftf_Ok _ (mk_pstate f _ _ _) _ _ (unlock_run f _ _ (fo_slot _ _ _ _ _ Hf) eq_refl))).
  cbn [pfs fdesc_array fd_table cwd_inode ret]. rewrite Ei, list_insert_insert_eq, <- set_node_lock.
  replace (set_node n' (set_lock false (set_lock true i))) with (set_node n' i) by (destruct i; cbn in *; by subst).
  done.
Qed.

(** ** The three calls *)
Lemma do_write_run b s C fd d fp i buff a :
  fd_open b s C fd d fp i → shows C (node i) fp a → a_fits (CWrite buff) a = true →
  ∃ k s' C' n' fp', do_write fd buff s = Ok (k, s') ∧ fd_open b s' C' fd d fp' (set_node n' i) ∧
    others_kept b C (node i) C' n' ∧
    (first_free b C' = None ∨ k = snd (fst (a_write buff a)) ∧ shows C' n' fp' (snd (a_write buff a))).
Proof.
  intros Ho [Hsz Hby Hrp Hwp Hr] Hfit. cbn [a_fits] in Hfit. apply Z.ltb_lt in Hfit.
  destruct (inode_write_run b _ C (fd_inode fp) _ buff (wpos fp) (fo_file _ _ _ _ _ _ _ Ho))
    as (k & f & C' & n' & R & Hk & Hfull & Hf & _ & Ei & [Hsz' Hby'] & _ & _ & _ & Hoth & _); [lia | lia |].
  unfold locked in Ei. cbn [inodes node set_lock] in *. rewrite list_insert_insert_eq in Ei.
  destruct (fd_work b s C fd d fp i _ (fun r => set_wpos (u32 (wpos fp + r)) fp) (fun r => r) k f C' n' Ho eq_refl R Hf Ei)
    as (s' & R' & Ho').
  exists k, s', C', n'. eexists. split_and!.
  - unfold do_write. rewrite (fd_enter b s C fd d fp i _ _ _ Ho).
    rewrite (bind_Ok _ _ _ _ _ (get_fdesc_run _ _ _ (fo_desc _ _ _ _ _ _ _ Ho))). exact R'.
  - exact Ho'.
  - exact Hoth.
  - destruct (decide (k < Z.of_nat (length buff))) as [Hlt|Hge]; [left; by apply Hfull|].
    assert (k = Z.of_nat (length buff)) as -> by lia. right. split; [done|].
    unfold a_write. cbn [snd fst]. rewrite Hwp in *. split; cbn [a_size a_byte a_rpos a_wpos set_wpos rpos wpos]; try done; try lia.
    + intros o Hor. rewrite Hby' by done. case_decide; [done | by apply Hby].
    + rewrite u32_small; [done | lia].
Qed.

Lemma do_read_run b s C fd d fp i len a :
  fd_open b s C fd d fp i → shows C (node i) fp a → a_fits (CRead len) a = true →
  ∃ l s' C' n' fp', do_read fd len s = Ok (l, s') ∧ fd_open b s' C' fd d fp' (set_node n' i) ∧
    others_kept b C (node i) C' n' ∧
    (first_free b C' = None ∨ (l, Z.of_nat (length l)) = fst (a_read len a) ∧ shows C' n' fp' (snd (a_read len a))).
Proof.
  intros Ho [Hsz Hby Hrp Hwp Hr] Hfit. cbn [a_fits] in Hfit. apply andb_true_iff in Hfit as [H0%Z.leb_le Hlen%Z.ltb_lt].
  assert (∃ l f C' n', inode_read (fd_inode fp) (rpos fp) (u32 len) (locked (pfs s) (fd_inode fp) i) = Ok (l, f) ∧
    file_open b f C' (fd_inode fp) (set_node n' (set_lock true i)) ∧
    inodes f = <[fd_inode fp := set_node n' (set_lock true i)]> (inodes (pfs s)) ∧
    others_kept b C (node i) C' n' ∧ d_size n' = d_size (node i) ∧
    (∀ o, 0 ≤ o < 2 ^ 32 → fbyte n' C' o = fbyte (node i) C o) ∧
    (first_free b C' = None ∨ l = fst (fst (a_read len a)))) as (l & f & C' & n' & R & Hf & Ei & Hoth & Esz & Eby & Hl).
  { pose proof (inode_read_run b _ C (fd_inode fp) _ (rpos fp) len (fo_file _ _ _ _ _ _ _ Ho) ltac:(lia) ltac:(lia)) as Hrun.
    cbv zeta in Hrun. cbn [node set_lock] in Hrun. rewrite u32_small by lia.
    unfold a_read. cbn [fst]. rewrite Hrp, Hsz in *. case_decide as Hbad.
    - exists [], (locked (pfs s) (fd_inode fp) i), C, (node i). split_and!; try done.
      + replace (set_node _ _) with (set_lock true i) by (by destruct i). apply Ho.
      + right. rewrite (Z.max_l 0) by lia. done.
    - destruct Hrun as (k & f & C' & n' & R & Hk & Mp & Hshort). pose proof (mapped_worked _ _ _ _ _ _ _ _ _ Mp) as W.
      exists (fbyte (node i) C <$> seqZ (rpos fp) k), f, C', n'. split_and!.
      + exact R.
      + eapply file_open_node; [apply Ho | exact W].
      + rewrite (wk_inodes _ _ _ _ _ _ _ _ _ W). cbn. by rewrite list_insert_insert_eq.
      + exact (evolves_other b C (node i) C' n' (wk_ev _ _ _ _ _ _ _ _ _ W)).
      + destruct (ev_fields _ _ _ _ _ (wk_ev _ _ _ _ _ _ _ _ _ W)) as (_ & _ & _ & Es & _). exact Es.
      + intros o Hor. unfold fbyte.
        by rewrite (extends_fblock b C (node i) C' n' _ (mp_ext _ _ _ _ _ _ _ _ _ Mp)) by (by apply file_block_range).
      + destruct (decide (k < Z.min len (d_size (node i) - rpos fp))) as [Hlt|Hge]; [left; by apply Hshort|].
        right. assert (k = Z.max 0 (Z.min len (d_size (node i) - rpos fp))) as -> by lia.
        apply list_fmap_ext. intros j o Hj. apply lookup_seqZ in Hj as [-> ?]. symmetry. apply Hby. lia. }
  destruct (fd_work b s C fd d fp i _ (fun r => set_rpos (u32 (rpos fp + Z.of_nat (List.length r))) fp) (fun r => r) l f C' n' Ho eq_refl R Hf Ei)
    as (s' & R' & Ho').
  exists l, s', C', n'. eexists. split_and!.
  - unfold do_read. rewrite (fd_enter b s C fd d fp i _ _ _ Ho).
    rewrite (bind_Ok _ _ _ _ _ (get_fdesc_run _ _ _ (fo_desc _ _ _ _ _ _ _ Ho))). exact R'.
  - exact Ho'.
  - exact Hoth.
  - destruct Hl as [Hl| ->]; [by left|right]. unfold a_read. cbn [fst snd]. rewrite length_fmap, length_seqZ, Z2Nat.id by lia.
    split; [done|]. split; cbn [a_size a_byte a_rpos a_wpos set_rpos rpos wpos]; try done; try lia.
    + intros o Hor. rewrite Eby by done. by apply Hby.
    + rewrite Hrp, u32_small; [done | lia].
Qed.

Lemma seek_target_fits b s C fd d fp i a offset whence :
  fd_open b s C fd d fp i → shows C (node i) fp a → a_fits (CSeek offset whence) a = true →
  seek_target fp (d_size (node i)) offset whence = a_target offset whence a.
Proof.
  intros _ [Hsz _ Hrp Hwp Hr] Hfit. cbn [a_fits] in Hfit.
  apply andb_true_iff in Hfit as [[[H1%Z.leb_le H2%Z.ltb_lt]%andb_true_iff H3%Z.leb_le]%andb_true_iff H4%Z.ltb_lt].
  unfold seek_target, a_target in *. rewrite <- Hsz, <- Hrp, <- Hwp in *.
  assert (i32 (if a_rpos a >? a_wpos a then a_rpos a else a_wpos a) = Z.max (a_rpos a) (a_wpos a)) as E.
  { rewrite Z.gtb_ltb. destruct (Z.ltb_spec (a_wpos a) (a_rpos a)); rewrite i32_id; lia. }
  rewrite E. destruct (whence =? SEEK_SET); [done|]. destruct (whence =? SEEK_CUR); [by apply i32_id|].
  destruct (whence =? SEEK_END); [|done]. unfold u32, wrap. rewrite Zplus_mod_idemp_r. by apply i32_small.
Qed.

Lemma do_lseek_run b s C fd d fp i offset whence a :
  fd_open b s C fd d fp i → shows C (node i) fp a → a_fits (CSeek offset whence) a = true →
  ∃ s' fp', do_lseek fd offset whence s = Ok (snd (fst (a_seek offset whence a)), s') ∧
    fd_open b s' C fd d fp' i ∧ shows C (node i) fp' (snd (a_seek offset whence a)).
Proof.
  intros Ho Hsh Hfit. pose proof (seek_target_fits _ _ _ _ _ _ _ _ _ _ Ho Hsh Hfit) as Et.
  destruct Hsh as [Hsz Hby Hrp Hwp Hr]. cbn [a_fits] in Hfit.
  apply andb_true_iff in Hfit as [[[H1%Z.leb_le H2%Z.ltb_lt]%andb_true_iff H3%Z.leb_le]%andb_true_iff H4%Z.ltb_lt].
  set (t := Z.max 0 (a_target offset whence a)). set (p := fd_inode fp).
  pose proof Ho as [_ _ Hd Hi Hv Hl Hf]. fold p in Hi.
  set (f1 := locked (pfs s) p i). pose proof (locked_lookup (pfs s) p i Hi) as Hi1. fold f1 in Hi1.
  set (fp' := set_rpos (if u32 t <? d_size (node i) then u32 t else d_size (node i)) (set_wpos (u32 t) fp)).
  assert (fd_open b (mk_pstate (pfs s) (<[d := fp']> (fdesc_array s)) (fd_table s) (cwd_inode s)) C fd d fp' i) as Ho'.
  { destruct Ho. split; cbn [pfs fdesc_array fd_table]; try done. apply list_lookup_insert_eq. by eapply lookup_lt_Some. }
  exists (mk_pstate (pfs s) (<[d := fp']> (fdesc_array s)) (fd_table s) (cwd_inode s)), fp'. split_and!; [|exact Ho'|].
  - unfold do_lseek. rewrite (fd_enter b s C fd d fp i _ _ _ Ho).
    rewrite (bind_Ok _ _ _ _ _ (get_fdesc_run _ _ _ Hd)). fold p.
    rewrite (bind_Ok _ _ _ _ _ (liftf_Ok _ s _ _ (open_valid_run _ _ _ Hi Hv Hl))). fold f1.
    rewrite (bind_Ok _ _ _ _ _ (liftf_Ok _ (mk_pstate f1 _ _ _) _ _ (get_inode_run f1 p _ Hi1))).
    cbn [node set_lock]. rewrite Et. cbv zeta.
    replace (if a_target offset whence a <? 0 then 0 else a_target offset whence a) with t
      by (unfold t; destruct (Z.ltb_spec (a_target offset whence a) 0); lia).
    rewrite (bind_Ok _ _ _ _ _ (liftf_Ok _ (mk_pstate f1 _ _ _) _ _ (unlock_run f1 p _ Hi1 eq_refl))).
    cbn [pfs fdesc_array fd_table cwd_inode]. unfold f1, locked. cbn [fb inodes fdc].
    rewrite list_insert_insert_eq. replace (set_lock false (set_lock true i)) with i by (destruct i; cbn in *; by subst).
    rewrite list_insert_id by done. replace (mk_fstate _ _ _) with (pfs s) by (by destruct (pfs s)).
    rewrite (bind_Ok _ _ _ _ _ (liftf_Ok _ (mk_pstate (pfs s) _ _ _) _ _ (get_inode_run (pfs s) p _ Hi))).
    rewrite (bind_Ok _ _ _ _ _ (put_fdesc_run (mk_pstate (pfs s) _ _ _) d fp _ Hd)). done.
  - unfold a_seek. cbn [snd]. fold t. assert (u32 t = t) as Eu by (apply u32_small; lia).
    split; cbn [a_size a_byte a_rpos a_wpos fp' set_rpos set_wpos rpos wpos]; try done; try lia.
    rewrite Eu, Hsz. destruct (Z.ltb_spec t (d_size (node i))); lia.
Qed.

Lemma others_refl b C n : others_kept b C n C n.
Proof. intros m Hm Hap. split_and!; done. Qed.

Lemma others_trans b C n C1 n1 C2 n2 :
  others_kept b C n C1 n1 → others_kept b C1 n1 C2 n2 → others_kept b C n C2 n2.
Proof.
  intros H1 H2 m Hm Hap. destruct (H1 m Hm Hap) as (Hm1 & Hap1 & P1 & E1). destruct (H2 m Hm1 Hap1) as (Hm2 & Hap2 & P2 & E2).
  split_and!; [done | done | intros sl Hsl; by rewrite P2, P1 | intros o Ho; by rewrite E2, E1].
Qed.

Lemma fd_call_run b s C fd d fp i c a :
  fd_open b s C fd d fp i → shows C (node i) fp a → a_fits c a = true →
  ∃ r s' C' n' fp', fd_call fd c s = Ok (r, s') ∧ fd_open b s' C' fd d fp' (set_node n' i) ∧
    others_kept b C (node i) C' n' ∧
    (first_free b C' = None ∨ r = fst (a_call c a) ∧ shows C' n' fp' (snd (a_call c a))).
Proof.
  intros Ho Hsh Hfit. destruct c as [len|buff|offset whence]; unfold fd_call; cbn [a_call].
  - destruct (do_read_run b s C fd d fp i len a Ho Hsh Hfit) as (l & s' & C' & n' & fp' & R & ? & ? & ?).
    exists (l, Z.of_nat (length l)), s', C', n', fp'. by rewrite (bind_Ok _ _ _ _ _ R).
  - destruct (do_write_run b s C fd d fp i buff a Ho Hsh Hfit) as (k & s' & C' & n' & fp' & R & ? & ? & Hres).
    exists ([], k), s', C', n', fp'. rewrite (bind_Ok _ _ _ _ _ R). split_and!; try done.
    destruct Hres as [?|[-> ?]]; [by left | by right].
  - destruct (do_lseek_run b s C fd d fp i offset whence a Ho Hsh Hfit) as (s' & fp' & R & ? & ?).
    eexists _, s', C, (node i), fp'. rewrite (bind_Ok _ _ _ _ _ R). replace (set_node (node i) i) with i by (by destruct i).
    split_and!; [done | done | apply others_refl | by right].
Qed.

(** C6 Until the volume is full, an open descriptor is a file with a read
    and a write position: any sequence of [do_read], [do_write] and [do_lseek]
    calls (in the range of a C int) returns, delivers the bytes and results of
    the abstract file and leaves the descriptor showing it; if some call
    finds the volume full, the calls up to and including it still return and
    leave the descriptor well formed. In both cases every other file of the
    volume keeps its bytes. *)
Theorem descriptor_is_file b s C fd d fp i cs a :
  fd_open b s C fd d fp i → shows C (node i) fp a → a_all_fit cs a = true →
  ∃ pre rs s' C' n' fp', fd_calls fd pre s = Ok (rs, s') ∧ fd_open b s' C' fd d fp' (set_node n' i) ∧
    others_kept b C (node i) C' n' ∧
    (pre = cs ∧ rs = fst (a_calls cs a) ∧ shows C' n' fp' (snd (a_calls cs a)) ∨
     (∃ rest, cs = pre ++ rest) ∧ pre ≠ [] ∧ first_free b C' = None).
Proof.
  revert s C fp i a. induction cs as [|c cs IH]; intros s C fp i a Ho Hsh Hfit.
  { exists [], [], s, C, (node i), fp. replace (set_node (node i) i) with i by (by destruct i).
    split_and!; [done | done | apply others_refl | by left]. }
  cbn [a_all_fit] in Hfit. apply andb_true_iff in Hfit as [Hc Hcs].
  destruct (fd_call_run b s C fd d fp i c a Ho Hsh Hc) as (r & s1 & C1 & n1 & fp1 & R1 & Ho1 & Hk1 & Hres).
  destruct Hres as [Hfull|[-> Hsh1]].
  { exists [c], [r], s1, C1, n1, fp1. cbn [fd_calls]. rewrite (bind_Ok _ _ _ _ _ R1). split_and!; try done.
    right. split_and!; try done. by exists cs. }
  destruct (IH s1 C1 fp1 (set_node n1 i) (snd (a_call c a)) Ho1 Hsh1 Hcs)
    as (pre & rs & s2 & C2 & n2 & fp2 & R2 & Ho2 & Hk2 & Hres2).
  exists (c :: pre), (fst (a_call c a) :: rs), s2, C2, n2, fp2. cbn [fd_calls a_calls].
  rewrite (bind_Ok _ _ _ _ _ R1), (bind_Ok _ _ _ _ _ R2).
  destruct (a_call c a) as [r1 a1]. cbn [fst snd] in *. destruct (a_calls cs a1) as [rs1 a2]. cbn [fst snd] in *.
  split_and!; [done | exact Ho2 | by eapply others_trans |].
  destruct Hres2 as [(-> & -> & ?)|([rest ->] & _ & ?)]; [by left | right]. split_and!; try done. by exists rest.
Qed.

End Descriptor.

(** ** A file opened, written across a block boundary and read back *)
Definition demo_fd_fs : fstate sdcard :=
  mk_fstate demo_volume (mk_inode demo_node true 1 false :: replicate 63 empty_inode) (mk_dcache None false true []).
Definition demo_fdesc : fdesc_t := mk_fdesc 0 true 0 0 true true.
Definition demo_process : pstate sdcard :=
  mk_pstate demo_fd_fs (<[5%nat := demo_fdesc]> (replicate NUM_FDESCS empty_fdesc))
    (<[2%nat := Some 5%nat]> (replicate 8 None)) 1.
Definition demo_afile : afile := mk_afile 0 (fun _ => 0) 0 0.
Definition demo_calls : list fcall :=
  [CSeek 4094 SEEK_SET; CWrite [10; 20; 30; 40]; CSeek (-3) SEEK_END; CRead 10; CRead 1; CSeek (-9) SEEK_SET].

Lemma demo_fd_open : fd_open demo_superblock demo_process demo_contents 2 5 demo_fdesc (mk_inode demo_node true 1 false).
Proof. split; try done. exact demo_file_open. Qed.

Lemma demo_fd_shows : shows demo_contents demo_node demo_fdesc demo_afile.
Proof.
  split; try done. intros o Ho. cbn. unfold fbyte, fblock.
  destruct (slot_of_ok _ (file_block_range o Ho)) as [Hsl _].
  assert (ptr demo_node demo_contents (slot_of (o / BLOCK_SIZE)) < 0) as Hneg.
  { destruct (slot_of (o / BLOCK_SIZE)) as [k| |k| |j|j k]; cbn [ptr slot_ok d_direct demo_node] in *; try done.
    rewrite lookup_replicate_2; done. }
  rewrite (proj2 (Z.ltb_lt _ _) Hneg). unfold zero_block. rewrite lookup_replicate_2; [done|].
  pose proof (Z.mod_pos_bound o BLOCK_SIZE). unfold BLOCK_SIZE, NSECTOR_BLOCK, SECTOR_SIZE in *. lia.
Qed.

(** The kernel's own run delivers what the abstract file delivers. *)
Lemma demo_fd_run : match fd_calls 2 demo_calls demo_process with Ok (rs, _) => rs | _ => [] end =
  [([], 4094); ([], 4); ([], 4095); ([20; 30; 40], 3); ([], 0); ([], 0)].
Proof. vm_compute. reflexivity. Qed.

Lemma descriptor_is_file_witness :
  fst (a_calls demo_calls demo_afile) =
    [([], 4094); ([], 4); ([], 4095); ([20; 30; 40], 3); ([], 0); ([], 0)] ∧
  ∃ pre rs s' C' n' fp', fd_calls 2 pre demo_process = Ok (rs, s') ∧
    (pre = demo_calls ∧ rs = fst (a_calls demo_calls demo_afile) ∧ shows C' n' fp' (snd (a_calls demo_calls demo_afile)) ∨
     (∃ rest, demo_calls = pre ++ rest) ∧ pre ≠ [] ∧ first_free demo_superblock C' = None).
Proof.
  split; [vm_compute; reflexivity|].
  destruct (descriptor_is_file demo_superblock demo_process demo_contents 2 5 demo_fdesc (mk_inode demo_node true 1 false) demo_calls
    demo_afile demo_fd_open demo_fd_shows) as (pre & rs & s' & C' & n' & fp' & R & _ & _ & Hres); [vm_compute; reflexivity|].
  exists pre, rs, s', C', n', fp'. exact (conj R Hres).
Defined.
