(* ===== verification/InodeTable.v ===== *)
(** * The inode table: allocating, loading and releasing an inode

    The runs of [inode_alloc], [inode_open] on an inode that has to be loaded
    and [inode_close] of an inode that keeps a name. *)

From S2P Require Import Prelude Bytes Block BlockProofs BlockAlloc SdCard BlockTheorems Dcache Inode.
From S2P Require Import InodeLayout InodeMap InodeMapRun InodeIO InodeTheorems Dir DirTheorems Fs FdTheorems.

Section Table.

Context {D : Type} `{SectorStore D}.
Implicit Types (s : fstate D) (C : Z → list Z).

(** The volume after the image of [n] was stored in the inode table. *)
Definition stored (b : superblock_t) (n : diskinode_t) C : Z → list Z :=
  let x := INODE2BLOCK b (d_inode_num n) in
  <[x := splice (Z.to_nat (INODE2OFFSET (d_inode_num n) * sizeof_diskinode)) (enc_dinode n) (C x)]> C.

Lemma stored_image b bs C n j :
  bsg b bs C [] → 0 ≤ d_inode_num n < inode_count b → dinode_wf n → 0 ≤ j < inode_count b →
  disk_inode b (stored b n C) j = if decide (j = d_inode_num n) then n else disk_inode b C j.
Proof. apply stored_images. Qed.

Lemma stored_block b n C : sb_ok b → 0 ≤ d_inode_num n < inode_count b →
  inode_offset b ≤ INODE2BLOCK b (d_inode_num n) < datablock_offset b.
Proof. intros Hb Hn. by apply inode_block_range. Qed.

Lemma geo_inode b b' f : geo b b' → geo b (set_used_inode f b').
Proof. intros (u & g & ->). exists u, (fun x => f (g x)). done. Qed.

Lemma INODE2BLOCK_geo b b' n : geo b b' → INODE2BLOCK b' n = INODE2BLOCK b n.
Proof. by intros (u & g & ->). Qed.

Lemma count_inode_run b s C held f :
  bsg b (fb s) C held → ∃ bs, count_inode f s = Ok (tt, mk_fstate bs (inodes s) (fdc s)) ∧ bsg b bs C held ∧
    blocks bs = blocks (fb s).
Proof.
  intros [Hb Hg]. eexists. split; [done|]. split; [|done]. split; [|by apply geo_inode].
  exact (bst_used (fb s) C held id f Hb).
Qed.

(** Reading and writing an inode image in an open block. *)
Lemma load_dinode_run b bs C held blk j :
  bsg b bs C held → buf bs blk (INODE2BLOCK b j) → load_dinode blk (INODE2OFFSET j) bs = Ok (disk_inode b C j, bs).
Proof.
  intros [Hb _] Hbuf. destruct (buf_data _ _ _ _ _ Hb Hbuf) as (c & R & _ & _ & _ & Ec & _).
  unfold load_dinode. rewrite (bind_Ok _ _ _ _ _ R), Ec. done.
Qed.

Lemma store_dinode_run b bs C held blk n :
  bsg b bs C held → buf bs blk (INODE2BLOCK b (d_inode_num n)) → 0 ≤ d_inode_num n < inode_count b → dinode_wf n →
  ∃ bs', store_dinode blk (INODE2OFFSET (d_inode_num n)) n bs = Ok (tt, bs') ∧ bsg b bs' (stored b n C) held ∧ bstep bs bs'.
Proof.
  intros Hb Hbuf Hn Hwf. pose proof (bsg_sb _ _ _ _ Hb) as Hsb.
  destruct (inode_block_range b _ Hsb Hn) as (_ & _ & Hin & Hk & _).
  destruct (buf_data _ _ _ _ _ (proj1 Hb) Hbuf) as (c & R & Hc & _ & _ & Ec & _).
  unfold store_dinode. rewrite (bind_Ok _ _ _ _ _ R), Ec. apply put_geo; try done.
  rewrite splice_length; [by eapply bsg_len|]. rewrite (enc_dinode_length _ (proj1 (wf_direct _ Hwf))).
  rewrite (bsg_len _ _ _ _ _ Hb Hin), Hk. change INODE_PER_BLOCK with 64.
  pose proof (Z.mod_pos_bound (d_inode_num n) 64 ltac:(lia)). unfold sizeof_diskinode.
  change (Z.to_nat BLOCK_SIZE) with 4096%nat. lia.
Qed.

(** ** Allocating *)

(** The image [inode_alloc] writes. *)
Definition new_dinode (type j : Z) : diskinode_t := mk_dinode (u16 type) 0 j 0 0 (replicate 10 (-1)) (-1) (-1).

Lemma new_dinode_wf type j : 0 ≤ j < 2 ^ 32 → dinode_wf (new_dinode type j).
Proof.
  intros Hj. unfold new_dinode, u16, wrap.
  split; cbn; try done; [apply Z.mod_pos_bound; lia |]. split; [done|]. repeat constructor; done.
Qed.

(** The scan takes the first inode whose image has type 0. *)
Lemma alloc_inode_run n b s C i j type :
  bsg b (fb s) C [] → 1 ≤ i ≤ j → j < inode_count b → j - i < Z.of_nat n →
  (∀ q, i ≤ q < j → d_type (disk_inode b C q) ≠ 0) → d_type (disk_inode b C j) = 0 →
  ∃ bs, alloc_inode_loop n i type s = inode_ref j (mk_fstate bs (inodes s) (fdc s)) ∧
    bsg b bs (stored b (new_dinode type j) C) [].
Proof.
  revert s i. induction n as [|n IH]; intros s i Hb Hij Hj Hn Hused Hfree; [lia|].
  cbn [alloc_inode_loop]. unfold the_superblock, gets. cbn [bind]. pose proof (proj2 Hb) as Hg.
  assert (inode_count (superblock (fb s)) = inode_count b) as -> by (by destruct Hg as (u & g & ->)).
  rewrite (proj2 (Z.ltb_lt _ _)) by lia. rewrite (INODE2BLOCK_geo _ _ _ Hg).
  pose proof (bsg_sb _ _ _ _ Hb) as Hsb. destruct (inode_block_range b i Hsb ltac:(lia)) as (_ & _ & Hin & _ & Hi31).
  destruct (open_geo b (fb s) C [] (INODE2BLOCK b i) Hb Hin) as (blk & bs1 & R1 & Hb1 & Hbuf1 & _); [unfold BLOCK_CONCURRENCY; simpl; lia|].
  rewrite (bind_Ok _ _ _ _ _ (liftb_Ok _ s _ _ R1)).
  rewrite (bind_Ok _ _ _ _ _ (liftb_Ok _ (mk_fstate bs1 _ _) _ _ (load_dinode_run b bs1 C _ blk i Hb1 Hbuf1))).
  cbn [fb inodes fdc]. destruct (decide (i = j)) as [->|Hne].
  - rewrite (proj2 (Z.eqb_eq _ _) Hfree).
    destruct (count_inode_run b (mk_fstate bs1 (inodes s) (fdc s)) C _ (fun u => u32 (u + 1)) Hb1) as (bs2 & R2 & Hb2 & E2).
    rewrite (bind_Ok _ _ _ _ _ R2). cbn [fb inodes fdc] in *.
    assert (buf bs2 blk (INODE2BLOCK b j)) as Hbuf2 by (unfold buf in *; by rewrite E2).
    destruct (store_dinode_run b bs2 C [INODE2BLOCK b j] blk (new_dinode type j) Hb2) as (bs3 & R3 & Hb3 & P3);
      [done | cbn; lia | apply new_dinode_wf; lia |].
    rewrite (bind_Ok _ _ _ _ _ (liftb_Ok _ (mk_fstate bs2 _ _) _ _ R3)).
    destruct (close_geo b bs3 _ [] blk (INODE2BLOCK b j) Hb3) as (bs4 & R4 & Hb4 & _); [by apply P3|].
    rewrite (bind_Ok _ _ _ _ _ (liftb_Ok _ (mk_fstate bs3 _ _) _ _ R4)). by exists bs4.
  - rewrite (proj2 (Z.eqb_neq _ _)) by (apply Hused; lia).
    destruct (close_geo b bs1 C [] blk (INODE2BLOCK b i) Hb1 Hbuf1) as (bs2 & R2 & Hb2 & _).
    rewrite (bind_Ok _ _ _ _ _ (liftb_Ok _ (mk_fstate bs1 _ _) _ _ R2)).
    apply (IH (mk_fstate bs2 (inodes s) (fdc s)) (i + 1)); try done; [lia | lia |]. intros q Hq. apply Hused. lia.
Qed.

Lemma inode_alloc_run b s C j type :
  bsg b (fb s) C [] → type ∈ [FS_TYPE_FILE; FS_TYPE_DIR; FS_TYPE_DEV] → 1 ≤ j < inode_count b →
  (∀ q, 1 ≤ q < j → d_type (disk_inode b C q) ≠ 0) → d_type (disk_inode b C j) = 0 →
  ∃ bs, inode_alloc type s = inode_ref j (mk_fstate bs (inodes s) (fdc s)) ∧
    bsg b bs (stored b (new_dinode type j) C) [].
Proof.
  intros Hb Hty Hj Hused Hfree. unfold inode_alloc. rewrite (bind_Ok _ _ s tt s).
  2: { apply asserts_true. rewrite !elem_of_cons in Hty. destruct Hty as [->|[->|[->|Hty]]]; [done..|set_solver]. }
  unfold the_superblock, gets. cbn [bind].
  assert (inode_count (superblock (fb s)) = inode_count b) as -> by (by destruct (proj2 Hb) as (u & g & ->)).
  apply alloc_inode_run; try done; lia.
Qed.

(** ** Loading *)
Lemma open_load_run b s C p i :
  bsg b (fb s) C [] → inodes s !! p = Some i → i_valid i = false → lock_acquired i = false →
  0 ≤ d_inode_num (node i) < inode_count b → d_type (disk_inode b C (d_inode_num (node i))) ≠ 0 →
  let i' := mk_inode (disk_inode b C (d_inode_num (node i))) true (ref_count i) true in
  ∃ bs, inode_open p s = Ok (tt, mk_fstate bs (<[p := i']> (inodes s)) (fdc s)) ∧ bsg b bs C [].
Proof.
  intros Hb Hi Hv Hl Hn Hty i'. set (j := d_inode_num (node i)) in *.
  destruct (inode_block_range b j (bsg_sb _ _ _ _ Hb) Hn) as (_ & _ & Hin & _ & _).
  destruct (open_geo b (fb s) C [] (INODE2BLOCK b j) Hb Hin) as (blk & bs1 & R1 & Hb1 & Hbuf1 & _); [unfold BLOCK_CONCURRENCY; simpl; lia|].
  destruct (close_geo b bs1 C [] blk (INODE2BLOCK b j) Hb1 Hbuf1) as (bs2 & R2 & Hb2 & _).
  exists bs2. split; [|done]. pose proof (lookup_lt_Some _ _ _ Hi) as Hlt.
  unfold inode_open, mutex_acquire. rewrite (bind_Ok _ _ s tt (locked s p i)).
  2: { rewrite (bind_Ok _ _ _ _ _ (get_inode_run _ _ _ Hi)), Hl. rewrite (bind_Ok _ _ s tt s) by done. by apply (put_inode_run s p i). }
  rewrite (bind_Ok _ _ _ _ _ (get_inode_run _ _ _ (locked_lookup s p i Hi))). cbn [i_valid set_lock negb]. rewrite Hv. cbn [negb].
  unfold the_superblock, gets. cbn [bind fb locked]. rewrite (INODE2BLOCK_geo _ _ _ (proj2 Hb)). cbn [node set_lock]. fold j.
  rewrite (bind_Ok _ _ _ _ _ (liftb_Ok _ (locked s p i) _ _ R1)).
  rewrite (bind_Ok _ _ _ _ _ (liftb_Ok _ (mk_fstate bs1 _ _) _ _ (load_dinode_run b bs1 C _ blk j Hb1 Hbuf1))). cbn [fb inodes fdc].
  rewrite (bind_Ok _ _ _ _ _ (upd_inode_run (mk_fstate bs1 (inodes (locked s p i)) (fdc (locked s p i))) p _ _ (locked_lookup s p i Hi))).
  cbn [fb inodes fdc locked]. rewrite list_insert_insert_eq.
  rewrite (bind_Ok _ _ _ _ _ (liftb_Ok _ (mk_fstate bs1 _ _) _ _ R2)). cbn [fb inodes fdc].
  rewrite (bind_Ok _ _ _ _ _ (upd_inode_run (mk_fstate bs2 _ _) p _ _ (list_lookup_insert_eq (inodes s) p _ Hlt))).
  cbn [fb inodes fdc]. rewrite list_insert_insert_eq.
  rewrite (bind_Ok _ _ _ _ _ (get_inode_run (mk_fstate bs2 _ _) p _ (list_lookup_insert_eq (inodes s) p _ Hlt))).
  cbn [node set_valid set_node]. rewrite asserts_true; [done|]. by rewrite (proj2 (Z.eqb_neq _ _) Hty).
Qed.

(** ** Releasing *)

(** [inode_deref] of a loaded inode that keeps a name: the count goes down,
    and the last reference writes the inode back and empties the slot. *)
Lemma deref_run b s C p i :
  bsg b (fb s) C [] → inodes s !! p = Some i → i_valid i = true → d_link_count (node i) ≠ 0 → 0 < ref_count i < 2 ^ 16 →
  0 ≤ d_inode_num (node i) < inode_count b → dinode_wf (node i) →
  ∃ bs, inode_deref p s = Ok (tt, mk_fstate bs
      (<[p := if ref_count i =? 1 then empty_inode else set_ref (ref_count i - 1) i]> (inodes s)) (fdc s)) ∧
    bsg b bs (if ref_count i =? 1 then stored b (node i) C else C) [].
Proof.
  intros Hb Hi Hv Hlk Hr Hn Hwf. pose proof (lookup_lt_Some _ _ _ Hi) as Hlt. unfold inode_deref, deref_rec.
  rewrite (bind_Ok _ _ _ _ _ (get_inode_run _ _ _ Hi)). rewrite (bind_Ok _ _ s tt s) by (apply asserts_true; rewrite Z.gtb_ltb; apply Z.ltb_lt; lia).
  rewrite (proj2 (Z.eqb_neq _ _) Hlk), andb_false_r. rewrite (bind_Ok _ _ s tt s) by done.
  rewrite (bind_Ok _ _ _ _ _ (upd_inode_run s p i _ Hi)).
  assert (u16 (ref_count i - 1) = ref_count i - 1) as -> by (unfold u16, wrap; apply Z.mod_small; lia).
  set (i1 := set_ref (ref_count i - 1) i). set (s1 := mk_fstate (fb s) (<[p := i1]> (inodes s)) (fdc s)).
  assert (inodes s1 !! p = Some i1) as Hi1 by (by apply list_lookup_insert_eq).
  rewrite (bind_Ok _ _ _ _ _ (get_inode_run s1 p i1 Hi1)). cbn [ref_count i1 set_ref].
  destruct (Z.eqb_spec (ref_count i) 1) as [E1|E1].
  2: { rewrite (proj2 (Z.eqb_neq _ _)) by lia. by exists (fb s). }
  rewrite E1. change (1 - 1 =? 0) with true. cbn iota.
  destruct (write_back_core b s1 C p i1 Hb Hi1 Hn Hwf) as (bs & R & Hb').
  exists bs. split; [|exact Hb']. unfold inode_clear. rewrite (bind_Ok _ _ _ _ _ (get_inode_run s1 p i1 Hi1)).
  rewrite (bind_Ok _ _ s1 tt s1) by (apply asserts_true; cbn [i1 ref_count set_ref]; by rewrite E1).
  cbn [i_valid i1 set_ref]. rewrite Hv, (bind_Ok _ _ _ _ _ R).
  rewrite (put_inode_run (mk_fstate bs (inodes s1) (fdc s1)) p i1 _ Hi1). cbn [s1 fb inodes fdc].
  by rewrite list_insert_insert_eq.
Qed.

Lemma close_run b s C p i :
  bsg b (fb s) C [] → inodes s !! p = Some i → lock_acquired i = true → i_valid i = true → d_link_count (node i) ≠ 0 →
  0 < ref_count i < 2 ^ 16 → 0 ≤ d_inode_num (node i) < inode_count b → dinode_wf (node i) →
  ∃ bs, inode_close p s = Ok (tt, mk_fstate bs
      (<[p := if ref_count i =? 1 then empty_inode else set_lock false (set_ref (ref_count i - 1) i)]> (inodes s)) (fdc s)) ∧
    bsg b bs (if ref_count i =? 1 then stored b (node i) C else C) [].
Proof.
  intros Hb Hi Hl Hv Hlk Hr Hn Hwf. unfold inode_close. rewrite (bind_Ok _ _ _ _ _ (unlock_run s p i Hi Hl)).
  set (s1 := mk_fstate _ _ _).
  destruct (deref_run b s1 C p (set_lock false i) Hb) as (bs & R & Hb'); try done.
  { apply list_lookup_insert_eq. by eapply lookup_lt_Some. }
  exists bs. cbn [s1 fb inodes fdc ref_count set_lock node] in R, Hb'. rewrite R, list_insert_insert_eq. done.
Qed.

End Table.
