(* ===== verification/DirImage.v ===== *)
(** * A directory on the volume

    What it is for an inode image to be a directory, independent of the inode
    table; adding a name to a directory of one block, and the two entries every
    directory begins with. *)

From S2P Require Import Prelude Bytes Block BlockProofs BlockAlloc SdCard BlockTheorems Dcache Inode.
From S2P Require Import InodeLayout InodeMap InodeMapRun InodeIO InodeTheorems InodeHit Dir DirTheorems Fs FdTheorems InodeTable.

(** ** A directory on the volume *)
Record dir_image (b : superblock_t) (C : Z → list Z) (n : diskinode_t) : Prop := {
  di_type : d_type n = FS_TYPE_DIR;
  di_tree : tree_ok b C n;
  di_wf : dinode_wf n;
  di_size : d_size n = sizeof_dentry * entries n;
  di_small : d_size n + sizeof_dentry < 2 ^ 32;
  di_mapped o : 0 ≤ o < d_size n → 0 ≤ ptr n C (slot_of (o / BLOCK_SIZE));
  di_uniq nm j k : named n C nm j → named n C nm k → j = k;
}.

Section Image.

Context {D : Type} `{SectorStore D}.
Implicit Types (s : fstate D) (C : Z → list Z).

Lemma dir_image_ok b s C p i :
  bsg b (fb s) C [] → inodes s !! p = Some i → lock_acquired i = true → 0 ≤ d_inode_num (node i) < inode_count b →
  dir_image b C (node i) → cache_ok (fdc s) (node i) C → dir_ok b s C p i.
Proof.
  intros Hb Hi Hl Hn [T1 T2 T3 T4 T5 T6 T7] Hc. split; try done. split; try done. rewrite T1. done.
Qed.

Lemma dir_ok_image b s C p i : dir_ok b s C p i → dir_image b C (node i).
Proof. intros [[] T S1 S2 S3 S4 S5]. by split. Qed.

(** The link count is not part of the contents. *)
Lemma ptr_link l n C sl : ptr (set_link_count l n) C sl = ptr n C sl.
Proof. by destruct sl. Qed.

Lemma fbyte_link l n C o : fbyte (set_link_count l n) C o = fbyte n C o.
Proof. unfold fbyte, fblock. by rewrite ptr_link. Qed.

Lemma entry_link l n C k : entry_at (set_link_count l n) C k = entry_at n C k.
Proof. reflexivity. Qed.

Lemma named_link l n C nm k : named (set_link_count l n) C nm k ↔ named n C nm k.
Proof. unfold named. rewrite entry_link. done. Qed.

Lemma dir_image_link b C l n : 0 ≤ l < 2 ^ 16 → dir_image b C n → dir_image b C (set_link_count l n).
Proof.
  intros Hl [T1 [U1 U2 U3] [] T4 T5 T6 T7]. by split.
Qed.

(** The contents do not depend on the inode table. *)
Section Meta.
Context (b : superblock_t) (C : Z → list Z) (x : Z) (d : list Z).
Context (Hb : sb_ok b) (Hx : inode_offset b ≤ x < datablock_offset b).

Lemma meta_entry n k :
  tree_ok b C n → 0 ≤ k < entries n → d_size n < 2 ^ 32 → entry_at n (<[x := d]> C) k = entry_at n C k.
Proof.
  intros Ht Hk Hsz. unfold entry_at. f_equal. apply list_fmap_ext. intros j o Ho. apply lookup_seqZ in Ho as [-> Hj].
  assert (sizeof_dentry * entries n ≤ d_size n) by (apply Z.mul_div_le; done).
  apply (meta_fbyte b); [done..|]. unfold sizeof_dentry in *. lia.
Qed.

Lemma meta_named n nm k : tree_ok b C n → d_size n < 2 ^ 32 → named n (<[x := d]> C) nm k ↔ named n C nm k.
Proof. intros Ht Hsz. unfold named. split; intros [Hk Hl]; (split; [done|]); by rewrite meta_entry in *. Qed.

Lemma meta_dir n : dir_image b C n → dir_image b (<[x := d]> C) n.
Proof.
  intros [T1 T2 T3 T4 T5 T6 T7]. pose proof (wf_size _ T3).
  split; [exact T1 | by apply meta_tree | exact T3 | exact T4 | exact T5 | |].
  - intros o Ho. rewrite (meta_ptr b); [by apply T6 | assumption..|]. apply slot_of_ok, file_block_range. lia.
  - intros nm j k. rewrite !meta_named by (assumption || lia). apply T7.
Qed.
End Meta.

Lemma stored_dir b n C m :
  sb_ok b → 0 ≤ d_inode_num n < inode_count b → dir_image b C m → dir_image b (stored b n C) m.
Proof. intros Hb Hn Hm. apply meta_dir; [done | by apply stored_block | done]. Qed.

(** ** Writing into the first block of a file *)
Lemma map_first b s C p i :
  bsg b (fb s) C [] → inodes s !! p = Some i → tree_ok b C (node i) →
  0 ≤ ptr (node i) C (slot_of 0) ∨ first_free b C ≠ None → ∃ r s', inode_mapblock p 0 s = Ok (r, s') ∧ 0 ≤ r.
Proof.
  intros Hb Hi Ht Hroom. destruct (decide (0 ≤ ptr (node i) C (slot_of 0))) as [Hp|Hp].
  { destruct (mapblock_hit b s C [] p i 0) as (s' & _ & R); try done; [unfold BLOCK_CONCURRENCY; simpl; lia|]. eauto. }
  destruct Hroom as [?|Hroom]; [done|]. destruct (first_free b C) as [k|] eqn:Ef; [|done].
  unfold inode_mapblock. rewrite (bind_Ok _ _ _ _ _ (get_inode_run _ _ _ Hi)).
  change (slot_of 0) with (SDirect 0) in *. cbn [ptr] in Hp.
  change (0 <? NUM_DIRECT_BLOCKS) with true. change (0 <? 0) with false. change (Z.to_nat 0) with 0%nat. cbn iota.
  destruct (lookup_lt_is_Some_2 (d_direct (node i)) 0) as [e He]; [rewrite (to_direct _ _ _ Ht); lia|].
  rewrite He in *. cbn [default from_option id] in *. rewrite (proj2 (Z.ltb_lt e 0)) by lia.
  destruct (allocset_geo b (fb s) C [] 0 Hb) as (bs1 & _ & Hs1); [unfold BLOCK_CONCURRENCY; simpl; lia|].
  rewrite Ef in Hs1. destruct Hs1 as (R1 & Hb1). rewrite (bind_Ok _ _ _ _ _ (liftb_Ok _ s _ _ R1)).
  destruct (first_free_is _ _ _ Ef) as [Hk _]. destruct (data_range b k (bsg_sb _ _ _ _ Hb) Hk) as (_ & _ & ?).
  rewrite (proj2 (Z.ltb_ge _ 0)) by lia. rewrite (bind_Ok _ _ _ _ _ (upd_node_run (mk_fstate bs1 _ _) p i _ Hi)).
  eexists _, _. split; [done | lia].
Qed.

Lemma write_first b s C p i src offset t s1 :
  file_open b s C p i → 0 ≤ offset → offset + Z.of_nat (length src) ≤ BLOCK_SIZE → src ≠ [] →
  0 ≤ ptr (node i) C (slot_of 0) ∨ first_free b C ≠ None →
  inode_write p src offset s = Ok (t, s1) → t = Z.of_nat (length src).
Proof.
  intros Hf Ho Hend Hne Hroom R. set (len := Z.of_nat (length src)) in *.
  assert (0 < len) as Hlen by (destruct src; [done | unfold len; cbn [length]; lia]).
  destruct (map_first b s C p i (fo_bsg _ _ _ _ _ Hf) (fo_slot _ _ _ _ _ Hf) (fo_tree _ _ _ _ _ Hf) Hroom) as (r & s2 & Rm & Hr).
  unfold inode_write in R. rewrite (bind_Ok _ _ _ _ _ (get_inode_run _ _ _ (fo_slot _ _ _ _ _ Hf))) in R.
  rewrite (proj2 (Z.eqb_neq _ _) (fo_type _ _ _ _ _ Hf)) in R. fold len in R.
  apply bind_Ok_inv in R as ([off tot] & s3 & Rw & R).
  assert (tot = len) as ->.
  { assert (BLOCK_SIZE = 4096) as EB by done. assert (offset / BLOCK_SIZE = 0) as Eq by (apply Z.div_small; lia).
    unfold io_fuel in Rw. pose proof (Z.div_pos len BLOCK_SIZE ltac:(lia) ltac:(lia)).
    destruct (Z.to_nat (len / BLOCK_SIZE + 2)) as [|[|fuel]] eqn:Efu; [lia | lia |]. cbn [write_loop] in Rw.
    rewrite (proj2 (Z.ltb_lt 0 len)), Eq, (bind_Ok _ _ _ _ _ Rm), (proj2 (Z.ltb_ge r 0)) in Rw by lia.
    rewrite Z.mod_small in Rw by lia.
    apply bind_Ok_inv in Rw as (blk & s4 & _ & Rw). apply bind_Ok_inv in Rw as (c & s5 & _ & Rw).
    apply bind_Ok_inv in Rw as ([] & s6 & _ & Rw). apply bind_Ok_inv in Rw as ([] & s7 & _ & Rw).
    rewrite Z.sub_0_r, Z.add_0_l, Z.min_r, Z.ltb_irrefl in Rw by lia. by injection Rw as <- <- <-. }
  apply bind_Ok_inv in R as (? & ? & _ & R). apply bind_Ok_inv in R as ([] & ? & _ & R).
  apply bind_Ok_inv in R as ([] & ? & _ & R). by injection R as <- <-.
Qed.

(** Linking a new name in a directory of at most 127 entries, with a first
    block or a free one: the entry is the next free one. *)
Lemma link_small b s C p i nm num :
  dir_ok b s C p i → 0 < num < 2 ^ 32 → entries (node i) < 128 → (∀ j, ¬ named (node i) C nm j) →
  0 ≤ ptr (node i) C (slot_of 0) ∨ first_free b C ≠ None →
  ∃ s' C' n' k, dir_link p nm num s = Ok (0, s') ∧ linked b s C p i nm num k s' C' n' ∧
    0 ≤ k ≤ entries (node i) ∧ (k < entries (node i) → inode_num (entry_at (node i) C k) = 0).
Proof.
  intros Hd Hnum Hent Hno Hroom. pose proof (do_size _ _ _ _ _ Hd) as Hsz. unfold sizeof_dentry in Hsz.
  destruct (dir_link_prefix b s C p i nm num Hd) as [(j & _ & Hj & _)|(_ & k & s1 & L & R & Hk & H0)]; [by destruct (Hno j)|].
  pose proof (lk_dir _ _ _ _ _ _ L) as Hd1.
  destruct (link_at_run b s1 C p i nm num k Hd1 Hnum) as (t & s2 & s3 & C3 & n3 & Rw & R3 & Hok & _);
    [unfold sizeof_dentry; lia | done | done | done |].
  assert (t = sizeof_dentry) as ->.
  { pose proof (enc_dentry_length (mk_dentry (filename_cpy nm) num) (filename_cpy_length nm)) as Hel.
    assert (BLOCK_SIZE = 4096) as EB by done.
    rewrite (write_first b s1 C p i (enc_dentry (mk_dentry (filename_cpy nm) num)) (sizeof_dentry * k) t s2 (do_file _ _ _ _ _ Hd1));
      [| unfold sizeof_dentry; lia | rewrite Hel; unfold sizeof_dentry; lia | by intros Hnil; rewrite Hnil in Hel | done | done].
    by rewrite Hel. }
  exists s3, C3, n3, k. rewrite R, R3. split_and!; [done | exact (looked_linked _ _ _ _ _ _ _ _ _ _ _ _ L (Hok eq_refl)) | lia.. | done].
Qed.

(** The entries "." and ".." of a directory that has nothing else. *)
Definition dot_entries (n : diskinode_t) (C : Z → list Z) (self up : Z) : Prop :=
  entries n = 2 ∧ named n C DOT 0 ∧ named n C DOTDOT 1 ∧
  inode_num (entry_at n C 0) = self ∧ inode_num (entry_at n C 1) = up.

Lemma dot_named n C self up nm k :
  dot_entries n C self up → named n C nm k ↔ (k = 0 ∧ key_name nm = key_name DOT ∨ k = 1 ∧ key_name nm = key_name DOTDOT).
Proof.
  intros (E & [H0 [Z0 K0]] & [H1 [Z1 K1]] & N0 & N1). split.
  - intros [Hk [_ Key]]. rewrite E in Hk. destruct (decide (k = 0)) as [->|]; [left; by rewrite <- Key|].
    assert (k = 1) as -> by lia. right. by rewrite <- Key.
  - intros [[-> Ek]|[-> Ek]]; (split; [done|]); (split; [done|]); congruence.
Qed.

(** [dir_ok] of a directory without entries, in the cache neither. *)
Lemma empty_dir_ok b s C p i m :
  bsg b (fb s) C [] → inodes s !! p = Some i → lock_acquired i = true → 0 ≤ d_inode_num (node i) < inode_count b →
  d_type (node i) = FS_TYPE_DIR → d_size (node i) = 0 → dinode_wf (node i) →
  dcache_holds (fdc s) m → (∀ nm, m !! (d_inode_num (node i), nm) = None) →
  d_direct (node i) = replicate 10 (-1) → d_indirect (node i) = -1 → d_double_indirect (node i) = -1 →
  dir_ok b s C p i.
Proof.
  intros Hb Hi Hl Hn Hty Hsz Hwf Hc Hm H1 H2 H3.
  assert (entries (node i) = 0) as He by (unfold entries; by rewrite Hsz).
  assert (∀ nm k, ¬ named (node i) C nm k) as Hno by (intros nm k [Hk _]; lia).
  apply dir_image_ok; [assumption..| |].
  - split; [assumption | by apply empty_tree | assumption | by rewrite He, Hsz | by rewrite Hsz | lia |].
    intros nm j k Hj. by destruct (Hno nm j).
  - exists m. split; [done|]. intros nm e off. by rewrite Hm.
Qed.

(** A directory without a block gets its two entries, on a volume with room. *)
Record dotted (b : superblock_t) s C (p : nat) (i : inode_t) (self up : Z) s' C' (n' : diskinode_t) : Prop := {
  dt_dir : dir_ok b s' C' p (set_node n' i);
  dt_inodes : inodes s' = <[p := set_node n' i]> (inodes s);
  dt_entries : dot_entries n' C' self up;
  dt_fields : d_type n' = d_type (node i) ∧ d_link_count n' = d_link_count (node i) ∧ d_inode_num n' = d_inode_num (node i);
  dt_images j : 0 ≤ j < inode_count b → disk_inode b C' j = if decide (j = d_inode_num (node i)) then n' else disk_inode b C j;
  dt_others : others_kept b C (node i) C' n';
  dt_cache m : dcache_holds (fdc s) m → ∃ m', dcache_holds (fdc s') m' ∧
    ∀ j x, j ≠ d_inode_num (node i) → m' !! (j, x) = m !! (j, x);
}.

Lemma link_dots b s C p i self up :
  dir_ok b s C p i → entries (node i) = 0 → first_free b C ≠ None → 0 < self < 2 ^ 32 → 0 < up < 2 ^ 32 →
  ∃ s1 s' C' n', dir_link p DOT self s = Ok (0, s1) ∧ dir_link p DOTDOT up s1 = Ok (0, s') ∧
    dotted b s C p i self up s' C' n'.
Proof.
  intros Hd He Hroom Hself Hup. assert (∀ nm j, ¬ named (node i) C nm j) as Hno by (intros nm j [Hj _]; lia).
  assert (key_name DOTDOT ≠ key_name DOT) as Hne by done.
  destruct (link_small b s C p i DOT self Hd) as (s1 & C1 & n1 & k & R1 & [A1 A2 A3 A4 A5 A6 A7 A8 A9 A10] & Hk & _);
    [done | lia | done | by right |].
  assert (k = 0) as -> by lia.
  destruct (link_small b s1 C1 p (set_node n1 i) DOTDOT up A1) as
    (s2 & C2 & n2 & k & R2 & [B1 B2 B3 B4 B5 B6 B7 B8 B9 B10] & Hk2 & H02); cbn [node set_node] in *.
  { done. } { lia. } { intros j Hj. destruct (A8 DOTDOT j Hne) as [Hiff _]. exact (Hno DOTDOT j (proj1 Hiff Hj)). }
  { left. apply (do_mapped _ _ _ _ _ A1 0). pose proof (do_size _ _ _ _ _ A1) as Hsz. cbn [node set_node] in *.
    rewrite Hsz, A3. unfold sizeof_dentry. lia. }
  assert (k = 1) as ->.
  { destruct (decide (k < 1)) as [Hlt|]; [|lia]. assert (k = 0) as -> by lia. specialize (H02 ltac:(lia)). lia. }
  destruct (B8 DOT 0) as [Hiff Heq]; [done|]. destruct A4 as (F1 & F2 & F3), B4 as (G1 & G2 & G3).
  exists s1, s2, C2, n2. split_and!; [done | done |]. split.
  - exact B1.
  - rewrite B2, A2. by rewrite list_insert_insert_eq.
  - split_and!; [lia | exact (proj2 Hiff A6) | exact B6 | by rewrite (Heq A6) | exact B7].
  - split_and!; congruence.
  - intros j Hj. rewrite B5, F3 by done. case_decide; [done|]. by rewrite A5, decide_False.
  - by eapply others_trans.
  - intros m Hm. destruct (A10 m Hm) as (m1 & Hm1 & E1). destruct (B10 m1 Hm1) as (m2 & Hm2 & E2).
    exists m2. split; [done|]. intros j x Hj. rewrite E2, E1 by congruence. done.
Qed.

End Image.
