(* ===== verification/Mkfs.v ===== *)
(** * kernel/fs/fs.cpp: making, mounting and flushing the volume

    [do_mkfs], [do_cleanfs], [init_fs] and [flush_filesystem] on the page cache of
    PageCache.v over the card. The superblock is one sector, written and read without
    the buffers and the page cache. *)

From S2P Require Import Prelude Bytes Block SdCard PageCache Dcache Inode Dir Fs.

Definition SUPERBLOCK_MAGIC : Z := 0xDF4C4459.
Definition NBLOCK_INODE_MAP : Z := 1.
Definition NUM_INODES : Z := NBLOCK_INODE_MAP * BLOCK_SIZE * 8.
Definition NBLOCK_INODE_TABLE : Z := sizeof_diskinode * NUM_INODES / BLOCK_SIZE.
Definition NBLOCK_BLOCK_MAP : Z := 32.

(** ** The superblock as a sector *)
Definition sb_fields (b : superblock_t) : list Z :=
  [magic b; fs_size b; start_sector b; root_inode b; block_map_offset b; inode_offset b;
   datablock_offset b; inode_count b; block_count b; used_inode b; used_block b].
Definition enc_superblock (b : superblock_t) : list Z :=
  mjoin (le 4 <$> sb_fields b) ++ replicate 468 0.
Definition dec_superblock (l : list Z) : superblock_t :=
  mk_superblock (field 0 4 l) (field 4 4 l) (field 8 4 l) (field 12 4 l) (field 16 4 l) (field 20 4 l)
    (field 24 4 l) (field 28 4 l) (field 32 4 l) (field 36 4 l) (field 40 4 l).

Abbreviation FM := (M (fstate pcache)).

Definition put_superblock (b : superblock_t) : FM unit :=
  modify (fun s => mk_fstate (set_superblock b (fb s)) (inodes s) (fdc s)).
(** [bios_sd_write((kva_t)&superblock, 1, FS_START_SECTOR)] *)
Definition write_superblock : FM unit :=
  b <- the_superblock ;;
  modify (fun s => mk_fstate
    (set_disk (set_pc_card (bios_sd_write 1 FS_FIRST_SECTOR (enc_superblock b) (pc_card (disk (fb s)))) (disk (fb s))) (fb s))
    (inodes s) (fdc s)).
(** [bios_sd_read((kva_t)&superblock, 1, FS_START_SECTOR)] *)
Definition read_superblock : FM unit :=
  l <- gets (fun s => bios_sd_read 1 FS_FIRST_SECTOR (pc_card (disk (fb s)))) ;;
  put_superblock (dec_superblock l).

(** ** [do_mkfs] *)
Definition new_superblock : superblock_t :=
  let block_map := 1 in
  let inode_map := u32 (block_map + NBLOCK_BLOCK_MAP) in
  let inode_table := u32 (inode_map + NBLOCK_INODE_MAP) in
  let data := u32 (inode_table + NBLOCK_INODE_TABLE) in
  let fs_size := u32 (FS_END_SECTOR - FS_FIRST_SECTOR) in
  mk_superblock SUPERBLOCK_MAGIC fs_size FS_FIRST_SECTOR ROOT_INODE block_map inode_table data NUM_INODES
    (u32 (fs_size / NSECTOR_BLOCK - data)) 0 0.

(** The loop that clears the maps and the inode table; the dots it prints are
    left out. *)
Fixpoint clear_loop (n : nat) (bnum : Z) : FM unit :=
  match n with
  | O => ret tt
  | S n => liftb (block_memset (i32 (u32 bnum)) 0) ;; clear_loop n (bnum + 1)
  end.
Definition clear_maps : FM unit :=
  b <- the_superblock ;;
  clear_loop (Z.to_nat (u32 (datablock_offset b - block_map_offset b))) (block_map_offset b).

Definition make_root : FM unit :=
  root_inode <- inode_alloc FS_TYPE_DIR ;;
  i <- get_inode root_inode ;;
  asserts (d_inode_num (node i) =? ROOT_INODE) "root inode number incorrect" ;;
  inode_open root_inode ;;
  upd_node root_inode (set_link_count 1) ;;
  r1 <- dir_link root_inode DOT ROOT_INODE ;;
  asserts (r1 =? 0) "failed to link . in root directory" ;;
  r2 <- dir_link root_inode DOTDOT ROOT_INODE ;;
  asserts (r2 =? 0) "failed to link .. in root directory" ;;
  upd_node root_inode (fun d => set_link_count (u16 (d_link_count d + 1)) d) ;;
  inode_close root_inode.

(** [failed]: the firmware could not write the superblock. *)
Definition do_mkfs (failed : bool) : FM Z :=
  liftd dcache_reset ;;
  put_superblock new_superblock ;;
  if failed then ret 1 else
  write_superblock ;;
  clear_maps ;;
  make_root ;;
  ret 0.

(** ** [do_cleanfs] *)

(** The bits of one byte of the open map block [blk], from bit [k] on; [first]
    is the number of the block of bit 0. *)
Fixpoint clean_bits (n : nat) (blk : nat) (j k first : Z) : M (bstate pcache) unit :=
  match n with
  | O => ret tt
  | S n =>
      byte <- load_byte blk j ;;
      (if bit_set byte k then
         sb <- gets superblock ;;
         block_memset (i32 (u32 (datablock_offset sb + u32 (first + j * 8 + k)))) 0
       else ret tt) ;;
      clean_bits n blk j (k + 1) first
  end.
Fixpoint clean_bytes (n : nat) (blk : nat) (j first : Z) : M (bstate pcache) unit :=
  match n with
  | O => ret tt
  | S n => clean_bits 8 blk j 0 first ;; clean_bytes n blk (j + 1) first
  end.
Fixpoint clean_loop (n : nat) (i : Z) : M (bstate pcache) unit :=
  match n with
  | O => ret tt
  | S n =>
      blk <- block_open (i32 i) ;;
      sb <- gets superblock ;;
      clean_bytes (Z.to_nat BLOCK_SIZE) blk 0 ((i - block_map_offset sb) * BLOCK_SIZE * 8) ;;
      block_close blk ;;
      clean_loop n (i + 1)
  end.
Definition do_cleanfs : FM Z :=
  b <- the_superblock ;;
  liftb (clean_loop (Z.to_nat (inode_offset b - block_map_offset b)) (block_map_offset b)) ;;
  clear_maps ;;
  ret 0.

(** ** Flushing and mounting *)
Definition on_cache (f : pcache → pcache) : FM unit :=
  modify (fun s => mk_fstate (set_disk (f (disk (fb s))) (fb s)) (inodes s) (fdc s)).
Definition flush_filesystem : FM unit :=
  write_superblock ;;
  liftb flush_block_cache ;;
  on_cache flush_fs_cache.

(** [do_remakefs] between pausing and resuming the daemons, up to the
    configuration files. *)
Definition do_remakefs (failed : bool) : FM Z :=
  do_cleanfs ;;
  flush_filesystem ;;
  do_mkfs failed ;;
  ret 0.

(** [init_fs] up to the configuration files and the daemons. *)
Definition init_fs (failed : bool) : FM unit :=
  init_inodes ;;
  liftd init_dentry_cache ;;
  on_cache init_fs_cache ;;
  read_superblock ;;
  b <- the_superblock ;;
  if negb (magic b =? SUPERBLOCK_MAGIC) then do_mkfs failed ;; ret tt else ret tt.
