(* ===== verification/MkfsTheorems.v ===== *)
(** * A formatted volume and its superblock

    [do_mkfs] leaves a volume with an empty root directory that satisfies what
    the directory layer requires, and a flushed volume is found again by the
    next boot. *)

From S2P Require Import Prelude Bytes Block BlockProofs BlockAlloc SdCard PageCache BlockTheorems Dcache Inode.
From S2P Require Import InodeLayout InodeMap InodeMapRun InodeIO InodeTheorems InodeHit Dir DirTheorems Fs FdTheorems InodeTable DirImage Mkfs.

(** ** The superblock sector *)
Record sb_wf (b : superblock_t) : Prop := { sw_fields : Forall (fun x => 0 ≤ x < 2 ^ 32) (sb_fields b) }.

Lemma enc_superblock_length b : length (enc_superblock b) = 512%nat.
Proof. reflexivity. Qed.

Lemma words_field l i x rest :
  l !! i = Some x → 0 ≤ x < 2 ^ 32 → field (4 * i) 4 (mjoin (le 4 <$> l) ++ rest) = x.
Proof.
  revert i. induction l as [|y l IH]; intros [|i] Hi Hx; try done; cbn [fmap list_fmap mjoin list_join]; rewrite <- app_assoc.
  - injection Hi as ->. unfold field. rewrite drop_0, take_app_length' by (symmetry; apply le_length). by apply unle_le_small.
  - rewrite <- (IH i Hi Hx). unfold field. replace (4 * S i)%nat with (4 + 4 * i)%nat by lia.
    by rewrite <- drop_drop, drop_app_length' by (symmetry; apply le_length).
Qed.

Lemma dec_enc_superblock b : sb_wf b → dec_superblock (enc_superblock b) = b.
Proof.
  intros [Hw]. rewrite Forall_lookup in Hw.
  assert (∀ i x, sb_fields b !! i = Some x → field (4 * i) 4 (enc_superblock b) = x) as Hf.
  { intros i x Hi. apply words_field; [done | by eapply Hw]. }
  destruct b as [f1 f2 f3 f4 f5 f6 f7 f8 f9 f10 f11]. unfold dec_superblock.
  f_equal; [apply (Hf 0%nat) | apply (Hf 1%nat) | apply (Hf 2%nat) | apply (Hf 3%nat) | apply (Hf 4%nat) | apply (Hf 5%nat)
    | apply (Hf 6%nat) | apply (Hf 7%nat) | apply (Hf 8%nat) | apply (Hf 9%nat) | apply (Hf 10%nat)]; reflexivity.
Qed.

(** Writing sector [k] leaves blocks that do not contain it. *)
Lemma sd_read_sector_apart k j v (d : sdcard) :
  k + 1 ≤ j ∨ j + NSECTOR_BLOCK ≤ k → bios_sd_read NSECTOR_BLOCK j (bios_sd_write 1 k v d) = bios_sd_read NSECTOR_BLOCK j d.
Proof.
  intros Hap. apply list_eq. intros i. rewrite !sd_read_lookup. case_decide; [|done].
  f_equal. unfold bios_sd_write, SECTOR_SIZE, NSECTOR_BLOCK in *.
  destruct (Z.leb_spec 0 (j * 512 + Z.of_nat i - k * 512)); cbn [andb]; [|done].
  rewrite (proj2 (Z.ltb_ge _ _)); [done|]. lia.
Qed.

(** Writing a block leaves sectors outside of it. *)
Lemma sd_sector_read_apart k j v (d : sdcard) :
  k + NSECTOR_BLOCK ≤ j ∨ j + 1 ≤ k → bios_sd_read 1 j (bios_sd_write NSECTOR_BLOCK k v d) = bios_sd_read 1 j d.
Proof.
  intros Hap. apply list_eq. intros i. rewrite !sd_read_lookup. case_decide; [|done].
  f_equal. unfold bios_sd_write, SECTOR_SIZE, NSECTOR_BLOCK in *.
  destruct (Z.leb_spec 0 (j * 512 + Z.of_nat i - k * 512)); cbn [andb]; [|done].
  rewrite (proj2 (Z.ltb_ge _ _)); [done|]. lia.
Qed.

(** No buffer holds the block of the superblock. *)
Definition no_super (bs : bstate pcache) : Prop := ∀ i c, blocks bs !! i = Some c → valid c = true → block_num c ≠ 0.

(** The superblock written below the page cache. *)
Definition put_super (v : list Z) (d : pcache) : pcache := set_pc_card (bios_sd_write 1 FS_FIRST_SECTOR v (pc_card d)) d.

Lemma put_super_bytes v d k : FS_FIRST_SECTOR + 1 ≤ k → block_bytes k (put_super v d) = block_bytes k d.
Proof.
  intros Hk. unfold block_bytes. cbn [put_super set_pc_card pages pc_card]. destruct (pages d !! k); [done|].
  apply sd_read_sector_apart. by left.
Qed.
Lemma put_super_apart v d k : FS_FIRST_SECTOR + 1 ≤ k → sread k (put_super v d) = sread k d.
Proof.
  intros Hk. unfold sread, pcache_store. destruct (policy (pagecache_config d)) eqn:E.
  - rewrite !read_back by done. by apply put_super_bytes.
  - rewrite !read_through by done. cbn [fst]. apply sd_read_sector_apart. by left.
Qed.

Lemma super_written (bs : bstate pcache) C held v :
  bst bs C held → start_sector (superblock bs) = FS_FIRST_SECTOR → no_super bs →
  let d := put_super v (disk bs) in
  bst (set_disk d bs) (<[0 := sread FS_FIRST_SECTOR d]> C) held.
Proof.
  intros [B1 B2 B3 B4 B5 B6] Hst Hno d. split; cbn [superblock blocks disk set_disk]; try done.
  - intros n Hn. destruct (decide (n = 0)) as [->|Hne]; [rewrite fn_lookup_insert; apply sread_length|].
    rewrite fn_lookup_insert_ne by done. by apply B3.
  - intros i c Hi Vc. rewrite fn_lookup_insert_ne by (intros E; by apply (Hno i c Hi Vc)). by apply (B5 i).
  - intros n Hn Hfree. destruct (B6 n Hn Hfree) as [E Ht]. split; [|done].
    pose proof (sector_of_small _ _ B1 Hn) as Es. rewrite Es in *. rewrite Hst in *.
    destruct (decide (n = 0)) as [->|Hne].
    + rewrite fn_lookup_insert. by rewrite Z.mul_0_l, Z.add_0_r.
    + rewrite fn_lookup_insert_ne by done. rewrite <- E. apply put_super_apart.
      unfold in_range, NSECTOR_BLOCK in *. lia.
Qed.

(** ** Formatting *)
Abbreviation NSB := new_superblock.

Lemma new_superblock_ok : sb_ok NSB.
Proof. exact mkfs_superblock_ok. Qed.

Lemma new_superblock_wf : sb_wf NSB.
Proof. split. repeat constructor; vm_compute; congruence. Qed.

(** The volume with the blocks [lo, lo + n) zeroed. *)
Definition cleared (lo : Z) (n : nat) (C : Z → list Z) : Z → list Z :=
  fun x => if decide (lo ≤ x < lo + Z.of_nat n) then zero_block else C x.

Lemma bst_ext (bs : bstate pcache) C C' held : (∀ x, C' x = C x) → bst bs C held → bst bs C' held.
Proof.
  intros E [B1 B2 B3 B4 B5 B6]. split; try done.
  - intros n Hn. rewrite E. by apply B3.
  - intros i c Hi Vc. rewrite E. by apply (B5 i).
  - intros n Hn Hf. rewrite E. by apply B6.
Qed.

Lemma clear_loop_run n (s : fstate pcache) C lo :
  bst (fb s) C [] → superblock (fb s) = NSB → 0 ≤ lo → lo + Z.of_nat n ≤ nblocks NSB →
  ∃ bs, clear_loop n lo s = Ok (tt, mk_fstate bs (inodes s) (fdc s)) ∧ bst bs (cleared lo n C) [] ∧ superblock bs = NSB.
Proof.
  revert s C lo. induction n as [|n IH]; intros s C lo Hb Hs Hlo Hn; cbn [clear_loop].
  - exists (fb s). split_and!; [by destruct s | | done]. eapply bst_ext; [|exact Hb]. intros x. unfold cleared. by rewrite decide_False by lia.
  - assert (nblocks NSB = 131072) as EN by reflexivity.
    assert (i32 (u32 lo) = lo) as ->.
    { unfold u32, wrap. rewrite Z.mod_small by lia. apply i32_id. lia. }
    destruct (block_memset_run (fb s) C [] lo 0 Hb) as (bs1 & R1 & Hb1 & E1 & _);
      [rewrite Hs; unfold in_range; lia | unfold BLOCK_CONCURRENCY; simpl; lia |].
    rewrite (bind_Ok _ _ _ _ _ (liftb_Ok _ s _ _ R1)).
    destruct (IH (mk_fstate bs1 (inodes s) (fdc s)) _ (lo + 1) Hb1) as (bs2 & R2 & Hb2 & E2); [cbn; congruence | lia | lia |].
    exists bs2. split_and!; [exact R2 | | done]. eapply bst_ext; [|exact Hb2]. intros x. unfold cleared, zero_block.
    repeat case_decide; try lia; try done.
    + assert (x = lo) as -> by lia. by rewrite fn_lookup_insert.
    + rewrite fn_lookup_insert_ne by lia. done.
Qed.

(** What the zeroed maps say. *)
Lemma zero_dinode j : d_type (dec_dinode (drop (Z.to_nat (INODE2OFFSET j * sizeof_diskinode)) zero_block)) = 0.
Proof.
  unfold dec_dinode. cbn [d_type]. unfold field, zero_block. rewrite drop_0, drop_replicate, take_replicate.
  destruct (Nat.min 2 _) as [|[|[|]]] eqn:E; try done. lia.
Qed.

Lemma zero_inodes C j :
  (∀ x, 1 ≤ x < 546 → C x = zero_block) → 0 ≤ j < inode_count NSB → d_type (disk_inode NSB C j) = 0.
Proof.
  intros Hz Hj. destruct (inode_block_range NSB j new_superblock_ok Hj) as (_ & Hx & _).
  change (inode_offset NSB) with 34 in Hx. change (datablock_offset NSB) with 546 in Hx.
  unfold disk_inode. rewrite Hz by lia. apply zero_dinode.
Qed.

Lemma zero_map C : (∀ x, 1 ≤ x < 34 → C x = zero_block) → first_free NSB C ≠ None.
Proof.
  intros Hz Hfull. pose proof (first_free_full NSB C Hfull 0 ltac:(change (block_count NSB) with 130526; lia)) as Hbit.
  unfold map_bit in Hbit. change (map_block NSB 0) with 1 in Hbit. rewrite Hz in Hbit by lia. vm_compute in Hbit. done.
Qed.

(** The root directory: two entries, both for the root itself. *)
Definition root_entries (n : diskinode_t) (C : Z → list Z) : Prop := dot_entries n C ROOT_INODE ROOT_INODE.

(** The inode of the root, opened and given its first link. *)
Definition root_inode0 : inode_t := mk_inode (set_link_count 1 (new_dinode FS_TYPE_DIR 1)) true 1 true.

Lemma root_alloc_run (s : fstate pcache) C :
  bsg NSB (fb s) C [] → inodes s = replicate NINODE empty_inode → dcache_holds (fdc s) ∅ →
  (∀ x, 1 ≤ x < 546 → C x = zero_block) →
  ∃ s' C', (∀ A (K : nat → M (fstate pcache) A),
      (root <- inode_alloc FS_TYPE_DIR ;; i <- get_inode root ;;
       asserts (d_inode_num (node i) =? ROOT_INODE) "root inode number incorrect" ;;
       inode_open root ;; upd_node root (set_link_count 1) ;; K root) s = K 0%nat s') ∧
    dir_ok NSB s' C' 0 root_inode0 ∧ inodes s' = <[0%nat := root_inode0]> (replicate NINODE empty_inode) ∧
    dcache_holds (fdc s') ∅ ∧ first_free NSB C' ≠ None ∧
    (∀ j, 0 ≤ j < inode_count NSB → j ≠ 1 → d_type (disk_inode NSB C' j) = 0).
Proof.
  intros Hb Hi Hc Hz. assert (inode_count NSB = 32768) as EC by reflexivity.
  assert (0 ≤ 1 < inode_count NSB) as H1 by lia.
  destruct (inode_alloc_run NSB s C 1 FS_TYPE_DIR Hb) as (bs1 & R1 & Hb1);
    [set_solver | lia | lia | apply zero_inodes; [done | lia] |].
  set (n0 := new_dinode FS_TYPE_DIR 1) in *. set (C1 := stored NSB n0 C) in *.
  set (i1 := mk_inode (set_inode_num 1 empty_dinode) false 1 false).
  set (s1 := mk_fstate bs1 (<[0%nat := i1]> (replicate NINODE empty_inode)) (fdc s)).
  assert (inode_alloc FS_TYPE_DIR s = Ok (0%nat, s1)) as Ra.
  { rewrite R1. unfold inode_ref, gets. cbn [bind inodes]. rewrite Hi.
    change (ref_scan (replicate NINODE empty_inode) 0 (u32 1) None) with (inr (Some 0%nat) : nat + option nat). cbn iota.
    by rewrite (bind_Ok _ _ _ _ _ (upd_inode_run (mk_fstate bs1 (replicate NINODE empty_inode) (fdc s)) 0 empty_inode _ eq_refl)). }
  assert (∀ j, 0 ≤ j < inode_count NSB → disk_inode NSB C1 j = if decide (j = 1) then n0 else disk_inode NSB C j) as Him1.
  { intros j Hj. apply (stored_image NSB (fb s)); [done | exact H1 | by apply new_dinode_wf | done]. }
  assert (disk_inode NSB C1 1 = n0) as Ed1 by (rewrite Him1 by lia; by rewrite decide_True).
  destruct (open_load_run NSB s1 C1 0 i1 Hb1 eq_refl) as (bs2 & R2 & Hb2);
    [done | done | exact H1 | cbn [i1 node set_inode_num d_inode_num]; by rewrite Ed1 |].
  cbn [i1 node set_inode_num d_inode_num ref_count] in R2. rewrite Ed1 in R2.
  set (s2 := mk_fstate bs2 (<[0%nat := root_inode0]> (replicate NINODE empty_inode)) (fdc s)).
  exists s2, C1. split_and!.
  - intros A K. rewrite (bind_Ok _ _ _ _ _ Ra), (bind_Ok _ _ _ _ _ (get_inode_run s1 0 i1 eq_refl)).
    rewrite (bind_Ok _ _ s1 tt s1) by done. by rewrite (bind_Ok _ _ _ _ _ R2).
  - apply (empty_dir_ok NSB s2 C1 0 root_inode0 ∅);
      [exact Hb2 | done | done | exact H1 | done | done | | exact Hc | intros nm; apply lookup_empty | done..].
    destruct (new_dinode_wf FS_TYPE_DIR 1 ltac:(lia)). by split.
  - done.
  - exact Hc.
  - apply zero_map. intros x Hx. unfold C1, stored. rewrite fn_lookup_insert_ne; [apply Hz; lia|].
    pose proof (stored_block NSB n0 C new_superblock_ok H1) as Hr. change (inode_offset NSB) with 34 in Hr. lia.
  - intros j Hj Hne. rewrite Him1, decide_False by done. by apply zero_inodes.
Qed.

(** Storing the image of a directory leaves its entries and its cache. *)
Lemma stored_entries b C n d :
  sb_ok b → 0 ≤ d_inode_num n < inode_count b → dir_image b C n → cache_ok d n C →
  (∀ nm k, named n (stored b n C) nm k ↔ named n C nm k) ∧
  (∀ k, 0 ≤ k < entries n → entry_at n (stored b n C) k = entry_at n C k) ∧ cache_ok d n (stored b n C).
Proof.
  intros Hb Hn Himg (m & Hm & Htrue). pose proof (stored_block b n C Hb Hn) as Hx. pose proof (wf_size _ (di_wf _ _ _ Himg)) as Hsz.
  assert (∀ nm k, named n (stored b n C) nm k ↔ named n C nm k) as Hnamed.
  { intros nm k. apply (meta_named b); [exact Hx | apply Himg | lia]. }
  assert (∀ k, 0 ≤ k < entries n → entry_at n (stored b n C) k = entry_at n C k) as Hent.
  { intros k Hk. apply (meta_entry b); [exact Hx | apply Himg | exact Hk | lia]. }
  split_and!; [exact Hnamed | exact Hent |]. exists m. split; [exact Hm|]. intros nm e off He.
  destruct (Htrue nm e off He) as (k & Hk & Eo & Ee & Ek). exists k. pose proof Hk as [Hk0 _].
  split_and!; [exact (proj2 (Hnamed nm k) Hk) | exact Eo | by rewrite Hent | exact Ek].
Qed.

(** The second link of the root, and its release. *)
Lemma root_close_run (s : fstate pcache) C n :
  dir_ok NSB s C 0 (set_node n root_inode0) → inodes s = <[0%nat := set_node n root_inode0]> (replicate NINODE empty_inode) →
  d_link_count n = 1 → d_inode_num n = ROOT_INODE → root_entries n C →
  let root := set_link_count 2 n in
  ∃ s', (upd_node 0 (fun d => set_link_count (u16 (d_link_count d + 1)) d) ;; inode_close 0) s = Ok (tt, s') ∧
    bsg NSB (fb s') (stored NSB root C) [] ∧ inodes s' = replicate NINODE empty_inode ∧ fdc s' = fdc s ∧
    dir_image NSB (stored NSB root C) root ∧ root_entries root (stored NSB root C) ∧
    cache_ok (fdc s') root (stored NSB root C) ∧
    (∀ j, 0 ≤ j < inode_count NSB → disk_inode NSB (stored NSB root C) j = if decide (j = ROOT_INODE) then root else disk_inode NSB C j).
Proof.
  intros Hd Ei El Em (E & Hd0 & Hd1 & N0 & N1) root.
  pose proof (fo_bsg _ _ _ _ _ (do_file _ _ _ _ _ Hd)) as Hb. pose proof (fo_slot _ _ _ _ _ (do_file _ _ _ _ _ Hd)) as Hi.
  pose proof (dir_image_link NSB C 2 n ltac:(lia) (dir_ok_image _ _ _ _ _ Hd)) as Himg. fold root in Himg.
  assert (0 ≤ d_inode_num root < inode_count NSB) as Hn.
  { change (0 ≤ d_inode_num n < inode_count NSB). rewrite Em. vm_compute. split; congruence. }
  set (i1 := set_node root root_inode0). set (s1 := mk_fstate (fb s) (<[0%nat := i1]> (inodes s)) (fdc s)).
  assert (inodes s1 !! 0%nat = Some i1) as Hi1 by (apply list_lookup_insert_eq; by eapply lookup_lt_Some).
  destruct (close_run NSB s1 C 0 i1 Hb Hi1) as (bs & R & Hb'); [done | done | done | done | exact Hn | apply Himg |].
  cbn [i1 set_node root_inode0 ref_count node] in R, Hb'. change (1 =? 1) with true in R, Hb'. cbn iota in R, Hb'.
  destruct (stored_entries NSB C root (fdc s) new_superblock_ok Hn Himg) as (Hnm & Hen & Hca); [exact (do_cache _ _ _ _ _ Hd)|].
  exists (mk_fstate bs (<[0%nat := empty_inode]> (inodes s1)) (fdc s1)). split_and!.
  - rewrite (bind_Ok _ _ _ _ _ (upd_node_run s 0 _ _ Hi)). cbn [node set_node].
    replace (set_link_count (u16 (d_link_count n + 1)) n) with root by (unfold root; by rewrite El). exact R.
  - exact Hb'.
  - cbn [inodes s1]. rewrite Ei, !list_insert_insert_eq. reflexivity.
  - done.
  - apply stored_dir; [apply new_superblock_ok | exact Hn | exact Himg].
  - unfold root_entries, dot_entries. rewrite !Hen by (change (entries root) with (entries n); lia).
    exact (conj E (conj (proj2 (Hnm DOT 0) Hd0) (conj (proj2 (Hnm DOTDOT 1) Hd1) (conj N0 N1)))).
  - exact Hca.
  - intros j Hj. rewrite (stored_image NSB (fb s) C root j Hb Hn (di_wf _ _ _ Himg) Hj).
    change (d_inode_num root) with (d_inode_num n). by rewrite Em.
Qed.

(** The cache knows nothing but entries of the root. *)
Definition root_cached (d : dcache) : Prop := ∃ m, dcache_holds d m ∧ ∀ j nm, j ≠ ROOT_INODE → m !! (j, nm) = None.

Lemma make_root_run (s : fstate pcache) C :
  bsg NSB (fb s) C [] → inodes s = replicate NINODE empty_inode → dcache_holds (fdc s) ∅ →
  (∀ x, 1 ≤ x < 546 → C x = zero_block) →
  ∃ s' C' root, make_root s = Ok (tt, s') ∧ bsg NSB (fb s') C' [] ∧ inodes s' = replicate NINODE empty_inode ∧
    disk_inode NSB C' ROOT_INODE = root ∧ dir_image NSB C' root ∧ root_entries root C' ∧ cache_ok (fdc s') root C' ∧
    root_cached (fdc s') ∧ d_link_count root = 2 ∧ d_inode_num root = ROOT_INODE ∧
    (∀ j, 0 ≤ j < inode_count NSB → j ≠ ROOT_INODE → d_type (disk_inode NSB C' j) = 0).
Proof.
  intros Hb Hi Hc Hz. destruct (root_alloc_run s C Hb Hi Hc Hz) as (s1 & C1 & R1 & Hd1 & Ei1 & Hc1 & Hfree & Hty).
  destruct (link_dots NSB s1 C1 0 root_inode0 ROOT_INODE ROOT_INODE Hd1) as (s2 & s3 & C3 & n3 & R2 & R3 & [D1 D2 D3 D4 D5 _ D7]);
    [done..|].
  rewrite Ei1, list_insert_insert_eq in D2. destruct D4 as (_ & El & Em).
  destruct (root_close_run s3 C3 n3 D1 D2 El Em D3) as (s4 & R4 & Hb4 & Ei4 & Ed4 & Himg & Hent & Hca & Him4).
  exists s4, (stored NSB (set_link_count 2 n3) C3), (set_link_count 2 n3).
  split_and!; [|exact Hb4 | exact Ei4 | | exact Himg | exact Hent | exact Hca | | done | exact Em |].
  - unfold make_root. rewrite R1, (bind_Ok _ _ _ _ _ R2), (bind_Ok _ _ s2 tt s2) by done.
    rewrite (bind_Ok _ _ _ _ _ R3), (bind_Ok _ _ s3 tt s3) by done. exact R4.
  - rewrite Him4; [by rewrite decide_True | vm_compute; split; congruence].
  - destruct (D7 ∅ Hc1) as (m & Hm & Eo). rewrite <- Ed4 in Hm. exists m. split; [exact Hm|].
    intros j nm Hj. rewrite Eo by exact Hj. apply lookup_empty.
  - intros j Hj Hne. rewrite Him4, decide_False by done. rewrite D5, decide_False by done. by apply Hty.
Qed.

(** A volume that holds nothing but its root directory. *)
Record formatted (s : fstate pcache) C (root : diskinode_t) : Prop := {
  fm_bsg : bsg new_superblock (fb s) C [];
  fm_inodes : inodes s = replicate NINODE empty_inode;
  fm_root : disk_inode new_superblock C ROOT_INODE = root;
  fm_dir : dir_image new_superblock C root;
  fm_entries : root_entries root C;
  fm_cache : cache_ok (fdc s) root C;
  fm_cached : root_cached (fdc s);
  fm_link : d_link_count root = 2;
  fm_num : d_inode_num root = ROOT_INODE;
  fm_free j : 0 ≤ j < inode_count new_superblock → j ≠ ROOT_INODE → d_type (disk_inode new_superblock C j) = 0;
}.

Lemma mkfs_run (s : fstate pcache) C m :
  bst (set_superblock new_superblock (fb s)) C [] → no_super (fb s) →
  inodes s = replicate NINODE empty_inode → dcache_holds (fdc s) m →
  ∃ s' C' root, do_mkfs false s = Ok (0, s') ∧ formatted s' C' root.
Proof.
  intros Hb Hno Hi Hc. destruct Hc as (Hl & _ & Ht).
  destruct (reset_run (fdc s) m Hl) as (d1 & R1 & Hc1 & _); [by destruct (dcache_table (fdc s))|].
  set (bs1 := set_superblock NSB (fb s)) in *.
  pose proof (super_written bs1 C [] (enc_superblock NSB) Hb eq_refl Hno) as Hb2. cbv zeta in Hb2.
  set (C2 := <[0 := _]> C) in Hb2. set (bs2 := set_disk _ bs1) in Hb2.
  destruct (clear_loop_run 545 (mk_fstate bs2 (inodes s) d1) C2 1 Hb2) as (bs3 & R3 & Hb3 & E3);
    [done | lia | vm_compute; congruence |].
  destruct (make_root_run (mk_fstate bs3 (inodes s) d1) (cleared 1 545 C2)) as (s4 & C4 & root & R4 & Hrest).
  { split; [exact Hb3|]. cbn [fb]. rewrite E3. apply geo_refl. }
  { exact Hi. } { exact Hc1. } { intros x Hx. unfold cleared. by rewrite decide_True by lia. }
  exists s4, C4, root. split; [|destruct Hrest as (? & ? & ? & ? & ? & ? & ? & ? & ? & ?); by split]. unfold do_mkfs.
  rewrite (bind_Ok _ _ _ _ _ (liftd_Ok _ s _ _ R1)). unfold put_superblock, modify at 1. cbn [bind].
  rewrite (bind_Ok _ _ _ tt (mk_fstate bs2 (inodes s) d1)) by done.
  rewrite (bind_Ok _ _ _ tt (mk_fstate bs3 (inodes s) d1)) by exact R3. by rewrite (bind_Ok _ _ _ _ _ R4).
Qed.

(** C12 Formatting makes a file system: from a card behind empty or consistent
    buffers, an empty inode table and any entry cache, [do_mkfs] returns 0 and
    leaves a volume whose inode 1 is a directory with the two entries "." and
    ".." for itself and link count 2, well formed and without holes as the
    directory layer requires it, whose other inodes are all free, with the
    inode table empty and the entry cache truthful. *)
Theorem do_mkfs_correct (s : fstate pcache) C m :
  bst (set_superblock new_superblock (fb s)) C [] → no_super (fb s) →
  inodes s = replicate NINODE empty_inode → dcache_holds (fdc s) m →
  ∃ s' C' root, do_mkfs false s = Ok (0, s') ∧ bsg new_superblock (fb s') C' [] ∧
    inodes s' = replicate NINODE empty_inode ∧
    disk_inode new_superblock C' ROOT_INODE = root ∧ dir_image new_superblock C' root ∧ root_entries root C' ∧
    cache_ok (fdc s') root C' ∧ d_link_count root = 2 ∧ d_inode_num root = ROOT_INODE ∧
    (∀ j, 0 ≤ j < inode_count new_superblock → j ≠ ROOT_INODE → d_type (disk_inode new_superblock C' j) = 0).
Proof.
  intros Hb Hno Hi Hc. destruct (mkfs_run s C m Hb Hno Hi Hc) as (s' & C' & root & R & []).
  exists s', C', root. by split_and!.
Qed.

(** ** The next boot *)

(** The table of a kernel that has just been started: all zeroes. *)
Definition zero_inode : inode_t := mk_inode (mk_dinode 0 0 0 0 0 (replicate 10 0) 0 0) false 0 false.
(** The page cache of a kernel that starts on the card [c]: write-back is policy 0. *)
Definition boot_cache (c : sdcard) : pcache := mk_pcache c (mk_config POLICY_WRITE_BACK 0) ∅ false.
Definition boot_state (c : sdcard) : fstate pcache :=
  mk_fstate (mk_bstate (mk_superblock 0 0 0 0 0 0 0 0 0 0 0) empty_blocks (boot_cache c)) (replicate NINODE zero_inode)
    (mk_dcache None false false []).

Lemma init_inodes_run n k (bs : bstate pcache) dc :
  foldr (fun p m => inode_clear p ;; m) (ret tt) (seq k n)
    (mk_fstate bs (replicate k empty_inode ++ replicate n zero_inode) dc) =
  Ok (tt, mk_fstate bs (replicate (k + n) empty_inode) dc).
Proof.
  revert k. induction n as [|n IH]; intros k; cbn [seq foldr].
  { by rewrite app_nil_r, Nat.add_0_r. }
  set (s := mk_fstate _ _ _). assert (inodes s !! k = Some zero_inode) as Hk.
  { cbn [s inodes]. rewrite lookup_app_r by (by rewrite length_replicate). by rewrite length_replicate, Nat.sub_diag. }
  assert (inode_clear k s = Ok (tt, mk_fstate bs (replicate (S k) empty_inode ++ replicate n zero_inode) dc)) as R.
  { unfold inode_clear. rewrite (bind_Ok _ _ _ _ _ (get_inode_run _ _ _ Hk)). rewrite (bind_Ok _ _ s tt s) by done.
    rewrite (bind_Ok _ _ s tt s) by done. rewrite (put_inode_run s k _ _ Hk). cbn [s fb inodes fdc]. do 3 f_equal.
    rewrite insert_app_r_alt by (by rewrite length_replicate). rewrite length_replicate, Nat.sub_diag.
    replace (S k) with (k + 1)%nat by lia. rewrite replicate_add, <- app_assoc. done. }
  rewrite (bind_Ok _ _ _ _ _ R). replace (k + S n)%nat with (S k + n)%nat by lia. exact (IH (S k)).
Qed.

Lemma sd_read_first k (d : sdcard) : bios_sd_read 1 k d = take 512 (bios_sd_read NSECTOR_BLOCK k d).
Proof.
  apply list_eq. intros i. destruct (decide (i < 512)%nat) as [Hi|Hi].
  - rewrite lookup_take_lt by done. rewrite !sd_read_lookup. unfold SECTOR_SIZE, NSECTOR_BLOCK. by rewrite !decide_True by lia.
  - rewrite lookup_take_ge by lia. rewrite sd_read_lookup, decide_False; [done|]. unfold SECTOR_SIZE. lia.
Qed.

(** The blocks of the volume behind the superblock are pages of the cache. *)
Lemma volume_key b n : sb_ok b → start_sector b = FS_FIRST_SECTOR → in_range b n → n ≠ 0 → page_key (sector_of b n).
Proof.
  intros Hb Hs Hn Hne. rewrite sector_of_small, Hs by done. unfold in_range in Hn. unfold page_key, NSECTOR_BLOCK.
  change FS_FIRST_SECTOR with (131072 * 8). split; [|lia]. rewrite <- Z.mul_add_distr_r. apply Z.mod_mul. lia.
Qed.

(** The write-back of the buffers leaves the page cache in order. *)
Lemma flush_loop_cache bs (s s' : bstate pcache) :
  flush_loop bs s = Ok (tt, s') →
  (∀ c, c ∈ bs → valid c = true → page_key (sector_of (superblock s) (block_num c))) →
  cache_settled (disk s) → (size (pages (disk s)) + length bs ≤ CACHE_ROOM)%nat →
  cache_settled (disk s') ∧ overrun (disk s') = overrun (disk s).
Proof.
  revert s. induction bs as [|c bs IH]; intros s R Hk Hd Hsz; cbn [flush_loop length] in *.
  { injection R as <-. done. }
  destruct (valid c) eqn:V; [|apply IH; [exact R | intros; apply Hk; [by right | done] | done | lia]].
  set (k := sector_of (superblock s) (block_num c)) in *.
  rewrite (bind_Ok _ _ s tt (set_disk (cached_block_write k (data c) (disk s)) s)) in R by done.
  destruct (write_settled k (data c) (disk s) Hd) as (Hd1 & Hsz1 & Eo); [apply Hk; [by left | done] | lia |].
  rewrite <- Eo. apply (IH _ R); [intros; apply Hk; [by right | done] | exact Hd1 | cbn [set_disk disk]; lia].
Qed.

(** The superblock is found behind a settled cache. *)
Lemma super_found d b : cache_settled d → sb_wf b →
  sread FS_FIRST_SECTOR (put_super (enc_superblock b) d) = bios_sd_read NSECTOR_BLOCK FS_FIRST_SECTOR (pc_card (put_super (enc_superblock b) d)) ∧
  dec_superblock (take 512 (sread FS_FIRST_SECTOR (put_super (enc_superblock b) d))) = b.
Proof.
  intros Hd Hwf. assert (cache_settled (put_super (enc_superblock b) d)) as Hd' by (destruct Hd; by split).
  assert (sread FS_FIRST_SECTOR (put_super (enc_superblock b) d) =
    bios_sd_read NSECTOR_BLOCK FS_FIRST_SECTOR (pc_card (put_super (enc_superblock b) d))) as E.
  { unfold sread, pcache_store. rewrite settled_read by done. unfold block_bytes.
    destruct (pages _ !! FS_FIRST_SECTOR) as [p|] eqn:Ep; [|done]. destruct (ct_keys _ Hd' _ _ Ep) as [_ Hk]. unfold NSECTOR_BLOCK in Hk. lia. }
  split; [exact E|]. rewrite E, <- sd_read_first. cbn [put_super set_pc_card pc_card].
  rewrite sd_read_write by reflexivity. by apply dec_enc_superblock.
Qed.

(** [init_fs] on a card with a volume. *)
Lemma init_fs_run failed c b :
  dec_superblock (bios_sd_read 1 FS_FIRST_SECTOR c) = b → magic b = SUPERBLOCK_MAGIC →
  ∃ dc, init_fs failed (boot_state c) =
    Ok (tt, mk_fstate (mk_bstate b empty_blocks (init_fs_cache (boot_cache c))) (replicate NINODE empty_inode) dc) ∧ dcache_holds dc ∅.
Proof.
  intros Edec Hmg. destruct (init_run (mk_dcache None false false []) ∅) as (dc & Rd & Hd & _); [done | done |].
  exists dc. split; [|exact Hd]. unfold init_fs, init_inodes, boot_state. rewrite (bind_Ok _ _ _ _ _ (init_inodes_run NINODE 0 _ _)).
  rewrite (bind_Ok _ _ _ _ _ (liftd_Ok _ (mk_fstate _ _ (mk_dcache None false false [])) _ _ Rd)).
  unfold on_cache, read_superblock, put_superblock, gets, modify.
  cbn [bind fb disk set_disk superblock blocks inodes fdc boot_cache init_fs_cache pc_card]. rewrite Edec.
  unfold the_superblock, gets, set_superblock. cbn [bind fb superblock blocks disk]. rewrite Hmg. reflexivity.
Qed.

(** C13 A flushed volume survives a restart. [flush_filesystem] writes the
    superblock, the buffers and the pages of the page cache, under either policy, and
    leaves every block readable as it was; a kernel
    that then boots on the card, with an empty write-back cache, finds the magic number,
    formats nothing, reads back
    the same superblock and sees every block of the volume as it was when it
    was flushed, dirty buffers and dirty pages included. Asked of the state: a formatted volume at
    [FS_START_SECTOR] whose blocks nobody holds open, the superblock's block in no buffer, and a page cache that holds
    blocks of the volume only (not the superblock's), nothing under write-through, and has frames left
    for the eight buffers, so that no page is given up. *)
Theorem flush_survives_restart (s : fstate pcache) C :
  bst (fb s) C [] → no_super (fb s) → start_sector (superblock (fb s)) = FS_FIRST_SECTOR →
  magic (superblock (fb s)) = SUPERBLOCK_MAGIC → sb_wf (superblock (fb s)) → in_range (superblock (fb s)) 0 →
  cache_settled (disk (fb s)) → (size (pages (disk (fb s))) + BLOCK_CONCURRENCY ≤ CACHE_ROOM)%nat →
  ∃ s', flush_filesystem s = Ok (tt, s') ∧ overrun (disk (fb s')) = overrun (disk (fb s)) ∧ pages (disk (fb s')) = ∅ ∧
    (∀ n, in_range (superblock (fb s)) n → n ≠ 0 → sread (sector_of (superblock (fb s)) n) (disk (fb s')) = C n) ∧
  ∀ failed, ∃ s'' C'', init_fs failed (boot_state (pc_card (disk (fb s')))) = Ok (tt, s'') ∧
    superblock (fb s'') = superblock (fb s) ∧ bst (fb s'') C'' [] ∧
    (∀ n, in_range (superblock (fb s)) n → n ≠ 0 → C'' n = C n) ∧
    inodes s'' = replicate NINODE empty_inode ∧ dcache_holds (fdc s'') ∅.
Proof.
  intros Hb Hno Hst Hmg Hwf H0 Hd Hroom. set (b := superblock (fb s)) in *. pose proof (bs_sb _ _ _ Hb) as Hsb. fold b in Hsb.
  pose proof (super_written (fb s) C [] (enc_superblock b) Hb Hst Hno) as Hb1. cbv zeta in Hb1.
  destruct (super_found _ b Hd Hwf) as [_ Edec]. set (d1 := put_super (enc_superblock b) (disk (fb s))) in *.
  set (C1 := <[0 := sread FS_FIRST_SECTOR d1]> C) in *.
  destruct (flush_run (set_disk d1 (fb s)) C1 [] Hb1) as (d2 & R2 & _ & Hread).
  change (superblock (set_disk d1 (fb s))) with b in Hread.
  assert (∀ n, sector_of b n mod NSECTOR_BLOCK = 0 ∨ ¬ in_range b n) as Hal.
  { intros n. destruct (decide (in_range b n)) as [Hn|]; [left|by right]. rewrite sector_of_small, Hst by done.
    change FS_FIRST_SECTOR with (131072 * NSECTOR_BLOCK). rewrite <- Z.mul_add_distr_r. by apply Z.mod_mul. }
  destruct (flush_loop_cache (blocks (fb s)) (set_disk d1 (fb s)) _ R2) as [Hd2 Eo].
  { intros c Hc V. apply list_elem_of_lookup_1 in Hc as [i Hi]. destruct (bs_valid _ _ _ Hb _ _ Hi V) as [Hn _].
    apply (volume_key b); [done | done | done | by apply (Hno i)]. }
  { destruct Hd; by split. } { rewrite (bs_len _ _ _ Hb). exact Hroom. }
  cbn [set_disk disk] in Hd2, Eo. set (d3 := flush_fs_cache d2).
  assert (∀ n, in_range b n → bios_sd_read NSECTOR_BLOCK (sector_of b n) (pc_card d3) = C1 n ∧ sread (sector_of b n) d3 = C1 n) as Hfin.
  { intros n Hn. destruct (flush_moves (sector_of b n) d2 Hd2) as [E1 E2]; [by destruct (Hal n)|].
    unfold d3, sread, pcache_store. rewrite E1, E2. split; by apply Hread. }
  exists (mk_fstate (set_disk d3 (set_disk d2 (set_disk d1 (fb s)))) (inodes s) (fdc s)). split_and!; [|exact Eo | done | |].
  { unfold flush_filesystem. rewrite (bind_Ok _ _ s tt (mk_fstate (set_disk d1 (fb s)) (inodes s) (fdc s))) by done.
    by rewrite (bind_Ok _ _ _ _ _ (liftb_Ok _ (mk_fstate (set_disk d1 (fb s)) (inodes s) (fdc s)) _ _ R2)). }
  { intros n Hn Hne. cbn [fb disk set_disk]. rewrite (proj2 (Hfin n Hn)). unfold C1. by rewrite fn_lookup_insert_ne. }
  intros failed. cbn [fb disk set_disk].
  assert (dec_superblock (bios_sd_read 1 FS_FIRST_SECTOR (pc_card d3)) = b) as Eb.
  { destruct (Hfin 0 H0) as [E0 _]. rewrite (sector_of_small b 0 Hsb H0), Hst, Z.mul_0_l, Z.add_0_r in E0.
    rewrite sd_read_first, E0. unfold C1. rewrite fn_lookup_insert. exact Edec. }
  destruct (init_fs_run failed _ b Eb Hmg) as (dc & R & Hdc).
  eexists _, (fun n => sread (sector_of b n) (init_fs_cache (boot_cache (pc_card d3)))).
  split_and!; [exact R | reflexivity | by apply bst_boot | | reflexivity | exact Hdc].
  intros n Hn Hne. unfold sread, pcache_store. rewrite read_back by done. unfold block_bytes. cbn [init_fs_cache pages pc_card boot_cache].
  rewrite lookup_empty, (proj1 (Hfin n Hn)). unfold C1. by rewrite fn_lookup_insert_ne.
Qed.

(** ** A blank card *)
Definition blank_fs : fstate pcache :=
  mk_fstate (mk_bstate (mk_superblock 0 0 0 0 0 0 0 0 0 0 0) empty_blocks (boot_cache (fun _ => 0))) (replicate NINODE empty_inode)
    (mk_dcache None false true []).

Lemma no_super_empty b d : no_super (mk_bstate b empty_blocks d).
Proof. intros i c [-> _]%lookup_replicate. done. Qed.

Lemma blank_mkfs_run : ∃ s' C' root, do_mkfs false blank_fs = Ok (0, s') ∧ formatted s' C' root.
Proof.
  apply (mkfs_run blank_fs (fun n => sread (sector_of new_superblock n) (boot_cache (fun _ => 0))) ∅);
    [exact (bst_boot _ _ new_superblock_ok) | apply no_super_empty | reflexivity | split_and!; reflexivity].
Qed.

Lemma do_mkfs_correct_witness : ∃ s' C' root, do_mkfs false blank_fs = Ok (0, s') ∧
  disk_inode new_superblock C' 1 = root ∧ root_entries root C'.
Proof.
  destruct (do_mkfs_correct blank_fs (fun n => sread (sector_of new_superblock n) (boot_cache (fun _ => 0))) ∅)
    as (s' & C' & root & R & _ & _ & E & _ & He & _);
    [exact (bst_boot _ _ new_superblock_ok) | apply no_super_empty | reflexivity | split_and!; reflexivity |].
  exists s', C', root. exact (conj R (conj E He)).
Defined.

(** A volume whose block 40 is dirty in the page cache. *)
Definition dirty_cache : pcache := cached_block_write (sector_of demo_superblock 40) (replicate (Z.to_nat BLOCK_SIZE) 7) (boot_cache (fun _ => 0)).
Definition dirty_fs : fstate pcache :=
  mk_fstate (mk_bstate demo_superblock empty_blocks dirty_cache) (replicate NINODE empty_inode) (mk_dcache None false true []).

Lemma dirty_settled : cache_settled dirty_cache.
Proof.
  apply (write_settled (sector_of demo_superblock 40) _ (boot_cache (fun _ => 0))).
  - split; [|done]. intros k p Hk. cbn [boot_cache pages] in Hk. by rewrite lookup_empty in Hk.
  - split; vm_compute; congruence.
  - unfold boot_cache. cbn [pages]. rewrite map_size_empty. vm_compute. lia.
Qed.

Lemma flush_survives_restart_witness : ∃ s', flush_filesystem dirty_fs = Ok (tt, s') ∧
  ∃ s'' C'', init_fs false (boot_state (pc_card (disk (fb s')))) = Ok (tt, s'') ∧ superblock (fb s'') = demo_superblock ∧
    bst (fb s'') C'' [] ∧ C'' 40 = replicate (Z.to_nat BLOCK_SIZE) 7.
Proof.
  destruct (flush_survives_restart dirty_fs (fun n => sread (sector_of demo_superblock n) dirty_cache)) as (s' & R & _ & _ & _ & Hboot);
    [apply bst_boot, demo_superblock_ok | apply no_super_empty | reflexivity | reflexivity
    | split; repeat constructor; vm_compute; congruence | vm_compute; split; congruence | exact dirty_settled | vm_compute; lia |].
  exists s'. split; [exact R|]. destruct (Hboot false) as (s'' & C'' & R' & E & Hb & HC & _). exists s'', C''.
  split; [exact R' | split; [exact E | split; [exact Hb|]]].
  rewrite HC; [apply cached_read_write; reflexivity | vm_compute; split; congruence | discriminate].
Defined.
