(* ===== verification/PathTheorems.v ===== *)
(** * Resolving a path walks the directory tree

    The state between two calls of the file system, one inode in hand, is
    described by [fs_rest]; the loop of [path_resolve] keeps it and follows an
    abstract tree of names. *)

From S2P Require Import Prelude Bytes CString Block BlockProofs BlockAlloc SdCard PageCache BlockTheorems Dcache Inode.
From S2P Require Import InodeLayout InodeMap InodeMapRun InodeIO InodeTheorems InodeHit Dir DirTheorems Fs FdTheorems InodeTable DirImage Mkfs MkfsTheorems.

(** ** The abstract tree *)
Record ftree := mk_ftree {
  t_dir : Z → bool;
  t_child : Z → list Z → option Z;
}.

(** Walk the components from [cur]; with [skip_last], stop at the directory of
    the last one. The result is the inode and the last name. *)
Fixpoint t_resolve (T : ftree) (cur : Z) (comps : list (list Z)) (nm : list Z) (skip_last : bool) : option (Z * list Z) :=
  match comps with
  | [] => if skip_last then None else Some (cur, nm)
  | c :: cs =>
      let nm := take (Z.to_nat MAX_FILE_NAME) c in
      if t_dir T cur then
        if skip_last && bool_decide (cs = []) then Some (cur, nm)
        else match t_child T cur (key_name nm) with
             | Some j => t_resolve T j cs nm skip_last
             | None => None
             end
      else None
  end.

(** A path from the root when it starts with a slash, else from [cwd]; the
    empty path is [cwd] itself. *)
Definition t_path (T : ftree) (root cwd : Z) (path : list Z) (skip_last : bool) : option (Z * list Z) :=
  match path with
  | [] => Some (cwd, [])
  | c :: _ => t_resolve T (if c =? SLASH then root else cwd) (components path) [] skip_last
  end.

(** ** The volume *)
Section Volume.

Context (b : superblock_t) (img : Z → diskinode_t).
Implicit Types (C : Z → list Z).

Definition in_table (j : Z) : Prop := 0 ≤ j < inode_count b.
(** An inode that has a name. *)
Definition live (j : Z) : Prop := in_table j ∧ d_type (img j) ≠ 0 ∧ d_link_count (img j) ≠ 0.

(** [img j] is what inode [j] is now, on the card or in the table. *)
Record vol_ok C : Prop := {
  vo_sb : sb_ok b;
  vo_num j : in_table j → d_type (img j) ≠ 0 → d_inode_num (img j) = j ∧ dinode_wf (img j);
  vo_dir j : in_table j → d_type (img j) = FS_TYPE_DIR → dir_image b C (img j);
  vo_entry j nm k : in_table j → d_type (img j) = FS_TYPE_DIR → named (img j) C nm k →
    0 < inode_num (entry_at (img j) C k) ∧ live (inode_num (entry_at (img j) C k));
}.

(** The tree the volume stores. *)
Record tree_shows C (T : ftree) : Prop := {
  ts_dir j : in_table j → t_dir T j = bool_decide (d_type (img j) = FS_TYPE_DIR);
  ts_child j nm q : in_table j → d_type (img j) = FS_TYPE_DIR →
    t_child T j (key_name nm) = Some q ↔ ∃ k, named (img j) C nm k ∧ inode_num (entry_at (img j) C k) = q;
}.

(** The cached entries of every directory are its entries, and nothing is cached
    for an inode that is not in use. *)
Definition cache_true (m : dmap) C : Prop :=
  ∀ j nm e off, in_table j → d_type (img j) = FS_TYPE_DIR → m !! (j, nm) = Some (e, off) →
    ∃ k, named (img j) C nm k ∧ off = sizeof_dentry * k ∧ entry_at (img j) C k = e ∧ key_name nm = nm.
Definition caches_ok (d : dcache) C : Prop :=
  ∃ m, dcache_holds d m ∧ cache_true m C ∧ ∀ j nm, in_table j → d_type (img j) = 0 → m !! (j, nm) = None.

(** All of this survives when the image of a current inode is stored. *)
Section Stored.

Context (C : Z → list Z) (n : diskinode_t) (Hv : vol_ok C) (Hn : in_table (d_inode_num n)).

Lemma stored_named j nm k :
  in_table j → d_type (img j) = FS_TYPE_DIR → named (img j) (stored b n C) nm k ↔ named (img j) C nm k.
Proof.
  intros Hj Hd. destruct (vo_dir _ Hv j Hj Hd) as [? Ht Hwf ? ? ? ?]. pose proof (wf_size _ Hwf).
  apply (meta_named b); [exact (stored_block b n C (vo_sb _ Hv) Hn) | exact Ht | lia].
Qed.

Lemma stored_entry j k :
  in_table j → d_type (img j) = FS_TYPE_DIR → 0 ≤ k < entries (img j) →
  entry_at (img j) (stored b n C) k = entry_at (img j) C k.
Proof.
  intros Hj Hd Hk. destruct (vo_dir _ Hv j Hj Hd) as [? Ht Hwf ? ? ? ?]. pose proof (wf_size _ Hwf).
  apply (meta_entry b); [exact (stored_block b n C (vo_sb _ Hv) Hn) | exact Ht | exact Hk | lia].
Qed.

Lemma stored_vol : vol_ok (stored b n C).
Proof.
  split; [apply Hv | apply Hv | |].
  - intros j Hj Hd. apply stored_dir; [apply Hv | exact Hn | by apply Hv].
  - intros j nm k Hj Hd Hnk. pose proof (proj1 (stored_named j nm k Hj Hd) Hnk) as Hnk'.
    rewrite stored_entry by (try done; apply Hnk). by eapply (vo_entry _ Hv).
Qed.

Lemma stored_shows T : tree_shows C T → tree_shows (stored b n C) T.
Proof.
  intros [Hdir Hch]. split; [exact Hdir|]. intros j nm q Hj Hd. rewrite (Hch j nm q Hj Hd).
  split; intros (k & Hk & E); exists k; (split; [by apply stored_named|]).
  - by rewrite stored_entry by (try done; apply Hk).
  - by rewrite stored_entry in E by (try done; apply Hk).
Qed.

Lemma stored_caches d : caches_ok d C → caches_ok d (stored b n C).
Proof.
  intros (m & Hm & Ht & Hz). exists m. split_and!; [exact Hm | | exact Hz]. intros j nm e off Hj Hd Hx.
  destruct (Ht j nm e off Hj Hd Hx) as (k & Hk & Eo & Ee & Ek). exists k.
  split_and!; [by apply stored_named | exact Eo | | exact Ek]. by rewrite stored_entry by (try done; apply Hk).
Qed.
End Stored.

(** The volume when references were given back: images of inodes in use were
    stored. *)
Inductive restored : (Z → list Z) → (Z → list Z) → Prop :=
| rs_refl C : restored C C
| rs_step C C' j : restored C C' → live j → restored C (stored b (img j) C').

Lemma restored_trans C C1 C2 : restored C C1 → restored C1 C2 → restored C C2.
Proof. induction 2; [done | by constructor; auto]. Qed.

Lemma live_num C j : vol_ok C → live j → d_inode_num (img j) = j ∧ dinode_wf (img j).
Proof. intros Hv (Hj & Ht & _). by apply (vo_num _ Hv). Qed.

Lemma live_stored C j : vol_ok C → live j → in_table (d_inode_num (img j)).
Proof. intros Hv Hj. destruct (live_num C j Hv Hj) as [-> _]. apply Hj. Qed.

Lemma restored_vol C C' : vol_ok C → restored C C' → vol_ok C'.
Proof. intros Hv. induction 1 as [|C C' j _ IH Hj]; [done|]. specialize (IH Hv). apply stored_vol; [done | by eapply live_stored]. Qed.

Lemma restored_shows C C' T : vol_ok C → restored C C' → tree_shows C T → tree_shows C' T.
Proof.
  intros Hv Hr HT. induction Hr as [|C C' j Hr IH Hj]; [done|]. pose proof (restored_vol _ _ Hv Hr) as Hv'.
  apply stored_shows; [done | by eapply live_stored | by apply IH].
Qed.

Section Walk.

Context {D : Type} `{SectorStore D}.
Implicit Types (s : fstate D).

(** ** The inode table between two calls *)

(** A slot in use: loaded, unlocked, and a copy of its inode. *)
Record slot_loaded (x : inode_t) : Prop := {
  sl_valid : i_valid x = true;
  sl_lock : lock_acquired x = false;
  sl_ref : 0 < ref_count x ≤ 65000;
  sl_live : live (d_inode_num (node x));
  sl_node : node x = img (d_inode_num (node x));
}.

(** Every slot is empty or in use, no inode has two slots, and two slots are empty:
    [path_resolve] holds the directory and its child at the same time. *)
Record table_ok (tbl : list inode_t) : Prop := {
  to_slot q y : tbl !! q = Some y → y = empty_inode ∨ slot_loaded y;
  to_uniq q r y z : tbl !! q = Some y → tbl !! r = Some z → i_valid y = true → i_valid z = true →
    d_inode_num (node y) = d_inode_num (node z) → q = r;
  to_spare : ∃ e f, e ≠ f ∧ tbl !! e = Some empty_inode ∧ tbl !! f = Some empty_inode;
}.

(** Inode [j] is in the table or the card is up to date. *)
Definition found (tbl : list inode_t) C (j : Z) : Prop :=
  (∃ q y, tbl !! q = Some y ∧ i_valid y = true ∧ d_inode_num (node y) = j) ∨ disk_inode b C j = img j.

(** No call is running. *)
Record fs_idle s C : Prop := {
  id_bsg : bsg b (fb s) C [];
  id_vol : vol_ok C;
  id_table : table_ok (inodes s);
  id_found j : in_table j → found (inodes s) C j;
  id_cache : caches_ok (fdc s) C;
}.

(** The slot when the reference in hand is given back. *)
Definition given_back (x : inode_t) : inode_t :=
  if ref_count x =? 1 then empty_inode else set_lock false (set_ref (ref_count x - 1) x).

(** A reference to inode [j] in hand: taken but not loaded yet, or loaded. *)
Definition fresh (j : Z) (x : inode_t) : Prop := x = mk_inode (set_inode_num j empty_dinode) false 1 false.
Record held (l : bool) (j : Z) (x : inode_t) : Prop := {
  he_valid : i_valid x = true;
  he_lock : lock_acquired x = l;
  he_ref : 0 < ref_count x ≤ 65001;
  he_node : node x = img j;
}.

(** One reference, the slot [x] at [p], is in hand. *)
Record fs_hand s C (p : nat) (x : inode_t) (j : Z) : Prop := {
  ha_bsg : bsg b (fb s) C [];
  ha_vol : vol_ok C;
  ha_slot : inodes s !! p = Some x;
  ha_live : live j;
  ha_table : table_ok (<[p := given_back x]> (inodes s));
  ha_only q y : q ≠ p → inodes s !! q = Some y → i_valid y = true → d_inode_num (node y) ≠ j;
  ha_found k : in_table k → found (inodes s) C k;
  ha_cache : caches_ok (fdc s) C;
}.

(** Ready to be opened. *)
Definition ready C (j : Z) (x : inode_t) : Prop := (fresh j x ∧ disk_inode b C j = img j) ∨ held false j x.

(** ** Slots and images *)
Lemma live_u32 C j : vol_ok C → live j → u32 j = j.
Proof.
  intros Hv [Hj _]. destruct (inode_block_range b j (vo_sb _ Hv) Hj) as (_ & _ & _ & _ & ?). apply u32_small. lia.
Qed.

Lemma found_keep tbl C k p x x' :
  found tbl C k → tbl !! p = Some x → (i_valid x = true → i_valid x' = true ∧ d_inode_num (node x') = d_inode_num (node x)) →
  found (<[p := x']> tbl) C k.
Proof.
  intros [(q & y & Hq & Hy & En)|Hk] Hp Hx; [left | by right].
  destruct (decide (q = p)) as [->|Hne].
  - assert (y = x) as -> by congruence. destruct (Hx Hy) as [? E]. exists p, x'.
    split_and!; [apply list_lookup_insert_eq; by eapply lookup_lt_Some | done | congruence].
  - exists q, y. by rewrite list_lookup_insert_ne.
Qed.

(** The slot in hand changes, and the volume does not. *)
Lemma hand_set s C p x j bs x' :
  fs_hand s C p x j → bsg b bs C [] → given_back x' = given_back x →
  (i_valid x = true → i_valid x' = true ∧ d_inode_num (node x') = d_inode_num (node x)) →
  fs_hand (mk_fstate bs (<[p := x']> (inodes s)) (fdc s)) C p x' j.
Proof.
  intros [A1 A2 A3 A4 A5 Ao A6 A7] Hb Eg Hx. split; cbn [fb inodes fdc]; try done.
  - apply list_lookup_insert_eq. by eapply lookup_lt_Some.
  - by rewrite list_insert_insert_eq, Eg.
  - intros q y Hne. rewrite list_lookup_insert_ne by done. by apply Ao.
  - intros k Hk. eapply found_keep; [by apply A6 | done..].
Qed.

Lemma hand_open s C p x j :
  fs_hand s C p x j → ready C j x →
  ∃ s' x', inode_open p s = Ok (tt, s') ∧ fs_hand s' C p x' j ∧ held true j x'.
Proof.
  intros Ha [[-> Ed]|[Hv Hl Hr En]].
  - set (x := mk_inode _ _ _ _) in *. destruct (ha_live _ _ _ _ _ Ha) as (Hj & Ht & _).
    destruct (open_load_run b s C p x (ha_bsg _ _ _ _ _ Ha) (ha_slot _ _ _ _ _ Ha)) as (bs & R & Hb); [done | done | exact Hj | |].
    { cbn [x node set_inode_num d_inode_num]. by rewrite Ed. }
    eexists _, _. split; [exact R|]. split; [by apply (hand_set s C p x j)|]. by split.
  - eexists _, (set_lock true x). split; [by apply open_valid_run; [apply Ha|..]|]. split; [|by split].
    by apply (hand_set s C p x j); [|apply Ha|..].
Qed.

Lemma hand_unlock s C p x j :
  fs_hand s C p x j → held true j x →
  ∃ s', inode_unlock p s = Ok (tt, s') ∧ fs_hand s' C p (set_lock false x) j ∧ held false j (set_lock false x).
Proof.
  intros Ha [Hv Hl Hr En]. eexists. split; [by apply (unlock_run s p x); [apply Ha|]|]. split; [|by split].
  by apply (hand_set s C p x j); [|apply Ha|..].
Qed.

(** ** Looking in the directory in hand *)
Lemma hand_dir s C p x j :
  fs_hand s C p x j → held true j x → d_type (img j) = FS_TYPE_DIR → dir_ok b s C p x.
Proof.
  intros [A1 A2 A3 A4 A5 Ao A6 (m & Hm & Hc & _)] [Hv Hl Hr En] Hd. destruct (live_num C j A2 A4) as [Enum _]. destruct A4 as [Hj _].
  apply dir_image_ok; rewrite ?En; try done; [by rewrite Enum | by apply A2 |].
  exists m. split; [done|]. rewrite Enum. intros nm e off. by apply Hc.
Qed.

Lemma hand_looked s C p x j s' :
  fs_hand s C p x j → node x = img j → looked b s C p x s' → fs_hand s' C p x j.
Proof.
  intros [A1 A2 A3 A4 A5 Ao A6 (m & Hm & Hc & Hz)] En [L1 L2 L3]. destruct (live_num C j A2 A4) as [Enum _].
  split; rewrite ?L2; try done; [apply L1|]. destruct (L3 m Hm) as (m' & Hm' & Eo). exists m'.
  rewrite En, Enum in Eo. split_and!; [done | |].
  2: { intros k nm Hk Hk0. rewrite Eo; [by apply Hz|]. intros ->. by destruct A4 as (_ & A4 & _). }
  intros k nm e off Hk Hd Hx. destruct (decide (k = j)) as [->|Hne].
  - destruct (do_cache _ _ _ _ _ L1) as (m2 & Hm2 & Hc2). rewrite (dcache_holds_inj _ _ _ Hm2 Hm'), En, Enum in Hc2. by apply Hc2.
  - apply Hc; [done..|]. by rewrite <- Eo.
Qed.

(** ** Taking a reference *)
Record used (x : inode_t) : Prop := {
  us_valid : i_valid x = true;
  us_ref : 0 < ref_count x ≤ 65001;
  us_live : live (d_inode_num (node x));
  us_node : node x = img (d_inode_num (node x));
}.

Lemma ref_take s C t :
  vol_ok C → live t → (∀ q y, inodes s !! q = Some y → y = empty_inode ∨ used y) → (∃ e, inodes s !! e = Some empty_inode) →
  found (inodes s) C t →
  ∃ q y y', inodes s !! q = Some y ∧ inode_ref t s = Ok (q, mk_fstate (fb s) (<[q := y']> (inodes s)) (fdc s)) ∧
    (used y ∧ d_inode_num (node y) = t ∧ y' = set_ref (ref_count y + 1) y ∨
     y = empty_inode ∧ fresh t y' ∧ disk_inode b C t = img t ∧
       ∀ k z, inodes s !! k = Some z → i_valid z = true → d_inode_num (node z) ≠ t).
Proof.
  intros Hv Ht Hall (e & He) Hf. pose proof (inode_ref_run s t) as R. rewrite (live_u32 C t Hv Ht) in R.
  destruct (inode_ref t s) as [[q s']| |]; [|destruct (R empty_inode); [by eapply list_elem_of_lookup_2 | done]|done].
  destruct R as (y & y' & Hq & Hslot & Hex & ->). exists q, y, y'. split_and!; [done | done |].
  destruct Hslot as [[(Hty & En & Hr) ->]|[Hz ->]].
  - left. destruct (Hall q y Hq) as [->|Hu]; [done|]. split_and!; [done | done |]. f_equal.
    unfold u16, wrap. apply Z.mod_small. pose proof (us_ref _ Hu). lia.
  - right. destruct (Hall q y Hq) as [->|Hu].
    2: { destruct (us_live _ Hu) as (_ & Hty & _). by rewrite <- (us_node _ Hu) in Hty. }
    assert (∀ k z, inodes s !! k = Some z → i_valid z = true → d_inode_num (node z) ≠ t) as Hnone.
    2: { split_and!; [done | done | | exact Hnone]. destruct Hf as [(k & z & Hk & Hvz & Enz)|Hd]; [by destruct (Hnone k z)|done]. }
    intros k z Hk Hvz Enz. destruct (Hall k z Hk) as [->|Hu]; [done|].
    destruct Hex as [Hty _]; [|by apply Hty]. exists z. split; [by eapply list_elem_of_lookup_2|].
    destruct (us_live _ Hu) as (_ & Hty & _). rewrite <- (us_node _ Hu) in Hty. split_and!; [done | done | apply Hu].
Qed.

(** The slot taken, when its table is at rest. *)
Lemma taken_ready C y y' t (P : Prop) :
  (used y ∧ d_inode_num (node y) = t ∧ y' = set_ref (ref_count y + 1) y ∨
   y = empty_inode ∧ fresh t y' ∧ disk_inode b C t = img t ∧ P) →
  (y = empty_inode ∨ slot_loaded y) →
  ready C t y' ∧ given_back y' = y ∧ (i_valid y = true → i_valid y' = true ∧ d_inode_num (node y') = d_inode_num (node y)).
Proof.
  intros [(Hu & En & ->)|(-> & Hf & Hd & _)] Hs.
  - destruct Hs as [->|[S1 S2 S3 S4 S5]]; [destruct Hu; done|]. split_and!; [right; split; cbn; try done; [lia | congruence] | | done].
    unfold given_back. cbn [ref_count set_ref]. rewrite (proj2 (Z.eqb_neq _ _)) by lia.
    replace (ref_count y + 1 - 1) with (ref_count y) by lia. destruct y. cbn in *. by rewrite <- S2.
  - split_and!; [by left | by rewrite Hf | done].
Qed.

Lemma idle_ref s C t :
  fs_idle s C → live t → ∃ q y s', inode_ref t s = Ok (q, s') ∧ fs_hand s' C q y t ∧ ready C t y.
Proof.
  intros [I1 I2 [Is Iu (e & f & Hef & He & Hf)] I4 I5] Ht.
  destruct (ref_take s C t I2 Ht) as (q & y & y' & Hq & R & Hy); [|by exists e | by apply I4, Ht|].
  { intros q y Hq. destruct (Is q y Hq) as [->|[]]; [by left | right; split; try done; lia]. }
  destruct (taken_ready C y y' t _ Hy (Is q y Hq)) as (Hrd & Eg & Hk).
  eexists q, y', _. split; [exact R|]. split; [|exact Hrd]. pose proof (lookup_lt_Some _ _ _ Hq).
  split; cbn [fb inodes fdc]; try done.
  - by apply list_lookup_insert_eq.
  - rewrite list_insert_insert_eq, Eg, list_insert_id by done. split; [done | done |]. by exists e, f.
  - intros r z Hne Hr Hz Ez. rewrite list_lookup_insert_ne in Hr by done.
    destruct Hy as [(Hu & En & _)|(_ & _ & _ & Hnone)]; [|by apply (Hnone r z)].
    apply Hne. apply (Iu r q z y); try done; [apply Hu | congruence].
  - intros k Hk'. eapply found_keep; [by apply I4 | done..].
Qed.

(** ** Giving a reference back *)

(** The volume when the reference in hand was given back. *)
Definition back_vol (j : Z) (x : inode_t) C : Z → list Z := if ref_count x =? 1 then stored b (img j) C else C.

(** What giving back leaves alone. *)
Lemma back_keeps s C p x j :
  fs_hand s C p x j → i_valid x = true → node x = img j →
  vol_ok (back_vol j x C) ∧ restored C (back_vol j x C) ∧
  (∀ d, caches_ok d C → caches_ok d (back_vol j x C)) ∧
  (∀ k, live k → disk_inode b C k = img k → disk_inode b (back_vol j x C) k = img k) ∧
  (∀ k, in_table k → found (<[p := given_back x]> (inodes s)) (back_vol j x C) k).
Proof.
  intros [A1 A2 A3 A4 A5 Ao A6 A7] Hv En. destruct (live_num C j A2 A4) as [Enum Hwf]. unfold back_vol, given_back.
  assert (in_table (d_inode_num (img j))) as Hin by (rewrite Enum; apply A4).
  destruct (Z.eqb_spec (ref_count x) 1) as [E1|E1].
  - split_and!; [by apply stored_vol | constructor; [constructor | done] | by apply stored_caches | |].
    + intros k [Hk _] Ek. rewrite (stored_image b (fb s)) by done. case_decide as E; [|done]. rewrite E, Enum. by rewrite Enum in E; subst.
    + intros k Hk. destruct (decide (k = j)) as [->|Hne].
      { right. rewrite (stored_image b (fb s)), decide_True by done. done. }
      destruct (A6 k Hk) as [(q & y & Hq & Hy & Ey)|Ek].
      * left. exists q, y. rewrite list_lookup_insert_ne; [done|]. intros ->.
        assert (y = x) as -> by congruence. rewrite En in Ey. congruence.
      * right. rewrite (stored_image b (fb s)), decide_False by (done || congruence). done.
  - split_and!; try done; [constructor|]. intros k Hk. eapply found_keep; [by apply A6 | done | done].
Qed.

Lemma hand_close s C p x j :
  fs_hand s C p x j → held true j x →
  ∃ s', inode_close p s = Ok (tt, s') ∧ fs_idle s' (back_vol j x C).
Proof.
  intros Ha [Hv Hl Hr En]. destruct (back_keeps s C p x j Ha Hv En) as (K1 & _ & K3 & _ & K5).
  destruct Ha as [A1 A2 A3 A4 A5 Ao A6 A7]. destruct (live_num C j A2 A4) as [Enum Hwf].
  destruct (close_run b s C p x A1 A3 Hl Hv) as (bs & R & Hb);
    rewrite ?En, ?Enum; [apply A4 | lia | apply A4 | done |].
  eexists. split; [exact R|]. rewrite En in Hb. split; cbn [fb inodes fdc]; try done. by apply K3.
Qed.

Lemma hand_drop s C p x j :
  fs_hand s C p x j → ready C j x →
  ∃ s' C', inode_deref p s = Ok (tt, s') ∧ fs_idle s' C' ∧ restored C C'.
Proof.
  intros Ha [[-> Ed]|[Hv Hl Hr En]].
  - set (x := mk_inode _ _ _ _) in *. destruct Ha as [A1 A2 A3 A4 A5 Ao A6 A7]. pose proof (lookup_lt_Some _ _ _ A3) as Hlt.
    exists (mk_fstate (fb s) (<[p := empty_inode]> (inodes s)) (fdc s)), C. split_and!; [|split; try done|constructor].
    + unfold inode_deref, deref_rec. rewrite (bind_Ok _ _ _ _ _ (get_inode_run _ _ _ A3)).
      rewrite (bind_Ok _ _ s tt s) by done. rewrite (bind_Ok _ _ s tt s) by done.
      rewrite (bind_Ok _ _ _ _ _ (upd_inode_run s p x _ A3)). set (s1 := mk_fstate _ _ _).
      assert (inodes s1 !! p = Some (set_ref 0 x)) as Hp by (by apply list_lookup_insert_eq).
      rewrite (bind_Ok _ _ _ _ _ (get_inode_run _ _ _ Hp)). cbn [ref_count set_ref]. change (0 =? 0) with true. cbn iota.
      unfold inode_clear. rewrite (bind_Ok _ _ _ _ _ (get_inode_run _ _ _ Hp)). rewrite (bind_Ok _ _ s1 tt s1) by done.
      rewrite (bind_Ok _ _ s1 tt s1) by done. rewrite (put_inode_run s1 p _ _ Hp). cbn [s1 fb inodes fdc].
      by rewrite list_insert_insert_eq.
    + intros k Hk. eapply found_keep; [by apply A6 | done | done].
  - destruct (back_keeps s C p x j Ha Hv En) as (K1 & K2 & K3 & _ & K5).
    destruct Ha as [A1 A2 A3 A4 A5 Ao A6 A7]. destruct (live_num C j A2 A4) as [Enum Hwf].
    destruct (deref_run b s C p x A1 A3 Hv) as (bs & R & Hb);
      rewrite ?En, ?Enum; [apply A4 | lia | apply A4 | done |].
    exists (mk_fstate bs (<[p := given_back x]> (inodes s)) (fdc s)), (back_vol j x C). rewrite En in Hb.
    split_and!; [|split; try done; by apply K3 | exact K2]. rewrite R. unfold given_back. destruct (ref_count x =? 1); [done|].
    destruct x. cbn in *. by subst.
Qed.

(** From the directory in hand to its child. *)
Lemma hand_next s C p x j t :
  fs_hand s C p x j → held true j x → live t →
  ∃ q s1 s' C' y, inode_ref t s = Ok (q, s1) ∧ inode_close p s1 = Ok (tt, s') ∧
    fs_hand s' C' q y t ∧ ready C' t y ∧ restored C C'.
Proof.
  intros Ha Hh Ht. pose proof Ha as [A1 A2 A3 A4 [Hsl Hsu (e & f & Hef & He & Hf)] Ao A6 A7]. pose proof Hh as [Hv Hl Hr En].
  destruct (live_num C j A2 A4) as [Enum Hwf]. pose proof (lookup_lt_Some _ _ _ A3) as Hlt.
  assert (∀ q y, q ≠ p → inodes s !! q = Some y → y = empty_inode ∨ slot_loaded y) as Hoth.
  { intros q y Hne Hq. apply (Hsl q). by rewrite list_lookup_insert_ne. }
  destruct (ref_take s C t A2 Ht) as (q & y & y' & Hq & R & Hy); [| | by apply A6, Ht |].
  { intros q y Hq. destruct (decide (q = p)) as [->|Hne].
    - assert (y = x) as -> by congruence. right. rewrite <- Enum, <- En in A4. split; try done. rewrite En at 2. by rewrite En, Enum.
    - destruct (Hoth q y Hne Hq) as [->|[]]; [by left | right; split; try done; lia]. }
  { destruct (decide (e = p)) as [->|]; [exists f | exists e]; [rewrite list_lookup_insert_ne in Hf by congruence | rewrite list_lookup_insert_ne in He by congruence]; done. }
  set (s1 := mk_fstate _ _ _) in R. destruct (decide (q = p)) as [->|Hne].
  - assert (y = x) as -> by congruence. destruct Hy as [(Hu & Et & ->)|(-> & _)]; [|done].
    assert (t = j) as -> by (rewrite En in Et; congruence).
    destruct (close_run b s1 C p (set_ref (ref_count x + 1) x) A1) as (bs & R2 & Hb2);
      cbn [node set_ref ref_count i_valid lock_acquired]; rewrite ?En, ?Enum; try done;
      [by apply list_lookup_insert_eq | apply A4 | lia | apply A4 |].
    cbn [ref_count set_ref] in R2, Hb2. rewrite (proj2 (Z.eqb_neq _ 1)) in R2, Hb2 by lia.
    cbn [s1 fb inodes fdc] in R2. rewrite list_insert_insert_eq in R2. replace (ref_count x + 1 - 1) with (ref_count x) in R2 by lia.
    eexists p, s1, _, C, _. split_and!; [exact R | exact R2 | by apply (hand_set s C p x j) | right; by split | constructor].
  - destruct (taken_ready C y y' t _ Hy (Hoth q y Hne Hq)) as (Hrd & Eg & Hk).
    destruct (back_keeps s C p x j Ha Hv En) as (K1 & K2 & K3 & K4 & K5).
    assert (inodes s1 !! p = Some x) as Hp1 by (unfold s1; cbn; by rewrite list_lookup_insert_ne).
    destruct (close_run b s1 C p x A1 Hp1 Hl Hv) as (bs & R2 & Hb2); rewrite ?En, ?Enum; [apply A4 | lia | apply A4 | done |].
    cbn [s1 fb inodes fdc] in R2. fold (given_back x) in R2. rewrite En in Hb2. fold (back_vol j x C) in Hb2.
    eexists q, s1, _, (back_vol j x C), y'. split_and!; [exact R | exact R2 | | | exact K2].
    + assert (<[p := given_back x]> (inodes s) !! q = Some y) as Hq' by (by rewrite list_lookup_insert_ne).
      rewrite (list_insert_insert_ne _ p q) by congruence.
      split; cbn [fb inodes fdc]; try done; [| | |by intros k Hk'; eapply found_keep; [by apply K5|..] | by apply K3].
      * apply list_lookup_insert_eq. by eapply lookup_lt_Some.
      * rewrite list_insert_insert_eq, Eg, list_insert_id by done. split; [exact Hsl | exact Hsu |]. by exists e, f.
      * intros r z Hrq Hz Hvz Ez. rewrite list_lookup_insert_ne in Hz by done.
        destruct Hy as [(Hu & Et & _)|(_ & _ & _ & Hnone)]; [apply Hrq, (Hsu r q z y); try done; [apply Hu | congruence]|].
        destruct (decide (r = p)) as [->|Hrp]; [|rewrite list_lookup_insert_ne in Hz by done; by apply (Hnone r z)].
        rewrite list_lookup_insert_eq in Hz by done. injection Hz as <-. unfold given_back in *.
        destruct (ref_count x =? 1); [done|]. by apply (Hnone p x).
    + destruct Hrd as [[Hfr Hd]|Hrd]; [left; split; [done | by apply K4] | by right].
Qed.

(** ** The walk *)

(** What a resolution returns, against the tree: a reference in hand and the
    last name, or nothing in hand. *)
Definition resolved s C (r : option (nat * list Z)) (a : option (Z * list Z)) : Prop :=
  match r, a with
  | Some (p, nm), Some (j, nm') => nm = nm' ∧ ∃ x, fs_hand s C p x j ∧ ready C j x
  | None, None => fs_idle s C
  | _, _ => False
  end.

(** The child of the directory in hand. *)
Lemma hand_child s C p x j nm T :
  fs_hand s C p x j → held true j x → d_type (img j) = FS_TYPE_DIR → tree_shows C T →
  ∃ s1, fs_hand s1 C p x j ∧
    match t_child T j (key_name nm) with
    | Some t => live t ∧ ∃ off, dir_lookup p nm s = (q <- inode_ref t ;; ret (Some (q, off))) s1
    | None => dir_lookup p nm s = Ok (None, s1)
    end.
Proof.
  intros Ha Hh Hd [_ Hch]. pose proof (ha_vol _ _ _ _ _ Ha) as Hvol. destruct (ha_live _ _ _ _ _ Ha) as [Hj _].
  pose proof (he_node _ _ _ Hh) as En. specialize (Hch j nm).
  destruct (dir_lookup_run b s C p x nm (hand_dir s C p x j Ha Hh Hd)) as (s1 & L & Hr).
  exists s1. split; [by eapply hand_looked|]. rewrite En in Hr. destruct Hr as [(k & Hk & R)|[Hno R]].
  - rewrite (proj2 (Hch _ Hj Hd)) by (exists k; done).
    destruct (vo_entry _ Hvol j nm k Hj Hd Hk) as [_ Hlive]. split; [exact Hlive | by eexists].
  - destruct (t_child T j (key_name nm)) as [t|] eqn:E; [|exact R].
    destruct (proj1 (Hch t Hj Hd) eq_refl) as (k & Hk & _). by destruct (Hno k).
Qed.

(** No component is left. *)
Lemma resolve_end s C p x j nm (skip : bool) T :
  fs_hand s C p x j → ready C j x →
  ∃ r s' C', (if skip then inode_deref p ;; ret None else ret (Some (p, nm))) s = Ok (r, s') ∧ restored C C' ∧
    resolved s' C' r (t_resolve T j [] nm skip).
Proof.
  intros Ha Hrd. cbn [t_resolve]. destruct skip.
  - destruct (hand_drop s C p x j Ha Hrd) as (s1 & C1 & R & Hi & HC). rewrite (bind_Ok _ _ _ _ _ R).
    exists None, s1, C1. split_and!; [done | exact HC | exact Hi].
  - exists (Some (p, nm)), s, C. split_and!; [done | constructor |]. cbn. split; [done | by exists x].
Qed.

Lemma resolve_run n s C p x j path nm skip T :
  fs_hand s C p x j → ready C j x → tree_shows C T → (length path ≤ n)%nat →
  ∃ r s' C', resolve_loop n p path nm skip s = Ok (r, s') ∧ restored C C' ∧
    resolved s' C' r (t_resolve T j (components path) nm skip).
Proof.
  revert s C p x j path nm. induction n as [|n IH]; intros s C p x j path nm Ha Hrd HT Hn;
    pose proof (path_shift_components path) as Hps; cbn [resolve_loop];
    destruct (path_shift path) as [[rest nm1]|].
  - destruct Hps as (c & _ & _ & _ & _ & ? & _). lia.
  - rewrite Hps. by eapply resolve_end.
  - destruct Hps as (c & Ec & -> & Hc & _ & Hlen & Hlast). rewrite Ec. cbn [t_resolve]. set (nm1 := take _ c).
    destruct (hand_open s C p x j Ha Hrd) as (s1 & x1 & R1 & Ha1 & Hh1). rewrite (bind_Ok _ _ _ _ _ R1).
    rewrite (bind_Ok _ _ _ _ _ (get_inode_run _ _ _ (ha_slot _ _ _ _ _ Ha1))), (he_node _ _ _ Hh1).
    destruct (ha_live _ _ _ _ _ Ha1) as [Hj _]. rewrite (ts_dir _ _ HT j Hj).
    destruct (back_keeps s1 C p x1 j Ha1 (he_valid _ _ _ Hh1) (he_node _ _ _ Hh1)) as (_ & HT' & _).
    destruct (Z.eqb_spec (d_type (img j)) FS_TYPE_DIR) as [Hd|Hd]; cbn [negb]; cycle 1.
    { rewrite (bool_decide_eq_false_2 _ Hd). destruct (hand_close s1 C p x1 j Ha1 Hh1) as (s2 & R2 & Hi).
      rewrite (bind_Ok _ _ _ _ _ R2). exists None, s2, (back_vol j x1 C). split_and!; [done | exact HT' | exact Hi]. }
    rewrite (bool_decide_eq_true_2 _ Hd), (bool_decide_ext (rest = []) (components rest = []) Hlast).
    destruct (skip && bool_decide (components rest = [])) eqn:El.
    { destruct (hand_unlock s1 C p x1 j Ha1 Hh1) as (s2 & R2 & Ha2 & Hh2). rewrite (bind_Ok _ _ _ _ _ R2).
      exists (Some (p, nm1)), s2, C. split_and!; [done | constructor |]. cbn. split; [done|]. eexists. split; [exact Ha2 | by right]. }
    destruct (hand_child s1 C p x1 j nm1 T Ha1 Hh1 Hd HT) as (s2 & Ha2 & Hch).
    destruct (t_child T j (key_name nm1)) as [t|].
    + destruct Hch as (Ht & off & R2). destruct (hand_next s2 C p x1 j t Ha2 Hh1 Ht) as (q & s3 & s4 & C4 & y & R3 & R4 & Ha4 & Hrd4 & HT4).
      rewrite (bind_Ok _ _ s1 (Some (q, off)) s3) by (by rewrite R2, (bind_Ok _ _ _ _ _ R3)).
      rewrite (bind_Ok _ _ _ _ _ R4).
      destruct (IH s4 C4 q y t rest nm1 Ha4 Hrd4) as (r & s5 & C5 & R5 & H5 & Hr5);
        [exact (restored_shows _ _ _ (ha_vol _ _ _ _ _ Ha) HT4 HT) | lia |].
      exists r, s5, C5. split_and!; [exact R5 | by eapply restored_trans | exact Hr5].
    + rewrite (bind_Ok _ _ _ _ _ Hch). destruct (hand_close s2 C p x1 j Ha2 Hh1) as (s3 & R3 & Hi).
      rewrite (bind_Ok _ _ _ _ _ R3). exists None, s3, (back_vol j x1 C). split_and!; [done | exact HT' | exact Hi].
  - rewrite Hps. by eapply resolve_end.
Qed.

Lemma path_resolve_run s C T cwd path skip :
  fs_idle s C → tree_shows C T → live cwd → live (root_inode b) →
  ∃ r s' C', path_resolve cwd path skip s = Ok (r, s') ∧ restored C C' ∧
    resolved s' C' r (t_path T (root_inode b) cwd path skip).
Proof.
  intros Hi HT Hcwd Hroot. unfold path_resolve, the_superblock, gets. cbn [bind].
  assert (root_inode (superblock (fb s)) = root_inode b) as -> by (by destruct (proj2 (id_bsg _ _ Hi)) as (u & g & ->)).
  destruct path as [|c path]; cbn [t_path].
  - destruct (idle_ref s C cwd Hi Hcwd) as (q & y & s1 & R & Ha & Hrd). rewrite (bind_Ok _ _ _ _ _ R).
    exists (Some (q, [])), s1, C. split_and!; [done | constructor |]. cbn. split; [done | by exists y].
  - set (start := if c =? SLASH then root_inode b else cwd).
    destruct (idle_ref s C start Hi) as (q & y & s1 & R & Ha & Hrd); [by unfold start; destruct (c =? SLASH)|].
    rewrite (bind_Ok _ _ s q s1) by (unfold start in R; by destruct (c =? SLASH)).
    by apply (resolve_run _ s1 C q y start).
Qed.

(** C2 Path resolution walks the directory tree. On a volume whose directories
    are well formed and name existing inodes, with a truthful entry cache and
    two free slots in the inode table, [path_resolve] returns for every path:
    it follows the components from the root or the working directory, over the
    cache, the inode table and the card, and returns a reference to the inode
    the tree leads to (the directory of the last component for
    [path_resolve_parent]) and the last name, cut to 28 characters; or nothing,
    exactly when a component is missing or is not a directory. Every reference
    but the returned one is given back, and the tree on the volume stays. *)
Theorem path_resolve_correct s C T cwd path skip :
  fs_idle s C → tree_shows C T → live cwd → live (root_inode b) →
  ∃ r s' C', path_resolve cwd path skip s = Ok (r, s') ∧ tree_shows C' T ∧
    resolved s' C' r (t_path T (root_inode b) cwd path skip).
Proof.
  intros Hi HT Hcwd Hroot. destruct (path_resolve_run s C T cwd path skip Hi HT Hcwd Hroot) as (r & s' & C' & R & Hr & Hres).
  exists r, s', C'. split_and!; [exact R | exact (restored_shows _ _ _ (id_vol _ _ Hi) Hr HT) | exact Hres].
Qed.

End Walk.

End Volume.

(** ** The tree of a new volume *)
Definition root_tree : ftree :=
  mk_ftree (fun j => j =? ROOT_INODE)
    (fun j nm => if (j =? ROOT_INODE) && (bool_decide (nm = key_name DOT) || bool_decide (nm = key_name DOTDOT)) then Some ROOT_INODE else None).

Section NewVolume.

Context (s : fstate pcache) (C : Z → list Z) (root : diskinode_t) (Hf : formatted s C root).

Lemma new_only j : in_table new_superblock j → d_type (disk_inode new_superblock C j) ≠ 0 → j = ROOT_INODE.
Proof. intros Hj Ht. destruct (decide (j = ROOT_INODE)) as [|Hne]; [done|]. by destruct Ht; apply (fm_free _ _ _ Hf). Qed.

Lemma new_dir j : in_table new_superblock j → d_type (disk_inode new_superblock C j) = FS_TYPE_DIR → j = ROOT_INODE.
Proof. intros Hj Ht. apply new_only; [done|]. by rewrite Ht. Qed.

Lemma new_live : live new_superblock (disk_inode new_superblock C) ROOT_INODE.
Proof. split; [vm_compute; split; congruence|]. rewrite (fm_root _ _ _ Hf), (di_type _ _ _ (fm_dir _ _ _ Hf)), (fm_link _ _ _ Hf). done. Qed.

Lemma new_idle : fs_idle new_superblock (disk_inode new_superblock C) s C.
Proof.
  split; [exact (fm_bsg _ _ _ Hf) | split | split | intros; by right |].
  - exact new_superblock_ok.
  - intros j Hj Ht. rewrite (new_only j Hj Ht), (fm_root _ _ _ Hf). split; [exact (fm_num _ _ _ Hf) | apply (fm_dir _ _ _ Hf)].
  - intros j Hj Ht. rewrite (new_dir j Hj Ht), (fm_root _ _ _ Hf). apply (fm_dir _ _ _ Hf).
  - intros j nm k Hj Ht. rewrite (new_dir j Hj Ht), (fm_root _ _ _ Hf), (dot_named _ _ _ _ _ _ (fm_entries _ _ _ Hf)).
    destruct (fm_entries _ _ _ Hf) as (_ & _ & _ & N0 & N1).
    intros [[-> _]|[-> _]]; rewrite ?N0, ?N1; (split; [done | exact new_live]).
  - rewrite (fm_inodes _ _ _ Hf). intros q y [-> _]%lookup_replicate. by left.
  - rewrite (fm_inodes _ _ _ Hf). intros q r y z [-> _]%lookup_replicate. done.
  - rewrite (fm_inodes _ _ _ Hf). by exists 0%nat, 1%nat.
  - destruct (fm_cache _ _ _ Hf) as (m & Hm & Hc). destruct (fm_cached _ _ _ Hf) as (m2 & Hm2 & Hz).
    rewrite (dcache_holds_inj _ _ _ Hm2 Hm) in Hz. exists m. split_and!; [exact Hm | |].
    + intros j nm e off Hj Ht. rewrite (new_dir j Hj Ht), (fm_root _ _ _ Hf). rewrite (fm_num _ _ _ Hf) in Hc. apply Hc.
    + intros j nm Hj Ht. apply Hz. intros ->. rewrite (fm_root _ _ _ Hf), (di_type _ _ _ (fm_dir _ _ _ Hf)) in Ht. done.
Qed.

Lemma new_tree : tree_shows new_superblock (disk_inode new_superblock C) C root_tree.
Proof.
  split.
  - intros j Hj. cbn [root_tree t_dir]. destruct (Z.eqb_spec j ROOT_INODE) as [->|Hne].
    + by rewrite (fm_root _ _ _ Hf), (di_type _ _ _ (fm_dir _ _ _ Hf)).
    + by rewrite (fm_free _ _ _ Hf).
  - intros j nm q Hj Ht. rewrite (new_dir j Hj Ht), (fm_root _ _ _ Hf). cbn [root_tree t_child]. rewrite Z.eqb_refl. cbn [andb].
    pose proof (fm_entries _ _ _ Hf) as (_ & _ & _ & N0 & N1). split.
    + intros Hq. destruct (decide (key_name nm = key_name DOT)) as [Ed|Ed].
      { rewrite (bool_decide_eq_true_2 _ Ed) in Hq. injection Hq as <-. exists 0. rewrite (dot_named _ _ _ _ _ _ (fm_entries _ _ _ Hf)). split; [by left | exact N0]. }
      rewrite (bool_decide_eq_false_2 _ Ed) in Hq. case_bool_decide as E2; [|done]. injection Hq as <-.
      exists 1. rewrite (dot_named _ _ _ _ _ _ (fm_entries _ _ _ Hf)). split; [by right | exact N1].
    + intros (k & Hk & <-). apply (dot_named _ _ _ _ _ _ (fm_entries _ _ _ Hf)) in Hk as [[-> Ek]|[-> Ek]]; rewrite Ek, ?N0, ?N1;
        rewrite (bool_decide_eq_true_2 _ eq_refl), ?orb_true_r; done.
Qed.

End NewVolume.

Lemma path_resolve_correct_witness : ∃ s s' C C' p x, do_mkfs false blank_fs = Ok (0, s) ∧
  path_resolve ROOT_INODE [SLASH; 46; SLASH; 46; 46] false s = Ok (Some (p, DOTDOT), s') ∧
  fs_hand new_superblock (disk_inode new_superblock C) s' C' p x ROOT_INODE.
Proof.
  destruct blank_mkfs_run as (s & C & root & R & Hf).
  destruct (path_resolve_correct new_superblock (disk_inode new_superblock C) s C root_tree ROOT_INODE [SLASH; 46; SLASH; 46; 46] false
    (new_idle s C root Hf) (new_tree s C root Hf) (new_live s C root Hf) (new_live s C root Hf)) as (r & s' & C' & R' & _ & Hr).
  change (t_path root_tree (root_inode new_superblock) ROOT_INODE [SLASH; 46; SLASH; 46; 46] false) with (Some (ROOT_INODE, DOTDOT)) in Hr.
  destruct r as [[p nm]|]; [|destruct Hr]. destruct Hr as [-> (x & Ha & _)].
  exists s, s', C, C', p, x. exact (conj R (conj R' Ha)).
Defined.
