(* ===== verification/TreeGrow.v ===== *)
(** * The volume and the tree when a name is created

    A file that is not worked on stays as it is; from what happens to the
    parent and to the new inode the invariants of PathTheorems.v follow for the
    tree with the new name. *)

From S2P Require Import Prelude Bytes CString Block BlockProofs BlockAlloc SdCard BlockTheorems Dcache Inode.
From S2P Require Import InodeLayout InodeMap InodeMapRun InodeIO InodeTheorems InodeHit Dir DirTheorems Fs FdTheorems InodeTable DirImage Mkfs MkfsTheorems PathTheorems.

Implicit Types (C : Z → list Z) (n m : diskinode_t).

(** ** A file that stays *)
Record same_file (b : superblock_t) C C' m : Prop := {
  sf_tree : tree_ok b C' m;
  sf_ptr sl : slot_ok sl → ptr m C' sl = ptr m C sl;
  sf_byte o : 0 ≤ o < 2 ^ 32 → fbyte m C' o = fbyte m C o;
}.

Lemma same_refl b C m : tree_ok b C m → same_file b C C m.
Proof. by split. Qed.

Lemma same_trans b C C1 C2 m : same_file b C C1 m → same_file b C1 C2 m → same_file b C C2 m.
Proof.
  intros [A1 A2 A3] [B1 B2 B3]. split; [done | |].
  - intros sl Hsl. by rewrite B2, A2.
  - intros o Ho. by rewrite B3, A3.
Qed.

Lemma same_meta b C x d m :
  sb_ok b → inode_offset b ≤ x < datablock_offset b → tree_ok b C m → same_file b C (<[x := d]> C) m.
Proof.
  intros Hb Hx Ht. split; [by apply meta_tree | |].
  - intros sl Hsl. by apply (meta_ptr b).
  - intros o Ho. by apply (meta_fbyte b).
Qed.

Lemma same_stored b C n m :
  sb_ok b → 0 ≤ d_inode_num n < inode_count b → tree_ok b C m → same_file b C (stored b n C) m.
Proof. intros Hb Hn Ht. apply same_meta; [done | by apply stored_block | done]. Qed.

Lemma same_kept b C n C' n' m :
  others_kept b C n C' n' → tree_ok b C m → apart_files C n m → same_file b C C' m ∧ apart_files C' n' m.
Proof. intros Hk Hm Hap. destruct (Hk m Hm Hap) as (? & ? & ? & ?). split; [by split | done]. Qed.

Lemma same_owns b C C' m x : same_file b C C' m → owns m C' x ↔ owns m C x.
Proof. intros [_ Hp _]. unfold owns. split; intros (sl & Hsl & E & H0); exists sl; by rewrite Hp in *. Qed.

Lemma apart_sym C n m : apart_files C n m → apart_files C m n.
Proof. intros H x Hn Hm. by apply (H x). Qed.

Lemma same_apart b C C' n m : same_file b C C' n → same_file b C C' m → apart_files C n m → apart_files C' n m.
Proof. intros Hn Hm Hap x. rewrite (same_owns _ _ _ _ _ Hn), (same_owns _ _ _ _ _ Hm). apply Hap. Qed.

(** The link count is not part of the tree. *)
Lemma tree_link b C l m : tree_ok b C m → tree_ok b C (set_link_count l m).
Proof. by intros []. Qed.
Lemma apart_link C l n m : apart_files C n m → apart_files C (set_link_count l n) m.
Proof. intros H x Hm (sl & Hsl & E & H0). apply (H x Hm). by exists sl. Qed.

Section SameDir.

Context (b : superblock_t) (C C' : Z → list Z) (m : diskinode_t).
Context (Hm : same_file b C C' m) (Hz : 0 ≤ d_size m < 2 ^ 32).

Lemma same_entry k : 0 ≤ k < entries m → entry_at m C' k = entry_at m C k.
Proof.
  intros Hk. unfold entry_at. f_equal. apply list_fmap_ext. intros j o Ho. apply lookup_seqZ in Ho as [-> Hj].
  assert (sizeof_dentry * entries m ≤ d_size m) by (apply Z.mul_div_le; done).
  apply (sf_byte _ _ _ _ Hm). unfold sizeof_dentry in *. lia.
Qed.

Lemma same_named nm k : named m C' nm k ↔ named m C nm k.
Proof. unfold named. split; intros [Hk Hl]; (split; [done|]); by rewrite same_entry in *. Qed.

Lemma same_dir : dir_image b C m → dir_image b C' m.
Proof.
  intros [T1 T2 T3 T4 T5 T6 T7].
  split; [exact T1 | apply Hm | exact T3 | exact T4 | exact T5 | |].
  - intros o Ho. rewrite (sf_ptr _ _ _ _ Hm); [by apply T6|]. apply slot_of_ok, file_block_range. lia.
  - intros nm j k. rewrite !same_named. apply T7.
Qed.

Lemma same_cache d : cache_ok d m C → cache_ok d m C'.
Proof.
  intros (c & Hc & Ht). exists c. split; [exact Hc|]. intros nm e off Hx. destruct (Ht nm e off Hx) as (k & Hk & Eo & Ee & Ek).
  exists k. split_and!; [exact (proj2 (same_named nm k) Hk) | exact Eo | | exact Ek]. by rewrite (same_entry k (proj1 Hk)).
Qed.

End SameDir.

(** ** All files of the volume *)
Section Files.

Context (b : superblock_t) (img : Z → diskinode_t).

(** Every inode in use has its own blocks, the inode table on the card knows
    which inodes are in use, and number 0 is none of them. *)
Record vol_files C : Prop := {
  vf_len x : in_range b x → length (C x) = Z.to_nat BLOCK_SIZE;
  vf_tree j : in_table b j → d_type (img j) ≠ 0 → tree_ok b C (img j);
  vf_apart j k : in_table b j → in_table b k → d_type (img j) ≠ 0 → d_type (img k) ≠ 0 → j ≠ k →
    apart_files C (img j) (img k);
  vf_type j : in_table b j → d_type (disk_inode b C j) = 0 ↔ d_type (img j) = 0;
  vf_zero : d_type (img 0) = 0;
}.

Lemma stored_length C n x :
  sb_ok b → (∀ x, in_range b x → length (C x) = Z.to_nat BLOCK_SIZE) → 0 ≤ d_inode_num n < inode_count b → dinode_wf n →
  in_range b x → length (stored b n C x) = Z.to_nat BLOCK_SIZE.
Proof.
  intros Hb Hlen Hn Hwf Hx. unfold stored. destruct (inode_block_range b _ Hb Hn) as (_ & _ & Hin & Hk & _).
  destruct (decide (x = INODE2BLOCK b (d_inode_num n))) as [->|Hne]; [|rewrite fn_lookup_insert_ne by congruence; by apply Hlen].
  rewrite fn_lookup_insert, splice_length; [by apply Hlen|].
  rewrite (enc_dinode_length _ (proj1 (wf_direct _ Hwf))), (Hlen _ Hin), Hk. change INODE_PER_BLOCK with 64.
  pose proof (Z.mod_pos_bound (d_inode_num n) 64 ltac:(lia)). unfold sizeof_diskinode.
  change (Z.to_nat BLOCK_SIZE) with 4096%nat. lia.
Qed.

Lemma stored_free C n : sb_ok b → 0 ≤ d_inode_num n < inode_count b → first_free b C ≠ None → first_free b (stored b n C) ≠ None.
Proof.
  intros Hb Hn Hfree Hfull. apply Hfree. apply first_free_None. intros k Hk.
  rewrite <- (first_free_full _ _ Hfull k Hk). unfold map_bit, stored. rewrite fn_lookup_insert_ne; [done|].
  pose proof (stored_block b n C Hb Hn). destruct (map_block_range b k Hb Hk) as [? _]. lia.
Qed.

Lemma restored_files C C' :
  vol_ok b img C → vol_files C → restored b img C C' →
  vol_files C' ∧ (first_free b C ≠ None → first_free b C' ≠ None) ∧
  ∀ j, in_table b j → d_type (img j) ≠ 0 → same_file b C C' (img j).
Proof.
  intros Hv Hf Hr. induction Hr as [C|C C' k Hr IH Hk]; [split_and!; [done | done | intros; by apply same_refl, Hf]|].
  destruct (IH Hv Hf) as ([F1 F2 F3 F4 F5] & Hff & Hsame). pose proof (restored_vol _ _ _ _ Hv Hr) as Hv'.
  pose proof (vo_sb _ _ _ Hv') as Hb. pose proof (live_stored _ _ _ _ Hv' Hk) as Hn. destruct (live_num _ _ _ _ Hv' Hk) as [En Hwf].
  assert (∀ j, in_table b j → d_type (img j) ≠ 0 → same_file b C' (stored b (img k) C') (img j)) as Hst.
  { intros j Hj Ht. apply same_stored; [done | done | by apply F2]. }
  split_and!.
  - split.
    + intros x. by apply stored_length.
    + intros j Hj Ht. by apply Hst.
    + intros j l Hj Hl Tj Tl Hne. eapply same_apart; [by apply Hst.. | by apply F3].
    + intros j Hj. unfold stored. rewrite stored_images_len by done. case_decide as E; [|by apply F4].
      rewrite En in E. by subst.
    + done.
  - intros H. by apply stored_free, Hff.
  - intros j Hj Ht. eapply same_trans; [by apply Hsame | by apply Hst].
Qed.

End Files.

(** ** The tree with a new name *)
Definition t_add (T : ftree) (par : Z) (key : list Z) (j : Z) (dir : bool) : ftree :=
  mk_ftree (fun k => if k =? j then dir else t_dir T k)
    (fun k x =>
       if (k =? par) && bool_decide (x = key) then Some j
       else if (k =? j) && dir then
         if bool_decide (x = key_name DOT) then Some j else if bool_decide (x = key_name DOTDOT) then Some par else None
       else t_child T k x).

Lemma named_key n C x y k : key_name x = key_name y → named n C x k ↔ named n C y k.
Proof. intros E. unfold named, live_name. by rewrite E. Qed.

Section Grow.

Context (b : superblock_t) (img img' : Z → diskinode_t) (C C' : Z → list Z) (par j : Z) (nm : list Z) (dir : bool).

(** From [img] and [C] to [img'] and [C'], directory [par] got the name [nm] for the
    new inode [j], a directory or an empty file, and nothing else changed. *)
Record grown : Prop := {
  gr_par : live b img par ∧ d_type (img par) = FS_TYPE_DIR;
  gr_free : in_table b j ∧ 0 < j ∧ d_type (img j) = 0;
  gr_other k : k ≠ par → k ≠ j → img' k = img k;
  gr_same k : in_table b k → k ≠ par → k ≠ j → d_type (img k) ≠ 0 → same_file b C C' (img k) ∧
    apart_files C' (img' par) (img k) ∧ apart_files C' (img' j) (img k);
  gr_apart : apart_files C' (img' par) (img' j);
  gr_pdir : dir_image b C' (img' par);
  gr_pfields : d_inode_num (img' par) = par ∧ d_link_count (img' par) ≠ 0;
  gr_pnew : ∃ k, named (img' par) C' nm k ∧ inode_num (entry_at (img' par) C' k) = j;
  gr_pnames x k : key_name x ≠ key_name nm →
    (named (img' par) C' x k ↔ named (img par) C x k) ∧ (named (img par) C x k → entry_at (img' par) C' k = entry_at (img par) C k);
  gr_jfields : d_type (img' j) = (if dir then FS_TYPE_DIR else FS_TYPE_FILE) ∧ d_inode_num (img' j) = j ∧
    d_link_count (img' j) = 1 ∧ dinode_wf (img' j) ∧ tree_ok b C' (img' j);
  gr_jempty : if dir then dir_image b C' (img' j) ∧ dot_entries (img' j) C' j par else d_size (img' j) = 0;
  gr_len x : in_range b x → length (C' x) = Z.to_nat BLOCK_SIZE;
  gr_type k : in_table b k → d_type (disk_inode b C' k) = 0 ↔ d_type (img' k) = 0;
}.

Hypothesis (G : grown) (Hv : vol_ok b img C) (Hf : vol_files b img C).

Lemma grown_ne : par ≠ j.
Proof. intros E. destruct (gr_par G) as [(_ & Ht & _) _]. apply Ht. rewrite E. apply (gr_free G). Qed.

Lemma grown_size k : in_table b k → d_type (img k) ≠ 0 → 0 ≤ d_size (img k) < 2 ^ 32.
Proof. intros Hk Ht. apply wf_size. by apply (vo_num _ _ _ Hv). Qed.

Lemma grown_jtype : d_type (img' j) ≠ 0.
Proof. destruct (gr_jfields G) as (-> & _). by destruct dir. Qed.

Lemma grown_jdir : d_type (img' j) = FS_TYPE_DIR → dir = true.
Proof. destruct (gr_jfields G) as (-> & _). by destruct dir. Qed.

Lemma live_new : live b img' j.
Proof. split; [apply (gr_free G)|]. split; [exact grown_jtype|]. by destruct (gr_jfields G) as (_ & _ & -> & _). Qed.

Lemma live_grown q : live b img q → live b img' q.
Proof.
  intros (Hq & Ht & Hl). destruct (decide (q = par)) as [->|Hp].
  - split; [done|]. rewrite (di_type _ _ _ (gr_pdir G)). split; [done|]. apply (gr_pfields G).
  - destruct (decide (q = j)) as [->|Hj]; [by destruct (gr_free G) as (_ & _ & ?)|]. unfold live. by rewrite (gr_other G).
Qed.

Lemma par_pos : 0 < par.
Proof.
  destruct (gr_par G) as [(Hp & Ht & _) _]. unfold in_table in Hp. destruct (decide (par = 0)) as [E|]; [|lia].
  exfalso. apply Ht. rewrite E. apply (vf_zero _ _ _ Hf).
Qed.

(** The entry of the new name. *)
Lemma new_entry x k : key_name x = key_name nm → named (img' par) C' x k → inode_num (entry_at (img' par) C' k) = j.
Proof.
  intros Ek Hk. destruct (gr_pnew G) as (k' & Hk' & E). pose proof (proj1 (named_key _ _ _ _ _ Ek) Hk) as Hk0.
  by rewrite (di_uniq _ _ _ (gr_pdir G) nm k k' Hk0 Hk').
Qed.

Lemma grown_vol : vol_ok b img' C'.
Proof.
  split.
  - apply Hv.
  - intros k Hk. destruct (decide (k = par)) as [->|Hp]; [split; [apply (gr_pfields G) | apply (gr_pdir G)]|].
    destruct (decide (k = j)) as [->|Hj]; [split; apply (gr_jfields G)|]. rewrite (gr_other G) by done. by apply Hv.
  - intros k Hk Ht. destruct (decide (k = par)) as [->|Hp]; [apply (gr_pdir G)|].
    destruct (decide (k = j)) as [->|Hj]; [pose proof (gr_jempty G) as He; rewrite (grown_jdir Ht) in He; apply He|].
    rewrite (gr_other G) in * by done. assert (d_type (img k) ≠ 0) as H0 by (by rewrite Ht).
    eapply same_dir; [by apply (gr_same G) | by apply grown_size | by apply Hv].
  - intros k x e Hk Ht Hn. destruct (decide (k = par)) as [->|Hp].
    { destruct (decide (key_name x = key_name nm)) as [Ek|Ek].
      - rewrite (new_entry x e Ek Hn). split; [apply (gr_free G) | apply live_new].
      - destruct (gr_pnames G x e Ek) as [Hiff He]. pose proof (proj1 Hiff Hn) as Hn0. rewrite (He Hn0).
        destruct (vo_entry _ _ _ Hv par x e) as [? ?]; [exact Hk | apply (gr_par G) | exact Hn0 |]. split; [done | by apply live_grown]. }
    destruct (decide (k = j)) as [->|Hj].
    { pose proof (gr_jempty G) as He. rewrite (grown_jdir Ht) in He. destruct He as [_ He].
      pose proof (proj1 (dot_named _ _ _ _ _ _ He) Hn) as Hn0. destruct He as (_ & _ & _ & N0 & N1).
      destruct Hn0 as [[-> _]|[-> _]]; rewrite ?N0, ?N1; split;
        [apply (gr_free G) | exact live_new | exact par_pos | apply live_grown, (gr_par G)]. }
    rewrite (gr_other G) in * by done. assert (d_type (img k) ≠ 0) as H0 by (by rewrite Ht).
    destruct (gr_same G k Hk Hp Hj H0) as [Hs _]. pose proof (grown_size k Hk H0) as Hz.
    pose proof (proj1 (same_named b C C' _ Hs Hz x e) Hn) as Hn0. rewrite (same_entry b C C' _ Hs Hz) by apply Hn0.
    destruct (vo_entry _ _ _ Hv k x e Hk Ht Hn0). split; [done | by apply live_grown].
Qed.

Lemma grown_files : vol_files b img' C'.
Proof.
  assert (∀ k, in_table b k → k ≠ par → k ≠ j → d_type (img' k) ≠ 0 → same_file b C C' (img' k) ∧
    apart_files C' (img' par) (img' k) ∧ apart_files C' (img' j) (img' k)) as Hs.
  { intros k Hk Hp Hj. rewrite (gr_other G) by done. by apply (gr_same G). }
  split.
  - exact (gr_len G).
  - intros k Hk Ht. destruct (decide (k = par)) as [->|Hp]; [apply (gr_pdir G)|].
    destruct (decide (k = j)) as [->|Hj]; [apply (gr_jfields G) | by apply Hs].
  - assert (∀ l, in_table b l → d_type (img' l) ≠ 0 → par ≠ l → apart_files C' (img' par) (img' l)) as Hp.
    { intros l Hl Tl Hne. destruct (decide (l = j)) as [->|Hj]; [apply (gr_apart G) | by apply Hs]. }
    assert (∀ l, in_table b l → d_type (img' l) ≠ 0 → j ≠ l → apart_files C' (img' j) (img' l)) as Hj.
    { intros l Hl Tl Hne. destruct (decide (l = par)) as [->|Hlp]; [apply apart_sym, (gr_apart G) | by apply Hs]. }
    intros k l Hk Hl Tk Tl Hne.
    destruct (decide (k = par)) as [->|Hkp]; [by apply Hp|]. destruct (decide (k = j)) as [->|Hkj]; [by apply Hj|].
    destruct (decide (l = par)) as [->|Hlp]; [by apply apart_sym, Hp|]. destruct (decide (l = j)) as [->|Hlj]; [by apply apart_sym, Hj|].
    destruct (Hs k Hk Hkp Hkj Tk) as [Sk _], (Hs l Hl Hlp Hlj Tl) as [Sl _].
    eapply same_apart; [exact Sk | exact Sl |]. rewrite !(gr_other G) in * by done. by apply Hf.
  - exact (gr_type G).
  - rewrite (gr_other G); [exact (vf_zero _ _ _ Hf) | pose proof par_pos; lia | pose proof (gr_free G); lia].
Qed.

Lemma grown_tree T : tree_shows b img C T → tree_shows b img' C' (t_add T par (key_name nm) j dir).
Proof.
  pose proof grown_ne as Hpj. intros [Hd Hc]. split.
  - intros k Hk. cbn [t_add t_dir]. destruct (Z.eqb_spec k j) as [->|Hj].
    + destruct (gr_jfields G) as (-> & _). by destruct dir.
    + rewrite (Hd k Hk). destruct (decide (k = par)) as [->|Hp]; [|by rewrite (gr_other G)].
      rewrite (di_type _ _ _ (gr_pdir G)). by rewrite (proj2 (gr_par G)).
  - intros k x q Hk Ht. cbn [t_add t_child]. destruct (Z.eqb_spec k par) as [->|Hp]; cbn [andb].
    { rewrite (proj2 (Z.eqb_neq par j) Hpj). cbn [andb]. case_bool_decide as Ek.
      - split; [intros [= <-]|].
        + destruct (gr_pnew G) as (e & He & En). exists e. split; [by apply (named_key _ _ _ _ _ Ek) | exact En].
        + intros (e & He & <-). by rewrite (new_entry x e Ek He).
      - rewrite (Hc par x q Hk (proj2 (gr_par G))).
        split; intros (e & He & En); exists e; destruct (gr_pnames G x e Ek) as [Hiff Heq].
        + split; [exact (proj2 Hiff He) | by rewrite (Heq He)].
        + pose proof (proj1 Hiff He) as He0. split; [exact He0 | by rewrite <- (Heq He0)]. }
    destruct (Z.eqb_spec k j) as [->|Hj]; cbn [andb].
    { pose proof (gr_jempty G) as He. rewrite (grown_jdir Ht) in He |- *. destruct He as [_ He].
      pose proof He as (_ & _ & _ & N0 & N1). split.
      - case_bool_decide as E1.
        { intros [= <-]. exists 0. split; [apply (dot_named _ _ _ _ x 0 He); by left | exact N0]. }
        case_bool_decide as E2; [|done]. intros [= <-]. exists 1. split; [apply (dot_named _ _ _ _ x 1 He); by right | exact N1].
      - intros (e & Hn & <-). destruct (proj1 (dot_named _ _ _ _ x e He) Hn) as [[-> Ek]|[-> Ek]]; rewrite Ek, ?N0, ?N1; done. }
    rewrite (gr_other G) in * by done. assert (d_type (img k) ≠ 0) as H0 by (by rewrite Ht).
    destruct (gr_same G k Hk Hp Hj H0) as [Hs _]. pose proof (grown_size k Hk H0) as Hz.
    rewrite (Hc k x q Hk Ht). split; intros (e & He & En); exists e.
    + split; [exact (proj2 (same_named b C C' _ Hs Hz x e) He) | by rewrite (same_entry b C C' _ Hs Hz) by apply He].
    + pose proof (proj1 (same_named b C C' _ Hs Hz x e) He) as He0.
      split; [exact He0 | by rewrite <- (same_entry b C C' _ Hs Hz) by apply He0].
Qed.

(** The cache follows: only entries of the two directories are new. *)
Lemma grown_caches d d' :
  caches_ok b img d C → cache_ok d' (img' par) C' → (dir = true → cache_ok d' (img' j) C') →
  (∀ m : dmap, dcache_holds d m → ∃ m' : dmap, dcache_holds d' m' ∧ ∀ k x, k ≠ par → k ≠ j → m' !! (k, x) = m !! (k, x)) →
  caches_ok b img' d' C'.
Proof.
  intros (m & Hm & Ht & Hz) (mp & Hmp & Hcp) Hcj Hkeep. destruct (Hkeep m Hm) as (m' & Hm' & Eo).
  rewrite (dcache_holds_inj _ _ _ Hmp Hm'), (proj1 (gr_pfields G)) in Hcp.
  exists m'. split_and!; [exact Hm' | |].
  - intros k x e off Hk Hd Hx. destruct (decide (k = par)) as [->|Hp]; [by apply Hcp|].
    destruct (decide (k = j)) as [->|Hj].
    { destruct (Hcj (grown_jdir Hd)) as (mj & Hmj & Hc). rewrite (dcache_holds_inj _ _ _ Hmj Hm') in Hc.
      rewrite (proj1 (proj2 (gr_jfields G))) in Hc. by apply Hc. }
    rewrite (gr_other G) in * by done. rewrite Eo in Hx by done. assert (d_type (img k) ≠ 0) as H0 by (by rewrite Hd).
    destruct (gr_same G k Hk Hp Hj H0) as [Hs _]. pose proof (grown_size k Hk H0) as Hsz.
    destruct (Ht k x e off Hk Hd Hx) as (i & Hi & E1 & E2 & E3). exists i.
    split_and!; [exact (proj2 (same_named b C C' _ Hs Hsz x i) Hi) | exact E1 | | exact E3].
    rewrite (same_entry b C C' _ Hs Hsz); [exact E2 | apply Hi].
  - intros k x Hk Hd. assert (k ≠ par) as Hp by (intros ->; by rewrite (di_type _ _ _ (gr_pdir G)) in Hd).
    assert (k ≠ j) as Hj by (intros ->; by apply grown_jtype). rewrite Eo by done. apply Hz; [done|]. by rewrite <- (gr_other G).
Qed.

End Grow.
