(* ===== verification/CreateTheorems.v ===== *)
(** * Creating a name

    [path_create] of a name that its directory does not have: the run of the call,
    and the tree with the new name. *)

From S2P Require Import Prelude Bytes CString Block BlockProofs BlockAlloc SdCard PageCache BlockTheorems Dcache Inode.
From S2P Require Import InodeLayout InodeMap InodeMapRun InodeIO InodeTheorems InodeHit Dir DirTheorems Fs FdTheorems InodeTable DirImage Mkfs MkfsTheorems PathTheorems TreeGrow.

(** The inode [inode_alloc] will take. *)
Definition first_inode (b : superblock_t) (img : Z → diskinode_t) : option Z :=
  snd <$> list_find (fun j => d_type (img j) = 0) (seqZ 1 (inode_count b - 1)).

Lemma first_inode_Some b img j :
  first_inode b img = Some j → 1 ≤ j < inode_count b ∧ d_type (img j) = 0 ∧ ∀ q, 1 ≤ q < j → d_type (img q) ≠ 0.
Proof.
  unfold first_inode. intros ([i q] & Hq & ->)%fmap_Some. apply list_find_Some in Hq as (Hi & Ht & Hb).
  apply lookup_seqZ in Hi as [-> Hi]. cbn [snd]. split_and!; [lia | lia | done |]. intros q Hq.
  apply (Hb (Z.to_nat (q - 1)) q); [apply lookup_seqZ; lia | lia].
Qed.

Definition type_of (dir : bool) : Z := if dir then FS_TYPE_DIR else FS_TYPE_FILE.
(** The image of a new inode with its first link, and its open slot. *)
Definition new_node (dir : bool) (j : Z) : diskinode_t := set_link_count 1 (new_dinode (type_of dir) j).
Definition new_child (dir : bool) (j : Z) : inode_t := mk_inode (new_node dir j) true 1 true.

Lemma new_owns C dir j x : ¬ owns (new_node dir j) C x.
Proof.
  intros (sl & Hsl & E & H0). assert (ptr (new_node dir j) C sl < 0); [|lia]. clear E.
  assert (d_direct (new_node dir j) = replicate 10 (-1)) as E1 by done.
  destruct sl as [k| |k| |i|i k]; cbn [ptr slot_ok] in *; rewrite ?E1; try done. by rewrite lookup_replicate_2.
Qed.

Lemma new_node_wf dir j : 0 ≤ j < 2 ^ 32 → dinode_wf (new_node dir j).
Proof. intros Hj. destruct (new_dinode_wf (type_of dir) j Hj). by split. Qed.

Lemma new_node_type dir j : d_type (new_node dir j) = type_of dir.
Proof. by destruct dir. Qed.

Section Create.

Context (b : superblock_t) (img : Z → diskinode_t) {D : Type} `{SectorStore D}.
Implicit Types (s : fstate D) (C : Z → list Z).

(** ** The new inode *)
Lemma alloc_child s C p x par dir j :
  fs_hand b img s C p x par → held img true par x → vol_files b img C → first_inode b img = Some j →
  ∃ q s', q ≠ p ∧ inodes s !! q = Some empty_inode ∧ bsg b (fb s') (stored b (new_dinode (type_of dir) j) C) [] ∧
    inodes s' = <[q := new_child dir j]> (inodes s) ∧ fdc s' = fdc s ∧
    ∀ A (K : nat → M (fstate D) A),
      (child <- inode_alloc (type_of dir) ;; inode_open child ;; upd_node child (set_link_count 1) ;; K child) s = K q s'.
Proof.
  intros Ha Hh Hf Hj. destruct (first_inode_Some _ _ _ Hj) as (Hjr & Hj0 & Hjb).
  pose proof Ha as [A1 A2 A3 A4 [Hsl Hsu (e & f & Hef & He & Hff)] Ao A6 A7]. pose proof Hh as [Hxv Hxl Hxr Hxn].
  destruct (live_num _ _ _ _ A2 A4) as [Enum _]. pose proof (lookup_lt_Some _ _ _ A3) as Hlt.
  destruct (inode_block_range b j (vo_sb _ _ _ A2) ltac:(lia)) as (_ & _ & _ & _ & Hj31).
  destruct (inode_alloc_run b s C j (type_of dir) A1) as (bs1 & R1 & Hb1).
  { destruct dir; set_solver. } { lia. }
  { intros q Hq Hd. apply (Hjb q Hq). apply (vf_type _ _ _ Hf); [unfold in_table; lia | done]. }
  { apply (vf_type _ _ _ Hf); [unfold in_table; lia | done]. }
  set (C2 := stored b _ C) in *. set (s1 := mk_fstate bs1 (inodes s) (fdc s)) in *.
  assert (∀ r y, inodes s !! r = Some y → y = empty_inode ∧ r ≠ p ∨ d_type (node y) ≠ 0 ∧ d_inode_num (node y) ≠ j) as Hall.
  { intros r y Hr. destruct (decide (r = p)) as [->|Hne].
    - assert (y = x) as -> by congruence. right. rewrite Hxn, Enum. split; [apply A4|]. intros ->. by destruct A4 as (_ & ? & _).
    - destruct (Hsl r y) as [->|[S1 S2 S3 S4 S5]]; [by rewrite list_lookup_insert_ne | by left |]. right.
      destruct S4 as (? & S4 & _). rewrite S5. split; [done|]. rewrite <- S5. intros Ey. rewrite Ey in S4. done. }
  assert (∃ e0, inodes s !! e0 = Some empty_inode) as (e0 & He0).
  { destruct (decide (e = p)) as [->|]; [exists f | exists e];
      [rewrite list_lookup_insert_ne in Hff by congruence | rewrite list_lookup_insert_ne in He by congruence]; done. }
  pose proof (inode_ref_run s1 j) as R2. rewrite u32_small in R2 by lia.
  destruct (inode_ref j s1) as [[q s2]| |] eqn:Er; [|destruct (R2 empty_inode); [by eapply list_elem_of_lookup_2 | done]|done].
  destruct R2 as (y & y' & Hq & Hslot & _ & ->).
  assert (y = empty_inode ∧ q ≠ p ∧ y' = mk_inode (set_inode_num j empty_dinode) false 1 false) as (-> & Hqp & ->).
  { destruct (Hall q y Hq) as [[-> Hne]|[Ht Hn]]; destruct Hslot as [[(T1 & T2 & T3) E]|[T1 E]]; try done. }
  set (i1 := mk_inode (set_inode_num j empty_dinode) false 1 false) in *.
  set (s2 := mk_fstate bs1 (<[q := i1]> (inodes s)) (fdc s)).
  pose proof (lookup_lt_Some _ _ _ Hq) as Hql. cbn [s1 inodes] in Hq, Hql.
  assert (disk_inode b C2 j = new_dinode (type_of dir) j) as Ed.
  { unfold C2. rewrite (stored_image b (fb s)); [by rewrite decide_True | done | cbn; lia | apply new_dinode_wf; lia | lia]. }
  destruct (open_load_run b s2 C2 q i1 Hb1) as (bs2 & R3 & Hb2);
    [by apply list_lookup_insert_eq | done | done | cbn; lia | cbn [i1 node set_inode_num d_inode_num]; rewrite Ed; by destruct dir |].
  cbn [i1 node set_inode_num d_inode_num ref_count] in R3. rewrite Ed in R3. cbn [s2 inodes fdc] in R3. rewrite list_insert_insert_eq in R3.
  eexists q, (mk_fstate bs2 (<[q := new_child dir j]> (inodes s)) (fdc s)). split_and!; [done | done | exact Hb2 | done | done |].
  intros A K. rewrite (bind_Ok _ _ s q s2) by (by rewrite R1). rewrite (bind_Ok _ _ _ _ _ R3).
  rewrite (bind_Ok _ _ _ _ _ (upd_node_run (mk_fstate bs2 _ _) q _ _ (list_lookup_insert_eq (inodes s) q _ Hql))).
  cbn [fb inodes fdc]. by rewrite list_insert_insert_eq.
Qed.

(** ** Its entries *)

(** The new inode at slot [q] became [n]. *)
Record filled s C (q : nat) (dir : bool) (j par : Z) s' C' (n : diskinode_t) : Prop := {
  fi_bsg : bsg b (fb s') C' [];
  fi_inodes : inodes s' = <[q := set_node n (new_child dir j)]> (inodes s);
  fi_fields : d_type n = type_of dir ∧ d_link_count n = 1 ∧ d_inode_num n = j;
  fi_wf : dinode_wf n;
  fi_tree : tree_ok b C' n;
  fi_images k : in_table b k → k ≠ j → disk_inode b C' k = disk_inode b C k;
  fi_image : d_type (disk_inode b C' j) = type_of dir;
  fi_others : others_kept b C (new_node dir j) C' n;
  fi_cache m : dcache_holds (fdc s) m → ∃ m', dcache_holds (fdc s') m' ∧ ∀ k x, k ≠ j → m' !! (k, x) = m !! (k, x);
  fi_empty : if dir then dir_image b C' n ∧ dot_entries n C' j par else d_size n = 0;
  fi_cached : dir = true → cache_ok (fdc s') n C';
}.

Lemma fill_run s C q dir j par m :
  bsg b (fb s) C [] → inodes s !! q = Some (new_child dir j) → 1 ≤ j < inode_count b → 0 < par < 2 ^ 32 →
  disk_inode b C j = new_dinode (type_of dir) j → dcache_holds (fdc s) m → (∀ x, m !! (j, x) = None) →
  (dir = true → first_free b C ≠ None) →
  ∃ s' C' n, create_dots q (type_of dir) j par s = Ok (true, s') ∧ filled s C q dir j par s' C' n.
Proof.
  intros Hb Hq Hj Hpar Hd Hm Hmj Hroom. unfold create_dots.
  destruct (inode_block_range b j (bsg_sb _ _ _ _ Hb) ltac:(lia)) as (_ & _ & _ & _ & Hj31).
  destruct dir; cbn [type_of]; cycle 1.
  { exists s, C, (new_node false j). split; [done|]. split; try done.
    - rewrite list_insert_id; [done|]. by rewrite Hq.
    - apply new_node_wf. lia.
    - by apply empty_tree.
    - by rewrite Hd.
    - intros m' Hm'. by exists m'. }
  specialize (Hroom eq_refl). change (FS_TYPE_DIR =? FS_TYPE_DIR) with true. cbn iota.
  assert (dir_ok b s C q (new_child true j)) as Hdir.
  { apply (empty_dir_ok b s C q (new_child true j) m);
      [done | done | done | cbn; lia | done | done | apply new_node_wf; lia | done | exact Hmj | done..]. }
  destruct (link_dots b s C q (new_child true j) j par Hdir) as (s1 & s2 & C2 & n2 & R1 & R2 & [D1 D2 D3 D4 D5 D6 D7]);
    [done | done | lia | lia |].
  exists s2, C2, n2. cbn [new_child node new_node set_link_count new_dinode d_type d_link_count d_inode_num] in *.
  split; [rewrite (bind_Ok _ _ _ _ _ R1); cbn [negb Z.eqb]; by rewrite (bind_Ok _ _ _ _ _ R2)|].
  pose proof (dir_ok_image _ _ _ _ _ D1) as Himg. cbn [node set_node] in Himg.
  split; try done; [apply D1 | apply Himg | apply Himg | | |].
  - intros k Hk Hne. by rewrite D5, decide_False.
  - rewrite D5, decide_True by lia. apply D4.
  - intros _. apply (do_cache _ _ _ _ _ D1).
Qed.

(** ** The volume afterwards *)

(** The image of every inode when [par] became [np] and [j] became [n]. *)
Definition img_with (par j : Z) (np n : diskinode_t) : Z → diskinode_t :=
  fun k => if decide (k = par) then np else if decide (k = j) then n else img k.

(** The parent, with one more link when the child is a directory. *)
Definition more_link (dir : bool) (n : diskinode_t) : diskinode_t :=
  if dir then set_link_count (u16 (d_link_count n + 1)) n else n.

Section Assemble.

Context (s1 s2 s3 s4 : fstate D) (C C3 C4 C5 : Z → list Z) (p q : nat) (x : inode_t) (par j : Z) (nm : list Z) (dir : bool).
Context (k0 : Z) (n np np' : diskinode_t).
Let C2 := stored b (new_dinode (type_of dir) j) C.
Hypothesis (Hv : vol_ok b img C) (Hf : vol_files b img C).
Hypothesis (Hpar : live b img par) (Hpd : d_type (img par) = FS_TYPE_DIR) (Hj : first_inode b img = Some j).
Hypothesis (Hx : node x = img par) (Hfill : filled s2 C2 q dir j par s3 C3 n).
Hypothesis (Hlink : linked b s3 C3 p x nm j k0 s4 C4 np).
Hypothesis (Enp : np' = more_link dir np) (Hmore : d_link_count (img par) + 1 < 2 ^ 16).
Hypothesis (H5 : C5 = C4 ∨ C5 = stored b np' C4) (Hlen : ∀ y, in_range b y → length (C5 y) = Z.to_nat BLOCK_SIZE).

Lemma as_range : 1 ≤ j < inode_count b ∧ d_type (img j) = 0 ∧ par ≠ j ∧ 0 ≤ j < 2 ^ 31.
Proof.
  destruct (first_inode_Some _ _ _ Hj) as (Hr & H0 & _). split_and!; [lia | lia | done | | |].
  - intros E. destruct Hpar as (_ & Ht & _). apply Ht. by rewrite E.
  - destruct (inode_block_range b j (vo_sb _ _ _ Hv) ltac:(lia)) as (_ & _ & _ & _ & ?). lia.
  - destruct (inode_block_range b j (vo_sb _ _ _ Hv) ltac:(lia)) as (_ & _ & _ & _ & ?). lia.
Qed.

Lemma as_np : d_type np' = FS_TYPE_DIR ∧ d_inode_num np' = par ∧ d_link_count np' ≠ 0 ∧ dir_image b C4 np' ∧
  (∀ y c, named np' C4 y c ↔ named np C4 y c) ∧ (∀ c, entry_at np' C4 c = entry_at np C4 c) ∧
  (∀ m, apart_files C4 np m → apart_files C4 np' m).
Proof.
  destruct (ln_fields _ _ _ _ _ _ _ _ _ _ _ Hlink) as (F1 & F2 & F3). rewrite Hx in *.
  destruct (live_num _ _ _ _ Hv Hpar) as [En Hwf]. pose proof (dir_ok_image _ _ _ _ _ (ln_dir _ _ _ _ _ _ _ _ _ _ _ Hlink)) as Himg.
  cbn [node set_node] in Himg. pose proof (wf_link _ Hwf). destruct Hpar as (_ & _ & Hl).
  assert (u16 (d_link_count np + 1) = d_link_count np + 1) as Eu by (unfold u16, wrap; apply Z.mod_small; lia).
  rewrite Enp. unfold more_link. destruct dir.
  - rewrite Eu. split_and!; [cbn; congruence | cbn; congruence | cbn; lia | apply dir_image_link; [lia | done] | done | done |].
    intros m Hm. by apply apart_link.
  - split_and!; try done; congruence.
Qed.

(** From [C4] to [C5] at most an image in the inode table changed. *)
Lemma as_same m : tree_ok b C4 m → same_file b C4 C5 m.
Proof.
  intros Hm. destruct H5 as [->| ->]; [by apply same_refl|]. destruct as_np as (_ & En & _). destruct Hpar as [Hp _].
  apply same_stored; [apply Hv | by rewrite En | done].
Qed.

Lemma as_image k : in_table b k → disk_inode b C5 k = disk_inode b C4 k ∨ k = par ∧ disk_inode b C5 k = np'.
Proof.
  intros Hk. destruct H5 as [->|E]; [by left|]. destruct as_np as (_ & En & _ & Himg & _). destruct Hpar as [Hp _].
  pose proof (fo_bsg _ _ _ _ _ (do_file _ _ _ _ _ (ln_dir _ _ _ _ _ _ _ _ _ _ _ Hlink))) as Hb4.
  rewrite E, (stored_image b (fb s4)); [|done | by rewrite En | apply Himg | done]. rewrite En. case_decide; [by right | by left].
Qed.

(** The files that were there. *)
Lemma as_used k : in_table b k → d_type (img k) ≠ 0 → same_file b C C3 (img k) ∧ apart_files C3 n (img k).
Proof.
  intros Hk Ht. destruct as_range as (Hr & H0 & _ & Hj31). pose proof (vf_tree _ _ _ Hf k Hk Ht) as Hm.
  assert (same_file b C C2 (img k)) as S2 by (apply same_stored; [apply Hv | cbn; lia | done]).
  destruct (same_kept b C2 _ C3 n (img k) (fi_others _ _ _ _ _ _ _ _ _ Hfill) (sf_tree _ _ _ _ S2)) as [S3 Ap].
  { intros y _ Hy. by apply new_owns in Hy. }
  split; [by eapply same_trans | done].
Qed.

Lemma as_other k : in_table b k → d_type (img k) ≠ 0 → k ≠ par →
  same_file b C C5 (img k) ∧ apart_files C5 np' (img k) ∧ apart_files C5 n (img k).
Proof.
  intros Hk Ht Hne. destruct (as_used k Hk Ht) as [S3 A3]. destruct (as_used par (proj1 Hpar)) as [Sp Ap]; [apply Hpar|].
  pose proof (ln_others _ _ _ _ _ _ _ _ _ _ _ Hlink) as Hk4. rewrite Hx in Hk4.
  assert (apart_files C3 (img par) (img k)) as A.
  { eapply same_apart; [exact Sp | exact S3 |]. destruct Hpar as (? & ? & _).
    apply (vf_apart _ _ _ Hf); (done || congruence). }
  destruct (same_kept b C3 _ C4 np (img k) Hk4 (sf_tree _ _ _ _ S3) A) as [S4 A4].
  destruct (same_kept b C3 _ C4 np n Hk4 (fi_tree _ _ _ _ _ _ _ _ _ Hfill) (apart_sym _ _ _ Ap)) as [Sn An].
  destruct as_np as (_ & _ & _ & Himg & _ & _ & Hap). pose proof (as_same _ (sf_tree _ _ _ _ S4)) as S5.
  split_and!.
  - eapply same_trans; [exact S3|]. by eapply same_trans.
  - eapply same_apart; [apply as_same, Himg | exact S5 | by apply Hap].
  - eapply same_apart; [apply as_same, Sn | exact S5 |]. by eapply same_apart.
Qed.

(** The new inode. *)
Lemma as_new : same_file b C3 C5 n ∧ apart_files C5 np' n.
Proof.
  destruct (as_used par (proj1 Hpar)) as [Sp Ap]; [apply Hpar|].
  pose proof (ln_others _ _ _ _ _ _ _ _ _ _ _ Hlink) as Hk4. rewrite Hx in Hk4.
  destruct (same_kept b C3 _ C4 np n Hk4 (fi_tree _ _ _ _ _ _ _ _ _ Hfill) (apart_sym _ _ _ Ap)) as [Sn An].
  destruct as_np as (_ & _ & _ & Himg & _ & _ & Hap). split; [eapply same_trans; [exact Sn | apply as_same, Sn]|].
  eapply same_apart; [apply as_same, Himg | apply as_same, Sn | by apply Hap].
Qed.

(** The other images on the card. *)
Lemma as_kept k : in_table b k → k ≠ par → k ≠ j → disk_inode b C5 k = disk_inode b C k.
Proof.
  intros Hk Hp Hkj. destruct as_range as (Hr & H0 & Hne & Hj31).
  destruct (as_image k Hk) as [->|[-> _]]; [|done].
  rewrite (ln_images _ _ _ _ _ _ _ _ _ _ _ Hlink k Hk), Hx, (proj1 (live_num _ _ _ _ Hv Hpar)), decide_False by done.
  rewrite (fi_images _ _ _ _ _ _ _ _ _ Hfill k Hk Hkj). unfold C2, stored.
  rewrite stored_images_len; [|apply Hv | apply Hf | cbn; lia | apply new_dinode_wf; lia | done].
  cbn [new_dinode d_inode_num]. by rewrite decide_False.
Qed.

Lemma as_type k : in_table b k → d_type (disk_inode b C5 k) = 0 ↔ d_type (img_with par j np' n k) = 0.
Proof.
  intros Hk. destruct as_range as (Hr & H0 & Hne & Hj31). destruct as_np as (Ty & _).
  destruct (ln_fields _ _ _ _ _ _ _ _ _ _ _ Hlink) as (Tn & _). rewrite Hx, Hpd in Tn.
  pose proof (ln_images _ _ _ _ _ _ _ _ _ _ _ Hlink k Hk) as E4. rewrite Hx, (proj1 (live_num _ _ _ _ Hv Hpar)) in E4.
  unfold img_with. case_decide as Ep.
  { rewrite Ty. destruct (as_image k Hk) as [->|[_ ->]]; [by rewrite E4, Tn | by rewrite Ty]. }
  case_decide as Ekj; [|rewrite as_kept by done; by apply Hf].
  destruct (as_image k Hk) as [->|[? _]]; [|done].
  rewrite E4, Ekj, (fi_image _ _ _ _ _ _ _ _ _ Hfill), (proj1 (fi_fields _ _ _ _ _ _ _ _ _ Hfill)). done.
Qed.

Lemma assembled : grown b img (img_with par j np' n) C C5 par j nm dir.
Proof.
  destruct as_range as (Hr & H0 & Hne & Hj31). destruct as_np as (Ty & En & Hl & Himg & Hnm & Hen & _).
  destruct as_new as [Sn An]. destruct (as_used par (proj1 Hpar)) as [Sp _]; [apply Hpar|].
  destruct (fi_fields _ _ _ _ _ _ _ _ _ Hfill) as (Fn1 & Fn2 & Fn3).
  assert (img_with par j np' n par = np') as Ep by (unfold img_with; by rewrite decide_True).
  assert (img_with par j np' n j = n) as Ej by (unfold img_with; by rewrite decide_False, decide_True by congruence).
  pose proof (as_same np' (di_tree _ _ _ Himg)) as S5. pose proof (wf_size _ (di_wf _ _ _ Himg)) as Hz.
  pose proof (wf_size _ (proj2 (live_num _ _ _ _ Hv Hpar))) as Hzp. pose proof (wf_size _ (fi_wf _ _ _ _ _ _ _ _ _ Hfill)) as Hzn.
  assert (∀ y c, named np' C5 y c ↔ named np C4 y c) as Hn5 by (intros y c; by rewrite (same_named b C4 C5 np' S5 Hz), Hnm).
  assert (∀ y c, named np C4 y c → entry_at np' C5 c = entry_at np C4 c) as He5.
  { intros y c Hc. rewrite (same_entry b C4 C5 np' S5 Hz), Hen; [done|]. by apply (Hnm y c). }
  split; rewrite ?Ep, ?Ej.
  - done.
  - split_and!; [unfold in_table; lia | lia | done].
  - intros k Hkp Hkj. unfold img_with. by rewrite !decide_False.
  - intros k Hk Hkp Hkj Ht. by apply as_other.
  - exact An.
  - by apply (same_dir b C4 C5).
  - done.
  - exists k0. pose proof (ln_named _ _ _ _ _ _ _ _ _ _ _ Hlink) as Hk0.
    split; [exact (proj2 (Hn5 _ _) Hk0) | rewrite (He5 _ _ Hk0); exact (ln_num _ _ _ _ _ _ _ _ _ _ _ Hlink)].
  - intros y c Hy. destruct (ln_names _ _ _ _ _ _ _ _ _ _ _ Hlink y c Hy) as [Hiff Heq]. rewrite Hx in Hiff, Heq.
    pose proof (same_named b C C3 _ Sp Hzp y c) as Hs. split.
    { exact (iff_trans (Hn5 y c) (iff_trans Hiff Hs)). }
    intros Hc. pose proof (proj2 Hs Hc) as Hc3. rewrite (He5 y c (proj2 Hiff Hc3)), (Heq Hc3).
    exact (same_entry b C C3 _ Sp Hzp c (proj1 Hc)).
  - split_and!; [by rewrite Fn1 | done | done | exact (fi_wf _ _ _ _ _ _ _ _ _ Hfill) | apply Sn].
  - pose proof (fi_empty _ _ _ _ _ _ _ _ _ Hfill) as He. destruct dir; [|done]. destruct He as [He (E1 & E2 & E3 & E4 & E5)].
    split; [by apply (same_dir b C3 C5)|]. unfold dot_entries. rewrite !(same_entry b C3 C5 n Sn Hzn), !(same_named b C3 C5 n Sn Hzn) by lia.
    done.
  - exact Hlen.
  - exact as_type.
Qed.

(** The cache. *)
Lemma as_caches : fdc s2 = fdc s1 → caches_ok b img (fdc s1) C → caches_ok b (img_with par j np' n) (fdc s4) C5.
Proof.
  intros Es Hc. destruct as_range as (Hr & H0 & Hne & Hj31). destruct as_np as (Ty & En & Hl & Himg & Hnm & Hen & _).
  destruct as_new as [Sn _]. pose proof (wf_size _ (di_wf _ _ _ Himg)) as Hz. pose proof (wf_size _ (fi_wf _ _ _ _ _ _ _ _ _ Hfill)) as Hzn.
  destruct (fi_fields _ _ _ _ _ _ _ _ _ Hfill) as (_ & _ & Fn). destruct (live_num _ _ _ _ Hv Hpar) as [Epar _].
  assert (∀ m, dcache_holds (fdc s3) m → ∃ m', dcache_holds (fdc s4) m' ∧ ∀ k y, k ≠ par → m' !! (k, y) = m !! (k, y)) as Hkl.
  { intros m Hm. destruct (ln_cache _ _ _ _ _ _ _ _ _ _ _ Hlink m Hm) as (m' & Hm' & E). rewrite Hx, Epar in E. by exists m'. }
  eapply (grown_caches b img _ C C5 par j nm dir assembled Hv (fdc s1)); [exact Hc | | |].
  - unfold img_with. rewrite decide_True by done. apply (same_cache b C4 C5); [by apply as_same, Himg | exact Hz |].
    destruct (do_cache _ _ _ _ _ (ln_dir _ _ _ _ _ _ _ _ _ _ _ Hlink)) as (m & Hm & Ht). cbn [node set_node] in Ht.
    destruct (ln_fields _ _ _ _ _ _ _ _ _ _ _ Hlink) as (_ & _ & E3). rewrite Hx, Epar in E3. rewrite E3 in Ht.
    exists m. split; [exact Hm|]. rewrite En. intros y e off Hy. destruct (Ht y e off Hy) as (k & Hk & Eo & Ee & Ek).
    exists k. split_and!; [exact (proj2 (Hnm y k) Hk) | exact Eo | by rewrite Hen | exact Ek].
  - intros Hd. unfold img_with. rewrite decide_False, decide_True by congruence. apply (same_cache b C3 C5); [exact Sn | exact Hzn |].
    destruct (fi_cached _ _ _ _ _ _ _ _ _ Hfill Hd) as (m & Hm & Ht). destruct (Hkl m Hm) as (m' & Hm' & E).
    exists m'. split; [exact Hm'|]. intros y e off. rewrite Fn, E by congruence. rewrite <- Fn. apply Ht.
  - intros m Hm. rewrite <- Es in Hm. destruct (fi_cache _ _ _ _ _ _ _ _ _ Hfill m Hm) as (m' & Hm' & E).
    destruct (Hkl m' Hm') as (m2 & Hm2 & E2). exists m2. split; [exact Hm2|]. intros k y Hp Hkj. by rewrite E2, E.
Qed.

End Assemble.

(** ** The inode table afterwards *)
Section Table.

Context (img' : Z → diskinode_t) (s : fstate D) (C C' : Z → list Z) (p q : nat) (x : inode_t) (par j : Z) (nm : list Z) (dir : bool).
Hypothesis (G : grown b img img' C C' par j nm dir).
Hypothesis (Ha : fs_hand b img s C p x par) (Hh : held img true par x) (Hqp : q ≠ p) (Hq : inodes s !! q = Some empty_inode).

Let x' := set_node (img' par) x.
Let tbl := <[p := given_back x']> (inodes s).

(** The other slots hold neither inode. *)
Lemma tb_other r y : r ≠ p → inodes s !! r = Some y →
  y = empty_inode ∨ slot_loaded b img' y ∧ d_inode_num (node y) ≠ par ∧ d_inode_num (node y) ≠ j.
Proof.
  intros Hne Hr. destruct (to_slot _ _ _ (ha_table _ _ _ _ _ _ _ Ha) r y) as [->|[S1 S2 S3 S4 S5]];
    [by rewrite list_lookup_insert_ne | by left | right].
  pose proof (ha_only _ _ _ _ _ _ _ Ha r y Hne Hr S1) as Hp.
  assert (d_inode_num (node y) ≠ j) as Hj by (intros E; destruct S4 as (_ & S4 & _); rewrite E in S4; by apply S4, (gr_free _ _ _ _ _ _ _ _ _ G)).
  split; [|done]. split; try done; [exact (live_grown _ _ _ _ _ _ _ _ _ G _ S4)|].
  rewrite (gr_other _ _ _ _ _ _ _ _ _ G) by done. exact S5.
Qed.

Lemma tb_parent : given_back x' = empty_inode ∧ ref_count x = 1 ∨
  slot_loaded b img' (given_back x') ∧ d_inode_num (node (given_back x')) = par ∧ ref_count x ≠ 1.
Proof.
  unfold given_back, x'. cbn [ref_count set_node]. destruct (Z.eqb_spec (ref_count x) 1) as [E1|E1]; [by left | right].
  destruct Hh as [Hv Hl Hr _]. destruct (gr_pfields _ _ _ _ _ _ _ _ _ G) as [En _]. cbn [node set_lock set_ref set_node].
  split; [|done]. split; cbn [node set_lock set_ref set_node i_valid ref_count lock_acquired]; rewrite ?En; try done; [lia|].
  exact (live_grown _ _ _ _ _ _ _ _ _ G _ (ha_live _ _ _ _ _ _ _ Ha)).
Qed.

Lemma tb_at : tbl !! p = Some (given_back x').
Proof. apply list_lookup_insert_eq. eapply lookup_lt_Some. exact (ha_slot _ _ _ _ _ _ _ Ha). Qed.

Lemma tb_ne r : r ≠ p → tbl !! r = inodes s !! r.
Proof. intros Hne. unfold tbl. by rewrite list_lookup_insert_ne. Qed.

(** The slot of a number is [p] for the parent only. *)
Lemma tb_num r y : tbl !! r = Some y → i_valid y = true → (r = p ↔ d_inode_num (node y) = par).
Proof.
  intros Hr Hy. destruct (decide (r = p)) as [->|Hne].
  - rewrite tb_at in Hr. injection Hr as <-. split; [intros _ | done].
    destruct tb_parent as [[E _]|(_ & E & _)]; [by rewrite E in Hy | exact E].
  - rewrite tb_ne in Hr by done. destruct (tb_other r y Hne Hr) as [->|(_ & Hp & _)]; done.
Qed.

Lemma tb_ok : table_ok b img' tbl.
Proof.
  pose proof (ha_table _ _ _ _ _ _ _ Ha) as [_ Tu (e & f & Hef & He & Hf)]. split.
  - intros r y Hr. destruct (decide (r = p)) as [->|Hne].
    + rewrite tb_at in Hr. injection Hr as <-. destruct tb_parent as [[E _]|[S _]]; [by left | by right].
    + rewrite tb_ne in Hr by done. destruct (tb_other r y Hne Hr) as [->|[S _]]; [by left | by right].
  - intros r t y z Hr Ht Hy Hz E. pose proof (tb_num r y Hr Hy) as Nr. pose proof (tb_num t z Ht Hz) as Nt. rewrite <- E in Nt.
    destruct (decide (r = p)) as [Er|Hne]; [rewrite Er; symmetry; tauto|]. assert (t ≠ p) as Hnt by tauto.
    rewrite tb_ne in Hr, Ht by done. apply (Tu r t y z); (rewrite ?list_lookup_insert_ne by congruence); done.
  - assert (∀ r, <[p := given_back x]> (inodes s) !! r = Some empty_inode → tbl !! r = Some empty_inode) as Hsp.
    2: { exists e, f. split; [done|]. split; by apply Hsp. }
    intros r Hr. destruct (decide (r = p)) as [->|Hne]; [|rewrite tb_ne by done; by rewrite list_lookup_insert_ne in Hr].
    rewrite tb_at. rewrite list_lookup_insert_eq in Hr by (eapply lookup_lt_Some; exact (ha_slot _ _ _ _ _ _ _ Ha)).
    injection Hr as Hr. unfold given_back, x' in *. cbn [ref_count set_node]. destruct (ref_count x =? 1); [done|].
    destruct Hh as [Hv _ _ _]. apply (f_equal i_valid) in Hr. cbn in Hr. congruence.
Qed.

(** The new inode in hand. *)
Lemma tb_hand s' :
  bsg b (fb s') C' [] → inodes s' = <[q := mk_inode (img' j) true 1 false]> tbl → caches_ok b img' (fdc s') C' →
  vol_files b img C → (ref_count x = 1 → disk_inode b C' par = img' par) →
  (∀ k, in_table b k → k ≠ par → k ≠ j → disk_inode b C' k = disk_inode b C k) →
  fs_hand b img' s' C' q (mk_inode (img' j) true 1 false) j ∧ held img' false j (mk_inode (img' j) true 1 false).
Proof.
  intros Hb Hi Hc Hf Hpar Hkept. split; [|by split]. pose proof (ha_vol _ _ _ _ _ _ _ Ha) as Hv.
  pose proof (grown_ne _ _ _ _ _ _ _ _ _ G) as Hpj. destruct (gr_jfields _ _ _ _ _ _ _ _ _ G) as (_ & Ej & _).
  assert (tbl !! q = Some empty_inode) as Hqt by (by rewrite tb_ne). pose proof (lookup_lt_Some _ _ _ Hqt) as Hlt.
  split; [exact Hb | exact (grown_vol _ _ _ _ _ _ _ _ _ G Hv Hf) | | exact (live_new _ _ _ _ _ _ _ _ _ G) | | | | exact Hc]; rewrite Hi.
  - by apply list_lookup_insert_eq.
  - rewrite list_insert_insert_eq. rewrite list_insert_id by done. exact tb_ok.
  - intros r y Hne Hr Hy E. rewrite list_lookup_insert_ne in Hr by done.
    destruct (decide (r = p)) as [->|Hrp]; [pose proof (proj1 (tb_num p y Hr Hy) eq_refl); congruence|].
    rewrite tb_ne in Hr by done. destruct (tb_other r y Hrp Hr) as [->|(_ & _ & ?)]; done.
  - intros k Hk. destruct (decide (k = j)) as [->|Hkj]; [left; exists q; eexists; by split; [apply list_lookup_insert_eq|]|].
    destruct (decide (k = par)) as [->|Hkp].
    { destruct tb_parent as [[_ E1]|(S & En & _)]; [right; by apply Hpar|]. left. exists p, (given_back x').
      rewrite list_lookup_insert_ne by done. split_and!; [exact tb_at | apply S | exact En]. }
    destruct (ha_found _ _ _ _ _ _ _ Ha k Hk) as [(r & y & Hr & Hy & En)|Ek].
    + left. exists r, y. assert (r ≠ p) as Hrp.
      { intros ->. rewrite (ha_slot _ _ _ _ _ _ _ Ha) in Hr. injection Hr as <-. rewrite (he_node _ _ _ _ Hh) in En.
        by rewrite (proj1 (live_num _ _ _ _ Hv (ha_live _ _ _ _ _ _ _ Ha))) in En. }
      rewrite list_lookup_insert_ne; [by rewrite tb_ne|]. intros ->. rewrite Hq in Hr. by injection Hr as <-.
    + right. rewrite Hkept by done. by rewrite (gr_other _ _ _ _ _ _ _ _ _ G).
Qed.

End Table.

(** ** The parent *)
Lemma parent_dir s s2 s3 C C3 p q x par j dir n :
  fs_hand b img s C p x par → held img true par x → vol_files b img C → d_type (img par) = FS_TYPE_DIR →
  first_inode b img = Some j → q ≠ p → inodes s2 = <[q := new_child dir j]> (inodes s) → fdc s2 = fdc s →
  filled s2 (stored b (new_dinode (type_of dir) j) C) q dir j par s3 C3 n →
  dir_ok b s3 C3 p x ∧ same_file b C C3 (img par).
Proof.
  intros Ha Hh Hf Hd Hj Hqp Ei Ed Hfill. pose proof (ha_vol _ _ _ _ _ _ _ Ha) as Hv. pose proof (ha_live _ _ _ _ _ _ _ Ha) as Hl.
  destruct (live_num _ _ _ _ Hv Hl) as [En Hwf]. pose proof (he_node _ _ _ _ Hh) as Ex.
  destruct (first_inode_Some _ _ _ Hj) as (_ & H0 & _). assert (par ≠ j) as Hne by (intros ->; by destruct Hl as (_ & Hl & _)).
  destruct (as_used s2 s3 C C3 q par j dir n Hv Hf Hl Hj Hfill par (proj1 Hl)) as [Hs _]; [apply Hl|]. split; [|exact Hs].
  apply dir_image_ok; rewrite ?Ex.
  - apply Hfill.
  - rewrite (fi_inodes _ _ _ _ _ _ _ _ _ Hfill), Ei, list_insert_insert_eq, list_lookup_insert_ne by done. exact (ha_slot _ _ _ _ _ _ _ Ha).
  - exact (he_lock _ _ _ _ Hh).
  - rewrite En. apply Hl.
  - apply (same_dir b C C3); [exact Hs | exact (wf_size _ Hwf) | apply Hv; [apply Hl | exact Hd]].
  - apply (same_cache b C C3); [exact Hs | exact (wf_size _ Hwf) |]. destruct (ha_cache _ _ _ _ _ _ _ Ha) as (m & Hm & Ht & _).
    rewrite <- Ed in Hm. destruct (fi_cache _ _ _ _ _ _ _ _ _ Hfill m Hm) as (m' & Hm' & E). exists m'. split; [exact Hm'|].
    rewrite En. intros y e off. rewrite E by done. intros Hy. exact (Ht par y e off (proj1 Hl) Hd Hy).
Qed.

(** ** The whole call *)

(** What a creation leads to: the volume, the tree and every other file. *)
Record created (img' : Z → diskinode_t) C C' s' (q : nat) (x : inode_t) (par j : Z) (nm : list Z) (dir : bool) (T : ftree) : Prop := {
  cr_hand : fs_hand b img' s' C' q x j;
  cr_held : held img' false j x;
  cr_files : vol_files b img' C';
  cr_tree : tree_shows b img' C' (t_add T par (key_name nm) j dir);
  cr_other k : k ≠ par → k ≠ j → img' k = img k;
  cr_same k : in_table b k → k ≠ par → k ≠ j → d_type (img k) ≠ 0 → same_file b C C' (img k);
  cr_links : d_link_count (img' par) = d_link_count (img par) + (if dir then 1 else 0);
  cr_child : d_type (img' j) = type_of dir ∧ d_link_count (img' j) = 1 ∧ d_size (img' j) = (if dir then 2 * sizeof_dentry else 0);
}.

Lemma fill_child s s2 C p q x par dir j :
  fs_hand b img s C p x par → vol_files b img C → first_inode b img = Some j → (dir = true → first_free b C ≠ None) →
  inodes s !! q = Some empty_inode → bsg b (fb s2) (stored b (new_dinode (type_of dir) j) C) [] →
  inodes s2 = <[q := new_child dir j]> (inodes s) → fdc s2 = fdc s →
  ∃ s3 C3 n, create_dots q (type_of dir) j par s2 = Ok (true, s3) ∧
    filled s2 (stored b (new_dinode (type_of dir) j) C) q dir j par s3 C3 n.
Proof.
  intros Ha Hf Hj Hroom Hq Hb2 Ei Ed. pose proof (ha_vol _ _ _ _ _ _ _ Ha) as Hv. pose proof (vo_sb _ _ _ Hv) as Hsb.
  destruct (first_inode_Some _ _ _ Hj) as (Hr & H0 & _). destruct (inode_block_range b j Hsb ltac:(lia)) as (_ & _ & _ & _ & Hj31).
  destruct (ha_live _ _ _ _ _ _ _ Ha) as (Hp & Ht & _). destruct (inode_block_range b par Hsb Hp) as (_ & _ & _ & _ & Hp31).
  destruct (ha_cache _ _ _ _ _ _ _ Ha) as (m & Hm & _ & Hz).
  apply (fill_run s2 _ q dir j par m); [exact Hb2 | | lia | | | by rewrite Ed | | ].
  - rewrite Ei. apply list_lookup_insert_eq. by eapply lookup_lt_Some.
  - unfold in_table in Hp. destruct (decide (par = 0)) as [->|]; [by destruct Ht; apply (vf_zero _ _ _ Hf) | lia].
  - rewrite (stored_image b (fb s)); [by rewrite decide_True | apply Ha | cbn; lia | apply new_dinode_wf; lia | lia].
  - intros y. apply Hz; [unfold in_table; lia | done].
  - intros Hd. apply stored_free; [exact Hsb | cbn; lia | by apply Hroom].
Qed.

(** The link counts. *)
Lemma more_link_count s C p x nm j k s' C' np dir :
  linked b s C p x nm j k s' C' np → dinode_wf (node x) → d_link_count (node x) + 1 < 2 ^ 16 →
  d_link_count (more_link dir np) = d_link_count (node x) + (if dir then 1 else 0).
Proof.
  intros Hl Hwf Hlt. destruct (ln_fields _ _ _ _ _ _ _ _ _ _ _ Hl) as (_ & E & _). pose proof (wf_link _ Hwf).
  destruct dir; cbn [more_link set_link_count d_link_count]; rewrite E; [|lia]. unfold u16, wrap. apply Z.mod_small. lia.
Qed.

Lemma filled_child s C q dir j par s' C' n :
  filled s C q dir j par s' C' n → d_type n = type_of dir ∧ d_link_count n = 1 ∧ d_size n = (if dir then 2 * sizeof_dentry else 0).
Proof.
  intros Hf. destruct (fi_fields _ _ _ _ _ _ _ _ _ Hf) as (E1 & E2 & _). split_and!; [done..|].
  pose proof (fi_empty _ _ _ _ _ _ _ _ _ Hf) as He. destruct dir; [|done]. destruct He as [Hi He].
  destruct He as (He & _). pose proof (di_size _ _ _ Hi) as Hs. rewrite He in Hs. exact Hs.
Qed.

(** The parent was linked and closed, and the child is unlocked. *)
Lemma as_created s s2 s3 s4 s7 C C3 C4 C5 p q x par j nm dir k0 n np T :
  fs_hand b img s C p x par → held img true par x → vol_files b img C → d_type (img par) = FS_TYPE_DIR → tree_shows b img C T →
  d_link_count (img par) + 1 < 2 ^ 16 → first_inode b img = Some j → q ≠ p → inodes s !! q = Some empty_inode → fdc s2 = fdc s →
  filled s2 (stored b (new_dinode (type_of dir) j) C) q dir j par s3 C3 n → linked b s3 C3 p x nm j k0 s4 C4 np →
  C5 = (if ref_count x =? 1 then stored b (more_link dir np) C4 else C4) → bsg b (fb s7) C5 [] →
  inodes s7 = <[q := mk_inode n true 1 false]> (<[p := given_back (set_node (more_link dir np) x)]> (inodes s)) → fdc s7 = fdc s4 →
  created (img_with par j (more_link dir np) n) C C5 s7 q (mk_inode n true 1 false) par j nm dir T.
Proof.
  intros Ha Hh Hf Hd HT Hlk Hj Hqp Hq Ed2 Hfill Hlink E5 Hb7 Ei7 Ed7. pose proof (ha_vol _ _ _ _ _ _ _ Ha) as Hv.
  pose proof (ha_live _ _ _ _ _ _ _ Ha) as Hl. pose proof (he_node _ _ _ _ Hh) as Hxn. set (np' := more_link dir np) in *.
  assert (C5 = C4 ∨ C5 = stored b np' C4) as H5 by (rewrite E5; destruct (ref_count x =? 1); auto).
  assert (∀ y, in_range b y → length (C5 y) = Z.to_nat BLOCK_SIZE) as Hlen by (intros y; by apply (bsg_len b (fb s7) C5 [])).
  pose proof (assembled s2 s3 s4 C C3 C4 C5 p q x par j nm dir k0 n np np' Hv Hf Hl Hd Hj Hxn Hfill Hlink eq_refl Hlk H5 Hlen) as G.
  pose proof (grown_ne _ _ _ _ _ _ _ _ _ G) as Hne. set (img' := img_with par j np' n) in *.
  assert (img' par = np') as Ep by (unfold img', img_with; by rewrite decide_True).
  assert (img' j = n) as Ej by (unfold img', img_with; by rewrite decide_False, decide_True by congruence).
  destruct (tb_hand img' s C C5 p q x par j nm dir G Ha Hh Hqp Hq s7 Hb7) as [Hhand Hheld].
  - by rewrite Ep, Ej.
  - rewrite Ed7. exact (as_caches s s2 s3 s4 C C3 C4 C5 p q x par j nm dir k0 n np np' Hv Hf Hl Hd Hj Hxn Hfill Hlink eq_refl Hlk H5 Hlen
      Ed2 (ha_cache _ _ _ _ _ _ _ Ha)).
  - exact Hf.
  - intros E1. destruct (as_np s2 s3 s4 C C3 C4 p q x par j nm dir k0 n np np' Hv Hl Hd Hxn Hfill Hlink eq_refl Hlk) as (_ & En & _ & Himg & _).
    rewrite E5, E1, Ep. cbn [Z.eqb Pos.eqb]. pose proof (fo_bsg _ _ _ _ _ (do_file _ _ _ _ _ (ln_dir _ _ _ _ _ _ _ _ _ _ _ Hlink))) as Hb4.
    rewrite (stored_image b (fb s4)); [by rewrite decide_True by done | exact Hb4 | rewrite En; apply Hl | apply Himg | apply Hl].
  - exact (as_kept s2 s3 s4 C C3 C4 C5 p q x par j nm dir k0 n np np' Hv Hf Hl Hd Hj Hxn Hfill Hlink eq_refl Hlk H5 Hlen).
  - rewrite Ej in Hhand, Hheld. split; [exact Hhand | exact Hheld | | | | | |].
    + exact (grown_files _ _ _ _ _ _ _ _ _ G Hf).
    + exact (grown_tree _ _ _ _ _ _ _ _ _ G Hv T HT).
    + exact (gr_other _ _ _ _ _ _ _ _ _ G).
    + intros k Hk Hp Hkj Ht. exact (proj1 (gr_same _ _ _ _ _ _ _ _ _ G k Hk Hp Hkj Ht)).
    + rewrite Ep, <- Hxn. unfold np'. apply (more_link_count _ _ _ _ _ _ _ _ _ _ _ Hlink); rewrite Hxn; [apply (live_num _ _ _ _ Hv Hl) | done].
    + rewrite Ej. apply (filled_child _ _ _ _ _ _ _ _ _ Hfill).
Qed.

(** The link count of the parent. *)
Lemma more_link_run s p x dir np tbl :
  inodes s = <[p := set_node np x]> tbl → (p < length tbl)%nat →
  (if type_of dir =? FS_TYPE_DIR then upd_node p (fun d => set_link_count (u16 (d_link_count d + 1)) d) else ret tt) s =
    Ok (tt, mk_fstate (fb s) (<[p := set_node (more_link dir np) x]> tbl) (fdc s)).
Proof.
  intros Ei Hp. destruct dir; cbn [type_of more_link].
  - change (FS_TYPE_DIR =? FS_TYPE_DIR) with true. cbn iota.
    rewrite (upd_node_run s p (set_node np x)) by (rewrite Ei; by apply list_lookup_insert_eq).
    by rewrite Ei, list_insert_insert_eq.
  - change (FS_TYPE_FILE =? FS_TYPE_DIR) with false. cbn iota. destruct s. cbn in Ei. by subst.
Qed.

Lemma create_child_run s C p x par nm dir j T :
  fs_hand b img s C p x par → held img true par x → vol_files b img C → d_type (img par) = FS_TYPE_DIR →
  tree_shows b img C T → t_child T par (key_name nm) = None → 0 < entries (img par) < 128 → d_link_count (img par) + 1 < 2 ^ 16 →
  first_inode b img = Some j → (dir = true → first_free b C ≠ None) →
  ∃ q s' img' C' y, create_child p nm (type_of dir) s = Ok (Some q, s') ∧ created img' C C' s' q y par j nm dir T.
Proof.
  intros Ha Hh Hf Hd HT Hno Hent Hlk Hj Hroom. pose proof (ha_vol _ _ _ _ _ _ _ Ha) as Hv.
  pose proof (ha_live _ _ _ _ _ _ _ Ha) as Hl. destruct (live_num _ _ _ _ Hv Hl) as [En Hwf]. pose proof Hh as [Hxv Hxl Hxr Hxn].
  destruct (alloc_child s C p x par dir j Ha Hh Hf Hj) as (q & s2 & Hqp & Hq & Hb2 & Ei2 & Ed2 & RK).
  destruct (fill_child s s2 C p q x par dir j Ha Hf Hj Hroom Hq Hb2 Ei2 Ed2) as (s3 & C3 & n & R3 & Hfill).
  destruct (parent_dir s s2 s3 C C3 p q x par j dir n Ha Hh Hf Hd Hj Hqp Ei2 Ed2 Hfill) as [Hdir3 Hs3].
  destruct (fi_fields _ _ _ _ _ _ _ _ _ Hfill) as (_ & _ & Fn). pose proof (fi_inodes _ _ _ _ _ _ _ _ _ Hfill) as Ei3.
  pose proof (lookup_lt_Some _ _ _ Hq) as Hql. pose proof (ha_slot _ _ _ _ _ _ _ Ha) as Hp. pose proof (lookup_lt_Some _ _ _ Hp) as Hpl.
  destruct (first_inode_Some _ _ _ Hj) as (Hr & H0 & _).
  destruct (inode_block_range b j (vo_sb _ _ _ Hv) ltac:(lia)) as (_ & _ & _ & _ & Hj31).
  destruct (link_small b s3 C3 p x nm j Hdir3) as (s4 & C4 & np & k0 & R4 & Hlink & _ & _); rewrite ?Hxn; [lia | lia | | |].
  { intros k Hk. pose proof (proj1 (same_named b C C3 _ Hs3 (wf_size _ Hwf) nm k) Hk) as Hk0.
    rewrite (proj2 (ts_child _ _ _ _ HT par nm _ (proj1 Hl) Hd) (ex_intro _ k (conj Hk0 eq_refl))) in Hno. done. }
  { left. rewrite <- Hxn. apply (do_mapped _ _ _ _ _ Hdir3 0). rewrite (do_size _ _ _ _ _ Hdir3), Hxn. unfold sizeof_dentry. lia. }
  pose proof (ln_inodes _ _ _ _ _ _ _ _ _ _ _ Hlink) as Ei4. rewrite Ei2, list_insert_insert_eq in Ei3.
  pose proof (more_link_run s4 p x dir np (inodes s3) Ei4) as R5. rewrite Ei3, length_insert in R5. specialize (R5 Hpl).
  destruct (as_np s2 s3 s4 C C3 C4 p q x par j nm dir k0 n np _ Hv Hl Hd Hxn Hfill Hlink eq_refl Hlk) as (_ & En' & Hl' & Himg' & _).
  set (np' := more_link dir np) in *. set (s5 := mk_fstate _ _ _) in R5.
  pose proof (fo_bsg _ _ _ _ _ (do_file _ _ _ _ _ (ln_dir _ _ _ _ _ _ _ _ _ _ _ Hlink))) as Hb4.
  destruct (close_run b s5 C4 p (set_node np' x) Hb4) as (bs & R6 & Hb6); cbn [node set_node lock_acquired i_valid ref_count];
    [apply list_lookup_insert_eq; by rewrite length_insert | done | done | done | lia | rewrite En'; apply Hl | apply Himg' |].
  cbn [ref_count set_node node] in R6, Hb6. cbn [s5 fb inodes fdc] in R6. rewrite list_insert_insert_eq in R6.
  set (s6 := mk_fstate bs _ _) in R6. assert (inodes s6 !! q = Some (set_node n (new_child dir j))) as Hq6.
  { cbn [s6 inodes]. rewrite list_lookup_insert_ne by congruence. by apply list_lookup_insert_eq. }
  pose proof (unlock_run s6 q _ Hq6 eq_refl) as R7. cbn [s6 fb inodes fdc] in R7.
  rewrite (list_insert_insert_ne _ p q), list_insert_insert_eq in R7 by congruence. rewrite (list_insert_insert_ne _ q p) in R7 by congruence.
  set (s7 := mk_fstate bs _ _) in R7.
  eexists q, s7, _, _, _. split.
  2: { apply (as_created s s2 s3 s4 s7 C C3 C4 (if ref_count x =? 1 then stored b np' C4 else C4) p q x par j nm dir k0 n np T); try done.
       apply list_insert_insert_ne. congruence. }
  unfold create_child. rewrite RK.
  assert (inodes s2 !! q = Some (new_child dir j)) as Hq2 by (rewrite Ei2; by apply list_lookup_insert_eq).
  assert (inodes s2 !! p = Some x) as Hp2 by (rewrite Ei2; by rewrite list_lookup_insert_ne).
  assert (inodes s3 !! q = Some (set_node n (new_child dir j))) as Hq3 by (rewrite Ei3; by apply list_lookup_insert_eq).
  rewrite (bind_Ok _ _ _ _ _ (get_inode_run _ _ _ Hq2)), (bind_Ok _ _ _ _ _ (get_inode_run _ _ _ Hp2)), Hxn, En.
  rewrite (bind_Ok _ _ _ _ _ R3). cbn [negb]. rewrite (bind_Ok _ _ _ _ _ (get_inode_run _ _ _ Hq3)). cbn [node set_node]. rewrite Fn.
  rewrite (bind_Ok _ _ _ _ _ R4). cbn [negb Z.eqb]. rewrite (bind_Ok _ _ _ _ _ R5), (bind_Ok _ _ _ _ _ R6), (bind_Ok _ _ _ _ _ R7). done.
Qed.

(** C3 Creating a name adds exactly that name to the tree. When the path leads
    to a directory that does not have its last component, [path_create] resolves
    it, takes the first free inode, gives a new directory its entries "." and
    "..", links the name in the parent and returns a reference
    to the new inode, unlocked. Afterwards the volume is well formed again, every
    file has its own blocks, the cache is truthful, the tree on the volume is the
    old tree with the new name, and every other inode and the contents of every
    other file are as they were. The new inode has one link and is empty (a file) or has the two
    entries (a directory); the link count of the parent grew by one for a
    directory and is unchanged for a file. Asked of the volume: the parent has between 1 and
    127 entries (so that the next fits its first block), its link count is below 2^16 - 1,
    an inode is free, and a block for a new directory. *)
Theorem path_create_correct s C T cwd path dir par nm j :
  fs_idle b img s C → vol_files b img C → tree_shows b img C T → live b img cwd → live b img (root_inode b) →
  t_path T (root_inode b) cwd path true = Some (par, nm) → t_dir T par = true → t_child T par (key_name nm) = None →
  0 < entries (img par) < 128 → d_link_count (img par) + 1 < 2 ^ 16 →
  first_inode b img = Some j → (dir = true → first_free b C ≠ None) →
  ∃ q s' img' C' y, path_create cwd path (type_of dir) s = Ok (Some q, s') ∧ created img' C C' s' q y par j nm dir T.
Proof.
  intros Hi Hf HT Hcwd Hroot Hpath Hdir Hno Hent Hlk Hj Hroom. pose proof (id_vol _ _ _ _ Hi) as Hv.
  destruct (path_resolve_run b img s C T cwd path true Hi HT Hcwd Hroot) as (r & s1 & C1 & R1 & Hr1 & Hres).
  rewrite Hpath in Hres. destruct r as [[p nm']|]; [|destruct Hres]. destruct Hres as [-> (x & Ha & Hrd)].
  destruct (restored_files b img C C1 Hv Hf Hr1) as (Hf1 & Hfree1 & Hsame1).
  pose proof (restored_shows _ _ _ _ _ Hv Hr1 HT) as HT1.
  destruct (hand_open b img s1 C1 p x par Ha Hrd) as (s2 & x2 & R2 & Ha2 & Hh2).
  pose proof (ha_live _ _ _ _ _ _ _ Ha) as Hl.
  assert (d_type (img par) = FS_TYPE_DIR) as Hd.
  { rewrite (ts_dir _ _ _ _ HT par (proj1 Hl)) in Hdir. by apply bool_decide_eq_true in Hdir. }
  destruct (hand_child b img s2 C1 p x2 par nm T Ha2 Hh2 Hd HT1) as (s3 & Ha3 & R3). rewrite Hno in R3.
  destruct (create_child_run s3 C1 p x2 par nm dir j T Ha3 Hh2 Hf1 Hd HT1 Hno Hent Hlk Hj (λ e, Hfree1 (Hroom e)))
    as (q & s' & img' & C' & y & R4 & [K1 K2 K3 K4 K5 K6 K7 K8]).
  exists q, s', img', C', y. split.
  - unfold path_create, path_resolve_parent. rewrite (bind_Ok _ _ _ _ _ R1), (bind_Ok _ _ _ _ _ R2), (bind_Ok _ _ _ _ _ R3). exact R4.
  - split; try done. intros k Hk Hp Hkj Ht. eapply same_trans; [by apply Hsame1 | by apply K6].
Qed.

End Create.

(** ** On a new volume *)
Section NewFiles.

Context (s : fstate pcache) (C : Z → list Z) (root : diskinode_t) (Hf : formatted s C root).
Let img := disk_inode new_superblock C.

Lemma new_files : vol_files new_superblock img C.
Proof.
  split; unfold img.
  - intros x. apply (bsg_len _ _ _ _ _ (fm_bsg _ _ _ Hf)).
  - intros j Hj Ht. rewrite (new_only s C root Hf j Hj Ht), (fm_root _ _ _ Hf). apply (fm_dir _ _ _ Hf).
  - intros j k Hj Hk Tj Tk Hne. destruct Hne. by rewrite (new_only s C root Hf j Hj Tj), (new_only s C root Hf k Hk Tk).
  - done.
  - apply (fm_free _ _ _ Hf); [vm_compute; split; congruence | done].
Qed.

Lemma new_first : first_inode new_superblock img = Some 2.
Proof.
  assert (inode_count new_superblock - 1 = inode_count new_superblock - 3 + 2) as E by lia.
  unfold first_inode. rewrite E, seqZ_cons by (vm_compute; congruence). rewrite seqZ_cons by (vm_compute; congruence).
  assert (d_type (img 1) ≠ 0) as H1 by (unfold img; change 1 with ROOT_INODE; by rewrite (fm_root _ _ _ Hf), (di_type _ _ _ (fm_dir _ _ _ Hf))).
  assert (d_type (img 2) = 0) as H2 by (apply (fm_free _ _ _ Hf); [vm_compute; split; congruence | done]).
  cbn [list_find]. rewrite decide_False by done. change (Z.succ 1) with 2. by rewrite decide_True by done.
Qed.

End NewFiles.

Lemma path_create_correct_witness : ∃ s s' C C' img' q x, do_mkfs false blank_fs = Ok (0, s) ∧
  path_create ROOT_INODE [SLASH; 97] FS_TYPE_FILE s = Ok (Some q, s') ∧ fs_hand new_superblock img' s' C' q x 2 ∧
  tree_shows new_superblock img' C' (t_add root_tree ROOT_INODE (key_name [97]) 2 false) ∧
  img' 3 = disk_inode new_superblock C 3 ∧ d_link_count (img' 2) = 1.
Proof.
  destruct blank_mkfs_run as (s & C & root & R & Hf). pose proof (fm_root _ _ _ Hf) as Er.
  destruct (path_create_correct new_superblock (disk_inode new_superblock C) s C root_tree ROOT_INODE [SLASH; 97] false ROOT_INODE [97] 2
    (new_idle s C root Hf) (new_files s C root Hf) (new_tree s C root Hf) (new_live s C root Hf) (new_live s C root Hf))
    as (q & s' & img' & C' & y & R' & [K1 K2 K3 K4 K5 K6 K7 K8]).
  - reflexivity.
  - reflexivity.
  - reflexivity.
  - rewrite Er. destruct (fm_entries _ _ _ Hf) as (-> & _). lia.
  - rewrite Er, (fm_link _ _ _ Hf). reflexivity.
  - exact (new_first s C root Hf).
  - discriminate.
  - exists s, s', C, C', img', q, y. split_and!; [exact R | exact R' | exact K1 | exact K4 | apply K5; discriminate | apply K8].
Defined.
