(* ===== verification/Sched.v ===== *)
(** * kernel/sched: processes, queues and the scheduler

    sched.cpp, and what task.c and time.c do to the process table. A [pcb_t *]
    is an index of [pcb_all]: the [NR_CPUS] kernel processes, then the user
    processes. [sched_node] is in at most one queue; a queue is the sequence of
    its nodes (list.c is verified against sequences in Dlist.v) and the node
    carries its container. Kernel code runs under the kernel lock, so an
    operation runs alone up to its call of [do_scheduler]; [h] is the hart it
    runs on. *)

From S2P Require Import Prelude.

Definition NR_CPUS : Z := 2.
Definition NUM_MAX_TASK : Z := 32.
Definition NUM_MAX_PCB : Z := NUM_MAX_TASK + NR_CPUS.
Definition TIME_SLICE_HISTORY_SIZE : Z := 100 * NR_CPUS.
Definition INT_BIG : Z := 0x7f7f7f7f.

Inductive task_status_t := TASK_BLOCKED | TASK_RUNNING | TASK_READY | TASK_EXITED | TASK_KILLED.
#[global] Instance task_status_eq_dec : EqDecision task_status_t.
Proof. solve_decision. Defined.

(** The queues a [sched_node] can be in. *)
Inductive qid :=
| QReady | QSleep
| QProc (p : nat)            (* pcb->wait_list *)
| QMutex (m : nat)           (* mlocks[m].block_list *)
| QBarrier (i : nat)         (* barriers[i].block_list *)
| QCond (i : nat)            (* conditions[i].wait_list *)
| QSema (i : nat)            (* semaphores[i].wait_list *)
| QMboxLock (i : nat) | QMboxEmpty (i : nat) | QMboxFull (i : nat)
| QPipe (i : nat)            (* pipe_table[i].reader_wait_list *)
| QSend | QRecv.             (* net.c: send_block_queue, recv_block_queue *)
#[global] Instance qid_eq_dec : EqDecision qid.
Proof. solve_decision. Defined.

Record pcb_t := mk_pcb {
  pid : Z;
  status : task_status_t;
  wakeup_time : Z;              (* uint64_t *)
  task_id : Z;
  task_workload : Z;
  slice_cnt : Z;
  nice : Z;
  affinity : Z;                 (* unsigned *)
  cpu : Z;
  parent : option nat;
  container : option qid;       (* sched_node.container *)
  relation : option nat;        (* relation_node is in the child_list of *)
}.

Definition set_status (v : task_status_t) (p : pcb_t) : pcb_t :=
  mk_pcb (pid p) v (wakeup_time p) (task_id p) (task_workload p) (slice_cnt p) (nice p) (affinity p) (cpu p)
    (parent p) (container p) (relation p).
Definition set_wakeup (v : Z) (p : pcb_t) : pcb_t :=
  mk_pcb (pid p) (status p) v (task_id p) (task_workload p) (slice_cnt p) (nice p) (affinity p) (cpu p)
    (parent p) (container p) (relation p).
Definition set_task (id workload : Z) (p : pcb_t) : pcb_t :=
  mk_pcb (pid p) (status p) (wakeup_time p) id workload (slice_cnt p) (nice p) (affinity p) (cpu p)
    (parent p) (container p) (relation p).
Definition set_slice (v : Z) (p : pcb_t) : pcb_t :=
  mk_pcb (pid p) (status p) (wakeup_time p) (task_id p) (task_workload p) v (nice p) (affinity p) (cpu p)
    (parent p) (container p) (relation p).
Definition set_nice (v : Z) (p : pcb_t) : pcb_t :=
  mk_pcb (pid p) (status p) (wakeup_time p) (task_id p) (task_workload p) (slice_cnt p) v (affinity p) (cpu p)
    (parent p) (container p) (relation p).
Definition set_affinity (v : Z) (p : pcb_t) : pcb_t :=
  mk_pcb (pid p) (status p) (wakeup_time p) (task_id p) (task_workload p) (slice_cnt p) (nice p) v (cpu p)
    (parent p) (container p) (relation p).
Definition set_cpu (v : Z) (p : pcb_t) : pcb_t :=
  mk_pcb (pid p) (status p) (wakeup_time p) (task_id p) (task_workload p) (slice_cnt p) (nice p) (affinity p) v
    (parent p) (container p) (relation p).
Definition set_parent (v r : option nat) (p : pcb_t) : pcb_t :=
  mk_pcb (pid p) (status p) (wakeup_time p) (task_id p) (task_workload p) (slice_cnt p) (nice p) (affinity p) (cpu p)
    v (container p) r.
Definition set_container (v : option qid) (p : pcb_t) : pcb_t :=
  mk_pcb (pid p) (status p) (wakeup_time p) (task_id p) (task_workload p) (slice_cnt p) (nice p) (affinity p) (cpu p)
    (parent p) v (relation p).

Record sched := mk_sched {
  pcb_all : list pcb_t;
  queue : qid → list nat;
  child_list : nat → list nat;
  harts : list nat;                               (* current_running of each hart *)
  time_slice_history : list (option nat);
  time_slice_history_index : Z;
  process_id : Z;
}.
Definition set_pcbs (l : list pcb_t) (s : sched) : sched :=
  mk_sched l (queue s) (child_list s) (harts s) (time_slice_history s) (time_slice_history_index s) (process_id s).
Definition set_queue (q : qid) (l : list nat) (s : sched) : sched :=
  mk_sched (pcb_all s) (<[q := l]> (queue s)) (child_list s) (harts s) (time_slice_history s)
    (time_slice_history_index s) (process_id s).
Definition set_children (p : nat) (l : list nat) (s : sched) : sched :=
  mk_sched (pcb_all s) (queue s) (<[p := l]> (child_list s)) (harts s) (time_slice_history s)
    (time_slice_history_index s) (process_id s).
Definition set_current (h : nat) (p : nat) (s : sched) : sched :=
  mk_sched (pcb_all s) (queue s) (child_list s) (<[h := p]> (harts s)) (time_slice_history s)
    (time_slice_history_index s) (process_id s).
Definition set_history (l : list (option nat)) (i : Z) (s : sched) : sched :=
  mk_sched (pcb_all s) (queue s) (child_list s) (harts s) l i (process_id s).
Definition set_process_id (v : Z) (s : sched) : sched :=
  mk_sched (pcb_all s) (queue s) (child_list s) (harts s) (time_slice_history s) (time_slice_history_index s) v.

Abbreviation SM := (M sched).

Definition get_pcb (p : nat) : SM pcb_t := fun s =>
  match pcb_all s !! p with Some x => Ok (x, s) | None => Panic "fault" end.
Definition upd_pcb (p : nat) (f : pcb_t → pcb_t) : SM unit :=
  x <- get_pcb p ;; modify (fun s => set_pcbs (<[p := f x]> (pcb_all s)) s).
Definition current_running (h : nat) : SM nat := fun s =>
  match harts s !! h with Some p => Ok (p, s) | None => Panic "fault" end.

(** ** The lists of list.c on [sched_node]s *)
Definition list_append (q : qid) (p : nat) : SM unit :=
  x <- get_pcb p ;;
  match container x with
  | Some _ => ret tt                               (* already in a list: logged and ignored *)
  | None =>
      modify (fun s => set_queue q (queue s q ++ [p]) s) ;;
      upd_pcb p (set_container (Some q))
  end.
Definition list_delete (p : nat) : SM unit :=
  x <- get_pcb p ;;
  match container x with
  | None => panic "trying to delete a node not in any list"
  | Some q =>
      modify (fun s => set_queue q (filter (fun r => r ≠ p) (queue s q)) s) ;;
      upd_pcb p (set_container None)
  end.
Definition list_node_destruct (p : nat) : SM unit :=
  x <- get_pcb p ;;
  match container x with Some _ => list_delete p | None => ret tt end.
Definition list_shift (q : qid) : SM (option nat) :=
  l <- gets (fun s => queue s q) ;;
  match l with
  | [] => ret None
  | p :: rest =>
      modify (set_queue q rest) ;;
      upd_pcb p (set_container None) ;;
      ret (Some p)
  end.
Definition list_init (q : qid) : SM unit := modify (set_queue q []).

(** ** Blocking and waking *)
Definition do_block (p : nat) (q : qid) : SM unit :=
  x <- get_pcb p ;;
  if decide (status x = TASK_BLOCKED) then ret tt else      (* double blocking: logged *)
  asserts (bool_decide (container x = None)) "pcb_node is already in a list" ;;
  upd_pcb p (set_status TASK_BLOCKED) ;;
  list_append q p.

Definition do_unblock (p : nat) : SM unit :=
  upd_pcb p (set_status TASK_READY) ;;
  list_append QReady p.

(** [unblock_list]: the nodes are taken one by one from the front. *)
Fixpoint unblock_loop (l : list nat) : SM unit :=
  match l with
  | [] => ret tt
  | p :: rest => list_delete p ;; do_unblock p ;; unblock_loop rest
  end.
Definition unblock_list (q : qid) : SM unit :=
  l <- gets (fun s => queue s q) ;; unblock_loop l.
Definition exit_wakeup (p : nat) : SM unit := unblock_list (QProc p).

(** [check_sleeping] at time [now]; the nodes keep their status. *)
Fixpoint sleep_loop (now : Z) (l : list nat) : SM unit :=
  match l with
  | [] => ret tt
  | p :: rest =>
      x <- get_pcb p ;;
      (if now >=? wakeup_time x then list_delete p ;; list_append QReady p else ret tt) ;;
      sleep_loop now rest
  end.
Definition check_sleeping (now : Z) : SM unit :=
  l <- gets (fun s => queue s QSleep) ;; sleep_loop now l.

(** ** Picking *)

(** [div] of the processor: a zero divisor gives -1. *)
Definition cdiv (a b : Z) : Z := if b =? 0 then -1 else i32 (Z.quot a b).
Definition normalized_cnt (p : pcb_t) : Z :=
  cdiv (i32 (cdiv (slice_cnt p) (i32 (task_workload p + 1)) * i32 (10 + nice p))) 10.

Definition filter_affinity (h : nat) (p : pcb_t) : bool :=
  negb (Z.land (affinity p) (Z.shiftl 1 (Z.of_nat h)) =? 0).
Definition filterout_kernel (h : nat) (p : pcb_t) : bool :=
  if pid p <? NR_CPUS then false else filter_affinity h p.

(** [update_by_consumption]: [min_task_id], [min_slice_cnt] and whether the process is taken. *)
Definition update_by_consumption (mins : Z * Z) (proc : pcb_t) : (Z * Z) * bool :=
  let cnt := normalized_cnt proc in
  if task_id proc <? fst mins then ((task_id proc, cnt), true)
  else if task_id proc =? fst mins then
    if cnt <? snd mins then ((fst mins, cnt), true) else (mins, false)
  else (mins, false).

(** [pick_process_impl] with [update_by_consumption], and with [update_by_first]. *)
Fixpoint pick_consumption (h : nat) (l : list nat) (mins : Z * Z) (selected : option nat) : SM (option nat) :=
  match l with
  | [] => ret selected
  | p :: rest =>
      x <- get_pcb p ;;
      if negb (filterout_kernel h x) then pick_consumption h rest mins selected else
      let '(mins, taken) := update_by_consumption mins x in
      pick_consumption h rest mins (if taken then Some p else selected)
  end.
Fixpoint pick_first (h : nat) (l : list nat) (selected : option nat) : SM (option nat) :=
  match l with
  | [] => ret selected
  | p :: rest =>
      x <- get_pcb p ;;
      if negb (filter_affinity h x) then pick_first h rest selected else
      pick_first h rest (match selected with None => Some p | Some _ => selected end)
  end.

(** The account of time slices: a ring of the last owners. *)
Definition account (proc : nat) : SM unit :=
  hist <- gets time_slice_history ;;
  i <- gets time_slice_history_index ;;
  (match hist !! Z.to_nat i with
   | Some (Some old) => upd_pcb old (fun x => set_slice (i32 (slice_cnt x - 1)) x)
   | _ => ret tt
   end) ;;
  upd_pcb proc (fun x => set_slice (i32 (slice_cnt x + 1)) x) ;;
  modify (set_history (<[Z.to_nat i := Some proc]> hist) ((i + 1) mod TIME_SLICE_HISTORY_SIZE)).

Definition pick_process (h : nat) : SM nat :=
  l <- gets (fun s => queue s QReady) ;;
  proc <- pick_consumption h l (INT_BIG, INT_BIG) None ;;
  proc <- (match proc with Some p => ret (Some p) | None => pick_first h l None end) ;;
  match proc with
  | None => panic "no process to run"
  | Some p => account p ;; ret p
  end.

(** [do_scheduler] up to [switch_to]; [now] is what [get_timer] returns. *)
Definition do_scheduler (h : nat) (now : Z) : SM unit :=
  check_sleeping now ;;
  cur <- current_running h ;;
  x <- get_pcb cur ;;
  (if decide (status x = TASK_RUNNING) then
     upd_pcb cur (set_status TASK_READY) ;; list_append QReady cur
   else ret tt) ;;
  next_running <- pick_process h ;;
  list_delete next_running ;;
  upd_pcb next_running (set_status TASK_RUNNING) ;;
  modify (set_current h next_running) ;;
  upd_pcb next_running (set_cpu (Z.of_nat h)).

Definition do_sleep (h : nat) (now sleep_time : Z) : SM unit :=
  cur <- current_running h ;;
  upd_pcb cur (set_wakeup (u64 (now + sleep_time))) ;;
  do_block cur QSleep ;;
  do_scheduler h now.

(** ** The process table *)
Definition alloc_pcb : SM (option nat) :=
  l <- gets pcb_all ;;
  match list_find (fun x => status x = TASK_EXITED) (drop (Z.to_nat NR_CPUS) l) with
  | Some (i, _) => ret (Some (Z.to_nat NR_CPUS + i)%nat)
  | None => ret None
  end.

Definition find_pcb (id : Z) : SM (option nat) :=
  if id <? 0 then ret None else
  if id <? NR_CPUS then
    x <- get_pcb (Z.to_nat id) ;;
    asserts (pid x =? id) "kernel pcb broken" ;;
    ret (Some (Z.to_nat id))
  else
  l <- gets pcb_all ;;
  match list_find (fun x => pid x = id ∧ status x ≠ TASK_EXITED) (drop (Z.to_nat NR_CPUS) l) with
  | Some (i, _) => ret (Some (Z.to_nat NR_CPUS + i)%nat)
  | None => ret None
  end.

(** [pcb_all[i]] points to pcb [i]. *)
Definition get_pcb_index (id : Z) : SM nat :=
  p <- find_pcb id ;;
  match p with
  | Some p => ret p
  | None => panic "cannot find pcb in get_pcb_index"
  end.

Definition free_pcb (p : nat) : SM unit :=
  x <- get_pcb p ;;
  asserts (pid x >=? NR_CPUS) "cannot free kernel pcb" ;;
  upd_pcb p (set_status TASK_EXITED).

Definition attach_subprocess (par child : nat) : SM unit :=
  x <- get_pcb child ;;
  (match relation x with
   | Some _ => ret tt
   | None => modify (fun s => set_children par (child_list s par ++ [child]) s) ;;
             upd_pcb child (fun x => set_parent (parent x) (Some par) x)
   end) ;;
  upd_pcb child (fun x => set_parent (Some par) (relation x) x).

(** [list_node_destruct(&pcb->relation_node)] *)
Definition relation_destruct (p : nat) : SM unit :=
  x <- get_pcb p ;;
  match relation x with
  | None => ret tt
  | Some par =>
      modify (fun s => set_children par (filter (fun r => r ≠ p) (child_list s par)) s) ;;
      upd_pcb p (fun x => set_parent (parent x) None x)
  end.

(** The scheduler's fields of [construct_pcb]: the record is zeroed, the rest
    of the function builds stacks and the address space. *)
Definition construct_pcb : SM (option nat) :=
  p <- alloc_pcb ;;
  match p with
  | None => ret None
  | Some p =>
      id <- gets process_id ;;
      modify (set_process_id (i32 (id + 1))) ;;
      list_init (QProc p) ;;
      upd_pcb p (fun _ => mk_pcb id TASK_READY 0 0 0 0 0 0 0 None None None) ;;
      modify (set_children p []) ;;
      ret (Some p)
  end.

Definition set_proc_affinity (p : nat) (affinity_mask : Z) : SM Z :=
  let valid_mask := u32 (Z.shiftl 1 NR_CPUS - 1) in
  if Z.land (u32 affinity_mask) valid_mask =? 0 then ret 1 else
  upd_pcb p (set_affinity (Z.land (u32 affinity_mask) valid_mask)) ;;
  ret 0.

(** syscall.cpp: [sys_set_affinity], the call behind taskset. *)
Definition sys_set_affinity (id affinity_mask : Z) : SM Z :=
  pcb <- find_pcb id ;;
  match pcb with
  | None => ret 0
  | Some p => err <- set_proc_affinity p affinity_mask ;; ret (if err =? 0 then 1 else 0)
  end.

Definition do_exec (h : nat) (affinity_mask : Z) : SM Z :=
  pcb <- construct_pcb ;;
  match pcb with
  | None => ret 0
  | Some p =>
      set_proc_affinity p affinity_mask ;;
      list_append QReady p ;;
      cur <- current_running h ;;
      attach_subprocess cur p ;;
      x <- get_pcb p ;;
      ret (pid x)
  end.

Definition do_waitpid (h : nat) (now : Z) (id : Z) : SM Z :=
  p <- find_pcb id ;;
  match p with
  | None => ret 0
  | Some p =>
      cur <- current_running h ;;
      list_append (QProc p) cur ;;
      upd_pcb cur (set_status TASK_BLOCKED) ;;
      do_scheduler h now ;;
      ret id
  end.

(** The end of [cleanup_proc]: the nodes leave their lists, the waiters wake,
    the record is free. *)
Definition release_proc (p : nat) : SM unit :=
  list_node_destruct p ;;
  relation_destruct p ;;
  exit_wakeup p ;;
  free_pcb p.

Definition set_process_workload (h : nat) (workload : Z) : SM unit :=
  cur <- current_running h ;;
  x <- get_pcb cur ;;
  upd_pcb cur (set_task (if workload >? task_workload x then i32 (task_id x + 1) else task_id x) workload).

Definition set_process_nice (nice id : Z) : SM Z :=
  if nice <? 0 then ret (-1) else
  p <- find_pcb id ;;
  match p with
  | None => ret (-1)
  | Some p => upd_pcb p (set_nice nice) ;; ret 0
  end.

(** [init_pcb]: the kernel processes with their pids, the user table empty;
    hart 0 runs kernel process 0. *)
Definition kernel_pcb (i : Z) : pcb_t :=
  mk_pcb i TASK_READY 0 0 0 0 0 (Z.shiftl 1 i) 0 None None None.
Definition exited_pcb : pcb_t := mk_pcb 0 TASK_EXITED 0 0 0 0 0 0 0 None None None.
Definition init_pcb : sched :=
  mk_sched
    ((kernel_pcb <$> seqZ 0 NR_CPUS) ++ replicate (Z.to_nat NUM_MAX_TASK) exited_pcb)
    (fun _ => []) (fun _ => []) (replicate (Z.to_nat NR_CPUS) 0%nat)
    (replicate (Z.to_nat TIME_SLICE_HISTORY_SIZE) None) 0 NR_CPUS.

(** main.c: a hart enters its kernel process. *)
Definition start_hart (h : nat) : SM unit :=
  modify (set_current h h) ;;
  upd_pcb h (set_status TASK_RUNNING) ;;
  upd_pcb h (set_cpu (Z.of_nat h)).
Definition boot : SM unit := start_hart 0 ;; start_hart 1.
