(* ===== verification/SchedProofs.v ===== *)
(** * The scheduler: lemmas

    Every primitive as an equation on the state, the agreement of queues and
    containers, and the loops that empty a queue into the ready queue. *)

From S2P Require Import Prelude Sched.

(** ** Primitives *)
Lemma get_pcb_run s p x : pcb_all s !! p = Some x → get_pcb p s = Ok (x, s).
Proof. unfold get_pcb. by intros ->. Qed.

Lemma upd_pcb_run s p x f :
  pcb_all s !! p = Some x → upd_pcb p f s = Ok (tt, set_pcbs (<[p := f x]> (pcb_all s)) s).
Proof. intros E. unfold upd_pcb. by rewrite (bind_Ok _ _ _ _ _ (get_pcb_run _ _ _ E)). Qed.

(** Queues and containers agree. *)
Record linked (s : sched) : Prop := {
  ln_iff q p : p ∈ queue s q ↔ ∃ x, pcb_all s !! p = Some x ∧ container x = Some q;
  ln_nodup q : NoDup (queue s q);
}.

Definition append_to (q : qid) (p : nat) (x : pcb_t) (s : sched) : sched :=
  set_pcbs (<[p := set_container (Some q) x]> (pcb_all s)) (set_queue q (queue s q ++ [p]) s).
Definition delete_from (q : qid) (p : nat) (x : pcb_t) (s : sched) : sched :=
  set_pcbs (<[p := set_container None x]> (pcb_all s)) (set_queue q (filter (fun r => r ≠ p) (queue s q)) s).

Lemma queue_append_run s p x q :
  pcb_all s !! p = Some x → container x = None → list_append q p s = Ok (tt, append_to q p x s).
Proof.
  intros Hp Hc. unfold list_append. rewrite (bind_Ok _ _ _ _ _ (get_pcb_run _ _ _ Hp)), Hc.
  unfold modify. cbn [bind]. by rewrite (upd_pcb_run _ p x).
Qed.

Lemma queue_delete_run s p x q :
  pcb_all s !! p = Some x → container x = Some q → list_delete p s = Ok (tt, delete_from q p x s).
Proof.
  intros Hp Hc. unfold list_delete. rewrite (bind_Ok _ _ _ _ _ (get_pcb_run _ _ _ Hp)), Hc.
  unfold modify. cbn [bind]. by rewrite (upd_pcb_run _ p x).
Qed.

(** ** Agreement is kept *)
Lemma linked_upd s p x y :
  linked s → pcb_all s !! p = Some x → container y = container x →
  linked (set_pcbs (<[p := y]> (pcb_all s)) s).
Proof.
  intros [Hi Hn] Hp Hc. split; [|exact Hn]. intros q r. cbn [queue pcb_all set_pcbs]. rewrite Hi. split.
  - intros (z & Hz & Hq). destruct (decide (r = p)) as [->|Hne].
    + exists y. rewrite list_lookup_insert_eq by (by eapply lookup_lt_Some). split; [done | congruence].
    + exists z. by rewrite list_lookup_insert_ne.
  - intros (z & Hz & Hq). apply list_lookup_insert_Some in Hz as [(-> & <- & _)|[_ Hz]]; [|by exists z].
    exists x. split; [done | congruence].
Qed.

Lemma linked_append s p x q :
  linked s → pcb_all s !! p = Some x → container x = None → linked (append_to q p x s).
Proof.
  intros [Hi Hn] Hp Hc.
  assert (∀ q', p ∉ queue s q') as Hnot.
  { intros q' (z & Hz & Hq)%Hi. congruence. }
  split.
  - intros q' r. cbn [append_to delete_from queue pcb_all set_pcbs set_queue]. destruct (decide (q' = q)) as [->|Hne].
    + rewrite fn_lookup_insert, elem_of_app, list_elem_of_singleton, Hi. split.
      * intros [(z & Hz & Hq)| ->].
        -- exists z. rewrite list_lookup_insert_ne; [done|]. intros <-. congruence.
        -- exists (set_container (Some q) x). rewrite list_lookup_insert_eq by (by eapply lookup_lt_Some). done.
      * intros (z & Hz & Hq). apply list_lookup_insert_Some in Hz as [(-> & <- & _)|[_ Hz]]; [by right | left; by exists z].
    + rewrite fn_lookup_insert_ne, Hi by done. split.
      * intros (z & Hz & Hq). exists z. rewrite list_lookup_insert_ne; [done|]. intros <-. congruence.
      * intros (z & Hz & Hq). apply list_lookup_insert_Some in Hz as [(-> & <- & _)|[_ Hz]]; [|by exists z].
        cbn in Hq. congruence.
  - intros q'. cbn [append_to delete_from queue pcb_all set_pcbs set_queue]. destruct (decide (q' = q)) as [->|Hne].
    + rewrite fn_lookup_insert. apply NoDup_app. split_and!; [done | | apply NoDup_singleton].
      intros r Hr ->%list_elem_of_singleton. by apply (Hnot q).
    + by rewrite fn_lookup_insert_ne.
Qed.

Lemma linked_delete s p x q :
  linked s → pcb_all s !! p = Some x → container x = Some q → linked (delete_from q p x s).
Proof.
  intros [Hi Hn] Hp Hc. split.
  - intros q' r. cbn [append_to delete_from queue pcb_all set_pcbs set_queue]. destruct (decide (q' = q)) as [->|Hne].
    + rewrite fn_lookup_insert, list_elem_of_filter, Hi. split.
      * intros [Hr (z & Hz & Hq)]. exists z. by rewrite list_lookup_insert_ne.
      * intros (z & Hz & Hq). apply list_lookup_insert_Some in Hz as [(-> & <- & _)|[Hr Hz]]; [done|].
        split; [done | by exists z].
    + rewrite fn_lookup_insert_ne, Hi by done. split.
      * intros (z & Hz & Hq). exists z. rewrite list_lookup_insert_ne; [done|]. intros <-. congruence.
      * intros (z & Hz & Hq). apply list_lookup_insert_Some in Hz as [(-> & <- & _)|[_ Hz]]; [done | by exists z].
  - intros q'. cbn [append_to delete_from queue pcb_all set_pcbs set_queue]. destruct (decide (q' = q)) as [->|Hne].
    + rewrite fn_lookup_insert. by apply NoDup_filter.
    + by rewrite fn_lookup_insert_ne.
Qed.

Lemma append_delete_linked s p x q q' :
  linked s → pcb_all s !! p = Some x → container x = Some q →
  linked (append_to q' p (set_container None x) (delete_from q p x s)).
Proof.
  intros Hl Hp Hc. apply linked_append; [by apply linked_delete | | done].
  cbn [delete_from pcb_all set_pcbs]. apply list_lookup_insert_eq. by eapply lookup_lt_Some.
Qed.

(** ** Emptying a queue into the ready queue *)

(** The fields no queue operation touches. *)
Definition same_rest (s s' : sched) : Prop :=
  child_list s' = child_list s ∧ harts s' = harts s ∧ time_slice_history s' = time_slice_history s ∧
  time_slice_history_index s' = time_slice_history_index s ∧ process_id s' = process_id s.

Lemma same_rest_trans s1 s2 s3 : same_rest s1 s2 → same_rest s2 s3 → same_rest s1 s3.
Proof. unfold same_rest. intuition congruence. Qed.

(** [l] went from [q] to the end of the ready queue, each process through [g]. *)
Record drained (g : pcb_t → pcb_t) (q : qid) (l : list nat) (s s' : sched) : Prop := {
  dr_linked : linked s';
  dr_ready : queue s' QReady = queue s QReady ++ l;
  dr_queue : queue s' q = filter (fun r => r ∉ l) (queue s q);
  dr_other q' : q' ≠ QReady → q' ≠ q → queue s' q' = queue s q';
  dr_pcb p : pcb_all s' !! p =
    (fun x => if decide (p ∈ l) then set_container (Some QReady) (g x) else x) <$> pcb_all s !! p;
  dr_rest : same_rest s s';
}.

Definition keeps_container (g : pcb_t → pcb_t) : Prop := ∀ c x, g (set_container c x) = set_container c (g x).

Lemma drained_nil g q s : linked s → drained g q [] s s.
Proof.
  intros Hl. split; try done.
  - by rewrite app_nil_r.
  - symmetry. apply filter_all. set_solver.
  - intros p. by destruct (pcb_all s !! p).
Qed.

(** One node. *)
Definition move (g : pcb_t → pcb_t) (q : qid) (p : nat) (x : pcb_t) (s : sched) : sched :=
  append_to QReady p (g (set_container None x)) (set_pcbs (<[p := g (set_container None x)]> (pcb_all (delete_from q p x s)))
    (delete_from q p x s)).

Lemma move_run g q p x s :
  keeps_container g → container (g (set_container None x)) = None → pcb_all s !! p = Some x → container x = Some q →
  (list_delete p ;; upd_pcb p g ;; list_append QReady p) s = Ok (tt, move g q p x s).
Proof.
  intros Hg Hn Hp Hc. rewrite (bind_Ok _ _ _ _ _ (queue_delete_run _ _ _ _ Hp Hc)).
  assert (p < length (pcb_all s))%nat as Hlt by (by eapply lookup_lt_Some).
  assert (pcb_all (delete_from q p x s) !! p = Some (set_container None x)) as Hp1
    by (by apply list_lookup_insert_eq).
  rewrite (bind_Ok _ _ _ _ _ (upd_pcb_run _ _ _ g Hp1)).
  apply queue_append_run; [|done]. apply list_lookup_insert_eq. cbn [delete_from set_pcbs pcb_all].
  by rewrite length_insert.
Qed.

Lemma move_drained g q p x s :
  keeps_container g → (∀ y, container (g y) = container y) → linked s → q ≠ QReady →
  pcb_all s !! p = Some x → container x = Some q → drained g q [p] s (move g q p x s).
Proof.
  intros Hg Hgc Hl Hq Hp Hc. assert (p < length (pcb_all s))%nat as Hlt by (by eapply lookup_lt_Some).
  set (s1 := delete_from q p x s).
  assert (linked s1) as Hl1 by (by apply linked_delete).
  assert (pcb_all s1 !! p = Some (set_container None x)) as Hp1 by (by apply list_lookup_insert_eq).
  set (s2 := set_pcbs (<[p := g (set_container None x)]> (pcb_all s1)) s1).
  assert (linked s2) as Hl2 by (apply (linked_upd s1 p (set_container None x)); [done | done | by rewrite Hgc]).
  split.
  - apply linked_append; [done | | by rewrite Hgc].
    cbn [s2 set_pcbs pcb_all]. apply list_lookup_insert_eq. unfold s1. cbn. by rewrite length_insert.
  - cbn. rewrite fn_lookup_insert. by rewrite fn_lookup_insert_ne.
  - cbn. rewrite fn_lookup_insert_ne, fn_lookup_insert by done. apply list_filter_iff. set_solver.
  - intros q' H1 H2. cbn. by rewrite !fn_lookup_insert_ne.
  - intros r. unfold move, append_to, delete_from. cbn [pcb_all set_pcbs set_queue]. rewrite !list_insert_insert_eq.
    destruct (decide (r = p)) as [->|Hne].
    + rewrite list_lookup_insert_eq by done. rewrite Hp. cbn [fmap option_fmap option_map].
      rewrite decide_True by set_solver. by rewrite Hg.
    + rewrite list_lookup_insert_ne by done. destruct (pcb_all s !! r); [|done]. cbn.
      by rewrite decide_False by set_solver.
  - done.
Qed.

Lemma drained_cons g q p l s s1 s' :
  (∀ y, container (g y) = container y) → q ≠ QReady → p ∉ l →
  drained g q [p] s s1 → drained g q l s1 s' → drained g q (p :: l) s s'.
Proof.
  intros Hgc Hq Hnot D1 D2. split.
  - apply D2.
  - rewrite (dr_ready _ _ _ _ _ D2), (dr_ready _ _ _ _ _ D1), <- app_assoc. done.
  - rewrite (dr_queue _ _ _ _ _ D2), (dr_queue _ _ _ _ _ D1), list_filter_filter. apply list_filter_iff. set_solver.
  - intros q' H1 H2. rewrite (dr_other _ _ _ _ _ D2), (dr_other _ _ _ _ _ D1); done.
  - intros r. rewrite (dr_pcb _ _ _ _ _ D2), (dr_pcb _ _ _ _ _ D1). destruct (pcb_all s !! r) as [x|]; [|done]. cbn. f_equal.
    repeat case_decide; set_solver.
  - eapply same_rest_trans; [apply D1 | apply D2].
Qed.

Lemma drained_lookup g q p r s s1 x :
  drained g q [p] s s1 → r ≠ p → pcb_all s !! r = Some x → pcb_all s1 !! r = Some x.
Proof.
  intros D Hr Hx. rewrite (dr_pcb _ _ _ _ _ D), Hx. cbn. by rewrite decide_False by set_solver.
Qed.

Lemma unblock_loop_run q l s :
  linked s → q ≠ QReady → NoDup l → (∀ p, p ∈ l → ∃ x, pcb_all s !! p = Some x ∧ container x = Some q) →
  ∃ s', unblock_loop l s = Ok (tt, s') ∧ drained (set_status TASK_READY) q l s s'.
Proof.
  revert s. induction l as [|p l IH]; intros s Hl Hq Hnd Hin.
  { exists s. split; [done | by apply drained_nil]. }
  apply NoDup_cons in Hnd as [Hnot Hnd]. destruct (Hin p) as (x & Hp & Hc); [set_solver|].
  pose proof (move_drained (set_status TASK_READY) q p x s ltac:(done) ltac:(done) Hl Hq Hp Hc) as D1.
  pose proof (move_run (set_status TASK_READY) q p x s ltac:(done) ltac:(done) Hp Hc) as R1.
  set (s1 := move _ q p x s) in *.
  destruct (IH s1) as (s' & R2 & D2); [apply D1 | done | done | |].
  { intros r Hr. destruct (Hin r) as (y & Hy & Hcy); [set_solver|]. exists y. split; [|done].
    eapply drained_lookup; [done | set_solver | done]. }
  exists s'. split; [|by eapply drained_cons]. cbn [unblock_loop]. unfold do_unblock.
  destruct (bind_Ok_inv _ _ _ _ R1) as ([] & s0 & Ra & Rb). rewrite (bind_Ok _ _ _ _ _ Ra).
  rewrite (bind_Ok _ _ s0 tt s1 Rb). exact R2.
Qed.

Lemma unblock_list_run q s :
  linked s → q ≠ QReady →
  ∃ s', unblock_list q s = Ok (tt, s') ∧ drained (set_status TASK_READY) q (queue s q) s s' ∧ queue s' q = [].
Proof.
  intros Hl Hq. destruct (unblock_loop_run q (queue s q) s) as (s' & R & D); [done | done | apply Hl | |].
  { intros p. apply Hl. }
  exists s'. split_and!; [done | done |]. rewrite (dr_queue _ _ _ _ _ D). apply filter_none. set_solver.
Qed.

(** ** Sleepers *)
Definition due (now : Z) (s : sched) (p : nat) : Prop :=
  match pcb_all s !! p with Some x => wakeup_time x ≤ now | None => False end.
#[global] Instance due_dec now s p : Decision (due now s p).
Proof. unfold due. destruct (pcb_all s !! p); apply _. Defined.

Lemma drained_due now q l s s' p : drained id q l s s' → due now s' p ↔ due now s p.
Proof.
  intros D. unfold due. rewrite (dr_pcb _ _ _ _ _ D). destruct (pcb_all s !! p); [|done]. cbn. by case_decide.
Qed.

Lemma requeue_run q p x s :
  pcb_all s !! p = Some x → container x = Some q →
  (list_delete p ;; list_append QReady p) s = Ok (tt, move id q p x s).
Proof.
  intros Hp Hc. rewrite (bind_Ok _ _ _ _ _ (queue_delete_run _ _ _ _ Hp Hc)).
  assert (p < length (pcb_all s))%nat as Hlt by (by eapply lookup_lt_Some).
  assert (pcb_all (delete_from q p x s) !! p = Some (set_container None x)) as Hp1
    by (by apply list_lookup_insert_eq).
  unfold move. cbn [id]. rewrite (list_insert_id _ _ _ Hp1). by apply queue_append_run.
Qed.

Lemma sleep_loop_run now l s :
  linked s → NoDup l → (∀ p, p ∈ l → ∃ x, pcb_all s !! p = Some x ∧ container x = Some QSleep) →
  ∃ s', sleep_loop now l s = Ok (tt, s') ∧ drained id QSleep (filter (due now s) l) s s'.
Proof.
  revert s. induction l as [|p l IH]; intros s Hl Hnd Hin.
  { exists s. split; [done | by apply drained_nil]. }
  apply NoDup_cons in Hnd as [Hnot Hnd]. destruct (Hin p) as (x & Hp & Hc); [set_solver|].
  cbn [sleep_loop]. rewrite (bind_Ok _ _ _ _ _ (get_pcb_run _ _ _ Hp)).
  assert (due now s p ↔ wakeup_time x ≤ now) as Hdue by (unfold due; by rewrite Hp).
  rewrite Z.geb_leb. destruct (Z.leb_spec (wakeup_time x) now) as [Hle|Hgt].
  - rewrite filter_cons_True by (by apply Hdue).
    pose proof (move_drained id QSleep p x s ltac:(done) ltac:(done) Hl ltac:(done) Hp Hc) as D1.
    rewrite (bind_Ok _ _ _ _ _ (requeue_run QSleep p x s Hp Hc)). set (s1 := move _ _ p x s) in *.
    destruct (IH s1) as (s' & R2 & D2); [apply D1 | done | |].
    { intros r Hr. destruct (Hin r) as (y & Hy & Hcy); [set_solver|]. exists y. split; [|done].
      eapply drained_lookup; [done | set_solver | done]. }
    exists s'. split; [done|]. rewrite (list_filter_iff _ (due now s)) in D2 by (intros r; by eapply drained_due).
    eapply drained_cons; [done | done | | done | done]. rewrite list_elem_of_filter. tauto.
  - rewrite filter_cons_False by (rewrite Hdue; lia). unfold ret. cbn [bind].
    destruct (IH s) as (s' & R2 & D2); [done | done | |by exists s']. intros r Hr. apply Hin. set_solver.
Qed.

Lemma check_sleeping_run now s :
  linked s → ∃ s', check_sleeping now s = Ok (tt, s') ∧
    drained id QSleep (filter (due now s) (queue s QSleep)) s s'.
Proof. intros Hl. apply sleep_loop_run; [done | apply Hl |]. intros p. apply Hl. Qed.

(** ** Picking *)

(** [a] comes before [b] in the order of [update_by_consumption]. *)
Definition before (a b : Z * Z) : Prop := fst a < fst b ∨ (fst a = fst b ∧ snd a < snd b).
Definition key (x : pcb_t) : Z * Z := (task_id x, normalized_cnt x).

Lemma update_by_consumption_spec mins x :
  update_by_consumption mins x = if decide (before (key x) mins) then (key x, true) else (mins, false).
Proof.
  unfold update_by_consumption, before, key. destruct mins as [a b]. cbn [fst snd].
  destruct (Z.ltb_spec (task_id x) a); [by rewrite decide_True by lia|].
  destruct (Z.eqb_spec (task_id x) a) as [->|]; [|by rewrite decide_False by lia].
  destruct (Z.ltb_spec (normalized_cnt x) b); [by rewrite decide_True by lia | by rewrite decide_False by lia].
Qed.

(** The choice of the first loop: minimal, and the first of the minimal ones. *)
Definition chosen (h : nat) (s : sched) (l : list nat) (mins : Z * Z) (p : nat) : Prop :=
  ∃ x, pcb_all s !! p = Some x ∧ p ∈ l ∧ filterout_kernel h x = true ∧ before (key x) mins ∧
    ∀ r y, r ∈ l → pcb_all s !! r = Some y → filterout_kernel h y = true → ¬ before (key y) (key x).

Lemma before_trans a b c : before a b → before b c → before a c.
Proof. unfold before. lia. Qed.
Lemma before_trans_not a b c : before a b → ¬ before c b → ¬ before c a.
Proof. unfold before. lia. Qed.

Lemma pick_consumption_run h l s mins sel :
  (∀ p, p ∈ l → is_Some (pcb_all s !! p)) →
  ∃ r, pick_consumption h l mins sel s = Ok (r, s) ∧
    ((∃ p, r = Some p ∧ chosen h s l mins p) ∨
     (r = sel ∧ ∀ p x, p ∈ l → pcb_all s !! p = Some x → filterout_kernel h x = true → ¬ before (key x) mins)).
Proof.
  revert mins sel. induction l as [|p l IH]; intros mins sel Hin.
  { exists sel. split; [done|]. right. split; [done|]. set_solver. }
  destruct (Hin p) as [x Hp]; [set_solver|].
  assert (∀ r, r ∈ l → is_Some (pcb_all s !! r)) as Hin' by set_solver.
  cbn [pick_consumption]. rewrite (bind_Ok _ _ _ _ _ (get_pcb_run _ _ _ Hp)).
  destruct (filterout_kernel h x) eqn:Ef; cbn [negb].
  - rewrite update_by_consumption_spec. case_decide as Hb.
    + destruct (IH (key x) (Some p) Hin') as (r & R & Hr). exists r. split; [done|]. left.
      destruct Hr as [(q & -> & y & Hy & Hq & Hfy & Hby & Hmin)|[-> Hmin]].
      * exists q. split; [done|]. exists y. split_and!; [done | set_solver | done | by eapply before_trans |].
        intros r z [->|Hr]%elem_of_cons Hz Hfz; [|by apply (Hmin r)]. assert (z = x) as -> by congruence.
        unfold before in *. lia.
      * exists p. split; [done|]. exists x. split_and!; [done | set_solver | done | done |].
        intros r z [->|Hr]%elem_of_cons Hz Hfz; [|by apply (Hmin r)]. assert (z = x) as -> by congruence.
        unfold before. lia.
    + destruct (IH mins sel Hin') as (r & R & Hr). exists r. split; [done|].
      destruct Hr as [(q & -> & y & Hy & Hq & Hfy & Hby & Hmin)|[-> Hmin]].
      * left. exists q. split; [done|]. exists y. split_and!; [done | set_solver | done | done |].
        intros r z [->|Hr]%elem_of_cons Hz Hfz; [|by apply (Hmin r)]. assert (z = x) as -> by congruence.
        by eapply before_trans_not.
      * right. split; [done|]. intros r z [->|Hr]%elem_of_cons Hz Hfz; [|by apply (Hmin r)]. congruence.
  - destruct (IH mins sel Hin') as (r & R & Hr). exists r. split; [done|].
    destruct Hr as [(q & -> & y & Hy & Hq & Hfy & Hby & Hmin)|[-> Hmin]].
    * left. exists q. split; [done|]. exists y. split_and!; [done | set_solver | done | done |].
      intros r z [->|Hr]%elem_of_cons Hz Hfz; [congruence | by apply (Hmin r)].
    * right. split; [done|]. intros r z [->|Hr]%elem_of_cons Hz Hfz; [congruence | by apply (Hmin r)].
Qed.

(** The choice of the second loop. *)
Lemma pick_first_run h l s sel :
  (∀ p, p ∈ l → is_Some (pcb_all s !! p)) →
  ∃ r, pick_first h l sel s = Ok (r, s) ∧
    (r = sel ∧ (sel ≠ None ∨ ∀ p x, p ∈ l → pcb_all s !! p = Some x → filter_affinity h x = false) ∨
     sel = None ∧ ∃ p x, r = Some p ∧ p ∈ l ∧ pcb_all s !! p = Some x ∧ filter_affinity h x = true).
Proof.
  revert sel. induction l as [|p l IH]; intros sel Hin.
  { exists sel. split; [done|]. left. split; [done|]. right. set_solver. }
  destruct (Hin p) as [x Hp]; [set_solver|].
  assert (∀ r, r ∈ l → is_Some (pcb_all s !! r)) as Hin' by set_solver.
  cbn [pick_first]. rewrite (bind_Ok _ _ _ _ _ (get_pcb_run _ _ _ Hp)).
  destruct (filter_affinity h x) eqn:Ef; cbn [negb].
  - destruct sel as [r0|].
    + destruct (IH (Some r0) Hin') as (r & R & [[-> _]|[? _]]); [|done]. exists (Some r0). split; [done|]. left. auto.
    + destruct (IH (Some p) Hin') as (r & R & [[-> _]|[? _]]); [|done]. exists (Some p). split; [done|]. right.
      split; [done|]. exists p, x. set_solver.
  - destruct (IH sel Hin') as (r & R & Hr). exists r. split; [done|]. destruct Hr as [[-> Hr]|[-> (q & y & ?)]].
    + left. split; [done|]. destruct Hr as [Hr|Hr]; [by left|right].
      intros q y [->|Hq]%elem_of_cons Hy; [congruence | by eapply Hr].
    + right. split; [done|]. exists q, y. set_solver.
Qed.

(** ** Time slices *)
Definition slices (hist : list (option nat)) (p : nat) : Z := Z.of_nat (length (filter (fun o => o = Some p) hist)).

Record ring_ok (s : sched) : Prop := {
  ac_len : length (time_slice_history s) = Z.to_nat TIME_SLICE_HISTORY_SIZE;
  ac_idx : 0 ≤ time_slice_history_index s < TIME_SLICE_HISTORY_SIZE;
  ac_owner p : Some p ∈ time_slice_history s → is_Some (pcb_all s !! p);
}.
(** [slice_cnt] of a process is the number of its slices in the ring. *)
Definition accounted (s : sched) : Prop :=
  ∀ p x, pcb_all s !! p = Some x → slice_cnt x = slices (time_slice_history s) p.

Lemma slices_insert hist i o v p :
  hist !! i = Some o →
  slices (<[i := v]> hist) p = slices hist p - (if decide (o = Some p) then 1 else 0) + (if decide (v = Some p) then 1 else 0).
Proof.
  revert i. induction hist as [|w hist IH]; intros i Hi; [done|]. unfold slices in *.
  destruct i as [|i].
  - injection Hi as ->. change (<[0%nat := v]> (o :: hist)) with (v :: hist).
    rewrite !filter_cons. repeat case_decide; cbn [length] in *; first [lia | congruence].
  - specialize (IH i Hi). change (<[S i := v]> (w :: hist)) with (w :: <[i := v]> hist).
    rewrite !filter_cons. repeat case_decide; cbn [length] in *; first [lia | congruence].
Qed.

Lemma slices_range hist p : 0 ≤ slices hist p ≤ Z.of_nat (length hist).
Proof. unfold slices. pose proof (length_filter (fun o => o = Some p) hist). lia. Qed.

(** Two states that differ in [slice_cnt] only. *)
Definition no_slice (x : pcb_t) : pcb_t := set_slice 0 x.
Definition same_but_slices (s s' : sched) : Prop :=
  (∀ p, no_slice <$> pcb_all s' !! p = no_slice <$> pcb_all s !! p) ∧ queue s' = queue s ∧
  child_list s' = child_list s ∧ harts s' = harts s ∧ process_id s' = process_id s.

Lemma slice_upd s p x d :
  pcb_all s !! p = Some x →
  ∃ s', upd_pcb p (fun x => set_slice (i32 (slice_cnt x + d)) x) s = Ok (tt, s') ∧ same_but_slices s s' ∧
    time_slice_history s' = time_slice_history s ∧ time_slice_history_index s' = time_slice_history_index s ∧
    ∀ r, slice_cnt <$> pcb_all s' !! r =
      (fun y => if decide (r = p) then i32 (slice_cnt y + d) else slice_cnt y) <$> pcb_all s !! r.
Proof.
  intros Hp. rewrite (upd_pcb_run _ _ _ _ Hp). eexists. split; [done|].
  assert (p < length (pcb_all s))%nat as Hlt by (by eapply lookup_lt_Some).
  split_and!; [|done|done|].
  - split; [|done]. intros r. cbn [set_pcbs pcb_all]. destruct (decide (r = p)) as [->|Hne].
    + by rewrite list_lookup_insert_eq, Hp by done.
    + by rewrite list_lookup_insert_ne by done.
  - intros r. cbn [set_pcbs pcb_all]. destruct (decide (r = p)) as [->|Hne].
    + by rewrite list_lookup_insert_eq, Hp by done.
    + rewrite list_lookup_insert_ne by done. by destruct (pcb_all s !! r).
Qed.

Lemma same_but_slices_trans s1 s2 s3 : same_but_slices s1 s2 → same_but_slices s2 s3 → same_but_slices s1 s3.
Proof. intros (A1 & A2 & A3 & A4 & A5) (B1 & B2 & B3 & B4 & B5). split; [|split_and!; congruence]. intros p. by rewrite B1. Qed.

Lemma same_slices_lookup s s' p x :
  same_but_slices s s' → pcb_all s !! p = Some x → ∃ y, pcb_all s' !! p = Some y ∧ no_slice y = no_slice x.
Proof. intros [H _] Hp. specialize (H p). rewrite Hp in H. cbn in H. apply fmap_Some in H as (y & Hy & E). eauto. Qed.

Lemma account_run s p x :
  ring_ok s → pcb_all s !! p = Some x →
  ∃ s', account p s = Ok (tt, s') ∧ ring_ok s' ∧ same_but_slices s s' ∧ (accounted s → accounted s').
Proof.
  intros Ha Hp. destruct Ha as [Hlen Hidx Hown]. unfold account, gets. cbn [bind].
  set (i := Z.to_nat (time_slice_history_index s)).
  assert (i < length (time_slice_history s))%nat as Hi by (rewrite Hlen; unfold i; lia).
  destruct (lookup_lt_is_Some_2 _ _ Hi) as [o Ho]. fold i. rewrite Ho.
  assert (∃ s1, (match o with Some old => upd_pcb old (fun x => set_slice (i32 (slice_cnt x - 1)) x) | None => ret tt end) s
      = Ok (tt, s1) ∧ same_but_slices s s1 ∧
      time_slice_history s1 = time_slice_history s ∧ time_slice_history_index s1 = time_slice_history_index s ∧
      ∀ r, slice_cnt <$> pcb_all s1 !! r =
        (fun y => if decide (o = Some r) then i32 (slice_cnt y + -1) else slice_cnt y) <$> pcb_all s !! r) as (s1 & R1 & S1 & T1 & I1 & C1).
  { destruct o as [old|].
    - destruct (Hown old) as [y Hy]; [by eapply list_elem_of_lookup_2|].
      destruct (slice_upd s old y (-1) Hy) as (s1 & R & S & T & I & C). exists s1. split_and!; try done.
      intros r. rewrite C. destruct (pcb_all s !! r); [|done]. cbn. f_equal. repeat case_decide; congruence.
    - exists s. split_and!; try done; intros r; by destruct (pcb_all s !! r). }
  rewrite (bind_Ok _ _ _ _ _ R1).
  destruct (same_slices_lookup _ _ _ _ S1 Hp) as (x1 & Hp1 & _).
  destruct (slice_upd s1 p x1 1 Hp1) as (s2 & R2 & S2 & T2 & I2 & C2). rewrite (bind_Ok _ _ _ _ _ R2).
  pose proof (same_but_slices_trans _ _ _ S1 S2) as S.
  eexists. split; [done|]. split_and!; [split; cbn | exact S |].
  - by rewrite length_insert.
  - apply Z.mod_pos_bound. done.
  - intros r Hr. apply list_elem_of_lookup_1 in Hr as [j Hj]. apply list_lookup_insert_Some in Hj as [(_ & [= ->] & _)|[_ Hj]].
    + destruct (same_slices_lookup _ _ _ _ S Hp) as (y & ? & _). by exists y.
    + destruct (Hown r) as [y Hy]; [by eapply list_elem_of_lookup_2|].
      destruct (same_slices_lookup _ _ _ _ S Hy) as (z & ? & _). by exists z.
  - intros Hcnt r y Hy. cbn in Hy |- *. rewrite (slices_insert _ _ o) by done. specialize (C2 r). rewrite Hy in C2. cbn in C2.
    destruct (pcb_all s1 !! r) as [y1|] eqn:Hy1; [|done]. cbn in C2. injection C2 as C2.
    specialize (C1 r). rewrite Hy1 in C1. cbn in C1. destruct (pcb_all s !! r) as [y0|] eqn:Hy0; [|done]. cbn in C1. injection C1 as C1.
    pose proof (Hcnt r y0 Hy0) as Ec. pose proof (slices_range (time_slice_history s) r) as Hr. rewrite Hlen in Hr.
    change (Z.of_nat (Z.to_nat TIME_SLICE_HISTORY_SIZE)) with 200 in Hr.
    rewrite C2, C1. repeat case_decide; rewrite ?i32_id; try (rewrite ?i32_id; lia); simplify_eq; lia.
Qed.
