(* ===== verification/SchedTheorems.v ===== *)
(** * The scheduler: invariant, choice, progress

    [sched_inv] says how status, queues and harts fit together; every
    operation of the process table keeps it, the scheduler always finds a
    process, and the process is the one the accounting prefers. *)

From S2P Require Import Prelude Sched SchedProofs.

(** ** The invariant *)
Definition pcb_fits (s : sched) (p : nat) (x : pcb_t) : Prop :=
  match status x with
  | TASK_RUNNING | TASK_KILLED => container x = None ∧ p ∈ harts s
  | TASK_READY => container x = Some QReady
  | TASK_BLOCKED => container x ≠ None
  | TASK_EXITED => container x = None ∧ queue s (QProc p) = [] ∧ (2 ≤ p)%nat
  end.

(** [out]: the hart whose process is on its way to [switch_to], if any;
    [ex]: the process that is being dismantled, if any. *)
Record sched_inv_except (ex out : option nat) (s : sched) : Prop := {
  si_len : length (pcb_all s) = Z.to_nat NUM_MAX_PCB;
  si_linked : linked s;
  si_harts : length (harts s) = Z.to_nat NR_CPUS;
  si_hdup : NoDup (harts s);
  si_run h p : harts s !! h = Some p → out ≠ Some h → ∃ x, pcb_all s !! p = Some x ∧
    container x = None ∧ (status x = TASK_RUNNING ∨ status x = TASK_KILLED);
  si_out h p : harts s !! h = Some p → is_Some (pcb_all s !! p);
  si_fits p x : ex ≠ Some p → pcb_all s !! p = Some x → pcb_fits s p x;
  si_idle h : (h < 2)%nat → ∃ x, pcb_all s !! h = Some x ∧ pid x = Z.of_nat h ∧
    affinity x = Z.shiftl 1 (Z.of_nat h) ∧
    ((harts s !! h = Some h ∧ status x = TASK_RUNNING) ∨ container x = Some QReady);
  si_user p x : (2 ≤ p)%nat → pcb_all s !! p = Some x → status x ≠ TASK_EXITED → NR_CPUS ≤ pid x;
}.

Abbreviation sched_inv := (sched_inv_except None).

Lemma inv_fits out s p x : sched_inv out s → pcb_all s !! p = Some x → pcb_fits s p x.
Proof. intros Hi. by apply Hi. Qed.

Lemma waiting_blocked ex out s p x q :
  sched_inv_except ex out s → ex ≠ Some p → pcb_all s !! p = Some x → container x = Some q → q ≠ QReady →
  status x = TASK_BLOCKED.
Proof.
  intros Hi Hex Hp Hc Hq. pose proof (si_fits _ _ _ Hi p x Hex Hp) as Hf. unfold pcb_fits in Hf.
  destruct (status x); [done | | congruence | |]; destruct Hf as [? _]; congruence.
Qed.

(** Processes woken from a queue. *)
Lemma drained_inv ex out g q l s s' :
  (∀ x, pid (g x) = pid x ∧ affinity (g x) = affinity x ∧ (status (g x) = TASK_READY ∨ status (g x) = status x)) →
  q ≠ QReady → (∀ p, p ∈ l → p ∈ queue s q ∧ ex ≠ Some p) → sched_inv_except ex out s → drained g q l s s' →
  sched_inv_except ex out s'.
Proof.
  intros Hg Hq Hl Hi D. destruct (dr_rest _ _ _ _ _ D) as (_ & Eh & _).
  assert (∀ p x, p ∈ l → pcb_all s !! p = Some x → container x = Some q ∧ status x = TASK_BLOCKED) as Hmem.
  { intros p x Hp Hx. destruct (Hl p Hp) as [Hpq Hex].
    apply (ln_iff _ (si_linked _ _ _ Hi)) in Hpq as (y & Hy & Hc). assert (y = x) as -> by congruence.
    split; [done | by eapply waiting_blocked]. }
  assert (∀ p x, pcb_all s !! p = Some x → status x ≠ TASK_BLOCKED → pcb_all s' !! p = Some x) as Hkeep.
  { intros p x Hx Hst. rewrite (dr_pcb _ _ _ _ _ D), Hx. cbn. case_decide as Hin; [|done]. by destruct (Hmem p x Hin Hx). }
  assert (∀ p y, pcb_all s' !! p = Some y → ∃ x, pcb_all s !! p = Some x ∧ pid y = pid x ∧ affinity y = affinity x ∧
    ((y = x ∧ p ∉ l) ∨ (status x = TASK_BLOCKED ∧ container y = Some QReady ∧ (status y = TASK_READY ∨ status y = TASK_BLOCKED)))) as Hback.
  { intros p y Hy. rewrite (dr_pcb _ _ _ _ _ D) in Hy. apply fmap_Some in Hy as (x & Hx & ->). exists x.
    destruct (Hg x) as (E1 & E2 & E3). case_decide as Hin; [|tauto].
    destruct (Hmem p x Hin Hx) as [_ Eb]. split_and!; [done | done | done |]. right. cbn. rewrite Eb in E3. auto. }
  split; rewrite ?Eh.
  - rewrite <- (si_len _ _ _ Hi). apply length_lookup_eq. intros k. rewrite (dr_pcb _ _ _ _ _ D). apply fmap_is_Some.
  - apply D.
  - apply Hi.
  - apply Hi.
  - intros h p Hh Ho. destruct (si_run _ _ _ Hi h p Hh Ho) as (x & Hx & Hc & Hst). exists x. split; [|done].
    apply Hkeep; [done|]. destruct Hst as [-> | ->]; done.
  - intros h p Hh. destruct (si_out _ _ _ Hi h p Hh) as [x Hx]. rewrite (dr_pcb _ _ _ _ _ D), Hx. done.
  - intros p y Hex Hy. destruct (Hback p y Hy) as (x & Hx & _ & _ & [[-> _]|(_ & Hc & Hst)]).
    + pose proof (si_fits _ _ _ Hi p x Hex Hx) as Hf. unfold pcb_fits in *. rewrite Eh. destruct (status x); try done.
      destruct Hf as (Hf1 & Hf2 & Hf3). split_and!; [done | | done]. destruct (decide (q = QProc p)) as [->|Hne].
      * rewrite (dr_queue _ _ _ _ _ D), Hf2. done.
      * by rewrite (dr_other _ _ _ _ _ D).
    + unfold pcb_fits. destruct Hst as [-> | ->]; congruence.
  - intros h Hh. destruct (si_idle _ _ _ Hi h Hh) as (x & Hx & Hpid & Haff & Hd). exists x. split_and!; [|done..].
    rewrite (dr_pcb _ _ _ _ _ D), Hx. cbn. rewrite decide_False; [done|]. intros Hin.
    destruct (Hmem h x Hin Hx) as [Hc Hb]. destruct Hd as [[_ ?]|?]; congruence.
  - intros p y Hp Hy Hst. destruct (Hback p y Hy) as (x & Hx & -> & _ & Hd). apply (si_user _ _ _ Hi p x Hp Hx).
    destruct Hd as [[-> _]|[-> _]]; done.
Qed.

(** Only the slices changed. *)
Lemma no_slice_fields x y : no_slice y = no_slice x →
  pid y = pid x ∧ status y = status x ∧ affinity y = affinity x ∧ container y = container x ∧
  task_id y = task_id x ∧ wakeup_time y = wakeup_time x.
Proof. destruct x, y. unfold no_slice, set_slice. cbn. intros [= -> -> -> -> -> -> -> -> -> -> ->]. done. Qed.

Lemma same_slices_back s s' p y :
  same_but_slices s s' → pcb_all s' !! p = Some y → ∃ x, pcb_all s !! p = Some x ∧ no_slice y = no_slice x.
Proof. intros [H _] Hp. specialize (H p). rewrite Hp in H. cbn in H. symmetry in H. apply fmap_Some in H as (x & Hx & E). eauto. Qed.

Lemma same_slices_linked s s' : linked s → same_but_slices s s' → linked s'.
Proof.
  intros [Hi Hn] S. pose proof S as (_ & Eq & _). split; rewrite Eq; [|done]. intros q p. rewrite Hi. split.
  - intros (x & Hx & Hc). destruct (same_slices_lookup _ _ _ _ S Hx) as (y & Hy & E). exists y. split; [done|].
    apply no_slice_fields in E. destr. congruence.
  - intros (y & Hy & Hc). destruct (same_slices_back _ _ _ _ S Hy) as (x & Hx & E). exists x. split; [done|].
    apply no_slice_fields in E. destr. congruence.
Qed.

Lemma slices_inv out s s' : sched_inv out s → same_but_slices s s' → sched_inv out s'.
Proof.
  intros Hi S. pose proof S as (_ & Eq & _ & Eh & _). split; rewrite ?Eh; try apply Hi.
  - rewrite <- (si_len _ _ _ Hi). apply length_lookup_eq. intros k. destruct S as [H _].
    rewrite <- (fmap_is_Some no_slice), H, fmap_is_Some. done.
  - eapply same_slices_linked; [apply Hi | done].
  - intros h p Hh Ho. destruct (si_run _ _ _ Hi h p Hh Ho) as (x & Hx & Hc & Hst).
    destruct (same_slices_lookup _ _ _ _ S Hx) as (y & Hy & E). apply no_slice_fields in E. destr.
    exists y. split_and!; [done | congruence |]. destruct Hst; [left | right]; congruence.
  - intros h p Hh. destruct (si_out _ _ _ Hi h p Hh) as [x Hx]. destruct (same_slices_lookup _ _ _ _ S Hx) as (y & Hy & _). by exists y.
  - intros p y _ Hy. destruct (same_slices_back _ _ _ _ S Hy) as (x & Hx & E). apply no_slice_fields in E. destr.
    pose proof (inv_fits _ _ p x Hi Hx) as Hf. unfold pcb_fits in *. rewrite Eh, Eq. replace (status y) with (status x) by done.
    replace (container y) with (container x) by done. exact Hf.
  - intros h Hh. destruct (si_idle _ _ _ Hi h Hh) as (x & Hx & Hpid & Haff & Hd).
    destruct (same_slices_lookup _ _ _ _ S Hx) as (y & Hy & E). apply no_slice_fields in E. destr.
    exists y. split_and!; [done | congruence | congruence |]. destruct Hd as [[? ?]|?]; [left | right]; [split|]; congruence.
  - intros p y Hp Hy Hst. destruct (same_slices_back _ _ _ _ S Hy) as (x & Hx & E). apply no_slice_fields in E. destr.
    replace (pid y) with (pid x) by done. apply (si_user _ _ _ Hi p x Hp Hx). congruence.
Qed.

(** One process changed from [x] to [y], its node moved. *)
Lemma put_inv ex out out' s s' p x y :
  (ex = None ∨ ex = Some p) → sched_inv_except ex out s → pcb_all s !! p = Some x →
  pcb_all s' = <[p := y]> (pcb_all s) → harts s' = harts s → linked s' →
  (∀ r z, r ≠ p → pcb_all s !! r = Some z → status z = TASK_EXITED → queue s' (QProc r) = queue s (QProc r)) →
  (∀ h, out ≠ Some h ∨ harts s !! h = Some p → out' ≠ Some h → harts s !! h = Some p →
     container y = None ∧ (status y = TASK_RUNNING ∨ status y = TASK_KILLED)) →
  (∀ h, out = Some h → out' ≠ Some h → harts s !! h = Some p) →
  pcb_fits s' p y →
  ((p < 2)%nat → pid y = pid x ∧ affinity y = affinity x ∧
     ((harts s !! p = Some p ∧ status y = TASK_RUNNING) ∨ container y = Some QReady)) →
  ((2 ≤ p)%nat → status y ≠ TASK_EXITED → NR_CPUS ≤ pid y) →
  sched_inv out' s'.
Proof.
  intros Hex Hi Hx Ep Eh Hl Hq Hrun Hout Hfit Hidle Huser.
  assert (p < length (pcb_all s))%nat as Hlt by (by eapply lookup_lt_Some).
  split; rewrite ?Eh, ?Ep; try apply Hi.
  - rewrite length_insert. apply Hi.
  - exact Hl.
  - intros h r Hh Ho. destruct (decide (r = p)) as [->|Hne].
    + exists y. split; [by apply list_lookup_insert_eq|]. apply (Hrun h); auto.
    + rewrite list_lookup_insert_ne by done. apply (si_run _ _ _ Hi h r Hh). intros ->.
      specialize (Hout h eq_refl Ho). congruence.
  - intros h r Hh. destruct (si_out _ _ _ Hi h r Hh) as [z Hz]. destruct (decide (r = p)) as [->|Hne].
    + by rewrite list_lookup_insert_eq.
    + by rewrite list_lookup_insert_ne, Hz.
  - intros r z _ Hz. apply list_lookup_insert_Some in Hz as [(<- & <- & _)|[Hne Hz]]; [done|].
    assert (ex ≠ Some r) as Hexr by (destruct Hex as [-> | ->]; congruence).
    pose proof (si_fits _ _ _ Hi r z Hexr Hz) as Hf. unfold pcb_fits in *. rewrite Eh. destruct (status z) eqn:Est; try done.
    rewrite (Hq r z) by (try done; congruence). done.
  - intros h Hh. destruct (si_idle _ _ _ Hi h Hh) as (z & Hz & Hpid & Haff & Hd). destruct (decide (h = p)) as [->|Hne].
    + assert (z = x) as -> by congruence. destruct (Hidle Hh) as (E1 & E2 & E3). exists y.
      split_and!; [by apply list_lookup_insert_eq | congruence | congruence | done].
    + exists z. by rewrite list_lookup_insert_ne.
  - intros r z Hr Hz Hst. apply list_lookup_insert_Some in Hz as [(<- & <- & _)|[Hne Hz]]; [by apply Huser|].
    by apply (si_user _ _ _ Hi r z Hr Hz).
Qed.

(** ** The scheduler *)

(** The process on hart [h] left its place: no longer running. *)
Definition left_hart (h : nat) (s : sched) : Prop :=
  ∀ c y, harts s !! h = Some c → pcb_all s !! c = Some y → status y ≠ TASK_RUNNING ∧ status y ≠ TASK_KILLED.

Lemma filter_affinity_kernel h k : (h < 2)%nat → (k < 2)%nat →
  negb (Z.land (Z.shiftl 1 (Z.of_nat k)) (Z.shiftl 1 (Z.of_nat h)) =? 0) = bool_decide (k = h).
Proof. intros Hh Hk. destruct h as [|[|]], k as [|[|]]; try lia; reflexivity. Qed.

(** The running process goes to the end of the ready queue. *)
Lemma preempt_inv h c x s :
  sched_inv (Some h) s → harts s !! h = Some c → pcb_all s !! c = Some x → status x = TASK_RUNNING →
  let y := set_status TASK_READY x in
  let s' := append_to QReady c y (set_pcbs (<[c := y]> (pcb_all s)) s) in
  (upd_pcb c (set_status TASK_READY) ;; list_append QReady c) s = Ok (tt, s') ∧ sched_inv (Some h) s' ∧ left_hart h s'.
Proof.
  intros Hi Hc Hx Hst y s'. assert (c < length (pcb_all s))%nat as Hlt by (by eapply lookup_lt_Some).
  assert (container x = None) as Hcx by (pose proof (inv_fits _ _ c x Hi Hx) as Hf; unfold pcb_fits in Hf; rewrite Hst in Hf; apply Hf).
  set (s1 := set_pcbs (<[c := y]> (pcb_all s)) s).
  assert (pcb_all s1 !! c = Some y) as Hy by (by apply list_lookup_insert_eq).
  assert (linked s1) as Hl1 by (apply (linked_upd s c x); [apply Hi | done | done]).
  split_and!.
  - rewrite (bind_Ok _ _ _ _ _ (upd_pcb_run _ _ _ _ Hx)). by apply queue_append_run.
  - eapply (put_inv None (Some h) (Some h) s s' c x (set_container (Some QReady) y)); try done; [by left| | | | |].
    + cbn. by rewrite list_insert_insert_eq.
    + by apply linked_append.
    + intros h' _ Ho Hh'. exfalso. apply Ho. f_equal. exact (NoDup_lookup _ _ _ _ (si_hdup _ _ _ Hi) Hc Hh').
    + intros Hlt2. destruct (si_idle _ _ _ Hi c Hlt2) as (z & Hz & _). split_and!; [done | done | by right].
    + intros H2 _. cbn. apply (si_user _ _ _ Hi c x H2 Hx). congruence.
  - intros c' z Hc' Hz. cbn in Hc'. assert (c' = c) as -> by congruence.
    unfold s' in Hz. cbn [append_to set_pcbs pcb_all] in Hz. rewrite list_lookup_insert_eq in Hz
      by (cbn [set_queue pcb_all]; rewrite length_insert; done). injection Hz as <-. done.
Qed.

(** The picked process enters the hart. *)
Lemma dispatch_inv h p x s :
  (h < 2)%nat → sched_inv (Some h) s → left_hart h s → pcb_all s !! p = Some x → container x = Some QReady →
  filter_affinity h x = true →
  let y := set_cpu (Z.of_nat h) (set_status TASK_RUNNING (set_container None x)) in
  ∃ s', (list_delete p ;; upd_pcb p (set_status TASK_RUNNING) ;; modify (set_current h p) ;;
         upd_pcb p (set_cpu (Z.of_nat h))) s = Ok (tt, s') ∧
    sched_inv None s' ∧ harts s' = <[h := p]> (harts s) ∧ pcb_all s' = <[p := y]> (pcb_all s) ∧
    time_slice_history s' = time_slice_history s ∧ time_slice_history_index s' = time_slice_history_index s ∧
    queue s' = <[QReady := filter (fun r => r ≠ p) (queue s QReady)]> (queue s) ∧ process_id s' = process_id s.
Proof.
  intros Hh Hi Hleft Hx Hc Haff y. assert (p < length (pcb_all s))%nat as Hlt by (by eapply lookup_lt_Some).
  assert (h < length (harts s))%nat as Hlh by (rewrite (si_harts _ _ _ Hi); change (Z.to_nat NR_CPUS) with 2%nat; lia).
  set (s1 := delete_from QReady p x s). set (x1 := set_container None x).
  assert (pcb_all s1 !! p = Some x1) as Hx1 by (by apply list_lookup_insert_eq).
  assert (linked s1) as Hl1 by (apply linked_delete; [apply Hi | done | done]).
  set (x2 := set_status TASK_RUNNING x1). set (s2 := set_pcbs (<[p := x2]> (pcb_all s1)) s1).
  set (s3 := set_current h p s2).
  assert (pcb_all s3 !! p = Some x2) as Hx3.
  { cbn. apply list_lookup_insert_eq. by rewrite length_insert. }
  set (s4 := set_pcbs (<[p := y]> (pcb_all s3)) s3).
  assert (linked s4) as Hl4.
  { apply (linked_upd s3 p x2); [|done|done].
    assert (linked s2) as [A B] by (by apply (linked_upd s1 p x1)). by split. }
  assert (pcb_all s4 = <[p := y]> (pcb_all s)) as Ep by (cbn; by rewrite !list_insert_insert_eq).
  assert (∀ h', harts s !! h' = Some p → h' = h) as Hnot.
  { intros h' Hh'. destruct (decide (h' = h)) as [->|Hne]; [done|].
    destruct (si_run _ _ _ Hi h' p Hh') as (z & Hz & Hcz & _); [congruence|]. congruence. }
  exists s4. split_and!; [| | done | exact Ep | done | done | done | done].
  { rewrite (bind_Ok _ _ _ _ _ (queue_delete_run _ _ _ _ Hx Hc)).
    rewrite (bind_Ok _ _ _ _ _ (upd_pcb_run _ _ _ (set_status TASK_RUNNING) Hx1)).
    unfold modify. cbn [bind]. fold s1. exact (upd_pcb_run s3 p x2 (set_cpu (Z.of_nat h)) Hx3). }
  split; rewrite ?Ep.
  - rewrite length_insert. apply Hi.
  - exact Hl4.
  - cbn. rewrite length_insert. apply Hi.
  - apply NoDup_alt. intros i j r Hi' Hj'. cbn in Hi', Hj'.
    apply list_lookup_insert_Some in Hi' as [(<- & <- & _)|[Hne Hi']];
      apply list_lookup_insert_Some in Hj' as [(<- & Er & _)|[Hne' Hj']]; try done.
    + by apply Hnot in Hj'.
    + subst r. by apply Hnot in Hi'.
    + exact (NoDup_lookup _ _ _ _ (si_hdup _ _ _ Hi) Hi' Hj').
  - intros h' r Hr _. cbn in Hr. apply list_lookup_insert_Some in Hr as [(<- & <- & _)|[Hne Hr]].
    + exists y. rewrite list_lookup_insert_eq by done. split_and!; [done | done | by left].
    + destruct (si_run _ _ _ Hi h' r Hr) as (z & Hz & Hcz & Hsz); [congruence|]. exists z.
      rewrite list_lookup_insert_ne; [done|]. intros ->. apply Hnot in Hr. done.
  - intros h' r Hr. cbn in Hr. apply list_lookup_insert_Some in Hr as [(<- & <- & _)|[Hne Hr]].
    + by rewrite list_lookup_insert_eq.
    + destruct (si_out _ _ _ Hi h' r Hr) as [z Hz]. rewrite list_lookup_insert_ne; [by rewrite Hz|]. intros ->. by apply Hnot in Hr.
  - intros r z _ Hz. apply list_lookup_insert_Some in Hz as [(<- & <- & _)|[Hne Hz]].
    + unfold pcb_fits. cbn. split; [done|]. eapply list_elem_of_lookup_2. by apply (list_lookup_insert_eq _ h).
    + pose proof (inv_fits _ _ r z Hi Hz) as Hf. unfold pcb_fits in *. cbn.
      assert (r ∈ harts s → status z = TASK_RUNNING ∨ status z = TASK_KILLED → r ∈ <[h := p]> (harts s)) as Hstay.
      { intros [h' Hh']%list_elem_of_lookup_1 Hst. apply (list_elem_of_lookup_2 _ h'). rewrite list_lookup_insert_ne; [done|].
        intros <-. destruct (Hleft r z Hh' Hz). tauto. }
      destruct (status z); try done; try (destruct Hf as [? ?]; split; [done | apply Hstay; auto]).
      all: rewrite !fn_lookup_insert_ne by done; done.
  - intros k Hk. destruct (si_idle _ _ _ Hi k Hk) as (z & Hz & Hpid & Ha & Hd). destruct (decide (k = p)) as [->|Hne].
    + assert (z = x) as -> by congruence. exists y. rewrite list_lookup_insert_eq by done. split_and!; [done | done | done |].
      left. split; [|done]. unfold filter_affinity in Haff. rewrite Ha, filter_affinity_kernel in Haff by done.
      apply bool_decide_eq_true in Haff. subst p. by apply (list_lookup_insert_eq (harts s) h).
    + exists z. rewrite list_lookup_insert_ne by done. split_and!; [done | done | done |].
      destruct Hd as [[Hk1 Hk2]|?]; [|by right]. left. split; [|done]. cbn. rewrite list_lookup_insert_ne; [done|].
      intros <-. destruct (Hleft h z Hk1 Hz). done.
  - intros r z Hr Hz Hst. apply list_lookup_insert_Some in Hz as [(<- & <- & _)|[Hne Hz]].
    + cbn. apply (si_user _ _ _ Hi p x Hr Hx). pose proof (inv_fits _ _ p x Hi Hx) as Hf. unfold pcb_fits in Hf.
      intros E. rewrite E in Hf. destruct Hf. congruence.
    + by apply (si_user _ _ _ Hi r z Hr Hz).
Qed.

Lemma ring_ext s s' :
  ring_ok s → time_slice_history s' = time_slice_history s →
  time_slice_history_index s' = time_slice_history_index s →
  (∀ p, slice_cnt <$> pcb_all s' !! p = slice_cnt <$> pcb_all s !! p) → ring_ok s' ∧ (accounted s → accounted s').
Proof.
  intros [H1 H2 H3] E1 E2 E3. split; [split; rewrite ?E1, ?E2; [done | done |]|].
  - intros p Hp. apply (fmap_is_Some slice_cnt). rewrite E3, fmap_is_Some. by apply H3.
  - intros H4 p x Hx. specialize (E3 p). rewrite Hx in E3. cbn in E3. symmetry in E3.
    apply fmap_Some in E3 as (y & Hy & ->). rewrite E1. by apply H4.
Qed.

Lemma slice_insert (l : list pcb_t) p x y :
  l !! p = Some x → slice_cnt y = slice_cnt x → ∀ r, slice_cnt <$> <[p := y]> l !! r = slice_cnt <$> l !! r.
Proof.
  intros Hx E r. destruct (decide (r = p)) as [->|Hne]; [|by rewrite list_lookup_insert_ne].
  rewrite list_lookup_insert_eq, Hx by (by eapply lookup_lt_Some). cbn. by rewrite E.
Qed.

Lemma drained_ring g q l s s' :
  (∀ x, slice_cnt (g x) = slice_cnt x) → ring_ok s → drained g q l s s' → ring_ok s' ∧ (accounted s → accounted s').
Proof.
  intros Hg Ha D. destruct (dr_rest _ _ _ _ _ D) as (_ & _ & E1 & E2 & _). apply ring_ext; [done..|].
  intros p. rewrite (dr_pcb _ _ _ _ _ D). destruct (pcb_all s !! p); [|done]. cbn. case_decide; [|done]. cbn. by rewrite Hg.
Qed.

(** What the choice looks at is the same in both states. *)
Definition same_key (x y : pcb_t) : Prop :=
  pid y = pid x ∧ affinity y = affinity x ∧ task_id y = task_id x ∧ task_workload y = task_workload x ∧
  slice_cnt y = slice_cnt x ∧ nice y = nice x.
Definition same_keys (s s' : sched) : Prop :=
  ∀ p x, pcb_all s !! p = Some x → ∃ y, pcb_all s' !! p = Some y ∧ same_key x y.

Lemma same_key_choice x y : same_key x y →
  key y = key x ∧ (∀ h, filter_affinity h y = filter_affinity h x) ∧ (∀ h, filterout_kernel h y = filterout_kernel h x).
Proof.
  intros (E1 & E2 & E3 & E4 & E5 & E6). unfold key, normalized_cnt, filterout_kernel, filter_affinity.
  rewrite E1, E2, E3, E4, E5, E6. done.
Qed.

Lemma same_keys_trans s1 s2 s3 : same_keys s1 s2 → same_keys s2 s3 → same_keys s1 s3.
Proof.
  intros H1 H2 p x Hx. destruct (H1 p x Hx) as (y & Hy & K1). destruct (H2 p y Hy) as (z & Hz & K2).
  exists z. split; [done|]. unfold same_key in *. intuition congruence.
Qed.

Lemma drained_same_keys q l s s' : drained id q l s s' → same_keys s s'.
Proof. intros D p x Hx. rewrite (dr_pcb _ _ _ _ _ D), Hx. cbn. eexists. split; [done|]. by case_decide. Qed.

(** The ready queue has a process for hart [h]: its own kernel process. *)
Lemma idle_ready h s :
  (h < 2)%nat → sched_inv (Some h) s → left_hart h s →
  ∃ x, pcb_all s !! h = Some x ∧ h ∈ queue s QReady ∧ filter_affinity h x = true.
Proof.
  intros Hh Hi Hleft. destruct (si_idle _ _ _ Hi h Hh) as (x & Hx & _ & Ha & Hd). exists x. split_and!; [done | |].
  - destruct Hd as [[Hc Hst]|Hc]; [|apply (ln_iff _ (si_linked _ _ _ Hi)); by exists x]. by destruct (Hleft h x Hc Hx).
  - unfold filter_affinity. rewrite Ha, filter_affinity_kernel by done. by apply bool_decide_eq_true.
Qed.

(** [pick_process] returns the preferred process. *)
Definition preferred (h : nat) (s : sched) (ready : list nat) (p : nat) : Prop :=
  p ∈ ready ∧ ∃ y, pcb_all s !! p = Some y ∧ filter_affinity h y = true ∧
    ∀ r z, r ∈ ready → pcb_all s !! r = Some z → filterout_kernel h z = true → before (key z) (INT_BIG, INT_BIG) →
      filterout_kernel h y = true ∧ ¬ before (key z) (key y).

Lemma filterout_affinity h x : filterout_kernel h x = true → filter_affinity h x = true.
Proof. unfold filterout_kernel. by destruct (pid x <? NR_CPUS). Qed.

Lemma pick_process_run h s :
  (h < 2)%nat → sched_inv (Some h) s → ring_ok s → left_hart h s →
  ∃ p s', pick_process h s = Ok (p, s') ∧ preferred h s (queue s QReady) p ∧ ring_ok s' ∧
    (accounted s → accounted s') ∧ same_but_slices s s'.
Proof.
  intros Hh Hi Ha Hleft. set (l := queue s QReady).
  assert (∀ p, p ∈ l → is_Some (pcb_all s !! p)) as Hin.
  { intros p (x & Hx & _)%(ln_iff _ (si_linked _ _ _ Hi)). by exists x. }
  destruct (pick_consumption_run h l s (INT_BIG, INT_BIG) None Hin) as (r & R1 & Hr).
  assert (∃ p, (match r with Some p => ret (Some p) | None => pick_first h l None end) s = Ok (Some p, s) ∧ preferred h s l p)
    as (p & R2 & Hp).
  { destruct Hr as [(p & -> & y & Hy & Hpl & Hf & Hb & Hmin)|[-> Hmin]].
    - exists p. split; [done|]. split; [done|]. exists y. split_and!; [done | by apply filterout_affinity |].
      intros r z Hrl Hz Hfz _. split; [done | by eapply Hmin].
    - destruct (pick_first_run h l s None Hin) as (r' & R2 & Hr').
      destruct Hr' as [[-> [?|Hnone]]|[_ (p & x & -> & Hpl & Hx & Hf)]]; [done | |].
      + destruct (idle_ready h s Hh Hi Hleft) as (x & Hx & Hl & Hf). rewrite (Hnone h x Hl Hx) in Hf. done.
      + exists p. split; [done|]. split; [done|]. exists x. split_and!; [done..|].
        intros r z Hrl Hz Hfz Hbz. by destruct (Hmin r z Hrl Hz Hfz). }
  destruct (Hin p) as [x Hx]; [apply Hp|]. destruct (account_run s p x Ha Hx) as (s' & R3 & Ha' & S & Hac).
  exists p, s'. split_and!; [|done | done | done | done]. unfold pick_process, gets. cbn [bind]. fold l.
  rewrite (bind_Ok _ _ _ _ _ R1), (bind_Ok _ _ _ _ _ R2), (bind_Ok _ _ _ _ _ R3). done.
Qed.

(** The queue [do_scheduler] picks from. *)
Definition ready_at (now : Z) (c : nat) (x : pcb_t) (s : sched) : list nat :=
  queue s QReady ++ filter (due now s) (queue s QSleep) ++ (if decide (status x = TASK_RUNNING) then [c] else []).

Lemma preferred_same h s s' l p : same_keys s s' → (∀ r, r ∈ l → is_Some (pcb_all s !! r)) →
  preferred h s' l p → preferred h s l p.
Proof.
  intros Hk Hin [Hp (y' & Hy' & Hf & Hmin)]. split; [done|]. destruct (Hin p Hp) as [y Hy].
  destruct (Hk p y Hy) as (y1 & Hy1 & K). assert (y1 = y') as -> by congruence.
  destruct (same_key_choice _ _ K) as (Ek & Ea & Ef). exists y. rewrite <- Ea. split_and!; [done | done |].
  intros r z Hr Hz Hfz Hbz. destruct (Hk r z Hz) as (z' & Hz' & K'). destruct (same_key_choice _ _ K') as (Ek' & Ea' & Ef').
  rewrite <- Ef, <- Ek, <- Ek'. apply (Hmin r z' Hr Hz'); congruence.
Qed.

Lemma do_scheduler_run h now s c x :
  (h < 2)%nat → sched_inv (Some h) s → ring_ok s → harts s !! h = Some c → pcb_all s !! c = Some x →
  status x ≠ TASK_KILLED →
  ∃ p s', do_scheduler h now s = Ok (tt, s') ∧ sched_inv None s' ∧ ring_ok s' ∧ (accounted s → accounted s') ∧ harts s' = <[h := p]> (harts s) ∧
    preferred h s (ready_at now c x s) p ∧ queue s' QReady = filter (fun r => r ≠ p) (ready_at now c x s) ∧
    process_id s' = process_id s ∧ (∀ q, q ≠ QReady → q ≠ QSleep → queue s' q = queue s q).
Proof.
  intros Hh Hi Ha Hc Hx Hk. pose proof (si_linked _ _ _ Hi) as Hl.
  destruct (check_sleeping_run now s Hl) as (s1 & R1 & D1).
  assert (sched_inv (Some h) s1) as Hi1.
  { eapply (drained_inv None _ id QSleep); [| done | | done | done]; [by auto|]. intros p. rewrite list_elem_of_filter. intros [_ ?]. done. }
  destruct (drained_ring id QSleep _ s s1 ltac:(done) Ha D1) as [Ha1 Hac1].
  destruct (dr_rest _ _ _ _ _ D1) as (_ & Eh1 & _ & _ & Ep1).
  assert (∃ x1, pcb_all s1 !! c = Some x1 ∧ status x1 = status x) as (x1 & Hx1 & Est).
  { rewrite (dr_pcb _ _ _ _ _ D1), Hx. cbn. eexists. split; [done|]. by case_decide. }
  set (tail := if decide (status x = TASK_RUNNING) then [c] else []).
  assert (∃ s2, (if decide (status x1 = TASK_RUNNING) then
       upd_pcb c (set_status TASK_READY) ;; list_append QReady c else ret tt) s1 = Ok (tt, s2) ∧
     sched_inv (Some h) s2 ∧ left_hart h s2 ∧ (ring_ok s2 ∧ (accounted s1 → accounted s2)) ∧ same_keys s1 s2 ∧ queue s2 QReady = queue s1 QReady ++ tail ∧
     harts s2 = harts s ∧ process_id s2 = process_id s ∧ (∀ q, q ≠ QReady → queue s2 q = queue s1 q))
    as (s2 & R2 & Hi2 & Hleft & [Ha2 Hac2] & K2 & Eq2 & Eh2 & Ep2 & Eo2).
  { rewrite <- Eh1 in Hc. unfold tail. rewrite <- Est. case_decide as Hrun.
    - destruct (preempt_inv h c x1 s1 Hi1 Hc Hx1 Hrun) as (R & Hi2 & Hleft). eexists. split; [exact R|].
      split; [done|]. split; [done|]. split; [|split_and!; [| | done | done | intros q Hq; cbn; by rewrite fn_lookup_insert_ne]].
      + apply ring_ext; [exact Ha1 | done | done |]. cbn. rewrite list_insert_insert_eq. by eapply slice_insert.
      + intros r z Hz. cbn. rewrite list_insert_insert_eq. destruct (decide (r = c)) as [->|Hne].
        * rewrite list_lookup_insert_eq by (by eapply lookup_lt_Some). assert (z = x1) as -> by congruence. eexists. done.
        * rewrite list_lookup_insert_ne by done. exists z. done.
      + cbn. by rewrite fn_lookup_insert.
    - exists s1. split_and!; try done; [|by intros r z Hz; exists z | by rewrite app_nil_r].
      intros c' y Hc' Hy. assert (c' = c) as -> by congruence. assert (y = x1) as -> by congruence. split; congruence. }
  destruct (pick_process_run h s2 Hh Hi2 Ha2 Hleft) as (p & s3 & R3 & Hpref & Ha3 & Hac3 & S3).
  pose proof (slices_inv _ _ _ Hi2 S3) as Hi3.
  assert (queue s2 QReady = ready_at now c x s) as Ert.
  { rewrite Eq2, (dr_ready _ _ _ _ _ D1). unfold ready_at. by rewrite app_assoc. }
  assert (left_hart h s3) as Hleft3.
  { intros c' y Hc' Hy. pose proof S3 as (_ & _ & _ & Eh3 & _). rewrite Eh3 in Hc'.
    destruct (same_slices_back _ _ _ _ S3 Hy) as (z & Hz & E). apply no_slice_fields in E. destr.
    destruct (Hleft c' z Hc' Hz). split; congruence. }
  destruct Hpref as [Hp (y & Hy & Hf & Hmin)].
  destruct (same_slices_lookup _ _ _ _ S3 Hy) as (y3 & Hy3 & E3). apply no_slice_fields in E3 as (_ & _ & Ea3 & Ec3 & _).
  assert (container y3 = Some QReady) as Hc3.
  { apply (ln_iff _ (si_linked _ _ _ Hi2)) in Hp as (z & Hz & Hcz). congruence. }
  destruct (dispatch_inv h p y3 s3 Hh Hi3 Hleft3 Hy3 Hc3) as (s4 & R4 & Hi4 & Eh4 & Epc4 & Et4 & Eix4 & Eq4 & Epr4).
  { unfold filter_affinity in *. by rewrite Ea3. }
  pose proof S3 as (_ & Eq3 & _ & Eh3 & Epr3).
  assert (ring_ok s4 ∧ (accounted s3 → accounted s4)) as [Hr4 Hac4].
  { apply ring_ext; [exact Ha3 | done | done |]. rewrite Epc4. by eapply slice_insert. }
  exists p, s4. split_and!.
  - unfold do_scheduler. rewrite (bind_Ok _ _ _ _ _ R1). unfold current_running at 1.
    rewrite (bind_Ok _ _ s1 c s1) by (by rewrite Eh1, Hc). rewrite (bind_Ok _ _ _ _ _ (get_pcb_run _ _ _ Hx1)).
    rewrite (bind_Ok _ _ _ _ _ R2), (bind_Ok _ _ _ _ _ R3). exact R4.
  - exact Hi4.
  - exact Hr4.
  - tauto.
  - by rewrite Eh4, Eh3, Eh2.
  - rewrite <- Ert. eapply (preferred_same h s s2).
    + eapply same_keys_trans; [by eapply drained_same_keys | done].
    + intros r Hr. apply (ln_iff _ (si_linked _ _ _ Hi2)) in Hr as (z & Hz & _).
      assert (is_Some (pcb_all s2 !! r)) as His by (by exists z). rewrite lookup_lt_is_Some in His |- *.
      rewrite (si_len _ _ _ Hi), <- (si_len _ _ _ Hi2). done.
    + split; [done|]. exists y. done.
  - rewrite Eq4, fn_lookup_insert, Eq3, Ert. done.
  - congruence.
  - intros q Hq Hs. rewrite Eq4, fn_lookup_insert_ne, Eq3, Eo2 by done. by apply (dr_other _ _ _ _ _ D1).
Qed.

(** ** The operations of the process table *)
Lemma inv_out h s : sched_inv None s → sched_inv (Some h) s.
Proof. intros []. split; try done. intros h' p Hh _. by apply (si_run0 h'). Qed.

(** A user process runs on hart [h]. *)
Definition user_on (h : nat) (c : nat) (x : pcb_t) (s : sched) : Prop :=
  harts s !! h = Some c ∧ (2 ≤ c)%nat ∧ pcb_all s !! c = Some x ∧ status x = TASK_RUNNING.

(** Queues a process may be put in: not the one of a dead process. *)
Definition waitable (q : qid) (s : sched) : Prop :=
  q ≠ QReady ∧ ∀ r z, q = QProc r → pcb_all s !! r = Some z → status z ≠ TASK_EXITED.

(** The running process goes into [q], its other fields through [f]. *)
Lemma park_inv h c x y q s :
  sched_inv None s → user_on h c x s → waitable q s → container y = None → status y = TASK_BLOCKED → pid y = pid x →
  sched_inv (Some h) (append_to q c y (set_pcbs (<[c := y]> (pcb_all s)) s)).
Proof.
  intros Hi (Hc & Hu & Hx & Hst) [Hq Hw] Hcy Hsy Epid. assert (c < length (pcb_all s))%nat as Hlt by (by eapply lookup_lt_Some).
  assert (container x = None) as Hcx by (pose proof (inv_fits _ _ c x Hi Hx) as Hf; unfold pcb_fits in Hf; rewrite Hst in Hf; apply Hf).
  eapply (put_inv None None (Some h) s _ c x (set_container (Some q) y)); try done; [by left| | | | | | |].
  - cbn. by rewrite list_insert_insert_eq.
  - apply linked_append; [| by apply list_lookup_insert_eq | done]. apply (linked_upd s c x); [apply Hi | done | congruence].
  - intros r z Hr Hz Hex. cbn. rewrite fn_lookup_insert_ne; [done|]. intros E. apply (Hw r z); congruence.
  - intros h' _ Ho Hh'. exfalso. apply Ho. f_equal. exact (NoDup_lookup _ _ _ _ (si_hdup _ _ _ Hi) Hc Hh').
  - unfold pcb_fits. cbn. by rewrite Hsy.
  - lia.
  - intros _ _. cbn. rewrite Epid. apply (si_user _ _ _ Hi c x Hu Hx). congruence.
Qed.

Lemma ring_park c x y q s :
  ring_ok s → pcb_all s !! c = Some x → slice_cnt y = slice_cnt x →
  ring_ok (append_to q c y (set_pcbs (<[c := y]> (pcb_all s)) s)).
Proof.
  intros Hr Hx E. apply (ring_ext s); [done | done | done |]. cbn. rewrite list_insert_insert_eq. by eapply slice_insert.
Qed.

(** A good state: the invariant, the ring, and pids above the kernel's. *)
Record sched_good (s : sched) : Prop := {
  sg_inv : sched_inv None s;
  sg_ring : ring_ok s;
  sg_pid : NR_CPUS ≤ process_id s;
}.

Lemma scheduler_good h now s c x :
  (h < 2)%nat → sched_inv (Some h) s → ring_ok s → NR_CPUS ≤ process_id s → harts s !! h = Some c → pcb_all s !! c = Some x →
  status x ≠ TASK_KILLED → ∃ s', do_scheduler h now s = Ok (tt, s') ∧ sched_good s'.
Proof.
  intros Hh Hi Hr Hp Hc Hx Hk. destruct (do_scheduler_run h now s c x Hh Hi Hr Hc Hx Hk) as (p & s' & R & Hi' & Hr' & _ & _ & _ & _ & Ep & _).
  exists s'. split; [done|]. split; [done | done | by rewrite Ep].
Qed.

Lemma hart_range out s h p : sched_inv out s → harts s !! h = Some p → (h < 2)%nat.
Proof. intros Hi Hh. apply lookup_lt_Some in Hh. by rewrite (si_harts _ _ _ Hi) in Hh. Qed.

(** Park, then schedule. *)
Lemma park_good h now c x y q s :
  sched_good s → user_on h c x s → waitable q s → container y = None → status y = TASK_BLOCKED → pid y = pid x →
  slice_cnt y = slice_cnt x →
  ∃ s', do_scheduler h now (append_to q c y (set_pcbs (<[c := y]> (pcb_all s)) s)) = Ok (tt, s') ∧ sched_good s'.
Proof.
  intros [Hi Hr Hp] Hu Hq Hcy Hsy Epid Esl. pose proof Hu as (Hc & H2 & Hx & Hst).
  apply (scheduler_good h now _ c (set_container (Some q) y)); try done.
  - by eapply hart_range.
  - by eapply park_inv.
  - by eapply ring_park.
  - cbn. rewrite list_insert_insert_eq. apply list_lookup_insert_eq. by eapply lookup_lt_Some.
  - cbn. congruence.
Qed.

Lemma running_free s c x : sched_inv None s → pcb_all s !! c = Some x → status x = TASK_RUNNING → container x = None.
Proof. intros Hi Hx Hst. pose proof (inv_fits _ _ c x Hi Hx) as Hf. unfold pcb_fits in Hf. rewrite Hst in Hf. apply Hf. Qed.

Lemma do_block_run c x q s :
  pcb_all s !! c = Some x → status x ≠ TASK_BLOCKED → container x = None →
  do_block c q s = Ok (tt, let y := set_status TASK_BLOCKED x in append_to q c y (set_pcbs (<[c := y]> (pcb_all s)) s)).
Proof.
  intros Hx Hst Hc. unfold do_block. rewrite (bind_Ok _ _ _ _ _ (get_pcb_run _ _ _ Hx)). rewrite decide_False by done.
  rewrite Hc, (bind_Ok _ _ s tt s) by done. rewrite (bind_Ok _ _ _ _ _ (upd_pcb_run _ _ _ _ Hx)).
  apply queue_append_run; [|done]. apply list_lookup_insert_eq. by eapply lookup_lt_Some.
Qed.

Lemma block_good h now c x q s :
  sched_good s → user_on h c x s → waitable q s →
  ∃ s', (do_block c q ;; do_scheduler h now) s = Ok (tt, s') ∧ sched_good s'.
Proof.
  intros Hg Hu Hq. pose proof Hu as (Hc & H2 & Hx & Hst). pose proof (running_free s c x (sg_inv _ Hg) Hx Hst) as Hcx.
  rewrite (bind_Ok _ _ _ _ _ (do_block_run c x q s Hx ltac:(congruence) Hcx)). by eapply park_good.
Qed.

Lemma sleep_good h now t c x s :
  sched_good s → user_on h c x s → ∃ s', do_sleep h now t s = Ok (tt, s') ∧ sched_good s'.
Proof.
  intros Hg Hu. pose proof Hu as (Hc & H2 & Hx & Hst). pose proof (running_free s c x (sg_inv _ Hg) Hx Hst) as Hcx.
  assert (c < length (pcb_all s))%nat as Hlt by (by eapply lookup_lt_Some).
  unfold do_sleep. rewrite (bind_Ok _ _ s c s) by (unfold current_running; by rewrite Hc).
  rewrite (bind_Ok _ _ _ _ _ (upd_pcb_run _ _ _ _ Hx)). set (y := set_wakeup _ x). set (s1 := set_pcbs _ s).
  assert (pcb_all s1 !! c = Some y) as Hy by (by apply list_lookup_insert_eq).
  rewrite (bind_Ok _ _ _ _ _ (do_block_run c y QSleep s1 Hy ltac:(cbn; congruence) Hcx)).
  cbv zeta. replace (set_pcbs (<[c := set_status TASK_BLOCKED y]> (pcb_all s1)) s1)
    with (set_pcbs (<[c := set_status TASK_BLOCKED y]> (pcb_all s)) s)
    by (unfold s1; cbn; by rewrite list_insert_insert_eq).
  apply (park_good h now c x); try done.
Qed.

(** ** Looking processes up *)
Lemma find_user_spec P `{∀ x : pcb_t, Decision (P x)} s i x :
  list_find P (drop (Z.to_nat NR_CPUS) (pcb_all s)) = Some (i, x) →
  pcb_all s !! (2 + i)%nat = Some x ∧ P x.
Proof. intros (Hi & HP & _)%list_find_Some. rewrite lookup_drop in Hi. done. Qed.

Lemma find_pcb_run out s id :
  sched_inv out s → ∃ r, find_pcb id s = Ok (r, s) ∧
    match r with
    | Some p => ∃ x, pcb_all s !! p = Some x ∧ pid x = id ∧ status x ≠ TASK_EXITED
    | None => True
    end.
Proof.
  intros Hi. unfold find_pcb. destruct (Z.ltb_spec id 0) as [H0|H0]; [by exists None|].
  destruct (Z.ltb_spec id NR_CPUS) as [Hk|Hk].
  - destruct (si_idle _ _ _ Hi (Z.to_nat id)) as (x & Hx & Hpid & _ & Hd); [unfold NR_CPUS in *; lia|].
    rewrite (bind_Ok _ _ _ _ _ (get_pcb_run _ _ _ Hx)). rewrite Z2Nat.id in Hpid by done.
    rewrite (bind_Ok _ _ s tt s) by (by rewrite Hpid, Z.eqb_refl). eexists. split; [done|]. cbn. exists x.
    split_and!; [done | done |]. pose proof (inv_fits _ _ _ x Hi Hx) as Hf. unfold pcb_fits in Hf. intros E.
    rewrite E in Hf. unfold NR_CPUS in *. lia.
  - unfold gets. cbn [bind]. destruct (list_find _ _) as [[i x]|] eqn:E; [|by exists None].
    apply find_user_spec in E as (Hx & Hpid & Hst). eexists. split; [done|]. cbn. exists x. done.
Qed.

Lemma wait_good h now id c x s :
  sched_good s → user_on h c x s → ∃ r s', do_waitpid h now id s = Ok (r, s') ∧ sched_good s'.
Proof.
  intros Hg Hu. pose proof Hu as (Hc & H2 & Hx & Hst). pose proof (running_free s c x (sg_inv _ Hg) Hx Hst) as Hcx.
  assert (c < length (pcb_all s))%nat as Hlt by (by eapply lookup_lt_Some).
  destruct (find_pcb_run None s id (sg_inv _ Hg)) as (r & R & Hr). unfold do_waitpid. rewrite (bind_Ok _ _ _ _ _ R).
  destruct r as [p|]; [|by exists 0, s]. destruct Hr as (z & Hz & _ & Hst').
  rewrite (bind_Ok _ _ s c s) by (unfold current_running; by rewrite Hc).
  rewrite (bind_Ok _ _ _ _ _ (queue_append_run s c x (QProc p) Hx Hcx)).
  assert (pcb_all (append_to (QProc p) c x s) !! c = Some (set_container (Some (QProc p)) x)) as Hx1 by (by apply list_lookup_insert_eq).
  rewrite (bind_Ok _ _ _ _ _ (upd_pcb_run _ _ _ (set_status TASK_BLOCKED) Hx1)).
  set (y := set_status TASK_BLOCKED x).
  destruct (park_good h now c x y (QProc p) s) as (s' & R' & Hg'); try done.
  { split; [done|]. intros r0 z0 [= <-] Hz0. congruence. }
  exists id, s'. split; [|done]. rewrite (bind_Ok _ _ _ tt s'); [done|]. rewrite <- R'. f_equal.
  unfold append_to, set_pcbs, set_queue. cbn. f_equal. by rewrite !list_insert_insert_eq.
Qed.

(** ** Dismantling a process *)
Lemma put_ex ex out s s' p x y :
  (ex = None ∨ ex = Some p) → sched_inv_except ex out s → pcb_all s !! p = Some x →
  pcb_all s' = <[p := y]> (pcb_all s) → harts s' = harts s → linked s' →
  (∀ r, r ≠ p → queue s (QProc r) = [] → queue s' (QProc r) = []) →
  (∀ h, harts s !! h = Some p → out = Some h) → (2 ≤ p)%nat → NR_CPUS ≤ pid y →
  sched_inv_except (Some p) out s'.
Proof.
  intros Hex Hi Hx Ep Eh Hl Hq Hout H2 Hpid.
  assert (p < length (pcb_all s))%nat as Hlt by (by eapply lookup_lt_Some).
  split; rewrite ?Eh, ?Ep; try apply Hi.
  - rewrite length_insert. apply Hi.
  - exact Hl.
  - intros h r Hh Ho. destruct (decide (r = p)) as [->|Hne]; [by destruct Ho; apply Hout|].
    rewrite list_lookup_insert_ne by done. by apply (si_run _ _ _ Hi h).
  - intros h r Hh. destruct (si_out _ _ _ Hi h r Hh) as [z Hz]. destruct (decide (r = p)) as [->|Hne].
    + by rewrite list_lookup_insert_eq.
    + by rewrite list_lookup_insert_ne, Hz.
  - intros r z Hexr Hz. apply list_lookup_insert_Some in Hz as [(<- & _)|[Hne Hz]]; [done|].
    assert (ex ≠ Some r) as Hex' by (destruct Hex as [-> | ->]; congruence).
    pose proof (si_fits _ _ _ Hi r z Hex' Hz) as Hf. unfold pcb_fits in *. rewrite Eh. destruct (status z); try done.
    destruct Hf as (? & ? & ?). split_and!; [done | by apply Hq | done].
  - intros h Hh. destruct (si_idle _ _ _ Hi h Hh) as (z & Hz & ?). exists z. rewrite list_lookup_insert_ne by lia. done.
  - intros r z Hr Hz Hst. apply list_lookup_insert_Some in Hz as [(<- & <- & _)|[Hne Hz]]; [done|].
    by apply (si_user _ _ _ Hi r z Hr Hz).
Qed.

Lemma same_length_drained g q l s s' : drained g q l s s' → length (pcb_all s') = length (pcb_all s).
Proof. intros D. apply length_lookup_eq. intros k. rewrite (dr_pcb _ _ _ _ _ D). apply fmap_is_Some. Qed.

(** Its node leaves its queue and its parent's list. *)
Lemma detach_run out p x s :
  sched_inv out s → ring_ok s → pcb_all s !! p = Some x → (2 ≤ p)%nat → status x ≠ TASK_EXITED →
  (∀ h, harts s !! h = Some p → out = Some h) →
  ∃ s' y, (list_node_destruct p ;; relation_destruct p) s = Ok (tt, s') ∧ sched_inv_except (Some p) out s' ∧ ring_ok s' ∧
    pcb_all s' !! p = Some y ∧ container y = None ∧ pid y = pid x ∧ harts s' = harts s ∧ process_id s' = process_id s ∧
    ∀ q, queue s' q = filter (fun r => r ≠ p) (queue s q).
Proof.
  intros Hi Hr Hx H2 Hst Hout. pose proof (si_user _ _ _ Hi p x H2 Hx Hst) as Hpid.
  assert (p < length (pcb_all s))%nat as Hlt by (by eapply lookup_lt_Some).
  assert (∃ s1, list_node_destruct p s = Ok (tt, s1) ∧ sched_inv_except (Some p) out s1 ∧ ring_ok s1 ∧
    pcb_all s1 !! p = Some (set_container None x) ∧ harts s1 = harts s ∧ process_id s1 = process_id s ∧
    ∀ q, queue s1 q = filter (fun r => r ≠ p) (queue s q))
    as (s1 & R1 & Hi1 & Hr1 & Hx1 & Eh1 & Ep1 & Eq1).
  { assert (∀ q, container x ≠ Some q → filter (fun r => r ≠ p) (queue s q) = queue s q) as Hid.
    { intros q Hne. apply filter_all. intros r Hrq ->. apply (ln_iff _ (si_linked _ _ _ Hi)) in Hrq as (z & Hz & Hcz). congruence. }
    unfold list_node_destruct. rewrite (bind_Ok _ _ _ _ _ (get_pcb_run _ _ _ Hx)).
    destruct (container x) as [q|] eqn:Hc.
    - rewrite (queue_delete_run s p x q Hx Hc). eexists. split; [done|]. split_and!; [| | | done | done |].
      + eapply (put_ex None out s _ p x (set_container None x)); try done; [by left | |].
        * by apply linked_delete; [apply Hi | |].
        * intros r Hr' Hq. cbn. destruct (decide (q = QProc r)) as [->|Hne].
          -- rewrite fn_lookup_insert, Hq. done.
          -- by rewrite fn_lookup_insert_ne.
      + apply (ring_ext s); [done | done | done |]. by eapply slice_insert.
      + by apply list_lookup_insert_eq.
      + intros q'. cbn. destruct (decide (q' = q)) as [->|Hne]; [by rewrite fn_lookup_insert|].
        rewrite fn_lookup_insert_ne by done. rewrite Hid; congruence.
    - exists s. split_and!; try done.
      + eapply (put_ex None out s _ p x x); try done; [by left | by rewrite list_insert_id | apply Hi].
      + rewrite Hx. f_equal. destruct x. cbn in Hc. by subst.
      + intros q. by rewrite Hid. }
  unfold relation_destruct. rewrite (bind_Ok _ _ _ _ _ R1). rewrite (bind_Ok _ _ _ _ _ (get_pcb_run _ _ _ Hx1)).
  destruct (relation (set_container None x)) as [par|].
  - unfold modify. cbn [bind]. set (s2 := set_children _ _ s1).
    rewrite (upd_pcb_run s2 p _ _ Hx1). exists (set_pcbs (<[p := set_parent (parent x) None (set_container None x)]> (pcb_all s2)) s2),
      (set_parent (parent x) None (set_container None x)). split; [done|]. split_and!; try done.
    + eapply (put_ex (Some p) out s1 _ p (set_container None x)); try done; [by right | |by rewrite Eh1].
      apply (linked_upd s2 p (set_container None x)); [|done|done]. destruct (si_linked _ _ _ Hi1). by split.
    + apply (ring_ext s1); [done | done | done |]. cbn. by eapply slice_insert.
    + apply list_lookup_insert_eq. by eapply lookup_lt_Some.
  - exists s1, (set_container None x). done.
Qed.

Lemma release_run out p x s :
  sched_inv out s → ring_ok s → pcb_all s !! p = Some x → (2 ≤ p)%nat → status x ≠ TASK_EXITED →
  (∀ h, harts s !! h = Some p → out = Some h) →
  ∃ s', release_proc p s = Ok (tt, s') ∧ sched_inv out s' ∧ ring_ok s' ∧
    harts s' = harts s ∧ process_id s' = process_id s ∧ (∃ y, pcb_all s' !! p = Some y ∧ status y = TASK_EXITED) ∧
    ∀ q, q ≠ QReady → q ≠ QProc p → queue s' q = filter (fun r => r ≠ p) (queue s q).
Proof.
  intros Hi Hr Hx H2 Hst Hout.
  destruct (detach_run out p x s Hi Hr Hx H2 Hst Hout) as (s1 & x1 & R1 & Hi1 & Hr1 & Hx1 & Hc1 & Epid & Eh1 & Ep1 & Eqd).
  destruct (unblock_list_run (QProc p) s1 (si_linked _ _ _ Hi1)) as (s2 & R2 & D2 & Eq2); [done|].
  assert (p ∉ queue s1 (QProc p)) as Hnot.
  { intros (z & Hz & Hcz)%(ln_iff _ (si_linked _ _ _ Hi1)). congruence. }
  assert (sched_inv_except (Some p) out s2) as Hi2.
  { apply (drained_inv (Some p) out (set_status TASK_READY) (QProc p) (queue s1 (QProc p)) s1); [by auto | done | | done | done].
    intros r Hr'. split; [done|]. congruence. }
  destruct (drained_ring (set_status TASK_READY) (QProc p) _ s1 s2 ltac:(done) Hr1 D2) as [Hr2 _].
  destruct (dr_rest _ _ _ _ _ D2) as (_ & Eh2 & _ & _ & Ep2).
  assert (pcb_all s2 !! p = Some x1) as Hx2.
  { rewrite (dr_pcb _ _ _ _ _ D2), Hx1. cbn. by rewrite decide_False. }
  assert (p < length (pcb_all s2))%nat as Hlt by (by eapply lookup_lt_Some).
  pose proof (si_user _ _ _ Hi p x H2 Hx Hst) as Hpid.
  eexists. split.
  { unfold release_proc, exit_wakeup. destruct (bind_Ok_inv _ _ _ _ R1) as ([] & s0 & Ra & Rb).
    rewrite (bind_Ok _ _ _ _ _ Ra), (bind_Ok _ _ _ _ _ Rb), (bind_Ok _ _ _ _ _ R2). unfold free_pcb.
    rewrite (bind_Ok _ _ _ _ _ (get_pcb_run _ _ _ Hx2)). rewrite (bind_Ok _ _ s2 tt s2).
    - exact (upd_pcb_run _ _ _ _ Hx2).
    - apply asserts_true. rewrite Z.geb_leb. apply Z.leb_le. by rewrite Epid. }
  split_and!; [| | cbn; congruence | cbn; congruence | |].
  - eapply (put_inv (Some p) out out s2 _ p x1 (set_status TASK_EXITED x1)); try done; [by right | | |].
    + by apply (linked_upd s2 p x1); [apply Hi2 | |].
    + intros h _ Ho Hh. destruct Ho. apply Hout. congruence.
    + lia.
  - apply (ring_ext s2); [done | done | done |]. by eapply slice_insert.
  - exists (set_status TASK_EXITED x1). split; [by apply list_lookup_insert_eq | done].
  - intros q Hq1 Hq2. cbn. by rewrite (dr_other _ _ _ _ _ D2), Eqd.
Qed.

Lemma exit_good h now c x s :
  sched_good s → harts s !! h = Some c → (2 ≤ c)%nat → pcb_all s !! c = Some x →
  ∃ s', (release_proc c ;; do_scheduler h now) s = Ok (tt, s') ∧ sched_good s'.
Proof.
  intros [Hi Hr Hp] Hc H2 Hx. pose proof (hart_range _ _ _ _ Hi Hc) as Hh.
  destruct (si_run _ _ _ Hi h c Hc) as (x' & Hx' & _ & Hst); [done|]. assert (x' = x) as -> by congruence.
  destruct (release_run (Some h) c x s (inv_out h s Hi) Hr Hx H2) as (s1 & R1 & Hi1 & Hr1 & Eh1 & Ep1 & (y & Hy & Hsy) & _).
  { destruct Hst; congruence. }
  { intros h' Hh'. f_equal. exact (NoDup_lookup _ _ _ _ (si_hdup _ _ _ Hi) Hc Hh'). }
  rewrite (bind_Ok _ _ _ _ _ R1). eapply scheduler_good; [done | done | done | by rewrite Ep1 | by rewrite Eh1 | done | congruence].
Qed.

Lemma reap_good p x s :
  sched_good s → pcb_all s !! p = Some x → (2 ≤ p)%nat → status x = TASK_READY ∨ status x = TASK_BLOCKED →
  ∃ s', release_proc p s = Ok (tt, s') ∧ sched_good s'.
Proof.
  intros [Hi Hr Hp] Hx H2 Hst. destruct (release_run None p x s Hi Hr Hx H2) as (s1 & R1 & Hi1 & Hr1 & Eh1 & Ep1 & _).
  { destruct Hst; congruence. }
  { intros h Hh. destruct (si_run _ _ _ Hi h p Hh) as (z & Hz & _ & Hsz); [done|]. assert (z = x) as -> by congruence.
    destruct Hst, Hsz; congruence. }
  exists s1. split; [done|]. split; [done | done | by rewrite Ep1].
Qed.

(** ** Waking *)
Lemma woken_good q l s s' :
  q ≠ QReady → (∀ p, p ∈ l → p ∈ queue s q) → sched_good s → drained (set_status TASK_READY) q l s s' → sched_good s'.
Proof.
  intros Hq Hl [Hi Hr Hp] D. destruct (drained_ring (set_status TASK_READY) q l s s' ltac:(done) Hr D) as [Hr' _].
  destruct (dr_rest _ _ _ _ _ D) as (_ & _ & _ & _ & Ep). split; [|done | by rewrite Ep].
  apply (drained_inv None None (set_status TASK_READY) q l s); [by auto | done | | done | done]. intros p Hpl. split; [by apply Hl | done].
Qed.

Lemma unblock_good q s :
  sched_good s → q ≠ QReady → ∃ s', unblock_list q s = Ok (tt, s') ∧ sched_good s'.
Proof.
  intros Hg Hq. destruct (unblock_list_run q s (si_linked _ _ _ (sg_inv _ Hg)) Hq) as (s' & R & D & _).
  exists s'. split; [done|]. by eapply woken_good.
Qed.

(** Taking the first waiter of [q] and making it ready. *)
Definition wake_one (q : qid) : SM (option nat) :=
  node <- list_shift q ;;
  match node with
  | Some p => do_unblock p ;; ret (Some p)
  | None => ret None
  end.

Lemma queue_shift_run q s p rest :
  linked s → queue s q = p :: rest →
  ∃ x, pcb_all s !! p = Some x ∧ container x = Some q ∧ list_shift q s = Ok (Some p, delete_from q p x s).
Proof.
  intros Hl Eq. destruct (proj1 (ln_iff _ Hl q p)) as (x & Hx & Hc); [rewrite Eq; set_solver|].
  exists x. split_and!; [done | done |]. unfold list_shift. rewrite (bind_Ok _ _ s (p :: rest) s) by (unfold gets; by rewrite Eq).
  unfold modify. cbn [bind]. rewrite (bind_Ok _ _ _ _ _ (upd_pcb_run (set_queue q rest s) p x (set_container None) Hx)).
  unfold ret, delete_from. assert (filter (fun r => r ≠ p) (queue s q) = rest) as ->; [|done].
  pose proof (ln_nodup _ Hl q) as Hnd. rewrite Eq in *. apply NoDup_cons in Hnd as [Hnot _].
  rewrite filter_cons_False by tauto. apply filter_all. by intros r Hr ->.
Qed.

Lemma wake_one_run q s :
  linked s → q ≠ QReady →
  match queue s q with
  | [] => wake_one q s = Ok (None, s)
  | p :: rest => ∃ s', wake_one q s = Ok (Some p, s') ∧ drained (set_status TASK_READY) q [p] s s'
  end.
Proof.
  intros Hl Hq. unfold wake_one. destruct (queue s q) as [|p rest] eqn:Eq.
  - unfold list_shift. rewrite (bind_Ok _ _ s None s); [done|]. unfold gets, bind. by rewrite Eq.
  - destruct (queue_shift_run q s p rest Hl Eq) as (x & Hx & Hc & R). rewrite (bind_Ok _ _ _ _ _ R).
    pose proof (move_drained (set_status TASK_READY) q p x s ltac:(done) ltac:(done) Hl Hq Hx Hc) as D.
    pose proof (move_run (set_status TASK_READY) q p x s ltac:(done) ltac:(done) Hx Hc) as Rm.
    exists (move (set_status TASK_READY) q p x s). split; [|done].
    rewrite (bind_Ok _ _ _ _ _ (queue_delete_run s p x q Hx Hc)) in Rm. unfold do_unblock. by rewrite (bind_Ok _ _ _ _ _ Rm).
Qed.

Lemma wake_one_good q s :
  sched_good s → q ≠ QReady → ∃ r s', wake_one q s = Ok (r, s') ∧ sched_good s'.
Proof.
  intros Hg Hq. pose proof (wake_one_run q s (si_linked _ _ _ (sg_inv _ Hg)) Hq) as Hw.
  destruct (queue s q) as [|p rest] eqn:Eq; [by exists None, s|]. destruct Hw as (s' & R & D). exists (Some p), s'.
  split; [done|]. eapply woken_good; [exact Hq | | done | done]. intros r. rewrite Eq. set_solver.
Qed.

(** ** Changes that scheduling does not look at *)
Lemma tweak_good p x y s s' :
  sched_good s → pcb_all s !! p = Some x → pcb_all s' = <[p := y]> (pcb_all s) → queue s' = queue s → harts s' = harts s →
  time_slice_history s' = time_slice_history s → time_slice_history_index s' = time_slice_history_index s →
  process_id s' = process_id s →
  pid y = pid x → container y = container x → ((p < 2)%nat → affinity y = affinity x) → slice_cnt y = slice_cnt x →
  (status y = status x ∨ ((2 ≤ p)%nat ∧ status x = TASK_RUNNING ∧ status y = TASK_KILLED)) → sched_good s'.
Proof.
  intros [Hi Hr Hp] Hx Ep Eq Eh Et Ei Epid E1 E2 E3 E4 E5.
  assert (linked s') as Hl.
  { destruct (linked_upd s p x y (si_linked _ _ _ Hi) Hx E2) as [A B]. split; rewrite ?Ep, Eq; done. }
  split; [|apply (ring_ext s); try done; rewrite Ep; by eapply slice_insert | by rewrite Epid].
  pose proof (inv_fits _ _ p x Hi Hx) as Hf.
  eapply (put_inv None None None s s' p x y); try done; [by left | by rewrite Eq | | | |].
  - intros h _ _ Hh. destruct (si_run _ _ _ Hi h p Hh) as (z & Hz & Hc & Hst); [done|]. assert (z = x) as -> by congruence.
    split; [congruence|]. destruct E5 as [-> |(_ & _ & ->)]; [done | by right].
  - unfold pcb_fits in *. rewrite Eh, E2, Eq. destruct E5 as [-> |(_ & Ex & ->)]; [done|]. by rewrite Ex in Hf.
  - intros Hlt. destruct (si_idle _ _ _ Hi p Hlt) as (z & Hz & _ & _ & Hd). assert (z = x) as -> by congruence.
    split_and!; [done | by apply E3 |]. destruct E5 as [E5|(? & _)]; [|lia]. rewrite E5, E2. done.
  - intros H2 Hst. rewrite E1. apply (si_user _ _ _ Hi p x H2 Hx). intros Hex. apply Hst.
    destruct E5 as [-> |(_ & ? & _)]; [done | congruence].
Qed.

(** ** Creating *)
Lemma ring_dom s s' :
  ring_ok s → time_slice_history s' = time_slice_history s → time_slice_history_index s' = time_slice_history_index s →
  length (pcb_all s') = length (pcb_all s) → ring_ok s'.
Proof.
  intros [H1 H2 H3] E1 E2 E3. split; rewrite ?E1, ?E2; [done | done |]. intros p Hp.
  apply lookup_lt_is_Some. rewrite E3. by apply lookup_lt_is_Some, H3.
Qed.

Definition fresh_pcb (id a : Z) : pcb_t := mk_pcb id TASK_READY 0 0 0 0 0 a 0 None None None.

Lemma linked_reset s q : linked s → queue s q = [] → linked (set_queue q [] s).
Proof.
  intros [Hi Hn] Eq. split.
  - intros q' p. cbn. destruct (decide (q' = q)) as [->|Hne].
    + rewrite fn_lookup_insert. rewrite <- Eq. apply Hi.
    + rewrite fn_lookup_insert_ne by done. apply Hi.
  - intros q'. cbn. destruct (decide (q' = q)) as [->|Hne]; [rewrite fn_lookup_insert; constructor | by rewrite fn_lookup_insert_ne].
Qed.

(** A fresh process with affinity [a] in the ready queue. *)
Definition spawned (p : nat) (a : Z) (s : sched) : sched :=
  let s1 := set_queue (QProc p) [] (set_process_id (i32 (process_id s + 1)) s) in
  append_to QReady p (fresh_pcb (process_id s) a)
    (set_children p [] (set_pcbs (<[p := fresh_pcb (process_id s) a]> (pcb_all s1)) s1)).

Lemma spawned_good p x a s :
  sched_good s → pcb_all s !! p = Some x → (2 ≤ p)%nat → status x = TASK_EXITED → process_id s < 2 ^ 31 - 1 →
  sched_good (spawned p a s).
Proof.
  intros [Hi Hr Hp] Hx H2 Hst Hlim. assert (p < length (pcb_all s))%nat as Hlt by (by eapply lookup_lt_Some).
  pose proof (inv_fits _ _ p x Hi Hx) as Hf. unfold pcb_fits in Hf. rewrite Hst in Hf. destruct Hf as (Hc & Eq & _).
  set (y := fresh_pcb (process_id s) a). set (s1 := set_queue (QProc p) [] (set_process_id (i32 (process_id s + 1)) s)).
  assert (linked s1) as Hl1.
  { apply linked_reset; [|done]. destruct (si_linked _ _ _ Hi). by split. }
  set (s2 := set_children p [] (set_pcbs (<[p := y]> (pcb_all s1)) s1)).
  assert (linked s2) as Hl2.
  { destruct (linked_upd s1 p x y Hl1 Hx) as [A B]; [by rewrite Hc|]. by split. }
  split.
  - eapply (put_inv None None None s _ p x (set_container (Some QReady) y)); try done; [by left | | | | |].
    + cbn. by rewrite list_insert_insert_eq.
    + apply linked_append; [done | by apply list_lookup_insert_eq | done].
    + intros r z Hr' Hz _. cbn. rewrite !fn_lookup_insert_ne; [done | congruence | done].
    + intros h _ _ Hh. destruct (si_run _ _ _ Hi h p Hh) as (z & Hz & _ & Hsz); [done|].
      assert (z = x) as -> by congruence. destruct Hsz; congruence.
    + lia.
  - apply (ring_dom s); [done | done | done |]. cbn. by rewrite !length_insert.
  - cbn. unfold NR_CPUS in *. rewrite i32_id; lia.
Qed.

Lemma attach_good par p x s :
  sched_good s → pcb_all s !! p = Some x → ∃ s', attach_subprocess par p s = Ok (tt, s') ∧ sched_good s' ∧
    pid <$> pcb_all s' !! p = Some (pid x) ∧ queue s' = queue s.
Proof.
  intros Hg Hx. assert (p < length (pcb_all s))%nat as Hlt by (by eapply lookup_lt_Some).
  unfold attach_subprocess. rewrite (bind_Ok _ _ _ _ _ (get_pcb_run _ _ _ Hx)).
  assert (∃ s1 x1, (match relation x with Some _ => ret tt | None =>
      modify (fun s => set_children par (child_list s par ++ [p]) s) ;; upd_pcb p (fun x => set_parent (parent x) (Some par) x) end) s
      = Ok (tt, s1) ∧ sched_good s1 ∧ pcb_all s1 !! p = Some x1 ∧ pid x1 = pid x ∧ queue s1 = queue s) as (s1 & x1 & R1 & Hg1 & Hx1 & E1 & Eq1).
  { destruct (relation x).
    - exists s, x. done.
    - unfold modify. cbn [bind]. rewrite (upd_pcb_run (set_children par (child_list s par ++ [p]) s) p x _ Hx).
      eexists _, (set_parent (parent x) (Some par) x). split; [done|]. split_and!; [|by apply list_lookup_insert_eq | done | done].
      eapply (tweak_good p x (set_parent (parent x) (Some par) x) s); try done. by left. }
  rewrite (bind_Ok _ _ _ _ _ R1), (upd_pcb_run s1 p x1 _ Hx1). eexists. split; [done|]. split_and!; [| |exact Eq1].
  - eapply (tweak_good p x1 (set_parent (Some par) (relation x1) x1) s1); try done. by left.
  - cbn. rewrite list_lookup_insert_eq by (by eapply lookup_lt_Some). cbn. by rewrite E1.
Qed.

Lemma exec_good h mask c s :
  sched_good s → harts s !! h = Some c → process_id s < 2 ^ 31 - 1 →
  ∃ r s', do_exec h mask s = Ok (r, s') ∧ sched_good s' ∧
    (r = 0 ∧ s' = s ∨ r = process_id s ∧ ∃ p y, pcb_all s' !! p = Some y ∧ pid y = r) ∧
    ∀ q, q ≠ QReady → (∀ r, q ≠ QProc r) → queue s' q = queue s q.
Proof.
  intros Hg Hc Hlim. unfold do_exec, construct_pcb, alloc_pcb.
  destruct (list_find (fun x => status x = TASK_EXITED) (drop (Z.to_nat NR_CPUS) (pcb_all s))) as [[i x]|] eqn:E; cycle 1.
  { exists 0, s. split; [|by split; [|split; [left|]]]. unfold gets, bind, ret. rewrite E. done. }
  apply find_user_spec in E as E2. destruct E2 as [Hx Hst]. set (p := (2 + i)%nat) in *.
  assert (p < length (pcb_all s))%nat as Hlt by (by eapply lookup_lt_Some).
  set (id := process_id s).
  set (s1 := set_queue (QProc p) [] (set_process_id (i32 (id + 1)) s)).
  set (s2 := set_children p [] (set_pcbs (<[p := fresh_pcb id 0]> (pcb_all s1)) s1)).
  assert (∃ a r, set_proc_affinity p mask s2 = Ok (r, set_children p [] (set_pcbs (<[p := fresh_pcb id a]> (pcb_all s1)) s1))) as (a & r & R).
  { unfold set_proc_affinity. destruct (Z.land _ _ =? 0); [by exists 0, 1|].
    assert (pcb_all s2 !! p = Some (fresh_pcb id 0)) as Hy by (by apply list_lookup_insert_eq).
    rewrite (bind_Ok _ _ _ _ _ (upd_pcb_run _ _ _ _ Hy)). eexists _, 0. unfold ret. do 2 f_equal.
    unfold s2, set_children, set_pcbs. cbn. by rewrite list_insert_insert_eq. }
  assert (sched_good (spawned p a s)) as Hg' by (apply (spawned_good p x); [done | done | unfold p; lia | done | done]).
  assert (pcb_all (spawned p a s) !! p = Some (set_container (Some QReady) (fresh_pcb id a))) as Hy.
  { cbn. rewrite list_insert_insert_eq. by apply list_lookup_insert_eq. }
  destruct (attach_good c p _ _ Hg' Hy) as (s' & R' & Hg'' & Epid & Eqa).
  apply fmap_Some in Epid as (y & Hy' & Ey).
  exists id, s'. split; [|split; [done|split; [right; split; [done|by exists p, y]|]]]; cycle 1.
  { intros q H1 H2. rewrite Eqa. cbn. by rewrite !fn_lookup_insert_ne by done. }
  rewrite (bind_Ok _ _ s (Some p) s2).
  2: { unfold gets, bind, ret. rewrite E. unfold list_init, modify, bind. fold id.
       by rewrite (upd_pcb_run s1 p x _ Hx). }
  rewrite (bind_Ok _ _ _ _ _ R).
  rewrite (bind_Ok _ _ _ tt (spawned p a s)).
  2: { apply queue_append_run; [by apply list_lookup_insert_eq | done]. }
  rewrite (bind_Ok _ _ (spawned p a s) c (spawned p a s)) by (unfold current_running; cbn; by rewrite Hc).
  rewrite (bind_Ok _ _ _ _ _ R'), (bind_Ok _ _ _ _ _ (get_pcb_run _ _ _ Hy')). unfold ret. by rewrite <- Ey.
Qed.

(** ** The transition system *)
Inductive sop :=
| OTick (h : nat) (now : Z)                 (* a timer interrupt on hart [h], or yield *)
| OSleep (h : nat) (now t : Z)
| OWait (h : nat) (now id : Z)
| OBlock (h : nat) (now : Z) (q : qid)      (* a lock, condition, ... blocks its caller *)
| OUnblock (q : qid)
| OWake (q : qid)
| OExec (h : nat) (mask : Z)
| OKill (p : nat)                           (* kill of a process that runs *)
| OExit (h : nat) (now : Z)
| OReap (p : nat)                           (* kill of a process that does not run *)
| ONice (n id : Z)
| OWorkload (h : nat) (w : Z)
| OAffinity (id mask : Z).

Definition sop_run (op : sop) : SM Z :=
  match op with
  | OTick h now => do_scheduler h now ;; ret 0
  | OSleep h now t => do_sleep h now t ;; ret 0
  | OWait h now id => do_waitpid h now id
  | OBlock h now q => c <- current_running h ;; do_block c q ;; do_scheduler h now ;; ret 0
  | OUnblock q => unblock_list q ;; ret 0
  | OWake q => wake_one q ;; ret 0
  | OExec h mask => do_exec h mask
  | OKill p => upd_pcb p (set_status TASK_KILLED) ;; ret 0
  | OExit h now => c <- current_running h ;; release_proc c ;; do_scheduler h now ;; ret 0
  | OReap p => release_proc p ;; ret 0
  | ONice n id => set_process_nice n id
  | OWorkload h w => set_process_workload h w ;; ret 0
  | OAffinity id mask => sys_set_affinity id mask
  end.

(** When an operation can happen. Kernel processes only idle: they do not
    sleep, wait, block, exec or exit. Left out are the two calls after which the
    table is not sound any more: [sys_set_affinity] of a kernel process
    ([idle_affinity_stuck]), and a second kill of a process that is marked
    killed and has not left its hart yet (LockDemo.v). *)
Definition sop_enabled (op : sop) (s : sched) : Prop :=
  match op with
  | OTick h _ => ∃ c x, harts s !! h = Some c ∧ pcb_all s !! c = Some x ∧ status x = TASK_RUNNING
  | OSleep h _ _ | OWait h _ _ => ∃ c x, user_on h c x s
  | OBlock h _ q => (∃ c x, user_on h c x s) ∧ waitable q s
  | OUnblock q | OWake q => q ≠ QReady
  | OExec h _ => is_Some (harts s !! h) ∧ process_id s < 2 ^ 31 - 1
  | OKill p => (2 ≤ p)%nat ∧ ∃ x, pcb_all s !! p = Some x ∧ status x = TASK_RUNNING
  | OExit h _ => ∃ c, harts s !! h = Some c ∧ (2 ≤ c)%nat
  | OReap p => (2 ≤ p)%nat ∧ ∃ x, pcb_all s !! p = Some x ∧ (status x = TASK_READY ∨ status x = TASK_BLOCKED)
  | ONice _ _ => True
  | OWorkload h _ => is_Some (harts s !! h)
  | OAffinity id _ => NR_CPUS ≤ id
  end.

Inductive reachable : sched → Prop :=
| reach_boot s : boot init_pcb = Ok (tt, s) → reachable s
| reach_step s op r s' : reachable s → sop_enabled op s → sop_run op s = Ok (r, s') → reachable s'.

Lemma finish_op {A} (m : SM A) s (a : A) s' : m s = Ok (a, s') → (m ;; ret 0) s = Ok (0, s').
Proof. intros R. by rewrite (bind_Ok _ _ _ _ _ R). Qed.

Lemma affinity_good id mask s :
  sched_good s → NR_CPUS ≤ id → ∃ r s', sys_set_affinity id mask s = Ok (r, s') ∧ sched_good s' ∧ queue s' = queue s.
Proof.
  intros Hg He. pose proof (sg_inv _ Hg) as Hi. unfold sys_set_affinity.
  destruct (find_pcb_run None s id Hi) as (r & R & Hr). rewrite (bind_Ok _ _ _ _ _ R).
  destruct r as [p|]; [|by exists 0, s]. destruct Hr as (x & Hx & Epid & _). unfold set_proc_affinity.
  destruct (Z.land (u32 mask) _ =? 0); [by exists 0, s|]. eexists 1, _.
  split; [by rewrite (bind_Ok _ _ _ 0 _ (finish_op _ _ _ _ (upd_pcb_run _ _ _ _ Hx)))|]. split; [|done].
  eapply (tweak_good p x (set_affinity _ x) s); try done; [|by left].
  intros Hlt. destruct (si_idle _ _ _ Hi p Hlt) as (z & Hz & Ep & _). assert (z = x) as -> by congruence.
  unfold NR_CPUS in He. lia.
Qed.

Lemma step_good s op :
  sched_good s → sop_enabled op s → ∃ r s', sop_run op s = Ok (r, s') ∧ sched_good s'.
Proof.
  intros Hg He. pose proof (sg_inv _ Hg) as Hi. destruct op as [h now|h now t|h now id|h now q|q|q|h mask|p|h now|p|n id|h w|id mask]; cbn [sop_run sop_enabled] in *.
  - destruct He as (c & x & Hc & Hx & Hst).
    destruct (scheduler_good h now s c x) as (s' & R & Hg'); [by eapply hart_range | by apply inv_out | apply Hg | apply Hg | done | done | congruence|].
    exists 0, s'. eauto using finish_op.
  - destruct He as (c & x & Hu). destruct (sleep_good h now t c x s Hg Hu) as (s' & R & Hg'). exists 0, s'. eauto using finish_op.
  - destruct He as (c & x & Hu). by apply (wait_good h now id c x s).
  - destruct He as ((c & x & Hu) & Hq). destruct (block_good h now c x q s Hg Hu Hq) as (s' & R & Hg'). exists 0, s'. split; [|done].
    rewrite (bind_Ok _ _ s c s) by (unfold current_running; by rewrite (proj1 Hu)).
    destruct (bind_Ok_inv _ _ _ _ R) as ([] & s1 & R1 & R2). by rewrite (bind_Ok _ _ _ _ _ R1), (bind_Ok _ _ _ _ _ R2).
  - destruct (unblock_good q s Hg He) as (s' & R & Hg'). exists 0, s'. eauto using finish_op.
  - destruct (wake_one_good q s Hg He) as (r & s' & R & Hg'). exists 0, s'. eauto using finish_op.
  - destruct He as [[c Hc] Hlim]. destruct (exec_good h mask c s Hg Hc Hlim) as (r & s' & R & Hg' & _). eauto.
  - destruct He as (H2 & x & Hx & Hst). exists 0, (set_pcbs (<[p := set_status TASK_KILLED x]> (pcb_all s)) s).
    split; [by rewrite (bind_Ok _ _ _ _ _ (upd_pcb_run _ _ _ _ Hx))|].
    eapply (tweak_good p x (set_status TASK_KILLED x) s); try done. by right.
  - destruct He as (c & Hc & H2). destruct (si_out _ _ _ Hi h c Hc) as [x Hx].
    destruct (exit_good h now c x s Hg Hc H2 Hx) as (s' & R & Hg'). exists 0, s'. split; [|done].
    rewrite (bind_Ok _ _ s c s) by (unfold current_running; by rewrite Hc).
    destruct (bind_Ok_inv _ _ _ _ R) as ([] & s1 & R1 & R2). by rewrite (bind_Ok _ _ _ _ _ R1), (bind_Ok _ _ _ _ _ R2).
  - destruct He as (H2 & x & Hx & Hst). destruct (reap_good p x s Hg Hx H2 Hst) as (s' & R & Hg'). exists 0, s'. eauto using finish_op.
  - unfold set_process_nice. destruct (n <? 0); [by exists (-1), s|].
    destruct (find_pcb_run None s id Hi) as (r & R & Hr). rewrite (bind_Ok _ _ _ _ _ R). destruct r as [p|]; [|by exists (-1), s].
    destruct Hr as (x & Hx & _). rewrite (bind_Ok _ _ _ _ _ (upd_pcb_run _ _ _ _ Hx)). eexists 0, _. split; [done|].
    eapply (tweak_good p x (set_nice n x) s); try done. by left.
  - destruct He as [c Hc]. destruct (si_out _ _ _ Hi h c Hc) as [x Hx]. unfold set_process_workload.
    eexists 0, _. split.
    + eapply finish_op. rewrite (bind_Ok _ _ s c s) by (unfold current_running; by rewrite Hc).
      rewrite (bind_Ok _ _ _ _ _ (get_pcb_run _ _ _ Hx)). by apply upd_pcb_run.
    + eapply (tweak_good c x); try done. by left.
  - destruct (affinity_good id mask s Hg He) as (r & s' & R & Hg' & _). by exists r, s'.
Qed.

(** The state main.c leaves behind. *)
Definition booted : sched := match boot init_pcb with Ok (_, s) => s | _ => init_pcb end.

Lemma booted_good : sched_good booted.
Proof.
  assert (∀ p x, pcb_all booted !! p = Some x →
    (p = 0%nat ∧ x = set_cpu 0 (set_status TASK_RUNNING (kernel_pcb 0))) ∨
    (p = 1%nat ∧ x = set_cpu 1 (set_status TASK_RUNNING (kernel_pcb 1))) ∨ ((2 ≤ p)%nat ∧ x = exited_pcb)) as Hall.
  { intros [|[|p]] x Hx; [left; by injection Hx as <- | right; left; by injection Hx as <- | right; right].
    change (pcb_all booted) with (set_cpu 0 (set_status TASK_RUNNING (kernel_pcb 0)) ::
      set_cpu 1 (set_status TASK_RUNNING (kernel_pcb 1)) :: replicate 32 exited_pcb) in Hx.
    cbn [lookup list_lookup] in Hx. apply lookup_replicate in Hx as [-> _]. split; [lia | done]. }
  split; [|split|].
  - split; try done.
    + split.
      * intros q p. split; [by intros ?%not_elem_of_nil|]. intros (x & Hx & Hc).
        destruct (Hall p x Hx) as [[_ ->]|[[_ ->]|[_ ->]]]; done.
      * intros q. constructor.
    + change (harts booted) with [0%nat; 1%nat]. repeat constructor; set_solver.
    + intros [|[|h]] p Hh _; [| | done]; injection Hh as <-; eexists; (split; [done|]); split; try done; by left.
    + intros [|[|h]] p Hh; [| | done]; injection Hh as <-; done.
    + intros p x _ Hx. destruct (Hall p x Hx) as [[-> ->]|[[-> ->]|[H2 ->]]]; unfold pcb_fits; cbn [status set_cpu set_status exited_pcb].
      * split; [done|]. apply (list_elem_of_lookup_2 _ 0). done.
      * split; [done|]. apply (list_elem_of_lookup_2 _ 1). done.
      * done.
    + intros [|[|h]] Hh; [| | lia]; eexists; (split; [done|]); (split; [done|]); (split; [done|]); by left.
    + intros p x H2 Hx Hst. destruct (Hall p x Hx) as [[-> _]|[[-> _]|[_ ->]]]; [lia | lia | done].
  - done.
  - done.
  - intros p Hp. apply list_elem_of_lookup_1 in Hp as [i Hp]. change (time_slice_history booted) with (replicate 200 (@None nat)) in Hp.
    by apply lookup_replicate in Hp as [? _].
  - done.
Qed.

Lemma reachable_good s : reachable s → sched_good s.
Proof.
  induction 1 as [s R|s op r s' _ IH He R].
  - assert (s = booted) as -> by (unfold booted; by rewrite R). apply booted_good.
  - destruct (step_good s op IH He) as (r' & s'' & R' & Hg). congruence.
Qed.

(** C9 After boot, take any sequence of: timer interrupts, sleeping, waiting
    for a process, blocking on and waking a queue, starting processes (fewer than
    2^31 of them), setting nice, workload and the affinity of a user process,
    killing a running process once, exits, and kills of processes that do not run.
    Left out are [sys_set_affinity] of a kernel process and a second kill of a
    process that was killed while it ran, which do break the table. Then
    process status, queues and harts fit: a process is in at most one queue and
    there once, running processes are in none, ready ones are in the ready
    queue, blocked ones are in some queue, free slots are in none and have no
    waiters, no process runs on two harts, and every hart has its idle process
    at hand. *)
Theorem scheduler_invariant s : reachable s → sched_inv None s.
Proof. intros Hr. apply (sg_inv s), reachable_good, Hr. Qed.

(** C17 The scheduler does not get stuck in the states of the same sequences of
    operations, those without [sys_set_affinity] of a kernel process and
    without a second kill of a process killed while it ran: there every such
    operation returns again, so [do_scheduler] finds a process to run and no
    assertion of the process table fails. With the affinity of a kernel process
    changed it does get stuck, [idle_affinity_stuck]. *)
Theorem scheduler_progress s op :
  reachable s → sop_enabled op s → ∃ r s', sop_run op s = Ok (r, s') ∧ reachable s'.
Proof.
  intros Hr He. destruct (step_good s op (reachable_good s Hr) He) as (r & s' & R & _).
  exists r, s'. split; [done|]. by eapply reach_step.
Qed.

(** C18 Who runs next: the process [do_scheduler] puts on hart [h] comes
    from the ready queue (with the sleepers that are due and the preempted
    process at its end), is allowed on the hart, and no ready user process
    allowed there has a smaller (task id, consumption) pair; a kernel process
    runs only when no such user process is ready. The rest of the queue keeps
    its order. *)
Theorem scheduler_choice h now s c x :
  reachable s → harts s !! h = Some c → pcb_all s !! c = Some x → status x = TASK_RUNNING →
  ∃ p s', do_scheduler h now s = Ok (tt, s') ∧ harts s' = <[h := p]> (harts s) ∧
    preferred h s (ready_at now c x s) p ∧ queue s' QReady = filter (fun r => r ≠ p) (ready_at now c x s).
Proof.
  intros Hr Hc Hx Hst. pose proof (reachable_good s Hr) as [Hi Hring _].
  destruct (do_scheduler_run h now s c x (hart_range _ _ _ _ Hi Hc) (inv_out h s Hi) Hring Hc Hx) as (p & s' & R & _ & _ & _ & Eh & Hp & Eq & _);
    [congruence|]. by exists p, s'.
Qed.

(** Accounting: when [slice_cnt] of every process is the number of its
    slices in the ring of the last 200, it still is after [do_scheduler], and
    so it lies between 0 and 200. *)
Theorem scheduler_accounts h now s c x :
  reachable s → accounted s → harts s !! h = Some c → pcb_all s !! c = Some x → status x = TASK_RUNNING →
  ∃ s', do_scheduler h now s = Ok (tt, s') ∧ accounted s' ∧
    ∀ p y, pcb_all s' !! p = Some y → 0 ≤ slice_cnt y ≤ TIME_SLICE_HISTORY_SIZE.
Proof.
  intros Hr Ha Hc Hx Hst. pose proof (reachable_good s Hr) as [Hi Hring _].
  destruct (do_scheduler_run h now s c x (hart_range _ _ _ _ Hi Hc) (inv_out h s Hi) Hring Hc Hx) as (p & s' & R & _ & Hr' & Ha' & _);
    [congruence|]. exists s'. split_and!; [done | by apply Ha' |]. intros q y Hy. rewrite (Ha' Ha q y Hy).
  pose proof (slices_range (time_slice_history s') q) as Hs. rewrite (ac_len _ Hr') in Hs. exact Hs.
Qed.

(** Waking a queue wakes all of it, in order: after [unblock_list] the
    queue is empty, its processes stand at the end of the ready queue in the
    order they waited and are ready, and every other process and queue is as
    before. *)
Theorem unblock_list_wakes_all q s :
  reachable s → q ≠ QReady →
  ∃ s', unblock_list q s = Ok (tt, s') ∧ queue s' q = [] ∧ queue s' QReady = queue s QReady ++ queue s q ∧
    (∀ q', q' ≠ q → q' ≠ QReady → queue s' q' = queue s q') ∧
    (∀ p x, pcb_all s !! p = Some x → pcb_all s' !! p =
       Some (if decide (p ∈ queue s q) then set_container (Some QReady) (set_status TASK_READY x) else x)).
Proof.
  intros Hr Hq. destruct (unblock_list_run q s (si_linked _ _ _ (sg_inv _ (reachable_good s Hr))) Hq) as (s' & R & D & Eq).
  exists s'. split_and!; [done | done | apply D | |].
  - intros q' H1 H2. by apply (dr_other _ _ _ _ _ D).
  - intros p x Hx. by rewrite (dr_pcb _ _ _ _ _ D), Hx.
Qed.

(** ** A concrete run

    Hart 0 starts two processes, runs the first, which blocks on mutex 0. *)
Definition after (op : sop) (s : sched) : sched := match sop_run op s with Ok (_, s') => s' | _ => s end.
Definition sched1 : sched := after (OExec 0 1) booted.
Definition sched2 : sched := after (OExec 0 3) sched1.
Definition sched3 : sched := after (OTick 0 5) sched2.
Definition sched4 : sched := after (OBlock 0 7 (QMutex 0)) sched3.

Definition runs (op : sop) (s : sched) : bool := match sop_run op s with Ok _ => true | _ => false end.

Lemma reach_after op s : reachable s → sop_enabled op s → runs op s = true → reachable (after op s).
Proof.
  unfold runs, after. intros Hr He R. destruct (sop_run op s) as [[r s']| |] eqn:E; [|done..]. by eapply reach_step.
Qed.

Lemma sched3_reachable : reachable sched3.
Proof.
  apply reach_after; [|eexists 0%nat, _; split_and!; vm_compute; reflexivity | vm_compute; reflexivity].
  apply reach_after; [|split; vm_compute; [eexists |]; reflexivity | vm_compute; reflexivity].
  apply reach_after; [by apply reach_boot | split; vm_compute; [eexists |]; reflexivity | vm_compute; reflexivity].
Qed.

Definition running2 : pcb_t := mk_pcb 2 TASK_RUNNING 0 0 0 1 0 1 0 (Some 0%nat) None (Some 0%nat).

Lemma sched3_user : user_on 0 2 running2 sched3.
Proof. split_and!; [vm_compute; reflexivity | lia | vm_compute; reflexivity | reflexivity]. Qed.

Lemma sched4_reachable : reachable sched4.
Proof.
  apply reach_after; [exact sched3_reachable | | vm_compute; reflexivity].
  split; [exists 2%nat, running2; exact sched3_user | split; [discriminate | by intros ? ? ?]].
Qed.

(** One process only, on hart 0. *)
Definition sched5 : sched := after (OTick 0 5) sched1.

Lemma sched5_reachable : reachable sched5.
Proof.
  apply reach_after; [|eexists 0%nat, _; split_and!; vm_compute; reflexivity | vm_compute; reflexivity].
  apply reach_after; [by apply reach_boot | split; vm_compute; [eexists |]; reflexivity | vm_compute; reflexivity].
Qed.

(** When the idle process of hart 0 may run on hart 1 only, as [sys_set_affinity]
    (taskset -p 2 0 in the shell) allows, a process that sleeps on hart 0 leaves it with nothing to run. *)
Definition idle_moved : sched := match sys_set_affinity 0 2 sched5 with Ok (_, s) => s | _ => sched5 end.

Lemma idle_affinity_stuck : reachable sched5 ∧ sys_set_affinity 0 2 sched5 = Ok (1, idle_moved) ∧
  do_sleep 0 9 1 idle_moved = Panic "no process to run".
Proof. split_and!; [exact sched5_reachable | vm_compute; reflexivity..]. Qed.

Lemma scheduler_invariant_witness : reachable sched4 ∧ sched_inv None sched4 ∧ queue sched4 (QMutex 0) = [2%nat].
Proof. split_and!; [exact sched4_reachable | exact (scheduler_invariant sched4 sched4_reachable) | vm_compute; reflexivity]. Defined.

Lemma scheduler_progress_witness : ∃ r s', sop_run (OWake (QMutex 0)) sched4 = Ok (r, s') ∧ reachable s'.
Proof. apply (scheduler_progress sched4 (OWake (QMutex 0)) sched4_reachable). discriminate. Defined.

Lemma scheduler_choice_witness : ∃ p s', do_scheduler 0 9 sched3 = Ok (tt, s') ∧ harts s' = <[0%nat := p]> (harts sched3) ∧
  preferred 0 sched3 (ready_at 9 2 running2 sched3) p.
Proof.
  destruct sched3_user as (Hc & _ & Hx & Hst).
  destruct (scheduler_choice 0 9 sched3 2 running2 sched3_reachable Hc Hx Hst) as (p & s' & R & E & Hp & _).
  exists p, s'. split; [exact R | split; [exact E | exact Hp]].
Defined.

Lemma sched3_accounted : accounted sched3.
Proof.
  assert (Forall (fun px => slice_cnt (snd px) = slices (time_slice_history sched3) (fst px)) (imap pair (pcb_all sched3))) as H.
  { vm_compute. repeat constructor. }
  intros p x Hx. rewrite Forall_forall in H. apply (H (p, x)). apply (list_elem_of_lookup_2 _ p).
  by rewrite list_lookup_imap, Hx.
Qed.

Lemma scheduler_accounts_witness : ∃ s', do_scheduler 0 9 sched3 = Ok (tt, s') ∧ accounted s'.
Proof.
  destruct sched3_user as (Hc & _ & Hx & Hst).
  destruct (scheduler_accounts 0 9 sched3 2 running2 sched3_reachable sched3_accounted Hc Hx Hst) as (s' & R & Ha & _).
  exists s'. split; [exact R | exact Ha].
Defined.

Lemma unblock_list_wakes_all_witness : ∃ s', unblock_list (QMutex 0) sched4 = Ok (tt, s') ∧ queue s' (QMutex 0) = [].
Proof.
  destruct (unblock_list_wakes_all (QMutex 0) sched4 sched4_reachable) as (s' & R & E & _); [discriminate|].
  exists s'. split; [exact R | exact E].
Defined.
