(* ===== verification/Locks.v ===== *)
(** * kernel/locking: spin locks, mutexes, barriers, conditions, semaphores, mailboxes

    Kernel code runs under the kernel lock, so a call runs alone up to its call
    of [do_scheduler]. A call that may wait is a function for each stretch
    between two such points; what it returns says whether the caller was parked
    and where it goes on when it runs again. [h] is the hart and [now] the time
    of the call. *)

From S2P Require Import Prelude CString Sched.

Definition LOCK_NUM : Z := 16.
Definition BARRIER_NUM : Z := 16.
Definition CONDITION_NUM : Z := 16.
Definition SEMAPHORE_NUM : Z := 16.
Definition MBOX_NUM : Z := 8.
Definition MAX_MBOX_NAME : Z := 32.
Definition MAX_MBOX_LENGTH : Z := 256.

(** The objects, by name: elements of the global arrays and the members of a mailbox. *)
Inductive mref := MLock (i : nat) | MBuf (i : nat).
Inductive cref := CCond (i : nat) | CEmpty (i : nat) | CFull (i : nat).
Inductive spin_ref :=
| SpMutex (m : mref) | SpBarrier (i : nat) | SpCond (c : cref) | SpSema (i : nat) | SpMbox (i : nat).
#[global] Instance mref_eq_dec : EqDecision mref.
Proof. solve_decision. Defined.
#[global] Instance cref_eq_dec : EqDecision cref.
Proof. solve_decision. Defined.
#[global] Instance spin_ref_eq_dec : EqDecision spin_ref.
Proof. solve_decision. Defined.

Inductive lock_status_t := UNLOCKED | LOCKED.
#[global] Instance lock_status_eq_dec : EqDecision lock_status_t.
Proof. solve_decision. Defined.

Record mutex_lock_t := mk_mutex { acquired : Z; m_pid : Z; m_key : Z }.
Record barrier_t := mk_barrier { b_key : Z; goal : Z; current : Z }.
Record semaphore_t := mk_sema { s_key : Z; count : Z }.
Record mailbox_t := mk_mbox {
  mb_name : list Z; buffer : list Z; nref : Z; used : Z; head : Z; tail : Z }.

Record os := mk_os {
  sch : sched;
  spins : spin_ref → lock_status_t;
  lists : qid → bool;                 (* the list head was initialised *)
  mutexes : mref → mutex_lock_t;
  cond_keys : cref → Z;
  mlock_ref : nat → Z;                (* pid_bitmap_t *)
  barriers : nat → barrier_t;
  barrier_ref : nat → Z;
  cond_ref : nat → Z;
  semaphores : nat → semaphore_t;
  sema_ref : nat → Z;
  mailboxes : nat → mailbox_t;
  mbox_ref : nat → Z;
}.
Definition set_sch (v : sched) (s : os) : os :=
  mk_os v (spins s) (lists s) (mutexes s) (cond_keys s) (mlock_ref s) (barriers s) (barrier_ref s)
    (cond_ref s) (semaphores s) (sema_ref s) (mailboxes s) (mbox_ref s).
Definition set_spin (r : spin_ref) (v : lock_status_t) (s : os) : os :=
  mk_os (sch s) (<[r := v]> (spins s)) (lists s) (mutexes s) (cond_keys s) (mlock_ref s) (barriers s)
    (barrier_ref s) (cond_ref s) (semaphores s) (sema_ref s) (mailboxes s) (mbox_ref s).
Definition set_list (q : qid) (v : bool) (s : os) : os :=
  mk_os (sch s) (spins s) (<[q := v]> (lists s)) (mutexes s) (cond_keys s) (mlock_ref s) (barriers s)
    (barrier_ref s) (cond_ref s) (semaphores s) (sema_ref s) (mailboxes s) (mbox_ref s).
Definition set_mutex (r : mref) (v : mutex_lock_t) (s : os) : os :=
  mk_os (sch s) (spins s) (lists s) (<[r := v]> (mutexes s)) (cond_keys s) (mlock_ref s) (barriers s)
    (barrier_ref s) (cond_ref s) (semaphores s) (sema_ref s) (mailboxes s) (mbox_ref s).
Definition set_cond_key (c : cref) (v : Z) (s : os) : os :=
  mk_os (sch s) (spins s) (lists s) (mutexes s) (<[c := v]> (cond_keys s)) (mlock_ref s) (barriers s)
    (barrier_ref s) (cond_ref s) (semaphores s) (sema_ref s) (mailboxes s) (mbox_ref s).
Definition set_mlock_ref (i : nat) (v : Z) (s : os) : os :=
  mk_os (sch s) (spins s) (lists s) (mutexes s) (cond_keys s) (<[i := v]> (mlock_ref s)) (barriers s)
    (barrier_ref s) (cond_ref s) (semaphores s) (sema_ref s) (mailboxes s) (mbox_ref s).
Definition set_barrier (i : nat) (v : barrier_t) (s : os) : os :=
  mk_os (sch s) (spins s) (lists s) (mutexes s) (cond_keys s) (mlock_ref s) (<[i := v]> (barriers s))
    (barrier_ref s) (cond_ref s) (semaphores s) (sema_ref s) (mailboxes s) (mbox_ref s).
Definition set_barrier_ref (i : nat) (v : Z) (s : os) : os :=
  mk_os (sch s) (spins s) (lists s) (mutexes s) (cond_keys s) (mlock_ref s) (barriers s)
    (<[i := v]> (barrier_ref s)) (cond_ref s) (semaphores s) (sema_ref s) (mailboxes s) (mbox_ref s).
Definition set_cond_ref (i : nat) (v : Z) (s : os) : os :=
  mk_os (sch s) (spins s) (lists s) (mutexes s) (cond_keys s) (mlock_ref s) (barriers s)
    (barrier_ref s) (<[i := v]> (cond_ref s)) (semaphores s) (sema_ref s) (mailboxes s) (mbox_ref s).
Definition set_sema (i : nat) (v : semaphore_t) (s : os) : os :=
  mk_os (sch s) (spins s) (lists s) (mutexes s) (cond_keys s) (mlock_ref s) (barriers s)
    (barrier_ref s) (cond_ref s) (<[i := v]> (semaphores s)) (sema_ref s) (mailboxes s) (mbox_ref s).
Definition set_sema_ref (i : nat) (v : Z) (s : os) : os :=
  mk_os (sch s) (spins s) (lists s) (mutexes s) (cond_keys s) (mlock_ref s) (barriers s)
    (barrier_ref s) (cond_ref s) (semaphores s) (<[i := v]> (sema_ref s)) (mailboxes s) (mbox_ref s).
Definition set_mbox (i : nat) (v : mailbox_t) (s : os) : os :=
  mk_os (sch s) (spins s) (lists s) (mutexes s) (cond_keys s) (mlock_ref s) (barriers s)
    (barrier_ref s) (cond_ref s) (semaphores s) (sema_ref s) (<[i := v]> (mailboxes s)) (mbox_ref s).
Definition set_mbox_ref (i : nat) (v : Z) (s : os) : os :=
  mk_os (sch s) (spins s) (lists s) (mutexes s) (cond_keys s) (mlock_ref s) (barriers s)
    (barrier_ref s) (cond_ref s) (semaphores s) (sema_ref s) (mailboxes s) (<[i := v]> (mbox_ref s)).

Abbreviation OM := (M os).

Definition lift {A} (m : SM A) : OM A := fun s =>
  match m (sch s) with
  | Ok (a, v) => Ok (a, set_sch v s)
  | Panic why => Panic why
  | OutOfFuel => OutOfFuel
  end.

(** Lists of waiters: using a head that was never initialised follows a null pointer. *)
Definition listed (q : qid) : OM unit :=
  b <- gets (fun s => lists s q) ;; asserts b "fault: list not initialised".
Definition init_list (q : qid) : OM unit := lift (list_init q) ;; modify (set_list q true).
Definition park (p : nat) (q : qid) : OM unit := listed q ;; lift (do_block p q).
Definition wake_all (q : qid) : OM unit := listed q ;; lift (unblock_list q).

(** The current process of the calling hart. *)
Definition self (h : nat) : OM nat := lift (current_running h).
Definition self_pid (h : nat) : OM Z := p <- self h ;; x <- lift (get_pcb p) ;; ret (pid x).

(** ** lock.cpp *)
Definition spin_lock_init (r : spin_ref) : OM unit := modify (set_spin r UNLOCKED).
Definition spin_lock_try_acquire (r : spin_ref) : OM Z :=
  st <- gets (fun s => spins s r) ;;
  match st with
  | UNLOCKED => modify (set_spin r LOCKED) ;; ret 1
  | LOCKED => ret 0
  end.
(** The holder needs the kernel lock to go on, which the caller has: a lock
    that is taken is waited for forever. *)
Definition spin_lock_acquire (r : spin_ref) : OM unit :=
  ok <- spin_lock_try_acquire r ;; asserts (ok =? 1) "spin_lock_acquire: waits forever".
Definition spin_lock_release (r : spin_ref) : OM unit := modify (set_spin r UNLOCKED).

(** guard.hpp *)
Definition with_spin {A} (r : spin_ref) (body : OM A) : OM A :=
  spin_lock_acquire r ;; a <- body ;; spin_lock_release r ;; ret a.

(** ** Bitmaps of processes *)
Definition bit (p : nat) : Z := Z.shiftl 1 (Z.of_nat p).
Definition has_bit (m : Z) (p : nat) : bool := negb (Z.land m (bit p) =? 0).
Definition clear_bit (m : Z) (p : nat) : Z := Z.land m (Z.lxor (2 ^ 64 - 1) (bit p)).

(** [for (i = 0; i < n; i++)] over the elements of an array. *)
Fixpoint for_each (idx : list nat) (body : nat → OM unit) : OM unit :=
  match idx with
  | [] => ret tt
  | i :: rest => body i ;; for_each rest body
  end.
(** [for (i = 0; id == -1 && i < n; i++)]: up to the first [i] that sets [id]. *)
Fixpoint find_each (idx : list nat) (body : nat → OM bool) : OM Z :=
  match idx with
  | [] => ret (-1)
  | i :: rest => b <- body i ;; if (b : bool) then ret (Z.of_nat i) else find_each rest body
  end.
Definition upto (n : Z) : list nat := seq 0 (Z.to_nat n).
Definition or_else (id : Z) (m : OM Z) : OM Z := if id =? -1 then m else ret id.
Definition in_range (i n : Z) : bool := negb ((i <? 0) || (i >=? n)).

(** ** mutex.cpp *)
Definition mutex_queue (r : mref) : qid :=
  match r with MLock i => QMutex i | MBuf i => QMboxLock i end.
Definition get_mutex (r : mref) : OM mutex_lock_t := gets (fun s => mutexes s r).

Definition mutex_init (r : mref) : OM unit :=
  spin_lock_init (SpMutex r) ;;
  modify (set_mutex r (mk_mutex 0 (-1) (-1))) ;;
  init_list (mutex_queue r).

Definition mutex_release (r : mref) : OM unit :=
  m <- get_mutex r ;;
  modify (set_mutex r (mk_mutex 0 (m_pid m) (m_key m))) ;;
  wake_all (mutex_queue r).

Definition mutex_destruct (r : mref) : OM unit :=
  m <- get_mutex r ;;
  modify (set_mutex r (mk_mutex 0 (m_pid m) (m_key m))) ;;
  wake_all (mutex_queue r) ;;
  match r with
  | MLock i => modify (set_mlock_ref i 0)
  | MBuf _ => ret tt
  end.

Definition cleanup_mutexes (id : Z) : OM unit :=
  for_each (upto LOCK_NUM) (fun i => with_spin (SpMutex (MLock i)) (
    r <- gets (fun s => mlock_ref s i) ;;
    m <- get_mutex (MLock i) ;;
    if negb (r =? 0) && negb (acquired m =? 0) && (m_pid m =? id) then mutex_release (MLock i) else ret tt)) ;;
  for_each (upto LOCK_NUM) (fun i => with_spin (SpMutex (MLock i)) (
    p <- lift (get_pcb_index id) ;;
    r <- gets (fun s => mlock_ref s i) ;;
    if has_bit r p then
      modify (set_mlock_ref i (clear_bit r p)) ;;
      if clear_bit r p =? 0 then mutex_destruct (MLock i) else ret tt
    else ret tt)).

Definition do_mutex_lock_init (h : nat) (key : Z) : OM Z :=
  me <- self_pid h ;;
  p <- lift (get_pcb_index me) ;;
  id <- find_each (upto LOCK_NUM) (fun i => with_spin (SpMutex (MLock i)) (
    r <- gets (fun s => mlock_ref s i) ;;
    m <- get_mutex (MLock i) ;;
    ret (negb (r =? 0) && (m_key m =? key)))) ;;
  id <- or_else id (find_each (upto LOCK_NUM) (fun i => with_spin (SpMutex (MLock i)) (
    r <- gets (fun s => mlock_ref s i) ;;
    if r =? 0 then
      mutex_init (MLock i) ;;
      m <- get_mutex (MLock i) ;;
      modify (set_mutex (MLock i) (mk_mutex (acquired m) (m_pid m) key)) ;;
      ret true
    else ret false))) ;;
  asserts (id >=? 0) "assertion failed" ;;
  modify (fun s => set_mlock_ref (Z.to_nat id) (Z.lor (mlock_ref s (Z.to_nat id)) (bit p)) s) ;;
  ret id.

(** One turn of the loop of [mutex_acquire]: [true] when the caller has the
    lock; [false] when it is parked: it takes another turn when it runs again. *)
Definition mutex_acquire (h : nat) (now : Z) (r : mref) : OM bool :=
  got <- with_spin (SpMutex r) (
    m <- get_mutex r ;;
    cur <- self h ;;
    if acquired m =? 0 then
      me <- self_pid h ;;
      modify (set_mutex r (mk_mutex 1 me (m_key m))) ;;
      ret true
    else
      park cur (mutex_queue r) ;;
      ret false) ;;
  if (got : bool) then ret true else lift (do_scheduler h now) ;; ret false.

(** [None]: the index is out of range. *)
Definition do_mutex_lock_acquire (h : nat) (now mlock_idx : Z) : OM (option bool) :=
  if negb (in_range mlock_idx LOCK_NUM) then ret None else
  b <- mutex_acquire h now (MLock (Z.to_nat mlock_idx)) ;; ret (Some b).

Definition do_mutex_lock_release (h : nat) (mlock_idx : Z) : OM unit :=
  if negb (in_range mlock_idx LOCK_NUM) then ret tt else
  let r := MLock (Z.to_nat mlock_idx) in
  with_spin (SpMutex r) (
    ref <- gets (fun s => mlock_ref s (Z.to_nat mlock_idx)) ;;
    m <- get_mutex r ;;
    me <- self_pid h ;;
    if ref =? 0 then ret tt
    else if negb (m_pid m =? me) then ret tt
    else mutex_release r).

(** ** barrier.cpp *)
Definition get_barrier (i : nat) : OM barrier_t := gets (fun s => barriers s i).

Definition barrier_init (i : nat) : OM unit :=
  b <- get_barrier i ;;
  modify (set_barrier i (mk_barrier (b_key b) 0 0)) ;;
  spin_lock_init (SpBarrier i) ;;
  init_list (QBarrier i).
Definition barrier_destruct (i : nat) : OM unit := wake_all (QBarrier i).

Definition cleanup_barriers (id : Z) : OM unit :=
  for_each (upto BARRIER_NUM) (fun i => with_spin (SpBarrier i) (
    p <- lift (get_pcb_index id) ;;
    r <- gets (fun s => barrier_ref s i) ;;
    if has_bit r p then
      modify (set_barrier_ref i (clear_bit r p)) ;;
      if clear_bit r p =? 0 then barrier_destruct i else ret tt
    else ret tt)).

Definition do_barrier_init (h : nat) (key g : Z) : OM Z :=
  me <- self_pid h ;;
  p <- lift (get_pcb_index me) ;;
  id <- find_each (upto BARRIER_NUM) (fun i => with_spin (SpBarrier i) (
    r <- gets (fun s => barrier_ref s i) ;;
    b <- get_barrier i ;;
    ret (negb (r =? 0) && (b_key b =? key)))) ;;
  id <- or_else id (find_each (upto BARRIER_NUM) (fun i => with_spin (SpBarrier i) (
    r <- gets (fun s => barrier_ref s i) ;;
    if r =? 0 then
      barrier_init i ;;
      b <- get_barrier i ;;
      modify (set_barrier i (mk_barrier (b_key b) g (current b))) ;;
      ret true
    else ret false))) ;;
  asserts (id >=? 0) "assertion failed" ;;
  modify (fun s => set_barrier_ref (Z.to_nat id) (Z.lor (barrier_ref s (Z.to_nat id)) (bit p)) s) ;;
  ret id.

(** [true]: the caller is parked; it goes on with [relock]. *)
Definition do_barrier_wait (h : nat) (now bar_idx : Z) : OM bool :=
  if negb (in_range bar_idx BARRIER_NUM) then ret false else
  let i := Z.to_nat bar_idx in
  spin_lock_acquire (SpBarrier i) ;;
  r <- gets (fun s => barrier_ref s i) ;;
  if r =? 0 then spin_lock_release (SpBarrier i) ;; ret false else
  b <- get_barrier i ;;
  asserts (current b <? goal b) "barrier broken" ;;
  let c := i32 (current b + 1) in
  modify (set_barrier i (mk_barrier (b_key b) (goal b) c)) ;;
  if c <? goal b then
    spin_lock_release (SpBarrier i) ;;
    cur <- self h ;;
    park cur (QBarrier i) ;;
    lift (do_scheduler h now) ;;
    ret true
  else
    modify (set_barrier i (mk_barrier (b_key b) (goal b) 0)) ;;
    wake_all (QBarrier i) ;;
    spin_lock_release (SpBarrier i) ;;
    ret false.

(** The end of a call that waited inside [without_spin]: the destructors. *)
Definition relock (r : spin_ref) : OM unit := spin_lock_acquire r ;; spin_lock_release r.

Definition do_barrier_destroy (bar_idx : Z) : OM unit :=
  if negb (in_range bar_idx BARRIER_NUM) then ret tt else
  let i := Z.to_nat bar_idx in
  with_spin (SpBarrier i) (
    r <- gets (fun s => barrier_ref s i) ;;
    if r =? 0 then ret tt else
    modify (set_barrier_ref i 0) ;;
    barrier_destruct i).

(** ** condition.cpp *)
Definition cond_queue (c : cref) : qid :=
  match c with CCond i => QCond i | CEmpty i => QMboxEmpty i | CFull i => QMboxFull i end.

Definition condition_init (c : cref) : OM unit := spin_lock_init (SpCond c) ;; init_list (cond_queue c).
Definition condition_destruct (c : cref) : OM unit := wake_all (cond_queue c).

Definition cleanup_conditions (id : Z) : OM unit :=
  for_each (upto CONDITION_NUM) (fun i => with_spin (SpCond (CCond i)) (
    p <- lift (get_pcb_index id) ;;
    r <- gets (fun s => cond_ref s i) ;;
    if has_bit r p then
      modify (set_cond_ref i (clear_bit r p)) ;;
      if clear_bit r p =? 0 then condition_destruct (CCond i) else ret tt
    else ret tt)).

Definition do_condition_init (h : nat) (key : Z) : OM Z :=
  id <- find_each (upto CONDITION_NUM) (fun i => with_spin (SpCond (CCond i)) (
    r <- gets (fun s => cond_ref s i) ;;
    k <- gets (fun s => cond_keys s (CCond i)) ;;
    ret (negb (r =? 0) && (k =? key)))) ;;
  id <- or_else id (find_each (upto CONDITION_NUM) (fun i => with_spin (SpCond (CCond i)) (
    r <- gets (fun s => cond_ref s i) ;;
    if r =? 0 then
      condition_init (CCond i) ;;
      modify (set_cond_key (CCond i) key) ;;
      ret true
    else ret false))) ;;
  asserts (id >=? 0) "assertion failed" ;;
  me <- self_pid h ;;
  p <- lift (get_pcb_index me) ;;
  modify (fun s => set_cond_ref (Z.to_nat id) (Z.lor (cond_ref s (Z.to_nat id)) (bit p)) s) ;;
  ret id.

(** The caller is parked; it goes on with [mutex_acquire] of the mutex. *)
Definition condition_wait (h : nat) (now : Z) (c : cref) (m : mref) : OM unit :=
  with_spin (SpCond c) (cur <- self h ;; park cur (cond_queue c)) ;;
  mutex_release m ;;
  lift (do_scheduler h now).

Definition condition_broadcast (c : cref) : OM unit := with_spin (SpCond c) (wake_all (cond_queue c)).

Definition condition_signal (c : cref) : OM unit :=
  with_spin (SpCond c) (
    listed (cond_queue c) ;;
    node <- lift (list_shift (cond_queue c)) ;;
    match node with
    | Some p => lift (do_unblock p)
    | None => ret tt
    end).

(** [true]: parked. *)
Definition do_condition_wait (h : nat) (now cond_idx mutex_idx : Z) : OM bool :=
  if negb (in_range cond_idx CONDITION_NUM) then ret false else
  if negb (in_range mutex_idx LOCK_NUM) then ret false else
  r <- gets (fun s => cond_ref s (Z.to_nat cond_idx)) ;;
  if r =? 0 then ret false else
  condition_wait h now (CCond (Z.to_nat cond_idx)) (MLock (Z.to_nat mutex_idx)) ;;
  ret true.
Definition do_condition_broadcast (cond_idx : Z) : OM unit :=
  if negb (in_range cond_idx CONDITION_NUM) then ret tt else
  r <- gets (fun s => cond_ref s (Z.to_nat cond_idx)) ;;
  if r =? 0 then ret tt else condition_broadcast (CCond (Z.to_nat cond_idx)).
Definition do_condition_signal (cond_idx : Z) : OM unit :=
  if negb (in_range cond_idx CONDITION_NUM) then ret tt else
  r <- gets (fun s => cond_ref s (Z.to_nat cond_idx)) ;;
  if r =? 0 then ret tt else condition_signal (CCond (Z.to_nat cond_idx)).
Definition do_condition_destroy (cond_idx : Z) : OM unit :=
  if negb (in_range cond_idx CONDITION_NUM) then ret tt else
  let i := Z.to_nat cond_idx in
  with_spin (SpCond (CCond i)) (
    r <- gets (fun s => cond_ref s i) ;;
    if r =? 0 then ret tt else
    modify (set_cond_ref i 0) ;;
    condition_destruct (CCond i)).

(** ** semaphore.cpp *)
Definition get_sema (i : nat) : OM semaphore_t := gets (fun s => semaphores s i).
Definition semaphore_init (i : nat) : OM unit :=
  modify (set_sema i (mk_sema (-1) 0)) ;;
  spin_lock_init (SpSema i) ;;
  init_list (QSema i).
Definition semaphore_destruct (i : nat) : OM unit :=
  modify (set_sema i (mk_sema (-1) 0)) ;;
  wake_all (QSema i).

Definition cleanup_semaphores (id : Z) : OM unit :=
  for_each (upto SEMAPHORE_NUM) (fun i => with_spin (SpSema i) (
    p <- lift (get_pcb_index id) ;;
    r <- gets (fun s => sema_ref s i) ;;
    if has_bit r p then
      modify (set_sema_ref i (clear_bit r p)) ;;
      if clear_bit r p =? 0 then semaphore_destruct i else ret tt
    else ret tt)).

Definition do_semaphore_init (h : nat) (key init : Z) : OM Z :=
  id <- find_each (upto SEMAPHORE_NUM) (fun i => with_spin (SpSema i) (
    r <- gets (fun s => sema_ref s i) ;;
    m <- get_sema i ;;
    ret (negb (r =? 0) && (s_key m =? key)))) ;;
  id <- or_else id (find_each (upto SEMAPHORE_NUM) (fun i => with_spin (SpSema i) (
    r <- gets (fun s => sema_ref s i) ;;
    if r =? 0 then
      modify (set_sema_ref i 1) ;;
      semaphore_init i ;;
      modify (set_sema i (mk_sema key init)) ;;
      ret true
    else ret false))) ;;
  asserts (id >=? 0) "assertion failed" ;;
  me <- self_pid h ;;
  p <- lift (get_pcb_index me) ;;
  modify (fun s => set_sema_ref (Z.to_nat id) (Z.lor (sema_ref s (Z.to_nat id)) (bit p)) s) ;;
  ret id.

(** [true]: the caller is parked; it goes on with [relock]. *)
Definition do_semaphore_down (h : nat) (now sema_idx : Z) : OM bool :=
  if negb (in_range sema_idx SEMAPHORE_NUM) then ret false else
  let i := Z.to_nat sema_idx in
  spin_lock_acquire (SpSema i) ;;
  r <- gets (fun s => sema_ref s i) ;;
  if r =? 0 then spin_lock_release (SpSema i) ;; ret false else
  m <- get_sema i ;;
  let c := i32 (count m - 1) in
  modify (set_sema i (mk_sema (s_key m) c)) ;;
  if c <? 0 then
    cur <- self h ;;
    park cur (QSema i) ;;
    spin_lock_release (SpSema i) ;;
    lift (do_scheduler h now) ;;
    ret true
  else spin_lock_release (SpSema i) ;; ret false.

Definition do_semaphore_up (sema_idx : Z) : OM unit :=
  if negb (in_range sema_idx SEMAPHORE_NUM) then ret tt else
  let i := Z.to_nat sema_idx in
  with_spin (SpSema i) (
    r <- gets (fun s => sema_ref s i) ;;
    if r =? 0 then ret tt else
    m <- get_sema i ;;
    let c := i32 (count m + 1) in
    modify (set_sema i (mk_sema (s_key m) c)) ;;
    if c <=? 0 then
      listed (QSema i) ;;
      node <- lift (list_shift (QSema i)) ;;
      match node with
      | Some p => lift (do_unblock p)
      | None => panic "semaphore wait list is empty while count < 0"
      end
    else ret tt).

(** An index out of range is logged and then used. *)
Definition do_semaphore_destroy (sema_idx : Z) : OM unit :=
  asserts (in_range sema_idx SEMAPHORE_NUM) "fault: semaphores[] out of range" ;;
  let i := Z.to_nat sema_idx in
  with_spin (SpSema i) (
    r <- gets (fun s => sema_ref s i) ;;
    if r =? 0 then ret tt else
    modify (set_sema_ref i 0) ;;
    semaphore_destruct i).

(** ** mailbox.cpp *)
Definition get_mbox (i : nat) : OM mailbox_t := gets (fun s => mailboxes s i).
Definition zeros (n : Z) : list Z := replicate (Z.to_nat n) 0.

Definition mailbox_init (i : nat) : OM unit :=
  modify (set_mbox i (mk_mbox (zeros MAX_MBOX_NAME) (zeros MAX_MBOX_LENGTH) 0 0 0 0)) ;;
  mutex_init (MBuf i) ;;
  condition_init (CEmpty i) ;;
  condition_init (CFull i).

(** The closing [memset] also zeroes the locks and the list heads. *)
Definition mailbox_destruct (i : nat) : OM unit :=
  condition_destruct (CFull i) ;;
  condition_destruct (CEmpty i) ;;
  mutex_destruct (MBuf i) ;;
  modify (set_mbox i (mk_mbox (zeros MAX_MBOX_NAME) (zeros MAX_MBOX_LENGTH) 0 0 0 0)) ;;
  modify (set_mutex (MBuf i) (mk_mutex 0 0 0)) ;;
  modify (fun s => set_spin (SpMutex (MBuf i)) UNLOCKED (set_spin (SpCond (CEmpty i)) UNLOCKED
    (set_spin (SpCond (CFull i)) UNLOCKED s))) ;;
  modify (fun s => set_list (QMboxLock i) false (set_list (QMboxEmpty i) false (set_list (QMboxFull i) false s))).

Definition init_mbox : OM unit :=
  for_each (upto MBOX_NUM) (fun i =>
    modify (set_mbox_ref i 0) ;;
    spin_lock_init (SpMbox i) ;;
    mailbox_init i).

Definition cleanup_mailboxes (id : Z) : OM unit :=
  for_each (upto MBOX_NUM) (fun i => with_spin (SpMbox i) (
    p <- lift (get_pcb_index id) ;;
    r <- gets (fun s => mbox_ref s i) ;;
    if has_bit r p then
      modify (set_mbox_ref i (clear_bit r p)) ;;
      if clear_bit r p =? 0 then mailbox_destruct i else ret tt
    else ret tt)).

Definition with_nref (v : Z) (m : mailbox_t) : mailbox_t :=
  mk_mbox (mb_name m) (buffer m) v (used m) (head m) (tail m).

(** [name] and [buffer] are adjacent: [strcpy] of a long name runs on into the
    buffer (past both it would hit the counters, which is not modelled), and
    [strcmp] reads the same bytes. *)
Definition name_bytes (m : mailbox_t) : list Z := mb_name m ++ buffer m.
Definition copy_name (name : list Z) (m : mailbox_t) : mailbox_t :=
  let bytes := name ++ [0] ++ drop (S (length name)) (name_bytes m) in
  mk_mbox (take (Z.to_nat MAX_MBOX_NAME) bytes) (drop (Z.to_nat MAX_MBOX_NAME) bytes)
    (nref m) (used m) (head m) (tail m).

Definition do_mbox_open (h : nat) (name : list Z) : OM Z :=
  id <- find_each (upto MBOX_NUM) (fun i => with_spin (SpMbox i) (
    r <- gets (fun s => mbox_ref s i) ;;
    m <- get_mbox i ;;
    if negb (r =? 0) && bool_decide (upto_nul (name_bytes m) = name) then
      modify (set_mbox i (with_nref (i32 (nref m + 1)) m)) ;; ret true
    else ret false)) ;;
  id <- or_else id (find_each (upto MBOX_NUM) (fun i => with_spin (SpMbox i) (
    r <- gets (fun s => mbox_ref s i) ;;
    if r =? 0 then
      mailbox_init i ;;
      m <- get_mbox i ;;
      asserts (Z.of_nat (length name) <? MAX_MBOX_NAME + MAX_MBOX_LENGTH) "fault: strcpy past the mailbox" ;;
      modify (set_mbox i (with_nref (i32 (nref m + 1)) (copy_name name m))) ;;
      ret true
    else ret false))) ;;
  asserts (id >=? 0) "assertion failed" ;;
  me <- self_pid h ;;
  p <- lift (get_pcb_index me) ;;
  modify (fun s => set_mbox_ref (Z.to_nat id) (Z.lor (mbox_ref s (Z.to_nat id)) (bit p)) s) ;;
  ret id.

Definition do_mbox_close (mbox_idx : Z) : OM unit :=
  if negb (in_range mbox_idx MBOX_NUM) then ret tt else
  let i := Z.to_nat mbox_idx in
  with_spin (SpMbox i) (
    r <- gets (fun s => mbox_ref s i) ;;
    if r =? 0 then ret tt else
    m <- get_mbox i ;;
    let n := i32 (nref m - 1) in
    modify (set_mbox i (with_nref n m)) ;;
    if n >? 0 then ret tt else
    modify (set_mbox_ref i 0) ;;
    mailbox_destruct i).

(** A byte into and out of the ring. *)
Definition push_byte (b : Z) (m : mailbox_t) : mailbox_t :=
  mk_mbox (mb_name m) (<[Z.to_nat (tail m) := b]> (buffer m)) (nref m) (i32 (used m + 1)) (head m)
    (Z.rem (tail m + 1) MAX_MBOX_LENGTH).
Definition pop_byte (m : mailbox_t) : Z * mailbox_t :=
  (default 0 (buffer m !! Z.to_nat (head m)),
   mk_mbox (mb_name m) (buffer m) (nref m) (i32 (used m - 1)) (Z.rem (head m + 1) MAX_MBOX_LENGTH) (tail m)).

(** Where a mailbox call stands when it is parked: about to take the buffer
    lock, or inside [condition_wait]. *)
Inductive mbox_point := AtGuard | AtWait.
Inductive mbox_result :=
| MDone (blocked : Z)
| MParked (pt : mbox_point) (blocked : Z).

(** [rest] are the bytes still to send; the second component is what is left. *)
Fixpoint send_loop (h : nat) (now : Z) (i : nat) (rest : list Z) (blocked : Z) : OM (mbox_result * list Z) :=
  match rest with
  | [] => ret (MDone blocked, [])
  | b :: rest' =>
      got <- mutex_acquire h now (MBuf i) ;;
      if negb (got : bool) then ret (MParked AtGuard blocked, rest) else
      m <- get_mbox i ;;
      if used m <? MAX_MBOX_LENGTH then
        modify (set_mbox i (push_byte b m)) ;;
        condition_signal (CEmpty i) ;;
        mutex_release (MBuf i) ;;
        send_loop h now i rest' blocked
      else
        condition_wait h now (CFull i) (MBuf i) ;;
        ret (MParked AtWait 1, rest)
  end.

(** [n] bytes still to receive; the second component is what arrived. *)
Fixpoint recv_loop (h : nat) (now : Z) (i : nat) (n : nat) (got_bytes : list Z) (blocked : Z) : OM (mbox_result * list Z) :=
  match n with
  | O => ret (MDone blocked, got_bytes)
  | S n' =>
      got <- mutex_acquire h now (MBuf i) ;;
      if negb (got : bool) then ret (MParked AtGuard blocked, got_bytes) else
      m <- get_mbox i ;;
      if used m >? 0 then
        let '(b, m') := pop_byte m in
        modify (set_mbox i m') ;;
        condition_signal (CFull i) ;;
        mutex_release (MBuf i) ;;
        recv_loop h now i n' (got_bytes ++ [b]) blocked
      else
        condition_wait h now (CEmpty i) (MBuf i) ;;
        ret (MParked AtWait 1, got_bytes)
  end.

(** Going on after [do_scheduler] returned: from [condition_wait] the caller
    takes the mutex again and the guard drops it. *)
Definition mbox_resume {A} (h : nat) (now : Z) (i : nat) (pt : mbox_point) (parked : OM A) (loop : OM A) : OM A :=
  match pt with
  | AtGuard => loop
  | AtWait =>
      got <- mutex_acquire h now (MBuf i) ;;
      if negb (got : bool) then parked else mutex_release (MBuf i) ;; loop
  end.
Definition send_resume (h : nat) (now : Z) (i : nat) (pt : mbox_point) (rest : list Z) (blocked : Z) :=
  mbox_resume h now i pt (ret (MParked AtWait blocked, rest)) (send_loop h now i rest blocked).
Definition recv_resume (h : nat) (now : Z) (i : nat) (pt : mbox_point) (n : nat) (got_bytes : list Z) (blocked : Z) :=
  mbox_resume h now i pt (ret (MParked AtWait blocked, got_bytes)) (recv_loop h now i n got_bytes blocked).

(** [msg] is the message in user memory. *)
Definition do_mbox_send (h : nat) (now mbox_idx : Z) (msg : list Z) : OM (mbox_result * list Z) :=
  if negb (in_range mbox_idx MBOX_NUM) then ret (MDone 0, msg) else
  r <- gets (fun s => mbox_ref s (Z.to_nat mbox_idx)) ;;
  if r =? 0 then ret (MDone 0, msg) else
  send_loop h now (Z.to_nat mbox_idx) msg 0.
Definition do_mbox_recv (h : nat) (now mbox_idx msg_length : Z) : OM (mbox_result * list Z) :=
  if negb (in_range mbox_idx MBOX_NUM) then ret (MDone 0, []) else
  r <- gets (fun s => mbox_ref s (Z.to_nat mbox_idx)) ;;
  if r =? 0 then ret (MDone 0, []) else
  recv_loop h now (Z.to_nat mbox_idx) (Z.to_nat msg_length) [] 0.

(** ** Boot: no object is referenced, the mailboxes are initialised *)
Definition no_refs (v : sched) : os :=
  mk_os v (fun _ => UNLOCKED) (fun _ => false) (fun _ => mk_mutex 0 0 0) (fun _ => 0) (fun _ => 0)
    (fun _ => mk_barrier 0 0 0) (fun _ => 0) (fun _ => 0) (fun _ => mk_sema 0 0) (fun _ => 0)
    (fun _ => mk_mbox (zeros MAX_MBOX_NAME) (zeros MAX_MBOX_LENGTH) 0 0 0 0) (fun _ => 0).
