(* ===== verification/Proc.v ===== *)
(** * The end of a process: cleanup_proc, do_kill and do_exit of kernel/sched/sched.cpp

    [cleanup_pipe], [cleanup_fd] and [cleanup_vm] work on pipes, open files and
    page tables, which are not part of this state. *)

From S2P Require Import Prelude Sched Locks.

Definition cleanup_locks (id : Z) : OM unit :=
  cleanup_mutexes id ;; cleanup_barriers id ;; cleanup_conditions id ;; cleanup_semaphores id ;; cleanup_mailboxes id.

Definition cleanup_proc (p : nat) : OM unit :=
  x <- lift (get_pcb p) ;;
  cleanup_locks (pid x) ;;
  lift (release_proc p).

(** The walk up from [p]: is [id] among the pids? *)
Fixpoint ancestor (fuel : nat) (id : Z) (p : option nat) : OM bool :=
  match p with
  | None => ret false
  | Some p =>
      match fuel with
      | O => no_fuel
      | S n =>
          x <- lift (get_pcb p) ;;
          if pid x =? id then ret true else ancestor n id (parent x)
      end
  end.

(** One more step than there are processes. *)
Definition family_fuel : nat := S (Z.to_nat NUM_MAX_PCB).

Fixpoint do_kill_rec (fuel : nat) (h : nat) (id : Z) : OM Z :=
  match fuel with
  | O => no_fuel
  | S n =>
      if id <? NR_CPUS then ret 0 else
      cur <- self h ;;
      anc <- ancestor family_fuel id (Some cur) ;;
      if (anc : bool) then ret 0 else
      p <- lift (find_pcb id) ;;
      match p with
      | None => ret 0
      | Some p =>
          x <- lift (get_pcb p) ;;
          if decide (status x = TASK_RUNNING) then
            lift (upd_pcb p (set_status TASK_KILLED)) ;; ret 1
          else
            children <- gets (fun s => child_list (sch s) p) ;;
            for_each children (fun c => y <- lift (get_pcb c) ;; do_kill_rec n h (pid y) ;; ret tt) ;;
            cleanup_proc p ;;
            ret 1
      end
  end.
Definition do_kill (h : nat) (id : Z) : OM Z := do_kill_rec family_fuel h id.

Definition kill_subprocess (h : nat) (p : nat) : OM unit :=
  children <- gets (fun s => child_list (sch s) p) ;;
  for_each children (fun c => y <- lift (get_pcb c) ;; do_kill h (pid y) ;; ret tt).

Definition do_exit (h : nat) (now : Z) : OM unit :=
  cur <- self h ;;
  x <- lift (get_pcb cur) ;;
  asserts (pid x >=? NR_CPUS) "kernel process cannot exit" ;;
  kill_subprocess h cur ;;
  cleanup_proc cur ;;
  lift (do_scheduler h now).
