(* ===== verification/LockProofs.v ===== *)
(** * Locks: objects, their views, and the effect of waiting and waking

    A lock object is seen through its [view]: its fields, its reference bits
    and the processes waiting on it. Every operation is shown to change the view
    of its own object only; [view_ok] is the invariant of each kind. *)

From S2P Require Import Prelude CString Sched SchedProofs SchedTheorems Locks.

Definition wq (s : os) (q : qid) : list nat := queue (sch s) q.

Inductive obj := OMutex (i : nat) | OBarrier (i : nat) | OCond (i : nat) | OSema (i : nat) | OMbox (i : nat).
#[global] Instance obj_eq_dec : EqDecision obj.
Proof. solve_decision. Defined.

Inductive oview :=
| VMutex (m : mutex_lock_t) (r : Z) (w : list nat) (l : bool)
| VBarrier (b : barrier_t) (r : Z) (w : list nat) (l : bool)
| VCond (k r : Z) (w : list nat) (l : bool)
| VSema (m : semaphore_t) (r : Z) (w : list nat) (l : bool)
| VMbox (m : mailbox_t) (r : Z) (x : mutex_lock_t) (wl we wf : list nat) (ll le lf : bool).

Definition view (s : os) (o : obj) : oview :=
  match o with
  | OMutex i => VMutex (mutexes s (MLock i)) (mlock_ref s i) (wq s (QMutex i)) (lists s (QMutex i))
  | OBarrier i => VBarrier (barriers s i) (barrier_ref s i) (wq s (QBarrier i)) (lists s (QBarrier i))
  | OCond i => VCond (cond_keys s (CCond i)) (cond_ref s i) (wq s (QCond i)) (lists s (QCond i))
  | OSema i => VSema (semaphores s i) (sema_ref s i) (wq s (QSema i)) (lists s (QSema i))
  | OMbox i => VMbox (mailboxes s i) (mbox_ref s i) (mutexes s (MBuf i)) (wq s (QMboxLock i)) (wq s (QMboxEmpty i))
      (wq s (QMboxFull i)) (lists s (QMboxLock i)) (lists s (QMboxEmpty i)) (lists s (QMboxFull i))
  end.

(** The ring buffer of a mailbox and the bytes in it. *)
Record mbox_ring (m : mailbox_t) : Prop := {
  rg_len : length (buffer m) = Z.to_nat MAX_MBOX_LENGTH;
  rg_head : 0 ≤ head m < MAX_MBOX_LENGTH;
  rg_used : 0 ≤ used m ≤ MAX_MBOX_LENGTH;
  rg_tail : tail m = (head m + used m) mod MAX_MBOX_LENGTH;
}.
Definition ring_at (m : mailbox_t) (k : nat) : Z :=
  buffer m !!! Z.to_nat ((head m + Z.of_nat k) mod MAX_MBOX_LENGTH).
Definition ring_bytes (m : mailbox_t) : list Z := ring_at m <$> seq 0 (Z.to_nat (used m)).

Definition view_ok (v : oview) : Prop :=
  match v with
  | VMutex m r w l => (r = 0 → w = []) ∧ (r ≠ 0 → l = true) ∧ (acquired m = 0 → w = [])
  | VBarrier b r w l => (r = 0 → w = []) ∧
      (r ≠ 0 → l = true ∧ 0 ≤ current b < goal b ∧ goal b < 2 ^ 31 ∧ Z.of_nat (length w) ≤ current b)
  | VCond _ r w l => (r = 0 → w = []) ∧ (r ≠ 0 → l = true)
  | VSema m r w l => (r = 0 → w = []) ∧
      (r ≠ 0 → l = true ∧ Z.of_nat (length w) = Z.max 0 (- count m) ∧ count m < 2 ^ 31)
  | VMbox m r x wl we wf ll le lf => acquired x = 0 ∧ wl = [] ∧ (r = 0 → we = [] ∧ wf = []) ∧
      (r ≠ 0 → ll = true ∧ le = true ∧ lf = true ∧ mbox_ring m)
  end.

(** Between two calls: the process table is sound and no spin lock is held. *)
Record quiet (s : os) : Prop := {
  qt_sched : sched_good (sch s);
  qt_spin r : spins s r = UNLOCKED;
}.
Record locks_ok (s : os) : Prop := {
  lk_quiet : quiet s;
  lk_view o : view_ok (view s o);
}.

(** [s'] differs from [s] in object [o] only, which now looks like [v]. *)
Definition changes (o : obj) (v : oview) (s s' : os) : Prop :=
  view s' o = v ∧ ∀ o', o' ≠ o → view s' o' = view s o'.

Lemma changes_ok o v s s' : locks_ok s → quiet s' → view_ok v → changes o v s s' → locks_ok s'.
Proof.
  intros Hl Hq Hv [E1 E2]. split; [done|]. intros o'. destruct (decide (o' = o)) as [->|Hne].
  - by rewrite E1.
  - rewrite E2 by done. apply Hl.
Qed.

Lemma changes_trans o v1 v2 s1 s2 s3 : changes o v1 s1 s2 → changes o v2 s2 s3 → changes o v2 s1 s3.
Proof. intros [_ H1] [H2 H3]. split; [done|]. intros o' Hne. rewrite H3, H1; done. Qed.

(** ** Waiting and waking in the process table *)
Record core (out : option nat) (v : sched) : Prop := {
  co_inv : sched_inv out v;
  co_ring : ring_ok v;
  co_pid : NR_CPUS ≤ process_id v;
}.
Lemma good_core v : sched_good v ↔ core None v.
Proof. split; intros []; by split. Qed.

Lemma drained_core out q l v v' :
  q ≠ QReady → (∀ p, p ∈ l → p ∈ queue v q) → core out v → drained (set_status TASK_READY) q l v v' → core out v'.
Proof.
  intros Hq Hl [Hi Hr Hp] D. destruct (drained_ring (set_status TASK_READY) q l v v' ltac:(done) Hr D) as [Hr' _].
  destruct (dr_rest _ _ _ _ _ D) as (_ & _ & _ & _ & Ep). split; [|done | by rewrite Ep].
  apply (drained_inv None out (set_status TASK_READY) q l v); [by auto | done | | done | done]. intros p Hpl. split; [by apply Hl | done].
Qed.

(** What waking leaves of the processes: pids stay, nobody exits. *)
Definition keeps_pids (v v' : sched) : Prop :=
  ∀ p x, pcb_all v !! p = Some x → ∃ y, pcb_all v' !! p = Some y ∧ pid y = pid x ∧
    (status y = TASK_READY ∨ status y = status x).

Lemma drained_pids q l v v' : drained (set_status TASK_READY) q l v v' → keeps_pids v v'.
Proof.
  intros D p x Hx. rewrite (dr_pcb _ _ _ _ _ D), Hx. cbn. eexists. split; [done|]. case_decide; cbn; auto.
Qed.

Lemma keeps_pids_refl v : keeps_pids v v.
Proof. intros p x Hx. eauto 10. Qed.

Lemma keeps_pids_trans v1 v2 v3 : keeps_pids v1 v2 → keeps_pids v2 v3 → keeps_pids v1 v3.
Proof.
  intros H1 H2 p x Hx. destruct (H1 p x Hx) as (y & Hy & E1 & S1). destruct (H2 p y Hy) as (z & Hz & E2 & S2).
  exists z. split_and!; [done | congruence |]. destruct S2 as [?|E]; [by left|]. rewrite E. done.
Qed.

(** Who is there, and under which pid. *)
Definition ident (x : pcb_t) : Z * bool := (pid x, bool_decide (status x = TASK_EXITED)).
Definition same_ids (v v' : sched) : Prop := ident <$> pcb_all v' = ident <$> pcb_all v.

Lemma drained_ids out q l v v' :
  sched_inv out v → (∀ p, p ∈ l → p ∈ queue v q) → drained (set_status TASK_READY) q l v v' → same_ids v v'.
Proof.
  intros Hi Hl D. apply list_eq. intros p. rewrite !list_lookup_fmap, (dr_pcb _ _ _ _ _ D).
  destruct (pcb_all v !! p) as [x|] eqn:Hx; [|done]. cbn. case_decide as Hp; [|done].
  apply Hl, (ln_iff _ (si_linked _ _ _ Hi)) in Hp as (y & Hy & Hc). assert (y = x) as -> by congruence.
  unfold ident. cbn. do 2 f_equal. rewrite bool_decide_eq_false_2 by done. symmetry. apply bool_decide_eq_false_2. intros E.
  pose proof (inv_fits _ _ p x Hi Hx) as Hf. unfold pcb_fits in Hf. rewrite E in Hf. destruct Hf. congruence.
Qed.

Lemma find_pcb_ids id v v' p :
  same_ids v v' → find_pcb id v = Ok (Some p, v) → find_pcb id v' = Ok (Some p, v').
Proof.
  intros E. unfold find_pcb. destruct (id <? 0); [done|]. destruct (id <? NR_CPUS).
  - unfold get_pcb, bind, asserts. assert (ident <$> pcb_all v' !! Z.to_nat id = ident <$> pcb_all v !! Z.to_nat id) as E'.
    { rewrite <- !list_lookup_fmap. by rewrite E. }
    destruct (pcb_all v !! Z.to_nat id) as [x|], (pcb_all v' !! Z.to_nat id) as [y|]; cbn in E'; try done.
    injection E' as E1 _. rewrite E1. destruct (pid x =? id); [|done]. unfold ret. intros [= <-]. done.
  - unfold gets, bind. assert (∀ l, list_find (fun x => pid x = id ∧ status x ≠ TASK_EXITED) l =
      list_find ((fun y : Z * bool => fst y = id ∧ snd y = false) ∘ ident) l) as Hx.
    { intros l. apply list_find_ext. intros x. cbn. rewrite bool_decide_eq_false. done. }
    assert (fst <$> list_find (fun x => pid x = id ∧ status x ≠ TASK_EXITED) (drop (Z.to_nat NR_CPUS) (pcb_all v')) =
      fst <$> list_find (fun x => pid x = id ∧ status x ≠ TASK_EXITED) (drop (Z.to_nat NR_CPUS) (pcb_all v))) as E'.
    { rewrite !Hx. pose proof (list_find_fmap ident (fun y : Z * bool => fst y = id ∧ snd y = false)) as Hf.
      assert (∀ l, fst <$> list_find ((fun y : Z * bool => fst y = id ∧ snd y = false) ∘ ident) l =
        fst <$> list_find (fun y : Z * bool => fst y = id ∧ snd y = false) (ident <$> l)) as Hf'.
      { intros l. rewrite Hf. by destruct (list_find _ l) as [[]|]. }
      rewrite !Hf', !fmap_drop. by rewrite E. }
    destruct (list_find _ (drop _ (pcb_all v))) as [[a x]|], (list_find _ (drop _ (pcb_all v'))) as [[b y]|]; cbn in E'; try done.
    injection E' as ->. unfold ret. by intros [= <-].
Qed.

(** [s'] is [s] after processes of [q] were woken. *)
Record woke (out : option nat) (q : qid) (v v' : sched) : Prop := {
  wk_core : core out v';
  wk_other q' : q' ≠ q → q' ≠ QReady → queue v' q' = queue v q';
  wk_harts : harts v' = harts v;
  wk_pids : keeps_pids v v';
  wk_ids : same_ids v v';
  wk_free p x : pcb_all v !! p = Some x → container x ≠ Some q → pcb_all v' !! p = Some x;
}.

Lemma drained_woke out q l v v' :
  q ≠ QReady → (∀ p, p ∈ l → p ∈ queue v q) → core out v → drained (set_status TASK_READY) q l v v' → woke out q v v'.
Proof.
  intros Hq Hl Hc D. split; [by eapply drained_core | | by destruct (dr_rest _ _ _ _ _ D) as (_ & ? & _) | by eapply drained_pids
    | eapply drained_ids; [apply Hc | done | done] |].
  - intros q' H1 H2. by apply (dr_other _ _ _ _ _ D).
  - intros p x Hx Hcx. rewrite (dr_pcb _ _ _ _ _ D), Hx. cbn. rewrite decide_False; [done|]. intros Hp.
    apply Hl, (ln_iff _ (si_linked _ _ _ (co_inv _ _ Hc))) in Hp as (y & Hy & E). congruence.
Qed.

Lemma wake_all_run out q s :
  core out (sch s) → lists s q = true → q ≠ QReady →
  ∃ v, wake_all q s = Ok (tt, set_sch v s) ∧ woke out q (sch s) v ∧ queue v q = [] ∧
    queue v QReady = wq s QReady ++ wq s q.
Proof.
  intros Hc Hl Hq. destruct (unblock_list_run q (sch s) (si_linked _ _ _ (co_inv _ _ Hc)) Hq) as (v & R & D & E).
  exists v. split_and!; [|by eapply drained_woke | done | apply D].
  unfold wake_all, listed, gets, asserts, bind, ret, lift. by rewrite Hl, R.
Qed.

(** [list_shift] and [do_unblock]. *)
Lemma shift_run out q s p rest :
  core out (sch s) → q ≠ QReady → wq s q = p :: rest →
  ∃ v1 v, lift (list_shift q) s = Ok (Some p, set_sch v1 s) ∧ lift (do_unblock p) (set_sch v1 s) = Ok (tt, set_sch v s) ∧
    woke out q (sch s) v ∧ queue v q = rest ∧ queue v QReady = wq s QReady ++ [p].
Proof.
  intros Hc Hq E. pose proof (si_linked _ _ _ (co_inv _ _ Hc)) as Hl.
  destruct (queue_shift_run q (sch s) p rest Hl E) as (x & Hx & Hcx & R).
  pose proof (move_drained (set_status TASK_READY) q p x (sch s) ltac:(done) ltac:(done) Hl Hq Hx Hcx) as D.
  pose proof (move_run (set_status TASK_READY) q p x (sch s) ltac:(done) ltac:(done) Hx Hcx) as Rm.
  rewrite (bind_Ok _ _ _ _ _ (queue_delete_run (sch s) p x q Hx Hcx)) in Rm.
  exists (delete_from q p x (sch s)), (move (set_status TASK_READY) q p x (sch s)). split_and!.
  - unfold lift. by rewrite R.
  - unfold lift, do_unblock. cbn [sch set_sch]. by rewrite Rm.
  - apply (drained_woke out q [p]); [done | | done | done]. intros r ->%list_elem_of_singleton. unfold wq in E. rewrite E. set_solver.
  - rewrite (dr_queue _ _ _ _ _ D). unfold wq in E. rewrite E. rewrite filter_cons_False by set_solver.
    apply filter_all. pose proof (ln_nodup _ Hl q) as Hnd. rewrite E in Hnd. apply NoDup_cons in Hnd as [Hn _].
    intros r Hr Hrp. apply list_elem_of_singleton in Hrp as ->. done.
  - apply D.
Qed.

Lemma shift_empty q s : wq s q = [] → lift (list_shift q) s = Ok (None, s).
Proof. intros E. unfold lift, list_shift, gets, bind, ret. unfold wq in E. rewrite E. by destruct s. Qed.

(** Parking the caller. *)
Lemma park_run h c x q s :
  sched_good (sch s) → user_on h c x (sch s) → waitable q (sch s) → lists s q = true →
  ∃ v, park c q s = Ok (tt, set_sch v s) ∧ core (Some h) v ∧ queue v = <[q := wq s q ++ [c]]> (queue (sch s)) ∧
    harts v = harts (sch s) ∧ ∃ y, pcb_all v !! c = Some y ∧ status y = TASK_BLOCKED.
Proof.
  intros Hg Hu Hq Hl. pose proof Hu as (Hc & H2 & Hx & Hst). pose proof (running_free _ c x (sg_inv _ Hg) Hx Hst) as Hcx.
  eexists. split_and!; [| | | |].
  - unfold park, listed, gets, asserts, bind, ret, lift. rewrite Hl.
    by rewrite (do_block_run c x q (sch s) Hx ltac:(congruence) Hcx).
  - destruct Hg as [Hi Hr Hp]. split; [by eapply park_inv | by eapply ring_park | done].
  - done.
  - done.
  - exists (set_container (Some q) (set_status TASK_BLOCKED x)). split; [|done]. cbn. rewrite list_insert_insert_eq.
    apply list_lookup_insert_eq. by eapply lookup_lt_Some.
Qed.

(** The scheduler after that. *)
Lemma sched_run_ready h now v c y s :
  core (Some h) v → harts v !! h = Some c → pcb_all v !! c = Some y → status y ≠ TASK_KILLED → sch s = v →
  ∃ v', lift (do_scheduler h now) s = Ok (tt, set_sch v' s) ∧ sched_good v' ∧
    (∀ q, q ≠ QReady → q ≠ QSleep → queue v' q = queue v q) ∧
    (∀ r, r ∈ queue v QReady → r ∈ queue v' QReady ∨ harts v' !! h = Some r).
Proof.
  intros [Hi Hr Hp] Hc Hy Hk Es. pose proof (hart_range _ _ _ _ Hi Hc) as Hh.
  destruct (do_scheduler_run h now v c y Hh Hi Hr Hc Hy Hk) as (p & v' & R & Hi' & Hr' & _ & Eh & _ & Er & Ep & Eq).
  exists v'. split_and!; [unfold lift; by rewrite Es, R | split; [done | done | by rewrite Ep] | done |].
  intros r Hin. destruct (decide (r = p)) as [->|Hne].
  - right. rewrite Eh. apply list_lookup_insert_eq. by eapply lookup_lt_Some.
  - left. rewrite Er. apply list_elem_of_filter. split; [done|]. apply elem_of_app. by left.
Qed.

Lemma sched_run h now v c y s :
  core (Some h) v → harts v !! h = Some c → pcb_all v !! c = Some y → status y ≠ TASK_KILLED → sch s = v →
  ∃ v', lift (do_scheduler h now) s = Ok (tt, set_sch v' s) ∧ sched_good v' ∧
    ∀ q, q ≠ QReady → q ≠ QSleep → queue v' q = queue v q.
Proof.
  intros Hc Hh Hy Hk Es. destruct (sched_run_ready h now v c y s Hc Hh Hy Hk Es) as (v' & R & Hg & Eq & _). by exists v'.
Qed.

(** ** Running the guards *)
Definition spun (r : spin_ref) (s : os) : os := set_spin r UNLOCKED (set_spin r LOCKED s).

Lemma spun_unlocked r s : (∀ r', spins s r' = UNLOCKED) → ∀ r', spins (spun r s) r' = UNLOCKED.
Proof.
  intros H r'. cbn. destruct (decide (r' = r)) as [->|Hne]; [by rewrite fn_lookup_insert|]. by rewrite !fn_lookup_insert_ne.
Qed.
#[local] Hint Resolve spun_unlocked : core.

Lemma spin_acquire_run r s : spins s r = UNLOCKED → spin_lock_acquire r s = Ok (tt, set_spin r LOCKED s).
Proof.
  intros E. unfold spin_lock_acquire, spin_lock_try_acquire, gets, modify, bind, ret. by rewrite E.
Qed.

Lemma with_spin_run {A} r (body : OM A) s a s1 :
  spins s r = UNLOCKED → body (set_spin r LOCKED s) = Ok (a, s1) →
  with_spin r body s = Ok (a, set_spin r UNLOCKED s1).
Proof.
  intros E R. unfold with_spin. rewrite (bind_Ok _ _ _ _ _ (spin_acquire_run r s E)), (bind_Ok _ _ _ _ _ R). done.
Qed.

Lemma self_run h c s : harts (sch s) !! h = Some c → self h s = Ok (c, s).
Proof. intros E. unfold self, lift, current_running. rewrite E. by destruct s. Qed.

Lemma self_pid_run h c x s : harts (sch s) !! h = Some c → pcb_all (sch s) !! c = Some x → self_pid h s = Ok (pid x, s).
Proof.
  intros Hc Hx. unfold self_pid. rewrite (bind_Ok _ _ _ _ _ (self_run h c s Hc)). unfold lift, get_pcb, bind, ret. rewrite Hx. by destruct s.
Qed.

(** Views after explicit updates; queues by the facts [H] about them. *)
Ltac vw := repeat match goal with H := _ : os |- context [?K] => constr_eq H K; unfold H end; unfold view, wq; cbn [sch spins lists mutexes cond_keys mlock_ref barriers barrier_ref cond_ref semaphores
    sema_ref mailboxes mbox_ref set_sch set_spin set_list set_mutex set_cond_key set_mlock_ref set_barrier set_barrier_ref
    set_cond_ref set_sema set_sema_ref set_mbox set_mbox_ref spun mutex_queue cond_queue]; rewrite ?fn_lookup_insert.
Ltac other_view H := intros [?j|?j|?j|?j|?j] ?Hne; vw; rewrite ?fn_lookup_insert_ne by congruence; rewrite ?H by (cbn [mutex_queue cond_queue]; congruence); reflexivity.

Lemma lock_waitable q v : q ≠ QReady → (∀ r, q ≠ QProc r) → waitable q v.
Proof. intros H1 H2. split; [done|]. intros r z ->. by destruct (H2 r). Qed.

(** ** Mutexes *)
Lemma acquire_free h now r s c x :
  quiet s → harts (sch s) !! h = Some c → pcb_all (sch s) !! c = Some x → acquired (mutexes s r) = 0 →
  mutex_acquire h now r s = Ok (true, set_mutex r (mk_mutex 1 (pid x) (m_key (mutexes s r))) (spun (SpMutex r) s)).
Proof.
  intros [Hg Hs] Hc Hx E. unfold mutex_acquire. erewrite bind_Ok.
  2: { apply with_spin_run; [apply Hs|]. unfold get_mutex at 1, gets. unfold bind at 1.
       rewrite (bind_Ok _ _ _ c _) by (by apply self_run). cbn [mutexes set_spin]. rewrite E.
       change (0 =? 0) with true. cbv iota. rewrite (bind_Ok _ _ _ (pid x) _) by (by apply (self_pid_run h c)). reflexivity. }
  reflexivity.
Qed.

Lemma acquire_taken h now r s c x :
  quiet s → user_on h c x (sch s) → acquired (mutexes s r) ≠ 0 → lists s (mutex_queue r) = true →
  ∃ v, mutex_acquire h now r s = Ok (false, set_sch v (spun (SpMutex r) s)) ∧ sched_good v ∧
    queue v (mutex_queue r) = wq s (mutex_queue r) ++ [c] ∧
    ∀ q, q ≠ QReady → q ≠ QSleep → q ≠ mutex_queue r → queue v q = wq s q.
Proof.
  intros [Hg Hs] Hu E Hl. pose proof Hu as (Hc & _).
  destruct (park_run h c x (mutex_queue r) (set_spin (SpMutex r) LOCKED s)) as (v & R & Hco & Eq & Eh & y & Hy & Hst);
    [done | done | apply lock_waitable; by destruct r | done |].
  destruct (sched_run h now v c y (set_sch v (spun (SpMutex r) s))) as (v' & R' & Hg' & Eq'); [done | by rewrite Eh | done | congruence | done |].
  exists v'. split_and!; [|done | |].
  - unfold mutex_acquire. rewrite (bind_Ok _ _ s false (set_spin (SpMutex r) UNLOCKED (set_sch v (set_spin (SpMutex r) LOCKED s)))).
    + rewrite (bind_Ok _ _ _ _ _ R'). done.
    + apply with_spin_run; [apply Hs|]. unfold get_mutex, gets. unfold bind at 1. rewrite (bind_Ok _ _ _ c _) by (by apply self_run).
      cbn [mutexes set_spin]. rewrite (proj2 (Z.eqb_neq _ 0) E). rewrite (bind_Ok _ _ _ _ _ R). done.
  - rewrite Eq', Eq by (by destruct r). by rewrite fn_lookup_insert.
  - intros q H1 H2 H3. rewrite Eq', Eq by done. by rewrite fn_lookup_insert_ne.
Qed.

(** Releasing, with the caller possibly parked. *)
Lemma mutex_release_wakes out r s :
  core out (sch s) → lists s (mutex_queue r) = true →
  ∃ v, mutex_release r s = Ok (tt, set_sch v (set_mutex r (mk_mutex 0 (m_pid (mutexes s r)) (m_key (mutexes s r))) s)) ∧
    woke out (mutex_queue r) (sch s) v ∧ queue v (mutex_queue r) = [] ∧ queue v QReady = wq s QReady ++ wq s (mutex_queue r).
Proof.
  intros Hc Hl. set (s1 := set_mutex r (mk_mutex 0 (m_pid (mutexes s r)) (m_key (mutexes s r))) s).
  destruct (wake_all_run out (mutex_queue r) s1 Hc Hl) as (v & R & W & E & Er); [by destruct r|].
  exists v. split_and!; [|done | done | exact Er]. unfold mutex_release, get_mutex, gets, modify. unfold bind. fold s1. exact R.
Qed.

Lemma mutex_release_run out r s :
  core out (sch s) → lists s (mutex_queue r) = true →
  ∃ v, mutex_release r s = Ok (tt, set_sch v (set_mutex r (mk_mutex 0 (m_pid (mutexes s r)) (m_key (mutexes s r))) s)) ∧
    woke out (mutex_queue r) (sch s) v ∧ queue v (mutex_queue r) = [].
Proof. intros Hc Hl. destruct (mutex_release_wakes out r s Hc Hl) as (v & R & W & E & _). by exists v. Qed.

(** [mutex_acquire] on an initialised mutex. *)
Lemma mutex_acquire_spec h now i s c x :
  locks_ok s → user_on h c x (sch s) → mlock_ref s i ≠ 0 →
  let m := mutexes s (MLock i) in
  ∃ s', mutex_acquire h now (MLock i) s = Ok (acquired m =? 0, s') ∧ quiet s' ∧
    changes (OMutex i)
      (if acquired m =? 0 then VMutex (mk_mutex 1 (pid x) (m_key m)) (mlock_ref s i) [] true
       else VMutex m (mlock_ref s i) (wq s (QMutex i) ++ [c]) true) s s'.
Proof.
  intros [Hq Hv] Hu Hr m. pose proof Hu as (Hc & _ & Hx & _). pose proof (Hv (OMutex i)) as (_ & Hl & Hw). specialize (Hl Hr).
  destruct (Z.eqb_spec (acquired m) 0) as [E|E].
  - eexists. split; [by apply (acquire_free h now _ s c x)|]. destruct Hq as [Hg Hs]. split; [split; [done | by apply spun_unlocked]|].
    split; [vw; f_equal; [by apply Hw | done]|]. other_view Hl.
  - destruct (acquire_taken h now (MLock i) s c x Hq Hu E Hl) as (v & R & Hg' & E1 & E2). eexists. split; [exact R|].
    destruct Hq as [Hg Hs]. split; [split; [done | by apply spun_unlocked]|].
    split; [vw; f_equal; [exact E1 | done]|]. other_view E2.
Qed.
