(* ===== verification/LockOps.v ===== *)
(** * Locks: what each operation does to its object *)

From S2P Require Import Prelude CString Sched SchedProofs SchedTheorems Locks LockProofs.

(** ** States that differ in the spin words only *)
Definition with_spins (f : spin_ref → lock_status_t) (s : os) : os :=
  mk_os (sch s) f (lists s) (mutexes s) (cond_keys s) (mlock_ref s) (barriers s) (barrier_ref s)
    (cond_ref s) (semaphores s) (sema_ref s) (mailboxes s) (mbox_ref s).
Definition sim (s s' : os) : Prop := quiet s' ∧ s' = with_spins (spins s') s.

Lemma sim_refl s : quiet s → sim s s.
Proof. intros Hq. split; [done|]. by destruct s. Qed.
Lemma sim_trans s1 s2 s3 : sim s1 s2 → sim s2 s3 → sim s1 s3.
Proof. intros [_ E1] [Hq E2]. split; [done|]. rewrite E2, E1. done. Qed.
Lemma sim_spun r s : quiet s → sim s (spun r s).
Proof. intros [Hg Hs]. split; [split; [done | by apply spun_unlocked]|]. by destruct s. Qed.
Lemma sim_view s s' o : sim s s' → view s' o = view s o.
Proof. intros [_ ->]. by destruct o. Qed.
Lemma sim_sch s s' : sim s s' → sch s' = sch s.
Proof. by intros [_ ->]. Qed.
Lemma sim_changes s s' o : sim s s' → changes o (view s o) s s'.
Proof. intros H. split; intros; by apply sim_view. Qed.
Lemma sim_locks s s' : locks_ok s → sim s s' → locks_ok s'.
Proof. intros [_ Hv] H. split; [apply H|]. intros o. rewrite (sim_view s s' o H). apply Hv. Qed.
Lemma sim_changes_l o v s1 s2 s3 : sim s1 s2 → changes o v s2 s3 → changes o v s1 s3.
Proof. intros H [E1 E2]. split; [done|]. intros o' Hne. rewrite E2 by done. by apply sim_view. Qed.

Lemma range_nat i n : in_range i n = true → Z.of_nat (Z.to_nat i) = i ∧ 0 ≤ i < n.
Proof. unfold in_range. intros H%negb_true_iff%orb_false_iff. rewrite Z.ltb_ge, Z.geb_leb, Z.leb_gt in H. lia. Qed.

(** ** Giving a mutex back *)
Lemma mutex_release_spec h idx s c x :
  locks_ok s → user_on h c x (sch s) → in_range idx LOCK_NUM = true →
  let i := Z.to_nat idx in let m := mutexes s (MLock i) in
  ∃ s', do_mutex_lock_release h idx s = Ok (tt, s') ∧ quiet s' ∧
    changes (OMutex i)
      (if decide (mlock_ref s i ≠ 0 ∧ m_pid m = pid x)
       then VMutex (mk_mutex 0 (m_pid m) (m_key m)) (mlock_ref s i) [] true else view s (OMutex i)) s s'.
Proof.
  intros [Hq Hv] Hu Hrange i m. pose proof Hu as (Hc & _ & Hx & _). pose proof Hq as [Hg Hs].
  pose proof (Hv (OMutex i)) as (_ & Hl & _).
  set (L := set_spin (SpMutex (MLock i)) LOCKED s).
  assert (∀ body : OM unit, (m0 <- gets (fun s => mlock_ref s i) ;; m1 <- get_mutex (MLock i) ;; me <- self_pid h ;;
      if m0 =? 0 then ret tt else if negb (m_pid m1 =? me) then ret tt else body) L
    = (if decide (mlock_ref s i ≠ 0 ∧ m_pid m = pid x) then body else ret tt) L) as Hrun.
  { intros body. unfold get_mutex, gets. unfold bind at 1 2. rewrite (bind_Ok _ _ _ (pid x) _) by (by apply (self_pid_run h c)).
    change (mlock_ref L i) with (mlock_ref s i). change (mutexes L (MLock i)) with m.
    destruct (Z.eqb_spec (mlock_ref s i) 0), (Z.eqb_spec (m_pid m) (pid x)); cbn [negb]; destruct (decide (mlock_ref s i ≠ 0 ∧ m_pid m = pid x)); try done; exfalso; tauto. }
  unfold do_mutex_lock_release. rewrite Hrange. cbn [negb]. fold i. case_decide as Hd.
  - destruct (mutex_release_run None (MLock i) L) as (v & R & W & E); [by apply good_core | apply Hl, Hd|].
    eexists. split.
    { apply with_spin_run; [apply Hs|]. rewrite Hrun. exact R. }
    split; [split; [by apply good_core, W | by apply spun_unlocked]|].
    split; [vw; f_equal; [exact E | apply Hl, Hd]|]. other_view (wk_other _ _ _ _ W).
  - eexists. split.
    { apply with_spin_run; [apply Hs|]. by rewrite Hrun. }
    split; [by apply sim_spun | by apply sim_changes, sim_spun].
Qed.

(** ** Barriers *)

(** Parking after a spin section and giving the hart away. *)
Lemma park_sched h now c x q s :
  sched_good (sch s) → user_on h c x (sch s) → waitable q (sch s) → lists s q = true → q ≠ QSleep →
  ∃ v v', park c q s = Ok (tt, set_sch v s) ∧
    (∀ s1, sch s1 = v → lift (do_scheduler h now) s1 = Ok (tt, set_sch v' s1)) ∧ sched_good v' ∧
    queue v' q = wq s q ++ [c] ∧ ∀ q', q' ≠ QReady → q' ≠ QSleep → q' ≠ q → queue v' q' = wq s q'.
Proof.
  intros Hg Hu Hq Hl Hsl. destruct (park_run h c x q s Hg Hu Hq Hl) as (v & R & Hco & Eq & Eh & y & Hy & Hst).
  destruct (sched_run h now v c y (set_sch v s)) as (v' & R' & Hg' & Eq');
    [done | rewrite Eh; apply Hu | done | congruence | done |].
  exists v, v'. split_and!; [done | | done | |].
  - intros s1 Es. unfold lift in *. rewrite Es. cbn [sch set_sch] in R'. by destruct (do_scheduler h now v) as [[[] ?]| |]; simplify_eq.
  - rewrite Eq', Eq by (apply Hq || done). by rewrite fn_lookup_insert.
  - intros q' H1 H2 H3. rewrite Eq', Eq by done. by rewrite fn_lookup_insert_ne.
Qed.

Definition barrier_arrive (c : nat) (v : oview) : oview :=
  match v with
  | VBarrier b r w l =>
      if current b + 1 <? goal b then VBarrier (mk_barrier (b_key b) (goal b) (current b + 1)) r (w ++ [c]) l
      else VBarrier (mk_barrier (b_key b) (goal b) 0) r [] l
  | v => v
  end.

Lemma barrier_wait_spec h now idx s c x :
  locks_ok s → user_on h c x (sch s) → in_range idx BARRIER_NUM = true →
  let i := Z.to_nat idx in let b := barriers s i in barrier_ref s i ≠ 0 →
  ∃ s', do_barrier_wait h now idx s = Ok (current b + 1 <? goal b, s') ∧ quiet s' ∧
    changes (OBarrier i) (barrier_arrive c (view s (OBarrier i))) s s' ∧
    (goal b ≤ current b + 1 → wq s' QReady = wq s QReady ++ wq s (QBarrier i)).
Proof.
  intros [Hq Hv] Hu Hrange i b Hr. pose proof Hq as [Hg Hs].
  pose proof (Hv (OBarrier i)) as (_ & Hv'). destruct (Hv' Hr) as (Hl & Hb & Hmax & Hw). fold b in Hb, Hmax, Hw.
  assert (i32 (current b + 1) = current b + 1) as E32 by (apply i32_id; lia).
  set (L := set_spin (SpBarrier i) LOCKED s).
  unfold do_barrier_wait. rewrite Hrange. cbn [negb]. fold i. rewrite (bind_Ok _ _ _ _ _ (spin_acquire_run _ _ (Hs _))). fold L.
  unfold get_barrier, gets. unfold bind at 1. change (barrier_ref L i) with (barrier_ref s i).
  rewrite (proj2 (Z.eqb_neq _ 0) Hr). unfold bind at 1. change (barriers L i) with b.
  rewrite (bind_Ok _ _ L tt L) by (by rewrite (proj2 (Z.ltb_lt _ _) (proj2 Hb))). rewrite E32. unfold modify. unfold bind at 1.
  unfold barrier_arrive, view. fold b. destruct (Z.ltb_spec (current b + 1) (goal b)) as [Hlt|Hge].
  - unfold spin_lock_release, modify. unfold bind at 1. set (s2 := set_spin _ _ _).
    destruct (park_sched h now c x (QBarrier i) s2) as (v & v' & R & R' & Hg' & E1 & E2);
      [done | done | by apply lock_waitable | done | done |].
    rewrite (bind_Ok _ _ s2 c s2) by (apply self_run, Hu). rewrite (bind_Ok _ _ _ _ _ R), (bind_Ok _ _ _ _ _ (R' (set_sch v s2) eq_refl)).
    eexists. split; [reflexivity|]. split_and!; [split; [done | by apply spun_unlocked] | split | lia].
    + vw. f_equal. exact E1.
    + other_view E2.
  - unfold bind at 1. set (s2 := set_barrier _ _ _).
    destruct (wake_all_run None (QBarrier i) s2) as (v & R & W & E & Er); [by apply good_core | done | done |].
    rewrite (bind_Ok _ _ _ _ _ R). eexists. split; [reflexivity|].
    split_and!; [split; [by apply good_core, W | by apply spun_unlocked] | split | intros _; exact Er].
    + vw. f_equal. exact E.
    + other_view (wk_other _ _ _ _ W).
Qed.

(** ** Semaphores *)
Definition sema_down (c : nat) (v : oview) : oview :=
  match v with
  | VSema m r w l => VSema (mk_sema (s_key m) (count m - 1)) r (if count m - 1 <? 0 then w ++ [c] else w) l
  | v => v
  end.

Lemma sema_down_spec h now idx s c x :
  locks_ok s → user_on h c x (sch s) → in_range idx SEMAPHORE_NUM = true →
  let i := Z.to_nat idx in let m := semaphores s i in sema_ref s i ≠ 0 → - 2 ^ 31 < count m →
  ∃ s', do_semaphore_down h now idx s = Ok (count m - 1 <? 0, s') ∧ quiet s' ∧
    changes (OSema i) (sema_down c (view s (OSema i))) s s'.
Proof.
  intros [Hq Hv] Hu Hrange i m Hr Hmin. pose proof Hq as [Hg Hs].
  pose proof (Hv (OSema i)) as (_ & Hv'). destruct (Hv' Hr) as (Hl & Hw & Hmax). fold m in Hw, Hmax.
  assert (i32 (count m - 1) = count m - 1) as E32 by (apply i32_id; lia).
  set (L := set_spin (SpSema i) LOCKED s).
  unfold do_semaphore_down. rewrite Hrange. cbn [negb]. fold i. rewrite (bind_Ok _ _ _ _ _ (spin_acquire_run _ _ (Hs _))). fold L.
  unfold get_sema, gets. unfold bind at 1. change (sema_ref L i) with (sema_ref s i).
  rewrite (proj2 (Z.eqb_neq _ 0) Hr). unfold bind at 1. change (semaphores L i) with m. rewrite E32. unfold modify. unfold bind at 1.
  unfold sema_down, view. fold m. set (s2 := set_sema _ _ _). destruct (Z.ltb_spec (count m - 1) 0) as [Hlt|Hge].
  - destruct (park_sched h now c x (QSema i) s2) as (v & v' & R & R' & Hg' & E1 & E2);
      [done | done | by apply lock_waitable | done | done |].
    rewrite (bind_Ok _ _ s2 c s2) by (apply self_run, Hu). rewrite (bind_Ok _ _ _ _ _ R).
    unfold spin_lock_release, modify. unfold bind at 1.
    rewrite (bind_Ok _ _ _ _ _ (R' (set_spin (SpSema i) UNLOCKED (set_sch v s2)) eq_refl)).
    eexists. split; [reflexivity|]. split_and!; [split; [done | by apply spun_unlocked] | split].
    + vw. f_equal. exact E1.
    + other_view E2.
  - eexists. split; [reflexivity|]. split; [split; [done | by apply spun_unlocked]|]. split; [by vw|]. other_view Hl.
Qed.

Definition sema_up (v : oview) : oview :=
  match v with
  | VSema m r w l => VSema (mk_sema (s_key m) (count m + 1)) r (drop 1 w) l
  | v => v
  end.

Lemma sema_up_spec idx s :
  locks_ok s → in_range idx SEMAPHORE_NUM = true →
  let i := Z.to_nat idx in let m := semaphores s i in sema_ref s i ≠ 0 → count m < 2 ^ 31 - 1 → - 2 ^ 31 < count m →
  ∃ s', do_semaphore_up idx s = Ok (tt, s') ∧ quiet s' ∧ changes (OSema i) (sema_up (view s (OSema i))) s s' ∧
    wq s' QReady = wq s QReady ++ take 1 (wq s (QSema i)).
Proof.
  intros [Hq Hv] Hrange i m Hr Hm1 Hm2. pose proof Hq as [Hg Hs].
  pose proof (Hv (OSema i)) as (_ & Hv'). destruct (Hv' Hr) as (Hl & Hw & _). fold m in Hw.
  assert (i32 (count m + 1) = count m + 1) as E32 by (apply i32_id; lia).
  set (L := set_spin (SpSema i) LOCKED s).
  unfold do_semaphore_up. rewrite Hrange. cbn [negb]. fold i.
  set (s2 := set_sema i (mk_sema (s_key m) (count m + 1)) L).
  assert (∀ k : semaphore_t → OM unit, (r <- gets (fun s => sema_ref s i) ;; if r =? 0 then ret tt else m <- get_sema i ;; k m) L = k m L) as Hrun.
  { intros k. unfold get_sema, gets, bind. change (sema_ref L i) with (sema_ref s i). by rewrite (proj2 (Z.eqb_neq _ 0) Hr). }
  unfold sema_up, view. fold m. destruct (Z.leb_spec (count m + 1) 0) as [Hle|Hgt].
  - destruct (wq s (QSema i)) as [|p rest] eqn:Ew; [cbn in Hw; lia|].
    destruct (shift_run None (QSema i) s2 p rest) as (v1 & v & R1 & R2 & W & E & Er); [by apply good_core | done | exact Ew |].
    eexists. split.
    { apply with_spin_run; [apply Hs|]. rewrite Hrun, E32. unfold modify. unfold bind at 1. fold s2.
      rewrite (proj2 (Z.leb_le _ _) Hle). rewrite (bind_Ok _ _ s2 tt s2) by (unfold listed, gets, bind; cbn; by rewrite Hl).
      rewrite (bind_Ok _ _ _ _ _ R1). exact R2. }
    split_and!; [split; [by apply good_core, W | by apply spun_unlocked] | split | exact Er].
    + vw. f_equal. exact E.
    + other_view (wk_other _ _ _ _ W).
  - assert (wq s (QSema i) = []) as Ew by (apply length_zero_iff_nil; lia).
    eexists. split.
    { apply with_spin_run; [apply Hs|]. rewrite Hrun, E32. unfold modify. unfold bind at 1. fold s2.
      by rewrite (proj2 (Z.leb_gt _ _) Hgt). }
    rewrite Ew. split_and!; [split; [done | by apply spun_unlocked] | split | by rewrite app_nil_r].
    + vw. f_equal. exact Ew.
    + other_view Hl.
Qed.

(** ** Conditions *)
Lemma condition_wait_run h now q m s c x :
  quiet s → user_on h c x (sch s) → lists s (cond_queue q) = true → lists s (mutex_queue m) = true →
  let mx := mutexes s m in
  ∃ v, condition_wait h now q m s = Ok (tt, set_sch v (set_mutex m (mk_mutex 0 (m_pid mx) (m_key mx)) (spun (SpCond q) s))) ∧
    sched_good v ∧ queue v (cond_queue q) = wq s (cond_queue q) ++ [c] ∧ queue v (mutex_queue m) = [] ∧
    (∀ q', q' ≠ QReady → q' ≠ QSleep → q' ≠ cond_queue q → q' ≠ mutex_queue m → queue v q' = wq s q') ∧
    (∀ r, r ∈ wq s (mutex_queue m) → r ∈ queue v QReady ∨ harts v !! h = Some r).
Proof.
  intros [Hg Hs] Hu Hl Hm mx. pose proof Hu as (Hc & _).
  assert (cond_queue q ≠ mutex_queue m) as Hne by (by destruct q, m).
  destruct (park_run h c x (cond_queue q) (set_spin (SpCond q) LOCKED s)) as (v1 & R1 & Hco & Eq1 & Eh & y & Hy & Hst);
    [done | done | apply lock_waitable; by destruct q | done |].
  set (s1 := set_sch v1 (spun (SpCond q) s)).
  destruct (mutex_release_wakes (Some h) m s1) as (v2 & R2 & W & E2 & Er2); [done | done |].
  destruct (wk_pids _ _ _ _ W c y Hy) as (z & Hz & _ & Hsz).
  set (s2 := set_sch v2 (set_mutex m (mk_mutex 0 (m_pid mx) (m_key mx)) s1)).
  destruct (sched_run_ready h now v2 c z s2) as (v3 & R3 & Hg3 & Eq3 & Hrd);
    [apply W | by rewrite (wk_harts _ _ _ _ W); cbn; rewrite Eh | done | destruct Hsz; congruence | done |].
  exists v3. split_and!; [| done | | | |].
  - unfold condition_wait. rewrite (bind_Ok _ _ s tt s1).
    + rewrite (bind_Ok _ _ _ _ _ R2). exact R3.
    + apply (with_spin_run (SpCond q) _ s tt (set_sch v1 (set_spin (SpCond q) LOCKED s))); [apply Hs|].
      rewrite (bind_Ok _ _ _ c _) by (by apply self_run). exact R1.
  - rewrite Eq3 by (by destruct q). rewrite (wk_other _ _ _ _ W) by (done || by destruct q). cbn. by rewrite Eq1, fn_lookup_insert.
  - rewrite Eq3 by (by destruct m). exact E2.
  - intros q' H1 H2 H3 H4. rewrite Eq3 by done. rewrite (wk_other _ _ _ _ W) by done. cbn. by rewrite Eq1, fn_lookup_insert_ne.
  - intros r Hr. apply Hrd. rewrite Er2. apply elem_of_app. right. unfold wq, s1. cbn [sch set_sch]. by rewrite Eq1, fn_lookup_insert_ne.
Qed.

Lemma signal_run q s :
  quiet s → lists s (cond_queue q) = true →
  ∃ v, condition_signal q s = Ok (tt, set_sch v (spun (SpCond q) s)) ∧ woke None (cond_queue q) (sch s) v ∧
    queue v (cond_queue q) = drop 1 (wq s (cond_queue q)) ∧ queue v QReady = wq s QReady ++ take 1 (wq s (cond_queue q)).
Proof.
  intros [Hg Hs] Hl. set (L := set_spin (SpCond q) LOCKED s).
  assert (listed (cond_queue q) L = Ok (tt, L)) as Rl by (unfold listed, gets, bind; cbn; by rewrite Hl).
  destruct (wq s (cond_queue q)) as [|p rest] eqn:Ew.
  - exists (sch s). split_and!; [| | exact Ew | by rewrite app_nil_r].
    + unfold condition_signal. rewrite (with_spin_run (SpCond q) _ s tt L (Hs _)); [by destruct s|].
      rewrite (bind_Ok _ _ _ _ _ Rl), (bind_Ok _ _ _ _ _ (shift_empty (cond_queue q) L Ew)). done.
    + split; [by apply good_core | done | done | apply keeps_pids_refl | done | done].
  - destruct (shift_run None (cond_queue q) L p rest) as (v1 & v & R1 & R2 & W & E & Er); [by apply good_core | by destruct q | exact Ew |].
    exists v. split_and!; [| exact W | exact E | exact Er].
    unfold condition_signal. rewrite (with_spin_run (SpCond q) _ s tt (set_sch v L) (Hs _)); [done|].
    rewrite (bind_Ok _ _ _ _ _ Rl), (bind_Ok _ _ _ _ _ R1). exact R2.
Qed.

Lemma broadcast_run q s :
  quiet s → lists s (cond_queue q) = true →
  ∃ v, condition_broadcast q s = Ok (tt, set_sch v (spun (SpCond q) s)) ∧ woke None (cond_queue q) (sch s) v ∧
    queue v (cond_queue q) = [] ∧ queue v QReady = wq s QReady ++ wq s (cond_queue q).
Proof.
  intros [Hg Hs] Hl. destruct (wake_all_run None (cond_queue q) (set_spin (SpCond q) LOCKED s)) as (v & R & W & E & Er);
    [by apply good_core | done | by destruct q |].
  exists v. split_and!; [| done | done | done]. unfold condition_broadcast. by rewrite (with_spin_run _ _ _ _ _ (Hs _) R).
Qed.

(** [do_condition_wait] gives the mutex away and waits. *)
Lemma condition_wait_spec h now ci mi s c x :
  locks_ok s → user_on h c x (sch s) → in_range ci CONDITION_NUM = true → in_range mi LOCK_NUM = true →
  let i := Z.to_nat ci in let k := Z.to_nat mi in let m := mutexes s (MLock k) in
  cond_ref s i ≠ 0 → mlock_ref s k ≠ 0 →
  ∃ s', do_condition_wait h now ci mi s = Ok (true, s') ∧ quiet s' ∧
    view s' (OCond i) = VCond (cond_keys s (CCond i)) (cond_ref s i) (wq s (QCond i) ++ [c]) true ∧
    view s' (OMutex k) = VMutex (mk_mutex 0 (m_pid m) (m_key m)) (mlock_ref s k) [] true ∧
    (∀ o, o ≠ OCond i → o ≠ OMutex k → view s' o = view s o) ∧
    (∀ r, r ∈ wq s (QMutex k) → r ∈ wq s' QReady ∨ harts (sch s') !! h = Some r).
Proof.
  intros [Hq Hv] Hu Hr1 Hr2 i k m Hci Hmk. pose proof Hq as [Hg Hs].
  pose proof (Hv (OCond i)) as (_ & Hl). specialize (Hl Hci). pose proof (Hv (OMutex k)) as (_ & Hl2 & _). specialize (Hl2 Hmk).
  destruct (condition_wait_run h now (CCond i) (MLock k) s c x Hq Hu Hl Hl2) as (v & R & Hg' & E1 & E2 & E3 & E4).
  eexists. split.
  { unfold do_condition_wait. rewrite Hr1, Hr2. cbn [negb]. fold i k. unfold gets. unfold bind at 1.
    rewrite (proj2 (Z.eqb_neq _ 0) Hci), (bind_Ok _ _ _ _ _ R). reflexivity. }
  split; [split; [done | by apply spun_unlocked]|]. split_and!.
  - vw. f_equal; [exact E1 | done].
  - vw. f_equal; [exact E2 | done].
  - intros [j|j|j|j|j] H1 H2; vw; rewrite ?fn_lookup_insert_ne by congruence; rewrite ?E3 by (cbn; congruence); reflexivity.
  - exact E4.
Qed.
