(* ===== verification/LockTable.v ===== *)
(** * Locks: creating, destroying and cleaning up

    The five tables are managed alike: an object lives while some process has
    its bit in the object's reference word. The management is verified once, in
    sections over the table, and instantiated for each kind. *)

From S2P Require Import Prelude CString Sched SchedProofs SchedTheorems Locks Proc LockProofs LockOps.

(** ** References and lists of a view *)
Definition oref (v : oview) : Z :=
  match v with VMutex _ r _ _ | VBarrier _ r _ _ | VCond _ r _ _ | VSema _ r _ _ | VMbox _ r _ _ _ _ _ _ _ => r end.
Definition vref (r : Z) (v : oview) : oview :=
  match v with
  | VMutex m _ w l => VMutex m r w l
  | VBarrier b _ w l => VBarrier b r w l
  | VCond k _ w l => VCond k r w l
  | VSema m _ w l => VSema m r w l
  | VMbox m _ x wl we wf ll le lf => VMbox m r x wl we wf ll le lf
  end.
Definition olisted (v : oview) : Prop :=
  match v with
  | VMutex _ _ _ l | VBarrier _ _ _ l | VCond _ _ _ l | VSema _ _ _ l => l = true
  | VMbox _ _ _ _ _ _ ll le lf => ll = true ∧ le = true ∧ lf = true
  end.
Definition zero_mbox : mailbox_t := mk_mbox (zeros MAX_MBOX_NAME) (zeros MAX_MBOX_LENGTH) 0 0 0 0.
(** What is left of a destroyed object. *)
Definition vclear (v : oview) : oview :=
  match v with
  | VMutex m _ _ l => VMutex (mk_mutex 0 (m_pid m) (m_key m)) 0 [] l
  | VBarrier b _ _ l => VBarrier b 0 [] l
  | VCond k _ _ l => VCond k 0 [] l
  | VSema _ _ _ l => VSema (mk_sema (-1) 0) 0 [] l
  | VMbox _ _ _ _ _ _ _ _ _ => VMbox zero_mbox 0 (mk_mutex 0 0 0) [] [] [] false false false
  end.

Lemma view_ok_listed v : view_ok v → oref v ≠ 0 → olisted v.
Proof. destruct v; cbn; naive_solver. Qed.
Lemma view_ok_clear v : view_ok (vclear v).
Proof. destruct v; cbn; split_and!; try done; intros ?; try done. Qed.
Lemma view_ok_ref v r : view_ok v → oref v ≠ 0 → r ≠ 0 → view_ok (vref r v).
Proof. destruct v; cbn; naive_solver. Qed.
Lemma vclear_ref r v : vclear (vref r v) = vclear v.
Proof. by destruct v. Qed.
Lemma olisted_ref r v : olisted (vref r v) = olisted v.
Proof. by destruct v. Qed.
Lemma oref_ref r v : oref (vref r v) = r.
Proof. by destruct v. Qed.

(** ** Destructors *)
Definition destr_ok (d : OM unit) (o : obj) : Prop :=
  ∀ s, core None (sch s) → oref (view s o) = 0 → olisted (view s o) →
  ∃ s', d s = Ok (tt, s') ∧ core None (sch s') ∧ (∀ r, spins s' r = spins s r ∨ spins s' r = UNLOCKED) ∧
    changes o (vclear (view s o)) s s' ∧ same_ids (sch s) (sch s') ∧ harts (sch s') = harts (sch s).

Lemma mutex_destruct_ok i : destr_ok (mutex_destruct (MLock i)) (OMutex i).
Proof.
  intros s Hc Hr Hl. cbn in Hr, Hl. set (m := mutexes s (MLock i)).
  set (s1 := set_mutex (MLock i) (mk_mutex 0 (m_pid m) (m_key m)) s).
  destruct (wake_all_run None (QMutex i) s1) as (v & R & W & E & _); [done | done | done |].
  eexists. split; [|split_and!].
  - unfold mutex_destruct, get_mutex, gets, modify. unfold bind at 1 2. fold m s1. by rewrite (bind_Ok _ _ _ _ _ R).
  - apply W.
  - by left.
  - split; [vw; cbn [vclear]; f_equal; exact E|]. other_view (wk_other _ _ _ _ W).
  - apply (wk_ids _ _ _ _ W).
  - apply (wk_harts _ _ _ _ W).
Qed.

Lemma barrier_destruct_ok i : destr_ok (barrier_destruct i) (OBarrier i).
Proof.
  intros s Hc Hr Hl. cbn in Hr, Hl. destruct (wake_all_run None (QBarrier i) s) as (v & R & W & E & _); [done | done | done |].
  eexists. split; [exact R|]. split_and!; [apply W | by left | | apply W | apply W].
  split; [vw; cbn [vclear]; f_equal; [exact Hr | exact E]|]. other_view (wk_other _ _ _ _ W).
Qed.

Lemma condition_destruct_ok i : destr_ok (condition_destruct (CCond i)) (OCond i).
Proof.
  intros s Hc Hr Hl. cbn in Hr, Hl. destruct (wake_all_run None (QCond i) s) as (v & R & W & E & _); [done | done | done |].
  eexists. split; [exact R|]. split_and!; [apply W | by left | | apply W | apply W].
  split; [vw; cbn [vclear]; f_equal; [exact Hr | exact E]|]. other_view (wk_other _ _ _ _ W).
Qed.

Lemma semaphore_destruct_ok i : destr_ok (semaphore_destruct i) (OSema i).
Proof.
  intros s Hc Hr Hl. cbn in Hr, Hl. set (s1 := set_sema i (mk_sema (-1) 0) s).
  destruct (wake_all_run None (QSema i) s1) as (v & R & W & E & _); [done | done | done |].
  eexists. split; [unfold semaphore_destruct, modify; unfold bind; exact R|]. split_and!; [apply W | by left | | apply W | apply W].
  split; [vw; cbn [vclear]; f_equal; [exact Hr | exact E]|]. other_view (wk_other _ _ _ _ W).
Qed.

Lemma mailbox_destruct_ok i : destr_ok (mailbox_destruct i) (OMbox i).
Proof.
  intros s Hc Hr (Hl1 & Hl2 & Hl3). cbn in Hr.
  destruct (wake_all_run None (QMboxFull i) s) as (v1 & R1 & W1 & E1 & _); [done | done | done |].
  destruct (wake_all_run None (QMboxEmpty i) (set_sch v1 s)) as (v2 & R2 & W2 & E2 & _); [apply W1 | done | done |].
  set (m := mutexes s (MBuf i)). set (s2 := set_mutex (MBuf i) (mk_mutex 0 (m_pid m) (m_key m)) (set_sch v2 s)).
  destruct (wake_all_run None (QMboxLock i) s2) as (v3 & R3 & W3 & E3 & _); [apply W2 | done | done |].
  assert (mutex_destruct (MBuf i) (set_sch v2 s) = Ok (tt, set_sch v3 s2)) as R3'.
  { unfold mutex_destruct, get_mutex, gets, modify. unfold bind at 1 2.
    change (mutexes (set_sch v2 s) (MBuf i)) with m. fold s2. by rewrite (bind_Ok _ _ _ _ _ R3). }
  assert (∀ q, q ≠ QReady → q ≠ QMboxFull i → q ≠ QMboxEmpty i → q ≠ QMboxLock i → queue v3 q = queue (sch s) q) as Hother.
  { intros q H1 H2 H3 H4. rewrite (wk_other _ _ _ _ W3) by done. cbn. rewrite (wk_other _ _ _ _ W2) by done. cbn.
    by rewrite (wk_other _ _ _ _ W1). }
  eexists. split; [|split_and!].
  - unfold mailbox_destruct. unfold condition_destruct. cbn [cond_queue].
    rewrite (bind_Ok _ _ _ _ _ R1), (bind_Ok _ _ _ _ _ R2), (bind_Ok _ _ _ _ _ R3'). reflexivity.
  - apply W3.
  - intros r. cbn. destruct (decide (r = SpMutex (MBuf i))) as [->|N1]; [right; by rewrite fn_lookup_insert|].
    rewrite fn_lookup_insert_ne by done. destruct (decide (r = SpCond (CEmpty i))) as [->|N2]; [right; by rewrite fn_lookup_insert|].
    rewrite fn_lookup_insert_ne by done. destruct (decide (r = SpCond (CFull i))) as [->|N3]; [right; by rewrite fn_lookup_insert|].
    rewrite fn_lookup_insert_ne by done. by left.
  - split.
    + vw. cbn [vclear]. f_equal; [exact Hr | exact E3 | | |..];
        try (repeat first [rewrite fn_lookup_insert | rewrite fn_lookup_insert_ne by done]; reflexivity).
      * rewrite (wk_other _ _ _ _ W3) by done. exact E2.
      * rewrite (wk_other _ _ _ _ W3) by done. cbn. rewrite (wk_other _ _ _ _ W2) by done. exact E1.
    + other_view Hother.
  - pose proof (wk_ids _ _ _ _ W1) as H1. pose proof (wk_ids _ _ _ _ W2) as H2. pose proof (wk_ids _ _ _ _ W3) as H3.
    unfold same_ids in *. cbn in *. congruence.
  - cbn. rewrite (wk_harts _ _ _ _ W3). cbn. rewrite (wk_harts _ _ _ _ W2). apply (wk_harts _ _ _ _ W1).
Qed.

(** ** The tables *)

(** What the management of a table relies on. *)
Class LockTable (ob : nat → obj) (sp : nat → spin_ref) (rf : os → nat → Z) (sref : nat → Z → os → os)
    (destr : nat → OM unit) : Prop := {
  tb_ref s i : rf s i = oref (view s (ob i));
  tb_set s i r : changes (ob i) (vref r (view s (ob i))) s (sref i r s);
  tb_rest s i r : sch (sref i r s) = sch s ∧ spins (sref i r s) = spins s;
  tb_destr i : destr_ok (destr i) (ob i);
}.

#[export] Instance mutex_table :
  LockTable OMutex (fun i => SpMutex (MLock i)) mlock_ref set_mlock_ref (fun i => mutex_destruct (MLock i)).
Proof. split; [done | intros s i r; split; [by vw | other_view tt] | done | apply mutex_destruct_ok]. Qed.
#[export] Instance barrier_table : LockTable OBarrier SpBarrier barrier_ref set_barrier_ref barrier_destruct.
Proof. split; [done | intros s i r; split; [by vw | other_view tt] | done | apply barrier_destruct_ok]. Qed.
#[export] Instance cond_table :
  LockTable OCond (fun i => SpCond (CCond i)) cond_ref set_cond_ref (fun i => condition_destruct (CCond i)).
Proof. split; [done | intros s i r; split; [by vw | other_view tt] | done | apply condition_destruct_ok]. Qed.
#[export] Instance sema_table : LockTable OSema SpSema sema_ref set_sema_ref semaphore_destruct.
Proof. split; [done | intros s i r; split; [by vw | other_view tt] | done | apply semaphore_destruct_ok]. Qed.
#[export] Instance mbox_table : LockTable OMbox SpMbox mbox_ref set_mbox_ref mailbox_destruct.
Proof. split; [done | intros s i r; split; [by vw | other_view tt] | done | apply mailbox_destruct_ok]. Qed.

(** What cleaning up for process [p] does to an object. *)
Definition vclean (p : nat) (v : oview) : oview :=
  if has_bit (oref v) p then
    if clear_bit (oref v) p =? 0 then vclear v else vref (clear_bit (oref v) p) v
  else v.

Lemma has_bit_0 p : has_bit 0 p = false.
Proof. done. Qed.

Lemma view_ok_clean p v : view_ok v → view_ok (vclean p v).
Proof.
  intros Hv. unfold vclean. destruct (has_bit _ _) eqn:Hb; [|done]. destruct (Z.eqb_spec (clear_bit (oref v) p) 0) as [E|E].
  - apply view_ok_clear.
  - apply view_ok_ref; [done | | done]. intros E0. rewrite E0 in Hb. done.
Qed.

Lemma has_bit_testbit m p : has_bit m p = Z.testbit m (Z.of_nat p).
Proof.
  unfold has_bit, bit. rewrite Z.shiftl_1_l. apply eq_true_iff_eq. rewrite negb_true_iff, Z.eqb_neq. split.
  - intros Hne. destruct (Z.testbit m (Z.of_nat p)) eqn:E; [done|]. exfalso. apply Hne. apply Z.bits_inj_0. intros k.
    rewrite Z.land_spec, Z.pow2_bits_eqb by lia. destruct (Z.eqb_spec (Z.of_nat p) k) as [<-|]; [by rewrite E | by rewrite andb_false_r].
  - intros E E0. assert (Z.testbit (Z.land m (2 ^ Z.of_nat p)) (Z.of_nat p) = true) as H.
    { rewrite Z.land_spec, E, Z.pow2_bits_true by lia. done. }
    by rewrite E0, Z.bits_0 in H.
Qed.

Lemma has_bit_clear m p : (p < 64)%nat → has_bit (clear_bit m p) p = false.
Proof.
  intros Hp. rewrite has_bit_testbit. unfold clear_bit, bit. rewrite Z.shiftl_1_l, Z.land_spec, Z.lxor_spec, Z.pow2_bits_true by lia.
  change (2 ^ 64 - 1) with (Z.ones 64). rewrite Z.ones_spec_low by lia. by rewrite andb_false_r.
Qed.

Lemma vclean_bit p v : (p < 64)%nat → has_bit (oref (vclean p v)) p = false.
Proof.
  intros Hp. unfold vclean. destruct (has_bit (oref v) p) eqn:E; [|done]. destruct (_ =? 0).
  - by destruct v.
  - rewrite oref_ref. by apply has_bit_clear.
Qed.

Section Table.
Context `{T : LockTable ob sp rf sref destr}.

(** Clearing the reference word and destroying. *)
Lemma drop_run s i :
  core None (sch s) → view_ok (view s (ob i)) → oref (view s (ob i)) ≠ 0 →
  ∃ s', (modify (sref i 0) ;; destr i) s = Ok (tt, s') ∧ core None (sch s') ∧
    (∀ r, spins s' r = spins s r ∨ spins s' r = UNLOCKED) ∧
    changes (ob i) (vclear (view s (ob i))) s s' ∧ same_ids (sch s) (sch s') ∧ harts (sch s') = harts (sch s).
Proof.
  intros Hc Hv Hr. destruct (tb_rest s i 0) as [E1 E2]. pose proof (tb_set s i 0) as C1. pose proof C1 as [Ev _].
  destruct (tb_destr i (sref i 0 s)) as (s' & R & Hc' & Hs & C2 & Hid & Hh).
  - by rewrite E1.
  - by rewrite Ev, oref_ref.
  - rewrite Ev, olisted_ref. by apply view_ok_listed.
  - exists s'. split_and!; [exact R | done | by rewrite E2 in Hs | | by rewrite E1 in Hid | by rewrite E1 in Hh].
    rewrite Ev, vclear_ref in C2. by eapply changes_trans.
Qed.

Lemma unspin_quiet r s s' :
  (∀ r', spins s r' = UNLOCKED) → core None (sch s') →
  (∀ r', spins s' r' = spins (set_spin r LOCKED s) r' ∨ spins s' r' = UNLOCKED) → quiet (set_spin r UNLOCKED s').
Proof.
  intros Hs Hc H. split; [by apply good_core|]. intros r'. cbn. destruct (decide (r' = r)) as [->|Hne]; [by rewrite fn_lookup_insert|].
  rewrite fn_lookup_insert_ne by done. destruct (H r') as [E|E]; [|done]. rewrite E. cbn. by rewrite fn_lookup_insert_ne.
Qed.

Lemma view_spin r x s o : view (set_spin r x s) o = view s o.
Proof. by destruct o. Qed.
Lemma changes_spin o v r x y s s' : changes o v (set_spin r x s) s' → changes o v s (set_spin r y s').
Proof. intros [E1 E2]. split; [by rewrite view_spin|]. intros o' Hne. rewrite view_spin, E2 by done. apply view_spin. Qed.

Definition destroy_body (i : nat) : OM unit :=
  with_spin (sp i) (r <- gets (fun s => rf s i) ;; if r =? 0 then ret tt else modify (sref i 0) ;; destr i).

Lemma destroy_run s i :
  locks_ok s → ∃ s', destroy_body i s = Ok (tt, s') ∧ quiet s' ∧
    changes (ob i) (if oref (view s (ob i)) =? 0 then view s (ob i) else vclear (view s (ob i))) s s'.
Proof.
  intros [Hq Hv]. pose proof Hq as [Hg Hs]. set (L := set_spin (sp i) LOCKED s).
  assert (rf L i = oref (view s (ob i))) as Er by (rewrite tb_ref; unfold L; by rewrite view_spin).
  destruct (Z.eqb_spec (oref (view s (ob i))) 0) as [E|E].
  - exists (spun (sp i) s). split; [|split; [by apply sim_spun | by apply sim_changes, sim_spun]].
    apply with_spin_run; [apply Hs|]. fold L. unfold gets, bind. by rewrite Er, E.
  - destruct (drop_run L i) as (s' & R & Hc & Hsp & C & _); [by apply good_core | apply (Hv (ob i)) | by rewrite <- Er, tb_ref in E |].
    exists (set_spin (sp i) UNLOCKED s'). split_and!; [| by eapply unspin_quiet |].
    + apply with_spin_run; [apply Hs|]. fold L. unfold gets. unfold bind at 1. rewrite Er, (proj2 (Z.eqb_neq _ 0) E). exact R.
    + unfold L in C. rewrite view_spin in C. by eapply changes_spin.
Qed.

Definition cleanup_body (id : Z) (i : nat) : OM unit :=
  with_spin (sp i) (
    p <- lift (get_pcb_index id) ;;
    r <- gets (fun s => rf s i) ;;
    if has_bit r p then
      modify (sref i (clear_bit r p)) ;;
      if clear_bit r p =? 0 then destr i else ret tt
    else ret tt).

Lemma index_run id p s : find_pcb id (sch s) = Ok (Some p, sch s) → lift (get_pcb_index id) s = Ok (p, s).
Proof.
  intros E. unfold lift, get_pcb_index. rewrite (bind_Ok _ _ _ _ _ E). by destruct s.
Qed.

Lemma cleanup_run id p s i :
  locks_ok s → find_pcb id (sch s) = Ok (Some p, sch s) →
  ∃ s', cleanup_body id i s = Ok (tt, s') ∧ quiet s' ∧ changes (ob i) (vclean p (view s (ob i))) s s' ∧
    same_ids (sch s) (sch s') ∧ harts (sch s') = harts (sch s).
Proof.
  intros [Hq Hv] Hid. pose proof Hq as [Hg Hs]. set (L := set_spin (sp i) LOCKED s). set (v := view s (ob i)).
  assert (rf L i = oref v) as Er by (rewrite tb_ref; unfold L; by rewrite view_spin).
  assert (∀ k : nat → Z → OM unit, (p <- lift (get_pcb_index id) ;; r <- gets (fun s => rf s i) ;; k p r) L = k p (oref v) L) as Hrun.
  { intros k. rewrite (bind_Ok _ _ L p L) by (by apply index_run). unfold gets, bind. by rewrite Er. }
  unfold vclean. destruct (has_bit (oref v) p) eqn:Hb; cycle 1.
  { exists (spun (sp i) s). split; [|split_and!; [by apply sim_spun | by apply sim_changes, sim_spun | done | done]].
    apply with_spin_run; [apply Hs|]. fold L. rewrite Hrun. by rewrite Hb. }
  assert (oref v ≠ 0) as Hne by (intros E; by rewrite E in Hb).
  destruct (Z.eqb_spec (clear_bit (oref v) p) 0) as [E|E].
  - destruct (drop_run L i) as (s' & R & Hc & Hsp & C & Hi & Hh); [by apply good_core | apply (Hv (ob i)) | by rewrite <- Er, tb_ref in Hne |].
    exists (set_spin (sp i) UNLOCKED s'). split_and!; [| by eapply unspin_quiet | | done | done].
    + apply with_spin_run; [apply Hs|]. fold L. rewrite Hrun, Hb, E. exact R.
    + unfold L in C. rewrite view_spin in C. by eapply changes_spin.
  - destruct (tb_rest L i (clear_bit (oref v) p)) as [E1 E2]. pose proof (tb_set L i (clear_bit (oref v) p)) as C.
    exists (set_spin (sp i) UNLOCKED (sref i (clear_bit (oref v) p) L)). split_and!.
    + apply with_spin_run; [apply Hs|]. fold L. rewrite Hrun, Hb. unfold modify. unfold bind. by rewrite (proj2 (Z.eqb_neq _ 0) E).
    + eapply unspin_quiet; [exact Hs | rewrite E1; by apply good_core | rewrite E2; by left].
    + unfold L in C. rewrite view_spin in C. by eapply changes_spin.
    + cbn. by rewrite E1.
    + cbn. by rewrite E1.
Qed.
End Table.

(** ** Cleaning up after a process *)

(** A loop whose body touches one object each time. *)
Lemma for_each_views (ob : nat → obj) (f : oview → oview) (body : nat → OM unit) id p l s :
  (∀ i s, locks_ok s → find_pcb id (sch s) = Ok (Some p, sch s) →
    ∃ s', body i s = Ok (tt, s') ∧ quiet s' ∧ changes (ob i) (f (view s (ob i))) s s' ∧
      same_ids (sch s) (sch s') ∧ harts (sch s') = harts (sch s)) →
  (∀ v, view_ok v → view_ok (f v)) → NoDup (ob <$> l) →
  locks_ok s → find_pcb id (sch s) = Ok (Some p, sch s) →
  ∃ s', for_each l body s = Ok (tt, s') ∧ locks_ok s' ∧ find_pcb id (sch s') = Ok (Some p, sch s') ∧
    (∀ o, view s' o = if decide (o ∈ ob <$> l) then f (view s o) else view s o) ∧
    same_ids (sch s) (sch s') ∧ harts (sch s') = harts (sch s).
Proof.
  intros Hbody Hf. revert s. induction l as [|i l IH]; intros s Hnd Hl Hid.
  - exists s. split_and!; [done | done | done | | done | done]. intros o. by rewrite decide_False by set_solver.
  - rewrite fmap_cons in Hnd. apply NoDup_cons in Hnd as [Hni Hnd].
    destruct (Hbody i s Hl Hid) as (s1 & R1 & Hq1 & [C1 C1'] & Hi1 & Hh1).
    assert (locks_ok s1) as Hl1 by (eapply changes_ok; [done | done | | by split]; apply Hf, Hl).
    pose proof (find_pcb_ids _ _ _ _ Hi1 Hid) as Hid1. destruct (IH s1 Hnd Hl1 Hid1) as (s2 & R2 & Hl2 & Hid2 & V2 & Hi2 & Hh2).
    exists s2. split_and!; [| done | done | | | congruence].
    + cbn. by rewrite (bind_Ok _ _ _ _ _ R1).
    + intros o. rewrite V2, fmap_cons. destruct (decide (o = ob i)) as [->|Hne].
      * rewrite decide_False by done. rewrite decide_True by set_solver. done.
      * rewrite C1' by done. destruct (decide (o ∈ ob <$> l)); [rewrite decide_True by set_solver | rewrite decide_False by set_solver]; done.
    + unfold same_ids in *. congruence.
Qed.

Definition vrelease (id : Z) (v : oview) : oview :=
  match v with
  | VMutex m r w l =>
      if negb (r =? 0) && negb (acquired m =? 0) && (m_pid m =? id) then VMutex (mk_mutex 0 (m_pid m) (m_key m)) r [] l else v
  | v => v
  end.

Lemma view_ok_release id v : view_ok v → view_ok (vrelease id v).
Proof. destruct v; cbn; try done. destruct (_ && _); [|done]. cbn. naive_solver. Qed.

Lemma release_held_run id s i :
  locks_ok s → let body := with_spin (SpMutex (MLock i)) (
    r <- gets (fun s => mlock_ref s i) ;;
    m <- get_mutex (MLock i) ;;
    if negb (r =? 0) && negb (acquired m =? 0) && (m_pid m =? id) then mutex_release (MLock i) else ret tt) in
  ∃ s', body s = Ok (tt, s') ∧ quiet s' ∧ changes (OMutex i) (vrelease id (view s (OMutex i))) s s' ∧
    same_ids (sch s) (sch s') ∧ harts (sch s') = harts (sch s).
Proof.
  intros [Hq Hv] body. pose proof Hq as [Hg Hs]. set (L := set_spin (SpMutex (MLock i)) LOCKED s).
  pose proof (Hv (OMutex i)) as (_ & Hl & _). unfold vrelease, view. unfold body.
  destruct (negb (mlock_ref s i =? 0) && negb (acquired (mutexes s (MLock i)) =? 0) && (m_pid (mutexes s (MLock i)) =? id)) eqn:E.
  - destruct (mutex_release_run None (MLock i) L) as (v & R & W & Ew); [by apply good_core | |].
    { apply Hl. apply andb_true_iff in E as [[E%negb_true_iff _]%andb_true_iff _]. by apply Z.eqb_neq in E. }
    eexists. split.
    { apply with_spin_run; [apply Hs|]. fold L. unfold get_mutex, gets, bind. change (mlock_ref L i) with (mlock_ref s i).
      change (mutexes L (MLock i)) with (mutexes s (MLock i)). rewrite E. exact R. }
    split_and!; [split; [by apply good_core, W | by apply spun_unlocked] | | apply W | apply W].
    split; [vw; f_equal; exact Ew|]. other_view (wk_other _ _ _ _ W).
  - exists (spun (SpMutex (MLock i)) s). split.
    { apply with_spin_run; [apply Hs|]. fold L. unfold get_mutex, gets, bind. change (mlock_ref L i) with (mlock_ref s i).
      change (mutexes L (MLock i)) with (mutexes s (MLock i)). by rewrite E. }
    split_and!; [by apply sim_spun | by apply (sim_changes _ _ (OMutex i)), sim_spun | done | done].
Qed.

Lemma NoDup_table (ob : nat → obj) n : (∀ i j, ob i = ob j → i = j) → NoDup (ob <$> upto n).
Proof. intros H. apply NoDup_fmap_2; [intros i j; apply H | apply NoDup_seq]. Qed.

Lemma elem_table (ob : nat → obj) n i : (∀ i j, ob i = ob j → i = j) → 0 ≤ n → ob i ∈ ob <$> upto n ↔ Z.of_nat i < n.
Proof.
  intros H Hn. rewrite list_elem_of_fmap. unfold upto. split.
  - intros (j & E & Hj). apply H in E as ->. apply elem_of_seq in Hj. lia.
  - intros Hi. exists i. split; [done|]. apply elem_of_seq. lia.
Qed.

(** All tables: [cleanup_proc] up to the process table. *)
Definition in_table (o : obj) : Prop :=
  match o with
  | OMutex i => Z.of_nat i < LOCK_NUM
  | OBarrier i => Z.of_nat i < BARRIER_NUM
  | OCond i => Z.of_nat i < CONDITION_NUM
  | OSema i => Z.of_nat i < SEMAPHORE_NUM
  | OMbox i => Z.of_nat i < MBOX_NUM
  end.

Lemma cleanup_locks_run id p s :
  locks_ok s → find_pcb id (sch s) = Ok (Some p, sch s) →
  ∃ s', cleanup_locks id s = Ok (tt, s') ∧ locks_ok s' ∧ find_pcb id (sch s') = Ok (Some p, sch s') ∧
    (∀ o, in_table o → view s' o = vclean p (vrelease id (view s o))) ∧ (∀ o, ¬ in_table o → view s' o = view s o) ∧
    same_ids (sch s) (sch s') ∧ harts (sch s') = harts (sch s).
Proof.
  intros Hl Hid. unfold cleanup_locks, cleanup_mutexes.
  destruct (for_each_views OMutex (vrelease id) _ id p (upto LOCK_NUM) s (fun i s Hl _ => release_held_run id s i Hl)
    (view_ok_release id) ltac:(apply NoDup_table; congruence) Hl Hid) as (s0 & R0 & Hl0 & Hid0 & V0 & Hi0 & Hh0).
  destruct (for_each_views OMutex (vclean p) (cleanup_body (sp := fun i => SpMutex (MLock i)) (rf := mlock_ref) (sref := set_mlock_ref)
    (destr := fun i => mutex_destruct (MLock i)) id) id p (upto LOCK_NUM) s0) as (s1 & R1 & Hl1 & Hid1 & V1 & Hi1 & Hh1);
    [intros; by apply cleanup_run | by apply view_ok_clean | apply NoDup_table; congruence | done | done |].
  destruct (for_each_views OBarrier (vclean p) (cleanup_body (sp := SpBarrier) (rf := barrier_ref) (sref := set_barrier_ref)
    (destr := barrier_destruct) id) id p (upto BARRIER_NUM) s1) as (s2 & R2 & Hl2 & Hid2 & V2 & Hi2 & Hh2);
    [intros; by apply cleanup_run | by apply view_ok_clean | apply NoDup_table; congruence | done | done |].
  destruct (for_each_views OCond (vclean p) (cleanup_body (sp := fun i => SpCond (CCond i)) (rf := cond_ref) (sref := set_cond_ref)
    (destr := fun i => condition_destruct (CCond i)) id) id p (upto CONDITION_NUM) s2) as (s3 & R3 & Hl3 & Hid3 & V3 & Hi3 & Hh3);
    [intros; by apply cleanup_run | by apply view_ok_clean | apply NoDup_table; congruence | done | done |].
  destruct (for_each_views OSema (vclean p) (cleanup_body (sp := SpSema) (rf := sema_ref) (sref := set_sema_ref)
    (destr := semaphore_destruct) id) id p (upto SEMAPHORE_NUM) s3) as (s4 & R4 & Hl4 & Hid4 & V4 & Hi4 & Hh4);
    [intros; by apply cleanup_run | by apply view_ok_clean | apply NoDup_table; congruence | done | done |].
  destruct (for_each_views OMbox (vclean p) (cleanup_body (sp := SpMbox) (rf := mbox_ref) (sref := set_mbox_ref)
    (destr := mailbox_destruct) id) id p (upto MBOX_NUM) s4) as (s5 & R5 & Hl5 & Hid5 & V5 & Hi5 & Hh5);
    [intros; by apply cleanup_run | by apply view_ok_clean | apply NoDup_table; congruence | done | done |].
  exists s5. split_and!; [| done | done | | | unfold same_ids in *; congruence | congruence].
  - rewrite (bind_Ok _ _ s tt s1) by (by rewrite (bind_Ok _ _ _ _ _ R0)).
    rewrite (bind_Ok _ _ s1 tt s2), (bind_Ok _ _ s2 tt s3), (bind_Ok _ _ s3 tt s4) by done. exact R5.
  - intros o Ho. rewrite V5, V4, V3, V2, V1, V0. cbn in Ho.
    assert (∀ (q : nat → obj) n A (a b : A), (∀ i, q i ≠ o) → (if decide (o ∈ q <$> upto n) then a else b) = b) as Hskip.
    { intros q n A a b Hq. apply decide_False. intros (j & -> & _)%list_elem_of_fmap. by apply (Hq j). }
    assert (∀ (q : nat → obj) n i A (a b : A), (∀ i j, q i = q j → i = j) → 0 ≤ n → o = q i → Z.of_nat i < n →
      (if decide (o ∈ q <$> upto n) then a else b) = a) as Hhit.
    { intros q n i A a b Hq Hn -> Hi. apply decide_True. by apply elem_table. }
    destruct o as [i|i|i|i|i]; cbn in Ho;
      repeat first [rewrite Hskip by (intros; discriminate) |
        rewrite (Hhit _ _ i) by (try done; try lia; intros; congruence)]; done.
  - intros o Ho. rewrite V5, V4, V3, V2, V1, V0.
    assert (∀ (q : nat → obj) n A (a b : A), (∀ i, q i = o → n ≤ Z.of_nat i) → 0 ≤ n → (if decide (o ∈ q <$> upto n) then a else b) = b) as Hskip.
    { intros q n A a b Hq Hn. apply decide_False. intros (j & -> & Hj)%list_elem_of_fmap. specialize (Hq j eq_refl).
      unfold upto in Hj. apply elem_of_seq in Hj. lia. }
    destruct o as [i|i|i|i|i]; cbn in Ho; rewrite !Hskip by (try done; intros j [= <-]; lia); done.
Qed.
