(* ===== verification/LockCreate.v ===== *)
(** * Locks: finding and creating objects

    The [do_..._init] calls look for an object with the key, take the first
    free one if there is none, and add the caller's bit. *)

From S2P Require Import Prelude CString Sched SchedProofs SchedTheorems Locks LockProofs LockOps LockTable.

Definition same_procs (v v' : sched) : Prop := pcb_all v' = pcb_all v ∧ harts v' = harts v.

Definition vif (b : bool) (f : oview → oview) (v : oview) : oview := if b then f v else v.

Lemma changes_same o s s' : changes o (view s o) s s' → ∀ o', view s' o' = view s o'.
Proof. intros [E1 E2] o'. destruct (decide (o' = o)) as [->|]; [done | by apply E2]. Qed.

(** A search whose body looks at one object and changes it when it is the one. *)
Lemma find_each_run (ob : nat → obj) (P : oview → bool) (f : oview → oview) (body : nat → OM bool) l s :
  (∀ i s, locks_ok s → ∃ s', body i s = Ok (P (view s (ob i)), s') ∧ quiet s' ∧ same_procs (sch s) (sch s') ∧
    changes (ob i) (vif (P (view s (ob i))) f (view s (ob i))) s s') →
  locks_ok s →
  ∃ s', quiet s' ∧ same_procs (sch s) (sch s') ∧
    match find (fun i => P (view s (ob i))) l with
    | Some i => find_each l body s = Ok (Z.of_nat i, s') ∧ changes (ob i) (f (view s (ob i))) s s'
    | None => find_each l body s = Ok (-1, s') ∧ ∀ o, view s' o = view s o
    end.
Proof.
  intros Hbody. revert s. induction l as [|i l IH]; intros s Hl.
  - exists s. split; [apply Hl | done].
  - destruct (Hbody i s Hl) as (s1 & R1 & Hq1 & Hp1 & C1). cbn [find find_each]. rewrite (bind_Ok _ _ _ _ _ R1).
    destruct (P (view s (ob i))) eqn:E; cbn [vif] in C1.
    + exists s1. done.
    + pose proof (changes_same _ _ _ C1) as Hsame.
      assert (locks_ok s1) as Hl1 by (split; [done|]; intros o; rewrite Hsame; apply Hl).
      destruct (IH s1 Hl1) as (s2 & Hq2 & Hp2 & H2). exists s2. split; [done|].
      split; [unfold same_procs in *; intuition congruence|].
      assert (find (fun i => P (view s1 (ob i))) l = find (fun i => P (view s (ob i))) l) as Ef.
      { clear -Hsame. induction l as [|j l IH]; [done|]. cbn. rewrite Hsame. by rewrite IH. }
      rewrite Ef in H2. destruct (find _ l) as [j|].
      * destruct H2 as [R2 [E1 E2]]. split; [done|]. rewrite Hsame in E1. split; [done|]. intros o Ho. rewrite E2 by done. apply Hsame.
      * destruct H2 as [R2 E2]. split; [done|]. intros o. rewrite E2. apply Hsame.
Qed.

Definition is_free (v : oview) : bool := oref v =? 0.
Definition add_bit (p : nat) (v : oview) : oview := vref (Z.lor (oref v) (bit p)) v.

(** The object a creating call settles on, and what it looks like before the bit. *)
Definition settled (ob : nat → obj) (matches : oview → bool) (touch fresh : oview → oview) (n : Z) (s : os) : option (nat * oview) :=
  match find (fun i => matches (view s (ob i))) (upto n) with
  | Some i => Some (i, touch (view s (ob i)))
  | None =>
      match find (fun i => is_free (view s (ob i))) (upto n) with
      | Some i => Some (i, fresh (view s (ob i)))
      | None => None
      end
  end.

Lemma search_run ob P touch fresh found make n s i v :
  (∀ i s, locks_ok s → ∃ s', found i s = Ok (P (view s (ob i)), s') ∧ quiet s' ∧ same_procs (sch s) (sch s') ∧
    changes (ob i) (vif (P (view s (ob i))) touch (view s (ob i))) s s') →
  (∀ i s, locks_ok s → ∃ s', make i s = Ok (is_free (view s (ob i)), s') ∧ quiet s' ∧ same_procs (sch s) (sch s') ∧
    changes (ob i) (vif (is_free (view s (ob i))) fresh (view s (ob i))) s s') →
  locks_ok s → settled ob P touch fresh n s = Some (i, v) →
  ∃ s1, (id <- find_each (upto n) found ;; or_else id (find_each (upto n) make)) s = Ok (Z.of_nat i, s1) ∧
    quiet s1 ∧ same_procs (sch s) (sch s1) ∧ changes (ob i) v s s1.
Proof.
  intros Hf Hm Hl E. unfold settled in E. destruct (find_each_run ob P touch found (upto n) s Hf Hl) as (s1 & Hq1 & Hp1 & H1).
  destruct (find _ (upto n)) as [j|] eqn:Ej.
  - injection E as <- <-. destruct H1 as [R1 C1]. exists s1. split_and!; [| done | done | done].
    rewrite (bind_Ok _ _ _ _ _ R1). unfold or_else. by rewrite (proj2 (Z.eqb_neq (Z.of_nat j) (-1))) by lia.
  - destruct H1 as [R1 V1]. assert (locks_ok s1) as Hl1 by (split; [done|]; intros o; rewrite V1; apply Hl).
    destruct (find_each_run ob is_free fresh make (upto n) s1 Hm Hl1) as (s2 & Hq2 & Hp2 & H2).
    assert (∀ l, find (fun i => is_free (view s1 (ob i))) l = find (fun i => is_free (view s (ob i))) l) as Ef.
    { intros l. induction l as [|k l IH]; [done|]. cbn. by rewrite V1, IH. }
    rewrite Ef in H2. destruct (find (fun i => is_free _) (upto n)) as [k|]; [|done]. injection E as <- <-.
    destruct H2 as [R2 [C2 C2']]. exists s2. split_and!; [| done | unfold same_procs in *; intuition congruence |].
    + rewrite (bind_Ok _ _ _ _ _ R1). exact R2.
    + rewrite V1 in C2. split; [done|]. intros o Ho. rewrite C2' by done. apply V1.
Qed.

(** Adding the bit. *)
Lemma add_bit_run `{T : LockTable ob sp rf sref destr} s s1 i v p :
  quiet s1 → changes (ob i) v s s1 →
  let s' := sref i (Z.lor (rf s1 i) (bit p)) s1 in
  quiet s' ∧ changes (ob i) (add_bit p v) s s' ∧ sch s' = sch s1.
Proof.
  intros Hq C s'. destruct (tb_rest s1 i (Z.lor (rf s1 i) (bit p))) as [E1 E2]. split_and!; [| | exact E1].
  - destruct Hq as [Hg Hs]. unfold s'. split; [by rewrite E1 | by rewrite E2].
  - pose proof (tb_set s1 i (Z.lor (rf s1 i) (bit p))) as C2. rewrite tb_ref in C2. pose proof C as [Ev _]. rewrite Ev in C2.
    unfold add_bit, s'. rewrite tb_ref, Ev. by eapply changes_trans.
Qed.

Lemma bit_nonzero r p : Z.lor r (bit p) ≠ 0.
Proof.
  intros E. assert (Z.testbit (Z.lor r (bit p)) (Z.of_nat p) = true) as H.
  { rewrite Z.lor_spec. unfold bit. rewrite Z.shiftl_1_l, Z.pow2_bits_true by lia. apply orb_true_r. }
  by rewrite E, Z.bits_0 in H.
Qed.

Lemma has_bit_added p v : has_bit (oref (add_bit p v)) p = true.
Proof.
  unfold add_bit. rewrite oref_ref, has_bit_testbit, Z.lor_spec. unfold bit. rewrite Z.shiftl_1_l, Z.pow2_bits_true by lia. apply orb_true_r.
Qed.

(** ** Initialising a list that is empty *)
Lemma reset_good v q : sched_good v → queue v q = [] → sched_good (set_queue q [] v).
Proof.
  intros [Hi Hr Hp] Eq. split; [|by destruct Hr; split | done].
  assert (∀ q', queue (set_queue q [] v) q' = queue v q') as Hq.
  { intros q'. cbn. destruct (decide (q' = q)) as [->|]; [by rewrite fn_lookup_insert | by rewrite fn_lookup_insert_ne]. }
  destruct Hi. split; try done.
  - by apply linked_reset.
  - intros p x Hex Hx. specialize (si_fits p x Hex Hx). unfold pcb_fits in *. cbn [harts set_queue]. rewrite Hq. done.
Qed.

Lemma init_list_run q s : init_list q s = Ok (tt, set_list q true (set_sch (set_queue q [] (sch s)) s)).
Proof. done. Qed.

(** A search body that only looks. *)
Lemma look_run r o (body : OM bool) b s :
  quiet s → body (set_spin r LOCKED s) = Ok (b, set_spin r LOCKED s) →
  ∃ s', with_spin r body s = Ok (b, s') ∧ quiet s' ∧ same_procs (sch s) (sch s') ∧ changes o (vif b id (view s o)) s s'.
Proof.
  intros Hq R. exists (spun r s). split_and!; [| by apply sim_spun | done |].
  - apply with_spin_run; [apply Hq | exact R].
  - destruct b; by apply sim_changes, sim_spun.
Qed.

(** A creating body on an object that is in use. *)
Lemma busy_run r o f (body : OM bool) s :
  quiet s → body (set_spin r LOCKED s) = Ok (false, set_spin r LOCKED s) → is_free (view s o) = false →
  ∃ s', with_spin r body s = Ok (is_free (view s o), s') ∧ quiet s' ∧ same_procs (sch s) (sch s') ∧
    changes o (vif (is_free (view s o)) f (view s o)) s s'.
Proof. intros Hq R E. rewrite E. destruct (look_run r o body false s Hq R) as (s' & ?). by exists s'. Qed.

(** The state after an initialised lock: every spin word is free again. *)
Lemma spins_reinit (r r2 : spin_ref) (f : spin_ref → lock_status_t) :
  (∀ r', f r' = UNLOCKED) → ∀ r', <[r := UNLOCKED]> (<[r2 := UNLOCKED]> (<[r := LOCKED]> f)) r' = UNLOCKED.
Proof.
  intros H r'. destruct (decide (r' = r)) as [->|]; [by rewrite fn_lookup_insert|]. rewrite fn_lookup_insert_ne by done.
  destruct (decide (r' = r2)) as [->|]; [by rewrite fn_lookup_insert|]. by rewrite !fn_lookup_insert_ne.
Qed.

Lemma queue_reset v q q' : queue v q = [] → queue (set_queue q [] v) q' = queue v q'.
Proof. intros E. cbn. destruct (decide (q' = q)) as [->|]; [by rewrite fn_lookup_insert | by rewrite fn_lookup_insert_ne]. Qed.

(** ** The five kinds *)
Definition key_matches (key : Z) (v : oview) : bool :=
  match v with
  | VMutex m r _ _ => negb (r =? 0) && (m_key m =? key)
  | VBarrier b r _ _ => negb (r =? 0) && (b_key b =? key)
  | VCond k r _ _ => negb (r =? 0) && (k =? key)
  | VSema m r _ _ => negb (r =? 0) && (s_key m =? key)
  | _ => false
  end.
Definition fresh_mutex (key : Z) (_ : oview) : oview := VMutex (mk_mutex 0 (-1) key) 0 [] true.
Definition fresh_barrier (g : Z) (v : oview) : oview :=
  match v with VBarrier b _ _ _ => VBarrier (mk_barrier (b_key b) g 0) 0 [] true | v => v end.
Definition fresh_cond (key : Z) (_ : oview) : oview := VCond key 0 [] true.
Definition fresh_sema (key init : Z) (_ : oview) : oview := VSema (mk_sema key init) 1 [] true.

Lemma make_mutex_run key i s :
  locks_ok s → ∃ s', with_spin (SpMutex (MLock i)) (
    r <- gets (fun s => mlock_ref s i) ;;
    if r =? 0 then
      mutex_init (MLock i) ;; m <- get_mutex (MLock i) ;;
      modify (set_mutex (MLock i) (mk_mutex (acquired m) (m_pid m) key)) ;; ret true
    else ret false) s = Ok (is_free (view s (OMutex i)), s') ∧ quiet s' ∧ same_procs (sch s) (sch s') ∧
    changes (OMutex i) (vif (is_free (view s (OMutex i))) (fresh_mutex key) (view s (OMutex i))) s s'.
Proof.
  intros [Hq Hv]. pose proof Hq as [Hg Hs]. pose proof (Hv (OMutex i)) as (Hw & _).
  unfold is_free, view, oref. destruct (Z.eqb_spec (mlock_ref s i) 0) as [E|E]; cycle 1.
  { destruct (look_run (SpMutex (MLock i)) (OMutex i) (r <- gets (fun s => mlock_ref s i) ;;
      if r =? 0 then mutex_init (MLock i) ;; m <- get_mutex (MLock i) ;;
        modify (set_mutex (MLock i) (mk_mutex (acquired m) (m_pid m) key)) ;; ret true else ret false) false s Hq) as (s' & H).
    { unfold gets, bind. cbn [mlock_ref set_spin]. by rewrite (proj2 (Z.eqb_neq _ 0) E). }
    by exists s'. }
  eexists. split; [|split_and!].
  - apply with_spin_run; [apply Hs|]. unfold gets. unfold bind at 1. cbn [mlock_ref set_spin]. rewrite E. reflexivity.
  - split; [apply (reset_good (sch s)); [done | by apply Hw]|]. cbn. by apply spins_reinit.
  - done.
  - split.
    + cbn [vif]. vw. unfold fresh_mutex. f_equal; [exact E|]. rewrite (queue_reset (sch s) (QMutex i)); by apply Hw.
    + other_view (fun q' => queue_reset (sch s) (QMutex i) q' (Hw E)).
Qed.

Ltac busy Hq E := match goal with |- ∃ s', with_spin ?r ?body ?s = Ok (_, s') ∧ _ ∧ _ ∧ changes ?o _ _ _ =>
  destruct (look_run r o body false s Hq) as (s' & H);
    [unfold gets; unfold bind at 1; cbn [sch set_spin mlock_ref barrier_ref cond_ref sema_ref mbox_ref];
     by rewrite (proj2 (Z.eqb_neq _ 0) E) | by exists s'] end.

Lemma make_barrier_run g i s :
  locks_ok s → ∃ s', with_spin (SpBarrier i) (
    r <- gets (fun s => barrier_ref s i) ;;
    if r =? 0 then
      barrier_init i ;; b <- get_barrier i ;;
      modify (set_barrier i (mk_barrier (b_key b) g (current b))) ;; ret true
    else ret false) s = Ok (is_free (view s (OBarrier i)), s') ∧ quiet s' ∧ same_procs (sch s) (sch s') ∧
    changes (OBarrier i) (vif (is_free (view s (OBarrier i))) (fresh_barrier g) (view s (OBarrier i))) s s'.
Proof.
  intros [Hq Hv]. pose proof Hq as [Hg Hs]. pose proof (Hv (OBarrier i)) as (Hw & _).
  unfold is_free, view, oref. destruct (Z.eqb_spec (barrier_ref s i) 0) as [E|E]; [|busy Hq E].
  eexists. split; [|split_and!].
  - apply with_spin_run; [apply Hs|]. unfold gets. unfold bind at 1. cbn [barrier_ref set_spin]. rewrite E. reflexivity.
  - split; [apply (reset_good (sch s)); [done | by apply Hw]|]. cbn. by apply spins_reinit.
  - done.
  - split.
    + cbn [vif]. vw. unfold fresh_barrier. f_equal; [exact E|].
      rewrite (queue_reset (sch s) (QBarrier i)); by apply Hw.
    + other_view (fun q' => queue_reset (sch s) (QBarrier i) q' (Hw E)).
Qed.

Lemma make_cond_run key i s :
  locks_ok s → ∃ s', with_spin (SpCond (CCond i)) (
    r <- gets (fun s => cond_ref s i) ;;
    if r =? 0 then condition_init (CCond i) ;; modify (set_cond_key (CCond i) key) ;; ret true
    else ret false) s = Ok (is_free (view s (OCond i)), s') ∧ quiet s' ∧ same_procs (sch s) (sch s') ∧
    changes (OCond i) (vif (is_free (view s (OCond i))) (fresh_cond key) (view s (OCond i))) s s'.
Proof.
  intros [Hq Hv]. pose proof Hq as [Hg Hs]. pose proof (Hv (OCond i)) as (Hw & _).
  unfold is_free, view, oref. destruct (Z.eqb_spec (cond_ref s i) 0) as [E|E]; [|busy Hq E].
  eexists. split; [|split_and!].
  - apply with_spin_run; [apply Hs|]. unfold gets. unfold bind at 1. cbn [cond_ref set_spin]. rewrite E. reflexivity.
  - split; [apply (reset_good (sch s)); [done | by apply Hw]|]. cbn. by apply spins_reinit.
  - done.
  - split.
    + cbn [vif]. vw. unfold fresh_cond. f_equal; [exact E|]. rewrite (queue_reset (sch s) (QCond i)); by apply Hw.
    + other_view (fun q' => queue_reset (sch s) (QCond i) q' (Hw E)).
Qed.

Lemma make_sema_run key init i s :
  locks_ok s → ∃ s', with_spin (SpSema i) (
    r <- gets (fun s => sema_ref s i) ;;
    if r =? 0 then
      modify (set_sema_ref i 1) ;; semaphore_init i ;; modify (set_sema i (mk_sema key init)) ;; ret true
    else ret false) s = Ok (is_free (view s (OSema i)), s') ∧ quiet s' ∧ same_procs (sch s) (sch s') ∧
    changes (OSema i) (vif (is_free (view s (OSema i))) (fresh_sema key init) (view s (OSema i))) s s'.
Proof.
  intros [Hq Hv]. pose proof Hq as [Hg Hs]. pose proof (Hv (OSema i)) as (Hw & _).
  unfold is_free, view, oref. destruct (Z.eqb_spec (sema_ref s i) 0) as [E|E]; [|busy Hq E].
  eexists. split; [|split_and!].
  - apply with_spin_run; [apply Hs|]. unfold gets. unfold bind at 1. cbn [sema_ref set_spin]. rewrite E. reflexivity.
  - split; [apply (reset_good (sch s)); [done | by apply Hw]|]. cbn. by apply spins_reinit.
  - done.
  - split.
    + cbn [vif]. vw. unfold fresh_sema. f_equal. rewrite (queue_reset (sch s) (QSema i)); by apply Hw.
    + other_view (fun q' => queue_reset (sch s) (QSema i) q' (Hw E)).
Qed.

(** Looking for a key. *)
Lemma look_mutex_run key i s :
  locks_ok s → ∃ s', with_spin (SpMutex (MLock i)) (
    r <- gets (fun s => mlock_ref s i) ;; m <- get_mutex (MLock i) ;; ret (negb (r =? 0) && (m_key m =? key))) s =
      Ok (key_matches key (view s (OMutex i)), s') ∧ quiet s' ∧ same_procs (sch s) (sch s') ∧
    changes (OMutex i) (vif (key_matches key (view s (OMutex i))) id (view s (OMutex i))) s s'.
Proof. intros [Hq _]. by apply look_run. Qed.
Lemma look_barrier_run key i s :
  locks_ok s → ∃ s', with_spin (SpBarrier i) (
    r <- gets (fun s => barrier_ref s i) ;; b <- get_barrier i ;; ret (negb (r =? 0) && (b_key b =? key))) s =
      Ok (key_matches key (view s (OBarrier i)), s') ∧ quiet s' ∧ same_procs (sch s) (sch s') ∧
    changes (OBarrier i) (vif (key_matches key (view s (OBarrier i))) id (view s (OBarrier i))) s s'.
Proof. intros [Hq _]. by apply look_run. Qed.
Lemma look_cond_run key i s :
  locks_ok s → ∃ s', with_spin (SpCond (CCond i)) (
    r <- gets (fun s => cond_ref s i) ;; k <- gets (fun s => cond_keys s (CCond i)) ;; ret (negb (r =? 0) && (k =? key))) s =
      Ok (key_matches key (view s (OCond i)), s') ∧ quiet s' ∧ same_procs (sch s) (sch s') ∧
    changes (OCond i) (vif (key_matches key (view s (OCond i))) id (view s (OCond i))) s s'.
Proof. intros [Hq _]. by apply look_run. Qed.
Lemma look_sema_run key i s :
  locks_ok s → ∃ s', with_spin (SpSema i) (
    r <- gets (fun s => sema_ref s i) ;; m <- get_sema i ;; ret (negb (r =? 0) && (s_key m =? key))) s =
      Ok (key_matches key (view s (OSema i)), s') ∧ quiet s' ∧ same_procs (sch s) (sch s') ∧
    changes (OSema i) (vif (key_matches key (view s (OSema i))) id (view s (OSema i))) s s'.
Proof. intros [Hq _]. by apply look_run. Qed.

(** ** The calls *)
Lemma procs_ids v v' : same_procs v v' → same_ids v v'.
Proof. intros [E _]. unfold same_ids. by rewrite E. Qed.

(** The caller: its process, its pid, and the slot the pid leads to. *)
Definition caller (h : nat) (x : pcb_t) (p : nat) (v : sched) : Prop :=
  ∃ c, harts v !! h = Some c ∧ pcb_all v !! c = Some x ∧ find_pcb (pid x) v = Ok (Some p, v).

Lemma caller_procs h x p v v' : same_procs v v' → caller h x p v → caller h x p v'.
Proof.
  intros Hp (c & Hc & Hx & Hf). exists c. pose proof (find_pcb_ids _ _ _ _ (procs_ids _ _ Hp) Hf).
  destruct Hp as [-> ->]. done.
Qed.

Lemma caller_run h x p s {A} (k : nat → OM A) :
  caller h x p (sch s) → (me <- self_pid h ;; p <- lift (get_pcb_index me) ;; k p) s = k p s.
Proof.
  intros (c & Hc & Hx & Hf). rewrite (bind_Ok _ _ _ _ _ (self_pid_run h c x s Hc Hx)). by rewrite (bind_Ok _ _ _ _ _ (index_run _ _ _ Hf)).
Qed.

Lemma nonneg_assert i {S} (s : S) : asserts (Z.of_nat i >=? 0) "assertion failed" s = Ok (tt, s).
Proof. apply asserts_true. rewrite Z.geb_leb. apply Z.leb_le. lia. Qed.

Section Calls.
Context (h : nat) (x : pcb_t) (p i : nat) (v : oview) (s : os).
Hypothesis Hl : locks_ok s.
Hypothesis Hc : caller h x p (sch s).

Lemma mutex_init_spec key :
  settled OMutex (key_matches key) id (fresh_mutex key) LOCK_NUM s = Some (i, v) →
  ∃ s', do_mutex_lock_init h key s = Ok (Z.of_nat i, s') ∧ quiet s' ∧ same_procs (sch s) (sch s') ∧
    changes (OMutex i) (add_bit p v) s s'.
Proof.
  intros E. destruct (search_run OMutex (key_matches key) id (fresh_mutex key) _ _ LOCK_NUM s i v
    (fun i s => look_mutex_run key i s) (fun i s => make_mutex_run key i s) Hl E) as (s1 & R & Hq & Hp & C).
  destruct (add_bit_run s s1 i v p Hq C) as (Hq' & C' & Es). eexists. split; [|split_and!; [exact Hq' | by rewrite Es | exact C']].
  unfold do_mutex_lock_init. rewrite (caller_run h x p s _ Hc), bind_assoc, (bind_Ok _ _ _ _ _ R), (bind_Ok _ _ _ _ _ (nonneg_assert i s1)).
  unfold modify, bind, ret. by rewrite Nat2Z.id.
Qed.

Lemma barrier_init_spec key g :
  settled OBarrier (key_matches key) id (fresh_barrier g) BARRIER_NUM s = Some (i, v) →
  ∃ s', do_barrier_init h key g s = Ok (Z.of_nat i, s') ∧ quiet s' ∧ same_procs (sch s) (sch s') ∧
    changes (OBarrier i) (add_bit p v) s s'.
Proof.
  intros E. destruct (search_run OBarrier (key_matches key) id (fresh_barrier g) _ _ BARRIER_NUM s i v
    (fun i s => look_barrier_run key i s) (fun i s => make_barrier_run g i s) Hl E) as (s1 & R & Hq & Hp & C).
  destruct (add_bit_run s s1 i v p Hq C) as (Hq' & C' & Es). eexists. split; [|split_and!; [exact Hq' | by rewrite Es | exact C']].
  unfold do_barrier_init. rewrite (caller_run h x p s _ Hc), bind_assoc, (bind_Ok _ _ _ _ _ R), (bind_Ok _ _ _ _ _ (nonneg_assert i s1)).
  unfold modify, bind, ret. by rewrite Nat2Z.id.
Qed.

Lemma condition_init_spec key :
  settled OCond (key_matches key) id (fresh_cond key) CONDITION_NUM s = Some (i, v) →
  ∃ s', do_condition_init h key s = Ok (Z.of_nat i, s') ∧ quiet s' ∧ same_procs (sch s) (sch s') ∧
    changes (OCond i) (add_bit p v) s s'.
Proof.
  intros E. destruct (search_run OCond (key_matches key) id (fresh_cond key) _ _ CONDITION_NUM s i v
    (fun i s => look_cond_run key i s) (fun i s => make_cond_run key i s) Hl E) as (s1 & R & Hq & Hp & C).
  destruct (add_bit_run s s1 i v p Hq C) as (Hq' & C' & Es). eexists. split; [|split_and!; [exact Hq' | by rewrite Es | exact C']].
  unfold do_condition_init. rewrite bind_assoc, (bind_Ok _ _ _ _ _ R), (bind_Ok _ _ _ _ _ (nonneg_assert i s1)).
  rewrite (caller_run h x p s1) by (by eapply caller_procs). unfold modify, bind, ret. by rewrite Nat2Z.id.
Qed.

Lemma semaphore_init_spec key init :
  settled OSema (key_matches key) id (fresh_sema key init) SEMAPHORE_NUM s = Some (i, v) →
  ∃ s', do_semaphore_init h key init s = Ok (Z.of_nat i, s') ∧ quiet s' ∧ same_procs (sch s) (sch s') ∧
    changes (OSema i) (add_bit p v) s s'.
Proof.
  intros E. destruct (search_run OSema (key_matches key) id (fresh_sema key init) _ _ SEMAPHORE_NUM s i v
    (fun i s => look_sema_run key i s) (fun i s => make_sema_run key init i s) Hl E) as (s1 & R & Hq & Hp & C).
  destruct (add_bit_run s s1 i v p Hq C) as (Hq' & C' & Es). eexists. split; [|split_and!; [exact Hq' | by rewrite Es | exact C']].
  unfold do_semaphore_init. rewrite bind_assoc, (bind_Ok _ _ _ _ _ R), (bind_Ok _ _ _ _ _ (nonneg_assert i s1)).
  rewrite (caller_run h x p s1) by (by eapply caller_procs). unfold modify, bind, ret. by rewrite Nat2Z.id.
Qed.
End Calls.

(** ** Mailboxes *)
Definition name_matches (name : list Z) (v : oview) : bool :=
  match v with
  | VMbox m r _ _ _ _ _ _ _ => negb (r =? 0) && bool_decide (upto_nul (name_bytes m) = name)
  | _ => false
  end.
Definition touch_mbox (v : oview) : oview :=
  match v with
  | VMbox m r x wl we wf ll le lf => VMbox (with_nref (i32 (nref m + 1)) m) r x wl we wf ll le lf
  | v => v
  end.
Definition fresh_mbox (name : list Z) (_ : oview) : oview :=
  VMbox (with_nref 1 (copy_name name zero_mbox)) 0 (mk_mutex 0 (-1) (-1)) [] [] [] true true true.

Lemma look_mbox_run name i s :
  locks_ok s → ∃ s', with_spin (SpMbox i) (
    r <- gets (fun s => mbox_ref s i) ;; m <- get_mbox i ;;
    if negb (r =? 0) && bool_decide (upto_nul (name_bytes m) = name) then
      modify (set_mbox i (with_nref (i32 (nref m + 1)) m)) ;; ret true
    else ret false) s = Ok (name_matches name (view s (OMbox i)), s') ∧ quiet s' ∧ same_procs (sch s) (sch s') ∧
    changes (OMbox i) (vif (name_matches name (view s (OMbox i))) touch_mbox (view s (OMbox i))) s s'.
Proof.
  intros [Hq _]. pose proof Hq as [Hg Hs]. unfold name_matches, view.
  destruct (negb (mbox_ref s i =? 0) && bool_decide (upto_nul (name_bytes (mailboxes s i)) = name)) eqn:E.
  - eexists. split; [|split_and!].
    + apply with_spin_run; [apply Hs|]. unfold get_mbox, gets, bind. cbn [mbox_ref mailboxes set_spin]. rewrite E. reflexivity.
    + split; [done | by apply spun_unlocked].
    + done.
    + split; [by vw | other_view E].
  - destruct (look_run (SpMbox i) (OMbox i) (r <- gets (fun s => mbox_ref s i) ;; m <- get_mbox i ;;
      if negb (r =? 0) && bool_decide (upto_nul (name_bytes m) = name) then
        modify (set_mbox i (with_nref (i32 (nref m + 1)) m)) ;; ret true else ret false) false s Hq) as (s' & H).
    { unfold get_mbox, gets, bind. cbn [mbox_ref mailboxes set_spin]. by rewrite E. }
    by exists s'.
Qed.

Lemma make_mbox_run name i s :
  Z.of_nat (length name) < MAX_MBOX_NAME + MAX_MBOX_LENGTH →
  locks_ok s → ∃ s', with_spin (SpMbox i) (
    r <- gets (fun s => mbox_ref s i) ;;
    if r =? 0 then
      mailbox_init i ;;
      m <- get_mbox i ;;
      asserts (Z.of_nat (length name) <? MAX_MBOX_NAME + MAX_MBOX_LENGTH) "fault: strcpy past the mailbox" ;;
      modify (set_mbox i (with_nref (i32 (nref m + 1)) (copy_name name m))) ;;
      ret true
    else ret false) s = Ok (is_free (view s (OMbox i)), s') ∧ quiet s' ∧ same_procs (sch s) (sch s') ∧
    changes (OMbox i) (vif (is_free (view s (OMbox i))) (fresh_mbox name) (view s (OMbox i))) s s'.
Proof.
  intros Hn [Hq Hv]. pose proof Hq as [Hg Hs]. pose proof (Hv (OMbox i)) as (Hx & Hwl & Hw & _).
  unfold is_free, view, oref. destruct (Z.eqb_spec (mbox_ref s i) 0) as [E|E]; [|busy Hq E].
  destruct (Hw E) as [Hwe Hwf].
  set (v1 := set_queue (QMboxLock i) [] (sch s)). set (v2 := set_queue (QMboxEmpty i) [] v1). set (v3 := set_queue (QMboxFull i) [] v2).
  assert (sched_good v1) as Hg1 by (by apply reset_good).
  assert (∀ q, queue v1 q = queue (sch s) q) as E1 by (intros q; by apply queue_reset).
  assert (sched_good v2) as Hg2 by (apply reset_good; [done | by rewrite E1]).
  assert (∀ q, queue v2 q = queue (sch s) q) as E2 by (intros q; unfold v2; rewrite queue_reset; [apply E1 | by rewrite E1]).
  assert (sched_good v3) as Hg3 by (apply reset_good; [done | by rewrite E2]).
  assert (∀ q, queue v3 q = queue (sch s) q) as E3 by (intros q; unfold v3; rewrite queue_reset; [apply E2 | by rewrite E2]).
  set (L := set_spin (SpMbox i) LOCKED s).
  assert (mailbox_init i L = Ok (tt, set_list (QMboxFull i) true (set_list (QMboxEmpty i) true (set_list (QMboxLock i) true
    (set_spin (SpCond (CFull i)) UNLOCKED (set_spin (SpCond (CEmpty i)) UNLOCKED (set_spin (SpMutex (MBuf i)) UNLOCKED
      (set_sch v3 (set_mutex (MBuf i) (mk_mutex 0 (-1) (-1)) (set_mbox i zero_mbox L)))))))))) as R by reflexivity.
  eexists. split; [|split_and!].
  - apply with_spin_run; [apply Hs|]. fold L. unfold gets. unfold bind at 1. cbn [mbox_ref set_spin]. unfold L at 1. cbn [mbox_ref set_spin].
    rewrite E. cbn [Z.eqb]. rewrite (bind_Ok _ _ _ _ _ R). unfold get_mbox, gets. unfold bind at 1. cbn [mailboxes set_list set_spin set_sch set_mutex set_mbox].
    rewrite fn_lookup_insert. rewrite (bind_Ok _ _ _ _ _ (asserts_true _ _ _ (proj2 (Z.ltb_lt _ _) Hn))). reflexivity.
  - split; [done|]. intros r. cbn. repeat (match goal with |- <[?k := _]> _ _ = _ => destruct (decide (r = k)) as [->|];
      [by rewrite fn_lookup_insert | rewrite fn_lookup_insert_ne by done] end). apply Hs.
  - done.
  - split.
    + cbn [vif]. vw. unfold fresh_mbox. f_equal; try (by rewrite E3); [exact E|..];
        repeat first [rewrite fn_lookup_insert | rewrite fn_lookup_insert_ne by done]; done.
    + other_view E3.
Qed.

Lemma mbox_open_spec h x p i v s name :
  locks_ok s → caller h x p (sch s) → Z.of_nat (length name) < MAX_MBOX_NAME + MAX_MBOX_LENGTH →
  settled OMbox (name_matches name) touch_mbox (fresh_mbox name) MBOX_NUM s = Some (i, v) →
  ∃ s', do_mbox_open h name s = Ok (Z.of_nat i, s') ∧ quiet s' ∧ same_procs (sch s) (sch s') ∧
    changes (OMbox i) (add_bit p v) s s'.
Proof.
  intros Hl Hc Hn E. destruct (search_run OMbox (name_matches name) touch_mbox (fresh_mbox name) _ _ MBOX_NUM s i v
    (fun i s => look_mbox_run name i s) (fun i s => make_mbox_run name i s Hn) Hl E) as (s1 & R & Hq & Hp & C).
  destruct (add_bit_run s s1 i v p Hq C) as (Hq' & C' & Es). eexists. split; [|split_and!; [exact Hq' | by rewrite Es | exact C']].
  unfold do_mbox_open. rewrite bind_assoc, (bind_Ok _ _ _ _ _ R), (bind_Ok _ _ _ _ _ (nonneg_assert i s1)).
  rewrite (caller_run h x p s1) by (by eapply caller_procs). unfold modify, bind, ret. by rewrite Nat2Z.id.
Qed.
