(* ===== verification/Mailbox.v ===== *)
(** * Mailboxes: the ring buffer and whole messages *)

From S2P Require Import Prelude CString Sched SchedProofs SchedTheorems Locks LockProofs LockOps LockTable LockCreate.

(** ** The ring is a bounded queue of bytes *)
Lemma rem_mod a : 0 ≤ a → Z.rem a 256 = a mod 256.
Proof. intros H. by apply Z.rem_mod_nonneg. Qed.

Lemma ring_slot_inj h a b :
  0 ≤ h < MAX_MBOX_LENGTH → 0 ≤ a < MAX_MBOX_LENGTH → 0 ≤ b < MAX_MBOX_LENGTH →
  (h + a) mod MAX_MBOX_LENGTH = (h + b) mod MAX_MBOX_LENGTH → a = b.
Proof.
  unfold MAX_MBOX_LENGTH. intros Hh Ha Hb E.
  pose proof (Z.div_mod (h + a) 256 ltac:(lia)). pose proof (Z.div_mod (h + b) 256 ltac:(lia)).
  pose proof (Z.mod_pos_bound (h + a) 256 ltac:(lia)). nia.
Qed.

Lemma push_ring b m :
  mbox_ring m → used m < MAX_MBOX_LENGTH →
  mbox_ring (push_byte b m) ∧ ring_bytes (push_byte b m) = ring_bytes m ++ [b].
Proof.
  intros [Hlen Hh Hu Ht] Hlt. unfold MAX_MBOX_LENGTH in *. assert (0 ≤ tail m < 256) as Htr by (rewrite Ht; apply Z.mod_pos_bound; lia).
  assert (i32 (used m + 1) = used m + 1) as E32 by (apply i32_id; lia). split.
  - split; cbn [push_byte buffer head used tail]; rewrite ?E32.
    + by rewrite length_insert.
    + done.
    + unfold MAX_MBOX_LENGTH. lia.
    + unfold MAX_MBOX_LENGTH. rewrite rem_mod by lia. rewrite Ht. rewrite Zplus_mod_idemp_l. f_equal. lia.
  - unfold ring_bytes. cbn [push_byte used]. rewrite E32. replace (Z.to_nat (used m + 1)) with (Z.to_nat (used m) + 1)%nat by lia.
    rewrite seq_app, fmap_app. f_equal.
    + apply list_fmap_ext. intros k j Hj. apply lookup_seq in Hj as [-> Hj]. unfold ring_at. cbn [push_byte buffer head].
      unfold MAX_MBOX_LENGTH. rewrite list_lookup_total_insert_ne; [done|]. intros E.
      apply Z2Nat.inj in E; [| lia | apply Z.mod_pos_bound; lia]. rewrite Ht in E. apply (ring_slot_inj (head m)) in E; unfold MAX_MBOX_LENGTH; lia.
    + cbn [Nat.add seq fmap list_fmap]. unfold ring_at. cbn [push_byte buffer head]. unfold MAX_MBOX_LENGTH.
      rewrite Z2Nat.id by lia. rewrite <- Ht.
      rewrite list_lookup_total_insert_eq; [done|]. rewrite Hlen. lia.
Qed.

Lemma pop_ring m :
  mbox_ring m → 0 < used m →
  mbox_ring (snd (pop_byte m)) ∧ ring_bytes m = fst (pop_byte m) :: ring_bytes (snd (pop_byte m)).
Proof.
  intros [Hlen Hh Hu Ht] Hlt. unfold MAX_MBOX_LENGTH in *. assert (i32 (used m - 1) = used m - 1) as E32 by (apply i32_id; lia).
  assert (∀ k, Z.to_nat ((head m + Z.of_nat (S k)) mod 256) = Z.to_nat ((Z.rem (head m + 1) 256 + Z.of_nat k) mod 256)) as Hshift.
  { intros k. rewrite (rem_mod (head m + 1)) by lia. rewrite Zplus_mod_idemp_l. do 2 f_equal. lia. }
  split.
  - split; cbn [pop_byte snd buffer head used tail]; rewrite ?E32; unfold MAX_MBOX_LENGTH.
    + done.
    + rewrite (rem_mod (head m + 1)) by lia. apply Z.mod_pos_bound. unfold MAX_MBOX_LENGTH. lia.
    + lia.
    + rewrite Ht, (rem_mod (head m + 1)) by lia. unfold MAX_MBOX_LENGTH. rewrite Zplus_mod_idemp_l. f_equal. lia.
  - unfold ring_bytes. cbn [pop_byte fst snd used]. rewrite E32.
    replace (Z.to_nat (used m)) with (S (Z.to_nat (used m - 1))) by lia. cbn [seq fmap list_fmap]. f_equal.
    + unfold ring_at. rewrite Z.add_0_r. unfold MAX_MBOX_LENGTH. rewrite Z.mod_small by lia.
      rewrite list_lookup_total_alt. destruct (buffer m !! Z.to_nat (head m)) eqn:E; [done|]. apply lookup_ge_None in E. lia.
    + rewrite <- fmap_S_seq, <- list_fmap_compose. apply list_fmap_ext. intros k j _. cbn. unfold ring_at. cbn [buffer head].
      unfold MAX_MBOX_LENGTH. by rewrite Hshift.
Qed.

(** ** One turn of the loops *)

(** What a mailbox call sees and leaves: the mailbox, its reference word and
    the processes waiting for bytes and for room. *)
Record mbox_state (s : os) (i : nat) (m : mailbox_t) (we wf : list nat) : Prop := {
  ms_mbox : mailboxes s i = m;
  ms_ref : mbox_ref s i ≠ 0;
  ms_empty : wq s (QMboxEmpty i) = we;
  ms_full : wq s (QMboxFull i) = wf;
}.
(** Everything else is as in [s0]. *)
Definition only_mbox (i : nat) (s0 s : os) : Prop :=
  mbox_ref s i = mbox_ref s0 i ∧ ∀ o, o ≠ OMbox i → view s o = view s0 o.

Lemma only_trans i s1 s2 s3 : only_mbox i s1 s2 → only_mbox i s2 s3 → only_mbox i s1 s3.
Proof. intros [E1 H1] [E2 H2]. split; [congruence|]. intros o Ho. by rewrite H2, H1. Qed.

Lemma mbox_lists s i : locks_ok s → mbox_ref s i ≠ 0 →
  acquired (mutexes s (MBuf i)) = 0 ∧ wq s (QMboxLock i) = [] ∧ lists s (QMboxLock i) = true ∧
  lists s (QMboxEmpty i) = true ∧ lists s (QMboxFull i) = true ∧ mbox_ring (mailboxes s i).
Proof. intros [_ Hv] Hr. destruct (Hv (OMbox i)) as (H1 & H2 & _ & H4). destruct (H4 Hr) as (?&?&?&?). done. Qed.

Lemma mbox_ok s s' i we wf :
  locks_ok s → quiet s' → mbox_state s' i (mailboxes s' i) we wf → only_mbox i s s' → mbox_ring (mailboxes s' i) →
  acquired (mutexes s' (MBuf i)) = 0 → wq s' (QMboxLock i) = [] → lists s' (QMboxLock i) = true →
  lists s' (QMboxEmpty i) = true → lists s' (QMboxFull i) = true → locks_ok s'.
Proof.
  intros Hl Hq Hm [E Ho] Hr H1 H2 H3 H4 H5. split; [done|]. intros o. destruct (decide (o = OMbox i)) as [->|Hne].
  - cbn. split_and!; [done | done | by intros ?%(ms_ref _ _ _ _ _ Hm) | done].
  - rewrite Ho by done. apply Hl.
Qed.

(** The buffer lock is free whenever a call reaches it. *)
Lemma mbox_enter h now i s c x :
  locks_ok s → user_on h c x (sch s) → mbox_ref s i ≠ 0 →
  ∃ s1, mutex_acquire h now (MBuf i) s = Ok (true, s1) ∧ quiet s1 ∧ sch s1 = sch s ∧ mailboxes s1 = mailboxes s ∧
    mbox_ref s1 = mbox_ref s ∧ lists s1 = lists s ∧ (∀ o, o ≠ OMbox i → view s1 o = view s o).
Proof.
  intros Hl Hu Hr. destruct (mbox_lists s i Hl Hr) as (Ha & _). pose proof Hl as [Hq _]. pose proof Hu as (Hc & _ & Hx & _).
  eexists. split; [by apply (acquire_free h now _ s c x)|]. destruct Hq as [Hg Hs].
  split_and!; [split; [done | by apply spun_unlocked] | done | done | done | done |].
  other_view Ha.
Qed.

Definition waiters (q : cref) (i : nat) (we wf : list nat) : list nat :=
  match q with CEmpty _ => we | _ => wf end.

(** Moving a byte: signal the other side and leave. *)
Lemma mbox_move h now i (full : bool) m' s c x we wf :
  let q := if full then CFull i else CEmpty i in
  locks_ok s → user_on h c x (sch s) → mbox_state s i (mailboxes s i) we wf → mbox_ring m' →
  ∃ s1 s2, mutex_acquire h now (MBuf i) s = Ok (true, s1) ∧ mailboxes s1 i = mailboxes s i ∧
    (modify (set_mbox i m') ;; condition_signal q ;; mutex_release (MBuf i)) s1 = Ok (tt, s2) ∧
    locks_ok s2 ∧ user_on h c x (sch s2) ∧ only_mbox i s s2 ∧
    mbox_state s2 i m' (if full then we else drop 1 we) (if full then drop 1 wf else wf).
Proof.
  intros q Hl Hu Hm Hring. pose proof (ms_ref _ _ _ _ _ Hm) as Hr.
  destruct (mbox_lists s i Hl Hr) as (Ha & Hwl & L1 & L2 & L3 & _).
  destruct (mbox_enter h now i s c x Hl Hu Hr) as (s1 & R1 & Hq1 & Es & Em & Eref & El & Ho).
  set (s1' := set_mbox i m' s1).
  assert (quiet s1') as Hq1' by (destruct Hq1; by split).
  destruct (signal_run q s1' Hq1') as (v & R2 & W & E2 & _); [unfold q; cbn; rewrite El; by destruct full|].
  set (s2 := set_sch v (spun (SpCond q) s1')).
  destruct (mutex_release_run None (MBuf i) s2) as (v3 & R3 & W3 & E3); [apply W | cbn; by rewrite El|].
  set (s3 := set_sch v3 (set_mutex (MBuf i) (mk_mutex 0 (m_pid (mutexes s2 (MBuf i))) (m_key (mutexes s2 (MBuf i)))) s2)).
  assert (user_on h c x v3) as Hu3.
  { destruct Hu as (Hc & H2 & Hx & Hst). pose proof (running_free _ c x (sg_inv _ (qt_sched _ (lk_quiet _ Hl))) Hx Hst) as Hcx.
    split_and!; [| done | | done].
    - rewrite (wk_harts _ _ _ _ W3). cbn. rewrite (wk_harts _ _ _ _ W). cbn. by rewrite Es.
    - apply (wk_free _ _ _ _ W3); [|congruence]. cbn. apply (wk_free _ _ _ _ W); [|congruence]. cbn. by rewrite Es. }
  assert (∀ q', q' ≠ QReady → q' ≠ cond_queue q → q' ≠ QMboxLock i → queue v3 q' = wq s q') as Hother.
  { intros q' H1 H2 H3. rewrite (wk_other _ _ _ _ W3) by done. cbn. rewrite (wk_other _ _ _ _ W) by done. cbn. unfold wq. by rewrite Es. }
  assert (queue v3 (cond_queue q) = drop 1 (wq s (cond_queue q))) as Hown.
  { rewrite (wk_other _ _ _ _ W3) by (unfold q; by destruct full). cbn. rewrite E2. unfold wq. cbn. by rewrite Es. }
  assert (only_mbox i s s3) as Honly.
  { split; [cbn; by rewrite Eref|]. intros o Hne. rewrite <- (Ho o Hne). destruct o as [j|j|j|j|j]; vw;
      rewrite ?fn_lookup_insert_ne by congruence; rewrite ?Hother by (unfold q; destruct full; cbn; congruence); unfold wq; by rewrite Es. }
  assert (mbox_state s3 i m' (if full then we else drop 1 we) (if full then drop 1 wf else wf)) as Hm3.
  { destruct Hm as [_ _ Hwe Hwf]. split; [cbn; by rewrite fn_lookup_insert | cbn; by rewrite Eref | |]; unfold wq, s3; cbn;
      unfold q in *; destruct full; cbn in *; first [rewrite Hother by done; congruence | rewrite Hown; congruence]. }
  assert (quiet s3) as Hq3 by (split; [by apply good_core, W3 | cbn; apply spun_unlocked, Hq1]).
  exists s1, s3. split_and!; [done | by rewrite Em | | | done | done | done].
  - unfold modify. unfold bind at 1. fold s1'. rewrite (bind_Ok _ _ _ _ _ R2). exact R3.
  - eapply (mbox_ok s s3 i); try done.
    + rewrite (ms_mbox _ _ _ _ _ Hm3). exact Hm3.
    + by rewrite (ms_mbox _ _ _ _ _ Hm3).
    + cbn. by rewrite fn_lookup_insert.
    + cbn. by rewrite El.
    + cbn. by rewrite El.
    + cbn. by rewrite El.
Qed.

(** Nothing to move: wait for the other side. *)
Lemma mbox_wait h now i (full : bool) s c x we wf :
  let q := if full then CFull i else CEmpty i in
  locks_ok s → user_on h c x (sch s) → mbox_state s i (mailboxes s i) we wf →
  ∃ s1 s2, mutex_acquire h now (MBuf i) s = Ok (true, s1) ∧ mailboxes s1 i = mailboxes s i ∧
    condition_wait h now q (MBuf i) s1 = Ok (tt, s2) ∧ locks_ok s2 ∧ only_mbox i s s2 ∧
    mbox_state s2 i (mailboxes s i) (if full then we else we ++ [c]) (if full then wf ++ [c] else wf).
Proof.
  intros q Hl Hu Hm. pose proof (ms_ref _ _ _ _ _ Hm) as Hr.
  destruct (mbox_lists s i Hl Hr) as (Ha & Hwl & L1 & L2 & L3 & Hring).
  destruct (mbox_enter h now i s c x Hl Hu Hr) as (s1 & R1 & Hq1 & Es & Em & Eref & El & Ho).
  destruct (condition_wait_run h now q (MBuf i) s1 c x) as (v & R2 & Hg & E1 & E2 & E3 & _);
    [done | by rewrite Es | unfold q; rewrite El; by destruct full | by rewrite El |].
  set (s2 := set_sch v (set_mutex (MBuf i) (mk_mutex 0 (m_pid (mutexes s1 (MBuf i))) (m_key (mutexes s1 (MBuf i)))) (spun (SpCond q) s1))).
  assert (∀ q', q' ≠ QReady → q' ≠ QSleep → q' ≠ cond_queue q → q' ≠ QMboxLock i → queue v q' = wq s q') as Hother.
  { intros q' H1 H2 H3 H4. rewrite E3 by done. unfold wq. by rewrite Es. }
  assert (only_mbox i s s2) as Honly.
  { split; [cbn; by rewrite Eref|]. intros o Hne. rewrite <- (Ho o Hne). destruct o as [j|j|j|j|j]; vw;
      rewrite ?fn_lookup_insert_ne by congruence; rewrite ?Hother by (unfold q; destruct full; cbn; congruence); unfold wq; by rewrite Es. }
  assert (mbox_state s2 i (mailboxes s i) (if full then we else we ++ [c]) (if full then wf ++ [c] else wf)) as Hm2.
  { destruct Hm as [_ _ Hwe Hwf]. split; [cbn; by rewrite Em | cbn; by rewrite Eref | |]; unfold wq, s2; cbn;
      unfold q in *; destruct full; cbn in *; unfold wq in *; rewrite Es in *;
      first [rewrite Hother by done; congruence | rewrite E1; congruence]. }
  exists s1, s2. split_and!; [done | by rewrite Em | done | | done | done].
  eapply (mbox_ok s s2 i); try done.
  - split; [done | cbn; apply spun_unlocked, Hq1].
  - rewrite (ms_mbox _ _ _ _ _ Hm2). exact Hm2.
  - by rewrite (ms_mbox _ _ _ _ _ Hm2).
  - cbn. by rewrite fn_lookup_insert.
  - cbn. by rewrite El.
  - cbn. by rewrite El.
  - cbn. by rewrite El.
Qed.

(** ** Whole messages *)
Definition room (m : mailbox_t) : nat := Z.to_nat (MAX_MBOX_LENGTH - used m).

Lemma push_used b m : mbox_ring m → used m < MAX_MBOX_LENGTH → used (push_byte b m) = used m + 1.
Proof. intros [_ _ Hu _] H. cbn. apply i32_id. unfold MAX_MBOX_LENGTH in *. lia. Qed.
Lemma pop_used m : mbox_ring m → 0 < used m → used (snd (pop_byte m)) = used m - 1.
Proof. intros [_ _ Hu _] H. cbn. apply i32_id. unfold MAX_MBOX_LENGTH in *. lia. Qed.

Lemma send_loop_run h now i c x rest s blocked we wf :
  locks_ok s → user_on h c x (sch s) → mbox_state s i (mailboxes s i) we wf →
  let k := Nat.min (length rest) (room (mailboxes s i)) in
  ∃ s', send_loop h now i rest blocked s =
      Ok ((if decide (length rest ≤ room (mailboxes s i))%nat then MDone blocked else MParked AtWait 1, drop k rest), s') ∧
    locks_ok s' ∧ only_mbox i s s' ∧ ring_bytes (mailboxes s' i) = ring_bytes (mailboxes s i) ++ take k rest ∧
    wq s' (QMboxEmpty i) = drop k we ∧
    wq s' (QMboxFull i) = (if decide (length rest ≤ room (mailboxes s i))%nat then wf else wf ++ [c]).
Proof.
  revert s blocked we. induction rest as [|b rest IH]; intros s blocked we Hl Hu Hm k.
  - exists s. rewrite !decide_True by (cbn; lia). split_and!; [done | done | done | by rewrite app_nil_r | apply Hm | apply Hm].
  - pose proof (ms_ref _ _ _ _ _ Hm) as Hr. destruct (mbox_lists s i Hl Hr) as (_ & _ & _ & _ & _ & Hring).
    pose proof (rg_used _ Hring) as Hus. set (m := mailboxes s i) in *. cbn [length] in k.
    destruct (Z.ltb_spec (used m) MAX_MBOX_LENGTH) as [Hlt|Hge].
    + destruct (push_ring b m Hring Hlt) as [Hring' Hbytes].
      destruct (mbox_move h now i false (push_byte b m) s c x we wf Hl Hu Hm Hring') as (s1 & s2 & R1 & E1 & R2 & Hl2 & Hu2 & Ho2 & Hm2).
      cbn [drop] in Hm2. pose proof (ms_mbox _ _ _ _ _ Hm2) as Em2.
      assert (mbox_state s2 i (mailboxes s2 i) (drop 1 we) wf) as Hm2' by (rewrite Em2; exact Hm2).
      destruct (IH s2 blocked (drop 1 we) Hl2 Hu2 Hm2') as (s' & R & Hl' & Ho' & Hb' & Hwe & Hwf).
      assert (room (mailboxes s2 i) = pred (room m)) as Eroom.
      { unfold room. rewrite Em2, (push_used b m Hring Hlt). lia. }
      assert (room m ≠ 0%nat) as Hroom by (unfold room; lia).
      assert (k = S (Nat.min (length rest) (pred (room m)))) as Ek by (unfold k; lia).
      rewrite Eroom in *. exists s'. split; [|split_and!; [done | by eapply only_trans | | |]].
      * cbn [send_loop]. rewrite (bind_Ok _ _ _ _ _ R1). cbn [negb]. unfold get_mbox, gets. unfold bind at 1. rewrite E1. fold m.
        rewrite (proj2 (Z.ltb_lt _ _) Hlt). unfold modify in R2 |- *. unfold bind in R2 at 1. unfold bind at 1.
        apply bind_Ok_inv in R2 as ([] & s3 & R3 & R4). rewrite (bind_Ok _ _ _ _ _ R3), (bind_Ok _ _ _ _ _ R4), R, Ek.
        do 3 f_equal. case_decide; case_decide; try done; cbn [length] in *; lia.
      * rewrite Hb', Em2, Hbytes, Ek. cbn [take]. by rewrite <- app_assoc.
      * by rewrite Hwe, drop_drop, Ek.
      * rewrite Hwf. case_decide; case_decide; try done; cbn [length] in *; lia.
    + destruct (mbox_wait h now i true s c x we wf Hl Hu Hm) as (s1 & s2 & R1 & E1 & R2 & Hl2 & Ho2 & Hm2).
      assert (room m = 0%nat) as Hroom by (unfold room; lia). assert (k = 0%nat) as Ek by (unfold k; lia).
      exists s2. rewrite Ek, !decide_False by (cbn [length]; lia). split; [|split_and!; [done | done | | apply Hm2 | apply Hm2]].
      * cbn [send_loop]. rewrite (bind_Ok _ _ _ _ _ R1). cbn [negb]. unfold get_mbox, gets. unfold bind at 1. rewrite E1.
        fold m. rewrite (proj2 (Z.ltb_ge _ _) Hge). by rewrite (bind_Ok _ _ _ _ _ R2).
      * by rewrite (ms_mbox _ _ _ _ _ Hm2), app_nil_r.
Qed.

Lemma recv_loop_run h now i c x n s got blocked we wf :
  locks_ok s → user_on h c x (sch s) → mbox_state s i (mailboxes s i) we wf →
  let m := mailboxes s i in let k := Nat.min n (length (ring_bytes m)) in
  ∃ s', recv_loop h now i n got blocked s =
      Ok ((if decide (n ≤ length (ring_bytes m))%nat then MDone blocked else MParked AtWait 1, got ++ take k (ring_bytes m)), s') ∧
    locks_ok s' ∧ only_mbox i s s' ∧ ring_bytes (mailboxes s' i) = drop k (ring_bytes m) ∧
    wq s' (QMboxFull i) = drop k wf ∧
    wq s' (QMboxEmpty i) = (if decide (n ≤ length (ring_bytes m))%nat then we else we ++ [c]).
Proof.
  revert s got blocked wf. induction n as [|n IH]; intros s got blocked wf Hl Hu Hm m k.
  - exists s. rewrite !decide_True by lia. split_and!; [by rewrite app_nil_r | done | done | done | apply Hm | apply Hm].
  - pose proof (ms_ref _ _ _ _ _ Hm) as Hr. destruct (mbox_lists s i Hl Hr) as (_ & _ & _ & _ & _ & Hring). fold m in Hring, Hm.
    destruct (Z.gtb_spec (used m) 0) as [Hgt|Hle].
    + destruct (pop_ring m Hring Hgt) as [Hring' Hbytes]. set (m' := snd (pop_byte m)) in *. set (b := fst (pop_byte m)) in *.
      destruct (mbox_move h now i true m' s c x we wf Hl Hu Hm Hring') as (s1 & s2 & R1 & E1 & R2 & Hl2 & Hu2 & Ho2 & Hm2).
      cbn [drop] in Hm2. pose proof (ms_mbox _ _ _ _ _ Hm2) as Em2.
      assert (mbox_state s2 i (mailboxes s2 i) we (drop 1 wf)) as Hm2' by (rewrite Em2; exact Hm2).
      destruct (IH s2 (got ++ [b]) blocked (drop 1 wf) Hl2 Hu2 Hm2') as (s' & R & Hl' & Ho' & Hb' & Hwf & Hwe).
      assert (k = S (Nat.min n (length (ring_bytes m')))) as Ek by (unfold k; rewrite Hbytes; cbn [length]; lia).
      rewrite Em2 in *. exists s'. split; [|split_and!; [done | by eapply only_trans | | |]].
      * cbn [recv_loop]. rewrite (bind_Ok _ _ _ _ _ R1). cbn [negb]. unfold get_mbox, gets. unfold bind at 1. rewrite E1. fold m.
        rewrite (proj2 (Z.gtb_lt _ _) Hgt). rewrite (surjective_pairing (pop_byte m)). fold m' b.
        unfold modify in R2 |- *. unfold bind in R2 at 1. unfold bind at 1.
        apply bind_Ok_inv in R2 as ([] & s3 & R3 & R4). rewrite (bind_Ok _ _ _ _ _ R3), (bind_Ok _ _ _ _ _ R4), R, Ek, Hbytes.
        cbn [take length]. rewrite <- app_assoc. do 3 f_equal. case_decide; case_decide; try done; lia.
      * by rewrite Hb', Ek, Hbytes.
      * by rewrite Hwf, drop_drop, Ek.
      * rewrite Hwe, Hbytes. cbn [length]. case_decide; case_decide; try done; lia.
    + assert (ring_bytes m = []) as Eb by (unfold ring_bytes; by replace (Z.to_nat (used m)) with 0%nat by lia).
      destruct (mbox_wait h now i false s c x we wf Hl Hu Hm) as (s1 & s2 & R1 & E1 & R2 & Hl2 & Ho2 & Hm2).
      assert (k = 0%nat) as Ek by (unfold k; rewrite Eb; cbn; lia).
      exists s2. rewrite Ek, !decide_False by (rewrite Eb; cbn; lia). split; [|split_and!; [done | done | | apply Hm2 | apply Hm2]].
      * cbn [recv_loop]. rewrite (bind_Ok _ _ _ _ _ R1). cbn [negb]. unfold get_mbox, gets. unfold bind at 1. rewrite E1. fold m.
        rewrite Z.gtb_ltb, (proj2 (Z.ltb_ge _ _)) by lia. rewrite (bind_Ok _ _ _ _ _ R2). unfold ret. by rewrite app_nil_r.
      * by rewrite (ms_mbox _ _ _ _ _ Hm2).
Qed.
