(* ===== verification/LockTheorems.v ===== *)
(** * Locks: the calls as one system

    Every call of the locking files, with the scheduler and the end of a
    process, as a transition of the state; [locks_ok] holds in all of them. *)

From S2P Require Import Prelude CString Sched SchedProofs SchedTheorems Locks Proc LockProofs LockOps LockTable LockCreate Mailbox.

(** ** The invariant is kept *)
Lemma view_ok_bit p v : view_ok v → oref v ≠ 0 → view_ok (add_bit p v).
Proof. intros Hv Hr. apply view_ok_ref; [done | done | apply bit_nonzero]. Qed.

Lemma key_matches_live key v : key_matches key v = true → oref v ≠ 0.
Proof. destruct v; cbn; try done; intros [H%negb_true_iff _]%andb_true_iff; by apply Z.eqb_neq in H. Qed.

(** An existing object gains a bit, a fresh one is born with it. *)
Lemma settled_ok ob key fresh n s i v p :
  locks_ok s → settled ob (key_matches key) id fresh n s = Some (i, v) →
  (∀ i, is_free (view s (ob i)) = true → view_ok (add_bit p (fresh (view s (ob i))))) → view_ok (add_bit p v).
Proof.
  intros Hl E Hf. unfold settled in E. destruct (find _ (upto n)) as [j|] eqn:Ej.
  - injection E as <- <-. apply find_some in Ej as [_ Ej]. apply view_ok_bit; [apply Hl | by eapply key_matches_live].
  - destruct (find (fun i => is_free _) (upto n)) as [j|] eqn:Ek; [|done]. injection E as <- <-.
    apply find_some in Ek as [_ Ek]. by apply Hf.
Qed.

Lemma fresh_mutex_ok key p v : view_ok (add_bit p (fresh_mutex key v)).
Proof. cbn. done. Qed.
Lemma fresh_cond_ok key p v : view_ok (add_bit p (fresh_cond key v)).
Proof. cbn. done. Qed.
Lemma fresh_sema_ok key init p v : 0 ≤ init < 2 ^ 31 → view_ok (add_bit p (fresh_sema key init v)).
Proof. intros H. cbn. split; [done|]. intros _. split_and!; [done | lia | lia]. Qed.
Lemma fresh_barrier_ok g p b r w l : 0 < g < 2 ^ 31 → view_ok (add_bit p (fresh_barrier g (VBarrier b r w l))).
Proof. intros H. cbn. split; [done|]. intros _. split_and!; [done | lia | lia | lia | lia]. Qed.

Lemma zero_ring name n :
  (Z.of_nat (length name) < MAX_MBOX_NAME + MAX_MBOX_LENGTH) → mbox_ring (with_nref n (copy_name name zero_mbox)).
Proof.
  intros Hn. split; cbn [with_nref copy_name buffer head used tail zero_mbox]; [|unfold MAX_MBOX_LENGTH; lia..|done].
  rewrite length_drop, !length_app, length_drop. unfold name_bytes, zero_mbox, zeros. cbn [mb_name buffer length].
  rewrite length_app, !length_replicate. unfold MAX_MBOX_NAME, MAX_MBOX_LENGTH in *. lia.
Qed.

Lemma fresh_mbox_ok name p v :
  (Z.of_nat (length name) < MAX_MBOX_NAME + MAX_MBOX_LENGTH) → view_ok (add_bit p (fresh_mbox name v)).
Proof.
  intros Hn. cbn. split_and!; [done | done | done |]. intros _. split_and!; [done | done | done |]. by apply zero_ring.
Qed.

Lemma arrive_ok c b r w l : view_ok (VBarrier b r w l) → r ≠ 0 → view_ok (barrier_arrive c (VBarrier b r w l)).
Proof.
  intros [_ Hv] Hr. destruct (Hv Hr) as (Hl & Hb & Hm & Hw). cbn. destruct (Z.ltb_spec (current b + 1) (goal b)); cbn.
  - split; [done|]. intros _. rewrite length_app. cbn. split_and!; [done | lia | lia | lia | lia].
  - split; [done|]. intros _. split_and!; [done | lia | lia | lia | lia].
Qed.

Lemma down_ok c m r w l : view_ok (VSema m r w l) → r ≠ 0 → view_ok (sema_down c (VSema m r w l)).
Proof.
  intros [_ Hv] Hr. destruct (Hv Hr) as (Hl & Hw & Hm). cbn. split; [done|]. intros _.
  split_and!; [done | | lia]. destruct (Z.ltb_spec (count m - 1) 0); [rewrite length_app; cbn|]; lia.
Qed.

Lemma up_ok m r w l : view_ok (VSema m r w l) → r ≠ 0 → count m < 2 ^ 31 - 1 → view_ok (sema_up (VSema m r w l)).
Proof.
  intros [_ Hv] Hr Hc. destruct (Hv Hr) as (Hl & Hw & Hm). cbn. split; [done|]. intros _.
  split_and!; [done | | lia]. rewrite length_drop. lia.
Qed.

(** ** Processes leave the queues when they end *)
Definition vdrop (p : nat) (v : oview) : oview :=
  let f := filter (fun r => r ≠ p) in
  match v with
  | VMutex m r w l => VMutex m r (f w) l
  | VBarrier b r w l => VBarrier b r (f w) l
  | VCond k r w l => VCond k r (f w) l
  | VSema m r w l => VSema m r (f w) l
  | VMbox m r x wl we wf ll le lf => VMbox m r x (f wl) (f we) (f wf) ll le lf
  end.

(** The process does not wait on a semaphore. *)
Definition not_on_sema (p : nat) (s : os) : Prop := ∀ i, p ∉ wq s (QSema i).

Lemma drop_ok p v : view_ok v → (∀ m r w l, v = VSema m r w l → p ∉ w) → view_ok (vdrop p v).
Proof.
  intros Hv Hs. destruct v as [m r w l|b r w l|k r w l|m r w l|m r x wl we wf ll le lf]; cbn in *.
  - destruct Hv as (H1 & H2 & H3). split_and!; [by intros ->%H1 | done | by intros ->%H3].
  - destruct Hv as (H1 & H2). split; [by intros ->%H1|]. intros Hr. destruct (H2 Hr) as (? & ? & ? & ?). split_and!; try done; try lia.
    pose proof (length_filter (fun r => r ≠ p) w). lia.
  - destruct Hv as (H1 & H2). split; [by intros ->%H1 | done].
  - rewrite filter_all; [done|]. intros r0 Hr0 ->. by eapply Hs.
  - destruct Hv as (H1 & -> & H3 & H4). split_and!; [done | done | | done]. by intros [-> ->]%H3.
Qed.

(** The processes table after the end of [p]. *)
Lemma ended_view s v p :
  (∀ q, q ≠ QReady → q ≠ QProc p → queue v q = filter (fun r => r ≠ p) (wq s q)) →
  ∀ o, view (set_sch v s) o = vdrop p (view s o).
Proof. intros H [i|i|i|i|i]; unfold view, wq; cbn; rewrite ?H by done; reflexivity. Qed.

Lemma ended_ok s v p :
  locks_ok s → sched_good v → not_on_sema p s →
  (∀ q, q ≠ QReady → q ≠ QProc p → queue v q = filter (fun r => r ≠ p) (wq s q)) → locks_ok (set_sch v s).
Proof.
  intros [Hq Hv] Hg Hn H. split; [split; [done | apply Hq]|]. intros o. rewrite (ended_view s v p H). apply drop_ok; [apply Hv|].
  intros m r w l E. destruct o; inversion E. subst. apply Hn.
Qed.

(** ** The calls *)
Inductive lop :=
| LMutexInit (h : nat) (key : Z) | LAcquire (h : nat) (now idx : Z) | LRelease (h : nat) (idx : Z)
| LBarInit (h : nat) (key g : Z) | LBarWait (h : nat) (now idx : Z) | LBarDestroy (idx : Z)
| LCondInit (h : nat) (key : Z) | LCondWait (h : nat) (now ci mi : Z) | LSignal (idx : Z) | LBroadcast (idx : Z) | LCondDestroy (idx : Z)
| LSemaInit (h : nat) (key init : Z) | LDown (h : nat) (now idx : Z) | LUp (idx : Z) | LSemaDestroy (idx : Z)
| LOpen (h : nat) (name : list Z) | LClose (idx : Z)
| LSend (h : nat) (now idx : Z) (msg : list Z) | LRecv (h : nat) (now idx n : Z)
| LSendMore (h : nat) (now : Z) (i : nat) (pt : mbox_point) (rest : list Z) (blocked : Z)   (* a parked sender runs again *)
| LRecvMore (h : nat) (now : Z) (i : nat) (pt : mbox_point) (n : nat) (got : list Z) (blocked : Z)
| LRelock (r : spin_ref)                            (* a process parked in a barrier or semaphore runs again *)
| LTick (h : nat) (now : Z)
| LExec (h : nat) (mask : Z)
| LAffinity (id mask : Z)                           (* of a user process *)
| LMark (p : nat)                                   (* do_kill of a process that runs *)
| LEnd (p : nat)                                    (* cleanup_proc of a process that does not run *)
| LExit (h : nat) (now : Z).                        (* do_exit after the children *)

Definition silent {A} (m : OM A) : OM unit := m ;; ret tt.
Definition lop_run (op : lop) : OM unit :=
  match op with
  | LMutexInit h key => silent (do_mutex_lock_init h key)
  | LAcquire h now idx => silent (do_mutex_lock_acquire h now idx)
  | LRelease h idx => do_mutex_lock_release h idx
  | LBarInit h key g => silent (do_barrier_init h key g)
  | LBarWait h now idx => silent (do_barrier_wait h now idx)
  | LBarDestroy idx => do_barrier_destroy idx
  | LCondInit h key => silent (do_condition_init h key)
  | LCondWait h now ci mi => silent (do_condition_wait h now ci mi)
  | LSignal idx => do_condition_signal idx
  | LBroadcast idx => do_condition_broadcast idx
  | LCondDestroy idx => do_condition_destroy idx
  | LSemaInit h key init => silent (do_semaphore_init h key init)
  | LDown h now idx => silent (do_semaphore_down h now idx)
  | LUp idx => do_semaphore_up idx
  | LSemaDestroy idx => do_semaphore_destroy idx
  | LOpen h name => silent (do_mbox_open h name)
  | LClose idx => do_mbox_close idx
  | LSend h now idx msg => silent (do_mbox_send h now idx msg)
  | LRecv h now idx n => silent (do_mbox_recv h now idx n)
  | LSendMore h now i pt rest blocked => silent (send_resume h now i pt rest blocked)
  | LRecvMore h now i pt n got blocked => silent (recv_resume h now i pt n got blocked)
  | LRelock r => relock r
  | LTick h now => lift (do_scheduler h now)
  | LExec h mask => silent (lift (do_exec h mask))
  | LAffinity id mask => silent (lift (sys_set_affinity id mask))
  | LMark p => lift (upd_pcb p (set_status TASK_KILLED))
  | LEnd p => cleanup_proc p
  | LExit h now => c <- self h ;; cleanup_proc c ;; lift (do_scheduler h now)
  end.

(** A user process makes the call. *)
Definition calls (h : nat) (s : os) : Prop := ∃ c x, user_on h c x (sch s).
(** Its pid leads to some live slot, and the table has a match or room. *)
Definition can_create (h : nat) (s : os) (choice : option (nat * oview)) : Prop :=
  (∃ x p, caller h x p (sch s)) ∧ is_Some choice.

(** When a call is in order: indices in range name objects that were created;
    values are in the range the call is meant for. *)
Definition lop_enabled (op : lop) (s : os) : Prop :=
  match op with
  | LMutexInit h key => can_create h s (settled OMutex (key_matches key) id (fresh_mutex key) LOCK_NUM s)
  | LAcquire h _ idx => calls h s ∧ (in_range idx LOCK_NUM = true → mlock_ref s (Z.to_nat idx) ≠ 0)
  | LRelease h _ => calls h s
  | LBarInit h key g => can_create h s (settled OBarrier (key_matches key) id (fresh_barrier g) BARRIER_NUM s) ∧ 0 < g < 2 ^ 31
  | LBarWait h _ _ => calls h s
  | LBarDestroy _ | LCondDestroy _ | LSignal _ | LBroadcast _ => True
  | LCondInit h key => can_create h s (settled OCond (key_matches key) id (fresh_cond key) CONDITION_NUM s)
  | LCondWait h _ _ mi => calls h s ∧ (in_range mi LOCK_NUM = true → mlock_ref s (Z.to_nat mi) ≠ 0)
  | LSemaInit h key init =>
      can_create h s (settled OSema (key_matches key) id (fresh_sema key init) SEMAPHORE_NUM s) ∧ 0 ≤ init < 2 ^ 31
  | LDown h _ idx => calls h s ∧ - 2 ^ 31 < count (semaphores s (Z.to_nat idx))
  | LUp idx => - 2 ^ 31 < count (semaphores s (Z.to_nat idx)) < 2 ^ 31 - 1
  | LSemaDestroy idx => in_range idx SEMAPHORE_NUM = true
  | LOpen h name => can_create h s (settled OMbox (name_matches name) touch_mbox (fresh_mbox name) MBOX_NUM s) ∧
      Z.of_nat (length name) < MAX_MBOX_NAME + MAX_MBOX_LENGTH
  | LClose _ => True
  | LSend h _ _ _ | LRecv h _ _ _ => calls h s
  | LSendMore h _ i _ _ _ | LRecvMore h _ i _ _ _ _ => calls h s ∧ mbox_ref s i ≠ 0
  | LRelock _ => True
  | LTick h _ => ∃ c x, harts (sch s) !! h = Some c ∧ pcb_all (sch s) !! c = Some x ∧ status x = TASK_RUNNING
  | LExec h _ => is_Some (harts (sch s) !! h) ∧ process_id (sch s) < 2 ^ 31 - 1
  | LAffinity id _ => NR_CPUS ≤ id
  | LMark p => (2 ≤ p)%nat ∧ ∃ x, pcb_all (sch s) !! p = Some x ∧ status x = TASK_RUNNING
  | LEnd p => (2 ≤ p)%nat ∧ not_on_sema p s ∧ ∃ x q, pcb_all (sch s) !! p = Some x ∧
      (status x = TASK_READY ∨ status x = TASK_BLOCKED) ∧ find_pcb (pid x) (sch s) = Ok (Some q, sch s)
  | LExit h _ => ∃ c x q, harts (sch s) !! h = Some c ∧ (2 ≤ c)%nat ∧ pcb_all (sch s) !! c = Some x ∧
      find_pcb (pid x) (sch s) = Ok (Some q, sch s)
  end.

(** A call returns and leaves the invariant. *)
Definition fine {A} (m : OM A) (s : os) : Prop := ∃ a s', m s = Ok (a, s') ∧ locks_ok s'.

Lemma fine_silent {A} (m : OM A) s : fine m s → fine (silent m) s.
Proof. intros (a & s' & R & Hl). exists tt, s'. split; [|done]. unfold silent. by rewrite (bind_Ok _ _ _ _ _ R). Qed.
Lemma fine_ret {A} (a : A) s : locks_ok s → fine (ret a) s.
Proof. intros. by exists a, s. Qed.
Lemma fine_changes {A} (m : OM A) s a s' o v :
  locks_ok s → m s = Ok (a, s') → quiet s' → changes o v s s' → view_ok v → fine m s.
Proof. intros Hl R Hq C Hv. exists a, s'. split; [done|]. by eapply changes_ok. Qed.
Create HintDb locks.
#[export] Hint Resolve fine_silent fine_ret : locks.

Lemma fine_mutex_init h key s : locks_ok s → lop_enabled (LMutexInit h key) s → fine (do_mutex_lock_init h key) s.
Proof.
  intros Hl [(x & p & Hc) [[i v] E]]. destruct (mutex_init_spec h x p i v s Hl Hc key E) as (s' & R & Hq & _ & C).
  eapply fine_changes; [done | exact R | done | exact C |]. eapply settled_ok; [done | exact E|]. intros j _. apply fresh_mutex_ok.
Qed.
Lemma fine_cond_init h key s : locks_ok s → lop_enabled (LCondInit h key) s → fine (do_condition_init h key) s.
Proof.
  intros Hl [(x & p & Hc) [[i v] E]]. destruct (condition_init_spec h x p i v s Hl Hc key E) as (s' & R & Hq & _ & C).
  eapply fine_changes; [done | exact R | done | exact C |]. eapply settled_ok; [done | exact E|]. intros j _. apply fresh_cond_ok.
Qed.
Lemma fine_bar_init h key g s : locks_ok s → lop_enabled (LBarInit h key g) s → fine (do_barrier_init h key g) s.
Proof.
  intros Hl [[(x & p & Hc) [[i v] E]] Hg]. destruct (barrier_init_spec h x p i v s Hl Hc key g E) as (s' & R & Hq & _ & C).
  eapply fine_changes; [done | exact R | done | exact C |]. eapply settled_ok; [done | exact E|]. intros j _. by apply fresh_barrier_ok.
Qed.
Lemma fine_sema_init h key init s : locks_ok s → lop_enabled (LSemaInit h key init) s → fine (do_semaphore_init h key init) s.
Proof.
  intros Hl [[(x & p & Hc) [[i v] E]] Hg]. destruct (semaphore_init_spec h x p i v s Hl Hc key init E) as (s' & R & Hq & _ & C).
  eapply fine_changes; [done | exact R | done | exact C |]. eapply settled_ok; [done | exact E|]. intros j _. by apply fresh_sema_ok.
Qed.
Lemma fine_open h name s : locks_ok s → lop_enabled (LOpen h name) s → fine (do_mbox_open h name) s.
Proof.
  intros Hl [[(x & p & Hc) [[i v] E]] Hn]. destruct (mbox_open_spec h x p i v s name Hl Hc Hn E) as (s' & R & Hq & _ & C).
  eapply fine_changes; [done | exact R | done | exact C |]. unfold settled in E. destruct (find _ (upto MBOX_NUM)) as [j|] eqn:Ej.
  - injection E as <- <-. apply find_some in Ej as [_ Ej]. pose proof (lk_view _ Hl (OMbox j)) as Hv.
    apply andb_true_iff in Ej as [Hr%negb_true_iff%Z.eqb_neq _]. apply view_ok_bit; [|exact Hr]. cbn in Hv |- *.
    destruct Hv as (H1 & H2 & H3 & H4). split_and!; [done..|]. intros _. destruct (H4 Hr) as (? & ? & ? & [? ? ? ?]).
    split_and!; [done..|]. by split.
  - destruct (find (fun i => is_free _) _) as [j|]; [|done]. injection E as <- <-. by apply fresh_mbox_ok.
Qed.

(** Waiting and waking calls. *)
Lemma fine_acquire h now idx s : locks_ok s → lop_enabled (LAcquire h now idx) s → fine (do_mutex_lock_acquire h now idx) s.
Proof.
  intros Hl [(c & x & Hu) Hr]. unfold do_mutex_lock_acquire. destruct (in_range idx LOCK_NUM) eqn:E; [|by apply fine_ret].
  destruct (mutex_acquire_spec h now (Z.to_nat idx) s c x Hl Hu (Hr eq_refl)) as (s' & R & Hq & C).
  pose proof (lk_view _ Hl (OMutex (Z.to_nat idx))) as (H1 & H2 & H3).
  eapply fine_changes; [done | unfold negb; by rewrite (bind_Ok _ _ _ _ _ R) | done | exact C |].
  destruct (Z.eqb_spec (acquired (mutexes s (MLock (Z.to_nat idx)))) 0) as [E0|E0]; cbn; [done|].
  split_and!; [| done | done]. intros Hz. by destruct (Hr eq_refl).
Qed.

Lemma fine_release h idx s : locks_ok s → calls h s → fine (do_mutex_lock_release h idx) s.
Proof.
  intros Hl (c & x & Hu). destruct (in_range idx LOCK_NUM) eqn:E; [|unfold do_mutex_lock_release; rewrite E; by apply fine_ret].
  destruct (mutex_release_spec h idx s c x Hl Hu E) as (s' & R & Hq & C). eapply fine_changes; [done | exact R | done | exact C |].
  case_decide; [done | apply Hl].
Qed.

Lemma fine_bar_wait h now idx s : locks_ok s → calls h s → fine (do_barrier_wait h now idx) s.
Proof.
  intros Hl (c & x & Hu). destruct (in_range idx BARRIER_NUM) eqn:E; [|unfold do_barrier_wait; rewrite E; by apply fine_ret].
  destruct (decide (barrier_ref s (Z.to_nat idx) = 0)) as [E0|E0].
  - exists false, (spun (SpBarrier (Z.to_nat idx)) s). split; [|eapply sim_locks; [done | by apply sim_spun, Hl]].
    unfold do_barrier_wait. rewrite E. cbn [negb]. rewrite (bind_Ok _ _ _ _ _ (spin_acquire_run _ _ (qt_spin _ (lk_quiet _ Hl) _))).
    unfold gets. unfold bind at 1. cbn [barrier_ref set_spin]. by rewrite E0.
  - destruct (barrier_wait_spec h now idx s c x Hl Hu E E0) as (s' & R & Hq & C & _). eapply fine_changes; [done | exact R | done | exact C |].
    apply arrive_ok; [|done]. apply (lk_view _ Hl (OBarrier (Z.to_nat idx))).
Qed.

Lemma fine_down h now idx s : locks_ok s → lop_enabled (LDown h now idx) s → fine (do_semaphore_down h now idx) s.
Proof.
  intros Hl [(c & x & Hu) Hm]. destruct (in_range idx SEMAPHORE_NUM) eqn:E; [|unfold do_semaphore_down; rewrite E; by apply fine_ret].
  destruct (decide (sema_ref s (Z.to_nat idx) = 0)) as [E0|E0].
  - exists false, (spun (SpSema (Z.to_nat idx)) s). split; [|eapply sim_locks; [done | by apply sim_spun, Hl]].
    unfold do_semaphore_down. rewrite E. cbn [negb]. rewrite (bind_Ok _ _ _ _ _ (spin_acquire_run _ _ (qt_spin _ (lk_quiet _ Hl) _))).
    unfold gets. unfold bind at 1. cbn [sema_ref set_spin]. by rewrite E0.
  - destruct (sema_down_spec h now idx s c x Hl Hu E E0 Hm) as (s' & R & Hq & C). eapply fine_changes; [done | exact R | done | exact C |].
    apply down_ok; [|done]. apply (lk_view _ Hl (OSema (Z.to_nat idx))).
Qed.

Lemma fine_up idx s : locks_ok s → lop_enabled (LUp idx) s → fine (do_semaphore_up idx) s.
Proof.
  intros Hl [Hm1 Hm2]. destruct (in_range idx SEMAPHORE_NUM) eqn:E; [|unfold do_semaphore_up; rewrite E; by apply fine_ret].
  destruct (decide (sema_ref s (Z.to_nat idx) = 0)) as [E0|E0].
  - exists tt, (spun (SpSema (Z.to_nat idx)) s). split; [|eapply sim_locks; [done | by apply sim_spun, Hl]].
    unfold do_semaphore_up. rewrite E. cbn [negb]. apply with_spin_run; [apply Hl|]. unfold gets, bind. cbn [sema_ref set_spin]. by rewrite E0.
  - destruct (sema_up_spec idx s Hl E E0 Hm2 Hm1) as (s' & R & Hq & C & _). eapply fine_changes; [done | exact R | done | exact C |].
    apply up_ok; [|done | done]. apply (lk_view _ Hl (OSema (Z.to_nat idx))).
Qed.

Lemma fine_cond_wait h now ci mi s : locks_ok s → lop_enabled (LCondWait h now ci mi) s → fine (do_condition_wait h now ci mi) s.
Proof.
  intros Hl [(c & x & Hu) Hm]. unfold do_condition_wait at 1.
  destruct (in_range ci CONDITION_NUM) eqn:E1; [|by apply fine_ret]. destruct (in_range mi LOCK_NUM) eqn:E2; [|by apply fine_ret].
  cbn [negb]. destruct (decide (cond_ref s (Z.to_nat ci) = 0)) as [E0|E0].
  { exists false, s. split; [|done]. unfold gets, bind. by rewrite E0. }
  destruct (condition_wait_spec h now ci mi s c x Hl Hu E1 E2 E0 (Hm eq_refl)) as (s' & R & Hq & V1 & V2 & V3 & _).
  unfold do_condition_wait in R. rewrite E1, E2 in R. cbn [negb] in R. exists true, s'. split; [exact R|]. split; [done|].
  intros o. destruct (decide (o = OCond (Z.to_nat ci))) as [->|N1]; [by rewrite V1|].
  destruct (decide (o = OMutex (Z.to_nat mi))) as [->|N2]; [by rewrite V2 | rewrite V3 by done; apply Hl].
Qed.

Lemma fine_signal idx s : locks_ok s → fine (do_condition_signal idx) s.
Proof.
  intros Hl. unfold do_condition_signal. destruct (in_range idx CONDITION_NUM) eqn:E; [|by apply fine_ret]. cbn [negb].
  set (i := Z.to_nat idx). destruct (decide (cond_ref s i = 0)) as [E0|E0].
  { exists tt, s. split; [|done]. unfold gets, bind. by rewrite E0. }
  pose proof (lk_view _ Hl (OCond i)) as (H1 & H2). specialize (H2 E0).
  destruct (signal_run (CCond i) s (lk_quiet _ Hl) H2) as (v & R & W & Ew & _).
  eapply (fine_changes _ _ tt _ (OCond i)); [done | unfold gets; unfold bind at 1; rewrite (proj2 (Z.eqb_neq _ 0) E0); exact R | | split; [vw; reflexivity | other_view (wk_other _ _ _ _ W)] |].
  - split; [by apply good_core, W | apply spun_unlocked, Hl].
  - cbn. split; [by intros ? | done].
Qed.

Lemma fine_broadcast idx s : locks_ok s → fine (do_condition_broadcast idx) s.
Proof.
  intros Hl. unfold do_condition_broadcast. destruct (in_range idx CONDITION_NUM) eqn:E; [|by apply fine_ret]. cbn [negb].
  set (i := Z.to_nat idx). destruct (decide (cond_ref s i = 0)) as [E0|E0].
  { exists tt, s. split; [|done]. unfold gets, bind. by rewrite E0. }
  pose proof (lk_view _ Hl (OCond i)) as (H1 & H2). specialize (H2 E0).
  destruct (broadcast_run (CCond i) s (lk_quiet _ Hl) H2) as (v & R & W & Ew & _).
  eapply (fine_changes _ _ tt _ (OCond i)); [done | unfold gets; unfold bind at 1; rewrite (proj2 (Z.eqb_neq _ 0) E0); exact R | | split; [vw; reflexivity | other_view (wk_other _ _ _ _ W)] |].
  - split; [by apply good_core, W | apply spun_unlocked, Hl].
  - cbn. split; [by intros ? | done].
Qed.

(** Destroying calls. *)
Lemma fine_destroy `{T : LockTable ob sp rf sref destr} i s : locks_ok s → fine (destroy_body (sp := sp) (rf := rf) (sref := sref) (destr := destr) i) s.
Proof.
  intros Hl. destruct (destroy_run s i Hl) as (s' & R & Hq & C). eapply fine_changes; [done | exact R | done | exact C |].
  destruct (_ =? 0); [apply Hl | apply view_ok_clear].
Qed.
Lemma fine_bar_destroy idx s : locks_ok s → fine (do_barrier_destroy idx) s.
Proof.
  intros Hl. unfold do_barrier_destroy. destruct (negb _); [by apply fine_ret|]. by apply (fine_destroy (T := barrier_table)).
Qed.
Lemma fine_cond_destroy idx s : locks_ok s → fine (do_condition_destroy idx) s.
Proof.
  intros Hl. unfold do_condition_destroy. destruct (negb _); [by apply fine_ret|]. by apply (fine_destroy (T := cond_table)).
Qed.
Lemma fine_sema_destroy idx s : locks_ok s → in_range idx SEMAPHORE_NUM = true → fine (do_semaphore_destroy idx) s.
Proof.
  intros Hl E. unfold do_semaphore_destroy. unfold fine. rewrite (bind_Ok _ _ s tt s) by (by rewrite E).
  by apply (fine_destroy (T := sema_table)).
Qed.

Lemma fine_close idx s : locks_ok s → fine (do_mbox_close idx) s.
Proof.
  intros Hl. unfold do_mbox_close. destruct (negb (in_range idx MBOX_NUM)); [by apply fine_ret|]. set (i := Z.to_nat idx).
  pose proof Hl as [[Hg Hs] Hv]. pose proof (Hv (OMbox i)) as (H1 & H2 & H3 & H4).
  set (L := set_spin (SpMbox i) LOCKED s). set (m := mailboxes s i). set (n := i32 (nref m - 1)).
  set (L1 := set_mbox i (with_nref n m) L).
  assert (∀ k : mailbox_t → OM unit, (r <- gets (fun s => mbox_ref s i) ;; if r =? 0 then ret tt else m <- get_mbox i ;; k m) L =
    if mbox_ref s i =? 0 then Ok (tt, L) else k m L) as Hrun.
  { intros k. unfold get_mbox, gets, bind. change (mbox_ref L i) with (mbox_ref s i). by destruct (mbox_ref s i =? 0). }
  destruct (Z.eqb_spec (mbox_ref s i) 0) as [E0|E0].
  { exists tt, (spun (SpMbox i) s). split; [|eapply sim_locks; [done | by apply sim_spun, Hl]].
    apply with_spin_run; [apply Hs|]. fold L. by rewrite Hrun. }
  destruct (H4 E0) as (Hl1 & Hl2 & Hl3 & Hring).
  assert (changes (OMbox i) (VMbox (with_nref n m) (mbox_ref s i) (mutexes s (MBuf i)) (wq s (QMboxLock i)) (wq s (QMboxEmpty i))
    (wq s (QMboxFull i)) true true true) s L1) as C1.
  { split; [vw; f_equal; done | other_view E0]. }
  assert (view_ok (VMbox (with_nref n m) (mbox_ref s i) (mutexes s (MBuf i)) (wq s (QMboxLock i)) (wq s (QMboxEmpty i))
    (wq s (QMboxFull i)) true true true)) as Hv1.
  { cbn. split_and!; [done | done | done |]. intros _. split_and!; [done | done | done |]. destruct Hring. by split. }
  destruct (n >? 0) eqn:En.
  - exists tt, (set_spin (SpMbox i) UNLOCKED L1). split.
    + apply with_spin_run; [apply Hs|]. fold L. rewrite Hrun. fold n. unfold modify. unfold bind. by rewrite En.
    + eapply changes_ok; [done | | exact Hv1 | by apply (changes_spin _ _ (SpMbox i) LOCKED)].
      split; [done | by apply spun_unlocked].
  - destruct (drop_run (T := mbox_table) L1 i) as (s' & R & Hc & Hsp & C & _);
      [by apply good_core | by rewrite (proj1 C1) | by rewrite (proj1 C1) |].
    exists tt, (set_spin (SpMbox i) UNLOCKED s'). split.
    + apply with_spin_run; [apply Hs|]. fold L. rewrite Hrun. fold n. unfold modify in R |- *. unfold bind at 1. rewrite En. exact R.
    + eapply (changes_ok (OMbox i)); [done | | apply view_ok_clear |].
      * by eapply unspin_quiet.
      * eapply (changes_spin _ _ (SpMbox i) LOCKED). eapply changes_trans; [|exact C].
        instantiate (1 := view L1 (OMbox i)). split; [done|]. intros o Ho. rewrite (proj2 C1) by done. by rewrite view_spin.
Qed.

(** ** Messages *)
Lemma send_fine h now i rest blocked s : locks_ok s → calls h s → mbox_ref s i ≠ 0 → fine (send_loop h now i rest blocked) s.
Proof.
  intros Hl (c & x & Hu) Hr. destruct (send_loop_run h now i c x rest s blocked (wq s (QMboxEmpty i)) (wq s (QMboxFull i)) Hl Hu) as (s' & R & Hl' & _); [by split|].
  eexists _, s'. split; [exact R | done].
Qed.
Lemma recv_fine h now i n got blocked s : locks_ok s → calls h s → mbox_ref s i ≠ 0 → fine (recv_loop h now i n got blocked) s.
Proof.
  intros Hl (c & x & Hu) Hr. destruct (recv_loop_run h now i c x n s got blocked (wq s (QMboxEmpty i)) (wq s (QMboxFull i)) Hl Hu) as (s' & R & Hl' & _); [by split|].
  eexists _, s'. split; [exact R | done].
Qed.

(** Back from [condition_wait]: the mutex is free, taken and dropped. *)
Lemma reenter_run h now i s c x :
  locks_ok s → user_on h c x (sch s) → mbox_ref s i ≠ 0 →
  ∃ s1 s2, mutex_acquire h now (MBuf i) s = Ok (true, s1) ∧ mutex_release (MBuf i) s1 = Ok (tt, s2) ∧ locks_ok s2 ∧
    user_on h c x (sch s2) ∧ mailboxes s2 = mailboxes s ∧ only_mbox i s s2 ∧
    wq s2 (QMboxEmpty i) = wq s (QMboxEmpty i) ∧ wq s2 (QMboxFull i) = wq s (QMboxFull i).
Proof.
  intros Hl Hu Hr. destruct (mbox_lists s i Hl Hr) as (Ha & Hwl & L1 & L2 & L3 & Hring).
  destruct (mbox_enter h now i s c x Hl Hu Hr) as (s1 & R1 & Hq1 & Es & Em & Eref & El & Ho).
  destruct (mutex_release_run None (MBuf i) s1) as (v & R2 & W & E2); [by apply good_core, Hq1 | cbn; by rewrite El|].
  set (s2 := set_sch v (set_mutex (MBuf i) (mk_mutex 0 (m_pid (mutexes s1 (MBuf i))) (m_key (mutexes s1 (MBuf i)))) s1)).
  assert (∀ q, q ≠ QReady → q ≠ QMboxLock i → queue v q = wq s q) as Hother.
  { intros q H1 H2. rewrite (wk_other _ _ _ _ W) by done. unfold wq. by rewrite Es. }
  assert (only_mbox i s s2) as Honly.
  { split; [cbn; by rewrite Eref|]. intros o Hne. rewrite <- (Ho o Hne). destruct o as [j|j|j|j|j]; vw;
      rewrite ?fn_lookup_insert_ne by congruence; rewrite ?Hother by congruence; unfold wq; by rewrite Es. }
  exists s1, s2. split_and!; [done | done | | | by cbn | done | by apply Hother | by apply Hother].
  - eapply (mbox_ok s s2 i); try done.
    + split; [by apply good_core, W | apply Hq1].
    + split; [done | cbn; by rewrite Eref | by apply Hother | by apply Hother].
    + cbn. by rewrite Em.
    + cbn. by rewrite fn_lookup_insert.
    + cbn. by rewrite El.
    + cbn. by rewrite El.
    + cbn. by rewrite El.
  - destruct Hu as (Hc & H2 & Hx & Hst). pose proof (running_free _ c x (sg_inv _ (qt_sched _ (lk_quiet _ Hl))) Hx Hst) as Hcx.
    split_and!; [| done | | done].
    + cbn. rewrite (wk_harts _ _ _ _ W). by rewrite Es.
    + apply (wk_free _ _ _ _ W); [by rewrite Es | congruence].
Qed.

Lemma resume_fine {A} h now i pt (parked loop : OM A) s :
  locks_ok s → calls h s → mbox_ref s i ≠ 0 → (∀ s', locks_ok s' → calls h s' → mbox_ref s' i ≠ 0 → fine loop s') →
  fine (mbox_resume h now i pt parked loop) s.
Proof.
  intros Hl Hca Hr Hloop. destruct pt; cbn [mbox_resume]; [by apply Hloop|]. destruct Hca as (c & x & Hu).
  destruct (reenter_run h now i s c x Hl Hu Hr) as (s1 & s2 & R1 & R2 & Hl2 & Hu2 & _ & [Er _] & _).
  destruct (Hloop s2 Hl2) as (a & s' & R & Hl'); [by exists c, x | by rewrite Er|]. exists a, s'. split; [|done].
  rewrite (bind_Ok _ _ _ _ _ R1). cbn [negb]. by rewrite (bind_Ok _ _ _ _ _ R2).
Qed.

(** ** The scheduler and the end of a process *)
Lemma tick_fine h now s : locks_ok s → lop_enabled (LTick h now) s → fine (lift (do_scheduler h now)) s.
Proof.
  intros [[Hg Hs] Hv] (c & x & Hc & Hx & Hst).
  destruct (sched_run h now (sch s) c x s) as (v & R & Hg' & Eq); [|done|done|congruence|done|].
  { destruct Hg. split; [by apply inv_out | done | done]. }
  exists tt, (set_sch v s). split; [done|]. split; [split; [done | exact Hs]|].
  intros o. assert (view (set_sch v s) o = view s o) as ->; [|apply Hv]. destruct o; unfold view, wq; cbn; rewrite ?Eq by done; done.
Qed.

Lemma sched_view_ok s v : locks_ok s → sched_good v → (∀ o, view (set_sch v s) o = view s o) → locks_ok (set_sch v s).
Proof. intros [[_ Hs] Hv] Hg E. split; [by split|]. intros o. rewrite E. apply Hv. Qed.

Lemma exec_fine h mask s : locks_ok s → lop_enabled (LExec h mask) s → fine (lift (do_exec h mask)) s.
Proof.
  intros Hl [[c Hc] Hlim]. destruct (exec_good h mask c (sch s) (qt_sched _ (lk_quiet _ Hl)) Hc Hlim) as (r & v & R & Hg & _ & Eq).
  exists r, (set_sch v s). split; [unfold lift; by rewrite R|]. apply sched_view_ok; [done | done |].
  intros o. destruct o; unfold view, wq; cbn; rewrite ?Eq by done; done.
Qed.

Lemma affinity_fine id mask s : locks_ok s → NR_CPUS ≤ id → fine (lift (sys_set_affinity id mask)) s.
Proof.
  intros Hl Hid. destruct (affinity_good id mask (sch s) (qt_sched _ (lk_quiet _ Hl)) Hid) as (r & v & R & Hg & Eq).
  exists r, (set_sch v s). split; [unfold lift; by rewrite R|]. apply sched_view_ok; [done | done |].
  intros o. destruct o; unfold view, wq; cbn; by rewrite Eq.
Qed.

Lemma mark_fine p s : locks_ok s → lop_enabled (LMark p) s → fine (lift (upd_pcb p (set_status TASK_KILLED))) s.
Proof.
  intros Hl (H2 & x & Hx & Hst). eexists tt, _. split; [unfold lift; by rewrite (upd_pcb_run _ _ _ _ Hx)|].
  apply sched_view_ok; [done | | by intros []]. eapply (tweak_good p x (set_status TASK_KILLED x) (sch s)); try done; [apply Hl | by right].
Qed.

Lemma sema_waiters_clean p id v m r w l :
  vclean p (vrelease id v) = VSema m r w l → ∃ m0 r0 w0 l0, v = VSema m0 r0 w0 l0 ∧ ∀ q, q ∈ w → q ∈ w0.
Proof.
  destruct v as [m0 r0 w0 l0|b0 r0 w0 l0|k0 r0 w0 l0|m0 r0 w0 l0|m0 r0 y wl we wf ll le lf]; unfold vclean; cbn [vrelease oref].
  - destruct (_ && _); cbn; destruct (has_bit r0 p); try done; by destruct (_ =? 0).
  - destruct (has_bit r0 p); try done; by destruct (_ =? 0).
  - destruct (has_bit r0 p); try done; by destruct (_ =? 0).
  - intros E. exists m0, r0, w0, l0. split; [done|]. intros q Hq. destruct (has_bit r0 p); [destruct (_ =? 0)|]; inversion E; subst; try done.
    by apply not_elem_of_nil in Hq.
  - destruct (has_bit r0 p); try done; by destruct (_ =? 0).
Qed.

Lemma not_on_sema_clean p q id s s' :
  not_on_sema p s → (∀ o, in_table o → view s' o = vclean q (vrelease id (view s o))) →
  (∀ o, ¬ in_table o → view s' o = view s o) → not_on_sema p s'.
Proof.
  intros Hn H1 H2 i Hi. destruct (Z.lt_decidable (Z.of_nat i) SEMAPHORE_NUM) as [Ht|Ht].
  - specialize (H1 (OSema i) Ht). symmetry in H1. destruct (sema_waiters_clean q id (view s (OSema i)) _ _ _ _ H1) as (m & r & w & l & E & Hw).
    inversion E. subst. by apply (Hn i), Hw.
  - specialize (H2 (OSema i) Ht). cbn in H2. injection H2 as _ _ Ew _. apply (Hn i). by rewrite <- Ew.
Qed.

(** [cleanup_proc], of the caller ([out] is its hart) or of a process that does not run. *)
Lemma cleanup_proc_run out p q x s :
  locks_ok s → core out (sch s) → pcb_all (sch s) !! p = Some x → (2 ≤ p)%nat → status x ≠ TASK_EXITED →
  (∀ h, harts (sch s) !! h = Some p → out = Some h) → not_on_sema p s → find_pcb (pid x) (sch s) = Ok (Some q, sch s) →
  ∃ s', cleanup_proc p s = Ok (tt, s') ∧ core out (sch s') ∧ (∀ r, spins s' r = UNLOCKED) ∧ (∀ o, view_ok (view s' o)) ∧
    harts (sch s') = harts (sch s) ∧ (∃ y, pcb_all (sch s') !! p = Some y ∧ status y = TASK_EXITED) ∧
    (∀ o, in_table o → view s' o = vdrop p (vclean q (vrelease (pid x) (view s o)))).
Proof.
  intros Hl Hco Hx H2 Hst Hout Hn Hid.
  destruct (cleanup_locks_run (pid x) q s Hl Hid) as (s1 & R1 & Hl1 & _ & V1 & V1' & Hi1 & Hh1).
  assert (∃ y, pcb_all (sch s1) !! p = Some y ∧ pid y = pid x ∧ status y ≠ TASK_EXITED) as (y & Hy & Epid & Hsy).
  { assert (ident <$> pcb_all (sch s1) !! p = Some (ident x)) as E by (rewrite <- list_lookup_fmap, Hi1, list_lookup_fmap, Hx; done).
    apply fmap_Some in E as (y & Hy & E). injection E as E1 E2. exists y. split_and!; [done | done |]. intros E.
    apply Hst, (proj1 (bool_decide_eq_true _)). rewrite E2. by apply bool_decide_eq_true. }
  assert (sched_inv out (sch s1)) as Hi.
  { pose proof (qt_sched _ (lk_quiet _ Hl1)) as [Hi _ _]. destruct out as [h|]; [by apply inv_out | done]. }
  destruct (release_run out p y (sch s1) Hi (sg_ring _ (qt_sched _ (lk_quiet _ Hl1))) Hy H2 Hsy) as
    (v & R2 & Hi2 & Hr2 & Eh2 & Ep2 & Hex & Eq2); [by rewrite Hh1|].
  pose proof (not_on_sema_clean p q (pid x) s s1 Hn V1 V1') as Hn1.
  exists (set_sch v s1). split_and!.
  - unfold cleanup_proc. rewrite (bind_Ok _ _ s x s).
    + rewrite (bind_Ok _ _ _ _ _ R1). unfold lift. by rewrite R2.
    + unfold lift. rewrite (get_pcb_run _ _ _ Hx). by destruct s.
  - split; [done | done |]. cbn. rewrite Ep2. apply (sg_pid _ (qt_sched _ (lk_quiet _ Hl1))).
  - apply Hl1.
  - intros o. rewrite (ended_view s1 v p Eq2). apply drop_ok; [apply Hl1|]. intros m r w l E. destruct o; inversion E. subst. apply Hn1.
  - cbn. by rewrite Eh2.
  - exact Hex.
  - intros o Ho. rewrite (ended_view s1 v p Eq2). by rewrite V1.
Qed.

Lemma end_fine p s : locks_ok s → lop_enabled (LEnd p) s → fine (cleanup_proc p) s.
Proof.
  intros Hl (H2 & Hn & x & q & Hx & Hst & Hid). pose proof (sg_inv _ (qt_sched _ (lk_quiet _ Hl))) as Hi.
  destruct (cleanup_proc_run None p q x s) as (s' & R & Hc & Hs & Hv & _); try done.
  - by apply good_core, Hl.
  - destruct Hst; congruence.
  - intros h Hh. destruct (si_run _ _ _ Hi h p Hh) as (z & Hz & _ & Hsz); [done|]. assert (z = x) as -> by congruence.
    destruct Hst, Hsz; congruence.
  - exists tt, s'. split; [done|]. split; [|done]. split; [by apply good_core | done].
Qed.

Lemma exit_fine h now s : locks_ok s → lop_enabled (LExit h now) s → fine (c <- self h ;; cleanup_proc c ;; lift (do_scheduler h now)) s.
Proof.
  intros Hl (c & x & q & Hc & H2 & Hx & Hid). pose proof (qt_sched _ (lk_quiet _ Hl)) as [Hi Hr Hp].
  destruct (si_run _ _ _ Hi h c Hc) as (x' & Hx' & Hcx & Hst); [done|]. assert (x' = x) as -> by congruence.
  destruct (cleanup_proc_run (Some h) c q x s) as (s1 & R1 & Hc1 & Hs1 & Hv1 & Eh1 & (y & Hy & Hsy) & _); try done.
  - split; [by apply inv_out | done | done].
  - destruct Hst; congruence.
  - intros h' Hh'. f_equal. exact (NoDup_lookup _ _ _ _ (si_hdup _ _ _ Hi) Hc Hh').
  - intros i Hin. apply (ln_iff _ (si_linked _ _ _ Hi)) in Hin as (z & Hz & Hcz). congruence.
  - destruct (sched_run h now (sch s1) c y s1) as (v & R & Hg' & Eq); [done | by rewrite Eh1 | done | congruence | done |].
    exists tt, (set_sch v s1). split.
    + rewrite (bind_Ok _ _ _ _ _ (self_run h c s Hc)), (bind_Ok _ _ _ _ _ R1). exact R.
    + split; [split; [done | exact Hs1]|]. intros o. assert (view (set_sch v s1) o = view s1 o) as ->; [|apply Hv1].
      destruct o; unfold view, wq; cbn; rewrite ?Eq by done; done.
Qed.

#[export] Hint Resolve fine_mutex_init fine_cond_init fine_bar_init fine_sema_init fine_open fine_acquire fine_release fine_bar_wait
  fine_down fine_up fine_cond_wait fine_signal fine_broadcast fine_bar_destroy fine_cond_destroy fine_sema_destroy fine_close
  tick_fine exec_fine affinity_fine mark_fine end_fine exit_fine send_fine recv_fine : locks.

Lemma lock_step op s : locks_ok s → lop_enabled op s → fine (lop_run op) s.
Proof.
  intros Hl He. destruct op; cbn [lop_run]; try (by eauto 4 with locks).
  - apply fine_silent. unfold do_mbox_send. destruct (negb _); [by apply fine_ret|].
    destruct (decide (mbox_ref s (Z.to_nat idx) = 0)) as [E|E].
    + exists (MDone 0, msg), s. split; [|done]. unfold gets, bind. by rewrite E.
    + unfold fine, gets. unfold bind. rewrite (proj2 (Z.eqb_neq _ 0) E). by apply send_fine.
  - apply fine_silent. unfold do_mbox_recv. destruct (negb _); [by apply fine_ret|].
    destruct (decide (mbox_ref s (Z.to_nat idx) = 0)) as [E|E].
    + exists (MDone 0, []), s. split; [|done]. unfold gets, bind. by rewrite E.
    + unfold fine, gets. unfold bind. rewrite (proj2 (Z.eqb_neq _ 0) E). by apply recv_fine.
  - destruct He as [Hc Hr]. apply fine_silent, resume_fine; [done..|]. intros. by apply send_fine.
  - destruct He as [Hc Hr]. apply fine_silent, resume_fine; [done..|]. intros. by apply recv_fine.
  - exists tt, (spun r s). split; [|eapply sim_locks; [done | by apply sim_spun, Hl]].
    unfold relock. by rewrite (bind_Ok _ _ _ _ _ (spin_acquire_run _ _ (qt_spin _ (lk_quiet _ Hl) _))).
Qed.

(** ** Reachable states *)
Definition lock_boot : os := match init_mbox (no_refs booted) with Ok (_, s) => s | _ => no_refs booted end.

Inductive lock_reachable : os → Prop :=
| lreach_boot : lock_reachable lock_boot
| lreach_step s op s' : lock_reachable s → lop_enabled op s → lop_run op s = Ok (tt, s') → lock_reachable s'.

(** Nobody waits, nothing is held, nothing is referenced. *)
Record at_boot (s : os) : Prop := {
  ab_sched : sched_good (sch s);
  ab_queue q : wq s q = [];
  ab_spin r : spins s r = UNLOCKED;
  ab_free r : acquired (mutexes s r) = 0;
  ab_refs i : mlock_ref s i = 0 ∧ barrier_ref s i = 0 ∧ cond_ref s i = 0 ∧ sema_ref s i = 0 ∧ mbox_ref s i = 0;
}.

Lemma at_boot_ok s : at_boot s → locks_ok s.
Proof.
  intros [Hg Hq Hs Ha Hr]. split; [by split|].
  intros [i|i|i|i|i]; unfold view; rewrite !Hq; destruct (Hr i) as (E1 & E2 & E3 & E4 & E5); cbn; rewrite ?E1, ?E2, ?E3, ?E4, ?E5; try done.
Qed.

Lemma fn_insert_const {A B} `{EqDecision A} (f : A → B) k v x : f x = v → <[k := v]> f x = v.
Proof. intros E. destruct (decide (x = k)) as [->|]; [by rewrite fn_lookup_insert | by rewrite fn_lookup_insert_ne]. Qed.

Lemma at_boot_queue v q : sched_good v → (∀ q, queue v q = []) →
  sched_good (set_queue q [] v) ∧ ∀ q', queue (set_queue q [] v) q' = [].
Proof. intros Hg Hq. split; [by apply reset_good|]. intros q'. rewrite queue_reset; apply Hq. Qed.

Lemma init_one_boot i s :
  at_boot s → ∃ s', (modify (set_mbox_ref i 0) ;; spin_lock_init (SpMbox i) ;; mailbox_init i) s = Ok (tt, s') ∧ at_boot s'.
Proof.
  intros [Hg Hq Hs Ha Hr]. destruct (at_boot_queue _ (QMboxLock i) Hg Hq) as [Hg1 Hq1].
  destruct (at_boot_queue _ (QMboxEmpty i) Hg1 Hq1) as [Hg2 Hq2]. destruct (at_boot_queue _ (QMboxFull i) Hg2 Hq2) as [Hg3 Hq3].
  eexists. split; [reflexivity|]. split.
  - exact Hg3.
  - exact Hq3.
  - intros r. cbn. by repeat apply fn_insert_const.
  - intros r. cbn. destruct (decide (r = MBuf i)) as [->|]; [by rewrite fn_lookup_insert | by rewrite fn_lookup_insert_ne].
  - intros j. destruct (Hr j) as (E1 & E2 & E3 & E4 & E5). cbn. split_and!; [done..|]. by apply fn_insert_const.
Qed.

Lemma init_all_boot l s :
  at_boot s → ∃ s', for_each l (fun i => modify (set_mbox_ref i 0) ;; spin_lock_init (SpMbox i) ;; mailbox_init i) s = Ok (tt, s') ∧ at_boot s'.
Proof.
  revert s. induction l as [|i l IH]; intros s Hb; [by exists s|]. destruct (init_one_boot i s Hb) as (s1 & R1 & Hb1).
  destruct (IH s1 Hb1) as (s2 & R2 & Hb2). exists s2. split; [|done]. cbn [for_each]. by rewrite (bind_Ok _ _ _ _ _ R1).
Qed.

Lemma lock_boot_ok : locks_ok lock_boot.
Proof.
  destruct (init_all_boot (upto MBOX_NUM) (no_refs booted)) as (s & R & Hb).
  { split; try done. apply booted_good. }
  assert (init_mbox (no_refs booted) = Ok (tt, s)) as R' by exact R. unfold lock_boot. rewrite R'. by apply at_boot_ok.
Qed.

Lemma lock_reachable_ok s : lock_reachable s → locks_ok s.
Proof.
  induction 1 as [|s op s' _ IH He R]; [apply lock_boot_ok|]. destruct (lock_step op s IH He) as (a & s'' & R' & Hl). congruence.
Qed.
