(* ===== verification/LockClaims.v ===== *)
(** * Locks: what the calls guarantee, and runs that show what they do not *)

From S2P Require Import Prelude CString Sched SchedProofs SchedTheorems Locks Proc LockProofs LockOps LockTable LockCreate Mailbox LockTheorems.

(** C7 After boot, take any sequence of the calls of mutexes, barriers,
    conditions, semaphores and mailboxes, of timer interrupts, of starting, killing
    and exiting processes and of setting the affinity of a user process, in which:
    a mutex that is locked or waited with was created; a table of objects has room
    when one is created; goals of barriers are positive and initial values of
    semaphores not negative, and counts stay in 32 bits; indices for destroying a
    semaphore are in range; mailbox names fit the record; fewer than 2^31
    processes are started; only user processes make lock calls; a process killed
    while it ran is not killed a second time; a mailbox is not closed for good
    under a process that waits in it; and no process ends while it waits on a
    semaphore. (Without these the claim fails: [semaphore_kill_halts],
    [semaphore_negative_halts] and the other runs of LockDemo.v.) In every state
    such a sequence leads to: no spin lock is held between calls; a mutex that is free has no
    waiters, so no wake-up is lost; a barrier has fewer arrivals than its goal and
    no more waiters than arrivals; a semaphore below zero has exactly as many
    waiters as it is below zero, and none otherwise; a mailbox ring is intact and
    its buffer lock is free; nobody waits on an object that does not exist; and
    the process table is sound. *)
Theorem locks_invariant s : lock_reachable s → locks_ok s.
Proof. apply lock_reachable_ok. Qed.

(** C16 In every state that a sequence of calls leads to, every next call
    returns, as long as the sequence and the call keep to this: a mutex that is
    locked or waited with was created; a table of objects has room when one is
    created; goals of barriers are positive and initial values of semaphores not
    negative, and counts stay in 32 bits; indices for destroying a semaphore are
    in range; mailbox names fit the record; fewer than 2^31 processes are started;
    only user processes make lock calls; the affinity of a kernel process stays;
    a process killed while it ran is not killed a second time; a mailbox is not
    closed for good under a process that waits in it; and no process ends while it
    waits on a semaphore (after that an up halts the kernel,
    [semaphore_kill_halts]). Then no assertion fails, no list that is not
    initialised is followed, and no spin lock is waited for forever. *)
Theorem lock_calls_return s op :
  lock_reachable s → lop_enabled op s → ∃ s', lop_run op s = Ok (tt, s') ∧ lock_reachable s'.
Proof.
  intros Hr He. destruct (lock_step op s (lock_reachable_ok s Hr) He) as ([] & s' & R & _). exists s'. split; [done|]. by eapply lreach_step.
Qed.

(** C8 Mutual exclusion: [mutex_acquire] succeeds exactly when the mutex is
    free and then belongs to the caller; otherwise the owner stays and the caller
    waits at the end of the queue. A release by a process that does not own the
    mutex changes nothing; by its owner it frees the mutex and every waiter is
    taken off the queue. *)
Theorem mutex_excludes h now idx s c x :
  lock_reachable s → user_on h c x (sch s) → in_range idx LOCK_NUM = true →
  let i := Z.to_nat idx in let m := mutexes s (MLock i) in mlock_ref s i ≠ 0 →
  (∃ s', do_mutex_lock_acquire h now idx s = Ok (Some (acquired m =? 0), s') ∧
    changes (OMutex i)
      (if acquired m =? 0 then VMutex (mk_mutex 1 (pid x) (m_key m)) (mlock_ref s i) [] true
       else VMutex m (mlock_ref s i) (wq s (QMutex i) ++ [c]) true) s s') ∧
  (∃ s', do_mutex_lock_release h idx s = Ok (tt, s') ∧
    changes (OMutex i)
      (if decide (m_pid m = pid x) then VMutex (mk_mutex 0 (m_pid m) (m_key m)) (mlock_ref s i) [] true
       else view s (OMutex i)) s s').
Proof.
  intros Hr Hu E i m Href. pose proof (lock_reachable_ok s Hr) as Hl. split.
  - destruct (mutex_acquire_spec h now i s c x Hl Hu Href) as (s' & R & _ & C). exists s'. split; [|done].
    unfold do_mutex_lock_acquire. rewrite E. cbn [negb]. fold i. by rewrite (bind_Ok _ _ _ _ _ R).
  - destruct (mutex_release_spec h idx s c x Hl Hu E) as (s' & R & _ & C). exists s'. split; [done|]. fold i m in C.
    destruct (decide (m_pid m = pid x)) as [Ep|Ep]; [rewrite decide_True in C by done | rewrite decide_False in C by tauto]; done.
Qed.

(** C32 A barrier opens exactly at its goal: a caller that is not the last one
    is counted and waits; the last one does not wait, the count starts again at
    zero, and everyone who waited goes to the ready queue in the order of arrival. *)
Theorem barrier_opens_at_goal h now idx s c x :
  lock_reachable s → user_on h c x (sch s) → in_range idx BARRIER_NUM = true →
  let i := Z.to_nat idx in let b := barriers s i in barrier_ref s i ≠ 0 →
  ∃ s', do_barrier_wait h now idx s = Ok (current b + 1 <? goal b, s') ∧ locks_ok s' ∧
    changes (OBarrier i) (barrier_arrive c (view s (OBarrier i))) s s' ∧
    (goal b ≤ current b + 1 → wq s' QReady = wq s QReady ++ wq s (QBarrier i)).
Proof.
  intros Hr Hu E i b Href. pose proof (lock_reachable_ok s Hr) as Hl.
  destruct (barrier_wait_spec h now idx s c x Hl Hu E Href) as (s' & R & Hq & C & Hw). exists s'. split_and!; try done.
  eapply changes_ok; [done | done | | exact C]. apply arrive_ok; [|done]. apply (lk_view _ Hl (OBarrier i)).
Qed.

(** A semaphore counts: [do_semaphore_down] waits exactly when the count
    was not positive, [do_semaphore_up] wakes the process that waited longest,
    if any, and otherwise only counts. *)
Theorem semaphore_counts h now idx s c x :
  lock_reachable s → user_on h c x (sch s) → in_range idx SEMAPHORE_NUM = true →
  let i := Z.to_nat idx in let m := semaphores s i in sema_ref s i ≠ 0 → - 2 ^ 31 < count m < 2 ^ 31 - 1 →
  (∃ s', do_semaphore_down h now idx s = Ok (count m - 1 <? 0, s') ∧ locks_ok s' ∧
    changes (OSema i) (sema_down c (view s (OSema i))) s s') ∧
  (∃ s', do_semaphore_up idx s = Ok (tt, s') ∧ locks_ok s' ∧ changes (OSema i) (sema_up (view s (OSema i))) s s' ∧
    wq s' QReady = wq s QReady ++ take 1 (wq s (QSema i))).
Proof.
  intros Hr Hu E i m Href [Hm1 Hm2]. pose proof (lock_reachable_ok s Hr) as Hl. split.
  - destruct (sema_down_spec h now idx s c x Hl Hu E Href Hm1) as (s' & R & Hq & C). exists s'. split_and!; try done.
    eapply changes_ok; [done | done | | exact C]. apply down_ok; [|done]. apply (lk_view _ Hl (OSema i)).
  - destruct (sema_up_spec idx s Hl E Href Hm2 Hm1) as (s' & R & Hq & C & Hw). exists s'. split_and!; try done.
    eapply changes_ok; [done | done | | exact C]. apply up_ok; [|done | done]. apply (lk_view _ Hl (OSema i)).
Qed.

(** C33 [do_condition_wait] gives up the mutex and starts to wait without a
    gap: in the state it leaves, the caller is the last waiter of the condition,
    the mutex is free and has no waiters, each of those it had is awake, in the
    ready queue or already running on the hart of the caller, and no other lock
    object changed. (The states are those of the sequences of calls of
    [lock_reachable].) *)
Theorem condition_wait_releases h now ci mi s c x :
  lock_reachable s → user_on h c x (sch s) → in_range ci CONDITION_NUM = true → in_range mi LOCK_NUM = true →
  let i := Z.to_nat ci in let k := Z.to_nat mi in let m := mutexes s (MLock k) in cond_ref s i ≠ 0 → mlock_ref s k ≠ 0 →
  ∃ s', do_condition_wait h now ci mi s = Ok (true, s') ∧
    view s' (OCond i) = VCond (cond_keys s (CCond i)) (cond_ref s i) (wq s (QCond i) ++ [c]) true ∧
    view s' (OMutex k) = VMutex (mk_mutex 0 (m_pid m) (m_key m)) (mlock_ref s k) [] true ∧
    (∀ r, r ∈ wq s (QMutex k) → r ∈ wq s' QReady ∨ harts (sch s') !! h = Some r) ∧
    ∀ o, o ≠ OCond i → o ≠ OMutex k → view s' o = view s o.
Proof.
  intros Hr Hu E1 E2 i k m H1 H2.
  destruct (condition_wait_spec h now ci mi s c x (lock_reachable_ok s Hr) Hu E1 E2 H1 H2) as (s' & R & _ & V1 & V2 & V3 & V4). by exists s'.
Qed.

(** C15 A mailbox is a bounded queue of bytes: sending appends as much of the
    message as there is room for, in order, and waits with the rest; receiving
    takes the oldest bytes, as many as asked for, and waits when there are too
    few. Calls wait only for room or bytes, never for the buffer lock. *)
Theorem mailbox_fifo h now idx s c x :
  lock_reachable s → user_on h c x (sch s) → in_range idx MBOX_NUM = true →
  let i := Z.to_nat idx in let m := mailboxes s i in mbox_ref s i ≠ 0 →
  (∀ msg, ∃ s', let k := Nat.min (length msg) (room m) in
    do_mbox_send h now idx msg s =
      Ok ((if decide (length msg ≤ room m)%nat then MDone 0 else MParked AtWait 1, drop k msg), s') ∧ locks_ok s' ∧
    only_mbox i s s' ∧ ring_bytes (mailboxes s' i) = ring_bytes m ++ take k msg) ∧
  (∀ n, 0 ≤ n → ∃ s', let k := Nat.min (Z.to_nat n) (length (ring_bytes m)) in
    do_mbox_recv h now idx n s =
      Ok ((if decide (Z.to_nat n ≤ length (ring_bytes m))%nat then MDone 0 else MParked AtWait 1, take k (ring_bytes m)), s') ∧
    locks_ok s' ∧ only_mbox i s s' ∧ ring_bytes (mailboxes s' i) = drop k (ring_bytes m)).
Proof.
  intros Hr Hu E i m Href. pose proof (lock_reachable_ok s Hr) as Hl. apply Z.eqb_neq in Href as Href'.
  split; [intros msg | intros n Hn].
  - destruct (send_loop_run h now i c x msg s 0 (wq s (QMboxEmpty i)) (wq s (QMboxFull i)) Hl Hu) as (s' & R & Hl' & Ho & Hb & _); [by split|].
    exists s'. split_and!; [|done..]. unfold do_mbox_send. rewrite E. cbn [negb]. fold i. unfold gets, bind. by rewrite Href'.
  - destruct (recv_loop_run h now i c x (Z.to_nat n) s [] 0 (wq s (QMboxEmpty i)) (wq s (QMboxFull i)) Hl Hu) as (s' & R & Hl' & Ho & Hb & _); [by split|].
    exists s'. split_and!; [|done..]. unfold do_mbox_recv. rewrite E. cbn [negb]. fold i. unfold gets, bind. by rewrite Href'.
Qed.

(** C34 Killing a process that is ready or blocked, but not on a semaphore, has
    no children, and is neither the caller nor one of its ancestors, ends it and
    takes its locks back: its slot of the process table is free, none of its
    bits is left in the reference word of a lock object, no mutex is held under
    its pid, and the lock invariant holds. (For a process that waits on a
    semaphore the count stays wrong, [semaphore_kill_halts]; its pipes, open files
    and memory are not part of this state.) *)
Theorem kill_takes_locks_back h id s cur p x :
  lock_reachable s → NR_CPUS ≤ id → harts (sch s) !! h = Some cur → ancestor family_fuel id (Some cur) s = Ok (false, s) →
  find_pcb id (sch s) = Ok (Some p, sch s) → (2 ≤ p < 64)%nat → pcb_all (sch s) !! p = Some x →
  status x = TASK_READY ∨ status x = TASK_BLOCKED → pid x = id → child_list (sch s) p = [] → not_on_sema p s →
  ∃ s', do_kill h id s = Ok (1, s') ∧ locks_ok s' ∧ (∃ y, pcb_all (sch s') !! p = Some y ∧ status y = TASK_EXITED) ∧
    (∀ o, in_table o → has_bit (oref (view s' o)) p = false) ∧
    (∀ i, Z.of_nat i < LOCK_NUM → mlock_ref s' i ≠ 0 → acquired (mutexes s' (MLock i)) ≠ 0 → m_pid (mutexes s' (MLock i)) ≠ id).
Proof.
  intros Hr Hid Hcur Hanc Hf Hp Hx Hst Epid Hch Hn. pose proof (lock_reachable_ok s Hr) as Hl.
  pose proof (sg_inv _ (qt_sched _ (lk_quiet _ Hl))) as Hi.
  destruct (cleanup_proc_run None p p x s) as (s' & R & Hc & Hs & Hv & _ & Hex & V); try done.
  - by apply good_core, Hl.
  - lia.
  - destruct Hst; congruence.
  - intros h' Hh'. destruct (si_run _ _ _ Hi h' p Hh') as (z & Hz & _ & Hsz); [done|]. assert (z = x) as -> by congruence.
    destruct Hst, Hsz; congruence.
  - by rewrite Epid.
  - exists s'. split_and!; [| split; [split; [by apply good_core | done] | done] | done | |].
    + unfold do_kill, family_fuel. cbn [do_kill_rec]. rewrite (proj2 (Z.ltb_ge _ _) Hid).
      rewrite (bind_Ok _ _ _ _ _ (self_run h cur s Hcur)), (bind_Ok _ _ _ _ _ Hanc).
      rewrite (bind_Ok _ _ s (Some p) s) by (unfold lift; rewrite Hf; by destruct s).
      rewrite (bind_Ok _ _ s x s) by (unfold lift, get_pcb; rewrite Hx; by destruct s).
      rewrite decide_False by (destruct Hst; congruence). unfold gets. unfold bind at 1. rewrite Hch. cbn [for_each].
      unfold bind at 1, ret at 1. by rewrite (bind_Ok _ _ _ _ _ R).
    + intros o Ho. rewrite V by done. pose proof (vclean_bit p (vrelease (pid x) (view s o)) ltac:(lia)) as Hb.
      by destruct (vclean p (vrelease (pid x) (view s o))).
    + intros i Hin Href Ha E. specialize (V (OMutex i) Hin). rewrite Epid in V. revert V. cbn [view vrelease].
      destruct (negb (mlock_ref s i =? 0) && negb (acquired (mutexes s (MLock i)) =? 0) && (m_pid (mutexes s (MLock i)) =? id)) eqn:Eb;
        unfold vclean; cbn [oref]; destruct (has_bit _ _) eqn:Hb; try destruct (clear_bit _ _ =? 0);
        cbn [vclear vref vdrop]; intros V; injection V as V1 V2 V3 V4; rewrite V1 in *; cbn in Ha, E; try done; rewrite ?V2 in *; try done.
      * assert (mlock_ref s i ≠ 0) as H0 by (intros H0; by rewrite H0 in Hb).
        rewrite (proj2 (Z.eqb_neq _ 0) H0), (proj2 (Z.eqb_neq _ 0) Ha), E, Z.eqb_refl in Eb. done.
      * rewrite (proj2 (Z.eqb_neq _ 0) Href), (proj2 (Z.eqb_neq _ 0) Ha), E, Z.eqb_refl in Eb. done.
Qed.
