(* ===== verification/LockDemo.v ===== *)
(** * Locks: concrete runs

    Two processes on two harts use the locks: the theorems of LockClaims.v
    applied to states of these runs, and runs in which the calls go wrong. *)

From S2P Require Import Prelude CString Sched SchedProofs SchedTheorems Locks Proc LockProofs LockOps LockTable LockCreate Mailbox LockTheorems LockClaims.

Definition lafter (op : lop) (s : os) : os := match lop_run op s with Ok (_, s') => s' | _ => s end.
Definition lruns (op : lop) (s : os) : bool := match lop_run op s with Ok _ => true | _ => false end.

Lemma lreach_after op s : lock_reachable s → lop_enabled op s → lruns op s = true → lock_reachable (lafter op s).
Proof.
  unfold lruns, lafter. intros Hr He R. destruct (lop_run op s) as [[[] s']| |] eqn:E; [|done..]. by eapply lreach_step.
Qed.

(** Checks that evaluate. *)
Definition callsb (h : nat) (s : os) : bool :=
  match harts (sch s) !! h with
  | Some c => match pcb_all (sch s) !! c with
              | Some x => bool_decide (status x = TASK_RUNNING) && bool_decide (2 ≤ c)%nat | None => false end
  | None => false
  end.
Lemma callsb_true h s : callsb h s = true → calls h s.
Proof.
  unfold callsb. destruct (harts (sch s) !! h) as [c|] eqn:Ec; [|done]. destruct (pcb_all (sch s) !! c) as [x|] eqn:Ex; [|done].
  intros [H1%bool_decide_eq_true H2%bool_decide_eq_true]%andb_true_iff. by exists c, x.
Qed.

Lemma find_pcb_state id v r v' : find_pcb id v = Ok (r, v') → v' = v.
Proof.
  unfold find_pcb, get_pcb, gets, asserts, bind, ret, panic. destruct (id <? 0); [by intros [= _ <-]|].
  destruct (id <? NR_CPUS); [destruct (pcb_all v !! Z.to_nat id) as [x|]; [destruct (pid x =? id)|]; [by intros [= _ <-] | done | done]|].
  destruct (list_find _ _) as [[]|]; by intros [= _ <-].
Qed.
Definition findsb (id : Z) (p : nat) (v : sched) : bool :=
  match find_pcb id v with Ok (Some q, _) => bool_decide (q = p) | _ => false end.
Lemma findsb_true id p v : findsb id p v = true → find_pcb id v = Ok (Some p, v).
Proof.
  unfold findsb. destruct (find_pcb id v) as [[[q|] v']| |] eqn:E; try done. intros ->%bool_decide_eq_true.
  by rewrite (find_pcb_state _ _ _ _ E).
Qed.
Lemma creates h s x p c choice :
  harts (sch s) !! h = Some c → pcb_all (sch s) !! c = Some x → findsb (pid x) p (sch s) = true →
  match choice with Some _ => true | None => false end = true → can_create h s choice.
Proof.
  intros Hc Hx Hf Hs. split; [exists x, p, c; split_and!; [done | done | by apply findsb_true]|]. by destruct choice.
Qed.
Lemma callsb_user h s c x :
  harts (sch s) !! h = Some c → pcb_all (sch s) !! c = Some x → (2 ≤ c)%nat → status x = TASK_RUNNING → user_on h c x (sch s).
Proof. done. Qed.

(** Process 2 on hart 0 and process 3 on hart 1. *)
Definition d0 : os := lafter (LExec 0 2) (lafter (LExec 0 1) lock_boot).
Definition d1 : os := lafter (LTick 1 5) (lafter (LTick 0 5) d0).
Definition proc2 : pcb_t := mk_pcb 2 TASK_RUNNING 0 0 0 1 0 1 0 (Some 0%nat) None (Some 0%nat).
Definition proc3 : pcb_t := mk_pcb 3 TASK_RUNNING 0 0 0 1 0 2 1 (Some 0%nat) None (Some 0%nat).

Ltac now_vm := vm_compute; reflexivity.

Lemma d1_reachable : lock_reachable d1.
Proof.
  assert (lock_reachable d0) as H0.
  { apply lreach_after; [apply lreach_after; [constructor | |now_vm] | |now_vm].
    - split; [vm_compute; by eexists | now_vm].
    - split; [vm_compute; by eexists | now_vm]. }
  apply lreach_after; [apply lreach_after; [exact H0 | |now_vm] | |now_vm].
  - exists 0%nat. eexists. split_and!; now_vm.
  - exists 1%nat. eexists. split_and!; now_vm.
Qed.
Lemma d1_user2 : user_on 0 2 proc2 (sch d1).
Proof. split_and!; [now_vm | lia | now_vm | reflexivity]. Qed.
Lemma d1_user3 : user_on 1 3 proc3 (sch d1).
Proof. split_and!; [now_vm | lia | now_vm | reflexivity]. Qed.

(** Both create mutex, barrier, semaphore, condition and mailbox 0; process 2
    takes the mutex. *)
Definition e1 : os := lafter (LMutexInit 0 7) d1.
Definition e2 : os := lafter (LBarInit 0 0 2) e1.
Definition e3 : os := lafter (LSemaInit 0 7 0) e2.
Definition e4 : os := lafter (LCondInit 0 7) e3.
Definition e5 : os := lafter (LOpen 0 [97]) e4.
Definition d2 : os := lafter (LAcquire 0 6 0) e5.

Ltac by2 := apply (creates 0 _ proc2 2 2); now_vm.

Lemma e1_reachable : lock_reachable e1.
Proof. apply lreach_after; [exact d1_reachable | cbn [lop_enabled]; by2 | now_vm]. Qed.
Lemma e2_reachable : lock_reachable e2.
Proof. apply lreach_after; [exact e1_reachable | cbn [lop_enabled]; split; [by2 | lia] | now_vm]. Qed.
Lemma e3_reachable : lock_reachable e3.
Proof. apply lreach_after; [exact e2_reachable | cbn [lop_enabled]; split; [by2 | lia] | now_vm]. Qed.
Lemma e4_reachable : lock_reachable e4.
Proof. apply lreach_after; [exact e3_reachable | cbn [lop_enabled]; by2 | now_vm]. Qed.
Lemma e5_reachable : lock_reachable e5.
Proof. apply lreach_after; [exact e4_reachable | cbn [lop_enabled]; split; [by2 | now_vm] | now_vm]. Qed.
Lemma d2_reachable : lock_reachable d2.
Proof.
  apply lreach_after; [exact e5_reachable | cbn [lop_enabled] | now_vm].
  split; [apply callsb_true; now_vm | intros _; vm_compute; discriminate].
Qed.
Lemma d2_user2 : user_on 0 2 proc2 (sch d2).
Proof. split_and!; [now_vm | lia | now_vm | reflexivity]. Qed.
Lemma d2_user3 : user_on 1 3 proc3 (sch d2).
Proof. split_and!; [now_vm | lia | now_vm | reflexivity]. Qed.

Lemma locks_invariant_witness : lock_reachable d2 ∧ locks_ok d2.
Proof. split; [exact d2_reachable | exact (locks_invariant d2 d2_reachable)]. Defined.

Lemma lock_calls_return_witness : ∃ s', lop_run (LAcquire 1 7 0) d2 = Ok (tt, s') ∧ lock_reachable s'.
Proof.
  apply (lock_calls_return d2 (LAcquire 1 7 0) d2_reachable).
  split; [exists 3%nat, proc3; exact d2_user3 | intros _; vm_compute; discriminate].
Defined.

Lemma mutex_excludes_witness : ∃ s', do_mutex_lock_acquire 1 7 0 d2 = Ok (Some false, s') ∧
  view s' (OMutex 0) = VMutex (mk_mutex 1 2 7) 4 [3%nat] true.
Proof.
  destruct (mutex_excludes 1 7 0 d2 3 proc3 d2_reachable d2_user3 eq_refl) as [(s' & R & C & _) _]; [vm_compute; discriminate|].
  exists s'. split; [rewrite R; now_vm | change (Z.to_nat 0) with 0%nat in C; rewrite C; now_vm].
Defined.

Lemma barrier_opens_at_goal_witness : ∃ s', do_barrier_wait 1 7 0 d2 = Ok (true, s') ∧
  view s' (OBarrier 0) = VBarrier (mk_barrier 0 2 1) 4 [3%nat] true.
Proof.
  destruct (barrier_opens_at_goal 1 7 0 d2 3 proc3 d2_reachable d2_user3 eq_refl) as (s' & R & _ & [C _] & _); [vm_compute; discriminate|].
  exists s'. split; [rewrite R; now_vm | change (Z.to_nat 0) with 0%nat in C; rewrite C; now_vm].
Defined.

Lemma semaphore_counts_witness : ∃ s', do_semaphore_down 1 7 0 d2 = Ok (true, s') ∧
  view s' (OSema 0) = VSema (mk_sema 7 (-1)) 5 [3%nat] true.
Proof.
  destruct (semaphore_counts 1 7 0 d2 3 proc3 d2_reachable d2_user3 eq_refl) as [(s' & R & _ & [C _]) _];
    [vm_compute; discriminate | split; vm_compute; reflexivity |].
  exists s'. split; [rewrite R; now_vm | change (Z.to_nat 0) with 0%nat in C; rewrite C; now_vm].
Defined.

Lemma condition_wait_releases_witness : ∃ s', do_condition_wait 0 7 0 0 d2 = Ok (true, s') ∧
  view s' (OMutex 0) = VMutex (mk_mutex 0 2 7) 4 [] true.
Proof.
  destruct (condition_wait_releases 0 7 0 0 d2 2 proc2 d2_reachable d2_user2 eq_refl eq_refl) as (s' & R & _ & V & _);
    [vm_compute; discriminate | vm_compute; discriminate |].
  exists s'. split; [exact R | change (Z.to_nat 0) with 0%nat in V; rewrite V; now_vm].
Defined.

Lemma mailbox_fifo_witness : ∃ s', do_mbox_send 1 7 0 [104; 105] d2 = Ok ((MDone 0, []), s') ∧
  ring_bytes (mailboxes s' 0%nat) = [104; 105].
Proof.
  destruct (mailbox_fifo 1 7 0 d2 3 proc3 d2_reachable d2_user3 eq_refl) as [Hs _]; [vm_compute; discriminate|].
  destruct (Hs [104; 105]) as (s' & R & _ & _ & E). exists s'. split; [rewrite R; now_vm | change (Z.to_nat 0) with 0%nat in E; rewrite E; now_vm].
Defined.

(** Process 3 waits for the mutex and is killed by process 2. *)
Definition d3 : os := lafter (LAcquire 1 7 0) d2.
Lemma d3_reachable : lock_reachable d3.
Proof.
  apply lreach_after; [exact d2_reachable | | now_vm].
  split; [exists 3%nat, proc3; exact d2_user3 | intros _; vm_compute; discriminate].
Qed.

Lemma ancestor_state fuel id p s b s' : ancestor fuel id p s = Ok (b, s') → s' = s.
Proof.
  revert p. induction fuel as [|n IH]; intros [p|]; cbn; try done; try (by intros [= _ <-]).
  unfold lift, get_pcb, bind. destruct (pcb_all (sch s) !! p) as [x|]; [|done].
  destruct (pid x =? id); [intros [= _ <-]; by destruct s|]. intros E. replace (set_sch (sch s) s) with s in E by (by destruct s). by apply IH in E.
Qed.

Lemma kill_takes_locks_back_witness : ∃ s', do_kill 0 3 d3 = Ok (1, s') ∧ locks_ok s'.
Proof.
  assert (ancestor family_fuel 3 (Some 2%nat) d3 = Ok (false, d3)) as Ha.
  { destruct (ancestor family_fuel 3 (Some 2%nat) d3) as [[b s']| |] eqn:E.
    - pose proof (ancestor_state _ _ _ _ _ _ E) as ->. destruct b; [|reflexivity]. exfalso.
      assert (match ancestor family_fuel 3 (Some 2%nat) d3 with Ok (b, _) => b | _ => true end = false) as H by now_vm.
      rewrite E in H. discriminate H.
    - exfalso. assert (match ancestor family_fuel 3 (Some 2%nat) d3 with Ok _ => true | _ => false end = true) as H by now_vm.
      rewrite E in H. discriminate H.
    - exfalso. assert (match ancestor family_fuel 3 (Some 2%nat) d3 with Ok _ => true | _ => false end = true) as H by now_vm.
      rewrite E in H. discriminate H. }
  assert (∀ i, wq d3 (QSema i) = []) as Hs by (intros [|i]; vm_compute; reflexivity).
  destruct (kill_takes_locks_back 0 3 d3 2 3 (mk_pcb 3 TASK_BLOCKED 0 0 0 1 0 2 1 (Some 0%nat) (Some (QMutex 0)) (Some 0%nat))
    d3_reachable) as (s' & R & Hl & _).
  - vm_compute. discriminate.
  - now_vm.
  - exact Ha.
  - apply findsb_true. now_vm.
  - lia.
  - now_vm.
  - right. reflexivity.
  - reflexivity.
  - now_vm.
  - intros i Hi. rewrite Hs in Hi. by apply not_elem_of_nil in Hi.
  - exists s'. split; [exact R | exact Hl].
Defined.

(** ** Runs that go wrong *)
Definition observe {A B} (m : OM A) (f : A → os → B) (s : os) : outcome B :=
  match m s with Ok (a, s') => Ok (f a s') | Panic why => Panic why | OutOfFuel => OutOfFuel end.

(** Killing a process that waits on a semaphore leaves the count below zero with
    nobody waiting: the next [do_semaphore_up] halts the kernel. *)
Theorem semaphore_kill_halts :
  (do_semaphore_down 1 7 0 ;; do_kill 0 3 ;; do_semaphore_up 0) d2 = Panic "semaphore wait list is empty while count < 0".
Proof. vm_compute. reflexivity. Qed.

(** So does a semaphore that was created with a negative count. *)
Theorem semaphore_negative_halts :
  (do_semaphore_init 0 9 (-1) ;; do_semaphore_up 1) d2 = Panic "semaphore wait list is empty while count < 0".
Proof. vm_compute. reflexivity. Qed.

(** [do_semaphore_init] sets the bit of kernel process 0, which never exits: the
    semaphore survives its only user. *)
Theorem semaphore_leaks : observe (do_exit 0 8) (fun _ s => sema_ref s 0) d2 = Ok 1.
Proof. vm_compute. reflexivity. Qed.

(** [do_barrier_init] never stores the key: two processes that use key 5 get
    different barriers and wait for each other forever. *)
Theorem barrier_key_not_stored :
  observe (a <- do_barrier_init 0 5 2 ;; b <- do_barrier_init 1 5 2 ;; ret (a, b)) (fun r _ => r) d1 = Ok (0, 1).
Proof. vm_compute. reflexivity. Qed.

(** A killed waiter stays counted: the barrier for two opens for one. *)
Theorem barrier_counts_the_dead :
  observe (do_barrier_wait 1 7 0 ;; do_kill 0 3 ;; do_barrier_wait 0 8 0) (fun waited _ => waited) d2 = Ok false.
Proof. vm_compute. reflexivity. Qed.

(** Closing a mailbox while a process waits in it: the process wakes up in a
    mailbox that was zeroed and follows a null list. *)
Theorem mailbox_close_faults :
  (do_mbox_recv 1 7 0 1 ;; do_mbox_close 0 ;; lift (do_scheduler 1 8) ;; recv_resume 1 8 0 AtWait 1 [] 1) d2 =
    Panic "fault: list not initialised".
Proof. vm_compute. reflexivity. Qed.

(** [do_mutex_lock_acquire] does not check that the mutex was created: waiting
    for such a mutex follows a null list. *)
Theorem mutex_not_created_faults :
  (do_mutex_lock_acquire 0 6 5 ;; do_mutex_lock_acquire 1 6 5) d2 = Panic "fault: list not initialised".
Proof. vm_compute. reflexivity. Qed.

(** [do_condition_wait] releases the mutex whoever holds it: process 3 frees the
    mutex of process 2. *)
Theorem condition_wait_frees_foreign_mutex :
  acquired (mutexes d2 (MLock 0)) = 1 ∧ m_pid (mutexes d2 (MLock 0)) = 2 ∧
  observe (do_condition_wait 1 7 0 0) (fun _ s => acquired (mutexes s (MLock 0))) d2 = Ok 0.
Proof. vm_compute. done. Qed.

(** A second kill of a process that was marked as killed dismantles it while it
    still runs on its hart. *)
Theorem second_kill_of_running_process :
  observe (do_kill 0 3 ;; do_kill 0 3) (fun _ s => (harts (sch s) !! 1%nat, status <$> pcb_all (sch s) !! 3%nat)) d2 =
    Ok (Some 3%nat, Some TASK_EXITED).
Proof. vm_compute. reflexivity. Qed.
