(* ===== verification/Pgtable.v ===== *)
(** * arch/riscv/include/pgtable.h: addresses and page-table entries

    Sv39: an entry is a 64-bit word, the page-frame number above the ten
    attribute bits. Memory is a map from kernel virtual addresses to bytes;
    an entry occupies eight of them. *)

From S2P Require Import Prelude Bytes.

Definition NORMAL_PAGE_SHIFT : Z := 12.
Definition NORMAL_PAGE_SIZE : Z := Z.shiftl 1 NORMAL_PAGE_SHIFT.
Definition PPN_BITS : Z := 9.
Definition VPN_MASK : Z := Z.shiftl 1 PPN_BITS - 1.
Definition VA_MASK : Z := Z.shiftl 1 39 - 1.
Definition PGDIR_PA : Z := 0x51000000.
Definition KERNEL_ADDR_TAG : Z := 0xffffffc000000000.
Definition PGDIR_VA : Z := Z.lor PGDIR_PA KERNEL_ADDR_TAG.
Definition VA_EFFECTIVE_MASK : Z := Z.shiftl 1 38 - 1.
Definition PA_TOP : Z := 0x60000000.
Definition PA_BOTTOM : Z := 0x50000000.

Definition PAGE_PRESENT : Z := Z.shiftl 1 0.
Definition PAGE_READ : Z := Z.shiftl 1 1.
Definition PAGE_WRITE : Z := Z.shiftl 1 2.
Definition PAGE_EXEC : Z := Z.shiftl 1 3.
Definition PAGE_USER : Z := Z.shiftl 1 4.
Definition PAGE_GLOBAL : Z := Z.shiftl 1 5.
Definition PAGE_ACCESSED : Z := Z.shiftl 1 6.
Definition PAGE_DIRTY : Z := Z.shiftl 1 7.
Definition PAGE_SOFT : Z := Z.shiftl 1 8.
Definition PAGE_PFN_SHIFT : Z := 10.

(** [~x] of a 64-bit word. *)
Definition not64 (x : Z) : Z := u64 (Z.lnot x).

(** ** Translation between physical and kernel virtual addresses *)
Definition kva2pa {S} (kva : Z) : M S Z :=
  asserts (Z.land kva (not64 VA_EFFECTIVE_MASK) =? KERNEL_ADDR_TAG) "kva2pa called with invalid kva" ;;
  ret (Z.lxor kva KERNEL_ADDR_TAG).
Definition pa2kva {S} (pa : Z) : M S Z :=
  asserts ((PA_BOTTOM <=? pa) && (pa <? PA_TOP)) "pa2kva called with invalid pa" ;;
  ret (Z.lor pa KERNEL_ADDR_TAG).

(** ** Entries *)
Definition get_pa (entry : Z) : Z := u64 (Z.shiftl (Z.shiftr entry PAGE_PFN_SHIFT) NORMAL_PAGE_SHIFT).
Definition get_pfn (entry : Z) : Z := Z.shiftr entry PAGE_PFN_SHIFT.
Definition set_pfn (entry pfn : Z) : Z :=
  Z.lor (Z.land entry (Z.shiftl 1 PAGE_PFN_SHIFT - 1)) (u64 (Z.shiftl pfn PAGE_PFN_SHIFT)).
Definition get_attribute (entry mask : Z) : Z := Z.land entry mask.
Definition set_attribute {S} (entry bits : Z) : M S Z :=
  asserts (Z.land bits (not64 (Z.shiftl 1 PAGE_PFN_SHIFT - 1)) =? 0) "set_attribute with invalid bits" ;;
  ret (Z.lor entry bits).
Definition clear_attribute (entry bits : Z) : Z := Z.land entry (not64 bits).
(** [get_attribute(e, mask)] as a condition. *)
Definition has (entry mask : Z) : bool := negb (get_attribute entry mask =? 0).
Definition RWX : Z := Z.lor (Z.lor PAGE_READ PAGE_WRITE) PAGE_EXEC.

(** [get_vpn]: [vpn2], [vpn1] and [vpn0]. *)
Definition get_vpn (va : Z) : Z * Z * Z :=
  let va := Z.land va VA_MASK in
  (Z.land (Z.shiftr va (NORMAL_PAGE_SHIFT + PPN_BITS + PPN_BITS)) VPN_MASK,
   Z.land (Z.shiftr va (NORMAL_PAGE_SHIFT + PPN_BITS)) VPN_MASK,
   Z.land (Z.shiftr va NORMAL_PAGE_SHIFT) VPN_MASK).

(** ** Memory *)
Definition ram : Type := Z → Z.
Definition bytes_at (m : ram) (a n : Z) : list Z := (fun j => m (a + j)) <$> seqZ 0 n.
Definition put_bytes (a : Z) (v : list Z) (m : ram) : ram := fun x =>
  if (a <=? x) && (x <? a + Z.of_nat (length v)) then default 0 (v !! Z.to_nat (x - a)) else m x.
Definition load64 (m : ram) (a : Z) : Z := unle (bytes_at m a 8).
Definition store64 (a v : Z) (m : ram) : ram := put_bytes a (le 8 v) m.
(** [clear_pgdir]: [memset] of one page. *)
Definition clear_pgdir (pgdir_addr : Z) (m : ram) : ram := fun x =>
  if (pgdir_addr <=? x) && (x <? pgdir_addr + NORMAL_PAGE_SIZE) then 0 else m x.
