(* ===== verification/PgtableProofs.v ===== *)
(** * The algebra of page-table entries, and of loads and stores

    An entry is a page-frame number and ten attribute bits; every function of
    pgtable.h is an operation on that pair. *)

From S2P Require Import Prelude Bytes Pgtable.

Definition entry (pfn attrs : Z) : Z := pfn * 1024 + attrs.

Lemma lor_disjoint a b k : 0 ≤ k → 0 ≤ a < 2 ^ k → Z.lor a (b * 2 ^ k) = a + b * 2 ^ k.
Proof.
  intros Hk Ha. rewrite <- (Z.shiftl_mul_pow2 b k) by done.
  assert (Z.land a (Z.shiftl b k) = 0) as E.
  { apply Z.bits_inj'. intros i Hi. rewrite Z.land_spec, Z.bits_0, Z.shiftl_spec by done.
    destruct (decide (i < k)).
    - by rewrite (Z.testbit_neg_r b) by lia; rewrite andb_false_r.
    - rewrite <- (Z.mod_small a (2 ^ k)) by done. by rewrite Z.mod_pow2_bits_high by lia. }
  rewrite <- Z.lxor_lor by done. by rewrite <- Z.add_nocarry_lxor.
Qed.

Lemma lor_high b a k : 0 ≤ k → 0 ≤ a < 2 ^ k → Z.lor (b * 2 ^ k) a = b * 2 ^ k + a.
Proof. intros. rewrite Z.lor_comm, lor_disjoint by done. lia. Qed.

Lemma testbit_small a k i : 0 ≤ a < 2 ^ k → k ≤ i → Z.testbit a i = false.
Proof.
  intros Ha Hi. destruct (decide (k < 0)) as [Hk|].
  - rewrite Z.pow_neg_r in Ha by done. lia.
  - rewrite <- (Z.mod_small a (2 ^ k)) by done. by apply Z.mod_pow2_bits_high; lia.
Qed.

(** The bits of a number cut in two at [k]. *)
Lemma testbit_split b a k i :
  0 ≤ k → 0 ≤ a < 2 ^ k →
  Z.testbit (b * 2 ^ k + a) i = if decide (i < k) then Z.testbit a i else Z.testbit b (i - k).
Proof.
  intros Hk Ha. rewrite <- lor_high by done. rewrite Z.lor_spec. case_decide.
  - by rewrite Z.mul_pow2_bits_low.
  - rewrite Z.mul_pow2_bits by done. by rewrite (testbit_small a k), orb_false_r by lia.
Qed.

Lemma land_low b a m k :
  0 ≤ k → 0 ≤ a < 2 ^ k → 0 ≤ m < 2 ^ k → Z.land (b * 2 ^ k + a) m = Z.land a m.
Proof.
  intros Hk Ha Hm. apply Z.bits_inj'. intros i Hi. rewrite !Z.land_spec, testbit_split by done.
  case_decide; [done|]. by rewrite (testbit_small m k), !andb_false_r by lia.
Qed.

Lemma land_range a b k : 0 ≤ k → 0 ≤ a < 2 ^ k → 0 ≤ Z.land a b < 2 ^ k.
Proof.
  intros Hk Ha. assert (Z.land a b = Z.land a b mod 2 ^ k) as ->.
  { apply Z.bits_inj'. intros i Hi. destruct (decide (i < k)).
    - by rewrite Z.mod_pow2_bits_low by lia.
    - rewrite Z.mod_pow2_bits_high by lia. by rewrite Z.land_spec, (testbit_small a k) by lia. }
  apply Z.mod_pos_bound. by apply Z.pow_pos_nonneg.
Qed.

Lemma lor_range a b k : 0 ≤ k → 0 ≤ a < 2 ^ k → 0 ≤ b < 2 ^ k → 0 ≤ Z.lor a b < 2 ^ k.
Proof.
  intros Hk Ha Hb. assert (Z.lor a b = Z.lor a b mod 2 ^ k) as ->.
  { apply Z.bits_inj'. intros i Hi. destruct (decide (i < k)).
    - by rewrite Z.mod_pow2_bits_low by lia.
    - rewrite Z.mod_pow2_bits_high by lia. by rewrite Z.lor_spec, (testbit_small a k), (testbit_small b k) by lia. }
  apply Z.mod_pos_bound. by apply Z.pow_pos_nonneg.
Qed.

(** ** Entries *)
Lemma entry_split e : e = entry (e / 1024) (e mod 1024).
Proof. unfold entry. pose proof (Z.div_mod e 1024 ltac:(lia)). lia. Qed.

Lemma entry_shift p a : 0 ≤ a < 1024 → Z.shiftr (entry p a) PAGE_PFN_SHIFT = p.
Proof.
  intros Ha. unfold entry, PAGE_PFN_SHIFT. rewrite Z.shiftr_div_pow2 by done.
  change (2 ^ 10) with 1024. rewrite Z.div_add_l by lia. rewrite Z.div_small by done. lia.
Qed.

Lemma get_pfn_entry p a : 0 ≤ a < 1024 → get_pfn (entry p a) = p.
Proof. apply entry_shift. Qed.

Lemma get_pa_entry p a : 0 ≤ a < 1024 → 0 ≤ p < 2 ^ 52 → get_pa (entry p a) = p * 4096.
Proof.
  intros Ha Hp. unfold get_pa. rewrite entry_shift by done. unfold NORMAL_PAGE_SHIFT.
  rewrite Z.shiftl_mul_pow2 by done. apply u64_small. lia.
Qed.

Lemma set_pfn_entry p a q : 0 ≤ a < 1024 → 0 ≤ q < 2 ^ 54 → set_pfn (entry p a) q = entry q a.
Proof.
  intros Ha Hq. unfold set_pfn, entry, PAGE_PFN_SHIFT. rewrite !Z.shiftl_mul_pow2 by done.
  rewrite u64_small by lia. change (1 * 2 ^ 10 - 1) with (Z.ones 10).
  rewrite Z.land_ones by done. rewrite (Z.add_comm (p * 1024)).
  change (2 ^ 10) with 1024 at 1. rewrite Z.mod_add, (Z.mod_small a) by lia.
  rewrite (lor_disjoint a q 10) by lia. lia.
Qed.

Lemma get_attribute_entry p a m : 0 ≤ a < 1024 → 0 ≤ m < 1024 → get_attribute (entry p a) m = Z.land a m.
Proof. intros Ha Hm. by apply (land_low p a m 10). Qed.

Lemma has_entry p a m : 0 ≤ a < 1024 → 0 ≤ m < 1024 → has (entry p a) m = has a m.
Proof. intros Ha Hm. unfold has. rewrite get_attribute_entry by done. done. Qed.

Lemma set_attribute_entry {S} (s : S) p a b :
  0 ≤ a < 1024 → 0 ≤ b < 1024 → set_attribute (entry p a) b s = Ok (entry p (Z.lor a b), s).
Proof.
  intros Ha Hb. unfold set_attribute. rewrite (bind_Ok _ _ s tt s).
  - unfold ret, entry. do 2 f_equal. change 1024 with (2 ^ 10) in *.
    rewrite <- !lor_high by (try apply lor_range; done). by rewrite Z.lor_assoc.
  - apply asserts_true. apply Z.eqb_eq. apply Z.bits_inj'. intros i Hi.
    rewrite Z.land_spec, Z.bits_0. destruct (decide (i < 10)).
    + unfold not64, u64, wrap. rewrite Z.mod_pow2_bits_low by lia. rewrite Z.lnot_spec by done.
      change (Z.shiftl 1 PAGE_PFN_SHIFT - 1) with (Z.ones 10). rewrite Z.ones_spec_low by lia. by rewrite andb_false_r.
    + by rewrite (testbit_small b 10) by lia.
Qed.

Lemma clear_attribute_entry p a b :
  0 ≤ a < 1024 → 0 ≤ p < 2 ^ 54 → 0 ≤ b < 1024 →
  clear_attribute (entry p a) b = entry p (Z.ldiff a b).
Proof.
  intros Ha Hp Hb. assert (0 ≤ Z.ldiff a b < 2 ^ 10) as Hd by (rewrite Z.ldiff_land; by apply land_range).
  unfold clear_attribute, entry. change 1024 with (2 ^ 10) in *. apply Z.bits_inj'. intros i Hi.
  rewrite Z.land_spec, !(testbit_split p _ 10) by done.
  unfold not64, u64, wrap. destruct (decide (i < 64)).
  - rewrite Z.mod_pow2_bits_low, Z.lnot_spec by done. case_decide.
    + by rewrite Z.ldiff_spec.
    + by rewrite (testbit_small b 10), andb_true_r by lia.
  - rewrite Z.mod_pow2_bits_high, andb_false_r by lia. rewrite decide_False by lia.
    by rewrite (testbit_small p 54) by lia.
Qed.

Lemma entry_range p a : 0 ≤ a < 1024 → 0 ≤ p < 2 ^ 54 → 0 ≤ entry p a < 2 ^ 64.
Proof. unfold entry. lia. Qed.

(** ** Addresses *)
(** The kernel addresses of the physical memory. *)
Definition kernel_page (kva : Z) : Prop := KERNEL_ADDR_TAG + PA_BOTTOM ≤ kva < KERNEL_ADDR_TAG + PA_TOP.

Lemma pa2kva_run {S} (s : S) pa : PA_BOTTOM ≤ pa < PA_TOP → pa2kva pa s = Ok (KERNEL_ADDR_TAG + pa, s).
Proof.
  intros Hpa. unfold pa2kva. rewrite (bind_Ok _ _ s tt s).
  - unfold ret. do 2 f_equal. change KERNEL_ADDR_TAG with (67108863 * 2 ^ 38).
    rewrite lor_disjoint by (unfold PA_BOTTOM, PA_TOP in *; lia). lia.
  - apply asserts_true. unfold PA_BOTTOM, PA_TOP in *. lia.
Qed.

Lemma kva2pa_run {S} (s : S) kva : kernel_page kva → kva2pa kva s = Ok (kva - KERNEL_ADDR_TAG, s).
Proof.
  unfold kernel_page. intros Hk. set (pa := kva - KERNEL_ADDR_TAG).
  assert (0 ≤ pa < 2 ^ 38) as Hpa by (unfold pa, PA_BOTTOM, PA_TOP in *; lia).
  assert (kva = 67108863 * 2 ^ 38 + pa) as E by (unfold pa; change KERNEL_ADDR_TAG with (67108863 * 2 ^ 38); lia).
  clearbody pa. subst kva. unfold kva2pa. rewrite (bind_Ok _ _ s tt s).
  - unfold ret. do 2 f_equal. apply Z.bits_inj'. intros i Hi. rewrite Z.lxor_spec.
    change KERNEL_ADDR_TAG with (67108863 * 2 ^ 38). rewrite testbit_split by done. case_decide.
    + by rewrite Z.mul_pow2_bits_low, xorb_false_r by lia.
    + rewrite Z.mul_pow2_bits, xorb_nilpotent by lia. by rewrite (testbit_small pa 38) by lia.
  - apply asserts_true. apply Z.eqb_eq. apply Z.bits_inj'. intros i Hi.
    rewrite Z.land_spec. change (not64 VA_EFFECTIVE_MASK) with (67108863 * 2 ^ 38).
    change KERNEL_ADDR_TAG with (67108863 * 2 ^ 38). rewrite testbit_split by done. case_decide.
    + by rewrite Z.mul_pow2_bits_low, andb_false_r by lia.
    + rewrite Z.mul_pow2_bits by lia. by rewrite andb_diag.
Qed.

(** ** Virtual page numbers *)
Lemma get_vpn_eq va :
  get_vpn va = (va / 2 ^ 30 mod 512, va / 2 ^ 21 mod 512, va / 2 ^ 12 mod 512).
Proof.
  unfold get_vpn, VA_MASK, VPN_MASK, NORMAL_PAGE_SHIFT, PPN_BITS.
  change (Z.shiftl 1 39 - 1) with (Z.ones 39). change (Z.shiftl 1 9 - 1) with (Z.ones 9).
  cbn [Z.add]. rewrite !Z.land_ones, !Z.shiftr_div_pow2 by done.
  assert (∀ k, 0 ≤ k ≤ 30 → va mod 2 ^ 39 / 2 ^ k mod 2 ^ 9 = va / 2 ^ k mod 512) as E.
  { intros k Hk. change 512 with (2 ^ 9). apply Z.bits_inj'. intros i Hi. destruct (decide (i < 9)).
    - rewrite !Z.mod_pow2_bits_low by lia. rewrite !Z.div_pow2_bits by lia.
      by rewrite Z.mod_pow2_bits_low by lia.
    - by rewrite !Z.mod_pow2_bits_high by lia. }
  by rewrite !E by lia.
Qed.

(** ** Loads and stores *)
Lemma bytes_at_length m a n : length (bytes_at m a n) = Z.to_nat n.
Proof. unfold bytes_at. by rewrite length_fmap, length_seqZ. Qed.

Lemma bytes_at_ext m m' a n :
  (∀ x, a ≤ x < a + n → m' x = m x) → bytes_at m' a n = bytes_at m a n.
Proof.
  intros Hx. unfold bytes_at. apply list_fmap_ext. intros i j Hij. apply lookup_seqZ in Hij. apply Hx. lia.
Qed.

Lemma bytes_at_lookup m a n i : 0 ≤ i < n → bytes_at m a n !! Z.to_nat i = Some (m (a + i)).
Proof.
  intros Hi. unfold bytes_at. rewrite list_lookup_fmap, lookup_seqZ_lt by lia. cbn. do 2 f_equal. lia.
Qed.

Lemma put_bytes_out a v m x : x < a ∨ a + Z.of_nat (length v) ≤ x → put_bytes a v m x = m x.
Proof.
  intros Hx. unfold put_bytes. destruct (Z.leb_spec a x); [|done].
  by destruct (Z.ltb_spec x (a + Z.of_nat (length v))); [lia|].
Qed.

Lemma put_bytes_in a v m i b : v !! i = Some b → put_bytes a v m (a + Z.of_nat i) = b.
Proof.
  intros Hi. pose proof (lookup_lt_Some _ _ _ Hi). unfold put_bytes.
  rewrite (proj2 (Z.leb_le _ _)), (proj2 (Z.ltb_lt _ _)) by lia. cbn [andb].
  by rewrite Z.add_simpl_l, Nat2Z.id, Hi.
Qed.

Lemma bytes_put a v m : bytes_at (put_bytes a v m) a (Z.of_nat (length v)) = v.
Proof.
  apply list_eq. intros i. destruct (decide (i < length v)%nat) as [Hi|Hi].
  - rewrite <- (Nat2Z.id i) at 1. rewrite bytes_at_lookup by lia.
    destruct (lookup_lt_is_Some_2 _ _ Hi) as [b Hb]. by rewrite (put_bytes_in _ _ _ _ b), Hb.
  - rewrite !lookup_ge_None_2; rewrite ?bytes_at_length; lia || done.
Qed.

Lemma bytes_put_apart a v m b n :
  b + n ≤ a ∨ a + Z.of_nat (length v) ≤ b → bytes_at (put_bytes a v m) b n = bytes_at m b n.
Proof. intros Hap. apply bytes_at_ext. intros x Hx. apply put_bytes_out. lia. Qed.

Lemma load_store a v m : 0 ≤ v < 2 ^ 64 → load64 (store64 a v m) a = v.
Proof.
  intros Hv. unfold load64, store64.
  pose proof (bytes_put a (le 8 v) m) as E. rewrite le_length in E. change (Z.of_nat 8) with 8 in E.
  rewrite E. by apply unle_le_small.
Qed.

Lemma load_store_apart a b v m : a + 8 ≤ b ∨ b + 8 ≤ a → load64 (store64 a v m) b = load64 m b.
Proof.
  intros Hap. unfold load64, store64. rewrite bytes_put_apart; [done|]. rewrite le_length. lia.
Qed.

Lemma load_ext m m' a : (∀ x, a ≤ x < a + 8 → m' x = m x) → load64 m' a = load64 m a.
Proof. intros Hx. unfold load64. by rewrite (bytes_at_ext m m'). Qed.
