(* ===== verification/Frames.v ===== *)
(** * Page frames, page groups, replacement and swap

    kernel/mm/pageframe.c, pf_evict.cpp, swap.c and the bookkeeping of
    pagegroup.cpp. A frame is named by its index in [pages], a group by its
    index in [page_groups]; a group's page list is the sequence of its frames,
    front first (list.c is verified against sequences in Dlist.v), and the
    [group_node] of a frame carries its container. *)

From S2P Require Import Prelude Bytes Block SdCard Pgtable.

Definition NR_CPUS : Z := 2.
Definition NUM_MAX_PAGEGROUP : nat := 64.
Definition PAGE_SIZE : Z := 4096.
Definition PTE_ENTRY_NUM : Z := PAGE_SIZE / 8.
Definition INIT_KERNEL_STACK : Z := 0xffffffc052000000.
Definition FREEMEM_KERNEL : Z := INIT_KERNEL_STACK + PAGE_SIZE * NR_CPUS.
Definition ALLMEM_KERNEL : Z := 0xffffffc060000000.
Definition MAX_PAGE_NUM : Z := (ALLMEM_KERNEL - FREEMEM_KERNEL) / PAGE_SIZE.
Definition ROUND (a n : Z) : Z := Z.land (u64 (a + n - 1)) (not64 (n - 1)).
Definition ROUNDDOWN (a n : Z) : Z := Z.land a (not64 (n - 1)).
Definition SWAP_SIZE : Z := 64 * 1024 * 1024.
Definition NUM_MAX_SWAP : Z := SWAP_SIZE / PAGE_SIZE.
Definition SWAP_LEN : Z := PAGE_SIZE / SECTOR_SIZE.

Definition pageframe_kva2id (addr : Z) : Z := i32 (u64 (addr - FREEMEM_KERNEL) / PAGE_SIZE).
Definition pageframe_id2addr (id : Z) : Z := u64 (FREEMEM_KERNEL + id * PAGE_SIZE).

(** ** State *)
Record pageframe_t := mk_frame {
  container : option nat;      (* group_node.container: the group whose list it is in *)
  pte : Z;                     (* PTE *, NULL when no entry maps the frame *)
  uva : Z;
}.
Definition set_container (v : option nat) (f : pageframe_t) : pageframe_t := mk_frame v (pte f) (uva f).
Definition set_pte (v : Z) (f : pageframe_t) : pageframe_t := mk_frame (container f) v (uva f).
Definition set_uva (v : Z) (f : pageframe_t) : pageframe_t := mk_frame (container f) (pte f) v.

(** The three tables of pf_evict.cpp; [fs_swap] is the copy with the
    [swap_alloc] and [on_page_free] of the page cache (cache.c). *)
Inductive algorithm := Fifo | SecondChance | Lru.
Record pagegroup_vtable_t := mk_vtable { algo : algorithm; fs_swap : bool }.

Record pageframe_group_t := mk_group {
  pages : list Z;
  capacity : Z;                (* size_t *)
  used : Z;                    (* size_t *)
  refcount : Z;                (* int *)
  vtable : pagegroup_vtable_t;
}.
Definition set_pages (v : list Z) (g : pageframe_group_t) : pageframe_group_t :=
  mk_group v (capacity g) (used g) (refcount g) (vtable g).
Definition set_capacity (v : Z) (g : pageframe_group_t) : pageframe_group_t :=
  mk_group (pages g) v (used g) (refcount g) (vtable g).
Definition set_used (v : Z) (g : pageframe_group_t) : pageframe_group_t :=
  mk_group (pages g) (capacity g) v (refcount g) (vtable g).
Definition set_refcount (v : Z) (g : pageframe_group_t) : pageframe_group_t :=
  mk_group (pages g) (capacity g) (used g) v (vtable g).
Definition set_vtable (v : pagegroup_vtable_t) (g : pageframe_group_t) : pageframe_group_t :=
  mk_group (pages g) (capacity g) (used g) (refcount g) v.

(** [attrs], [frames] and the swap map are total functions; every access goes
    through a check of the bounds of the C array. *)
Record mm := mk_mm {
  mem : ram;
  card : sdcard;
  cur_kernel_mem : Z;
  attrs : Z → Z;                    (* attrs[id].start *)
  frames : Z → pageframe_t;         (* pages[id] *)
  page_groups : list pageframe_group_t;
  swap_base_location : Z;
  swap_using : Z → bool;
  swap_used : Z;                    (* uint64_t *)
  swap_next_idx : Z;
  last_accessed : Z → Z;
  io_base : Z;
  cache_pgdir : Z;
  fs_cache_group : nat;
  fs_buffer : Z;                    (* the address of the static buffer of fs_cache_swap_free *)
}.
Definition set_mem (v : ram) (s : mm) : mm :=
  mk_mm v (card s) (cur_kernel_mem s) (attrs s) (frames s) (page_groups s) (swap_base_location s) (swap_using s)
    (swap_used s) (swap_next_idx s) (last_accessed s) (io_base s) (cache_pgdir s) (fs_cache_group s) (fs_buffer s).
Definition set_card (v : sdcard) (s : mm) : mm :=
  mk_mm (mem s) v (cur_kernel_mem s) (attrs s) (frames s) (page_groups s) (swap_base_location s) (swap_using s)
    (swap_used s) (swap_next_idx s) (last_accessed s) (io_base s) (cache_pgdir s) (fs_cache_group s) (fs_buffer s).
Definition set_cur (v : Z) (s : mm) : mm :=
  mk_mm (mem s) (card s) v (attrs s) (frames s) (page_groups s) (swap_base_location s) (swap_using s)
    (swap_used s) (swap_next_idx s) (last_accessed s) (io_base s) (cache_pgdir s) (fs_cache_group s) (fs_buffer s).
Definition set_attrs (v : Z → Z) (s : mm) : mm :=
  mk_mm (mem s) (card s) (cur_kernel_mem s) v (frames s) (page_groups s) (swap_base_location s) (swap_using s)
    (swap_used s) (swap_next_idx s) (last_accessed s) (io_base s) (cache_pgdir s) (fs_cache_group s) (fs_buffer s).
Definition set_frames (v : Z → pageframe_t) (s : mm) : mm :=
  mk_mm (mem s) (card s) (cur_kernel_mem s) (attrs s) v (page_groups s) (swap_base_location s) (swap_using s)
    (swap_used s) (swap_next_idx s) (last_accessed s) (io_base s) (cache_pgdir s) (fs_cache_group s) (fs_buffer s).
Definition set_groups (v : list pageframe_group_t) (s : mm) : mm :=
  mk_mm (mem s) (card s) (cur_kernel_mem s) (attrs s) (frames s) v (swap_base_location s) (swap_using s)
    (swap_used s) (swap_next_idx s) (last_accessed s) (io_base s) (cache_pgdir s) (fs_cache_group s) (fs_buffer s).
Definition set_swap (m : Z → bool) (n i : Z) (s : mm) : mm :=
  mk_mm (mem s) (card s) (cur_kernel_mem s) (attrs s) (frames s) (page_groups s) (swap_base_location s) m
    n i (last_accessed s) (io_base s) (cache_pgdir s) (fs_cache_group s) (fs_buffer s).
Definition set_last_accessed (v : Z → Z) (s : mm) : mm :=
  mk_mm (mem s) (card s) (cur_kernel_mem s) (attrs s) (frames s) (page_groups s) (swap_base_location s) (swap_using s)
    (swap_used s) (swap_next_idx s) v (io_base s) (cache_pgdir s) (fs_cache_group s) (fs_buffer s).
Definition set_io_base (v : Z) (s : mm) : mm :=
  mk_mm (mem s) (card s) (cur_kernel_mem s) (attrs s) (frames s) (page_groups s) (swap_base_location s) (swap_using s)
    (swap_used s) (swap_next_idx s) (last_accessed s) v (cache_pgdir s) (fs_cache_group s) (fs_buffer s).
Definition set_cache (v : Z) (g : nat) (s : mm) : mm :=
  mk_mm (mem s) (card s) (cur_kernel_mem s) (attrs s) (frames s) (page_groups s) (swap_base_location s) (swap_using s)
    (swap_used s) (swap_next_idx s) (last_accessed s) (io_base s) v g (fs_buffer s).

Abbreviation MM := (M mm).

Definition get_group (g : nat) : MM pageframe_group_t := fun s =>
  match page_groups s !! g with Some x => Ok (x, s) | None => Panic "fault" end.
Definition upd_group (g : nat) (f : pageframe_group_t → pageframe_group_t) : MM unit :=
  x <- get_group g ;; modify (fun s => set_groups (<[g := f x]> (page_groups s)) s).
Definition frame_index (id : Z) : bool := (0 <=? id) && (id <? MAX_PAGE_NUM).
Definition get_frame (id : Z) : MM pageframe_t :=
  asserts (frame_index id) "fault" ;; gets (fun s => frames s id).
Definition upd_frame (id : Z) (f : pageframe_t → pageframe_t) : MM unit :=
  x <- get_frame id ;; modify (fun s => set_frames (<[id := f x]> (frames s)) s).

(** Loads and stores through a [PTE *]. *)
Definition get_pte (p : Z) : MM Z :=
  asserts (negb (p =? NULL)) "fault" ;; gets (fun s => load64 (mem s) p).
Definition put_pte (p v : Z) : MM unit :=
  asserts (negb (p =? NULL)) "fault" ;; modify (fun s => set_mem (store64 p v (mem s)) s).

(** ** list.c on the page lists *)
Definition list_prepend (g : nat) (id : Z) : MM unit :=
  f <- get_frame id ;;
  match container f with
  | Some _ => ret tt                    (* already in a list: logged and ignored *)
  | None => upd_group g (fun x => set_pages (id :: pages x) x) ;; upd_frame id (set_container (Some g))
  end.
Definition list_delete (id : Z) : MM unit :=
  f <- get_frame id ;;
  match container f with
  | None => panic "trying to delete a node not in any list"
  | Some g =>
      upd_group g (fun x => set_pages (filter (fun i => i ≠ id) (pages x)) x) ;;
      upd_frame id (set_container None)
  end.

(** ** Replacement *)
Definition is_leaf (id : Z) : MM bool :=
  f <- get_frame id ;;
  if pte f =? NULL then ret false else
  e <- get_pte (pte f) ;; ret (has e RWX).

(** The first leaf of a walk over the frames [l]. *)
Fixpoint find_leaf (l : list Z) : MM (option Z) :=
  match l with
  | [] => ret None
  | id :: l => leaf <- is_leaf id ;; if (leaf : bool) then ret (Some id) else find_leaf l
  end.
(** The walk from the back that moves the frames behind [node] to the front. *)
Fixpoint rotate (g : nat) (node : Z) (l : list Z) : MM unit :=
  match l with
  | [] => ret tt
  | id :: l => if id =? node then ret tt else list_delete id ;; list_prepend g id ;; rotate g node l
  end.
Definition fifo_evict (g : nat) : MM (option Z) :=
  x <- get_group g ;;
  node <- find_leaf (rev (pages x)) ;;
  match node with
  | None => ret None
  | Some node => rotate g node (rev (pages x)) ;; ret (Some node)
  end.

(** The [while (true)] of [second_chance::evict]. *)
Fixpoint second_loop (fuel : nat) (g : nat) : MM (option Z) :=
  match fuel with
  | O => no_fuel
  | S n =>
      x <- get_group g ;;
      match last (pages x) with
      | None => panic "fault"
      | Some iter =>
          leaf <- is_leaf iter ;;
          if (leaf : bool) then
            f <- get_frame iter ;;
            e <- get_pte (pte f) ;;
            if has e PAGE_ACCESSED then
              put_pte (pte f) (clear_attribute e PAGE_ACCESSED) ;;
              list_delete iter ;; list_prepend g iter ;; second_loop n g
            else ret (Some iter)
          else list_delete iter ;; list_prepend g iter ;; second_loop n g
      end
  end.
(** Every frame comes by at most twice before a leaf without the bit does. *)
Definition second_fuel (x : pageframe_group_t) : nat := S (2 * length (pages x)).
Definition second_chance_evict (g : nat) : MM (option Z) :=
  victim <- fifo_evict g ;;
  match victim with
  | None => ret None
  | Some _ => x <- get_group g ;; second_loop (second_fuel x) g
  end.

Definition evict (g : nat) : MM (option Z) :=
  x <- get_group g ;;
  match algo (vtable x) with
  | Fifo | Lru => fifo_evict g
  | SecondChance => second_chance_evict g
  end.

Definition fifo_detach (g : nat) (id : Z) : MM unit :=
  list_delete id ;; upd_group g (fun x => set_used (u64 (used x - 1)) x).

(** ** Swap space *)
Fixpoint swap_scan (fuel : nat) : MM unit :=
  match fuel with
  | O => no_fuel
  | S n =>
      s <- gets (fun s => s) ;;
      if swap_using s (swap_next_idx s) then
        modify (set_swap (swap_using s) (swap_used s) ((swap_next_idx s + 1) mod NUM_MAX_SWAP)) ;;
        swap_scan n
      else ret tt
  end.
Definition swap_fuel : nat := S (Z.to_nat NUM_MAX_SWAP).
Definition alloc_swap : MM Z :=
  n <- gets swap_used ;;
  asserts (n <? NUM_MAX_SWAP) "out of swap space" ;;
  swap_scan swap_fuel ;;
  i <- gets swap_next_idx ;;
  modify (fun s => set_swap (<[i := true]> (swap_using s)) (u64 (swap_used s + 1)) i s) ;;
  ret i.
Definition free_swap (swap_id : Z) : MM unit :=
  asserts ((0 <=? swap_id) && (swap_id <? NUM_MAX_SWAP)) "fault" ;;
  modify (fun s => set_swap (<[swap_id := false]> (swap_using s)) (u64 (swap_used s - 1)) (swap_next_idx s) s).
Definition regular_swap_location : MM Z :=
  swap_id <- alloc_swap ;; gets (fun s => u64 (swap_id * SWAP_LEN + swap_base_location s)).
Definition regular_swap_free (swap_location : Z) : MM unit :=
  base <- gets swap_base_location ;; free_swap (u64 (swap_location - base) / SWAP_LEN).

(** cache.c: the page cache keeps every page at the sectors its address names. *)
Definition fs_cache_swap_alloc (va : Z) : MM Z :=
  asserts (va mod BLOCK_SIZE =? 0) "va not block aligned" ;; ret (va / SECTOR_SIZE).
Definition swap_alloc (g : nat) (va : Z) : MM Z :=
  x <- get_group g ;;
  if fs_swap (vtable x) then fs_cache_swap_alloc va else regular_swap_location.
(** [fs_swap_vtable] keeps the [swap_free] it copied. *)
Definition swap_free (swap_location : Z) : MM unit := regular_swap_free swap_location.

(** ** Frames *)
Definition pageframe_kva2attr (page : Z) : MM Z :=
  let id := pageframe_kva2id page in
  asserts (frame_index id) "invalid page addr" ;; ret id.

Definition find_pagegroup (page : Z) : MM nat :=
  if page =? PGDIR_VA then ret 0%nat else
  asserts ((INIT_KERNEL_STACK <=? page) && (page <=? ALLMEM_KERNEL)) "invalid pageframe address" ;;
  id <- pageframe_kva2attr page ;;
  f <- get_frame id ;;
  match container f with
  | None => panic "isolated pageframe"
  | Some g => ret g
  end.

(** The loop of [free_pageframe]: the run of frames whose [start] is [entry]. *)
Fixpoint free_loop (fuel : nat) (g : nat) (entry i : Z) : MM unit :=
  match fuel with
  | O => no_fuel
  | S n =>
      start <- gets (fun s => attrs s i) ;;
      if negb (start =? entry) then ret tt else
      modify (fun s => set_attrs (<[i := 0]> (attrs s)) s) ;;
      fifo_detach g (pageframe_kva2id (pageframe_id2addr i)) ;;
      free_loop n g entry ((i + 1) mod MAX_PAGE_NUM)
  end.
Definition frame_fuel : nat := S (Z.to_nat MAX_PAGE_NUM).
Definition free_pageframe (base_addr : Z) : MM unit :=
  let id := pageframe_kva2id base_addr in
  if id <? 0 then ret tt else           (* a kernel page: logged *)
  asserts (id <? MAX_PAGE_NUM) "invalid addr" ;;
  entry <- gets (fun s => attrs s id) ;;
  asserts (negb (entry =? 0)) "double free detected" ;;
  let entry_id := pageframe_kva2id entry in
  asserts (entry_id <=? id) "corrupted start_addr" ;;
  group <- find_pagegroup entry ;;
  free_loop frame_fuel group entry entry_id.

Definition pageframe_destruct (id addr : Z) : MM unit :=
  upd_frame id (set_pte NULL) ;; free_pageframe addr.

(** A page to and from the card. *)
Definition card_write (page location : Z) : MM unit :=
  kva2pa page ;;
  modify (fun s => set_card (bios_sd_write SWAP_LEN (u32 location) (bytes_at (mem s) page PAGE_SIZE) (card s)) s).
Definition card_read (page location : Z) : MM unit :=
  kva2pa page ;;
  modify (fun s => set_mem (put_bytes page (bios_sd_read SWAP_LEN (u32 location) (card s)) (mem s)) s).

(** [swapout]. Without a leaf page in the group the code kills the processes
    that use the group; that branch ends the run of the model. *)
Definition swapout (g : nat) : MM Z :=
  evict_node <- evict g ;;
  match evict_node with
  | Some id =>
      f <- get_frame id ;;
      let page := pageframe_id2addr id in
      swap_location <- swap_alloc g (uva f) ;;
      card_write page swap_location ;;
      e <- get_pte (pte f) ;;
      e <- set_attribute (clear_attribute e PAGE_PRESENT) PAGE_SOFT ;;
      put_pte (pte f) (set_pfn e swap_location) ;;
      pageframe_destruct id page ;;
      ret page
  | None => panic "no leaf page to swap out: the processes of the group are killed"
  end.

(** [shrink_pagegroup]; [swapout] never returns [(kva_t)-1]. *)
Fixpoint shrink_loop (fuel : nat) (g : nat) (space : Z) : MM Z :=
  match fuel with
  | O => no_fuel
  | S n =>
      x <- get_group g ;;
      if u64 (used x + space) >? capacity x then
        page <- swapout g ;;
        if page =? 2 ^ 64 - 1 then ret (-1) else shrink_loop n g space
      else ret 0
  end.
(** Every turn gives a frame back. *)
Definition shrink_pagegroup (g : nat) (space : Z) : MM Z :=
  x <- get_group g ;; shrink_loop (S (length (pages x))) g space.

Definition fifo_attach (g : nat) (id : Z) : MM unit :=
  shrink_pagegroup g 1 ;;
  list_prepend g id ;;
  upd_group g (fun x => set_used (u64 (used x + 1)) x).
Definition attach_pageframe (addr : Z) (g : nat) : MM unit := fifo_attach g (pageframe_kva2id addr).
Definition detach_pageframe (addr : Z) (g : nat) : MM unit := fifo_detach g (pageframe_kva2id addr).

(** ** alloc_pageframe *)
Definition available (s : mm) (id num_page : Z) : bool :=
  forallb (fun i => (id + i <? MAX_PAGE_NUM) && (attrs s (id + i) =? 0)) (seqZ 0 num_page).
Fixpoint attach_run (g : nat) (ret_addr id : Z) (l : list Z) : MM unit :=
  match l with
  | [] => ret tt
  | i :: l =>
      attach_pageframe (u64 (ret_addr + i * PAGE_SIZE)) g ;;
      asserts (frame_index (id + i)) "fault" ;;
      modify (fun s => set_attrs (<[id + i := ret_addr]> (attrs s)) s) ;;
      attach_run g ret_addr id l
  end.
(** The [while] loop, [counter] turns left. *)
Fixpoint alloc_loop (counter : nat) (g : nat) (num_page : Z) : MM Z :=
  match counter with
  | O => panic "out of memory"
  | S n =>
      cur <- gets cur_kernel_mem ;;
      let addr := ROUND cur PAGE_SIZE in
      let id := pageframe_kva2id addr in
      ok <- gets (fun s => available s id num_page) ;;
      if (ok : bool) then
        modify (set_cur (u64 (cur + num_page * PAGE_SIZE))) ;;
        attach_run g addr id (seqZ 0 num_page) ;;
        ret addr
      else
        let cur := u64 (cur + PAGE_SIZE) in
        modify (set_cur (if cur >=? ALLMEM_KERNEL then FREEMEM_KERNEL else cur)) ;;
        alloc_loop n g num_page
  end.
Definition alloc_pageframe (g : nat) (num_page : Z) : MM Z :=
  shrink_pagegroup g num_page ;;
  alloc_loop (Z.to_nat MAX_PAGE_NUM) g num_page.

Definition get_free_memory (s : mm) : Z :=
  foldl (fun free_mem i => if attrs s i =? 0 then u64 (free_mem + PAGE_SIZE) else free_mem) 0 (seqZ 0 MAX_PAGE_NUM).
