(* ===== verification/FrameProofs.v ===== *)
(** * The invariant of the page frames and the runs of its operations *)

From S2P Require Import Prelude Bytes Block SdCard Pgtable PgtableProofs Frames.

Definition frame_id (id : Z) : Prop := 0 ≤ id < MAX_PAGE_NUM.
Definition kva_of (id : Z) : Z := FREEMEM_KERNEL + id * PAGE_SIZE.

(** Every frame is either free ([start] is 0 and it is in no list) or part of a
    block of consecutive frames of one group, all of which carry the address of
    the first; a group's list holds exactly its frames and [used] counts them. *)
Record frames_ok (s : mm) : Prop := {
  fo_pages g x : page_groups s !! g = Some x →
    NoDup (pages x) ∧ used x = Z.of_nat (length (pages x));
  fo_member g x id : page_groups s !! g = Some x →
    (id ∈ pages x ↔ frame_id id ∧ container (frames s id) = Some g);
  fo_group g id : frame_id id → container (frames s id) = Some g → is_Some (page_groups s !! g);
  fo_start id : frame_id id → (attrs s id = 0 ↔ container (frames s id) = None);
  fo_block id : frame_id id → attrs s id ≠ 0 → ∃ e, 0 ≤ e ≤ id ∧ attrs s id = kva_of e ∧
    ∀ j, e ≤ j ≤ id → attrs s j = attrs s id ∧ container (frames s j) = container (frames s id);
  fo_cur : ∃ c, 0 ≤ c ≤ MAX_PAGE_NUM ∧ cur_kernel_mem s = kva_of c;
}.

(** ** Addresses and indices *)
Lemma frame_consts : FREEMEM_KERNEL = 0xffffffc052002000 ∧ MAX_PAGE_NUM = 57342 ∧ PAGE_SIZE = 4096.
Proof. done. Qed.

Ltac fsolve :=
  unfold frame_id, kva_of in *; destruct frame_consts as (EF & EM & EP);
  rewrite ?EF, ?EM, ?EP in *; lia.

Lemma frame_index_true id : frame_id id → frame_index id = true.
Proof. unfold frame_index. intros []. by rewrite (proj2 (Z.leb_le _ _)), (proj2 (Z.ltb_lt _ _)). Qed.

Lemma kva2id_off id o : 0 ≤ id ≤ MAX_PAGE_NUM → 0 ≤ o < PAGE_SIZE → pageframe_kva2id (kva_of id + o) = id.
Proof.
  intros Hid Ho. unfold pageframe_kva2id, kva_of.
  replace (FREEMEM_KERNEL + id * PAGE_SIZE + o - FREEMEM_KERNEL) with (id * PAGE_SIZE + o) by lia.
  rewrite u64_small by fsolve. rewrite Z.div_add_l by done. rewrite (Z.div_small o), Z.add_0_r by done.
  unfold i32, swrap, wrap. rewrite Z.mod_small by fsolve. rewrite (proj2 (Z.ltb_lt _ _)); [done|].
  change (2 ^ (32 - 1)) with 2147483648. fsolve.
Qed.

Lemma kva2id_in id o : frame_id id → 0 ≤ o < PAGE_SIZE → pageframe_kva2id (kva_of id + o) = id.
Proof. intros Hid. apply kva2id_off. unfold frame_id in Hid. lia. Qed.

Lemma kva2id_of id : frame_id id → pageframe_kva2id (kva_of id) = id.
Proof. intros Hid. rewrite <- (Z.add_0_r (kva_of id)). by apply kva2id_in. Qed.

Lemma id2addr_of id : frame_id id → pageframe_id2addr id = kva_of id.
Proof. intros Hid. unfold pageframe_id2addr. apply u64_small. fsolve. Qed.

Lemma kva_of_inj i j : kva_of i = kva_of j → i = j.
Proof. fsolve. Qed.

Lemma kva_of_pos i : 0 ≤ i → kva_of i ≠ 0.
Proof. fsolve. Qed.

Lemma kva_of_kernel id : frame_id id → kernel_page (kva_of id).
Proof. unfold kernel_page, KERNEL_ADDR_TAG, PA_BOTTOM, PA_TOP. fsolve. Qed.

(** ** Elementary runs *)
Lemma get_group_run s g x : page_groups s !! g = Some x → get_group g s = Ok (x, s).
Proof. unfold get_group. by intros ->. Qed.

Lemma upd_group_run s g x f :
  page_groups s !! g = Some x →
  upd_group g f s = Ok (tt, set_groups (<[g := f x]> (page_groups s)) s).
Proof. intros Hx. unfold upd_group. by rewrite (bind_Ok _ _ _ _ _ (get_group_run _ _ _ Hx)). Qed.

Lemma get_frame_run s id : frame_id id → get_frame id s = Ok (frames s id, s).
Proof. intros Hid. unfold get_frame. by rewrite frame_index_true. Qed.

Lemma upd_frame_run s id f :
  frame_id id → upd_frame id f s = Ok (tt, set_frames (<[id := f (frames s id)]> (frames s)) s).
Proof. intros Hid. unfold upd_frame. by rewrite (bind_Ok _ _ _ _ _ (get_frame_run _ _ Hid)). Qed.

Lemma get_pte_run s p : p ≠ NULL → get_pte p s = Ok (load64 (mem s) p, s).
Proof. intros Hp. unfold get_pte. by rewrite (proj2 (Z.eqb_neq _ _) Hp). Qed.

Lemma put_pte_run s p v : p ≠ NULL → put_pte p v s = Ok (tt, set_mem (store64 p v (mem s)) s).
Proof. intros Hp. unfold put_pte. by rewrite (proj2 (Z.eqb_neq _ _) Hp). Qed.

Lemma frame_delete_run s g x id :
  frame_id id → container (frames s id) = Some g → page_groups s !! g = Some x →
  list_delete id s = Ok (tt, set_frames (<[id := set_container None (frames s id)]> (frames s))
    (set_groups (<[g := set_pages (filter (fun i => i ≠ id) (pages x)) x]> (page_groups s)) s)).
Proof.
  intros Hid Hc Hx. unfold list_delete. rewrite (bind_Ok _ _ _ _ _ (get_frame_run _ _ Hid)), Hc.
  rewrite (bind_Ok _ _ _ _ _ (upd_group_run _ _ _ _ Hx)). by rewrite upd_frame_run.
Qed.

Lemma frame_prepend_run s g x id :
  frame_id id → container (frames s id) = None → page_groups s !! g = Some x →
  list_prepend g id s = Ok (tt, set_frames (<[id := set_container (Some g) (frames s id)]> (frames s))
    (set_groups (<[g := set_pages (id :: pages x) x]> (page_groups s)) s)).
Proof.
  intros Hid Hc Hx. unfold list_prepend. rewrite (bind_Ok _ _ _ _ _ (get_frame_run _ _ Hid)), Hc.
  rewrite (bind_Ok _ _ _ _ _ (upd_group_run _ _ _ _ Hx)). by rewrite upd_frame_run.
Qed.

Lemma find_group_run s g id o :
  frame_id id → 0 ≤ o < PAGE_SIZE → container (frames s id) = Some g →
  find_pagegroup (kva_of id + o) s = Ok (g, s).
Proof.
  intros Hid Ho Hc. unfold find_pagegroup. rewrite (proj2 (Z.eqb_neq _ _)).
  - rewrite (bind_Ok _ _ s tt s).
    + unfold pageframe_kva2attr. rewrite kva2id_in, frame_index_true by done.
      mrun. rewrite get_frame_run by done. by rewrite Hc.
    + apply asserts_true. rewrite (proj2 (Z.leb_le _ _)), (proj2 (Z.leb_le _ _)); [done|..];
        unfold INIT_KERNEL_STACK, ALLMEM_KERNEL; fsolve.
  - change PGDIR_VA with 0xffffffc051000000. fsolve.
Qed.

Lemma frames_length s g x : frames_ok s → page_groups s !! g = Some x → used x ≤ MAX_PAGE_NUM.
Proof.
  intros Hok Hx. destruct (fo_pages _ Hok g x Hx) as [Hnd ->].
  assert (length (pages x) ≤ length (seqZ 0 MAX_PAGE_NUM))%nat as Hl.
  { apply submseteq_length, NoDup_submseteq; [done|]. intros id Hid.
    apply (fo_member _ Hok g x id Hx) in Hid as [Hid _]. apply elem_of_seqZ. fsolve. }
  rewrite length_seqZ in Hl. fsolve.
Qed.

(** ** Releasing a run of frames *)
Definition within (i n j : Z) : Prop := i ≤ j < i + n.
#[global] Instance within_dec i n j : Decision (within i n j).
Proof. unfold within. apply _. Defined.

Record released (s s' : mm) (g : nat) (i n : Z) : Prop := {
  re_shape : s' = set_groups (page_groups s') (set_frames (frames s') (set_attrs (attrs s') s));
  re_attrs j : attrs s' j = if decide (within i n j) then 0 else attrs s j;
  re_frames j : frames s' j = if decide (within i n j) then set_container None (frames s j) else frames s j;
  re_groups x : page_groups s !! g = Some x → page_groups s' =
    <[g := set_used (used x - n) (set_pages (filter (fun j => ¬ within i n j) (pages x)) x)]> (page_groups s);
}.

Lemma filter_ge {A} (P Q : A → Prop) `{∀ x, Decision (P x)} `{∀ x, Decision (Q x)} (l : list A) :
  (∀ x, x ∈ l → (P x ↔ Q x)) → filter P l = filter Q l.
Proof.
  induction l as [|x l IH]; intros Hpq; [done|].
  rewrite !filter_cons, (IH ltac:(intros y Hy; apply Hpq; by right)).
  pose proof (Hpq x ltac:(by left)). by repeat case_decide; tauto || done.
Qed.

(** The loop of [free_pageframe] over the rest of the block. *)
Lemma free_loop_run fuel s g x entry i n :
  (Z.to_nat n < fuel)%nat → 0 ≤ i → 0 ≤ n → i + n ≤ MAX_PAGE_NUM → entry ≠ 0 →
  page_groups s !! g = Some x → n ≤ used x ≤ MAX_PAGE_NUM →
  (∀ j, within i n j → attrs s j = entry ∧ container (frames s j) = Some g) →
  attrs s ((i + n) mod MAX_PAGE_NUM) ≠ entry ∨ (i + n) mod MAX_PAGE_NUM = i ∧ 0 < n →
  ∃ s', free_loop fuel g entry (i mod MAX_PAGE_NUM) s = Ok (tt, s') ∧ released s s' g i n.
Proof.
  revert s x i n. induction fuel as [|fuel IH]; intros s x i n Hf Hi Hn Hin He Hx Hu Hrun Hend; [lia|].
  cbn [free_loop]. mrun. destruct (decide (n = 0)) as [->|Hn0].
  { rewrite Z.add_0_r in Hend. destruct Hend as [Hend|[_ ?]]; [|lia].
    rewrite (proj2 (Z.eqb_neq _ _) Hend). cbn [negb]. exists s. split; [done|].
    split; [by destruct s|intros j|intros j|].
    1,2: rewrite decide_False by (unfold within; lia); done.
    intros x' Hx'. simplify_eq. rewrite Z.sub_0_r, filter_all by (unfold within; lia).
    destruct x. symmetry. by apply list_insert_id. }
  assert (i mod MAX_PAGE_NUM = i) as Ei by (apply Z.mod_small; fsolve). rewrite Ei.
  destruct (Hrun i ltac:(unfold within; lia)) as [Ea Ec]. rewrite Ea, Z.eqb_refl. cbn [negb].
  rewrite id2addr_of, kva2id_of by fsolve. unfold fifo_detach.
  set (s1 := set_attrs (<[i := 0]> (attrs s)) s).
  rewrite (bind_Ok _ _ s1 tt _ (frame_delete_run s1 g x i ltac:(fsolve) Ec Hx)).
  set (x1 := set_pages _ x). set (s2 := set_frames _ _).
  assert (page_groups s2 !! g = Some x1) as Hx1.
  { apply list_lookup_insert_eq. by eapply lookup_lt_Some. }
  rewrite (upd_group_run s2 g x1 _ Hx1). set (x2 := set_used _ x1). set (s3 := set_groups _ s2).
  assert (page_groups s3 !! g = Some x2) as Hx2.
  { apply list_lookup_insert_eq. by eapply lookup_lt_Some. }
  assert (used x2 = used x - 1) as Eu by (apply u64_small; fsolve).
  destruct (IH s3 x2 (i + 1) (n - 1)) as (s' & Hs' & [Hsh Hat Hfr Hgr]); try lia.
  - done.
  - intros j Hj. destruct (Hrun j) as [Ej Ecj]; [unfold within in *; lia|]. simpl.
    rewrite !fn_lookup_insert_ne by (unfold within in *; lia). done.
  - replace (i + 1 + (n - 1)) with (i + n) by lia. simpl.
    destruct (decide ((i + n) mod MAX_PAGE_NUM = i)) as [->|Hne].
    + left. by rewrite fn_lookup_insert.
    + left. rewrite fn_lookup_insert_ne by done. destruct Hend as [?|[? _]]; done.
  - exists s'. split.
    { exact Hs'. }
    split.
    + rewrite Hsh at 1. done.
    + intros j. rewrite Hat. simpl. destruct (decide (j = i)) as [->|Hne].
      * rewrite fn_lookup_insert, decide_False, decide_True by (unfold within; lia). done.
      * rewrite fn_lookup_insert_ne by done. apply decide_ext. unfold within. lia.
    + intros j. rewrite Hfr. simpl. destruct (decide (j = i)) as [->|Hne].
      * rewrite fn_lookup_insert, decide_False, decide_True by (unfold within; lia). done.
      * rewrite fn_lookup_insert_ne by done. apply decide_ext. unfold within. lia.
    + intros x' Hx'. simplify_eq. rewrite (Hgr x2 Hx2), Eu. simpl. rewrite !list_insert_insert_eq.
      f_equal. unfold set_used, set_pages. simpl. f_equal; [|lia].
      rewrite list_filter_filter. apply filter_ge. intros j _. unfold within. lia.
Qed.

(** ** The block of a frame *)

(** The frames of the block that starts at [e]: [n] of them, of group [g]. *)
Record block (s : mm) (g : nat) (e n : Z) : Prop := {
  bl_range : 0 ≤ e ∧ 0 < n ∧ e + n ≤ MAX_PAGE_NUM;
  bl_frames j : within e n j → attrs s j = kva_of e ∧ container (frames s j) = Some g;
  bl_only j : frame_id j → attrs s j = kva_of e → within e n j;
}.

(** The length of the run of frames from [i] on that carry [a]. *)
Lemma run_length (f : Z → Z) (a : Z) (k : nat) i :
  ∃ n, 0 ≤ n ≤ Z.of_nat k ∧ (∀ j, within i n j → f j = a) ∧ (n = Z.of_nat k ∨ f (i + n) ≠ a).
Proof.
  revert i. induction k as [|k IH]; intros i.
  - exists 0. split_and!; [lia|lia|unfold within; lia|by left].
  - destruct (decide (f i = a)) as [E|].
    + destruct (IH (i + 1)) as (n & Hn & Hr & Hend). exists (n + 1). split_and!; [lia|lia|..].
      * intros j Hj. destruct (decide (j = i)) as [->|]; [done|]. apply Hr. unfold within in *. lia.
      * replace (i + (n + 1)) with (i + 1 + n) by lia. destruct Hend as [->|?]; [left; lia|by right].
    + exists 0. split_and!; [lia|lia|unfold within; lia|]. right. by rewrite Z.add_0_r.
Qed.

Lemma block_of s id :
  frames_ok s → frame_id id → attrs s id ≠ 0 →
  ∃ g e n, block s g e n ∧ within e n id ∧ is_Some (page_groups s !! g).
Proof.
  intros Hok Hid Ha. destruct (fo_block _ Hok id Hid Ha) as (e & He & Ea & Hrun).
  destruct (container (frames s id)) as [g|] eqn:Eg.
  2:{ by apply (fo_start _ Hok id Hid) in Eg. }
  destruct (run_length (attrs s) (kva_of e) (Z.to_nat (MAX_PAGE_NUM - e)) e) as (n & Hn & Hr & Hend).
  assert (within e n id) as Hw.
  { destruct (decide (within e n id)) as [|Hw]; [done|]. exfalso. destruct Hend as [->|Hend]; [unfold within in Hw; fsolve|].
    apply Hend. rewrite <- Ea. apply Hrun. unfold within in Hw. lia. }
  exists g, e, n. split_and!; [|done|by eapply fo_group].
  assert (∀ j, frame_id j → attrs s j = kva_of e → e ≤ j ∧ container (frames s j) = container (frames s e)) as Hsame.
  { intros j Hj Ej. destruct (fo_block _ Hok j Hj) as (e' & He' & Ee' & Hr').
    { rewrite Ej. apply kva_of_pos. lia. }
    assert (e' = e) as -> by (apply kva_of_inj; congruence).
    split; [lia|]. symmetry. apply (Hr' e). lia. }
  split.
  - unfold within in Hw. fsolve.
  - intros j Hj. split; [by apply Hr|]. assert (frame_id j) as Hjf by (unfold within in Hj; fsolve).
    rewrite <- Eg. transitivity (container (frames s e)); [by apply Hsame, Hr|]. symmetry. by apply Hsame.
  - intros j Hj Ej. destruct (Hsame j Hj Ej) as [Hej _]. destruct (decide (within e n j)) as [|Hw']; [done|].
    exfalso. destruct Hend as [->|Hend]; [unfold within in Hw'; fsolve|]. apply Hend.
    destruct (fo_block _ Hok j Hj) as (e' & He' & Ee' & Hr').
    { rewrite Ej. apply kva_of_pos. lia. }
    assert (e' = e) as -> by (apply kva_of_inj; congruence).
    rewrite <- Ej. apply Hr'. unfold within in Hw'. lia.
Qed.

(** The members of a block, in any order, are that many. *)
Lemma block_used s g x e n :
  frames_ok s → block s g e n → page_groups s !! g = Some x →
  n = Z.of_nat (length (filter (within e n) (pages x))).
Proof.
  intros Hok [Hr Hb _] Hx. destruct (fo_pages _ Hok g x Hx) as [Hnd _].
  assert (filter (within e n) (pages x) ≡ₚ seqZ e n) as Hp.
  { apply NoDup_Permutation; [by apply NoDup_filter|apply NoDup_seqZ|]. intros j.
    rewrite list_elem_of_filter, elem_of_seqZ, (fo_member _ Hok g x j Hx). split; [by intros []|].
    intros Hj. split_and!; [done|unfold frame_id; lia|by apply Hb]. }
  rewrite Hp, length_seqZ. lia.
Qed.

Lemma length_filter_split {A} (P : A → Prop) `{∀ x, Decision (P x)} (l : list A) :
  (length l = length (filter P l) + length (filter (fun x => ¬ P x) l))%nat.
Proof.
  induction l as [|x l IH]; [done|]. rewrite !filter_cons. repeat case_decide; simpl; lia || tauto.
Qed.

Lemma free_pageframe_run s g e n id o :
  frames_ok s → block s g e n → within e n id → 0 ≤ o < PAGE_SIZE →
  ∃ s', free_pageframe (kva_of id + o) s = Ok (tt, s') ∧ released s s' g e n.
Proof.
  intros Hok Hbl Hid Ho. pose proof Hbl as [Hr Hb Honly]. destruct (Hb id Hid) as [Ea Ec].
  assert (frame_id id) as Hf by (unfold within in Hid; unfold frame_id; lia).
  assert (frame_id e) as Hfe by (unfold frame_id; lia).
  destruct (fo_group _ Hok g id Hf Ec) as [x Hx].
  unfold free_pageframe. rewrite kva2id_in by done.
  rewrite (proj2 (Z.ltb_ge _ _)) by (apply Hf). mrun. rewrite (proj2 (Z.ltb_lt _ _)) by (apply Hf). cbn [asserts].
  unfold ret. rewrite Ea. pose proof (kva_of_pos e ltac:(lia)) as He0.
  rewrite (proj2 (Z.eqb_neq _ _) He0). cbn [negb asserts]. unfold ret. rewrite kva2id_of by done.
  rewrite (proj2 (Z.leb_le _ _)) by (unfold within in Hid; lia). cbn [asserts]. unfold ret.
  pose proof (find_group_run s g e 0 Hfe ltac:(done) (proj2 (Hb e ltac:(unfold within; lia)))) as Hg.
  rewrite Z.add_0_r in Hg. rewrite Hg.
  pose proof (free_loop_run frame_fuel s g x (kva_of e) e n) as Hloop. rewrite (Z.mod_small e) in Hloop by done.
  apply Hloop; try lia; [|done|..].
  - unfold frame_fuel. lia.
  - pose proof (block_used s g x e n Hok Hbl Hx). pose proof (frames_length s g x Hok Hx).
    destruct (fo_pages _ Hok g x Hx) as [_ Hu].
    pose proof (length_filter_split (within e n) (pages x)). lia.
  - done.
  - destruct (decide (e + n = MAX_PAGE_NUM)) as [Em|Em].
    + rewrite Em, Z.mod_same by done. destruct (decide (e = 0)) as [->|]; [right; lia|]. left. intros E0.
      apply Honly in E0; [unfold within in E0; lia|]. fsolve.
    + rewrite Z.mod_small by fsolve. left. intros E0. apply Honly in E0; [unfold within in E0; lia|]. unfold frame_id. lia.
Qed.
