(* ===== verification/FrameAlloc.v ===== *)
(** * Allocating and freeing page frames

    [alloc_pageframe] and [free_pageframe] of kernel/mm/pageframe.c against the
    invariant of FrameProofs.v. *)

From S2P Require Import Prelude Bytes Block SdCard Pgtable PgtableProofs Frames FrameProofs.

(** ** Freeing keeps the invariant *)
Lemma released_ok s s' g e n :
  frames_ok s → block s g e n → released s s' g e n → frames_ok s'.
Proof.
  intros Hok Hbl [Hsh Hat Hfr Hgr]. pose proof Hbl as [Hr Hb Honly].
  destruct (fo_group _ Hok g e ltac:(unfold frame_id; lia) (proj2 (Hb e ltac:(unfold within; lia)))) as [x Hx].
  specialize (Hgr x Hx). pose proof (block_used s g x e n Hok Hbl Hx) as Hn.
  pose proof (length_filter_split (within e n) (pages x)) as Hl.
  assert (∀ j, within e n j → frame_id j) as Hwf by (unfold within, frame_id; lia).
  split.
  - intros g' x'. rewrite Hgr. intros [(<- & <- & _)|[_ Hx']]%list_lookup_insert_Some; [|by apply (fo_pages _ Hok g')].
    destruct (fo_pages _ Hok g x Hx) as [Hnd Hu]. simpl. split; [by apply NoDup_filter|lia].
  - intros g' x' id. rewrite Hgr, Hfr. intros [(<- & <- & _)|[Hne Hx']]%list_lookup_insert_Some; simpl.
    + rewrite list_elem_of_filter, (fo_member _ Hok g x id Hx). case_decide; simpl; naive_solver.
    + rewrite (fo_member _ Hok g' x' id Hx'). case_decide as Hw; simpl; [|done].
      destruct (Hb id Hw) as [_ ->]. naive_solver.
  - intros g' id Hid. rewrite Hfr, Hgr. case_decide; [done|]. simpl. intros Hc.
    apply lookup_lt_is_Some. rewrite length_insert. apply lookup_lt_is_Some. by eapply fo_group.
  - intros id Hid. rewrite Hat, Hfr. case_decide; [done|]. by apply fo_start.
  - intros id Hid. rewrite Hat. case_decide as Hw; [done|]. intros Ha.
    destruct (fo_block _ Hok id Hid Ha) as (e' & He' & Ee & Hrun). exists e'. split_and!; [lia|lia|done|].
    intros j Hj. destruct (Hrun j Hj) as [Ej Ec]. rewrite Hat, !Hfr.
    rewrite (decide_False (P := within e n id)) by done. rewrite !decide_False; [done|..];
      intros Hwj; apply Hw; apply Honly; try done; rewrite <- (proj1 (Hb j Hwj)); congruence.
  - rewrite Hsh. simpl. apply fo_cur, Hok.
Qed.

(** ** Allocating *)
Record taken (s s' : mm) (g : nat) (i n : Z) (a : Z) : Prop := {
  tk_shape : s' = set_groups (page_groups s') (set_frames (frames s') (set_attrs (attrs s') s));
  tk_attrs j : attrs s' j = if decide (within i n j) then a else attrs s j;
  tk_frames j : frames s' j = if decide (within i n j) then set_container (Some g) (frames s j) else frames s j;
  tk_groups x : page_groups s !! g = Some x → page_groups s' =
    <[g := set_used (used x + n) (set_pages (rev (seqZ i n) ++ pages x) x)]> (page_groups s);
}.

(** Nothing is evicted when there is room. *)
Lemma shrink_room s g x n :
  page_groups s !! g = Some x → 0 ≤ used x → 0 ≤ n → used x + n < 2 ^ 64 → used x + n ≤ capacity x →
  shrink_pagegroup g n s = Ok (0, s).
Proof.
  intros Hx Hu Hn Hs Hc. unfold shrink_pagegroup. rewrite (bind_Ok _ _ _ _ _ (get_group_run _ _ _ Hx)).
  cbn [shrink_loop]. rewrite (bind_Ok _ _ _ _ _ (get_group_run _ _ _ Hx)).
  rewrite u64_small by lia. by rewrite Z.gtb_ltb, (proj2 (Z.ltb_ge _ _)).
Qed.

Lemma seqZ_step i n : 0 < n → seqZ i n = i :: seqZ (i + 1) (n - 1).
Proof. intros Hn. rewrite seqZ_cons by lia. do 2 f_equal; lia. Qed.

Lemma attach_run_run (k : nat) s g x id0 d :
  page_groups s !! g = Some x → 0 ≤ d → 0 ≤ id0 → id0 + d + Z.of_nat k ≤ MAX_PAGE_NUM →
  0 ≤ used x ∧ used x + Z.of_nat k ≤ 2 * MAX_PAGE_NUM → used x + Z.of_nat k ≤ capacity x →
  (∀ j, within (id0 + d) (Z.of_nat k) j → container (frames s j) = None) →
  ∃ s', attach_run g (kva_of id0) id0 (seqZ d (Z.of_nat k)) s = Ok (tt, s') ∧
    taken s s' g (id0 + d) (Z.of_nat k) (kva_of id0).
Proof.
  revert s x d. induction k as [|k IH]; intros s x d Hx Hd Hid Hb Hu Hc Hfree.
  { exists s. split; [done|]. split; [by destruct s|intros j|intros j|].
    1,2: rewrite decide_False by (unfold within; lia); done.
    intros x' Hx'. rewrite Hx in Hx'. injection Hx' as <-. rewrite Z.add_0_r. simpl.
    symmetry. apply list_insert_id. by destruct x. }
  rewrite seqZ_step by lia. cbn [attach_run]. unfold attach_pageframe, fifo_attach.
  assert (u64 (kva_of id0 + d * PAGE_SIZE) = kva_of (id0 + d)) as -> by (rewrite u64_small; fsolve).
  assert (frame_id (id0 + d)) as Hf by (unfold frame_id; lia). rewrite kva2id_of by done.
  rewrite <- !bind_assoc, (bind_Ok _ _ _ _ _ (shrink_room s g x 1 Hx ltac:(lia) ltac:(lia) ltac:(fsolve) ltac:(lia))).
  rewrite <- !bind_assoc.
  rewrite (bind_Ok _ _ _ _ _ (frame_prepend_run s g x _ Hf (Hfree (id0 + d) ltac:(unfold within; lia)) Hx)).
  set (x1 := set_pages _ x). set (s1 := set_frames _ _).
  assert (page_groups s1 !! g = Some x1) as Hx1.
  { apply list_lookup_insert_eq. by eapply lookup_lt_Some. }
  rewrite (bind_Ok _ _ _ _ _ (upd_group_run s1 g x1 _ Hx1)).
  set (x2 := set_used _ x1). set (s2 := set_groups _ s1).
  rewrite (bind_Ok _ _ s2 tt s2 (asserts_true _ _ _ (frame_index_true _ Hf))).
  assert (used x2 = used x + 1) as Eu by (apply u64_small; fsolve).
  rewrite (bind_Ok _ _ s2 tt (set_attrs (<[id0 + d := kva_of id0]> (attrs s2)) s2)) by done.
  set (s3 := set_attrs _ s2).
  assert (page_groups s3 !! g = Some x2) as Hx2.
  { apply list_lookup_insert_eq. by eapply lookup_lt_Some. }
  destruct (IH s3 x2 (d + 1)) as (s' & Hs' & [Hsh Hat Hfr Hgr]); try lia; [done|..].
  - rewrite Eu. change (capacity x2) with (capacity x). lia.
  - intros j Hj. simpl. rewrite fn_lookup_insert_ne by (unfold within in *; lia).
    apply Hfree. unfold within in *. lia.
  - replace (Z.of_nat (S k) - 1) with (Z.of_nat k) by lia. exists s'. split; [done|].
    split.
    + rewrite Hsh at 1. done.
    + intros j. rewrite Hat. simpl. destruct (decide (j = id0 + d)) as [->|Hne].
      * rewrite fn_lookup_insert, decide_False, decide_True by (unfold within; lia). done.
      * rewrite fn_lookup_insert_ne by done. apply decide_ext. unfold within. lia.
    + intros j. rewrite Hfr. simpl. destruct (decide (j = id0 + d)) as [->|Hne].
      * rewrite fn_lookup_insert, decide_False, decide_True by (unfold within; lia). done.
      * rewrite fn_lookup_insert_ne by done. apply decide_ext. unfold within. lia.
    + intros x' Hx'. rewrite Hx in Hx'. injection Hx' as <-. rewrite (Hgr x2 Hx2), Eu. simpl. rewrite !list_insert_insert_eq.
      f_equal. unfold set_used, set_pages. cbn [pages capacity used refcount vtable]. f_equal; [|lia].
      rewrite (seqZ_step (id0 + d)), Nat2Z.inj_succ by lia. cbn [rev]. rewrite <- app_assoc.
      by replace (id0 + (d + 1)) with (id0 + d + 1) by lia; rewrite Z.sub_1_r, Z.pred_succ.
Qed.

(** A free run of [n] frames from [i]. *)
Definition free_run (s : mm) (i n : Z) : Prop :=
  0 ≤ i ∧ i + n ≤ MAX_PAGE_NUM ∧ ∀ j, within i n j → attrs s j = 0.

Lemma available_spec s i n : 0 ≤ i → 0 < n → available s i n = true ↔ free_run s i n.
Proof.
  intros Hi Hn. unfold available, free_run. rewrite forallb_forall. setoid_rewrite <- list_elem_of_In.
  setoid_rewrite elem_of_seqZ. setoid_rewrite andb_true_iff. split.
  - intros Hall. split_and!; [lia|specialize (Hall (n - 1)); lia|].
    intros j Hj. specialize (Hall (j - i)). replace (i + (j - i)) with j in Hall by lia.
    unfold within in Hj. lia.
  - intros (_ & Hb & Hall) j Hj. split; [lia|]. apply Z.eqb_eq, Hall. unfold within. lia.
Qed.

(** Turns of the search from position [c] to position [i]. *)
Definition turns (c i : Z) : Z :=
  if decide (c ≤ i) then i - c else if decide (c = MAX_PAGE_NUM) then i + 1 else MAX_PAGE_NUM - c + i.

Lemma round_of c : 0 ≤ c ≤ MAX_PAGE_NUM → ROUND (kva_of c) PAGE_SIZE = kva_of c.
Proof.
  intros Hc. unfold ROUND. rewrite u64_small by fsolve.
  change (not64 (PAGE_SIZE - 1)) with (Z.ldiff (Z.ones 64) (Z.ones 12)).
  apply Z.bits_inj'. intros i Hi. rewrite Z.land_spec, Z.ldiff_spec.
  assert (kva_of c = (0xffffffc052002 + c) * 2 ^ 12 + 0) as E by fsolve.
  replace (kva_of c + PAGE_SIZE - 1) with ((0xffffffc052002 + c) * 2 ^ 12 + 4095) by fsolve.
  rewrite E. clear E.
  rewrite !testbit_split by lia. case_decide.
  - rewrite !(Z.ones_spec_low 12), Z.bits_0 by lia. cbn [negb]. by rewrite !andb_false_r.
  - rewrite (Z.ones_spec_high 12) by lia. cbn [negb]. rewrite andb_true_r. destruct (decide (i < 64)).
    + by rewrite Z.ones_spec_low, andb_true_r by lia.
    + rewrite Z.ones_spec_high, andb_false_r by lia. symmetry. apply (testbit_small _ 52); [|lia].
      fsolve.
Qed.

Lemma search_step c i :
  0 ≤ c ≤ MAX_PAGE_NUM → 0 ≤ i < MAX_PAGE_NUM → c ≠ i →
  turns (if c + 1 >=? MAX_PAGE_NUM then 0 else c + 1) i = turns c i - 1.
Proof.
  intros Hc Hi Hne. unfold turns. destruct (Z.geb_spec (c + 1) MAX_PAGE_NUM); repeat case_decide; lia.
Qed.

Lemma cur_step c :
  0 ≤ c ≤ MAX_PAGE_NUM →
  (if u64 (kva_of c + PAGE_SIZE) >=? ALLMEM_KERNEL then FREEMEM_KERNEL else u64 (kva_of c + PAGE_SIZE)) =
  kva_of (if c + 1 >=? MAX_PAGE_NUM then 0 else c + 1).
Proof.
  intros Hc. rewrite u64_small by fsolve.
  destruct (Z.geb_spec (c + 1) MAX_PAGE_NUM), (Z.geb_spec (kva_of c + PAGE_SIZE) ALLMEM_KERNEL);
    unfold ALLMEM_KERNEL in *; fsolve.
Qed.

(** The search finds a free run when there is one within its turns. *)
Lemma frame_search_run (k : nat) s g x c i n :
  cur_kernel_mem s = kva_of c → 0 ≤ c ≤ MAX_PAGE_NUM → 0 < n → free_run s i n → turns c i < Z.of_nat k →
  page_groups s !! g = Some x → 0 ≤ used x ≤ MAX_PAGE_NUM → used x + n ≤ capacity x →
  (∀ j, frame_id j → attrs s j = 0 → container (frames s j) = None) →
  ∃ i' s', alloc_loop k g n s = Ok (kva_of i', s') ∧ free_run s i' n ∧
    taken (set_cur (kva_of (i' + n)) s) s' g i' n (kva_of i').
Proof.
  revert s c. induction k as [|k IH]; intros s c Hcur Hc Hn Hfree Ht Hx Hu Hcap Hdet.
  { destruct Hfree as (? & ? & _). exfalso. unfold turns in Ht. repeat case_decide; lia. }
  cbn [alloc_loop]. rewrite (bind_Ok _ _ s _ s) by reflexivity. rewrite Hcur, round_of by done.
  assert (pageframe_kva2id (kva_of c) = c) as Eid.
  { rewrite <- (Z.add_0_r (kva_of c)). by apply kva2id_off. }
  rewrite Eid. rewrite (bind_Ok _ _ s _ s) by reflexivity.
  destruct (available s c n) eqn:Eav.
  - apply available_spec in Eav; [|lia|done]. destruct Eav as (H1 & H2 & H3).
    assert (u64 (kva_of c + n * PAGE_SIZE) = kva_of (c + n)) as -> by (rewrite u64_small; fsolve).
    rewrite (bind_Ok _ _ s tt (set_cur (kva_of (c + n)) s)) by reflexivity.
    destruct (attach_run_run (Z.to_nat n) (set_cur (kva_of (c + n)) s) g x c 0) as (s' & Hs' & Htk); try done; try lia.
    + intros j Hj. rewrite Z.add_0_r, Z2Nat.id in Hj by lia. apply Hdet; [unfold within in Hj; unfold frame_id; lia|].
      by apply H3.
    + rewrite Z2Nat.id, Z.add_0_r in * by lia. exists c, s'. split_and!; [|done|done].
      by rewrite (bind_Ok _ _ _ _ _ Hs').
  - set (c' := if c + 1 >=? MAX_PAGE_NUM then 0 else c + 1).
    rewrite (bind_Ok _ _ s tt (set_cur (kva_of c') s)) by (unfold modify; by rewrite cur_step).
    assert (c ≠ i) as Hci by (intros ->; apply available_spec in Hfree; [congruence|lia|done]).
    destruct Hfree as (F1 & F2 & F3).
    assert (turns c' i = turns c i - 1) as Et by (apply search_step; lia).
    destruct (IH (set_cur (kva_of c') s) c') as (i' & s' & Hs' & Hf' & Htk); try done; try lia.
    + unfold c'. destruct (Z.geb_spec (c + 1) MAX_PAGE_NUM); lia.
    + by exists i', s'.
Qed.

Lemma taken_block s s' g i n :
  frames_ok s → 0 < n → free_run s i n → taken s s' g i n (kva_of i) → block s' g i n.
Proof.
  intros Hok Hn (F1 & F2 & F3) [Hsh Hat Hfr Hgr]. split; [lia|..].
  - intros j Hj. by rewrite Hat, Hfr, !decide_True.
  - intros j Hj. rewrite Hat. case_decide as Hw; [done|]. intros Ej. exfalso.
    destruct (fo_block _ Hok j Hj) as (e & He & Ee & Hrun); [rewrite Ej; apply kva_of_pos; lia|].
    assert (e = i) as -> by (apply kva_of_inj; congruence).
    destruct (Hrun i ltac:(lia)) as [E _]. rewrite F3 in E by (unfold within; lia).
    apply (kva_of_pos i); [lia|congruence].
Qed.

Lemma taken_ok s s' g x i n :
  frames_ok s → page_groups s !! g = Some x → 0 < n → free_run s i n →
  taken (set_cur (kva_of (i + n)) s) s' g i n (kva_of i) → frames_ok s'.
Proof.
  intros Hok Hx Hn (F1 & F2 & F3) [Hsh Hat Hfr Hgr]. simpl in *. specialize (Hgr x Hx).
  assert (∀ j, within i n j → frame_id j) as Hwf by (unfold within, frame_id; lia).
  assert (∀ j, within i n j → container (frames s j) = None) as Hdet
    by (intros j Hj; apply (fo_start _ Hok); auto).
  split.
  - intros g' x'. rewrite Hgr. intros [(<- & <- & _)|[_ Hx']]%list_lookup_insert_Some; [|by apply (fo_pages _ Hok g')].
    destruct (fo_pages _ Hok g x Hx) as [Hnd Hu]. simpl. split.
    + apply NoDup_app. split_and!; [rewrite <- Permutation_rev; apply NoDup_seqZ| |done].
      intros j Hj. rewrite <- Permutation_rev, elem_of_seqZ in Hj. intros Hm. apply (fo_member _ Hok g x j Hx) in Hm.
      specialize (Hdet j ltac:(unfold within; lia)). naive_solver congruence.
    + rewrite length_app, length_rev, length_seqZ. lia.
  - intros g' x' id. rewrite Hgr, Hfr. intros [(<- & <- & _)|[Hne Hx']]%list_lookup_insert_Some; simpl.
    + rewrite elem_of_app, <- Permutation_rev, elem_of_seqZ, (fo_member _ Hok g x id Hx).
      case_decide as Hw; simpl; unfold within in Hw.
      * split; [|by left]. intros _. split; [by apply Hwf|done].
      * naive_solver.
    + rewrite (fo_member _ Hok g' x' id Hx'). case_decide as Hw; simpl; [|done].
      rewrite (Hdet id Hw). naive_solver.
  - intros g' id Hid. rewrite Hfr, Hgr. intros Hc. apply lookup_lt_is_Some. rewrite length_insert.
    case_decide; simpl in Hc; [simplify_eq|]; apply lookup_lt_is_Some; [by eexists|by eapply fo_group].
  - intros id Hid. rewrite Hat, Hfr. case_decide as Hw; [|by apply fo_start]. simpl.
    split; [|done]. intros E. by apply kva_of_pos in E.
  - intros id Hid. rewrite Hat. case_decide as Hw.
    + intros _. exists i. split_and!; [lia|unfold within in Hw; lia|done|]. intros j Hj.
      assert (within i n j) by (unfold within in *; lia). by rewrite Hat, !Hfr, !decide_True.
    + intros Ha. destruct (fo_block _ Hok id Hid Ha) as (e & He & Ee & Hrun). exists e. split_and!; [lia|lia|done|].
      intros j Hj. destruct (Hrun j Hj) as [Ej Ec]. rewrite Hat, !Hfr.
      rewrite (decide_False (P := within i n id)) by done. rewrite !decide_False; [done|..];
        intros Hwj; rewrite F3 in Ej by done; congruence.
  - rewrite Hsh. simpl. exists (i + n). split; [lia|done].
Qed.

(** In a group with room, [alloc_pageframe] succeeds when there is a free run;
    the search of a cursor that stands at the end of the memory misses the
    last frame. *)
Lemma alloc_pageframe_run s g x n i :
  frames_ok s → page_groups s !! g = Some x → 0 < n → used x + n ≤ capacity x → free_run s i n →
  cur_kernel_mem s < ALLMEM_KERNEL ∨ i + 1 < MAX_PAGE_NUM →
  ∃ i' s', alloc_pageframe g n s = Ok (kva_of i', s') ∧ free_run s i' n ∧
    taken (set_cur (kva_of (i' + n)) s) s' g i' n (kva_of i').
Proof.
  intros Hok Hx Hn Hcap Hfree Hend. pose proof (frames_length s g x Hok Hx) as Hu.
  destruct (fo_pages _ Hok g x Hx) as [_ Eu]. destruct (fo_cur _ Hok) as (c & Hc & Ec).
  pose proof Hfree as (F1 & F2 & _). unfold alloc_pageframe.
  rewrite (bind_Ok _ _ _ _ _ (shrink_room s g x n Hx ltac:(lia) ltac:(lia) ltac:(fsolve) Hcap)).
  apply (frame_search_run _ s g x c i n); try done; try lia.
  - rewrite Ec in Hend. unfold turns. repeat case_decide; try fsolve.
    destruct Hend as [Hend|?]; [|lia]. unfold ALLMEM_KERNEL in Hend. fsolve.
  - intros j Hj. by apply fo_start.
Qed.

(** The search gives up when no free run is within its turns. *)
Lemma frame_search_fails (k : nat) s g c n :
  cur_kernel_mem s = kva_of c → 0 ≤ c ≤ MAX_PAGE_NUM → 0 < n →
  (∀ i, free_run s i n → Z.of_nat k ≤ turns c i) → alloc_loop k g n s = Panic "out of memory".
Proof.
  revert s c. induction k as [|k IH]; intros s c Hcur Hc Hn Hno; [done|].
  cbn [alloc_loop]. rewrite (bind_Ok _ _ s _ s) by reflexivity. rewrite Hcur, round_of by done.
  assert (pageframe_kva2id (kva_of c) = c) as -> by (rewrite <- (Z.add_0_r (kva_of c)); by apply kva2id_off).
  rewrite (bind_Ok _ _ s _ s) by reflexivity. destruct (available s c n) eqn:Eav.
  - exfalso. apply available_spec in Eav; [|lia|done]. specialize (Hno c Eav). unfold turns in Hno.
    rewrite decide_True in Hno by lia. lia.
  - set (c' := if c + 1 >=? MAX_PAGE_NUM then 0 else c + 1).
    rewrite (bind_Ok _ _ s tt (set_cur (kva_of c') s)) by (unfold modify; by rewrite cur_step).
    apply (IH (set_cur (kva_of c') s) c'); [done| |done|].
    + unfold c'. destruct (Z.geb_spec (c + 1) MAX_PAGE_NUM); lia.
    + intros i Hi. change (free_run s i n) in Hi. pose proof (Hno i Hi).
      assert (c ≠ i) by (intros <-; apply available_spec in Hi; [congruence|lia|done]). destruct Hi as (? & ? & _).
      unfold c'. rewrite search_step by lia. lia.
Qed.
