(* ===== verification/EvictProofs.v ===== *)
(** * The replacement algorithms of kernel/mm/pf_evict.cpp *)

From S2P Require Import Prelude Bytes Block SdCard Pgtable PgtableProofs Frames FrameProofs.

Definition entry_of (s : mm) (id : Z) : Z := load64 (mem s) (pte (frames s id)).
(** A frame that an entry with permissions maps, as the algorithms test it. *)
Definition leaf (s : mm) (id : Z) : Prop := pte (frames s id) ≠ NULL ∧ has (entry_of s id) RWX = true.
Definition accessed (s : mm) (id : Z) : Prop := has (entry_of s id) PAGE_ACCESSED = true.
#[global] Instance leaf_dec s id : Decision (leaf s id).
Proof. unfold leaf. apply _. Defined.
#[global] Instance accessed_dec s id : Decision (accessed s id).
Proof. unfold accessed. apply _. Defined.

(** The list of group [g] is the list of its frames, and two frames are mapped
    by entries that do not overlap. *)
Record group_ok (s : mm) (g : nat) (x : pageframe_group_t) : Prop := {
  go_group : page_groups s !! g = Some x;
  go_nodup : NoDup (pages x);
  go_frame id : id ∈ pages x → frame_id id ∧ container (frames s id) = Some g;
  go_apart i j : i ∈ pages x → j ∈ pages x → i ≠ j → pte (frames s i) ≠ NULL → pte (frames s j) ≠ NULL →
    pte (frames s i) + 8 ≤ pte (frames s j) ∨ pte (frames s j) + 8 ≤ pte (frames s i);
  go_bytes a : 0 ≤ mem s a < 256;
}.

(** What a walk does: the list of the group becomes [l], the frames [C] lose
    their accessed bit, and nothing else changes. *)
Record turned (s s' : mm) (g : nat) (x : pageframe_group_t) (l C : list Z) : Prop := {
  tu_shape : s' = set_mem (mem s') (set_frames (frames s') (set_groups (<[g := set_pages l x]> (page_groups s)) s));
  tu_frames j : frames s' j = frames s j;
  tu_entry id : id ∈ pages x → pte (frames s id) ≠ NULL →
    entry_of s' id = if decide (id ∈ C) then clear_attribute (entry_of s id) PAGE_ACCESSED else entry_of s id;
  tu_out a : (∀ id, id ∈ C → a < pte (frames s id) ∨ pte (frames s id) + 8 ≤ a) → mem s' a = mem s a;
  tu_bytes a : 0 ≤ mem s' a < 256;
}.

Lemma unle_range l : (∀ b, b ∈ l → 0 ≤ b < 256) → 0 ≤ unle l < 256 ^ Z.of_nat (length l).
Proof.
  induction l as [|b l IH]; intros Hb; [done|]. cbn [unle length].
  rewrite Nat2Z.inj_succ, Z.pow_succ_r by lia.
  pose proof (Hb b ltac:(left)). specialize (IH ltac:(intros c Hc; apply Hb; by right)). nia.
Qed.

Lemma load_range m a : (∀ x, 0 ≤ m x < 256) → 0 ≤ load64 m a < 2 ^ 64.
Proof.
  intros Hm. unfold load64. pose proof (unle_range (bytes_at m a 8)) as H. rewrite bytes_at_length in H.
  apply H. intros b Hb. apply list_elem_of_fmap in Hb as (j & -> & _). apply Hm.
Qed.

Lemma le_bytes n v b : b ∈ le n v → 0 ≤ b < 256.
Proof.
  revert v. induction n as [|n IH]; intros v; cbn [le]; [set_solver|].
  intros [->|Hb]%elem_of_cons; [by apply Z.mod_pos_bound|by eapply IH].
Qed.

Lemma put_bytes_range a v m : (∀ b, b ∈ v → 0 ≤ b < 256) → (∀ x, 0 ≤ m x < 256) → ∀ x, 0 ≤ put_bytes a v m x < 256.
Proof.
  intros Hv Hm x. unfold put_bytes. case_match; [|done].
  destruct (v !! Z.to_nat (x - a)) as [b|] eqn:E; simpl; [|lia]. by apply Hv, (list_elem_of_lookup_2 _ _ _ E).
Qed.

Lemma store_range a v m : (∀ x, 0 ≤ m x < 256) → ∀ x, 0 ≤ store64 a v m x < 256.
Proof. intros Hm. apply put_bytes_range; [apply le_bytes|done]. Qed.

(** ** Attributes under the accessed bit *)
Lemma clear_range e b : 0 ≤ e < 2 ^ 64 → 0 ≤ clear_attribute e b < 2 ^ 64.
Proof. by apply land_range. Qed.

Lemma has_clear e : 0 ≤ e < 2 ^ 64 → has (clear_attribute e PAGE_ACCESSED) RWX = has e RWX.
Proof.
  intros He. rewrite (entry_split e). pose proof (Z.mod_pos_bound e 1024 ltac:(lia)).
  assert (0 ≤ Z.ldiff (e mod 1024) PAGE_ACCESSED < 2 ^ 10) by (rewrite Z.ldiff_land; by apply land_range).
  rewrite clear_attribute_entry, !has_entry by (done || (split; [apply Z.div_pos|apply Z.div_lt_upper_bound]; lia)).
  unfold has, get_attribute. do 2 f_equal. apply Z.bits_inj'. intros i Hi. rewrite !Z.land_spec, Z.ldiff_spec.
  destruct (Z.testbit RWX i) eqn:E; [|by rewrite !andb_false_r].
  assert (i < 4) by (destruct (decide (i < 4)); [done|]; rewrite (testbit_small RWX 4) in E; [done|done|lia]).
  change PAGE_ACCESSED with (1 * 2 ^ 6). by rewrite Z.mul_pow2_bits_low, !andb_true_r by lia.
Qed.

Lemma has_cleared e : 0 ≤ e < 2 ^ 64 → has (clear_attribute e PAGE_ACCESSED) PAGE_ACCESSED = false.
Proof.
  intros He. rewrite (entry_split e). pose proof (Z.mod_pos_bound e 1024 ltac:(lia)).
  assert (0 ≤ Z.ldiff (e mod 1024) PAGE_ACCESSED < 2 ^ 10) by (rewrite Z.ldiff_land; by apply land_range).
  rewrite clear_attribute_entry, has_entry by (done || (split; [apply Z.div_pos|apply Z.div_lt_upper_bound]; lia)).
  unfold has, get_attribute. by rewrite Z.land_ldiff.
Qed.

(** ** Walks compose *)
Lemma turned_refl s g x : group_ok s g x → turned s s g x (pages x) [].
Proof.
  intros [Hx _ _ _ Hb]. split; try done.
  - rewrite list_insert_id; [by destruct s|by destruct x].
Qed.

Lemma turned_group s s' g x l C :
  group_ok s g x → turned s s' g x l C → l ≡ₚ pages x → group_ok s' g (set_pages l x).
Proof.
  intros [Hx Hnd Hf Hap Hb] [Hsh Hfr He Ho Hb'] Hl. split.
  - rewrite Hsh. apply list_lookup_insert_eq. by eapply lookup_lt_Some.
  - cbn. by rewrite Hl.
  - cbn. intros id. rewrite Hl, Hfr. apply Hf.
  - cbn. intros i j. rewrite Hl, !Hfr. apply Hap.
  - done.
Qed.

Lemma turned_trans s s' s'' g x l l' C C' :
  turned s s' g x l C → turned s' s'' g (set_pages l x) l' C' → l ≡ₚ pages x →
  (∀ id, id ∈ C → id ∉ C') → turned s s'' g x l' (C ++ C').
Proof.
  intros [Hsh Hfr He Ho Hb] [Hsh' Hfr' He' Ho' Hb'] Hl Hd. split.
  - rewrite Hsh', Hsh. cbn. by rewrite list_insert_insert_eq.
  - intros j. by rewrite Hfr'.
  - intros id Hid Hp. rewrite He' by (cbn; rewrite ?Hl, ?Hfr; done). rewrite He by done.
    specialize (Hd id). destruct (decide (id ∈ C)), (decide (id ∈ C')), (decide (id ∈ C ++ C')); set_solver.
  - intros a Ha. rewrite Ho', Ho; [done|..]; intros id Hid.
    + apply Ha. set_solver.
    + rewrite Hfr. apply Ha. set_solver.
  - done.
Qed.

(** One frame from the back to the front of the list. *)
Lemma to_front_run s g x l b {A} (k : MM A) :
  group_ok s g x → pages x = l ++ [b] →
  ∃ s', bind (list_delete b) (fun _ => bind (list_prepend g b) (fun _ => k)) s = k s' ∧
    turned s s' g x (b :: l) [] ∧ mem s' = mem s.
Proof.
  intros Hok El. pose proof Hok as [Hx Hnd Hf _ Hbt]. destruct (Hf b) as [Hb Hc]; [rewrite El; set_solver|].
  rewrite (bind_Ok _ _ _ _ _ (frame_delete_run s g x b Hb Hc Hx)). set (x1 := set_pages _ x). set (s1 := set_frames _ _).
  assert (page_groups s1 !! g = Some x1) as Hx1.
  { apply list_lookup_insert_eq. by eapply lookup_lt_Some. }
  assert (container (frames s1 b) = None) as Hc1 by (unfold s1; cbn; by rewrite fn_lookup_insert).
  rewrite (bind_Ok _ _ _ _ _ (frame_prepend_run s1 g x1 b Hb Hc1 Hx1)).
  eexists. split; [reflexivity|]. split; [|done].
  assert (pages x1 = l) as El1.
  { unfold x1. cbn. rewrite El, filter_app, filter_cons_False by (by intros []).
    rewrite El, NoDup_app in Hnd. rewrite filter_nil, app_nil_r. apply filter_all. set_solver. }
  split.
  - rewrite <- El1. cbn. by rewrite list_insert_insert_eq.
  - intros j. cbn. destruct (decide (j = b)) as [->|Hne].
    + rewrite !fn_lookup_insert. destruct (frames s b) eqn:E. cbn in *. by rewrite Hc.
    + by rewrite !fn_lookup_insert_ne.
  - intros id Hid Hp. unfold entry_of. cbn. destruct (decide (id = b)) as [->|Hne];
      rewrite ?fn_lookup_insert, ?fn_lookup_insert_ne by done; done.
  - done.
  - done.
Qed.

(** Clearing the accessed bit of one frame of the group. *)
Lemma clear_turned s g x b :
  group_ok s g x → b ∈ pages x → pte (frames s b) ≠ NULL →
  turned s (set_mem (store64 (pte (frames s b)) (clear_attribute (entry_of s b) PAGE_ACCESSED) (mem s)) s)
    g x (pages x) [b].
Proof.
  intros [Hx Hnd Hf Hap Hbt] Hb Hp. pose proof (load_range (mem s) (pte (frames s b)) Hbt) as Hr. split.
  - cbn. rewrite list_insert_id; [by destruct s|by destruct x].
  - done.
  - intros id Hid Hpi. unfold entry_of at 1. cbn. destruct (decide (id = b)) as [->|Hne].
    + rewrite decide_True by set_solver. apply load_store. by apply clear_range.
    + rewrite decide_False by set_solver. apply load_store_apart. by apply Hap.
  - intros a Ha. cbn. apply put_bytes_out. rewrite le_length. apply Ha. set_solver.
  - cbn. by apply store_range.
Qed.

Lemma is_leaf_run s id : frame_id id → is_leaf id s = Ok (bool_decide (leaf s id), s).
Proof.
  intros Hid. unfold is_leaf. rewrite (bind_Ok _ _ _ _ _ (get_frame_run _ _ Hid)).
  destruct (Z.eqb_spec (pte (frames s id)) NULL) as [E|E].
  - by rewrite bool_decide_eq_false_2 by (by intros []).
  - rewrite (bind_Ok _ _ _ _ _ (get_pte_run _ _ E)). unfold ret. do 2 f_equal.
    change (load64 (mem s) (pte (frames s id))) with (entry_of s id).
    case_bool_decide as Hl; [apply Hl|]. destruct (has (entry_of s id) RWX) eqn:Eh; [by destruct Hl|done].
Qed.

Lemma find_leaf_run s l :
  (∀ id, id ∈ l → frame_id id) → find_leaf l s = Ok (head (filter (leaf s) l), s).
Proof.
  induction l as [|id l IH]; intros Hl; [done|]. cbn [find_leaf].
  rewrite (bind_Ok _ _ _ _ _ (is_leaf_run s id ltac:(apply Hl; left))), filter_cons.
  case_bool_decide; [by rewrite decide_True|]. rewrite decide_False by done. apply IH. intros j Hj. apply Hl. by right.
Qed.

(** ** Moving a suffix to the front *)
Lemma rotate_run l2 : ∀ s g x l1 v,
  group_ok s g x → pages x = l1 ++ v :: l2 →
  ∃ s', rotate g v (rev (pages x)) s = Ok (tt, s') ∧ turned s s' g x (l2 ++ l1 ++ [v]) [] ∧ mem s' = mem s.
Proof.
  induction l2 as [|b l2 IH] using rev_ind; intros s g x l1 v Hok El.
  - exists s. rewrite El, rev_app_distr. cbn. rewrite Z.eqb_refl. split_and!; [done| |done].
    rewrite <- El. by apply turned_refl.
  - pose proof (go_nodup _ _ _ Hok) as Hnd. assert (v ≠ b) as Hvb.
    { rewrite El in Hnd. apply NoDup_app in Hnd as (_ & _ & Hnd). apply NoDup_cons in Hnd. set_solver. }
    assert (pages x = (l1 ++ v :: l2) ++ [b]) as El' by (by rewrite El, <- app_assoc).
    destruct (to_front_run s g x (l1 ++ v :: l2) b (rotate g v (rev (l1 ++ v :: l2))) Hok El') as (s1 & Hs1 & Ht1 & Hm1).
    pose proof (turned_group _ _ _ _ _ _ Hok Ht1 ltac:(by rewrite El', Permutation_cons_append)) as Hok1.
    assert (∀ s0, rotate g v (rev (b :: l1 ++ v :: l2)) s0 = rotate g v (rev (l1 ++ v :: l2)) s0) as Hr.
    { intros s0. rewrite rev_app_distr. cbn [rev]. rewrite rev_app_distr. cbn [rev]. rewrite <- !app_assoc. clear.
      induction (rev l2) as [|c k IHk] in s0 |- *; cbn.
      - by rewrite Z.eqb_refl.
      - destruct (c =? v); [done|]. unfold bind. destruct (list_delete c s0) as [[[] s1]| |]; try done.
        destruct (list_prepend g c s1) as [[[] s2]| |]; done. }
    destruct (IH s1 g (set_pages (b :: l1 ++ v :: l2) x) (b :: l1) v Hok1 ltac:(done)) as (s' & Hs' & Ht' & Hm').
    exists s'. split_and!.
    + rewrite El', rev_app_distr. cbn [rev app rotate]. rewrite (proj2 (Z.eqb_neq b v)) by done.
      rewrite Hs1, <- Hr. exact Hs'.
    + replace ((l2 ++ [b]) ++ l1 ++ [v]) with (l2 ++ (b :: l1) ++ [v]) by (by rewrite <- app_assoc).
      change (@nil Z) with (@nil Z ++ []). eapply turned_trans; [exact Ht1|exact Ht'| |set_solver].
      by rewrite El', Permutation_cons_append.
    + by rewrite Hm', Hm1.
Qed.

Lemma turned_ext s s' g x l C C' : (∀ id, id ∈ C ↔ id ∈ C') → turned s s' g x l C → turned s s' g x l C'.
Proof.
  intros Hc [Hsh Hfr He Ho Hb]. split; try done.
  - intros id Hid Hp. rewrite He by done. by apply decide_ext.
  - intros a Ha. apply Ho. intros id Hid. by apply Ha, Hc.
Qed.

(** A walk keeps the leaves, and the accessed bits of the frames it skips. *)
Lemma turned_leaf s s' g x l C id :
  group_ok s g x → turned s s' g x l C → id ∈ pages x → (leaf s' id ↔ leaf s id).
Proof.
  intros Hok [_ Hfr He _ _] Hid. unfold leaf. rewrite Hfr.
  destruct (decide (pte (frames s id) = NULL)) as [E|E]; [naive_solver|]. rewrite (He id Hid E).
  case_decide; [|done]. by rewrite has_clear by (apply load_range, (go_bytes _ _ _ Hok)).
Qed.

Lemma turned_accessed s s' g x l C id :
  turned s s' g x l C → id ∈ pages x → pte (frames s id) ≠ NULL → id ∉ C → (accessed s' id ↔ accessed s id).
Proof. intros [_ Hfr He _ _] Hid Hp HC. unfold accessed. by rewrite (He id Hid Hp), decide_False. Qed.

(** ** The second chance *)
Lemma second_step s g x l b fuel :
  group_ok s g x → pages x = l ++ [b] → (leaf s b → accessed s b) →
  ∃ s', turned s s' g x (b :: l) (if decide (leaf s b) then [b] else []) ∧
    second_loop (S fuel) g s = second_loop fuel g s'.
Proof.
  intros Hok El Hacc. assert (b ∈ pages x) as Hb by (rewrite El; set_solver).
  destruct (go_frame _ _ _ Hok b Hb) as [Hfb _]. cbn [second_loop].
  rewrite (bind_Ok _ _ _ _ _ (get_group_run _ _ _ (go_group _ _ _ Hok))), El, last_snoc.
  rewrite (bind_Ok _ _ _ _ _ (is_leaf_run s b Hfb)).
  case_decide as Hl; [rewrite bool_decide_eq_true_2 by done|rewrite bool_decide_eq_false_2 by done].
  - destruct Hl as [Hp Hrwx]. rewrite (bind_Ok _ _ _ _ _ (get_frame_run s b Hfb)).
    rewrite (bind_Ok _ _ _ _ _ (get_pte_run s _ Hp)).
    change (load64 (mem s) (pte (frames s b))) with (entry_of s b). rewrite (Hacc (conj Hp Hrwx)).
    rewrite (bind_Ok _ _ _ _ _ (put_pte_run s _ _ Hp)).
    pose proof (clear_turned s g x b Hok Hb Hp) as Ht. set (s1 := set_mem _ s) in *.
    pose proof (turned_group _ _ _ _ _ _ Hok Ht ltac:(done)) as Hok1.
    destruct (to_front_run s1 g (set_pages (pages x) x) l b (second_loop fuel g) Hok1 El) as (s' & Hs' & Ht' & _).
    exists s'. split; [|done]. change [b] with ([b] ++ []). eapply turned_trans; [exact Ht|exact Ht'|done|set_solver].
  - destruct (to_front_run s g x l b (second_loop fuel g) Hok El) as (s' & Hs' & Ht' & _). by exists s'.
Qed.

Lemma second_skip l2 : ∀ s g x l1 fuel,
  group_ok s g x → pages x = l1 ++ l2 → (∀ b, b ∈ l2 → leaf s b → accessed s b) →
  ∃ s', turned s s' g x (l2 ++ l1) (filter (leaf s) l2) ∧
    second_loop (length l2 + fuel) g s = second_loop fuel g s'.
Proof.
  induction l2 as [|b l2 IH] using rev_ind; intros s g x l1 fuel Hok El Hacc.
  - exists s. split; [|done]. rewrite app_nil_r in El. cbn. rewrite <- El. by apply turned_refl.
  - assert (pages x = (l1 ++ l2) ++ [b]) as El' by (by rewrite El, <- app_assoc).
    pose proof (go_nodup _ _ _ Hok) as Hnd. rewrite El' in Hnd. apply NoDup_app in Hnd as (Hnd & Hnb & _).
    destruct (second_step s g x (l1 ++ l2) b (length l2 + fuel) Hok El' ltac:(apply Hacc; set_solver)) as (s1 & Ht1 & Hs1).
    assert (b :: l1 ++ l2 ≡ₚ pages x) as Hp by (by rewrite El', Permutation_cons_append).
    pose proof (turned_group _ _ _ _ _ _ Hok Ht1 Hp) as Hok1.
    assert (∀ c, c ∈ l2 → c ∈ pages x ∧ c ≠ b) as Hc.
    { intros c Hc. split; [rewrite El; set_solver|]. intros ->. apply (Hnb b); set_solver. }
    destruct (IH s1 g (set_pages (b :: l1 ++ l2) x) (b :: l1) fuel Hok1 ltac:(done)) as (s' & Ht' & Hs').
    { intros c Hcl Hl. destruct (Hc c Hcl) as [Hcx Hcb].
      rewrite (turned_leaf _ _ _ _ _ _ c Hok Ht1 Hcx) in Hl.
      rewrite (turned_accessed _ _ _ _ _ _ c Ht1 Hcx (proj1 Hl)); [apply Hacc; set_solver|].
      case_decide; set_solver. }
    exists s'. split.
    + rewrite <- app_assoc. eapply turned_ext; [|eapply (turned_trans _ _ _ _ _ _ _ _ _ Ht1 Ht' Hp)].
      * intros id. rewrite elem_of_app, !list_elem_of_filter, elem_of_app, list_elem_of_singleton. split.
        -- intros [Hid|[Hl Hid]].
           ++ case_decide; [|set_solver]. apply list_elem_of_singleton in Hid as ->. by split; [|right].
           ++ rewrite (turned_leaf _ _ _ _ _ _ id Hok Ht1 (proj1 (Hc id Hid))) in Hl. by split; [|left].
        -- intros [Hl [Hid| ->]]; [right|left].
           ++ by rewrite (turned_leaf _ _ _ _ _ _ id Hok Ht1 (proj1 (Hc id Hid))).
           ++ rewrite decide_True by done. set_solver.
      * intros id Hid. rewrite list_elem_of_filter. case_decide; [|set_solver].
        apply list_elem_of_singleton in Hid as ->. intros [_ Hb2]. by destruct (Hc b Hb2).
    + rewrite length_app. cbn [length]. rewrite Nat.add_1_r. cbn [Nat.add]. by rewrite Hs1, Hs'.
Qed.

(** The frame at the back of the list is an unused leaf: it is the victim. *)
Lemma second_found s g x l v fuel :
  group_ok s g x → pages x = l ++ [v] → leaf s v → ¬ accessed s v →
  second_loop (S fuel) g s = Ok (Some v, s).
Proof.
  intros Hok El Hl Ha. assert (v ∈ pages x) as Hv by (rewrite El; set_solver).
  destruct (go_frame _ _ _ Hok v Hv) as [Hfv _]. cbn [second_loop].
  rewrite (bind_Ok _ _ _ _ _ (get_group_run _ _ _ (go_group _ _ _ Hok))), El, last_snoc.
  rewrite (bind_Ok _ _ _ _ _ (is_leaf_run s v Hfv)), bool_decide_eq_true_2 by done. destruct Hl as [Hp _].
  rewrite (bind_Ok _ _ _ _ _ (get_frame_run s v Hfv)), (bind_Ok _ _ _ _ _ (get_pte_run s _ Hp)).
  change (load64 (mem s) (pte (frames s v))) with (entry_of s v).
  unfold accessed in Ha. by destruct (has (entry_of s v) PAGE_ACCESSED).
Qed.

(** ** The victims *)
Lemma last_with {A} (P : A → Prop) `{∀ a, Decision (P a)} (l : list A) :
  (∃ v, v ∈ l ∧ P v) → ∃ l1 v l2, l = l1 ++ v :: l2 ∧ P v ∧ ∀ w, w ∈ l2 → ¬ P w.
Proof.
  induction l as [|b l IH] using rev_ind; intros (v & Hv & Hp); [set_solver|].
  destruct (decide (P b)) as [Hb|Hb]; [exists l, b, []; split_and!; [done|done|set_solver]|].
  destruct IH as (l1 & w & l2 & -> & Hw & Hl2).
  { apply elem_of_app in Hv as [Hv| ->%list_elem_of_singleton]; [by exists v|done]. }
  exists l1, w, (l2 ++ [b]). split_and!; [by rewrite <- app_assoc|done|]. intros u [Hu| ->%list_elem_of_singleton]%elem_of_app; auto.
Qed.

(** What an algorithm answers: a leaf [v] of the group, now at the back of the
    list; the frames [C] lost their accessed bit. *)
Record evicted (s s' : mm) (g : nat) (x : pageframe_group_t) (v : Z) (C : list Z) : Prop := {
  ev_turned : ∃ l, turned s s' g x (l ++ [v]) C ∧ l ++ [v] ≡ₚ pages x;
  ev_leaf : leaf s v;
  ev_cleared c : c ∈ C → c ∈ pages x ∧ leaf s c ∧ accessed s c;
}.

Lemma fifo_evict_run s g x :
  group_ok s g x → (∃ v, v ∈ pages x ∧ leaf s v) →
  ∃ l1 v l2 s', pages x = l1 ++ v :: l2 ∧ leaf s v ∧ (∀ w, w ∈ l2 → ¬ leaf s w) ∧
    fifo_evict g s = Ok (Some v, s') ∧ turned s s' g x (l2 ++ l1 ++ [v]) [] ∧ mem s' = mem s.
Proof.
  intros Hok (l1 & v & l2 & El & Hv & Hl2)%last_with; [|apply _].
  destruct (rotate_run l2 s g x l1 v Hok El) as (s' & Hs' & Ht & Hm). exists l1, v, l2, s'. split_and!; try done.
  unfold fifo_evict. rewrite (bind_Ok _ _ _ _ _ (get_group_run _ _ _ (go_group _ _ _ Hok))).
  rewrite (bind_Ok _ _ s (Some v) s).
  - by rewrite (bind_Ok _ _ _ _ _ Hs').
  - rewrite find_leaf_run by (intros id Hid; rewrite <- Permutation_rev in Hid; by apply (go_frame _ _ _ Hok)).
    rewrite El, rev_app_distr. cbn [rev]. rewrite <- app_assoc, filter_app, filter_none.
    + cbn [app]. by rewrite filter_cons_True.
    + intros w. rewrite <- Permutation_rev. apply Hl2.
Qed.

Lemma fifo_none_run s g x :
  group_ok s g x → (∀ v, v ∈ pages x → ¬ leaf s v) → fifo_evict g s = Ok (None, s).
Proof.
  intros Hok Hno. unfold fifo_evict. rewrite (bind_Ok _ _ _ _ _ (get_group_run _ _ _ (go_group _ _ _ Hok))).
  rewrite (bind_Ok _ _ s None s); [done|].
  rewrite find_leaf_run by (intros id Hid; rewrite <- Permutation_rev in Hid; by apply (go_frame _ _ _ Hok)).
  rewrite filter_none; [done|]. intros v. rewrite <- Permutation_rev. apply Hno.
Qed.

(** From any rotation of the list, the loop stops at the last leaf without the
    accessed bit, or after a full turn at the last leaf. *)
Lemma second_loop_run s g x fuel :
  group_ok s g x → (∃ v, v ∈ pages x ∧ leaf s v) → (2 * length (pages x) < fuel)%nat →
  ∃ v s' C, second_loop fuel g s = Ok (Some v, s') ∧ evicted s s' g x v C ∧ ¬ accessed s' v ∧
    (accessed s v → ∀ w, w ∈ pages x → leaf s w → accessed s w).
Proof.
  intros Hok Hex Hfuel. destruct (decide (Exists (fun w => leaf s w ∧ ¬ accessed s w) (pages x))) as [Hun|Hun].
  - apply Exists_exists, last_with in Hun as (k1 & v & k2 & El & [Hv Ha] & Hk2); [|apply _].
    assert (∃ f, fuel = length k2 + S f)%nat as [f ->].
    { exists (fuel - length k2 - 1)%nat. rewrite El, length_app in Hfuel. cbn in Hfuel. lia. }
    destruct (second_skip k2 s g x (k1 ++ [v]) (S f) Hok) as (s' & Ht & Hs').
    { by rewrite El, <- app_assoc. }
    { intros b Hb Hl. destruct (decide (accessed s b)); [done|]. by destruct (Hk2 b Hb). }
    rewrite app_assoc in Ht. assert ((k2 ++ k1) ++ [v] ≡ₚ pages x) as Hp.
    { rewrite El, <- app_assoc, (Permutation_app_comm k2). by rewrite <- app_assoc. }
    pose proof (turned_group _ _ _ _ _ _ Hok Ht Hp) as Hok'.
    assert (v ∈ pages x) as Hvx by (rewrite El; set_solver).
    assert (v ∉ filter (leaf s) k2) as Hvk.
    { pose proof (go_nodup _ _ _ Hok) as Hnd. rewrite El in Hnd. apply NoDup_app in Hnd as (_ & _ & Hnd).
      apply NoDup_cons in Hnd. rewrite list_elem_of_filter. naive_solver. }
    pose proof (turned_leaf _ _ _ _ _ _ v Hok Ht Hvx) as Hlv.
    pose proof (turned_accessed _ _ _ _ _ _ v Ht Hvx (proj1 Hv) Hvk) as Hav.
    exists v, s', (filter (leaf s) k2). split_and!; [|split|by rewrite Hav|done].
    + rewrite Hs'. apply (second_found s' g _ (k2 ++ k1) v f Hok'); [done|by apply Hlv|by rewrite Hav].
    + by exists (k2 ++ k1).
    + done.
    + intros c [Hl Hc]%list_elem_of_filter. split_and!; [rewrite El; set_solver|done|].
      destruct (decide (accessed s c)); [done|]. by destruct (Hk2 c Hc).
  - assert (∀ w, w ∈ pages x → leaf s w → accessed s w) as Hall.
    { intros w Hw Hl. destruct (decide (accessed s w)); [done|]. destruct Hun. apply Exists_exists. by exists w. }
    destruct (last_with (leaf s) (pages x) Hex) as (k1 & v & k2 & El & Hv & Hk2).
    assert (∃ f, fuel = length (pages x) + (length k2 + S f))%nat as [f ->].
    { exists (fuel - length (pages x) - length k2 - 1)%nat. rewrite El, length_app in Hfuel |- *. cbn in Hfuel |- *. lia. }
    destruct (second_skip (pages x) s g x [] (length k2 + S f) Hok eq_refl Hall) as (s1 & Ht1 & Hs1).
    rewrite app_nil_r in Ht1. pose proof (turned_group _ _ _ _ _ _ Hok Ht1 ltac:(done)) as Hok1.
    destruct (second_skip k2 s1 g (set_pages (pages x) x) (k1 ++ [v]) (S f) Hok1) as (s' & Ht & Hs').
    { cbn. by rewrite El, <- app_assoc. }
    { intros b Hb Hl. rewrite (turned_leaf _ _ _ _ _ _ b Hok Ht1) in Hl by (rewrite El; set_solver). by destruct (Hk2 b Hb). }
    rewrite filter_none in Ht.
    2:{ intros b Hb. rewrite (turned_leaf _ _ _ _ _ _ b Hok Ht1) by (rewrite El; set_solver). by apply Hk2. }
    rewrite app_assoc in Ht. assert ((k2 ++ k1) ++ [v] ≡ₚ pages x) as Hp.
    { rewrite El, <- app_assoc, (Permutation_app_comm k2). by rewrite <- app_assoc. }
    pose proof (turned_group _ _ _ _ _ _ Hok1 Ht Hp) as Hok'.
    assert (v ∈ pages x) as Hvx by (rewrite El; set_solver).
    pose proof (turned_trans _ _ _ _ _ _ _ _ _ Ht1 Ht ltac:(done) ltac:(set_solver)) as Htt. rewrite app_nil_r in Htt.
    assert (¬ accessed s' v) as Hav.
    { unfold accessed. rewrite (tu_entry _ _ _ _ _ _ Htt v Hvx (proj1 Hv)), decide_True by (by apply list_elem_of_filter).
      by rewrite has_cleared by (apply load_range, (go_bytes _ _ _ Hok)). }
    exists v, s', (filter (leaf s) (pages x)). split_and!; [|split|done|done].
    + rewrite Hs1, Hs'. apply (second_found s' g _ (k2 ++ k1) v f Hok'); [done| |done].
      by apply (turned_leaf _ _ _ _ _ _ v Hok Htt Hvx).
    + by exists (k2 ++ k1).
    + done.
    + intros c [Hl Hc]%list_elem_of_filter. auto.
Qed.

Lemma fifo_evicted s s' g x l1 v l2 :
  pages x = l1 ++ v :: l2 → leaf s v → turned s s' g x (l2 ++ l1 ++ [v]) [] → evicted s s' g x v [].
Proof.
  intros El Hv Ht. split; [|done|set_solver]. exists (l2 ++ l1). rewrite app_assoc in Ht. split; [done|].
  rewrite El, <- app_assoc, (Permutation_app_comm l2). by rewrite <- app_assoc.
Qed.

Lemma second_evict_run s g x :
  group_ok s g x → (∃ v, v ∈ pages x ∧ leaf s v) →
  ∃ v s' C, second_chance_evict g s = Ok (Some v, s') ∧ evicted s s' g x v C ∧ ¬ accessed s' v ∧
    (accessed s v → ∀ w, w ∈ pages x → leaf s w → accessed s w).
Proof.
  intros Hok Hex. destruct (fifo_evict_run s g x Hok Hex) as (l1 & v0 & l2 & s1 & El & Hv0 & _ & Hs1 & Ht1 & Hm1).
  unfold second_chance_evict. rewrite (bind_Ok _ _ _ _ _ Hs1). clear Hs1.
  assert (l2 ++ l1 ++ [v0] ≡ₚ pages x) as Hp.
  { rewrite El, (Permutation_app_comm l2). by rewrite <- app_assoc. }
  pose proof (turned_group _ _ _ _ _ _ Hok Ht1 Hp) as Hok1. set (x1 := set_pages _ x) in *.
  rewrite (bind_Ok _ _ _ _ _ (get_group_run _ _ _ (go_group _ _ _ Hok1))).
  assert (∀ w, w ∈ pages x → (leaf s1 w ↔ leaf s w)) as Hl by (intros; eapply turned_leaf; eauto).
  assert (∀ w, accessed s1 w ↔ accessed s w) as Ha.
  { intros w. unfold accessed, entry_of. by rewrite Hm1, (tu_frames _ _ _ _ _ _ Ht1). }
  assert (∀ w, w ∈ pages x1 ↔ w ∈ pages x) as Hx1 by (intros w; unfold x1; cbn; by rewrite Hp).
  destruct (second_loop_run s1 g x1 (second_fuel x1) Hok1) as (v & s' & C & Hs' & [(l & Ht & Hpl) Hlv Hc] & Hna & Hfair).
  { destruct Hex as (w & Hw & Hwl). exists w. rewrite Hx1, Hl; done. }
  { unfold second_fuel. lia. }
  assert (v ∈ pages x) as Hv by (rewrite <- Hx1, <- Hpl; set_solver).
  exists v, s', C. split_and!; [done| |done|].
  - split; [|by apply Hl|].
    + exists l. split; [|by rewrite Hpl; unfold x1; cbn; rewrite Hp].
      change C with ([] ++ C). eapply turned_trans; [exact Ht1|exact Ht|done|set_solver].
    + intros c Hcc. destruct (Hc c Hcc) as (H1 & H2 & H3). rewrite Hx1 in H1. rewrite Ha in H3. by rewrite Hl in H2.
  - intros Hav w Hw Hwl. apply Ha, Hfair; [by apply Ha|by apply Hx1|by apply Hl].
Qed.

Lemma victim_run s g x :
  group_ok s g x → (∃ v, v ∈ pages x ∧ leaf s v) →
  ∃ v s' C, evict g s = Ok (Some v, s') ∧ evicted s s' g x v C.
Proof.
  intros Hok Hex. unfold evict. rewrite (bind_Ok _ _ _ _ _ (get_group_run _ _ _ (go_group _ _ _ Hok))).
  destruct (fifo_evict_run s g x Hok Hex) as (l1 & v0 & l2 & s1 & El & Hv0 & _ & Hs1 & Ht1 & _).
  pose proof (fifo_evicted _ _ _ _ _ _ _ El Hv0 Ht1).
  destruct (second_evict_run s g x Hok Hex) as (v & s' & C & Hs' & Hev & _).
  destruct (algo (vtable x)); [by exists v0, s1, []|by exists v, s', C|by exists v0, s1, []].
Qed.

(** The invariant of the frames only reads owners, starts and lists. *)
Lemma frames_ok_ext s s' :
  frames_ok s → page_groups s' = page_groups s → (∀ j, attrs s' j = attrs s j) →
  (∀ j, container (frames s' j) = container (frames s j)) → cur_kernel_mem s' = cur_kernel_mem s → frames_ok s'.
Proof.
  intros [H1 H2 H3 H4 H5 H6] Eg Ea Ec Ek. split.
  - intros g x. rewrite Eg. apply H1.
  - intros g x id. rewrite Eg, Ec. apply H2.
  - intros g id. rewrite Eg, Ec. apply H3.
  - intros id. rewrite Ea, Ec. apply H4.
  - intros id Hid. rewrite Ea, Ec. intros Ha. destruct (H5 id Hid Ha) as (e & He & Ee & Hr).
    exists e. split_and!; [lia|lia|done|]. intros j Hj. rewrite Ea, Ec. by apply Hr.
  - by rewrite Ek.
Qed.

Lemma turned_frames s s' g x l C :
  frames_ok s → page_groups s !! g = Some x → turned s s' g x l C → l ≡ₚ pages x → frames_ok s'.
Proof.
  intros Hok Hx [Hsh Hfr _ _ _] Hl.
  assert (frames_ok (set_groups (<[g := set_pages l x]> (page_groups s)) s)) as Hok'.
  { destruct Hok as [H1 H2 H3 H4 H5 H6]. split; cbn; try done.
    - intros g' x' [(<- & <- & _)|[_ Hx']]%list_lookup_insert_Some; [|by apply (H1 g')].
      cbn. rewrite Hl. by apply (H1 g).
    - intros g' x' id [(<- & <- & _)|[_ Hx']]%list_lookup_insert_Some; [|by apply H2].
      cbn. rewrite Hl. by apply H2.
    - intros g' id Hid Hc. apply lookup_lt_is_Some. rewrite length_insert. apply lookup_lt_is_Some. by eapply H3. }
  eapply frames_ok_ext; [exact Hok'|..]; rewrite Hsh; cbn; try done. intros j. by rewrite Hfr.
Qed.
