(* ===== verification/Vm.v ===== *)
(** * kernel/mm: page tables, page groups and the page cache

    mm.c, the rest of pagegroup.cpp and swap.c, ioremap.c, cache.c of the file
    system, and the page-fault and memory system calls that drive them. A
    [PTE *] is an address of [mem]; flushing the TLB has no effect on this
    state. [pgdir] stands for [current_running->pgdir] where the source reads
    it. *)

From S2P Require Import Prelude Bytes Block SdCard Pgtable Frames.

Definition USER_ATTRS : Z := Z.lor PAGE_USER RWX.
Definition entry_addr (pgdir i : Z) : Z := u64 (pgdir + i * 8).
Definition clear_page (page : Z) : MM unit := modify (fun s => set_mem (clear_pgdir page (mem s)) s).

(** ** mm.c *)
Definition new_top_pgdir (g : nat) : MM Z :=
  pgdir <- alloc_pageframe g 1 ;;
  clear_page pgdir ;;
  upd_group g (fun x => set_refcount (i32 (refcount x + 1)) x) ;;
  ret pgdir.

Definition bind_addr (p addr extra_attrs : Z) : MM unit :=
  e <- get_pte p ;;
  e <- set_attribute (set_pfn e (Z.shiftr addr NORMAL_PAGE_SHIFT)) PAGE_PRESENT ;;
  e <- set_attribute e extra_attrs ;;
  put_pte p e.

Definition bind_page (p page extra_attrs : Z) : MM Z :=
  pa <- kva2pa page ;;
  bind_addr p pa extra_attrs ;;
  id <- pageframe_kva2attr page ;;
  upd_frame id (set_pte p) ;;
  ret page.

Definition add_page (vpn pgdir extra_attrs : Z) : MM Z :=
  group <- find_pagegroup pgdir ;;
  new_page <- alloc_pageframe group 1 ;;
  bind_page (entry_addr pgdir vpn) new_page extra_attrs.

(** One level of the walk of [find_pte]: the next directory, made when it is
    absent and [create]; [NULL] when it is absent and not [create]. *)
Definition walk_level (current_pgdir vpn : Z) (create : bool) : MM Z :=
  e <- get_pte (entry_addr current_pgdir vpn) ;;
  if negb (has e PAGE_PRESENT) && negb create then ret NULL else
  (if has e PAGE_PRESENT then ret tt else new_page <- add_page vpn current_pgdir 0 ;; clear_page new_page) ;;
  e <- get_pte (entry_addr current_pgdir vpn) ;;
  pa2kva (get_pa e).

Definition find_pte (va pgdir : Z) (create : bool) : MM Z :=
  let '(vpn2, vpn1, vpn0) := get_vpn va in
  level1 <- walk_level pgdir vpn2 create ;;
  if level1 =? NULL then ret NULL else
  level0 <- walk_level level1 vpn1 create ;;
  if level0 =? NULL then ret NULL else
  ret (entry_addr level0 vpn0).

(** [find_kernel_pte]: [vpns] are the indices of the levels still to walk. *)
Fixpoint kernel_walk (current : Z) (vpns : list Z) (create : bool) : MM Z :=
  match vpns with
  | [] => panic "fault"
  | [vpn] => ret (entry_addr current vpn)
  | vpn :: vpns =>
      next <- walk_level current vpn create ;;
      if next =? NULL then ret NULL else kernel_walk next vpns create
  end.
Definition find_kernel_pte (va : Z) (create : bool) (num_pgdirs : Z) : MM Z :=
  let '(vpn2, vpn1, vpn0) := get_vpn va in
  kernel_walk PGDIR_VA (take (Z.to_nat num_pgdirs) [vpn2; vpn1; vpn0]) create.

(** swap.c: [swapin] *)
Definition swapin (uva pgdir page : Z) : MM unit :=
  let '(vpn2, vpn1, vpn0) := get_vpn uva in
  entry_level2 <- get_pte (entry_addr pgdir vpn2) ;;
  asserts (has entry_level2 PAGE_PRESENT) "level 2 entry not present" ;;
  level1_pgdir <- pa2kva (get_pa entry_level2) ;;
  entry_level1 <- get_pte (entry_addr level1_pgdir vpn1) ;;
  asserts (has entry_level1 PAGE_PRESENT) "level 1 entry not present" ;;
  level0_pgdir <- pa2kva (get_pa entry_level1) ;;
  let entry_level0 := entry_addr level0_pgdir vpn0 in
  e <- get_pte entry_level0 ;;
  asserts (has e PAGE_SOFT) "level 0 entry not swapped out" ;;
  let swap_location := get_pfn e in
  card_read page swap_location ;;
  e <- get_pte entry_level0 ;;
  put_pte entry_level0 (clear_attribute e PAGE_SOFT) ;;
  bind_page entry_level0 page USER_ATTRS ;;
  find_pagegroup pgdir ;;
  swap_free swap_location.

Definition alloc_page (va pgdir : Z) (exist_ok : bool) : MM Z :=
  p <- find_pte va pgdir true ;;
  e <- get_pte p ;;
  if negb (e =? 0) then
    asserts exist_ok "page already allocated" ;;
    (if has e PAGE_PRESENT then ret tt else
     asserts (has e PAGE_SOFT) "invalid pte state" ;;
     g <- find_pagegroup pgdir ;;
     new_page <- alloc_pageframe g 1 ;;
     swapin va pgdir new_page) ;;
    ret p
  else
    g <- find_pagegroup pgdir ;;
    new_page <- alloc_pageframe g 1 ;;
    bind_page p new_page USER_ATTRS ;;
    id <- pageframe_kva2attr new_page ;;
    upd_frame id (set_uva va) ;;
    ret p.

Definition uva2kva (uva pgdir : Z) : MM Z :=
  p <- alloc_page uva pgdir true ;;
  e <- get_pte p ;;
  base <- pa2kva (get_pa e) ;;
  ret (u64 (base + Z.land uva (PAGE_SIZE - 1))).

(** The bytes left in the page of [kva]. *)
Definition page_room (kva : Z) : Z :=
  Z.shiftl (Z.shiftr kva NORMAL_PAGE_SHIFT + 1) NORMAL_PAGE_SHIFT - kva.
Definition memcpy (dest src n : Z) : MM unit :=
  modify (fun s => set_mem (put_bytes dest (bytes_at (mem s) src n) (mem s)) s).
Definition copy_fuel (size : Z) : nat := S (S (Z.to_nat (size / PAGE_SIZE + 1))).

Fixpoint kva2uva_loop (fuel : nat) (dest_va src size pgdir_dest : Z) : MM unit :=
  match fuel with
  | O => no_fuel
  | S n =>
      if size =? 0 then ret tt else
      dest_kva <- uva2kva dest_va pgdir_dest ;;
      let active := Z.min size (page_room dest_kva) in
      memcpy dest_kva src active ;;
      kva2uva_loop n (u64 (dest_va + active)) (u64 (src + active)) (size - active) pgdir_dest
  end.
Definition memcpy_kva2uva (dest_va src size pgdir_dest : Z) : MM unit :=
  kva2uva_loop (copy_fuel size) dest_va src size pgdir_dest.

Fixpoint uva2kva_loop (fuel : nat) (dest src_va size pgdir_src : Z) : MM unit :=
  match fuel with
  | O => no_fuel
  | S n =>
      if size =? 0 then ret tt else
      src_kva <- uva2kva src_va pgdir_src ;;
      let active := Z.min size (page_room src_kva) in
      memcpy dest src_kva active ;;
      uva2kva_loop n (u64 (dest + active)) (u64 (src_va + active)) (size - active) pgdir_src
  end.
Definition memcpy_uva2kva (dest src_va size pgdir_src : Z) : MM unit :=
  uva2kva_loop (copy_fuel size) dest src_va size pgdir_src.

(** [share_pgtable]: the walk over the entries [l] of one directory, with [rec]
    for the directories below. *)
Fixpoint share_entries (rec : Z → Z → MM unit) (dest src : Z) (l : list Z) : MM unit :=
  match l with
  | [] => ret tt
  | i :: l =>
      src_entry <- get_pte (entry_addr src i) ;;
      (if has src_entry PAGE_PRESENT then
         e <- get_pte (entry_addr dest i) ;;
         asserts (negb (has e PAGE_PRESENT)) "share_pgtable: dest entry already present" ;;
         if has src_entry RWX then put_pte (entry_addr dest i) src_entry
         else
           new_page <- add_page i dest 0 ;;
           clear_page new_page ;;
           below <- pa2kva (get_pa src_entry) ;;
           rec new_page below
       else ret tt) ;;
      share_entries rec dest src l
  end.
Fixpoint share_pgtable (depth : nat) (dest src : Z) : MM unit :=
  match depth with
  | O => no_fuel
  | S n => share_entries (share_pgtable n) dest src (seqZ 0 PTE_ENTRY_NUM)
  end.

(** cache.c: [fs_cache_swap_free], the [on_page_free] of the page cache *)
Definition FS_START_SECTOR : Z := 512 * 1024 * 1024 / SECTOR_SIZE.
Definition fs_cache_swap_free (uva : Z) : MM unit :=
  let sector_id := uva / SECTOR_SIZE in
  if sector_id <? FS_START_SECTOR then ret tt else
  buffer <- gets fs_buffer ;;
  dir <- gets cache_pgdir ;;
  memcpy_uva2kva buffer uva BLOCK_SIZE dir ;;
  card_write buffer sector_id.
Definition on_page_free (g : nat) (va : Z) : MM unit :=
  x <- get_group g ;; if fs_swap (vtable x) then fs_cache_swap_free va else ret tt.

(** [free_pgdir]: the walk over the entries [l] of one directory. *)
Fixpoint free_entries (rec : Z → Z → MM unit) (g : nat) (pgdir va level : Z) (l : list Z) : MM unit :=
  match l with
  | [] => ret tt
  | i :: l =>
      e <- get_pte (entry_addr pgdir i) ;;
      let child_va := Z.lor va (u64 (Z.shiftl i (NORMAL_PAGE_SHIFT + level * PPN_BITS))) in
      (if has e PAGE_PRESENT then
         if has e RWX then
           if has e PAGE_USER then
             on_page_free g child_va ;; page <- pa2kva (get_pa e) ;; free_pageframe page
           else ret tt
         else below <- pa2kva (get_pa e) ;; rec below child_va
       else if has e PAGE_SOFT then swap_free (get_pfn e)
       else ret tt) ;;
      free_entries rec g pgdir va level l
  end.
Fixpoint free_pgdir (depth : nat) (pgdir va level : Z) : MM unit :=
  match depth with
  | O => no_fuel
  | S n =>
      g <- find_pagegroup pgdir ;;
      free_entries (fun below child_va => free_pgdir n below child_va (level - 1)) g pgdir va level
        (seqZ 0 PTE_ENTRY_NUM) ;;
      free_pageframe pgdir
  end.

(** pagegroup.cpp: [free_pagegroup] *)
Definition free_pagegroup (g : nat) : MM unit :=
  x <- get_group g ;;
  asserts (used x =? 0) "group is not empty" ;;
  upd_group 0 (fun k => set_capacity (u64 (capacity k + capacity x)) k).

Definition PGDIR_LEVELS : nat := 3.
Definition free_top_pgdir (pgdir : Z) : MM unit :=
  g <- find_pagegroup pgdir ;;
  free_pgdir PGDIR_LEVELS pgdir 0 2 ;;
  upd_group g (fun x => set_refcount (i32 (refcount x - 1)) x) ;;
  x <- get_group g ;;
  if refcount x =? 0 then free_pagegroup g else ret tt.

Definition cleanup_vm (pgdir kernel_stack_bottom : Z) : MM unit :=
  free_top_pgdir pgdir ;; free_pageframe kernel_stack_bottom.

(** ** pagegroup.cpp *)
Definition init_pagegroup : MM unit :=
  upd_group 0 (fun _ => mk_group [] MAX_PAGE_NUM 0 1 (mk_vtable SecondChance false)).

Definition alloc_pageframe_group : MM (option nat) :=
  l <- gets page_groups ;;
  match list_find (fun x => refcount x = 0) (drop 1 l) with
  | Some (i, _) => ret (Some (S i))
  | None => ret None
  end.

Definition move_frame (page : Z) (g new_group : nat) : MM unit :=
  shrink_pagegroup new_group 1 ;; detach_pageframe page g ;; attach_pageframe page new_group.
Fixpoint migrate_entries (rec : Z → MM unit) (g new_group : nat) (pgdir : Z) (l : list Z) : MM unit :=
  match l with
  | [] => ret tt
  | i :: l =>
      e <- get_pte (entry_addr pgdir i) ;;
      (if has e PAGE_PRESENT then
         page <- pa2kva (get_pa e) ;;
         if has e RWX then if has e PAGE_USER then move_frame page g new_group else ret tt
         else rec page
       else ret tt) ;;
      migrate_entries rec g new_group pgdir l
  end.
Fixpoint migrate (depth : nat) (pgdir : Z) (g new_group : nat) : MM unit :=
  match depth with
  | O => no_fuel
  | S n =>
      move_frame pgdir g new_group ;;
      migrate_entries (fun page => migrate n page g new_group) g new_group pgdir (seqZ 0 PTE_ENTRY_NUM)
  end.

Definition fork_pagegroup (top_pgdir cap : Z) : MM Z :=
  g <- find_pagegroup top_pgdir ;;
  x <- get_group g ;;
  if cap >=? capacity x then ret 1 else
  new_group <- alloc_pageframe_group ;;
  match new_group with
  | None => ret 1
  | Some new_group =>
      upd_group new_group (fun _ => mk_group [] cap 0 1 (vtable x)) ;;
      upd_group g (fun x => set_refcount (i32 (refcount x - 1)) x) ;;
      upd_group g (fun x => set_capacity (capacity x - cap) x) ;;
      shrink_pagegroup g 0 ;;
      migrate PGDIR_LEVELS top_pgdir g new_group ;;
      ret 0
  end.

Definition resize_pagegroup (g : nat) (new_capacity : Z) : MM Z :=
  if (g =? 0)%nat then ret 1 else
  x <- get_group g ;;
  if new_capacity >? capacity x then
    let diff := new_capacity - capacity x in
    k <- get_group 0 ;;
    if capacity k <? diff then ret 1 else
    upd_group 0 (fun k => set_capacity (capacity k - diff) k) ;;
    shrink_pagegroup 0 0 ;;
    upd_group g (fun x => set_capacity (u64 (capacity x + diff)) x) ;;
    ret 0
  else if new_capacity <? capacity x then
    let diff := capacity x - new_capacity in
    upd_group 0 (fun k => set_capacity (u64 (capacity k + diff)) k) ;;
    upd_group g (fun x => set_capacity (capacity x - diff) x) ;;
    shrink_pagegroup g 0 ;;
    ret 0
  else ret 0.

Definition sys_set_max_memory (pgdir max_mem : Z) : MM Z :=
  g <- find_pagegroup pgdir ;;
  if (g =? 0)%nat then fork_pagegroup pgdir (max_mem / PAGE_SIZE)
  else resize_pagegroup g (max_mem / PAGE_SIZE).

(** ** pf_evict.cpp: what the handlers call *)
Definition fifo_on_access (page : Z) : MM unit :=
  id <- pageframe_kva2attr page ;;
  f <- get_frame id ;;
  e <- get_pte (pte f) ;;
  e <- set_attribute e PAGE_ACCESSED ;;
  put_pte (pte f) e.
Definition fifo_on_write (page : Z) : MM unit :=
  id <- pageframe_kva2attr page ;;
  f <- get_frame id ;;
  e <- get_pte (pte f) ;;
  e <- set_attribute e (Z.lor PAGE_DIRTY PAGE_ACCESSED) ;;
  put_pte (pte f) e.
Definition stamp (id tick : Z) : MM unit :=
  asserts (frame_index id) "fault" ;;
  modify (fun s => set_last_accessed (<[id := tick]> (last_accessed s)) s).
Definition on_access (g : nat) (page tick : Z) : MM unit :=
  x <- get_group g ;;
  fifo_on_access page ;;
  match algo (vtable x) with Lru => stamp (pageframe_kva2id page) tick | _ => ret tt end.
Definition on_write (g : nat) (page tick : Z) : MM unit :=
  x <- get_group g ;;
  fifo_on_write page ;;
  match algo (vtable x) with Lru => stamp (pageframe_kva2id page) tick | _ => ret tt end.

Fixpoint lru_timer_loop (g : nat) (tick : Z) (l : list Z) : MM unit :=
  match l with
  | [] => ret tt
  | id :: l =>
      leaf <- is_leaf id ;;
      f <- get_frame id ;;
      e <- (if (leaf : bool) then get_pte (pte f) else ret 0) ;;
      (if leaf && negb (has e PAGE_ACCESSED) then ret tt else
       stamp id tick ;; list_delete id ;; list_prepend g id ;;
       if (leaf : bool) then put_pte (pte f) (clear_attribute e PAGE_ACCESSED) else ret tt) ;;
      lru_timer_loop g tick l
  end.
Definition on_timer (g : nat) (tick : Z) : MM unit :=
  x <- get_group g ;;
  match algo (vtable x) with Lru => lru_timer_loop g tick (pages x) | _ => ret tt end.

Fixpoint lru_init_loop (l : list Z) : MM unit :=
  match l with [] => ret tt | id :: l => stamp id 0 ;; lru_init_loop l end.
(** [sys_set_page_repl_algo]; no table has a [cleanup]. *)
Definition sys_set_page_repl_algo (pgdir : Z) (name : string) : MM Z :=
  g <- find_pagegroup pgdir ;;
  let new_vtable :=
    if decide (name = "lru"%string) then Some Lru
    else if decide (name = "fifo"%string) then Some Fifo
    else if decide (name = "sc"%string) then Some SecondChance else None in
  match new_vtable with
  | None => ret 1
  | Some v =>
      upd_group g (set_vtable (mk_vtable v false)) ;;
      (match v with Lru => x <- get_group g ;; lru_init_loop (pages x) | _ => ret tt end) ;;
      ret 0
  end.

(** irq.c: [handle_exc_pagefault]; [loads] tells a load or fetch from a store. *)
Definition handle_exc_pagefault (pgdir stval tick : Z) (loads : bool) : MM unit :=
  p <- find_pte stval pgdir false ;;
  if p =? NULL then alloc_page stval pgdir false ;; ret tt else
  e <- get_pte p ;;
  if has e PAGE_PRESENT then
    g <- find_pagegroup pgdir ;;
    if loads then on_access g stval tick else on_write g stval tick
  else if has e PAGE_SOFT then
    g <- find_pagegroup pgdir ;;
    new_page <- alloc_pageframe g 1 ;;
    swapin stval pgdir new_page
  else alloc_page stval pgdir false ;; ret tt.

(** ** cache.c: the page cache of the file system *)
Definition cache_swapin (start_sector : Z) (load : bool) : MM Z :=
  let va := u64 (start_sector * SECTOR_SIZE) in
  dir <- gets cache_pgdir ;;
  p <- find_pte va dir true ;;
  e <- get_pte p ;;
  g <- gets fs_cache_group ;;
  if negb (e =? 0) then
    (if has e PAGE_PRESENT then ret tt else
     asserts (has e PAGE_SOFT) "invalid pte state" ;;
     page <- alloc_pageframe g (BLOCK_SIZE / PAGE_SIZE) ;;
     swapin va dir page) ;;
    ret va
  else
    page <- alloc_pageframe g (BLOCK_SIZE / PAGE_SIZE) ;;
    id <- pageframe_kva2attr page ;;
    upd_frame id (set_uva va) ;;
    (if load then card_read page start_sector else ret tt) ;;
    bind_page p page (Z.lor PAGE_USER (Z.lor PAGE_READ PAGE_WRITE)) ;;
    ret va.

Definition FS_CACHE_SIZE : Z := 8 * 1024.
(** [create_fs_pgdir] for the running process whose directory is [pgdir]; [alg]
    is the algorithm [init_fs_cache] copied into [fs_swap_vtable]. *)
Definition create_fs_pgdir (pgdir : Z) (alg : algorithm) : MM Z :=
  g <- find_pagegroup pgdir ;;
  dir <- new_top_pgdir g ;;
  fork_pagegroup dir FS_CACHE_SIZE ;;
  fs_group <- find_pagegroup dir ;;
  modify (fun s => set_cache (cache_pgdir s) fs_group s) ;;
  upd_group fs_group (set_vtable (mk_vtable alg true)) ;;
  ret dir.
Definition flush_fs_cache (pgdir : Z) (alg : algorithm) : MM unit :=
  dir <- gets cache_pgdir ;;
  free_top_pgdir dir ;;
  dir <- create_fs_pgdir pgdir alg ;;
  modify (fun s => set_cache dir (fs_cache_group s) s).

(** Under [POLICY_WRITE_BACK]; under [POLICY_WRITE_THROUGH] they are the calls
    of SdCard.v. *)
Definition cached_block_read (dest start_sector : Z) : MM unit :=
  uva <- cache_swapin start_sector true ;;
  dir <- gets cache_pgdir ;;
  memcpy_uva2kva dest uva BLOCK_SIZE dir.
Definition cached_block_write (src start_sector : Z) : MM unit :=
  uva <- cache_swapin start_sector false ;;
  dir <- gets cache_pgdir ;;
  memcpy_kva2uva uva src BLOCK_SIZE dir.

(** ** ioremap.c *)
(** The [while (page_size * scale < size)] loop. *)
Fixpoint io_level (fuel : nat) (page_size num_pgdirs size : Z) : MM (Z * Z) :=
  match fuel with
  | O => no_fuel
  | S n =>
      if u64 (page_size * Z.shiftl 1 PPN_BITS) <? size
      then io_level n (u64 (page_size * Z.shiftl 1 PPN_BITS)) (num_pgdirs - 1) size
      else ret (page_size, num_pgdirs)
  end.
Fixpoint io_loop (fuel : nat) (addr phys_addr i aligned_size page_size num_pgdirs : Z) : MM unit :=
  match fuel with
  | O => no_fuel
  | S n =>
      if i <? aligned_size then
        p <- find_kernel_pte (u64 (addr + i)) true num_pgdirs ;;
        asserts (negb (p =? NULL)) "invalid pagetable entry" ;;
        e <- get_pte p ;;
        asserts (negb (has e PAGE_PRESENT)) "mapping existed" ;;
        bind_addr p (u64 (phys_addr + i))
          (Z.lor (Z.lor PAGE_READ PAGE_WRITE) (Z.lor PAGE_DIRTY PAGE_ACCESSED)) ;;
        io_loop n addr phys_addr (u32 (i + page_size)) aligned_size page_size num_pgdirs
      else ret tt
  end.
Definition ioremap (phys_addr size : Z) : MM Z :=
  let* (page_size, num_pgdirs) := io_level 8 PAGE_SIZE 3 size in
  let aligned_addr := ROUNDDOWN phys_addr page_size in
  let aligned_size := ROUND (u64 (phys_addr + size - aligned_addr)) page_size in
  addr <- gets io_base ;;
  modify (set_io_base (u64 (addr + aligned_size))) ;;
  io_loop (S (Z.to_nat (aligned_size / page_size))) addr phys_addr 0 aligned_size page_size num_pgdirs ;;
  ret addr.
