(* ===== verification/SwapProofs.v ===== *)
(** * Swap slots, [swapout] and [swapin] of kernel/mm/swap.c *)

From S2P Require Import Prelude Bytes Block SdCard Pgtable PgtableProofs Frames FrameProofs FrameAlloc EvictProofs Vm.

(** ** Swap slots *)
Definition swap_slot (i : Z) : Prop := 0 ≤ i < NUM_MAX_SWAP.
Definition slots_used (u : Z → bool) : list Z := filter (fun i => u i = true) (seqZ 0 NUM_MAX_SWAP).
Record swap_ok (s : mm) : Prop := {
  so_next : swap_slot (swap_next_idx s);
  so_used : swap_used s = Z.of_nat (length (slots_used (swap_using s)));
  so_base : 0 ≤ swap_base_location s ∧ swap_base_location s + NUM_MAX_SWAP * SWAP_LEN < 2 ^ 31;
}.

Lemma swap_consts : NUM_MAX_SWAP = 16384 ∧ SWAP_LEN = 8.
Proof. done. Qed.
Ltac ssolve :=
  unfold swap_slot in *; destruct swap_consts as (ES & EL); rewrite ?ES, ?EL in *; lia.

Lemma slots_bound u : (length (slots_used u) ≤ Z.to_nat NUM_MAX_SWAP)%nat.
Proof. unfold slots_used. rewrite (length_filter _ (seqZ 0 NUM_MAX_SWAP)), length_seqZ. lia. Qed.

(** Setting and clearing one slot. *)
Lemma slots_insert u i : swap_slot i → u i = false → length (slots_used (<[i := true]> u)) = S (length (slots_used u)).
Proof.
  intros Hi Hu. unfold slots_used. assert (i ∈ seqZ 0 NUM_MAX_SWAP) as Hin by (apply elem_of_seqZ; ssolve).
  pose proof (NoDup_seqZ 0 NUM_MAX_SWAP) as Hnd. apply list_elem_of_split in Hin as (l1 & l2 & E). rewrite E in *.
  apply NoDup_mid in Hnd as (H1 & H2 & _). rewrite !filter_app, !filter_cons, fn_lookup_insert, Hu.
  rewrite decide_True, decide_False by done. rewrite !length_app. cbn [length].
  rewrite !(filter_ge (fun j => <[i := true]> u j = true) (fun j => u j = true)); [lia|..];
    intros j Hj; by rewrite fn_lookup_insert_ne by (intros ->; done).
Qed.

Lemma slots_delete u i : swap_slot i → u i = true → S (length (slots_used (<[i := false]> u))) = length (slots_used u).
Proof.
  intros Hi Hu. unfold slots_used. assert (i ∈ seqZ 0 NUM_MAX_SWAP) as Hin by (apply elem_of_seqZ; ssolve).
  pose proof (NoDup_seqZ 0 NUM_MAX_SWAP) as Hnd. apply list_elem_of_split in Hin as (l1 & l2 & E). rewrite E in *.
  apply NoDup_mid in Hnd as (H1 & H2 & _). rewrite !filter_app, !filter_cons, fn_lookup_insert, Hu.
  rewrite decide_False, decide_True by done. rewrite !length_app. cbn [length].
  rewrite !(filter_ge (fun j => <[i := false]> u j = true) (fun j => u j = true)); [lia|..];
    intros j Hj; by rewrite fn_lookup_insert_ne by (intros ->; done).
Qed.

(** The scan stops at a free slot, if there is one within its turns. *)
Lemma swap_scan_run (k : nat) s i :
  swap_slot (swap_next_idx s) → swap_slot i → swap_using s i = false →
  (i - swap_next_idx s) mod NUM_MAX_SWAP < Z.of_nat k →
  ∃ j, swap_scan k s = Ok (tt, set_swap (swap_using s) (swap_used s) j s) ∧ swap_slot j ∧ swap_using s j = false.
Proof.
  revert s. induction k as [|k IH]; intros s Hn Hi Hu Hd.
  { pose proof (Z.mod_pos_bound (i - swap_next_idx s) NUM_MAX_SWAP ltac:(done)). lia. }
  cbn [swap_scan]. rewrite (bind_Ok _ _ s s s) by reflexivity.
  destruct (swap_using s (swap_next_idx s)) eqn:E.
  - set (j := (swap_next_idx s + 1) mod NUM_MAX_SWAP). set (s1 := set_swap (swap_using s) (swap_used s) j s).
    rewrite (bind_Ok _ _ s tt s1) by reflexivity.
    destruct (IH s1) as (j' & Hs & Hj & Hf); [by apply Z.mod_pos_bound|done|done| |].
    + cbn. assert (i ≠ swap_next_idx s) by congruence. unfold j.
      destruct swap_consts as (ES & _). unfold swap_slot in *. rewrite ES in *.
      destruct (decide (swap_next_idx s + 1 = 16384)) as [E1|E1];
        [rewrite E1 in *; rewrite Z.mod_same in * by done|rewrite (Z.mod_small (_ + 1)) by lia].
      * rewrite Z.sub_0_r, (Z.mod_small i) by lia. rewrite <- (Z.mod_add _ 1), Z.mod_small in Hd by lia. lia.
      * destruct (decide (swap_next_idx s < i)).
        -- rewrite Z.mod_small in Hd |- * by lia. lia.
        -- rewrite <- (Z.mod_add _ 1), Z.mod_small in Hd by lia. rewrite <- (Z.mod_add _ 1), Z.mod_small by lia. lia.
    + exists j'. by rewrite Hs.
  - exists (swap_next_idx s). split_and!; [|done|done]. unfold ret. do 2 f_equal. by destruct s.
Qed.

Lemma slot_free_or_full (u : Z → bool) (l : list Z) : (∃ i, i ∈ l ∧ u i = false) ∨ ∀ i, i ∈ l → u i = true.
Proof.
  induction l as [|i l [(j & Hj & E)|IH]]; [right; set_solver|left; set_solver|].
  destruct (u i) eqn:E; [right; set_solver|left; set_solver].
Qed.

Lemma all_used (u : Z → bool) : (∀ i, i ∈ seqZ 0 NUM_MAX_SWAP → u i = true) → Z.of_nat (length (slots_used u)) = NUM_MAX_SWAP.
Proof.
  intros Hall. unfold slots_used. assert (0 ≤ NUM_MAX_SWAP) as Hn by done. revert Hall Hn.
  generalize NUM_MAX_SWAP. intros n Hall Hn. by rewrite filter_all, length_seqZ, Z2Nat.id.
Qed.

Lemma swap_room s : swap_ok s → swap_used s < NUM_MAX_SWAP → ∃ i, swap_slot i ∧ swap_using s i = false.
Proof.
  intros [_ Hu _] Hlt. destruct (slot_free_or_full (swap_using s) (seqZ 0 NUM_MAX_SWAP)) as [(i & Hi & E)|Hall].
  - exists i. split; [|done]. apply elem_of_seqZ in Hi. ssolve.
  - exfalso. pose proof (all_used _ Hall) as Ea. rewrite Hu, Ea in Hlt. by apply Z.lt_irrefl in Hlt.
Qed.

Definition grab (i : Z) (s : mm) : mm :=
  set_swap (<[i := true]> (swap_using s)) (swap_used s + 1) i s.

Lemma alloc_swap_run s :
  swap_ok s → swap_used s < NUM_MAX_SWAP →
  ∃ i, swap_slot i ∧ swap_using s i = false ∧ alloc_swap s = Ok (i, grab i s) ∧ swap_ok (grab i s).
Proof.
  intros Hok Hlt. destruct (swap_room s Hok Hlt) as (i0 & Hi0 & Hf0). pose proof Hok as [Hn Hu Hb].
  destruct (swap_scan_run swap_fuel s i0 Hn Hi0 Hf0) as (i & Hs & Hi & Hf).
  { pose proof (Z.mod_pos_bound (i0 - swap_next_idx s) NUM_MAX_SWAP ltac:(done)). unfold swap_fuel. lia. }
  exists i. split_and!; [done|done| |split; cbn; [done| |done]].
  - unfold alloc_swap. rewrite (bind_Ok _ _ s _ s) by reflexivity. rewrite (proj2 (Z.ltb_lt _ _) Hlt). cbn [asserts].
    rewrite (bind_Ok _ _ s tt s) by reflexivity. rewrite (bind_Ok _ _ _ _ _ Hs). set (s1 := set_swap _ _ _ s).
    rewrite (bind_Ok _ _ s1 i s1) by reflexivity. unfold bind, modify, ret. do 2 f_equal.
    unfold grab. cbn. rewrite u64_small; [done|]. pose proof (slots_bound (swap_using s)). ssolve.
  - rewrite slots_insert by done. lia.
Qed.

(** Freeing the slot of a location. *)
Lemma swap_free_run s i :
  swap_ok s → swap_slot i → swap_using s i = true →
  ∃ s', swap_free (swap_base_location s + i * SWAP_LEN) s = Ok (tt, s') ∧
    s' = set_swap (<[i := false]> (swap_using s)) (swap_used s - 1) (swap_next_idx s) s ∧ swap_ok s'.
Proof.
  intros [Hn Hu Hb] Hi Hf. eexists. split; [|split; [reflexivity|split; cbn; [done| |done]]].
  - unfold swap_free, regular_swap_free. rewrite (bind_Ok _ _ s _ s) by reflexivity.
    assert (u64 (swap_base_location s + i * SWAP_LEN - swap_base_location s) / SWAP_LEN = i) as ->.
    { rewrite u64_small by ssolve.
      replace (swap_base_location s + i * SWAP_LEN - swap_base_location s) with (i * SWAP_LEN) by lia.
      by apply Z.div_mul. }
    unfold free_swap. rewrite (proj2 (Z.leb_le _ _)), (proj2 (Z.ltb_lt _ _)) by ssolve. cbn [andb asserts].
    unfold bind, ret, modify. do 3 f_equal. apply u64_small.
    pose proof (slots_delete _ _ Hi Hf). pose proof (slots_bound (swap_using s)). ssolve.
  - pose proof (slots_delete _ _ Hi Hf). lia.
Qed.

(** ** swapout *)

(** The entries that map the frames of the group are in no leaf page of it. *)
Definition tables_apart (s : mm) (x : pageframe_group_t) : Prop :=
  ∀ i v, i ∈ pages x → v ∈ pages x → pte (frames s i) ≠ NULL → leaf s v →
    pte (frames s i) + 8 ≤ kva_of v ∨ kva_of v + PAGE_SIZE ≤ pte (frames s i).

(** An entry whose page is on the card at [loc]. *)
Definition swapped_entry (e loc : Z) : Z := entry loc (Z.lor (Z.ldiff (e mod 1024) PAGE_PRESENT) PAGE_SOFT).

Lemma low_bits e : 0 ≤ e mod 1024 < 1024.
Proof. by apply Z.mod_pos_bound. Qed.

Lemma ldiff_low a b : 0 ≤ a < 1024 → 0 ≤ Z.ldiff a b < 1024.
Proof. intros Ha. rewrite Z.ldiff_land. by apply (land_range _ _ 10). Qed.

Lemma lor_low a b : 0 ≤ a < 1024 → 0 ≤ b < 1024 → 0 ≤ Z.lor a b < 1024.
Proof. by apply (lor_range _ _ 10). Qed.

Lemma entry_div e : 0 ≤ e < 2 ^ 64 → 0 ≤ e / 1024 < 2 ^ 54.
Proof. intros He. split; [apply Z.div_pos; lia|apply Z.div_lt_upper_bound; lia]. Qed.

Lemma swapped_low e : 0 ≤ Z.lor (Z.ldiff (e mod 1024) PAGE_PRESENT) PAGE_SOFT < 1024.
Proof. apply lor_low; [apply ldiff_low, low_bits|done]. Qed.

Lemma swapped_facts e loc :
  get_pfn (swapped_entry e loc) = loc ∧ has (swapped_entry e loc) PAGE_SOFT = true ∧
  has (swapped_entry e loc) PAGE_PRESENT = false.
Proof.
  pose proof (swapped_low e) as Hl. unfold swapped_entry. rewrite get_pfn_entry, !has_entry by done. split_and!; [done|..].
  - unfold has, get_attribute. apply negb_true_iff, Z.eqb_neq. intros E. apply (f_equal (fun z => Z.testbit z 8)) in E.
    rewrite Z.land_spec, Z.lor_spec in E. change (Z.testbit PAGE_SOFT 8) with true in E. by rewrite orb_true_r in E.
  - unfold has, get_attribute. apply negb_false_iff, Z.eqb_eq. apply Z.bits_inj'. intros i Hi.
    rewrite Z.land_spec, Z.lor_spec, Z.ldiff_spec, Z.bits_0. destruct (decide (i = 0)) as [->|Hne].
    + change (Z.testbit PAGE_PRESENT 0) with true. change (Z.testbit PAGE_SOFT 0) with false. by rewrite andb_false_r.
    + by rewrite (testbit_small PAGE_PRESENT 1), andb_false_r by (done || lia).
Qed.

(** The three updates of an entry that is swapped out. *)
Lemma swap_entry_run {S} (s : S) e loc :
  0 ≤ e < 2 ^ 64 → 0 ≤ loc < 2 ^ 54 →
  ∃ e', set_attribute (clear_attribute e PAGE_PRESENT) PAGE_SOFT s = Ok (e', s) ∧ set_pfn e' loc = swapped_entry e loc.
Proof.
  intros He Hloc. pose proof (low_bits e) as Hl. pose proof (entry_div e He) as Hd.
  exists (entry (e / 1024) (Z.lor (Z.ldiff (e mod 1024) PAGE_PRESENT) PAGE_SOFT)). split.
  - assert (clear_attribute e PAGE_PRESENT = entry (e / 1024) (Z.ldiff (e mod 1024) PAGE_PRESENT)) as ->
      by (rewrite <- clear_attribute_entry by done; by rewrite <- entry_split).
    apply set_attribute_entry; [by apply ldiff_low|done].
  - by rewrite set_pfn_entry by (done || apply swapped_low).
Qed.

Lemma card_write_run s id loc :
  frame_id id → 0 ≤ loc < 2 ^ 32 →
  card_write (kva_of id) loc s =
    Ok (tt, set_card (bios_sd_write SWAP_LEN loc (bytes_at (mem s) (kva_of id) PAGE_SIZE) (card s)) s).
Proof.
  intros Hid Hloc. unfold card_write.
  rewrite (bind_Ok _ _ _ _ _ (kva2pa_run s _ (kva_of_kernel _ Hid))). unfold modify.
  unfold u32, wrap. by rewrite Z.mod_small.
Qed.

Lemma card_read_run s id loc :
  frame_id id → 0 ≤ loc < 2 ^ 32 →
  card_read (kva_of id) loc s =
    Ok (tt, set_mem (put_bytes (kva_of id) (bios_sd_read SWAP_LEN loc (card s)) (mem s)) s).
Proof.
  intros Hid Hloc. unfold card_read.
  rewrite (bind_Ok _ _ _ _ _ (kva2pa_run s _ (kva_of_kernel _ Hid))). unfold modify.
  unfold u32, wrap. by rewrite Z.mod_small.
Qed.

Lemma sd_write_range n k v d a :
  (∀ c, c ∈ v → 0 ≤ c < 256) → (∀ a, 0 ≤ d a < 256) → 0 ≤ bios_sd_write n k v d a < 256.
Proof.
  intros Hv Hd. unfold bios_sd_write. case_match; [|done].
  destruct (v !! _) as [c|] eqn:E; cbn; [|done]. by apply Hv, (list_elem_of_lookup_2 _ _ _ E).
Qed.

(** What [swapout] leaves: the page of [v] is on the card in slot [i], the entry
    that mapped it says so, and the block of [v] is free. *)
Record swapped (s s' : mm) (g : nat) (x : pageframe_group_t) (v i : Z) (C : list Z) : Prop := {
  sw_victim : v ∈ pages x ∧ leaf s v;
  sw_slot : swap_slot i ∧ swap_using s i = false;
  sw_swap : swap_using s' = <[i := true]> (swap_using s) ∧ swap_base_location s' = swap_base_location s;
  sw_card : bios_sd_read SWAP_LEN (swap_base_location s + i * SWAP_LEN) (card s') = bytes_at (mem s) (kva_of v) PAGE_SIZE;
  sw_entry : ∃ e, load64 (mem s') (pte (frames s v)) = swapped_entry e (swap_base_location s + i * SWAP_LEN);
  sw_others w : w ∈ pages x → w ≠ v → pte (frames s w) ≠ NULL → load64 (mem s') (pte (frames s w)) =
    if decide (w ∈ C) then clear_attribute (entry_of s w) PAGE_ACCESSED else entry_of s w;
  sw_mem a : (∀ w, w ∈ v :: C → a < pte (frames s w) ∨ pte (frames s w) + 8 ≤ a) → mem s' a = mem s a;
  sw_bytes : (∀ a, 0 ≤ mem s' a < 256) ∧ ((∀ a, 0 ≤ card s a < 256) → ∀ a, 0 ≤ card s' a < 256);
  sw_cur : cur_kernel_mem s' = cur_kernel_mem s;
  sw_free : attrs s' v = 0;
  sw_frames : frames_ok s';
  sw_swap_ok : swap_ok s';
  sw_group : ∃ x', page_groups s' !! g = Some x' ∧ used x' < used x ∧ capacity x' = capacity x ∧ 0 ≤ used x';
}.

Lemma swapout_run s g x :
  frames_ok s → swap_ok s → group_ok s g x → tables_apart s x → fs_swap (vtable x) = false →
  (∃ v, v ∈ pages x ∧ leaf s v) → swap_used s < NUM_MAX_SWAP →
  ∃ v i C s', swapout g s = Ok (kva_of v, s') ∧ swapped s s' g x v i C.
Proof.
  intros Hok Hsw Hgo Hap Hfs Hex Hroom.
  destruct (victim_run s g x Hgo Hex) as (v & s1 & C & Hs1 & [(l & Ht & Hp) Hl Hc]).
  pose proof (turned_group _ _ _ _ _ _ Hgo Ht Hp) as Hgo1. pose proof Ht as [Hsh Hfr Hen Hout Hby].
  assert (v ∈ pages x) as Hv by (rewrite <- Hp; set_solver).
  destruct (go_frame _ _ _ Hgo v Hv) as [Hfv Hcv].
  pose proof (turned_frames _ _ _ _ _ _ Hok (go_group _ _ _ Hgo) Ht Hp) as Hok1.
  assert (swap_ok s1) as Hsw1 by (rewrite Hsh; by destruct Hsw; split).
  assert (swap_used s1 < NUM_MAX_SWAP) as Hroom1 by (by rewrite Hsh).
  destruct (alloc_swap_run s1 Hsw1 Hroom1) as (i & Hi & Hfree & Hs2 & Hsw2).
  set (loc := swap_base_location s + i * SWAP_LEN).
  pose proof (so_base _ Hsw) as Hbase. assert (0 ≤ loc < 2 ^ 31) as Hloc by (unfold loc; ssolve).
  pose proof (proj1 Hl) as Hpv. set (s2 := grab i s1) in *. set (p := pte (frames s v)) in *.
  unfold swapout. rewrite (bind_Ok _ _ _ _ _ Hs1), (bind_Ok _ _ _ _ _ (get_frame_run s1 v Hfv)).
  rewrite Hfr, id2addr_of by done. rewrite (bind_Ok _ _ s1 loc s2).
  2:{ unfold swap_alloc. rewrite (bind_Ok _ _ _ _ _ (get_group_run _ _ _ (go_group _ _ _ Hgo1))). cbn. rewrite Hfs.
      unfold regular_swap_location. rewrite (bind_Ok _ _ _ _ _ Hs2). unfold gets. do 2 f_equal. unfold loc.
      cbn. rewrite Hsh. cbn. rewrite u64_small by ssolve. lia. }
  rewrite (bind_Ok _ _ _ _ _ (card_write_run s2 v loc Hfv ltac:(lia))). set (s3 := set_card _ s2).
  rewrite (bind_Ok _ _ _ _ _ (get_pte_run s3 p Hpv)). set (e := load64 (mem s3) p).
  destruct (swap_entry_run s3 e loc) as (e' & He' & Hpe); [by apply load_range|lia|].
  rewrite (bind_Ok _ _ _ _ _ He'), (bind_Ok _ _ _ _ _ (put_pte_run s3 p _ Hpv)), Hpe. set (s4 := set_mem _ s3).
  unfold pageframe_destruct. rewrite <- bind_assoc, (bind_Ok _ _ _ _ _ (upd_frame_run s4 v _ Hfv)). set (s5 := set_frames _ s4).
  assert (frames_ok s5) as Hok5.
  { eapply frames_ok_ext; [exact Hok1|..]; cbn; try done. intros j. unfold s5. cbn. destruct (decide (j = v)) as [->|];
      [by rewrite fn_lookup_insert|by rewrite fn_lookup_insert_ne]. }
  assert (attrs s5 v ≠ 0) as Ha5.
  { intros E. apply (fo_start _ Hok5 v Hfv) in E. unfold s5 in E. cbn in E. rewrite fn_lookup_insert in E. cbn in E.
    rewrite Hfr in E. congruence. }
  destruct (block_of s5 v Hok5 Hfv Ha5) as (g' & b & n & Hbl & Hw & Hg').
  assert (g' = g) as ->.
  { destruct (bl_frames _ _ _ _ Hbl v Hw) as [_ E]. unfold s5 in E. cbn in E. rewrite fn_lookup_insert in E. cbn in E.
    rewrite Hfr in E. congruence. }
  destruct (free_pageframe_run s5 g b n v 0 Hok5 Hbl Hw ltac:(done)) as (s6 & Hs6 & Hrel). rewrite Z.add_0_r in Hs6.
  rewrite (bind_Ok _ _ _ _ _ Hs6). exists v, i, C, s6. split; [done|].
  pose proof (released_ok _ _ _ _ _ Hok5 Hbl Hrel) as Hok6. pose proof Hrel as [Hsh6 Hat6 _ Hgr6].
  assert (mem s6 = store64 p (swapped_entry e loc) (mem s1)) as Hm6 by (by rewrite Hsh6).
  assert (0 ≤ swapped_entry e loc < 2 ^ 64) as Her by (apply entry_range; [apply swapped_low|lia]).
  split.
  - done.
  - split; [done|]. rewrite Hsh in Hfree. done.
  - rewrite Hsh6. cbn. by rewrite Hsh.
  - rewrite Hsh6. cbn [card set_groups set_frames set_attrs]. fold loc.
    transitivity (bios_sd_read SWAP_LEN loc (bios_sd_write SWAP_LEN loc (bytes_at (mem s1) (kva_of v) PAGE_SIZE) (card s1))); [done|].
    rewrite sd_read_write by (by rewrite bytes_at_length). apply bytes_at_ext. intros a Ha. apply Hout. intros c Hcc.
    destruct (Hc c Hcc) as (Hcx & Hcl & _). pose proof (Hap c v Hcx Hv (proj1 Hcl) Hl). lia.
  - exists e. rewrite Hm6. by apply load_store.
  - intros w Hwx Hne Hpw. rewrite Hm6, load_store_apart by (apply (go_apart _ _ _ Hgo); [done|done|congruence|done|done]).
    rewrite <- (Hen w Hwx Hpw). unfold entry_of. by rewrite Hfr.
  - intros a Ha. rewrite Hm6. unfold store64. rewrite put_bytes_out.
    + apply Hout. intros c Hcc. apply Ha. by right.
    + rewrite le_length. apply (Ha v). left.
  - split; [rewrite Hm6; by apply store_range|]. intros Hcb a.
    assert (card s6 = bios_sd_write SWAP_LEN loc (bytes_at (mem s1) (kva_of v) PAGE_SIZE) (card s)) as ->
      by (rewrite Hsh6; cbn; by rewrite Hsh).
    apply sd_write_range; [|done]. intros c (j & -> & _)%list_elem_of_fmap. apply Hby.
  - rewrite Hsh6. cbn. by rewrite Hsh.
  - rewrite Hat6. by rewrite decide_True.
  - done.
  - destruct Hsw2 as [A B D]. rewrite Hsh6. by split.
  - pose proof (bl_range _ _ _ _ Hbl) as Hbr. pose proof (fo_pages _ Hok g x (go_group _ _ _ Hgo)) as [_ Hu].
    assert (page_groups s5 !! g = Some (set_pages (l ++ [v]) x)) as Hx5 by (apply (go_group _ _ _ Hgo1)).
    specialize (Hgr6 _ Hx5). cbn in Hgr6. eexists. split_and!.
    + rewrite Hgr6. apply list_lookup_insert_eq. by eapply lookup_lt_Some.
    + cbn. lia.
    + done.
    + cbn. pose proof (block_used _ _ _ _ _ Hok5 Hbl Hx5) as Hn. cbn in Hn.
      pose proof (length_filter_split (within b n) (l ++ [v])). rewrite <- Hp in Hu. lia.
Qed.

(** ** Binding a frame to an entry *)
Definition frame_pfn (id : Z) : Z := (kva_of id - KERNEL_ADDR_TAG) / 4096.
Definition bound_entry (e id attrs : Z) : Z := entry (frame_pfn id) (Z.lor (Z.lor (e mod 1024) PAGE_PRESENT) attrs).

Lemma frame_pfn_range id : frame_id id → 0 ≤ frame_pfn id < 2 ^ 20 ∧ KERNEL_ADDR_TAG + frame_pfn id * 4096 = kva_of id.
Proof.
  intros Hid. unfold frame_pfn. assert (kva_of id - KERNEL_ADDR_TAG = (0x52002 + id) * 4096) as E
    by (unfold KERNEL_ADDR_TAG; fsolve).
  rewrite E, Z.div_mul by done. split; [fsolve|]. unfold KERNEL_ADDR_TAG. fsolve.
Qed.

Lemma bound_low e attrs : 0 ≤ attrs < 1024 → 0 ≤ Z.lor (Z.lor (e mod 1024) PAGE_PRESENT) attrs < 1024.
Proof. intros Ha. apply lor_low; [apply lor_low; [apply low_bits|done]|done]. Qed.

Lemma bound_range e id attrs : frame_id id → 0 ≤ attrs < 1024 → 0 ≤ bound_entry e id attrs < 2 ^ 64.
Proof.
  intros Hid Ha. destruct (frame_pfn_range id Hid) as [Hp _]. apply entry_range; [by apply bound_low|].
  split; [lia|]. etransitivity; [apply Hp|]. by compute.
Qed.

(** The frame an entry was bound to is the one a walk reaches. *)
Lemma bound_walk {S} (s : S) e id attrs :
  frame_id id → 0 ≤ attrs < 1024 → pa2kva (get_pa (bound_entry e id attrs)) s = Ok (kva_of id, s).
Proof.
  intros Hid Ha. destruct (frame_pfn_range id Hid) as [Hp E]. unfold bound_entry.
  rewrite get_pa_entry by (first [by apply bound_low | lia]). rewrite pa2kva_run.
  - by rewrite E.
  - pose proof (kva_of_kernel id Hid) as Hk. unfold kernel_page in Hk. lia.
Qed.

Lemma bound_present e id attrs : 0 ≤ attrs < 1024 → has (bound_entry e id attrs) PAGE_PRESENT = true.
Proof.
  intros Ha. unfold bound_entry. rewrite has_entry by (first [by apply bound_low | done]). unfold has, get_attribute.
  apply negb_true_iff, Z.eqb_neq. intros E. apply (f_equal (fun z => Z.testbit z 0)) in E.
  rewrite Z.land_spec, !Z.lor_spec in E. change (Z.testbit PAGE_PRESENT 0) with true in E. by rewrite orb_true_r in E.
Qed.

Lemma bind_page_run s p id attrs :
  p ≠ NULL → frame_id id → 0 ≤ attrs < 1024 → (∀ a, 0 ≤ mem s a < 256) →
  bind_page p (kva_of id) attrs s = Ok (kva_of id,
    set_frames (<[id := set_pte p (frames s id)]> (frames s))
      (set_mem (store64 p (bound_entry (load64 (mem s) p) id attrs) (mem s)) s)).
Proof.
  intros Hp Hid Ha Hb. unfold bind_page. rewrite (bind_Ok _ _ _ _ _ (kva2pa_run s _ (kva_of_kernel _ Hid))).
  set (e := load64 (mem s) p). pose proof (load_range (mem s) p Hb) as He. fold e in He.
  destruct (frame_pfn_range id Hid) as [Hf Ef]. pose proof (low_bits e) as Hl.
  assert (Z.shiftr (kva_of id - KERNEL_ADDR_TAG) NORMAL_PAGE_SHIFT = frame_pfn id) as Esh by (by rewrite Z.shiftr_div_pow2).
  rewrite (bind_Ok _ _ s tt (set_mem (store64 p (bound_entry e id attrs) (mem s)) s)).
  - unfold pageframe_kva2attr. rewrite kva2id_of, frame_index_true by done. cbn [asserts].
    rewrite (bind_Ok _ _ _ id (set_mem (store64 p (bound_entry e id attrs) (mem s)) s)) by reflexivity.
    by rewrite (bind_Ok _ _ _ _ _ (upd_frame_run _ id _ Hid)).
  - unfold bind_addr. rewrite (bind_Ok _ _ _ _ _ (get_pte_run s p Hp)), Esh. fold e.
    assert (set_pfn e (frame_pfn id) = entry (frame_pfn id) (e mod 1024)) as ->
      by (rewrite (entry_split e) at 1; by rewrite set_pfn_entry by (done || lia)).
    rewrite (bind_Ok _ _ _ _ _ (set_attribute_entry s _ _ PAGE_PRESENT Hl ltac:(done))).
    rewrite (bind_Ok _ _ _ _ _ (set_attribute_entry s (frame_pfn id) _ attrs (lor_low _ PAGE_PRESENT Hl ltac:(done)) Ha)).
    by apply put_pte_run.
Qed.

(** Facts the walks below use at once. *)
Lemma user_attrs_low : 0 ≤ USER_ATTRS < 1024.
Proof. done. Qed.
Lemma page_start : 0 ≤ 0 < PAGE_SIZE.
Proof. done. Qed.
Lemma soft_low : 0 ≤ PAGE_SOFT < 1024.
Proof. done. Qed.

Lemma find_dir_run s g d :
  frame_id d → container (frames s d) = Some g → find_pagegroup (kva_of d) s = Ok (g, s).
Proof. intros Hd Hc. rewrite <- (Z.add_0_r (kva_of d)). by apply find_group_run. Qed.

(** ** swapin *)

(** One level of a walk: the entry [i] of the directory [dir] names [next]. *)
Definition level (s : mm) (dir i next : Z) : Prop :=
  let e := load64 (mem s) (entry_addr dir i) in
  entry_addr dir i ≠ NULL ∧ has e PAGE_PRESENT = true ∧ PA_BOTTOM ≤ get_pa e < PA_TOP ∧ next = KERNEL_ADDR_TAG + get_pa e.

(** The walk of the page tables at [pgdir] for [va] ends at the entry [p]. *)
Definition walks (s : mm) (pgdir va p : Z) : Prop :=
  ∃ vpn2 vpn1 vpn0 level1 level0, get_vpn va = (vpn2, vpn1, vpn0) ∧ level s pgdir vpn2 level1 ∧
    level s level1 vpn1 level0 ∧ p = entry_addr level0 vpn0 ∧ p ≠ NULL.

Lemma level_run {A} s dir i next (k : Z → MM A) msg :
  level s dir i next →
  (e <- get_pte (entry_addr dir i) ;; asserts (has e PAGE_PRESENT) msg ;; n <- pa2kva (get_pa e) ;; k n) s = k next s.
Proof.
  intros (Hn & Hp & Hr & ->). rewrite (bind_Ok _ _ _ _ _ (get_pte_run s _ Hn)), Hp. cbn [asserts].
  rewrite (bind_Ok _ _ s tt s) by reflexivity. by rewrite (bind_Ok _ _ _ _ _ (pa2kva_run s _ Hr)).
Qed.

(** The page of frame [id] after the bytes of the card came in, bound at [p]. *)
Lemma swapin_run s pgdir d g va p e i id :
  swap_ok s → (∀ a, 0 ≤ mem s a < 256) → (∀ a, 0 ≤ card s a < 256) → walks s pgdir va p →
  pgdir = kva_of d → frame_id d → container (frames s d) = Some g →
  load64 (mem s) p = swapped_entry e (swap_base_location s + i * SWAP_LEN) → swap_slot i → swap_using s i = true →
  frame_id id → p + 8 ≤ kva_of id ∨ kva_of id + PAGE_SIZE ≤ p →
  ∃ s' e', swapin va pgdir (kva_of id) s = Ok (tt, s') ∧
    load64 (mem s') p = bound_entry e' id USER_ATTRS ∧ has (bound_entry e' id USER_ATTRS) PAGE_SOFT = false ∧
    bytes_at (mem s') (kva_of id) PAGE_SIZE = bios_sd_read SWAP_LEN (swap_base_location s + i * SWAP_LEN) (card s) ∧
    (∀ a, (a < kva_of id ∨ kva_of id + PAGE_SIZE ≤ a) → (a < p ∨ p + 8 ≤ a) → mem s' a = mem s a) ∧
    swap_using s' = <[i := false]> (swap_using s) ∧ swap_ok s' ∧ card s' = card s ∧ pte (frames s' id) = p.
Proof.
  intros Hsw Hb Hbc (vpn2 & vpn1 & vpn0 & l1 & l0 & Evpn & H2 & H1 & Ep & Hp) -> Hd Hcd Hpe Hi Hu Hid Hap.
  set (loc := swap_base_location s + i * SWAP_LEN) in *. pose proof (so_base _ Hsw) as Hbase.
  assert (0 ≤ loc < 2 ^ 31) as Hloc by (unfold loc; ssolve).
  destruct (swapped_facts e loc) as (Epfn & Esoft & _).
  unfold swapin. rewrite Evpn. rewrite (level_run s _ _ l1 _ _ H2), (level_run s _ _ l0 _ _ H1). rewrite <- Ep.
  rewrite (bind_Ok _ _ _ _ _ (get_pte_run s p Hp)), Hpe, Esoft. cbn [asserts].
  rewrite (bind_Ok _ _ s tt s), Epfn by reflexivity.
  rewrite (bind_Ok _ _ _ _ _ (card_read_run s id loc Hid ltac:(lia))).
  set (v := bios_sd_read SWAP_LEN loc (card s)). set (s1 := set_mem _ s).
  assert (length v = Z.to_nat PAGE_SIZE) as Hv by (unfold v; by rewrite sd_read_length).
  assert (∀ a, 0 ≤ mem s1 a < 256) as Hb1.
  { apply put_bytes_range; [|done]. intros b [j [-> _]]%list_elem_of_fmap. apply Hbc. }
  assert (load64 (mem s1) p = swapped_entry e loc) as Hpe1.
  { rewrite <- Hpe. apply load_ext. intros a Ha. apply put_bytes_out. rewrite Hv. change (Z.of_nat (Z.to_nat PAGE_SIZE)) with PAGE_SIZE. lia. }
  rewrite (bind_Ok _ _ _ _ _ (get_pte_run s1 p Hp)), Hpe1.
  rewrite (bind_Ok _ _ _ _ _ (put_pte_run s1 p _ Hp)). set (e1 := clear_attribute (swapped_entry e loc) PAGE_SOFT). set (s2 := set_mem _ s1).
  assert (0 ≤ e1 < 2 ^ 64) as He1 by (apply clear_range, entry_range; [apply swapped_low|lia]).
  assert (∀ a, 0 ≤ mem s2 a < 256) as Hb2 by (by apply store_range).
  rewrite (bind_Ok _ _ _ _ _ (bind_page_run s2 p id USER_ATTRS Hp Hid user_attrs_low Hb2)).
  assert (load64 (mem s2) p = e1) as Ee1 by (by apply load_store). rewrite Ee1. set (s3 := set_frames _ _).
  assert (container (frames s3 d) = Some g) as Hcd3.
  { unfold s3. cbn [frames set_frames]. destruct (decide (d = id)) as [->|]; [by rewrite fn_lookup_insert|by rewrite fn_lookup_insert_ne]. }
  rewrite (bind_Ok _ _ _ _ _ (find_dir_run s3 g d Hd Hcd3)).
  assert (swap_ok s3) as Hsw3 by (by destruct Hsw; split).
  destruct (swap_free_run s3 i Hsw3 Hi Hu) as (s' & Hs' & Es' & Hsw').
  assert (mem s' = store64 p (bound_entry e1 id USER_ATTRS) (store64 p e1 (put_bytes (kva_of id) v (mem s)))) as Hm' by (by rewrite Es').
  assert (∀ a, a < p ∨ p + 8 ≤ a → mem s' a = put_bytes (kva_of id) v (mem s) a) as Hout.
  { intros a Ha. rewrite Hm'. unfold store64. rewrite !put_bytes_out by (rewrite le_length; lia). done. }
  exists s', e1. split_and!; [exact Hs'|..].
  - rewrite Hm'. apply load_store. apply bound_range; [exact Hid|exact user_attrs_low].
  - assert (e1 mod 1024 = Z.ldiff (Z.lor (Z.ldiff (e mod 1024) PAGE_PRESENT) PAGE_SOFT) PAGE_SOFT) as El.
    { unfold e1, swapped_entry. rewrite clear_attribute_entry; [|apply swapped_low|lia|exact soft_low].
      unfold entry. rewrite Z.add_comm, Z.mod_add by done. apply Z.mod_small, ldiff_low, swapped_low. }
    unfold bound_entry. rewrite has_entry; [|apply bound_low, user_attrs_low|exact soft_low]. rewrite El.
    unfold has, get_attribute. apply negb_false_iff, Z.eqb_eq. apply Z.bits_inj'. intros j Hj.
    rewrite Z.land_spec, !Z.lor_spec, Z.ldiff_spec, Z.bits_0. destruct (Z.testbit PAGE_SOFT j) eqn:E; [|by rewrite andb_false_r].
    assert (j = 8) as ->.
    { destruct (decide (j = 8)); [done|]. change PAGE_SOFT with (2 ^ 8) in E. by rewrite Z.pow2_bits_false in E. }
    by rewrite andb_false_r.
  - rewrite <- (bytes_put (kva_of id) v (mem s)), Hv. apply bytes_at_ext. intros a Ha. apply Hout.
    change (Z.of_nat (Z.to_nat PAGE_SIZE)) with PAGE_SIZE in Ha. lia.
  - intros a Ha1 Ha2. rewrite Hout by done. apply put_bytes_out. rewrite Hv. done.
  - by rewrite Es'.
  - done.
  - by rewrite Es'.
  - rewrite Es'. cbn. by rewrite fn_lookup_insert.
Qed.
