(* ===== verification/MmTheorems.v ===== *)
(** * Page frames, replacement and swapping: the theorems *)

From S2P Require Import Prelude Bytes Block SdCard Pgtable PgtableProofs Frames FrameProofs FrameAlloc EvictProofs Vm.
From S2P Require Import SwapProofs.

(** ** Walking to an entry *)
Lemma level_kernel s dir i next : level s dir i next → next ≠ NULL.
Proof. intros (_ & _ & Hr & ->). unfold KERNEL_ADDR_TAG, PA_BOTTOM, NULL in *. lia. Qed.

Lemma walk_level_run s dir i next create : level s dir i next → walk_level dir i create s = Ok (next, s).
Proof.
  intros (Hn & Hp & Hr & ->). unfold walk_level. rewrite (bind_Ok _ _ _ _ _ (get_pte_run s _ Hn)), Hp. cbn [negb andb].
  rewrite (bind_Ok _ _ s tt s) by reflexivity. rewrite (bind_Ok _ _ _ _ _ (get_pte_run s _ Hn)). by apply pa2kva_run.
Qed.

Lemma find_pte_run s pgdir va p create : walks s pgdir va p → find_pte va pgdir create s = Ok (p, s).
Proof.
  intros (v2 & v1 & v0 & l1 & l0 & Ev & H2 & H1 & -> & _). unfold find_pte. rewrite Ev.
  rewrite (bind_Ok _ _ _ _ _ (walk_level_run _ _ _ _ _ H2)), (proj2 (Z.eqb_neq _ _) (level_kernel _ _ _ _ H2)).
  by rewrite (bind_Ok _ _ _ _ _ (walk_level_run _ _ _ _ _ H1)), (proj2 (Z.eqb_neq _ _) (level_kernel _ _ _ _ H1)).
Qed.

Lemma walks_ext s s' pgdir va p : mem s' = mem s → walks s pgdir va p → walks s' pgdir va p.
Proof.
  intros Em (v2 & v1 & v0 & l1 & l0 & Ev & H2 & H1 & Ep). exists v2, v1, v0, l1, l0. unfold level in *. by rewrite !Em.
Qed.

Lemma walks_nonnull s pgdir va p : walks s pgdir va p → p ≠ NULL.
Proof. by intros (v2 & v1 & v0 & l1 & l0 & _ & _ & _ & _ & ?). Qed.

(** ** Touching a page that is on the card *)
Lemma swapped_nonzero e loc : swapped_entry e loc ≠ 0.
Proof. intros E. destruct (swapped_facts e loc) as (_ & Hs & _). by rewrite E in Hs. Qed.

Lemma touch_swapped s g x d va p e i t :
  frames_ok s → swap_ok s → (∀ a, 0 ≤ mem s a < 256) → (∀ a, 0 ≤ card s a < 256) →
  page_groups s !! g = Some x → used x + 1 ≤ capacity x → (∃ j, free_run s j 1) → cur_kernel_mem s < ALLMEM_KERNEL →
  frame_id d → container (frames s d) = Some g → walks s (kva_of d) va p →
  load64 (mem s) p = swapped_entry e (swap_base_location s + i * SWAP_LEN) → swap_slot i → swap_using s i = true →
  attrs s t ≠ 0 → kva_of t ≤ p ∧ p + 8 ≤ kva_of t + PAGE_SIZE →
  ∃ id s', uva2kva va (kva_of d) s = Ok (kva_of id + va mod PAGE_SIZE, s') ∧ attrs s id = 0 ∧
    bytes_at (mem s') (kva_of id) PAGE_SIZE = bios_sd_read SWAP_LEN (swap_base_location s + i * SWAP_LEN) (card s) ∧
    swap_using s' = <[i := false]> (swap_using s) ∧ swap_ok s'.
Proof.
  intros Hok Hsw Hb Hbc Hx Hcap [j Hj] Hcur Hd Hcd Hw Hpe Hi Hu Ht Hpt.
  destruct (alloc_pageframe_run s g x 1 j Hok Hx ltac:(done) Hcap Hj ltac:(by left)) as (id & s1 & Hs1 & (F1 & F2 & F3) & Htk).
  assert (frame_id id) as Hid by (unfold frame_id; lia). assert (attrs s id = 0) as Hfid by (apply F3; unfold within; lia).
  assert (t ≠ id) as Htid by congruence.
  pose proof Htk as [Hsh _ Hfr _]. assert (mem s1 = mem s) as Em by (by rewrite Hsh).
  assert (card s1 = card s) as Ec by (by rewrite Hsh).
  assert (swap_base_location s1 = swap_base_location s) as Es by (by rewrite Hsh).
  assert (swap_using s1 = swap_using s) as Eu by (by rewrite Hsh).
  assert (swap_ok s1) as Hsw1 by (rewrite Hsh; destruct Hsw; by split).
  assert (container (frames s1 d) = Some g) as Hcd1 by (rewrite Hfr; by case_decide).
  destruct (swapin_run s1 (kva_of d) d g va p e i id) as (s2 & e' & Hs2 & Hp2 & _ & Hby & _ & Hus & Hsw2 & _);
    rewrite ?Em, ?Ec, ?Es, ?Eu; try assumption; try reflexivity.
  { by apply (walks_ext s). }
  { unfold kva_of in *. change PAGE_SIZE with 4096 in *. lia. }
  pose proof (walks_nonnull _ _ _ _ Hw) as Hpn. exists id, s2. split_and!; [|done|by rewrite Hby, Es, Ec|by rewrite Hus, Eu|done].
  unfold uva2kva, alloc_page. rewrite <- bind_assoc, (bind_Ok _ _ _ _ _ (find_pte_run s _ _ _ true Hw)).
  rewrite <- bind_assoc, (bind_Ok _ _ _ _ _ (get_pte_run s p Hpn)), Hpe.
  rewrite (proj2 (Z.eqb_neq _ _) (swapped_nonzero _ _)). cbn [negb asserts].
  destruct (swapped_facts e (swap_base_location s + i * SWAP_LEN)) as (_ & -> & ->). cbn [asserts].
  rewrite (bind_Ok _ _ s p s2).
  - rewrite (bind_Ok _ _ _ _ _ (get_pte_run s2 p Hpn)), Hp2.
    rewrite (bind_Ok _ _ _ _ _ (bound_walk s2 e' id USER_ATTRS Hid user_attrs_low)). unfold ret. do 2 f_equal.
    change (PAGE_SIZE - 1) with (Z.ones 12). rewrite Z.land_ones by done. change (2 ^ 12) with PAGE_SIZE.
    apply u64_small. pose proof (Z.mod_pos_bound va PAGE_SIZE ltac:(done)). fsolve.
  - rewrite (bind_Ok _ _ s tt s) by reflexivity. rewrite (bind_Ok _ _ s tt s2); [done|].
    rewrite (bind_Ok _ _ s tt s) by reflexivity. by rewrite (bind_Ok _ _ _ _ _ (find_dir_run s g d Hd Hcd)), (bind_Ok _ _ _ _ _ Hs1).
Qed.

(** ** Claims *)

(** C19 [alloc_pageframe] gives out free memory, and finds it. In a state
    where every frame is free or in exactly one block, for a group with room
    for [n] more pages, if some run of [n] frames is free (and the search
    cursor is not parked at the end of the memory, or the run is not the very
    last frame) the call returns the address of a run of [n] frames that were
    all free, they now form one block of the group, no other frame, no byte of
    memory and no byte of the card changes, and the invariant holds again. *)
Theorem alloc_pageframe_correct s g x n i :
  frames_ok s → page_groups s !! g = Some x → 0 < n → used x + n ≤ capacity x → free_run s i n →
  cur_kernel_mem s < ALLMEM_KERNEL ∨ i + 1 < MAX_PAGE_NUM →
  ∃ id s', alloc_pageframe g n s = Ok (kva_of id, s') ∧ free_run s id n ∧ block s' g id n ∧ frames_ok s' ∧
    (∀ j, ¬ within id n j → attrs s' j = attrs s j ∧ frames s' j = frames s j) ∧ mem s' = mem s ∧ card s' = card s.
Proof.
  intros Hok Hx Hn Hcap Hfree Hend.
  destruct (alloc_pageframe_run s g x n i Hok Hx Hn Hcap Hfree Hend) as (id & s' & Hs' & Hf & Htk).
  pose proof (taken_ok s s' g x id n Hok Hx Hn Hf Htk) as Hok'. exists id, s'. split_and!; try done.
  - apply (taken_block (set_cur (kva_of (id + n)) s)); try done.
    destruct Hok as [H1 H2 H3 H4 H5 H6]. split; try done. exists (id + n). destruct Hf as (? & ? & _). split; [lia|done].
  - intros j Hj. destruct Htk as [_ Ha Hfr _]. by rewrite Ha, Hfr, !decide_False.
  - destruct Htk as [Hsh _ _ _]. by rewrite Hsh.
  - destruct Htk as [Hsh _ _ _]. by rewrite Hsh.
Qed.

(** [free_pageframe] gives back exactly the block. For any address
    inside an allocated frame, the frame belongs to one block [e .. e+n-1] of
    one group; the call terminates, every frame of that block is free and in no
    list, every other frame keeps its owner, the group counts [n] pages less,
    memory and card are untouched, and the invariant holds again. *)
Theorem free_pageframe_correct s id o :
  frames_ok s → frame_id id → attrs s id ≠ 0 → 0 ≤ o < PAGE_SIZE →
  ∃ g e n x s', free_pageframe (kva_of id + o) s = Ok (tt, s') ∧ block s g e n ∧ within e n id ∧ frames_ok s' ∧
    free_run s' e n ∧ (∀ j, ¬ within e n j → attrs s' j = attrs s j ∧ frames s' j = frames s j) ∧
    page_groups s !! g = Some x ∧ (∃ x', page_groups s' !! g = Some x' ∧ used x' = used x - n) ∧
    mem s' = mem s ∧ card s' = card s.
Proof.
  intros Hok Hid Ha Ho. destruct (block_of s id Hok Hid Ha) as (g & e & n & Hbl & Hw & [x Hx]).
  destruct (free_pageframe_run s g e n id o Hok Hbl Hw Ho) as (s' & Hs' & Hrel).
  pose proof (released_ok _ _ _ _ _ Hok Hbl Hrel) as Hok'. destruct Hrel as [Hsh Hat Hfr Hgr].
  pose proof (bl_range _ _ _ _ Hbl) as Hr.
  exists g, e, n, x, s'. split_and!; try done.
  - split_and!; [lia|lia|]. intros j Hj. by rewrite Hat, decide_True.
  - intros j Hj. by rewrite Hat, Hfr, !decide_False.
  - eexists. split; [rewrite (Hgr x Hx); apply list_lookup_insert_eq; by eapply lookup_lt_Some|done].
  - by rewrite Hsh.
  - by rewrite Hsh.
Qed.

(** C20 The second-chance replacement of pf_evict.cpp chooses well and stops.
    When the group has a leaf page at all, [second_chance::evict] returns a
    leaf of the group whose accessed bit is clear; a page that had been
    accessed is taken only if every leaf had been; the page list keeps its
    pages, only leaves that were accessed lose their bit, and no other memory,
    frame or list changes. *)
Theorem second_chance_correct s g x :
  group_ok s g x → (∃ v, v ∈ pages x ∧ leaf s v) →
  ∃ v s' C l, second_chance_evict g s = Ok (Some v, s') ∧ v ∈ pages x ∧ leaf s v ∧ ¬ accessed s' v ∧
    (accessed s v → ∀ w, w ∈ pages x → leaf s w → accessed s w) ∧
    turned s s' g x l C ∧ l ≡ₚ pages x ∧ (∀ c, c ∈ C → c ∈ pages x ∧ leaf s c ∧ accessed s c).
Proof.
  intros Hok Hex. destruct (second_evict_run s g x Hok Hex) as (v & s' & C & Hs' & [(l & Ht & Hp) Hl Hc] & Hna & Hf).
  exists v, s', C, (l ++ [v]). split_and!; try done. rewrite <- Hp. set_solver.
Qed.

