(* ===== verification/MmDemo.v ===== *)
(** * A small address space

    One group of four frames, full: frame 0 is the top directory, frames 2 and
    3 the directories below it, frame 1 the page mapped at address 0. The
    witnesses of MmTheorems.v and the corner cases of the memory code. *)

From S2P Require Import Prelude Bytes Block SdCard Pgtable PgtableProofs Frames FrameProofs FrameAlloc EvictProofs Vm.
From S2P Require Import SwapProofs MmTheorems.

Definition table_entry (id attrs : Z) : Z := entry (frame_pfn id) (Z.lor PAGE_PRESENT attrs).
Definition demo_ram : ram :=
  store64 (kva_of 0) (table_entry 2 0) (store64 (kva_of 2) (table_entry 3 0)
    (store64 (kva_of 3) (table_entry 1 (Z.lor USER_ATTRS PAGE_ACCESSED)) (put_bytes (kva_of 1) [1; 2; 3; 4] (fun _ => 0)))).
Definition demo_frames (id : Z) : pageframe_t :=
  if id =? 0 then mk_frame (Some 0%nat) NULL 0
  else if id =? 1 then mk_frame (Some 0%nat) (kva_of 3) 0
  else if id =? 2 then mk_frame (Some 0%nat) (kva_of 0) 0
  else if id =? 3 then mk_frame (Some 0%nat) (kva_of 2) 0
  else mk_frame None NULL 0.
Definition demo_group : pageframe_group_t := mk_group [1; 3; 2; 0] 5 4 2 (mk_vtable SecondChance false).
Definition demo_mm : mm :=
  mk_mm demo_ram (fun _ => 0) (kva_of 4) (fun j => if (0 <=? j) && (j <? 4) then kva_of j else 0) demo_frames
    [demo_group] 1000 (fun _ => false) 0 0 (fun _ => 0) 0xffffffe000000000 0 0 0xffffffc050500000.

Lemma demo_owner id : container (demo_frames id) = if decide (within 0 4 id) then Some 0%nat else None.
Proof.
  unfold demo_frames. case_decide as Hw; unfold within in Hw.
  - assert (id = 0 ∨ id = 1 ∨ id = 2 ∨ id = 3) as [->|[->|[->| ->]]] by lia; done.
  - by rewrite !(proj2 (Z.eqb_neq id _)) by lia.
Qed.

Lemma demo_attrs id : attrs demo_mm id = if decide (within 0 4 id) then kva_of id else 0.
Proof.
  cbn. case_decide as Hw; unfold within in Hw.
  - by rewrite (proj2 (Z.leb_le _ _)), (proj2 (Z.ltb_lt _ _)) by lia.
  - destruct (Z.leb_spec 0 id); [|done]. by rewrite (proj2 (Z.ltb_ge _ _)) by lia.
Qed.

Lemma demo_groups g x : page_groups demo_mm !! g = Some x → g = 0%nat ∧ x = demo_group.
Proof. destruct g; [|by destruct g]. intros [= <-]. done. Qed.

Lemma demo_pages id : id ∈ pages demo_group ↔ within 0 4 id.
Proof.
  unfold within. cbn. rewrite !elem_of_cons, elem_of_nil. lia.
Qed.

Lemma demo_frames_ok : frames_ok demo_mm.
Proof.
  split.
  - intros g x [-> ->]%demo_groups. split; [|done]. cbn. repeat constructor; set_solver by lia.
  - intros g x id [-> ->]%demo_groups. rewrite demo_pages. cbn. rewrite demo_owner. unfold within, frame_id.
    change MAX_PAGE_NUM with 57342. case_decide; [split; [split; [lia|done]|lia]|naive_solver lia].
  - intros g id Hid. cbn [frames demo_mm]. rewrite demo_owner. case_decide; [|done]. intros [= <-]. by eexists.
  - intros id Hid. rewrite demo_attrs. cbn [frames demo_mm]. rewrite demo_owner. case_decide as Hw; [|done].
    split; [|done]. intros E. unfold within in Hw. apply kva_of_pos in E; [done|lia].
  - intros id Hid. rewrite demo_attrs. case_decide as Hw; [|done]. intros _. exists id.
    unfold within in Hw. split_and!; [lia|lia|done|]. intros j Hj. assert (j = id) as -> by lia.
    rewrite demo_attrs, decide_True by done. done.
  - by exists 4.
Qed.

Lemma demo_bytes a : 0 ≤ mem demo_mm a < 256.
Proof. repeat apply store_range. apply put_bytes_range; [|lia]. intros b Hb. set_unfold in Hb. lia. Qed.

Lemma demo_swap_ok : swap_ok demo_mm.
Proof. split; [done| |done]. unfold slots_used. by rewrite filter_none. Qed.

Lemma demo_group_ok : group_ok demo_mm 0 demo_group.
Proof.
  split; [done| | | |apply demo_bytes].
  - by apply (fo_pages _ demo_frames_ok 0).
  - intros id Hid%demo_pages. cbn [frames demo_mm]. rewrite demo_owner, decide_True by done.
    split; [unfold within in Hid; fsolve|done].
  - intros i j Hi%demo_pages Hj%demo_pages Hne Hpi Hpj. unfold within in *. cbn [frames demo_mm] in *.
    assert (i = 0 ∨ i = 1 ∨ i = 2 ∨ i = 3) as [->|[->|[->| ->]]] by lia;
      assert (j = 0 ∨ j = 1 ∨ j = 2 ∨ j = 3) as [->|[->|[->| ->]]] by lia;
      cbn [demo_frames Z.eqb Pos.eqb pte] in *; first [done | fsolve].
Qed.

Lemma demo_tables : tables_apart demo_mm demo_group.
Proof.
  assert (∀ j, j ∈ pages demo_group → leaf demo_mm j → j = 1) as Hleaf.
  { intros j Hj%demo_pages [Hp Hl]. unfold within in Hj.
    assert (j = 0 ∨ j = 1 ∨ j = 2 ∨ j = 3) as [->|[->|[->| ->]]] by lia; done. }
  intros i j Hi Hj Hp Hl. apply Hleaf in Hl as ->; [|done]. apply demo_pages in Hi. unfold within in Hi.
  assert (i = 0 ∨ i = 1 ∨ i = 2 ∨ i = 3) as [->|[->|[->| ->]]] by lia; [done|right|left|right]; vm_compute; congruence.
Qed.

Lemma demo_leaf : ∃ v, v ∈ pages demo_group ∧ leaf demo_mm v.
Proof. exists 1. split; [set_solver|]. split; vm_compute; done. Qed.

(** ** Witnesses *)
Lemma alloc_pageframe_correct_witness :
  ∃ id s', alloc_pageframe 0 1 demo_mm = Ok (kva_of id, s') ∧ free_run demo_mm id 1 ∧ block s' 0 id 1 ∧ frames_ok s' ∧
    (∀ j, ¬ within id 1 j → attrs s' j = attrs demo_mm j ∧ frames s' j = frames demo_mm j) ∧
    mem s' = mem demo_mm ∧ card s' = card demo_mm.
Proof.
  apply (alloc_pageframe_correct demo_mm 0 demo_group 1 4).
  - exact demo_frames_ok.
  - reflexivity.
  - lia.
  - vm_compute. congruence.
  - split_and!; [lia|vm_compute; congruence|]. intros j Hj. rewrite demo_attrs, decide_False; [done|]. unfold within in *. lia.
  - left. vm_compute. reflexivity.
Defined.

Lemma free_pageframe_correct_witness :
  ∃ g e n x s', free_pageframe (kva_of 2 + 8) demo_mm = Ok (tt, s') ∧ block demo_mm g e n ∧ within e n 2 ∧ frames_ok s' ∧
    free_run s' e n ∧ (∀ j, ¬ within e n j → attrs s' j = attrs demo_mm j ∧ frames s' j = frames demo_mm j) ∧
    page_groups demo_mm !! g = Some x ∧ (∃ x', page_groups s' !! g = Some x' ∧ used x' = used x - n) ∧
    mem s' = mem demo_mm ∧ card s' = card demo_mm.
Proof.
  apply (free_pageframe_correct demo_mm 2 8).
  - exact demo_frames_ok.
  - split; [lia|vm_compute; reflexivity].
  - vm_compute. congruence.
  - split; [lia|vm_compute; reflexivity].
Defined.

Lemma second_chance_correct_witness :
  ∃ v s' C l, second_chance_evict 0 demo_mm = Ok (Some v, s') ∧ v ∈ pages demo_group ∧ leaf demo_mm v ∧ ¬ accessed s' v ∧
    (accessed demo_mm v → ∀ w, w ∈ pages demo_group → leaf demo_mm w → accessed demo_mm w) ∧
    turned demo_mm s' 0 demo_group l C ∧ l ≡ₚ pages demo_group ∧
    (∀ c, c ∈ C → c ∈ pages demo_group ∧ leaf demo_mm c ∧ accessed demo_mm c).
Proof. apply (second_chance_correct demo_mm 0 demo_group); [exact demo_group_ok|exact demo_leaf]. Defined.

(** The state after the page of frame 1 is swapped out. *)
Definition demo_out : mm := match swapout 0 demo_mm with Ok (_, s) => s | _ => demo_mm end.
Definition demo_victim : Z := match swapout 0 demo_mm with Ok (a, _) => a | _ => 0 end.

Lemma demo_victim_eq : demo_victim = kva_of 1.
Proof. vm_compute. reflexivity. Qed.

Lemma demo_out_walks : walks demo_out (kva_of 0) 0 (kva_of 3).
Proof.
  exists 0, 0, 0, (kva_of 2), (kva_of 3). split; [reflexivity|]. split.
  - unfold level. split_and!; vm_compute; congruence.
  - split; [unfold level; split_and!; vm_compute; congruence|]. split; vm_compute; congruence.
Qed.


(** ** Corner cases *)

(** The page cache holds one block of the file system, whose page was swapped
    out: the entry of its address names its own sector. *)
Definition cache_mm : mm :=
  mk_mm (store64 (kva_of 0) (table_entry 2 0) (store64 (kva_of 2 + 256 * 8) (table_entry 3 0)
      (store64 (kva_of 3) (swapped_entry USER_ATTRS FS_START_SECTOR) (fun _ => 0))))
    (fun _ => 0) (kva_of 4) (attrs demo_mm) demo_frames [mk_group [3; 2; 0] 5 3 2 (mk_vtable SecondChance true)]
    1000 (fun _ => false) 0 0 (fun _ => 0) 0xffffffe000000000 (kva_of 0) 0 0xffffffc050500000.

(** The page cache cannot bring back a page it swapped out: the copied table
    keeps [regular_swap_free], which takes the sector of the file system for a
    swap location and writes outside of [swap_using]. *)
Lemma page_cache_swapin_faults :
  find_pte (FS_START_SECTOR * SECTOR_SIZE) (kva_of 0) false cache_mm = Ok (kva_of 3, cache_mm) ∧
  cached_block_read 0xffffffc050700000 FS_START_SECTOR cache_mm = Panic "fault" ∧
  (∀ s, 0 ≤ swap_base_location s < 900000 → swap_free FS_START_SECTOR s = Panic "fault").
Proof.
  split; [|split].
  - apply find_pte_run. exists 0, 256, 0, (kva_of 2), (kva_of 3). split; [reflexivity|].
    split; [unfold level; split_and!; vm_compute; congruence|].
    split; [unfold level; split_and!; vm_compute; congruence|]. split; vm_compute; congruence.
  - vm_compute. reflexivity.
  - intros s Hs. unfold swap_free, regular_swap_free. rewrite (bind_Ok _ _ s _ s) by reflexivity.
    unfold free_swap. change FS_START_SECTOR with 1048576.
    rewrite u64_small by lia. change SWAP_LEN with 8.
    assert (16384 ≤ (1048576 - swap_base_location s) / 8 ∨ (1048576 - swap_base_location s) / 8 < 16384) as [H|H] by lia.
    + rewrite (proj2 (Z.ltb_ge _ _)) by (change NUM_MAX_SWAP with 16384; done). by rewrite andb_false_r.
    + exfalso. pose proof (Z.div_mod (1048576 - swap_base_location s) 8 ltac:(lia)).
      pose proof (Z.mod_pos_bound (1048576 - swap_base_location s) 8 ltac:(lia)). lia.
Qed.

(** A cursor left at the end of the memory by a successful call makes the next
    search miss the last frame: the call halts although a frame is free. *)
Lemma alloc_misses_last_frame s g x :
  frames_ok s → page_groups s !! g = Some x → used x + 1 ≤ capacity x → cur_kernel_mem s = ALLMEM_KERNEL →
  (∀ j, frame_id j → attrs s j = 0 ↔ j = MAX_PAGE_NUM - 1) → alloc_pageframe g 1 s = Panic "out of memory".
Proof.
  intros Hok Hx Hcap Hcur Honly. pose proof (frames_length s g x Hok Hx). destruct (fo_pages _ Hok g x Hx) as [_ Eu].
  unfold alloc_pageframe. rewrite (bind_Ok _ _ _ _ _ (shrink_room s g x 1 Hx ltac:(lia) ltac:(lia) ltac:(fsolve) Hcap)).
  apply (frame_search_fails _ s g MAX_PAGE_NUM 1); [rewrite Hcur; reflexivity|split; [done|reflexivity]|done|].
  intros i (H1 & H2 & H3). assert (i = MAX_PAGE_NUM - 1) as ->.
  { apply (Honly i); [unfold frame_id; lia|]. apply H3. unfold within. lia. }
  unfold turns. rewrite decide_False, decide_True by lia. fsolve.
Qed.

(** A page fault on a present page hands the user address to a function that
    expects the address of a frame, and halts. *)
Lemma present_page_fault_halts : handle_exc_pagefault (kva_of 0) 0 7 true demo_mm = Panic "invalid page addr".
Proof. vm_compute. reflexivity. Qed.
