(* ===== verification/Screen.v ===== *)
(** * drivers/screen.c: the text screen

    The screen buffers are arrays of 80 x 50 cells; an access outside of them
    is a fault. What the driver sends to the terminal is the list [out] of the
    VT100 commands it prints (the escape sequence of each is in the source).
    [cursor_x] and [cursor_y] are those of [current_running]. [screen_lock] is
    taken and released inside [screen_reflush], which runs alone. *)

From S2P Require Import Prelude.

Definition SCREEN_WIDTH : Z := 80.
Definition SCREEN_HEIGHT : Z := 50.
Definition SCREEN_CELLS : Z := SCREEN_HEIGHT * SCREEN_WIDTH.
Definition SCREEN_LOC (x y : Z) : Z := y * SCREEN_WIDTH + x.
Definition SPACE : Z := 32.

(** The commands of [printv] and [bios_putchar]. *)
Inductive vt100 :=
| MoveCursor (x y : Z)       (* \033[y;xH *)
| MoveCursorX (x : Z)        (* \033[xG *)
| MoveCursorY (y : Z)        (* \033[yd *)
| Clear                      (* \033[2J *)
| HideCursor                 (* \033[?25l *)
| SetColor (c : Z)           (* \033[cm *)
| PutChar (ch : Z).

Record screen := mk_screen {
  new_screen : Z → Z;
  old_screen : Z → Z;
  old_color : Z → Z;
  color_trigger : Z → Z;
  scroll_start : Z;
  scroll_end : Z;
  cursor_x : Z;
  cursor_y : Z;
  last_color : Z;
  out : list vt100;
}.
Definition set_new (v : Z → Z) (s : screen) : screen :=
  mk_screen v (old_screen s) (old_color s) (color_trigger s) (scroll_start s) (scroll_end s) (cursor_x s) (cursor_y s)
    (last_color s) (out s).
Definition set_old (v c : Z → Z) (s : screen) : screen :=
  mk_screen (new_screen s) v c (color_trigger s) (scroll_start s) (scroll_end s) (cursor_x s) (cursor_y s)
    (last_color s) (out s).
Definition set_trigger (v : Z → Z) (s : screen) : screen :=
  mk_screen (new_screen s) (old_screen s) (old_color s) v (scroll_start s) (scroll_end s) (cursor_x s) (cursor_y s)
    (last_color s) (out s).
Definition set_scroll (a b : Z) (s : screen) : screen :=
  mk_screen (new_screen s) (old_screen s) (old_color s) (color_trigger s) a b (cursor_x s) (cursor_y s)
    (last_color s) (out s).
Definition set_cursor (x y : Z) (s : screen) : screen :=
  mk_screen (new_screen s) (old_screen s) (old_color s) (color_trigger s) (scroll_start s) (scroll_end s) x y
    (last_color s) (out s).
Definition set_last_color (c : Z) (s : screen) : screen :=
  mk_screen (new_screen s) (old_screen s) (old_color s) (color_trigger s) (scroll_start s) (scroll_end s) (cursor_x s)
    (cursor_y s) c (out s).
Definition emit1 (c : vt100) (s : screen) : screen :=
  mk_screen (new_screen s) (old_screen s) (old_color s) (color_trigger s) (scroll_start s) (scroll_end s) (cursor_x s)
    (cursor_y s) (last_color s) (out s ++ [c]).

Abbreviation SC := (M screen).
Definition emit (c : vt100) : SC unit := modify (emit1 c).
Definition in_screen (k : Z) : bool := (0 <=? k) && (k <? SCREEN_CELLS).
Definition put_new (k v : Z) : SC unit :=
  asserts (in_screen k) "fault" ;; modify (fun s => set_new (<[k := v]> (new_screen s)) s).
Definition get_new (k : Z) : SC Z := asserts (in_screen k) "fault" ;; gets (fun s => new_screen s k).
Definition put_trigger (k v : Z) : SC unit :=
  asserts (in_screen k) "fault" ;; modify (fun s => set_trigger (<[k := v]> (color_trigger s)) s).
Definition get_trigger (k : Z) : SC Z := asserts (in_screen k) "fault" ;; gets (fun s => color_trigger s k).
Definition put_old (k v c : Z) : SC unit :=
  asserts (in_screen k) "fault" ;; modify (fun s => set_old (<[k := v]> (old_screen s)) (<[k := c]> (old_color s)) s).

(** [for (i = a; i < b; i++)] *)
Fixpoint for_each (l : list Z) (f : Z → SC unit) : SC unit :=
  match l with [] => ret tt | i :: l => f i ;; for_each l f end.
Definition for_range (a b : Z) (f : Z → SC unit) : SC unit := for_each (seqZ a (b - a)) f.

Definition screen_scroll (start_row end_row : Z) : SC unit :=
  for_range start_row end_row (fun i => for_range 0 SCREEN_WIDTH (fun j =>
    v <- get_new (SCREEN_LOC j (i + 1)) ;; put_new (SCREEN_LOC j i) v ;;
    t <- get_trigger (SCREEN_LOC j (i + 1)) ;; put_trigger (SCREEN_LOC j i) t)) ;;
  for_range 0 SCREEN_WIDTH (fun j =>
    put_new (SCREEN_LOC j end_row) SPACE ;; put_trigger (SCREEN_LOC j end_row) 0).

Definition screen_write_ch (ch : Z) : SC unit :=
  s <- gets (fun s => s) ;;
  let x := cursor_x s in
  let y := cursor_y s in
  if ch =? 10 then
    modify (set_cursor 0 y) ;;
    (if y =? scroll_end s then screen_scroll (scroll_start s) (scroll_end s)
     else if y <? SCREEN_HEIGHT then modify (set_cursor 0 (y + 1)) else ret tt)
  else if (ch =? 8) || (ch =? 127) then
    if y * SCREEN_WIDTH + x =? 0 then ret tt else
    (if x >? 0 then put_new (SCREEN_LOC (x - 1) y) SPACE else ret tt) ;;
    modify (set_cursor (x - 1) y)
  else
    put_new (SCREEN_LOC x y) ch ;;
    if x + 1 >=? SCREEN_WIDTH then modify (set_cursor 0 (if y <? SCREEN_HEIGHT then y + 1 else y))
    else modify (set_cursor (x + 1) y).

Fixpoint screen_write (buff : list Z) : SC unit :=
  match buff with [] => ret tt | ch :: buff => screen_write_ch ch ;; screen_write buff end.

(** One cell of [screen_reflush]; [color] is the running color. *)
Definition reflush_cell (color k j i : Z) : SC Z :=
  t <- get_trigger k ;;
  let color := if t =? 0 then color else if t >? 0 then t else 0 in
  s <- gets (fun s => s) ;;
  if negb (new_screen s k =? old_screen s k) || negb (color =? old_color s k) then
    emit (MoveCursor (j + 1) (i + 1)) ;;
    (if negb (color =? old_color s k) || negb (last_color s =? color) then emit (SetColor color) else ret tt) ;;
    emit (PutChar (new_screen s k)) ;;
    put_old k (new_screen s k) color ;;
    modify (set_last_color color) ;;
    ret color
  else ret color.
(** The two loops walk the cells row by row. *)
Fixpoint reflush_loop (color : Z) (l : list Z) : SC Z :=
  match l with
  | [] => ret color
  | k :: l => color <- reflush_cell color k (k mod SCREEN_WIDTH) (k / SCREEN_WIDTH) ;; reflush_loop color l
  end.
Definition screen_reflush : SC unit :=
  reflush_loop 0 (seqZ 0 SCREEN_CELLS) ;;
  s <- gets (fun s => s) ;;
  emit (MoveCursor (cursor_x s + 1) (cursor_y s + 1)).

Definition screen_clear : SC unit :=
  emit Clear ;;
  for_range 0 SCREEN_CELLS (fun k =>
    put_new k SPACE ;; c <- gets (fun s => old_color s k) ;; put_old k SPACE c) ;;
  modify (set_cursor 0 0) ;;
  modify (set_trigger (fun _ => 0)) ;;
  screen_reflush.
Definition init_screen : SC unit := emit HideCursor ;; emit Clear ;; screen_clear.

Definition clamp (hi v : Z) : Z := if v >=? hi then hi - 1 else if v <? 0 then 0 else v.
Definition screen_move_cursor (x y : Z) : SC unit :=
  let x := clamp SCREEN_WIDTH x in
  let y := clamp SCREEN_HEIGHT y in
  modify (set_cursor x y) ;; emit (MoveCursor (x + 1) (y + 1)).
Definition screen_move_cursor_row (row : Z) : SC unit :=
  let row := clamp SCREEN_HEIGHT row in
  modify (fun s => set_cursor (cursor_x s) row s) ;; emit (MoveCursorY row).
Definition screen_move_cursor_col (col : Z) : SC unit :=
  let col := clamp SCREEN_WIDTH col in
  modify (fun s => set_cursor col (cursor_y s) s) ;; emit (MoveCursorX col).

Definition screen_set_scroll (start_row end_row : Z) : SC unit :=
  if (start_row <? 0) || (start_row >=? SCREEN_HEIGHT) || (end_row <? 0) || (end_row >=? SCREEN_HEIGHT) ||
     (start_row >=? end_row)
  then ret tt else modify (set_scroll start_row end_row).
Definition screen_clear_scroll : SC unit := modify (set_scroll (-1) (-1)).

Definition screen_set_color (start_col end_col foreground : Z) : SC unit :=
  y <- gets cursor_y ;;
  put_trigger (SCREEN_LOC start_col y) foreground ;;
  put_trigger (SCREEN_LOC end_col y) (- foreground).
Definition screen_clear_color : SC unit :=
  for_range 0 SCREEN_WIDTH (fun i => y <- gets cursor_y ;; put_trigger (SCREEN_LOC i y) 0).

Definition blank_row (y : Z) : SC unit :=
  for_range 0 SCREEN_WIDTH (fun j => put_new (SCREEN_LOC j y) SPACE ;; put_trigger (SCREEN_LOC j y) 0).
Definition screen_delete_line (nlines : Z) : SC unit :=
  if nlines <=? 0 then ret tt else
  for_range 0 nlines (fun _ =>
    y <- gets cursor_y ;; blank_row y ;; modify (fun s => set_cursor (cursor_x s) (cursor_y s - 1) s)) ;;
  modify (fun s => set_cursor 0 (cursor_y s + 1) s).
Definition screen_clear_lines (start end_ : Z) : SC unit := for_range start end_ blank_row.
