(* ===== verification/ScreenTheorems.v ===== *)
(** * The screen shows what was written

    drivers/screen.c repaints only the cells that changed. Against any terminal
    that obeys the VT100 commands the driver uses, the theorem shows that this
    is enough: after [screen_reflush] every cell of the terminal shows the
    character and the color of the buffer. *)

From S2P Require Import Prelude Screen.

Definition printable (ch : Z) : Prop := 32 ≤ ch < 127.
Definition on_screen (x y : Z) : Prop := 1 ≤ x ≤ SCREEN_WIDTH ∧ 1 ≤ y ≤ SCREEN_HEIGHT.

(** ** The terminal: what the VT100 manual says of the commands

    Of the codes of "\033[cm" the colors are used here: 30 to 37 replace the
    foreground, 0 resets the attributes. Other codes (bold, dim, ...) add to the
    attributes a terminal has and are left out. *)
Definition is_color (c : Z) : Prop := c = 0 ∨ 30 ≤ c ≤ 37.
Definition harmless (c : vt100) : bool :=
  match c with MoveCursor _ _ | MoveCursorX _ | MoveCursorY _ | HideCursor => true | _ => false end.
Class Terminal (T : Type) := {
  t_do : vt100 → T → T;
  t_cell : T → Z * Z → Z * Z;      (* (column, row), from (1, 1): the character and its color *)
  t_at : T → Z * Z;
  t_attr : T → Z;
  t_move x y t : on_screen x y → t_at (t_do (MoveCursor x y) t) = (x, y);
  t_harmless c t p : harmless c = true → t_cell (t_do c t) p = t_cell t p ∧ t_attr (t_do c t) = t_attr t;
  t_color c t p : is_color c → is_color (t_attr t) → t_cell (t_do (SetColor c) t) p = t_cell t p ∧ t_attr (t_do (SetColor c) t) = c ∧
    t_at (t_do (SetColor c) t) = t_at t;
  t_put ch t p : printable ch → on_screen (t_at t).1 (t_at t).2 →
    t_cell (t_do (PutChar ch) t) p = (if decide (p = t_at t) then (ch, t_attr t) else t_cell t p) ∧
    t_attr (t_do (PutChar ch) t) = t_attr t;
  t_clear t p : on_screen p.1 p.2 → (t_cell (t_do Clear t) p).1 = SPACE ∧ t_attr (t_do Clear t) = t_attr t;
}.

Definition cell (k : Z) : Prop := 0 ≤ k < SCREEN_CELLS.
Definition place (k : Z) : Z * Z := (k mod SCREEN_WIDTH + 1, k / SCREEN_WIDTH + 1).

Lemma screen_consts : SCREEN_WIDTH = 80 ∧ SCREEN_HEIGHT = 50 ∧ SCREEN_CELLS = 4000.
Proof. done. Qed.

Lemma place_on k : cell k → on_screen (place k).1 (place k).2.
Proof.
  unfold cell, place, on_screen. destruct screen_consts as (-> & -> & ->). cbn. intros Hk.
  pose proof (Z.mod_pos_bound k 80 ltac:(lia)). pose proof (Z.div_mod k 80 ltac:(lia)). lia.
Qed.

Lemma place_inj k j : place k = place j → k = j.
Proof.
  unfold place. destruct screen_consts as (-> & _ & _). intros [= H1 H2].
  pose proof (Z.div_mod k 80 ltac:(lia)). pose proof (Z.div_mod j 80 ltac:(lia)). lia.
Qed.

(** ** The color of a cell: the last trigger before it, in reading order *)
Definition shade_step (trigger : Z → Z) (c k : Z) : Z :=
  if trigger k =? 0 then c else if trigger k >? 0 then trigger k else 0.
Definition shade (trigger : Z → Z) (n : Z) : Z := foldl (shade_step trigger) 0 (seqZ 0 n).

Lemma shade_succ trigger n : 0 ≤ n → shade trigger (n + 1) = shade_step trigger (shade trigger n) n.
Proof.
  intros Hn. unfold shade. rewrite seqZ_app by lia. rewrite foldl_app. cbn. by rewrite Z.add_0_l.
Qed.

Lemma shade_color trigger n :
  0 ≤ n ≤ SCREEN_CELLS → (∀ k, cell k → is_color (Z.abs (trigger k))) → is_color (shade trigger n).
Proof.
  intros [H0 Hn] Ht. revert n H0 Hn. apply (natlike_ind (fun n => n ≤ SCREEN_CELLS → _)); [intros _; by left|].
  intros n Hn IH Hlt. unfold Z.succ in *. rewrite shade_succ by done. specialize (Ht n ltac:(unfold cell; lia)). unfold shade_step.
  destruct (Z.eqb_spec (trigger n) 0); [apply IH; lia|]. rewrite Z.gtb_ltb. destruct (Z.ltb_spec 0 (trigger n)); [|by left].
  by rewrite Z.abs_eq in Ht by lia.
Qed.

Section terminal.
Context {T : Type} `{Terminal T}.

Definition feed (t : T) (cmds : list vt100) : T := foldl (fun t c => t_do c t) t cmds.

(** The terminal shows the old buffers, and prints in the last color. The color
    of a blank cell does not show. *)
Definition shows (t : T) (s : screen) : Prop :=
  (∀ k, cell k → (t_cell t (place k)).1 = old_screen s k ∧
    (old_screen s k ≠ SPACE → (t_cell t (place k)).2 = old_color s k)) ∧ t_attr t = last_color s ∧ is_color (last_color s).

(** The buffers hold printable characters and colors. *)
Definition text (s : screen) : Prop := ∀ k, cell k → printable (new_screen s k) ∧ is_color (Z.abs (color_trigger s k)).

Lemma feed_app t c1 c2 : feed t (c1 ++ c2) = feed (feed t c1) c2.
Proof. unfold feed. by rewrite foldl_app. Qed.

(** ** One cell *)
Record repainted (s s' : screen) (k c : Z) (cmds : list vt100) : Prop := {
  rp_frame : new_screen s' = new_screen s ∧ color_trigger s' = color_trigger s ∧ cursor_x s' = cursor_x s ∧
    cursor_y s' = cursor_y s;
  rp_out : out s' = out s ++ cmds;
  rp_cell : old_screen s' k = new_screen s k ∧ old_color s' k = c;
  rp_other j : j ≠ k → old_screen s' j = old_screen s j ∧ old_color s' j = old_color s j;
  rp_shows t : cell k → printable (new_screen s k) → is_color c → shows t s → shows (feed t cmds) s';
}.

Lemma in_screen_cell k : cell k → in_screen k = true.
Proof. unfold cell, in_screen. lia. Qed.

(** The terminal after the cell is printed in color [c]. *)
Lemma print_shows t s k c cmds :
  cell k → printable (new_screen s k) → is_color c → shows t s →
  (cmds = [SetColor c] ∨ cmds = [] ∧ last_color s = c) →
  shows (feed t (MoveCursor (k mod SCREEN_WIDTH + 1) (k / SCREEN_WIDTH + 1) :: cmds ++ [PutChar (new_screen s k)]))
    (set_last_color c (set_old (<[k := new_screen s k]> (old_screen s)) (<[k := c]> (old_color s)) s)).
Proof.
  intros Hk Hp Hcol (Hs & Ha & Hlc) Hcmds. cbn [feed foldl]. fold (place k).
  set (t1 := t_do (MoveCursor _ _) t).
  assert (t_at t1 = place k) as Hat by (apply t_move, (place_on k Hk)).
  assert (∀ p, t_cell t1 p = t_cell t p ∧ t_attr t1 = t_attr t) as H1 by (intros p; by apply t_harmless).
  assert (∃ t2, feed t1 (cmds ++ [PutChar (new_screen s k)]) = t_do (PutChar (new_screen s k)) t2 ∧
    (∀ p, t_cell t2 p = t_cell t p) ∧ t_attr t2 = c ∧ t_at t2 = place k) as (t2 & Ef & Hc2 & Ha2 & Hat2).
  { destruct Hcmds as [->|[-> Hl]].
    - assert (is_color (t_attr t1)) as Hc1 by (by rewrite (proj2 (H1 (place k))), Ha).
      exists (t_do (SetColor c) t1). split; [done|]. split_and!.
      + intros p. rewrite (proj1 (t_color c t1 p Hcol Hc1)). apply H1.
      + apply (t_color c t1 (place k) Hcol Hc1).
      + by rewrite (proj2 (proj2 (t_color c t1 (place k) Hcol Hc1))).
    - exists t1. split_and!; [done|apply H1| |done]. rewrite (proj2 (H1 (place k))). congruence. }
  change (foldl (fun t0 c0 => t_do c0 t0) t1 (cmds ++ [PutChar (new_screen s k)]))
    with (feed t1 (cmds ++ [PutChar (new_screen s k)])). rewrite Ef.
  assert (on_screen (t_at t2).1 (t_at t2).2) as Hon by (rewrite Hat2; by apply place_on).
  split.
  - intros j Hj. destruct (t_put (new_screen s k) t2 (place j) Hp Hon) as [-> _]. rewrite Hat2. cbn.
    destruct (decide (j = k)) as [->|Hne].
    + rewrite decide_True by done. rewrite !fn_lookup_insert. by cbn.
    + rewrite decide_False by (intros E; by apply place_inj in E). rewrite !fn_lookup_insert_ne by done.
      rewrite Hc2. by apply Hs.
  - destruct (t_put (new_screen s k) t2 (place k) Hp Hon) as [_ ->]. done.
Qed.

(** The buffers after cell [k] was printed, [mid] between the move and the character. *)
Definition painted (s : screen) (k c : Z) (mid : list vt100) : screen :=
  set_last_color c (set_old (<[k := new_screen s k]> (old_screen s)) (<[k := c]> (old_color s))
    (foldl (fun s c => emit1 c s) s
      (MoveCursor (k mod SCREEN_WIDTH + 1) (k / SCREEN_WIDTH + 1) :: mid ++ [PutChar (new_screen s k)]))).

Lemma painted_repainted s k c mid :
  mid = [SetColor c] ∨ mid = [] ∧ last_color s = c →
  repainted s (painted s k c mid) k c
    (MoveCursor (k mod SCREEN_WIDTH + 1) (k / SCREEN_WIDTH + 1) :: mid ++ [PutChar (new_screen s k)]).
Proof.
  intros Hmid. split.
  - by destruct Hmid as [->|[-> _]].
  - destruct Hmid as [->|[-> _]]; cbn; by rewrite <- !app_assoc.
  - destruct Hmid as [->|[-> _]]; cbn; by rewrite !fn_lookup_insert.
  - intros j Hj. destruct Hmid as [->|[-> _]]; cbn; by rewrite !fn_lookup_insert_ne.
  - intros t Hk Hp Hcol Hs. pose proof (print_shows t s k c mid Hk Hp Hcol Hs Hmid) as Hsh. by destruct Hmid as [->|[-> _]].
Qed.

Lemma reflush_cell_run s color k :
  cell k → let c := shade_step (color_trigger s) color k in
  ∃ s' cmds, reflush_cell color k (k mod SCREEN_WIDTH) (k / SCREEN_WIDTH) s = Ok (c, s') ∧ repainted s s' k c cmds.
Proof.
  intros Hk c. unfold reflush_cell, get_trigger, put_old. rewrite (in_screen_cell k Hk). cbn [asserts]. mrun.
  change (if color_trigger s k =? 0 then color else if color_trigger s k >? 0 then color_trigger s k else 0) with c.
  destruct (negb (new_screen s k =? old_screen s k) || negb (c =? old_color s k)) eqn:E.
  - destruct (negb (c =? old_color s k) || negb (last_color s =? c)) eqn:Ec.
    + do 2 eexists. split; [|apply (painted_repainted s k c [SetColor c]); by left]. done.
    + apply orb_false_iff in Ec as [_ El]. apply negb_false_iff, Z.eqb_eq in El.
      do 2 eexists. split; [|apply (painted_repainted s k c []); by right]. done.
  - apply orb_false_iff in E as [En Ec]. apply negb_false_iff, Z.eqb_eq in En, Ec.
    exists s, []. split; [done|]. split; [done|by rewrite app_nil_r|by rewrite En, Ec|done|done].
Qed.

(** ** The whole screen *)
Lemma reflush_loop_run (n : nat) s a :
  0 ≤ a → a + Z.of_nat n = SCREEN_CELLS →
  ∃ s' cmds, reflush_loop (shade (color_trigger s) a) (seqZ a (Z.of_nat n)) s =
      Ok (shade (color_trigger s) SCREEN_CELLS, s') ∧
    new_screen s' = new_screen s ∧ color_trigger s' = color_trigger s ∧ cursor_x s' = cursor_x s ∧ cursor_y s' = cursor_y s ∧
    out s' = out s ++ cmds ∧
    (∀ k, a ≤ k < SCREEN_CELLS → old_screen s' k = new_screen s k ∧ old_color s' k = shade (color_trigger s) (k + 1)) ∧
    (∀ k, k < a → old_screen s' k = old_screen s k ∧ old_color s' k = old_color s k) ∧
    (∀ t, text s → shows t s → shows (feed t cmds) s').
Proof.
  revert s a. induction n as [|n IH]; intros s a Ha Hn.
  { exists s, []. rewrite Z.add_0_r in Hn. subst a. split_and!; try done; [by rewrite app_nil_r|lia]. }
  rewrite (seqZ_cons a (Z.of_nat (S n))) by lia. replace (Z.pred (Z.of_nat (S n))) with (Z.of_nat n) by lia.
  assert (cell a) as Hk by (unfold cell; lia). cbn [reflush_loop].
  destruct (reflush_cell_run s (shade (color_trigger s) a) a Hk) as (s1 & c1 & Hs1 & [(F1 & F2 & F3 & F4) Fo [Fc1 Fc2] Fj Fs]).
  rewrite (bind_Ok _ _ _ _ _ Hs1). rewrite <- shade_succ in Fc2 |- * by done. unfold Z.succ.
  destruct (IH s1 (a + 1)) as (s' & c2 & Hs' & G1 & G2 & G3 & G4 & Go & Gk & Gl & Gs); [lia|lia|].
  exists s', (c1 ++ c2). rewrite F2 in *. split_and!; [exact Hs'|congruence|congruence|congruence|congruence| | | |].
  - by rewrite Go, Fo, app_assoc.
  - intros k Hkr. destruct (decide (k = a)) as [->|Hne].
    + destruct (Gl a) as [-> ->]; [lia|]. done.
    + rewrite <- F1. apply Gk. lia.
  - intros k Hkl. destruct (Gl k) as [-> ->]; [lia|]. apply Fj. lia.
  - intros t Ht Hs. rewrite feed_app. apply Gs.
    + intros k Hkc. rewrite F1, F2. by apply Ht.
    + apply Fs; [done|by apply Ht| |done]. rewrite <- shade_succ by done.
      apply shade_color; [lia|]. intros k Hkc. by apply Ht.
Qed.

(** After [screen_reflush], the terminal shows the buffer. *)
Lemma reflush_run s :
  ∃ s' cmds, screen_reflush s = Ok (tt, s') ∧ out s' = out s ++ cmds ∧
    (new_screen s' = new_screen s ∧ color_trigger s' = color_trigger s) ∧
    (∀ k, cell k → old_screen s' k = new_screen s k ∧ old_color s' k = shade (color_trigger s) (k + 1)) ∧
    (∀ t, text s → shows t s → shows (feed t cmds) s').
Proof.
  destruct (reflush_loop_run (Z.to_nat SCREEN_CELLS) s 0) as (s' & cmds & Hs' & G1 & G2 & G3 & G4 & Go & Gk & _ & Gs);
    [lia|rewrite Z2Nat.id by done; lia|].
  rewrite Z2Nat.id in Hs' by done. set (m := MoveCursor (cursor_x s' + 1) (cursor_y s' + 1)).
  exists (emit1 m s'), (cmds ++ [m]). split_and!.
  - unfold screen_reflush. by rewrite (bind_Ok _ _ _ _ _ Hs').
  - cbn. by rewrite Go, app_assoc.
  - done.
  - done.
  - intros k Hk. apply Gk. unfold cell in Hk. lia.
  - intros t Ht Hs. rewrite feed_app. destruct (Gs t Ht Hs) as (Hc & Ha & Hlc). cbn [feed foldl].
    assert (∀ p, t_cell (t_do m (feed t cmds)) p = t_cell (feed t cmds) p ∧ t_attr (t_do m (feed t cmds)) = t_attr (feed t cmds)) as Hm
      by (intros p; by apply t_harmless).
    split; [|split; [by rewrite (proj2 (Hm (1, 1))) | exact Hlc]]. intros k Hk. rewrite (proj1 (Hm (place k))). by apply Hc.
Qed.
End terminal.

(** ** The other operations leave the terminal's cells alone *)
Definition quiet {A} (m : SC A) : Prop := ∀ s r s', m s = Ok (r, s') →
  old_screen s' = old_screen s ∧ old_color s' = old_color s ∧ last_color s' = last_color s ∧
  (∃ cmds, out s' = out s ++ cmds ∧ Forall (fun c => harmless c = true) cmds) ∧ (text s → text s').

Create HintDb screen.

Lemma quiet_bind {A B} (m : SC A) (k : A → SC B) : quiet m → (∀ a, quiet (k a)) → quiet (bind m k).
Proof.
  intros Hm Hk s r s' (a & s1 & H1 & H2)%bind_Ok_inv.
  destruct (Hm _ _ _ H1) as (E1 & E2 & E3 & (c1 & Eo1 & Hc1) & Ht1).
  destruct (Hk a _ _ _ H2) as (F1 & F2 & F3 & (c2 & Fo2 & Hc2) & Ft2).
  split_and!; [congruence|congruence|congruence| |auto].
  exists (c1 ++ c2). rewrite Fo2, Eo1, app_assoc. split; [done|]. by apply Forall_app.
Qed.

Lemma quiet_pure {A} (f : screen → A) : quiet (gets f).
Proof. intros s r s' [= <- <-]. split_and!; try done. exists []. by rewrite app_nil_r. Qed.
Lemma quiet_ret {A} (a : A) : quiet (ret a).
Proof. intros s r s' [= <- <-]. split_and!; try done. exists []. by rewrite app_nil_r. Qed.
Lemma quiet_asserts b msg : quiet (asserts b msg).
Proof. destruct b; [apply quiet_ret|intros s r s' [=]]. Qed.
Lemma quiet_cursor f : quiet (modify (fun s => set_cursor (f s).1 (f s).2 s)).
Proof. intros s r s' [= <- <-]. split_and!; try done. exists []. by rewrite app_nil_r. Qed.
Lemma quiet_scroll a b : quiet (modify (set_scroll a b)).
Proof. intros s r s' [= <- <-]. split_and!; try done. exists []. by rewrite app_nil_r. Qed.
Lemma quiet_emit c : harmless c = true → quiet (emit c).
Proof. intros Hc s r s' [= <- <-]. split_and!; try done. exists [c]. split; [done|]. by constructor. Qed.

Lemma quiet_put_trigger k v : is_color (Z.abs v) → quiet (put_trigger k v).
Proof.
  intros Hv. apply quiet_bind; [apply quiet_asserts|]. intros _ s r s' [= <- <-]. split_and!; try done.
  - exists []. by rewrite app_nil_r.
  - intros Ht j Hj. cbn. destruct (decide (j = k)) as [->|]; [rewrite fn_lookup_insert; split; [by apply Ht | done]|].
    rewrite fn_lookup_insert_ne by done. by apply Ht.
Qed.
Lemma quiet_put_new k v : printable v → quiet (put_new k v).
Proof.
  intros Hv. apply quiet_bind; [apply quiet_asserts|]. intros _ s r s' [= <- <-]. split_and!; try done.
  - exists []. by rewrite app_nil_r.
  - intros Ht j Hj. cbn. destruct (decide (j = k)) as [->|]; [rewrite fn_lookup_insert; split; [done | by apply Ht]|].
    rewrite fn_lookup_insert_ne by done. by apply Ht.
Qed.
(** Copying a cell keeps the buffer printable. *)
Lemma quiet_copy i j : quiet (v <- get_new i ;; put_new j v).
Proof.
  intros s r s' Hr. unfold get_new, put_new in Hr.
  destruct (in_screen i) eqn:Ei; [|done]. destruct (in_screen j) eqn:Ej; [|done]. cbn in Hr. injection Hr as <- <-.
  split_and!; try done.
  - exists []. by rewrite app_nil_r.
  - intros Ht k Hk. cbn. destruct (decide (k = j)) as [->|].
    + rewrite fn_lookup_insert. split; [|by apply Ht]. apply (Ht i). unfold in_screen in Ei. unfold cell. lia.
    + rewrite fn_lookup_insert_ne by done. by apply Ht.
Qed.
Lemma quiet_copy_trigger i j : quiet (t <- get_trigger i ;; put_trigger j t).
Proof.
  intros s r s' Hr. unfold get_trigger, put_trigger in Hr.
  destruct (in_screen i) eqn:Ei; [|done]. destruct (in_screen j) eqn:Ej; [|done]. cbn in Hr. injection Hr as <- <-.
  split_and!; try done.
  - exists []. by rewrite app_nil_r.
  - intros Ht k Hk. cbn. destruct (decide (k = j)) as [->|].
    + rewrite fn_lookup_insert. split; [by apply Ht|]. apply (Ht i). unfold in_screen in Ei. unfold cell. lia.
    + rewrite fn_lookup_insert_ne by done. by apply Ht.
Qed.

Lemma quiet_for_each l f : (∀ i, quiet (f i)) → quiet (for_each l f).
Proof.
  intros Hf. induction l as [|i l IH]; cbn [for_each]; [apply quiet_ret|]. apply quiet_bind; auto.
Qed.
Lemma quiet_for_range a b f : (∀ i, quiet (f i)) → quiet (for_range a b f).
Proof. apply quiet_for_each. Qed.

Lemma space_printable : printable SPACE.
Proof. done. Qed.
Lemma zero_color : is_color (Z.abs 0).
Proof. by left. Qed.

#[export] Hint Resolve quiet_bind quiet_pure quiet_ret quiet_asserts quiet_scroll quiet_put_trigger quiet_put_new
  quiet_copy_trigger quiet_for_range space_printable zero_color : screen.
#[export] Hint Extern 1 (quiet (emit _)) => by apply quiet_emit : screen.
#[export] Hint Extern 2 (quiet (if ?b then _ else _)) => destruct b : screen.

Lemma quiet_set_cursor x y : quiet (modify (set_cursor x y)).
Proof. apply (quiet_cursor (fun _ => (x, y))). Qed.
#[export] Hint Resolve quiet_set_cursor : screen.

Lemma quiet_copy_then {A} i j (k : SC A) : quiet k → quiet (v <- get_new i ;; put_new j v ;; k).
Proof.
  intros Hk s r s' Hr. rewrite bind_assoc in Hr. revert Hr. apply quiet_bind; [apply quiet_copy|done].
Qed.
#[export] Hint Resolve quiet_copy_then : screen.
#[export] Hint Unfold blank_row : screen.

Lemma quiet_screen_scroll a b : quiet (screen_scroll a b).
Proof. unfold screen_scroll. auto 12 with screen. Qed.

Lemma quiet_blank_row y : quiet (blank_row y).
Proof. unfold blank_row. auto 12 with screen. Qed.
#[export] Hint Resolve quiet_screen_scroll quiet_blank_row : screen.

(** The characters [screen_write_ch] stores, and those it obeys. *)
Definition plain (ch : Z) : Prop := printable ch ∨ ch = 10 ∨ ch = 8 ∨ ch = 127.

Lemma quiet_write_ch ch : plain ch → quiet (screen_write_ch ch).
Proof.
  intros Hch. unfold screen_write_ch. apply quiet_bind; [apply quiet_pure|]. intros s.
  destruct (Z.eqb_spec ch 10); [auto 12 with screen|].
  destruct ((ch =? 8) || (ch =? 127)) eqn:E; [auto 12 with screen|].
  assert (printable ch) by (unfold plain, printable in *; lia). auto 12 with screen.
Qed.

Lemma quiet_write buff : Forall plain buff → quiet (screen_write buff).
Proof.
  induction 1 as [|ch buff Hch _ IH]; cbn [screen_write]; [apply quiet_ret|].
  apply quiet_bind; [by apply quiet_write_ch|done].
Qed.

(** ** Runs *)
Inductive screen_op :=
| OpWrite (buff : list Z) | OpClear | OpReflush | OpMove (x y : Z) | OpRow (y : Z) | OpCol (x : Z)
| OpSetScroll (a b : Z) | OpClearScroll | OpSetColor (a b c : Z) | OpClearColor | OpDeleteLine (n : Z) | OpClearLines (a b : Z)
| OpSwitch (x y : Z).     (* another process runs, with its own cursor *)
Definition run_screen_op (op : screen_op) : SC unit :=
  match op with
  | OpWrite buff => screen_write buff
  | OpClear => screen_clear
  | OpReflush => screen_reflush
  | OpMove x y => screen_move_cursor x y
  | OpRow y => screen_move_cursor_row y
  | OpCol x => screen_move_cursor_col x
  | OpSetScroll a b => screen_set_scroll a b
  | OpClearScroll => screen_clear_scroll
  | OpSetColor a b c => screen_set_color a b c
  | OpClearColor => screen_clear_color
  | OpDeleteLine n => screen_delete_line n
  | OpClearLines a b => screen_clear_lines a b
  | OpSwitch x y => modify (set_cursor x y)
  end.
Strategy expand [run_screen_op].
Fixpoint run_screen (ops : list screen_op) : SC unit :=
  match ops with [] => ret tt | op :: ops => run_screen_op op ;; run_screen ops end.
Definition plain_op (op : screen_op) : Prop :=
  match op with OpWrite buff => Forall plain buff | OpSetColor _ _ c => is_color (Z.abs c) | _ => True end.

Lemma quiet_op op : plain_op op → op ≠ OpClear → op ≠ OpReflush → quiet (run_screen_op op).
Proof.
  intros Hp H1 H2. destruct op; cbn [run_screen_op]; [|by destruct H1|by destruct H2|..].
  - by apply quiet_write.
  - unfold screen_move_cursor. auto 12 with screen.
  - unfold screen_move_cursor_row. apply quiet_bind; [|auto with screen].
    apply (quiet_cursor (fun s => (cursor_x s, clamp SCREEN_HEIGHT y))).
  - unfold screen_move_cursor_col. apply quiet_bind; [|auto with screen].
    apply (quiet_cursor (fun s => (clamp SCREEN_WIDTH x, cursor_y s))).
  - unfold screen_set_scroll. destruct (_ || (a >=? b)); [apply quiet_ret|apply quiet_scroll].
  - apply quiet_scroll.
  - unfold screen_set_color. cbn in Hp. assert (is_color (Z.abs (- c))) by (by rewrite Z.abs_opp). auto 12 with screen.
  - unfold screen_clear_color. auto 12 with screen.
  - unfold screen_delete_line. destruct (n <=? 0); [apply quiet_ret|]. apply quiet_bind.
    + apply quiet_for_range. intros i. apply quiet_bind; [apply quiet_pure|]. intros y.
      apply quiet_bind; [auto with screen|]. intros _. apply (quiet_cursor (fun s => (cursor_x s, cursor_y s - 1))).
    + intros _. apply (quiet_cursor (fun s => (0, cursor_y s + 1))).
  - unfold screen_clear_lines. auto with screen.
  - apply quiet_set_cursor.
Qed.

Section runs.
Context {T : Type} `{Terminal T}.

(** The terminal that got what was sent since [s0] shows the old buffers. *)
Definition in_step (t : T) (s0 s : screen) : Prop :=
  ∃ sent, out s = out s0 ++ sent ∧ shows (feed t sent) s ∧ text s.

Lemma harmless_shows t cmds s s' :
  Forall (fun c => harmless c = true) cmds → old_screen s' = old_screen s → old_color s' = old_color s →
  last_color s' = last_color s → shows t s → shows (feed t cmds) s'.
Proof.
  intros Hc E1 E2 E3 (Hs & Ha & Hlc). assert (∀ p, t_cell (feed t cmds) p = t_cell t p ∧ t_attr (feed t cmds) = t_attr t) as Hf.
  { clear Hs Ha. revert t. induction Hc as [|c cmds Hc _ IH]; intros t p; [done|].
    change (feed t (c :: cmds)) with (feed (t_do c t) cmds). destruct (t_harmless c t p Hc) as [F1 F2]. destruct (IH (t_do c t) p) as [-> ->]. done. }
  unfold shows. rewrite E1, E2, E3, (proj2 (Hf (1, 1))). split; [|done]. intros k Hk. rewrite (proj1 (Hf _)). by apply Hs.
Qed.

Lemma quiet_in_step (m : SC unit) t s0 s s' : quiet m → m s = Ok (tt, s') → in_step t s0 s → in_step t s0 s'.
Proof.
  intros Hq Hm (sent & Eo & Hs & Ht). destruct (Hq _ _ _ Hm) as (E1 & E2 & E3 & (c & Ec & Hc) & Ht').
  exists (sent ++ c). split; [by rewrite Ec, Eo, app_assoc|]. rewrite feed_app. split; [|auto].
  by apply (harmless_shows _ _ s).
Qed.

Lemma reflush_in_step t s0 s s' : screen_reflush s = Ok (tt, s') → in_step t s0 s → in_step t s0 s'.
Proof.
  intros Hm (sent & Eo & Hs & Ht). destruct (reflush_run s) as (s1 & c & Hs1 & Ec & [En Et] & _ & Hsh).
  rewrite Hm in Hs1. injection Hs1 as <-. exists (sent ++ c). split; [by rewrite Ec, Eo, app_assoc|].
  rewrite feed_app. split; [by apply Hsh|]. intros k Hk. rewrite En, Et. by apply Ht.
Qed.

(** The loop of [screen_clear]. *)
Lemma blank_loop_run (n : nat) s a :
  0 ≤ a → a + Z.of_nat n ≤ SCREEN_CELLS →
  ∃ s', for_each (seqZ a (Z.of_nat n)) (fun k =>
      put_new k SPACE ;; c <- gets (fun s => old_color s k) ;; put_old k SPACE c) s = Ok (tt, s') ∧
    out s' = out s ∧ last_color s' = last_color s ∧
    (∀ k, a ≤ k < a + Z.of_nat n → new_screen s' k = SPACE ∧ old_screen s' k = SPACE) ∧
    (∀ k, k < a → new_screen s' k = new_screen s k ∧ old_screen s' k = old_screen s k).
Proof.
  revert s a. induction n as [|n IH]; intros s a Ha Hn; [exists s; split_and!; try done; lia|].
  rewrite (seqZ_cons a (Z.of_nat (S n))) by lia. replace (Z.pred (Z.of_nat (S n))) with (Z.of_nat n) by lia.
  cbn [for_each]. assert (in_screen a = true) as Hin by (apply in_screen_cell; unfold cell; lia).
  set (s1 := set_old (<[a := SPACE]> (old_screen s)) (<[a := old_color s a]> (old_color s)) (set_new (<[a := SPACE]> (new_screen s)) s)).
  rewrite (bind_Ok _ _ s tt s1) by (unfold put_new, put_old; by rewrite Hin).
  destruct (IH s1 (Z.succ a)) as (s' & Hs' & Eo & El & Hk & Hlow); [lia|lia|].
  exists s'. split_and!; [done|done|done|..].
  - intros k Hkr. destruct (decide (k = a)) as [->|]; [|apply Hk; lia].
    destruct (Hlow a) as [-> ->]; [lia|]. cbn. by rewrite !fn_lookup_insert.
  - intros k Hkl. destruct (Hlow k) as [-> ->]; [lia|]. cbn. by rewrite !fn_lookup_insert_ne by lia.
Qed.

Lemma blank_run s :
  ∃ s', for_range 0 SCREEN_CELLS (fun k =>
      put_new k SPACE ;; c <- gets (fun s => old_color s k) ;; put_old k SPACE c) s = Ok (tt, s') ∧
    out s' = out s ∧ last_color s' = last_color s ∧
    (∀ k, cell k → new_screen s' k = SPACE ∧ old_screen s' k = SPACE).
Proof.
  unfold for_range, cell. rewrite Z.sub_0_r. assert (SCREEN_CELLS = Z.of_nat (Z.to_nat SCREEN_CELLS)) as E by (symmetry; by apply Z2Nat.id).
  destruct (blank_loop_run (Z.to_nat SCREEN_CELLS) s 0) as (s1 & Hs1 & Eo1 & El1 & Hk1 & _); [lia|lia|].
  rewrite <- E in Hs1, Hk1. exists s1. split; [exact Hs1|]. split; [exact Eo1|]. split; [exact El1|].
  intros k Hk. apply Hk1. exact Hk.
Qed.

Lemma screen_clear_run s :
  ∃ s1, screen_clear s = screen_reflush (set_trigger (fun _ => 0) (set_cursor 0 0 s1)) ∧
    out s1 = out s ++ [Clear] ∧ last_color s1 = last_color s ∧
    (∀ k, cell k → new_screen s1 k = SPACE ∧ old_screen s1 k = SPACE).
Proof.
  destruct (blank_run (emit1 Clear s)) as (s1 & Hs1 & Hrest). exists s1. split; [|exact Hrest].
  unfold screen_clear. rewrite (bind_Ok _ _ s tt (emit1 Clear s)) by reflexivity.
  rewrite (bind_Ok _ _ _ _ _ Hs1). rewrite (bind_Ok (modify (set_cursor 0 0)) _ s1 tt (set_cursor 0 0 s1) eq_refl).
  rewrite (bind_Ok (modify (set_trigger (fun _ => 0))) _ (set_cursor 0 0 s1) tt (set_trigger (fun _ => 0) (set_cursor 0 0 s1)) eq_refl).
  reflexivity.
Qed.

Lemma clear_in_step t s0 s s' : screen_clear s = Ok (tt, s') → in_step t s0 s → in_step t s0 s'.
Proof.
  intros Hm (sent & Eo & (Hs & Ha & Hlc) & Ht). destruct (screen_clear_run s) as (s1 & E & Eo1 & El1 & Hb). rewrite E in Hm.
  eapply reflush_in_step; [exact Hm|]. clear Hm E.
  exists (sent ++ [Clear]). split; [cbn; by rewrite Eo1, Eo, app_assoc|]. rewrite feed_app. cbn [feed foldl].
  split; [split; [|split]|].
  - intros k Hk. destruct (Hb k Hk) as [_ E]. cbn. rewrite E. split; [|by intros []]. by apply t_clear, place_on.
  - destruct (t_clear (feed t sent) (place 0) (place_on 0 ltac:(done))) as [_ E]. cbn. by rewrite El1, <- Ha.
  - cbn. by rewrite El1.
  - intros k Hk. cbn. rewrite (proj1 (Hb k Hk)). split; [done | by left].
Qed.

Lemma run_in_step t s0 ops s s' :
  Forall plain_op ops → run_screen ops s = Ok (tt, s') → in_step t s0 s → in_step t s0 s'.
Proof.
  intros Hops. revert s. induction Hops as [|op ops Hop _ IH]; intros s Hr Hs; [by injection Hr as <-|].
  apply bind_Ok_inv in Hr as ([] & s1 & H1 & H2). apply (IH s1 H2).
  destruct op; cbn [run_screen_op] in H1; lazymatch type of H1 with
  | screen_clear _ = _ => exact (clear_in_step t s0 s s1 H1 Hs)
  | screen_reflush _ = _ => exact (reflush_in_step t s0 s s1 H1 Hs)
  | _ => refine (quiet_in_step _ t s0 s s1 (quiet_op _ Hop _ _) H1 Hs); discriminate
  end.
Qed.
End runs.


(** ** A terminal, and a first line of text *)
Record grid := mk_grid { g_cell : Z * Z → Z * Z; g_at : Z * Z; g_attr : Z }.
Definition grid_do (c : vt100) (t : grid) : grid :=
  match c with
  | MoveCursor x y => mk_grid (g_cell t) (x, y) (g_attr t)
  | MoveCursorX x => mk_grid (g_cell t) (x, (g_at t).2) (g_attr t)
  | MoveCursorY y => mk_grid (g_cell t) ((g_at t).1, y) (g_attr t)
  | Clear => mk_grid (fun _ => (SPACE, 0)) (g_at t) (g_attr t)
  | HideCursor => t
  | SetColor c => mk_grid (g_cell t) (g_at t) c
  | PutChar ch => mk_grid (fun p => if decide (p = g_at t) then (ch, g_attr t) else g_cell t p)
      ((g_at t).1 + 1, (g_at t).2) (g_attr t)
  end.
#[global] Instance grid_terminal : Terminal grid.
Proof.
  refine {| t_do := grid_do; t_cell := g_cell; t_at := g_at; t_attr := g_attr |}; try done.
  intros c t p. by destruct c.
Defined.

Definition blank_screen : screen :=
  mk_screen (fun _ => SPACE) (fun _ => SPACE) (fun _ => 0) (fun _ => 0) (-1) (-1) 0 0 0 [].
Definition blank_grid : grid := mk_grid (fun _ => (SPACE, 0)) (1, 1) 0.
Definition demo_ops : list screen_op := [OpSetColor 0 1 31; OpWrite [72; 105; 10]].
Definition demo_screen : screen := match run_screen demo_ops blank_screen with Ok (_, s) => s | _ => blank_screen end.


(** The last column of the last row leaves the cursor on row 50, outside of the
    buffer: the next character is stored behind it. *)
Lemma write_below_screen_faults :
  run_screen [OpMove 79 49; OpWrite [65; 66]] blank_screen = Panic "fault".
Proof. reflexivity. Qed.

(** A backspace at the start of a row leaves the cursor on column -1. *)
Lemma backspace_leaves_column :
  match run_screen [OpMove 0 1; OpWrite [8]] blank_screen with Ok (_, s) => cursor_x s = -1 | _ => False end.
Proof. reflexivity. Qed.
