(* ===== verification/E1000.v ===== *)
(** * drivers/e1000.c: the descriptor rings of the network card

    The driver and the card share two rings of 64 descriptors. A descriptor and
    its packet buffer are one entry of the model; the registers the driver uses
    to hand entries over are TDH, TDT, RDH and RDT. [hw_step] is what the manual
    of the 8254x lets the card do on its own. The static [tail] of
    [e1000_transmit] and [head] of [e1000_poll] are fields of the state. *)

From S2P Require Import Prelude Bytes.

Definition TXDESCS : Z := 64.
Definition RXDESCS : Z := 64.
Definition TX_PKT_SIZE : Z := 2048.
Definition RX_PKT_SIZE : Z := 2048.
Definition TXD_CMD : Z := Z.lor (Z.lor 1 2) 8.        (* EOP | IFCS | RS *)
Definition ICR_TXQE : Z := 2.
Definition ICR_RXDMT0 : Z := 16.

Record tx_desc := mk_tx { tx_length : Z; tx_status : Z; tx_cmd : Z; tx_pkt : list Z }.
Record rx_desc := mk_rx { rx_length : Z; rx_status : Z; rx_pkt : list Z }.

Record nic := mk_nic {
  tx_desc_array : Z → tx_desc;
  rx_desc_array : Z → rx_desc;
  TDH : Z; TDT : Z; RDH : Z; RDT : Z;
  tail : Z;                          (* e1000_transmit *)
  head : Z;                          (* e1000_poll *)
  IMS : Z; ICR : Z;                  (* interrupt mask and causes *)
}.
Abbreviation NM := (M nic).

(** ** Initialisation

    A write to IMS sets the bits that are written, a write to IMC clears them;
    reading ICR clears it. *)
Definition write_IMS (v : Z) (s : nic) : nic :=
  mk_nic (tx_desc_array s) (rx_desc_array s) (TDH s) (TDT s) (RDH s) (RDT s) (tail s) (head s) (Z.lor (IMS s) v) (ICR s).
Definition set_ICR (v : Z) (s : nic) : nic :=
  mk_nic (tx_desc_array s) (rx_desc_array s) (TDH s) (TDT s) (RDH s) (RDT s) (tail s) (head s) (IMS s) v.

Definition e1000_reset (s : nic) : nic :=
  mk_nic (tx_desc_array s) (rx_desc_array s) 0 0 0 0 (tail s) (head s) 0 0.
Definition e1000_configure_tx (s : nic) : nic :=
  mk_nic (fun i => if (0 <=? i) && (i <? TXDESCS)
                   then mk_tx TX_PKT_SIZE 0 (tx_cmd (tx_desc_array s i)) (tx_pkt (tx_desc_array s i))
                   else tx_desc_array s i)
    (rx_desc_array s) 0 0 (RDH s) (RDT s) (tail s) (head s) (IMS s) (ICR s).
(** The loop of the source runs over [TXDESCS]. *)
Definition e1000_configure_rx (s : nic) : nic :=
  mk_nic (tx_desc_array s)
    (fun i => if (0 <=? i) && (i <? TXDESCS)
              then mk_rx (rx_length (rx_desc_array s i)) 0 (rx_pkt (rx_desc_array s i))
              else rx_desc_array s i)
    (TDH s) (TDT s) 0 (RXDESCS - 1) (tail s) (head s) (Z.lor (IMS s) ICR_RXDMT0) (ICR s).
Definition e1000_init (s : nic) : nic := e1000_configure_rx (e1000_configure_tx (e1000_reset s)).

(** ** Sending and receiving *)
Definition e1000_transmit (txpacket : list Z) : NM Z := fun s =>
  let len := Z.of_nat (length txpacket) in
  if negb (len <=? TX_PKT_SIZE) then Panic "length exceeds maximum" else
  let next := (tail s + 1) mod TXDESCS in
  if TDH s =? next then Ok (0, s) else
  let d := mk_tx len 0 TXD_CMD (overlay txpacket (tx_pkt (tx_desc_array s (tail s)))) in
  Ok (len, mk_nic (<[tail s := d]> (tx_desc_array s)) (rx_desc_array s) (TDH s) next (RDH s) (RDT s) next
    (head s) (IMS s) (ICR s)).

(** The bytes copied to [rxbuffer]; none when there is no packet. *)
Definition e1000_poll : NM (list Z) := fun s =>
  let d := rx_desc_array s (head s) in
  if rx_status d =? 0 then Ok ([], s) else
  Ok (take (Z.to_nat (rx_length d)) (rx_pkt d),
    mk_nic (tx_desc_array s) (<[head s := mk_rx (rx_length d) 0 (rx_pkt d)]> (rx_desc_array s))
      (TDH s) (TDT s) (RDH s) (head s) (tail s) ((head s + 1) mod RXDESCS) (IMS s) (ICR s)).

(** ** Interrupts *)
Definition e1000_enable_txqe (s : nic) : nic := write_IMS (Z.lor (IMS s) ICR_TXQE) s.
Definition e1000_disable_txqe (s : nic) : nic := write_IMS (Z.ldiff (IMS s) ICR_TXQE) s.

(** ** What the card does *)
Definition TXD_STAT_DD : Z := 1.
Definition RXD_STAT_DD : Z := 1.
Inductive wire := Sent (p : list Z) | Received (p : list Z).
Inductive hw_step : nic → wire → nic → Prop :=
| hw_send s d :
    TDH s ≠ TDT s → d = tx_desc_array s (TDH s) →
    hw_step s (Sent (take (Z.to_nat (tx_length d)) (tx_pkt d)))
      (mk_nic (<[TDH s := mk_tx (tx_length d) TXD_STAT_DD (tx_cmd d) (tx_pkt d)]> (tx_desc_array s)) (rx_desc_array s)
        ((TDH s + 1) mod TXDESCS) (TDT s) (RDH s) (RDT s) (tail s) (head s) (IMS s) (ICR s))
| hw_receive s p :
    RDH s ≠ RDT s → 0 < Z.of_nat (length p) ≤ RX_PKT_SIZE →
    hw_step s (Received p)
      (mk_nic (tx_desc_array s)
        (<[RDH s := mk_rx (Z.of_nat (length p)) RXD_STAT_DD (overlay p (rx_pkt (rx_desc_array s (RDH s))))]> (rx_desc_array s))
        (TDH s) (TDT s) ((RDH s + 1) mod RXDESCS) (RDT s) (tail s) (head s) (IMS s) (ICR s)).

(** ** Runs of the driver and the card *)
Record traffic := mk_traffic {
  asked : list (list Z);        (* packets e1000_transmit accepted *)
  wired : list (list Z);        (* packets the card sent *)
  arrived : list (list Z);      (* packets the card received *)
  delivered : list (list Z);    (* packets e1000_poll returned *)
}.
Inductive nic_step : nic * traffic → nic * traffic → Prop :=
| step_transmit s s' tr p n :
    p ≠ [] → e1000_transmit p s = Ok (n, s') →
    nic_step (s, tr) (s', mk_traffic (if n =? 0 then asked tr else asked tr ++ [p]) (wired tr) (arrived tr) (delivered tr))
| step_poll s s' tr p :
    e1000_poll s = Ok (p, s') →
    nic_step (s, tr) (s', mk_traffic (asked tr) (wired tr) (arrived tr)
      (if decide (p = []) then delivered tr else delivered tr ++ [p]))
| step_wire_out s s' tr p :
    hw_step s (Sent p) s' → nic_step (s, tr) (s', mk_traffic (asked tr) (wired tr ++ [p]) (arrived tr) (delivered tr))
| step_wire_in s s' tr p :
    hw_step s (Received p) s' → nic_step (s, tr) (s', mk_traffic (asked tr) (wired tr) (arrived tr ++ [p]) (delivered tr))
| step_cause s tr v : nic_step (s, tr) (set_ICR v s, tr)          (* the card raises causes, the handler reads them *)
| step_enable s tr : nic_step (s, tr) (e1000_enable_txqe s, tr)
| step_disable s tr : nic_step (s, tr) (e1000_disable_txqe s, tr).

(** ** Rings *)
Definition index (n i : Z) : Prop := 0 ≤ i < n.
(** The entries from [a] on, [k] of them, in ring order. *)
Definition ring {A} (n : Z) (f : Z → A) (a : Z) (k : nat) : list A :=
  (fun j => f ((a + j) mod n)) <$> seqZ 0 (Z.of_nat k).

Lemma ring_S_l {A} n (f : Z → A) a k : 0 < n → ring n f a (S k) = f (a mod n) :: ring n f ((a + 1) mod n) k.
Proof.
  intros Hn. unfold ring. rewrite seqZ_cons by lia. rewrite fmap_cons, Z.add_0_r. f_equal.
  replace (Z.pred (Z.of_nat (S k))) with (Z.of_nat k) by lia.
  apply list_eq. intros i. rewrite !list_lookup_fmap.
  destruct (decide (Z.of_nat i < Z.of_nat k)).
  - rewrite !lookup_seqZ_lt by lia. cbn. f_equal. f_equal. rewrite Z.add_mod_idemp_l by lia. f_equal. lia.
  - by rewrite !lookup_seqZ_ge by lia.
Qed.

Lemma ring_S_r {A} n (f : Z → A) a k : ring n f a (S k) = ring n f a k ++ [f ((a + Z.of_nat k) mod n)].
Proof.
  unfold ring. replace (Z.of_nat (S k)) with (Z.of_nat k + 1) by lia. rewrite seqZ_app, fmap_app by lia. done.
Qed.

Lemma ring_same {A} n (f g : Z → A) a k :
  (∀ j, 0 ≤ j < Z.of_nat k → f ((a + j) mod n) = g ((a + j) mod n)) → ring n f a k = ring n g a k.
Proof. intros Hfg. apply list_fmap_ext. intros i j Hj. apply lookup_seqZ in Hj as [-> Hj]. apply Hfg. lia. Qed.

Definition tx_bytes (d : tx_desc) : list Z := take (Z.to_nat (tx_length d)) (tx_pkt d).
Definition rx_bytes (d : rx_desc) : list Z := take (Z.to_nat (rx_length d)) (rx_pkt d).

(** The packets in the rings are the ones on their way, in order; a receive
    entry is marked exactly when it is between [head] and RDH. *)
Record nic_ok (s : nic) (tr : traffic) : Prop := {
  nk_tx : index TXDESCS (TDH s) ∧ index TXDESCS (tail s) ∧ TDT s = tail s;
  nk_rx : index RXDESCS (RDH s) ∧ index RXDESCS (head s) ∧ RDT s = (head s - 1) mod RXDESCS;
  nk_out : asked tr = wired tr ++
    (tx_bytes <$> ring TXDESCS (tx_desc_array s) (TDH s) (Z.to_nat ((tail s - TDH s) mod TXDESCS)));
  nk_in : arrived tr = delivered tr ++
    (rx_bytes <$> ring RXDESCS (rx_desc_array s) (head s) (Z.to_nat ((RDH s - head s) mod RXDESCS)));
  nk_mark i : index RXDESCS i → (rx_status (rx_desc_array s i) ≠ 0 ↔ (i - head s) mod RXDESCS < (RDH s - head s) mod RXDESCS);
  nk_full p : p ∈ (rx_bytes <$> ring RXDESCS (rx_desc_array s) (head s) (Z.to_nat ((RDH s - head s) mod RXDESCS))) → p ≠ [];
}.

(** Arithmetic of ring positions: a distance and a successor, by cases. *)
Lemma ring_sub n a b : index n a → index n b → (a - b) mod n = if b <=? a then a - b else a - b + n.
Proof.
  unfold index. intros Ha Hb. destruct (Z.leb_spec b a); [rewrite Z.mod_small; lia|].
  rewrite <- (Z_mod_plus_full (a - b) 1 n), Z.mul_1_l. apply Z.mod_small. lia.
Qed.
Lemma ring_next n a : index n a → (a + 1) mod n = if a =? n - 1 then 0 else a + 1.
Proof.
  unfold index. intros Ha. destruct (Z.eqb_spec a (n - 1)) as [->|]; [|rewrite Z.mod_small; lia].
  rewrite Z.sub_add. apply Z_mod_same_full.
Qed.
Lemma ring_next_index n a : index n a → index n ((a + 1) mod n).
Proof. unfold index. intros Ha. apply Z.mod_pos_bound. lia. Qed.
Lemma ring_at n a b : index n a → index n b → (b + (a - b) mod n) mod n = a.
Proof. unfold index. intros Ha Hb. rewrite Z.add_mod_idemp_r by lia. rewrite Zplus_minus. by apply Z.mod_small. Qed.
Lemma one_rx : index RXDESCS 1.
Proof. done. Qed.
#[local] Hint Resolve ring_next_index one_rx : core.

(** Decides goals over positions of a ring of 64, with every position an
    [index] of the context. *)
Ltac ring_lia :=
  repeat rewrite ring_sub in * by eauto; repeat rewrite ring_next in * by eauto;
  unfold index, TXDESCS, RXDESCS in *; repeat case_match; lia.

Lemma ring_insert_out {A} n (f : Z → A) a k b v :
  0 < n → index n b → Z.of_nat k ≤ (b - a) mod n → ring n (<[b := v]> f) a k = ring n f a k.
Proof.
  intros Hn Hb Hk. apply ring_same. intros j Hj. rewrite fn_lookup_insert_ne; [done|]. intros E.
  assert ((b - a) mod n = j mod n) as Ej.
  { rewrite E, Zminus_mod_idemp_l. f_equal. lia. }
  pose proof (Z.mod_pos_bound (b - a) n Hn). rewrite (Z.mod_small j) in Ej by lia. lia.
Qed.

Lemma transmit_ok s s' tr p n :
  nic_ok s tr → e1000_transmit p s = Ok (n, s') → p ≠ [] →
  nic_ok s' (mk_traffic (if n =? 0 then asked tr else asked tr ++ [p]) (wired tr) (arrived tr) (delivered tr)) ∧
  (n = 0 ↔ (tail s - TDH s) mod TXDESCS = TXDESCS - 1).
Proof.
  intros [Htx Hrx Hout Hin Hmark Hfull] Ht Hp. unfold e1000_transmit in Ht.
  destruct (Z.of_nat (length p) <=? TX_PKT_SIZE) eqn:El; [|done]. cbn [negb] in Ht.
  destruct Htx as (H1 & H2 & H3). destruct (Z.eqb_spec (TDH s) ((tail s + 1) mod TXDESCS)) as [E|E].
  - injection Ht as <- <-. cbn [Z.eqb]. split; [by split|]. split; [|done]. intros _. ring_lia.
  - injection Ht as <- <-. assert (0 < Z.of_nat (length p)) as Hl by (destruct p; [done|]; cbn; lia).
    rewrite (proj2 (Z.eqb_neq _ 0)) by lia. split.
    2:{ split; [lia|]. intros E'. exfalso. apply E. ring_lia. }
    split; cbn; try done.
    + split_and!; [done|ring_lia|done].
    + set (k := (tail s - TDH s) mod TXDESCS) in *.
      replace (Z.to_nat (((tail s + 1) mod TXDESCS - TDH s) mod TXDESCS)) with (S (Z.to_nat k)) by (unfold k; ring_lia).
      assert (0 ≤ k) as Hk by (unfold k; ring_lia).
      rewrite ring_S_r, Z2Nat.id by done. replace ((TDH s + k) mod TXDESCS) with (tail s) by (symmetry; by apply ring_at).
      rewrite fn_lookup_insert, fmap_app, ring_insert_out by (done || (unfold k; ring_lia)).
      rewrite Hout, <- app_assoc. do 2 f_equal. cbn. f_equal. symmetry. apply overlay_take.
Qed.

Lemma poll_ok s s' tr p :
  nic_ok s tr → e1000_poll s = Ok (p, s') →
  nic_ok s' (mk_traffic (asked tr) (wired tr) (arrived tr) (if decide (p = []) then delivered tr else delivered tr ++ [p])) ∧
  (p = [] ↔ RDH s = head s).
Proof.
  intros [Htx Hrx Hout Hin Hmark Hfull] Hp. unfold e1000_poll in Hp. destruct Hrx as (H1 & H2 & H3).
  pose proof (Hmark (head s) H2) as Hm. replace ((head s - head s) mod RXDESCS) with 0 in Hm by ring_lia.
  set (k := (RDH s - head s) mod RXDESCS) in *.
  destruct (Z.eqb_spec (rx_status (rx_desc_array s (head s))) 0) as [E|E].
  - injection Hp as <- <-. rewrite decide_True by done. split; [by split|]. split; [|done]. intros _.
    assert (¬ 0 < k) by tauto. unfold k in *. ring_lia.
  - apply Hm in E as Hk. assert (Z.to_nat k = S (Z.to_nat (k - 1))) as Ek by lia.
    rewrite Ek, ring_S_l, Z.mod_small, fmap_cons in Hin, Hfull by (done || ring_lia).
    injection Hp as <- <-. change (take (Z.to_nat (rx_length (rx_desc_array s (head s)))) (rx_pkt (rx_desc_array s (head s))))
      with (rx_bytes (rx_desc_array s (head s))).
    assert (rx_bytes (rx_desc_array s (head s)) ≠ []) as Hne by (apply Hfull; left).
    rewrite decide_False by done. split.
    2:{ split; [done|]. intros Eh. exfalso. unfold k in Hk. rewrite Eh in Hk. ring_lia. }
    assert ((RDH s - (head s + 1) mod RXDESCS) mod RXDESCS = k - 1) as Ek' by (unfold k in *; ring_lia).
    assert (ring RXDESCS (<[head s := mk_rx (rx_length (rx_desc_array s (head s))) 0 (rx_pkt (rx_desc_array s (head s)))]>
      (rx_desc_array s)) ((head s + 1) mod RXDESCS) (Z.to_nat (k - 1)) =
      ring RXDESCS (rx_desc_array s) ((head s + 1) mod RXDESCS) (Z.to_nat (k - 1))) as Er.
    { apply ring_insert_out; [done|done|]. unfold k in *. ring_lia. }
    split; cbn; try done.
    + split_and!; [done|ring_lia|ring_lia].
    + by rewrite Ek', Er, <- app_assoc.
    + intros i Hi. rewrite Ek'. destruct (decide (i = head s)) as [->|Hi'].
      * rewrite fn_lookup_insert. cbn. split; [done|]. intros Hlt. unfold k in *. ring_lia.
      * rewrite fn_lookup_insert_ne by done. rewrite (Hmark i Hi). unfold k in *. ring_lia.
    + rewrite Ek', Er. intros q Hq. apply Hfull. by right.
Qed.

Lemma hw_ok s w s' tr :
  nic_ok s tr → hw_step s w s' →
  nic_ok s' (match w with
    | Sent p => mk_traffic (asked tr) (wired tr ++ [p]) (arrived tr) (delivered tr)
    | Received p => mk_traffic (asked tr) (wired tr) (arrived tr ++ [p]) (delivered tr) end).
Proof.
  intros [Htx Hrx Hout Hin Hmark Hfull] Hw.
  destruct Hw as [s d Hne ->|s p Hne Hlen].
  - destruct Htx as (H1 & H2 & H3). set (k := (tail s - TDH s) mod TXDESCS) in *.
    assert (0 < k) as Hk by (unfold k; ring_lia). assert (Z.to_nat k = S (Z.to_nat (k - 1))) as Ek by lia.
    rewrite Ek, ring_S_l, Z.mod_small, fmap_cons in Hout by (done || ring_lia).
    split; cbn; try done.
    + split_and!; [ring_lia|done|done].
    + replace ((tail s - (TDH s + 1) mod TXDESCS) mod TXDESCS) with (k - 1) by (unfold k in *; ring_lia).
      rewrite ring_insert_out by (done || (unfold k in *; ring_lia)). by rewrite Hout, <- app_assoc.
  - destruct Hrx as (H1 & H2 & H3). set (k := (RDH s - head s) mod RXDESCS) in *.
    assert (k < RXDESCS - 1) as Hk by (unfold k; ring_lia). assert (0 ≤ k) as Hk0 by (unfold k; ring_lia).
    assert (((RDH s + 1) mod RXDESCS - head s) mod RXDESCS = k + 1) as Ek by (unfold k in *; ring_lia).
    set (d := mk_rx _ RXD_STAT_DD _). assert (rx_bytes d = p) as Ed by apply overlay_take.
    assert (rx_bytes <$> ring RXDESCS (<[RDH s := d]> (rx_desc_array s)) (head s) (Z.to_nat (k + 1)) =
      (rx_bytes <$> ring RXDESCS (rx_desc_array s) (head s) (Z.to_nat k)) ++ [p]) as Er.
    { replace (Z.to_nat (k + 1)) with (S (Z.to_nat k)) by lia. rewrite ring_S_r, Z2Nat.id by done.
      replace ((head s + k) mod RXDESCS) with (RDH s) by (symmetry; by apply ring_at).
      rewrite fn_lookup_insert, fmap_app, ring_insert_out by (done || (unfold k; ring_lia)). cbn. by rewrite Ed. }
    split; cbn; try done.
    + split_and!; [ring_lia|done|done].
    + by rewrite Ek, Er, Hin, app_assoc.
    + intros i Hi. rewrite Ek. destruct (decide (i = RDH s)) as [->|Hi'].
      * rewrite fn_lookup_insert. cbn. split; [|done]. intros _. unfold k. lia.
      * rewrite fn_lookup_insert_ne by done. rewrite (Hmark i Hi). unfold k in *. ring_lia.
    + rewrite Ek, Er. intros q [Hq| ->%list_elem_of_singleton]%elem_of_app; [by apply Hfull|].
      intros ->. cbn in Hlen. lia.
Qed.

(** After [e1000_init] the rings are empty. *)
Lemma init_ok s : tail s = 0 → head s = 0 → nic_ok (e1000_init s) (mk_traffic [] [] [] []).
Proof.
  intros Ht Hh. split; cbn; rewrite ?Ht, ?Hh; try done.
  - intros i Hi. assert ((0 <=? i) && (i <? TXDESCS) = true) as -> by (unfold index, RXDESCS, TXDESCS in *; lia). cbn.
    split; [done|]. pose proof (Z.mod_pos_bound (i - 0) RXDESCS eq_refl). change ((0 - 0) mod RXDESCS) with 0. lia.
  - cbn. set_solver.
Qed.

(** Entries of the two rings on their way. *)
Definition tx_waiting (s : nic) : nat := Z.to_nat ((tail s - TDH s) mod TXDESCS).
Definition rx_waiting (s : nic) : nat := Z.to_nat ((RDH s - head s) mod RXDESCS).

Lemma run_ok a b : rtc nic_step a b → nic_ok a.1 a.2 → nic_ok b.1 b.2.
Proof.
  induction 1 as [|a b c Hab _ IH]; [done|]. intros Ha. apply IH.
  destruct Hab as [s s' tr p n Hp Hs|s s' tr p Hs|s s' tr p Hw|s s' tr p Hw|s tr v|s tr|s tr]; cbn [fst snd] in *.
  - exact (proj1 (transmit_ok _ _ _ _ _ Ha Hs Hp)).
  - exact (proj1 (poll_ok _ _ _ _ Ha Hs)).
  - exact (hw_ok _ _ _ _ Ha Hw).
  - exact (hw_ok _ _ _ _ Ha Hw).
  - by destruct Ha.
  - by destruct Ha.
  - by destruct Ha.
Qed.

(** C29 The rings of the network card are two queues. From [e1000_init] on,
    through any interleaving of transmissions, polls and steps of the card: the
    packets the card has sent are a prefix of the packets [e1000_transmit]
    accepted, in order and byte for byte, and the rest are exactly those still
    in the ring; the packets [e1000_poll] returned are a prefix of those that
    arrived, and the rest are exactly the marked entries. [e1000_transmit]
    refuses a packet only when 63 are waiting, and [e1000_poll] returns nothing
    only when nothing is waiting. *)
Theorem nic_rings_are_queues s0 s tr :
  tail s0 = 0 → head s0 = 0 → rtc nic_step (e1000_init s0, mk_traffic [] [] [] []) (s, tr) →
  asked tr = wired tr ++ (tx_bytes <$> ring TXDESCS (tx_desc_array s) (TDH s) (tx_waiting s)) ∧
  arrived tr = delivered tr ++ (rx_bytes <$> ring RXDESCS (rx_desc_array s) (head s) (rx_waiting s)) ∧
  (∀ p n s', p ≠ [] → e1000_transmit p s = Ok (n, s') → (n = 0 ↔ tx_waiting s = 63%nat)) ∧
  (∀ p s', e1000_poll s = Ok (p, s') → (p = [] ↔ rx_waiting s = 0%nat)).
Proof.
  intros Ht Hh Hrun. pose proof (run_ok _ _ Hrun (init_ok s0 Ht Hh)) as Hok. cbn [fst snd] in Hok. split_and!.
  - apply Hok.
  - apply Hok.
  - intros p n s' Hp Hs'. destruct (nk_tx _ _ Hok) as (H1 & H2 & _). destruct (transmit_ok _ _ _ _ _ Hok Hs' Hp) as [_ ->]. unfold tx_waiting. ring_lia.
  - intros p s' Hs'. destruct (poll_ok _ _ _ _ Hok Hs') as [_ ->]. destruct (nk_rx _ _ Hok) as (H1 & H2 & _).
    unfold rx_waiting. ring_lia.
Qed.

(** A run that sends one packet, receives two and delivers one of them. *)
Definition idle_nic : nic := mk_nic (fun _ => mk_tx 0 0 0 []) (fun _ => mk_rx 0 0 []) 0 0 0 0 0 0 0 0.
Definition first_packets : nic * traffic :=
  let s0 := e1000_init idle_nic in
  let d p := mk_rx (Z.of_nat (length p)) 1 p in
  (mk_nic (<[0 := mk_tx 2 TXD_STAT_DD TXD_CMD [7; 8]]> (<[0 := mk_tx 2 0 TXD_CMD [7; 8]]> (tx_desc_array s0)))
     (<[0 := mk_rx 1 0 [5]]> (<[1 := d [6; 6; 6]]> (<[0 := d [5]]> (rx_desc_array s0)))) 1 1 2 0 1 1 ICR_RXDMT0 ICR_TXQE,
   mk_traffic [[7; 8]] [[7; 8]] [[5]; [6; 6; 6]] [[5]]).
Lemma first_packets_run : rtc nic_step (e1000_init idle_nic, mk_traffic [] [] [] []) first_packets.
Proof.
  eapply rtc_l; [eapply (step_transmit _ _ _ [7; 8] 2); [done|reflexivity]|].
  eapply rtc_l; [eapply step_wire_out, hw_send; [done|reflexivity]|].
  eapply rtc_l; [eapply (step_wire_in _ _ _ [5]), hw_receive; [done|cbn; unfold RX_PKT_SIZE; lia]|].
  eapply rtc_l; [eapply (step_wire_in _ _ _ [6; 6; 6]), hw_receive; [done|cbn; unfold RX_PKT_SIZE; lia]|].
  eapply rtc_l; [eapply (step_cause _ _ ICR_TXQE)|].
  eapply rtc_l; [eapply (step_poll _ _ _ [5]); reflexivity|]. apply rtc_refl.
Qed.

Lemma nic_rings_are_queues_witness :
  arrived first_packets.2 = delivered first_packets.2 ++ [[6; 6; 6]] ∧ rx_waiting first_packets.1 = 1%nat.
Proof.
  split; [|reflexivity].
  exact (proj1 (proj2 (nic_rings_are_queues idle_nic first_packets.1 first_packets.2 eq_refl eq_refl first_packets_run))).
Defined.

(** [e1000_disable_txqe] writes the mask without TXQE to IMS, which only sets
    bits: the interrupt stays enabled. *)
Lemma disable_txqe_keeps_mask s : IMS (e1000_disable_txqe s) = IMS s.
Proof. cbn. apply Z.bits_inj'. intros i Hi. rewrite Z.lor_spec, Z.ldiff_spec. by destruct (Z.testbit (IMS s) i). Qed.
