(* ===== verification/Net.v ===== *)
(** * kernel/net/net.c: sending, receiving and the reliable stream

    [do_net_send] and [do_net_recv] work on the card of E1000.v and the queues
    of Sched.v, in stretches up to a call of [do_scheduler] as in Locks.v. The
    stream of [do_net_recv_stream] is modelled over what successive calls of
    [e1000_poll] return ([arriving]; nothing arrives when it is spent) and the
    packets handed to [do_net_send] ([sent]); sleeping has no effect on these. *)

From S2P Require Import Prelude Bytes Sched E1000.

(** ** Packets *)
Record net := mk_net { card : nic; nsch : sched }.
Abbreviation NetM := (M net).
Definition on_card {A} (m : NM A) : NetM A := fun s =>
  match m (card s) with
  | Ok (a, c) => Ok (a, mk_net c (nsch s))
  | Panic why => Panic why
  | OutOfFuel => OutOfFuel
  end.
Definition on_queues {A} (m : M sched A) : NetM A := fun s =>
  match m (nsch s) with
  | Ok (a, q) => Ok (a, mk_net (card s) q)
  | Panic why => Panic why
  | OutOfFuel => OutOfFuel
  end.
Definition upd_card (f : nic → nic) : NetM unit := modify (fun s => mk_net (f (card s)) (nsch s)).

Definition net_send_wakeup : NetM unit := on_queues (unblock_list QSend).
Definition net_recv_wakeup : NetM unit := on_queues (unblock_list QRecv).

(** One turn of the loop of [do_net_send]: [None] when the caller was parked;
    it takes another turn, with [resumed], when it runs again. *)
Definition do_net_send (h : nat) (now : Z) (resumed : bool) (txpacket : list Z) : NetM (option Z) :=
  (if resumed then upd_card e1000_disable_txqe else ret tt) ;;
  transferred <- on_card (e1000_transmit txpacket) ;;
  if transferred >? 0 then ret (Some (Z.of_nat (length txpacket))) else
  cur <- on_queues (current_running h) ;;
  on_queues (do_block cur QSend) ;;
  upd_card e1000_enable_txqe ;;
  on_queues (do_scheduler h now) ;;
  ret None.

(** The packets received so far; the reader was parked, or has [pkt_num] of
    them: the buffer holds their bytes one after another. *)
Inductive recv_result := RDone (pkts : list (list Z)) | RParked (pkts : list (list Z)).
Fixpoint do_net_recv (h : nat) (now : Z) (pkt_num : nat) (pkts : list (list Z)) : NetM recv_result :=
  match pkt_num with
  | O => ret (RDone pkts)
  | S n =>
      p <- on_card e1000_poll ;;
      if Z.of_nat (length p) >? 0 then do_net_recv h now n (pkts ++ [p]) else
      cur <- on_queues (current_running h) ;;
      on_queues (do_block cur QRecv) ;;
      on_queues (do_scheduler h now) ;;
      ret (RParked pkts)
  end.

(** e1000.c: [e1000_handle_interrupt] *)
Definition e1000_handle_interrupt : NetM unit :=
  icr <- gets (fun s => ICR (card s)) ;;
  upd_card (set_ICR 0) ;;
  (if Z.land icr ICR_RXDMT0 =? 0 then ret tt else net_recv_wakeup) ;;
  (if Z.land icr ICR_TXQE =? 0 then ret tt else net_send_wakeup).

(** ** Headers *)
Definition RTP_HDR_OFFSET : Z := 54.
Definition byte_at (l : list Z) (i : Z) : Z := default 0 (l !! Z.to_nat i).
Definition be16_to_host (p : Z → Z) : Z := u16 (Z.lor (Z.shiftl (p 0) 8) (p 1)).
Definition be32_to_host (p : Z → Z) : Z :=
  u32 (Z.lor (Z.lor (Z.lor (Z.shiftl (p 0) 24) (Z.shiftl (p 1) 16)) (Z.shiftl (p 2) 8)) (p 3)).
Definition host_to_be32 (v : Z) : list Z :=
  [Z.land (Z.shiftr v 24) 255; Z.land (Z.shiftr v 16) 255; Z.land (Z.shiftr v 8) 255; Z.land v 255].

Record header_t := mk_header { magic : Z; flags : Z; len : Z; seqno : Z }.
Definition parse (buffer : list Z) : header_t :=
  let hdr k := byte_at buffer (RTP_HDR_OFFSET + k) in
  mk_header (hdr 0) (hdr 1) (be16_to_host (fun k => hdr (2 + k))) (be32_to_host (fun k => hdr (4 + k))).

(** ** The stream *)
Record link := mk_link { arriving : list (list Z); sent : list (list Z); pkt : list Z }.
Abbreviation LM := (M link).
Definition net_send (p : list Z) : LM unit := modify (fun s => mk_link (arriving s) (sent s ++ [p]) (pkt s)).
(** [e1000_poll(pkt)]: the length of the packet. *)
Definition link_poll : LM Z := fun s =>
  match arriving s with
  | [] => Ok (0, s)
  | p :: rest => Ok (Z.of_nat (length p), mk_link rest (sent s) (overlay p (pkt s)))
  end.

(** The eight bytes of a header written over a packet. *)
Definition put_header (fl seq : Z) (buffer : list Z) : list Z :=
  let o := Z.to_nat RTP_HDR_OFFSET in
  take o buffer ++ [0x45; fl; 0; 0] ++ host_to_be32 (u32 seq) ++ drop (o + 8) buffer.
Definition send_header (fl seq : Z) : LM unit :=
  modify (fun s => mk_link (arriving s) (sent s) (put_header fl seq (pkt s))) ;;
  p <- gets pkt ;; net_send p.
Definition ack (seq : Z) : LM unit := send_header 4 seq.
Definition rsd (seq : Z) : LM unit := send_header 2 seq.

(** [while (!plen && cnt < 10)]: [n] turns left. *)
Fixpoint poll_some (n : nat) : LM Z :=
  match n with
  | O => ret 0
  | S n => plen <- link_poll ;; if plen =? 0 then poll_some n else ret plen
  end.
(** A packet without the magic number is logged and then used like any other. *)
Fixpoint poll (fuel : nat) (seq : Z) : LM header_t :=
  match fuel with
  | O => no_fuel
  | S n =>
      plen <- poll_some 10 ;;
      if plen =? 0 then rsd seq ;; poll n seq else
      b <- gets pkt ;;
      let hdr := parse b in
      if negb (seqno hdr =? u32 seq) then poll n seq else ret hdr
  end.

Fixpoint fletcher_loop (sum1 sum2 : Z) (data : list Z) : Z * Z :=
  match data with
  | [] => (sum1, sum2)
  | b :: data => let sum1 := u16 ((sum1 + b) mod 255) in fletcher_loop sum1 (u16 ((sum2 + sum1) mod 255)) data
  end.
Definition fletcher16 (data : list Z) : Z :=
  let '(sum1, sum2) := fletcher_loop 0 0 data in u16 (Z.lor (Z.shiftl sum2 8) sum1).

(** [out] holds the bytes copied so far, [received_total] is their number. A
    copy of a negative length, or past the end of [pkt], is a fault. *)
Definition DATA_OFFSET : Z := RTP_HDR_OFFSET + 8.
Fixpoint stream_loop (fuel pfuel : nat) (want next_seq recv_seq : Z) (out : list Z) : LM (list Z * Z) :=
  match fuel with
  | O => no_fuel
  | S n =>
      let received_total := Z.of_nat (length out) in
      if received_total <? want then
        hdr <- poll pfuel next_seq ;;
        b <- gets pkt ;;
        if Z.land (flags hdr) 1 =? 0 then stream_loop n pfuel want next_seq recv_seq out else
        let size := i32 (unle (take 4 (drop (Z.to_nat DATA_OFFSET) b))) in
        let want := if seqno hdr =? 0 then Z.min want size else want in
        let copy_len := if received_total + len hdr >? want then want - received_total else len hdr in
        asserts ((0 <=? copy_len) && (DATA_OFFSET + copy_len <=? RX_PKT_SIZE)) "fault" ;;
        ack next_seq ;;
        stream_loop n pfuel want (u32 (next_seq + len hdr)) next_seq
          (out ++ take (Z.to_nat copy_len) (drop (Z.to_nat DATA_OFFSET) b))
      else ret (out, recv_seq)
  end.
(** The bytes received and the checksum that is logged. *)
Definition do_net_recv_stream (fuel : nat) (capacity : Z) : LM (list Z * Z) :=
  let* (out, recv_seq) := stream_loop fuel fuel capacity 0 0 [] in
  ack recv_seq ;;
  ret (out, fletcher16 (drop 4 out)).
