(* ===== verification/NetTheorems.v ===== *)
(** * The stream of net.c: what arrives in order is what the caller gets *)

From S2P Require Import Prelude Bytes Sched PgtableProofs E1000 Net.

(** ** Headers *)
Lemma byte_overlay p b i : 0 ≤ i < Z.of_nat (length p) → byte_at (overlay p b) i = byte_at p i.
Proof. intros Hi. unfold byte_at, overlay. by rewrite lookup_app_l by lia. Qed.

Lemma parse_overlay p b : DATA_OFFSET ≤ Z.of_nat (length p) → parse (overlay p b) = parse p.
Proof.
  change DATA_OFFSET with 62. intros Hl. unfold parse, be16_to_host, be32_to_host, RTP_HDR_OFFSET.
  rewrite !byte_overlay by lia. done.
Qed.

Lemma overlay_length p b : (length p ≤ length b)%nat → length (overlay p b) = length b.
Proof. intros Hl. unfold overlay. rewrite length_app, length_drop. lia. Qed.

Lemma overlay_data p b n : (62 + n ≤ length p)%nat → take n (drop 62 (overlay p b)) = take n (drop 62 p).
Proof.
  intros Hl. unfold overlay. rewrite drop_app_le by lia. rewrite take_app_le; [done|]. rewrite length_drop. lia.
Qed.

(** One byte of a word, back at its place. *)
Lemma byte_bits v k i : 0 ≤ k → 0 ≤ i →
  Z.testbit (Z.shiftl (Z.land (Z.shiftr v k) 255) k) i = (k <=? i) && (i <? k + 8) && Z.testbit v i.
Proof.
  intros Hk Hi. rewrite Z.shiftl_spec by done. change 255 with (Z.ones 8). destruct (Z.leb_spec k i).
  - rewrite Z.land_spec, Z.shiftr_spec, Z.testbit_ones_nonneg, Z.sub_add by lia. rewrite andb_comm.
    f_equal. destruct (Z.ltb_spec (i - k) 8), (Z.ltb_spec i (k + 8)); (done || lia).
  - by rewrite Z.testbit_neg_r by lia.
Qed.

Lemma be32_roundtrip v : 0 ≤ v < 2 ^ 32 → be32_to_host (byte_at (host_to_be32 v)) = v.
Proof.
  intros Hv. transitivity (v mod 2 ^ 32); [|by apply Z.mod_small].
  change (be32_to_host (byte_at (host_to_be32 v))) with
    (Z.lor (Z.lor (Z.lor (Z.shiftl (Z.land (Z.shiftr v 24) 255) 24) (Z.shiftl (Z.land (Z.shiftr v 16) 255) 16))
       (Z.shiftl (Z.land (Z.shiftr v 8) 255) 8)) (Z.land v 255) mod 2 ^ 32).
  apply Z.bits_inj'. intros i Hi.
  destruct (Z.lt_ge_cases i 32); [|by rewrite !Z.mod_pow2_bits_high by lia]. rewrite !Z.mod_pow2_bits_low by lia.
  rewrite !Z.lor_spec, !byte_bits by lia.
  replace (Z.testbit (Z.land v 255) i) with ((0 <=? i) && (i <? 0 + 8) && Z.testbit v i).
  2:{ rewrite <- byte_bits by lia. by rewrite Z.shiftl_0_r, Z.shiftr_0_r. }
  destruct (Z.testbit v i); rewrite ?andb_false_r; [|done]. rewrite !andb_true_r.
  repeat match goal with |- context [?a <=? ?b] => destruct (Z.leb_spec a b) | |- context [?a <? ?b] => destruct (Z.ltb_spec a b) end; (done || lia).
Qed.

Lemma put_header_length fl seq b : (62 ≤ length b)%nat → length (put_header fl seq b) = length b.
Proof. intros Hl. unfold put_header. change (Z.to_nat RTP_HDR_OFFSET) with 54%nat. rewrite !length_app, length_take, length_drop. cbn [length host_to_be32]. lia. Qed.

(** A header that was written is the one that is read. *)
Lemma parse_put fl seq b : (62 ≤ length b)%nat → parse (put_header fl seq b) = mk_header 0x45 fl 0 (u32 seq).
Proof.
  intros Hl. assert (∀ k, (k < 8)%nat → byte_at (put_header fl seq b) (RTP_HDR_OFFSET + Z.of_nat k) =
    default 0 (([0x45; fl; 0; 0] ++ host_to_be32 (u32 seq)) !! k)) as Hb.
  { intros k Hk. unfold byte_at, put_header. rewrite lookup_app_r by (rewrite length_take; unfold RTP_HDR_OFFSET; lia).
    rewrite length_take. replace (Z.to_nat (RTP_HDR_OFFSET + Z.of_nat k) - Z.to_nat RTP_HDR_OFFSET `min` length b)%nat with k
      by (unfold RTP_HDR_OFFSET; lia).
    rewrite app_assoc, lookup_app_l by (cbn; lia). done. }
  assert (be32_to_host (byte_at (host_to_be32 (u32 seq))) = u32 seq) as Hs by (apply be32_roundtrip; apply Z.mod_pos_bound; done).
  unfold parse. f_equal.
  - exact (Hb 0%nat ltac:(lia)).
  - exact (Hb 1%nat ltac:(lia)).
  - exact (f_equal2 (fun x y => u16 (Z.lor (Z.shiftl x 8) y)) (Hb 2%nat ltac:(lia)) (Hb 3%nat ltac:(lia))).
  - etransitivity; [|exact Hs]. unfold be32_to_host. f_equal. f_equal; [f_equal; [f_equal|]|]; [f_equal..|].
    + exact (Hb 4%nat ltac:(lia)).
    + exact (Hb 5%nat ltac:(lia)).
    + exact (Hb 6%nat ltac:(lia)).
    + exact (Hb 7%nat ltac:(lia)).
Qed.

(** ** Polling *)
(** A full packet whose header carries [seq]. *)
Definition packet (seq : Z) (p : list Z) : Prop :=
  DATA_OFFSET ≤ Z.of_nat (length p) ≤ RX_PKT_SIZE ∧ seqno (parse p) = seq.
(** What [poll] passes over: no packet, or one of another sequence number. *)
Definition skip (seq : Z) (p : list Z) : Prop := p = [] ∨ (packet (seqno (parse p)) p ∧ seqno (parse p) ≠ seq).
Definition buffer (b : list Z) : Prop := Z.of_nat (length b) = RX_PKT_SIZE.

(** The sequence numbers acknowledged by the packets of a trace. *)
Definition acks (tr : list (list Z)) : list Z :=
  omap (fun p => if flags (parse p) =? 4 then Some (seqno (parse p)) else None) tr.

Lemma acks_cons p tr : acks (p :: tr) = (if flags (parse p) =? 4 then [seqno (parse p)] else []) ++ acks tr.
Proof.
  unfold acks. set (f := fun p => _). change (omap f (p :: tr)) with (match f p with Some y => y :: omap f tr | None => omap f tr end).
  unfold f at 1. by destruct (flags (parse p) =? 4).
Qed.
Lemma acks_app tr tr' : acks (tr ++ tr') = acks tr ++ acks tr'.
Proof. apply omap_app. Qed.

Lemma buffer_overlay p b : Z.of_nat (length p) ≤ RX_PKT_SIZE → buffer b → buffer (overlay p b).
Proof. unfold buffer. intros Hp Hb. rewrite overlay_length by lia. done. Qed.

Lemma buffer_header fl seq b : buffer b → buffer (put_header fl seq b) ∧ parse (put_header fl seq b) = mk_header 0x45 fl 0 (u32 seq).
Proof.
  unfold buffer, RX_PKT_SIZE. intros Hb. rewrite put_header_length by lia. split; [done|]. apply parse_put. lia.
Qed.

Lemma poll_some_run n k q tl snt b :
  q ≠ [] →
  poll_some n (mk_link (replicate k [] ++ q :: tl) snt b) =
    if decide (k < n)%nat then Ok (Z.of_nat (length q), mk_link tl snt (overlay q b))
    else Ok (0, mk_link (replicate (k - n) [] ++ q :: tl) snt b).
Proof.
  intros Hq. revert k. induction n as [|n IH]; intros k.
  - rewrite decide_False by lia. by rewrite Nat.sub_0_r.
  - cbn [poll_some]. destruct k as [|k].
    + rewrite decide_True by lia. cbn. by destruct q.
    + rewrite (bind_Ok _ _ _ 0 (mk_link (replicate k [] ++ q :: tl) snt b)) by reflexivity. cbn [Z.eqb]. rewrite IH.
      destruct (decide (k < n)%nat), (decide (S k < S n)%nat); (done || lia).
Qed.

(** The first packet of a list that has one. *)
Lemma first_packet (l : list (list Z)) p rest : p ≠ [] →
  ∃ k q tl, l ++ p :: rest = replicate k [] ++ q :: tl ∧ q ≠ [] ∧
    ((l = replicate k [] ∧ q = p ∧ tl = rest) ∨ ∃ l', l = replicate k [] ++ q :: l' ∧ tl = l' ++ p :: rest).
Proof.
  intros Hp. induction l as [|a l IH].
  - exists 0%nat, p, rest. split_and!; [done|done|by left].
  - destruct a as [|x a].
    + destruct IH as (k & q & tl & E & Hq & Hc). exists (S k), q, tl. cbn. rewrite E. split_and!; [done|done|].
      destruct Hc as [(-> & -> & ->)|(l' & -> & ->)]; [by left|right; by exists l'].
    + exists 0%nat, (x :: a), (l ++ p :: rest). split_and!; [done|done|]. right. by exists l.
Qed.

Lemma poll_run pre p rest seq fuel snt b :
  Forall (skip seq) pre → packet seq p → 0 ≤ seq < 2 ^ 32 → buffer b → (length pre < fuel)%nat →
  ∃ tr b', poll fuel seq (mk_link (pre ++ p :: rest) snt b) = Ok (parse p, mk_link rest (snt ++ tr) (overlay p b')) ∧
    buffer b' ∧ acks tr = [].
Proof.
  intros Hpre Hp Hseq. assert (p ≠ []) as Hpn by (intros ->; destruct Hp as [[Hl _] _]; change DATA_OFFSET with 62 in Hl; cbn in Hl; lia).
  assert (u32 seq = seq) as Eseq by (by apply Z.mod_small).
  remember (length pre) as m eqn:Em. revert pre fuel snt b Em Hpre. induction (lt_wf m) as [m _ IH]. intros pre fuel snt b Em Hpre Hb Hf.
  destruct fuel as [|fuel]; [lia|]. destruct (first_packet pre p rest Hpn) as (k & q & tl & E & Hq & Hc). rewrite E. cbn [poll].
  pose proof (poll_some_run 10 k q tl snt b Hq) as R. case_decide as Hk.
  - rewrite (bind_Ok _ _ _ _ _ R), (proj2 (Z.eqb_neq _ _)) by (destruct q; [done|cbn; lia]).
    rewrite (bind_Ok _ _ _ (overlay q b) (mk_link tl snt (overlay q b))) by reflexivity.
    destruct Hc as [(-> & -> & ->)|(l' & -> & ->)].
    + destruct Hp as [[Hl1 Hl2] Hs]. rewrite parse_overlay, Hs, Eseq, Z.eqb_refl by done. cbn [negb].
      exists [], b. by rewrite app_nil_r.
    + apply Forall_app in Hpre as [_ Hpre]. apply Forall_cons in Hpre as [[->|[[[Hq1 Hq2] _] Hne]] Hl']; [done|].
      rewrite parse_overlay, Eseq, (proj2 (Z.eqb_neq _ _) Hne) by done. cbn [negb].
      assert (length l' < m)%nat as Hl by (subst m; rewrite length_app; cbn; lia).
      exact (IH _ Hl l' fuel snt (overlay q b) eq_refl Hl' (buffer_overlay _ _ Hq2 Hb) ltac:(lia)).
  - rewrite (bind_Ok _ _ _ _ _ R). cbn [Z.eqb]. destruct (buffer_header 2 seq b Hb) as [Hb2 Hph].
    rewrite (bind_Ok _ _ _ tt (mk_link (replicate (k - 10) [] ++ q :: tl) (snt ++ [put_header 2 seq b]) (put_header 2 seq b)))
      by reflexivity.
    assert (∃ pre', replicate (k - 10) [] ++ q :: tl = pre' ++ p :: rest ∧ Forall (skip seq) pre' ∧ (length pre' < length pre)%nat)
      as (pre' & -> & Hpre' & Hl).
    { destruct Hc as [(-> & -> & ->)|(l' & -> & ->)].
      - exists (replicate (k - 10) []). split_and!; [done|apply Forall_replicate; by left|rewrite !length_replicate; lia].
      - exists (replicate (k - 10) [] ++ q :: l'). split_and!; [by rewrite <- app_assoc| |rewrite !length_app, !length_replicate; cbn; lia].
        apply Forall_app in Hpre as [_ Hpre]. apply Forall_app. split; [apply Forall_replicate; by left|done]. }
    destruct (IH (length pre') ltac:(lia) pre' fuel (snt ++ [put_header 2 seq b]) (put_header 2 seq b) eq_refl Hpre' Hb2 ltac:(lia))
      as (tr & b' & R' & Hb' & Ha).
    exists (put_header 2 seq b :: tr), b'. rewrite R', <- app_assoc. split_and!; [done|done|]. by rewrite acks_cons, Hph.
Qed.

(** ** The stream *)
(** The packet carries the chunk [c]. *)
Definition data_packet (seq : Z) (c p : list Z) : Prop :=
  packet seq p ∧ Z.land (flags (parse p)) 1 ≠ 0 ∧ len (parse p) = Z.of_nat (length c) ∧ c ≠ [] ∧
  DATA_OFFSET + Z.of_nat (length c) ≤ Z.of_nat (length p) ∧ take (length c) (drop (Z.to_nat DATA_OFFSET) p) = c.

(** What arrives from [seq] on: the chunks, each in a packet with its sequence
    number, between packets that do not belong to the stream. *)
Inductive delivers : Z → list (list Z) → list (list Z) → Prop :=
| d_done seq ins : delivers seq ins []
| d_skip seq p ins cs : skip seq p → delivers seq ins cs → delivers seq (p :: ins) cs
| d_other seq p ins cs : packet seq p → Z.land (flags (parse p)) 1 = 0 → delivers seq ins cs → delivers seq (p :: ins) cs
| d_chunk seq p ins c cs : data_packet seq c p → delivers (u32 (seq + Z.of_nat (length c))) ins cs → delivers seq (p :: ins) (c :: cs).

(** The sequence numbers of the chunks. *)
Fixpoint seqs_from (seq : Z) (cs : list (list Z)) : list Z :=
  match cs with [] => [] | c :: cs => seq :: seqs_from (u32 (seq + Z.of_nat (length c))) cs end.

(** The chunks are what is missing from [r] to [want], the last one perhaps cut. *)
Fixpoint needs (r want : Z) (cs : list (list Z)) : Prop :=
  match cs with
  | [] => r = want
  | c :: cs => r < want ∧ needs (Z.min want (r + Z.of_nat (length c))) want cs
  end.

(** The next packet that [poll] returns. *)
Lemma delivers_next seq ins c cs :
  delivers seq ins (c :: cs) → ∃ pre p rest, ins = pre ++ p :: rest ∧ Forall (skip seq) pre ∧ packet seq p ∧
    ((data_packet seq c p ∧ delivers (u32 (seq + Z.of_nat (length c))) rest cs) ∨
     (Z.land (flags (parse p)) 1 = 0 ∧ delivers seq rest (c :: cs))).
Proof.
  remember (c :: cs) as l eqn:El. induction 1 as [|seq p ins l Hs _ IH|seq p ins l Hp Hf Hd _|seq p ins c' cs' Hp Hd _]; subst.
  - done.
  - destruct (IH eq_refl) as (pre & q & rest & -> & Hpre & Hq & Hc). exists (p :: pre), q, rest. split_and!; [done|by constructor|done|done].
  - exists [], p, ins. split_and!; [done|constructor|done|]. by right.
  - injection El as -> ->. exists [], p, ins. split_and!; [done|constructor|apply Hp|]. by left.
Qed.

(** The state after an acknowledgement was sent from the buffer [b]. *)
Lemma ack_run seq ins snt b : ack seq (mk_link ins snt b) = Ok (tt, mk_link ins (snt ++ [put_header 4 seq b]) (put_header 4 seq b)).
Proof. reflexivity. Qed.

Lemma acks_ack seq b : buffer b → acks [put_header 4 seq b] = [u32 seq].
Proof. intros Hb. rewrite acks_cons. by rewrite (proj2 (buffer_header 4 seq b Hb)). Qed.

Lemma u32_range x : 0 ≤ u32 x < 2 ^ 32.
Proof. by apply Z.mod_pos_bound. Qed.

(** One chunk: [want'] is what the loop wants once it has seen the packet. *)
Lemma chunk_step n pf want want' seq rs out pre p rest c snt b :
  Forall (skip seq) pre → data_packet seq c p → 0 ≤ seq < 2 ^ 32 → buffer b → (length pre < pf)%nat →
  Z.of_nat (length out) < want → Z.of_nat (length out) ≤ want' →
  want' = (if seq =? 0 then Z.min want (i32 (unle (take 4 (drop 62 p)))) else want) →
  (4 ≤ length c)%nat ∨ seq ≠ 0 →
  ∃ tr b', stream_loop (S n) pf want seq rs out (mk_link (pre ++ p :: rest) snt b) =
      stream_loop n pf want' (u32 (seq + Z.of_nat (length c))) seq
        (out ++ take (Z.to_nat (want' - Z.of_nat (length out))) c) (mk_link rest (snt ++ tr) b') ∧
    buffer b' ∧ acks tr = [seq].
Proof.
  intros Hpre (Hp & Hf & Hlen & Hc & Hroom & Hd) Hseq Hb Hpf Hw Hw' Ew H4.
  destruct (poll_run pre p rest seq pf snt b Hpre Hp Hseq Hb Hpf) as (tr & b1 & R & Hb1 & Ha).
  destruct Hp as [[Hl1 Hl2] Hs]. pose proof (buffer_overlay p b1 Hl2 Hb1) as Hb2.
  assert (u32 seq = seq) as Eseq by (by apply Z.mod_small).
  change DATA_OFFSET with 62 in *. change (Z.to_nat 62) with 62%nat in *. change RX_PKT_SIZE with 2048 in *.
  exists (tr ++ [put_header 4 seq (overlay p b1)]), (put_header 4 seq (overlay p b1)). split_and!.
  2: by apply buffer_header.
  2: by rewrite acks_app, Ha, acks_ack, Eseq.
  cbn [stream_loop]. rewrite (proj2 (Z.ltb_lt _ _) Hw), (bind_Ok _ _ _ _ _ R).
  set (st := mk_link rest (snt ++ tr) (overlay p b1)). rewrite (bind_Ok _ _ st (overlay p b1) st) by reflexivity.
  rewrite (proj2 (Z.eqb_neq _ _) Hf), Hs, Hlen. change DATA_OFFSET with 62. change (Z.to_nat 62) with 62%nat.
  assert ((if seq =? 0 then Z.min want (i32 (unle (take 4 (drop 62 (overlay p b1))))) else want) = want') as ->.
  { rewrite Ew. destruct (Z.eqb_spec seq 0) as [E0|]; [|done]. rewrite overlay_data; [done|]. destruct H4; [lia|done]. }
  set (k := if _ >? want' then _ else _).
  assert (k = Z.min (Z.of_nat (length c)) (want' - Z.of_nat (length out))) as Ek.
  { unfold k. rewrite Z.gtb_ltb. destruct (Z.ltb_spec want' (Z.of_nat (length out) + Z.of_nat (length c))); lia. }
  rewrite (bind_Ok _ _ st tt st).
  2:{ apply asserts_true. change RX_PKT_SIZE with 2048. rewrite (proj2 (Z.leb_le _ _)), (proj2 (Z.leb_le _ _)) by lia. done. }
  unfold st. rewrite (bind_Ok _ _ _ _ _ (ack_run seq rest (snt ++ tr) (overlay p b1))), <- app_assoc.
  f_equal. f_equal. rewrite overlay_data by lia.
  transitivity (take (Z.to_nat (want' - Z.of_nat (length out))) (take (length c) (drop 62 p))); [|by rewrite Hd].
  rewrite take_take. f_equal. lia.
Qed.

Lemma other_step n pf want seq rs out pre p rest snt b :
  Forall (skip seq) pre → packet seq p → Z.land (flags (parse p)) 1 = 0 → 0 ≤ seq < 2 ^ 32 → buffer b → (length pre < pf)%nat →
  Z.of_nat (length out) < want →
  ∃ tr b', stream_loop (S n) pf want seq rs out (mk_link (pre ++ p :: rest) snt b) =
      stream_loop n pf want seq rs out (mk_link rest (snt ++ tr) b') ∧ buffer b' ∧ acks tr = [].
Proof.
  intros Hpre Hp Hf Hseq Hb Hpf Hw. destruct (poll_run pre p rest seq pf snt b Hpre Hp Hseq Hb Hpf) as (tr & b1 & R & Hb1 & Ha).
  exists tr, (overlay p b1). split_and!; [|apply buffer_overlay; [apply Hp|done]|done].
  cbn [stream_loop]. rewrite (proj2 (Z.ltb_lt _ _) Hw), (bind_Ok _ _ _ _ _ R).
  set (st := mk_link rest (snt ++ tr) (overlay p b1)). rewrite (bind_Ok _ _ st (overlay p b1) st) by reflexivity.
  by rewrite (proj2 (Z.eqb_eq _ _) Hf).
Qed.

Definition last_seq (rs : Z) (l : list Z) : Z := default rs (last l).

Lemma last_seq_cons rs x l : last_seq rs (x :: l) = last_seq x l.
Proof. unfold last_seq. rewrite last_cons. by destruct (last l). Qed.

(** A cut chunk and the rest. *)
Lemma take_cut (c d : list Z) k : 0 ≤ k → take (Z.to_nat k) c ++ take (Z.to_nat (k - Z.min k (Z.of_nat (length c)))) d = take (Z.to_nat k) (c ++ d).
Proof. intros Hk. rewrite take_app. do 2 f_equal. lia. Qed.

Lemma stream_run n pf want seq rs out ins cs snt b :
  delivers seq ins cs → needs (Z.of_nat (length out)) want cs → 0 < seq → seq + Z.of_nat (length (concat cs)) < 2 ^ 32 →
  buffer b → (length ins < n)%nat → (length ins < pf)%nat →
  ∃ tr rest b', stream_loop n pf want seq rs out (mk_link ins snt b) =
      Ok ((out ++ take (Z.to_nat (want - Z.of_nat (length out))) (concat cs), last_seq rs (seqs_from seq cs)), mk_link rest (snt ++ tr) b') ∧
    buffer b' ∧ acks tr = seqs_from seq cs.
Proof.
  revert seq rs out ins cs snt b. induction n as [|n IH]; intros seq rs out ins cs snt b Hd Hn H0 Hlt Hb Hf Hpf; [lia|].
  destruct cs as [|c cs].
  { cbn in Hn. exists [], ins, b. cbn [stream_loop]. rewrite (proj2 (Z.ltb_ge _ _)), Hn, Z.sub_diag by lia. cbn.
    by rewrite !app_nil_r. }
  destruct Hn as [Hw Hn]. destruct (delivers_next _ _ _ _ Hd) as (pre & p & rest & -> & Hpre & Hp & Hc). rewrite length_app in Hf, Hpf. cbn in Hf, Hpf.
  rewrite concat_cons, length_app in Hlt. destruct Hc as [[Hdp Hd']|[Hfl Hd']].
  - destruct (chunk_step n pf want want seq rs out pre p rest c snt b) as (tr & b1 & R & Hb1 & Ha); try done; try lia.
    { by rewrite (proj2 (Z.eqb_neq _ _)) by lia. }
    assert (u32 (seq + Z.of_nat (length c)) = seq + Z.of_nat (length c)) as E by (apply Z.mod_small; lia). rewrite E in *.
    set (out' := out ++ take (Z.to_nat (want - Z.of_nat (length out))) c) in *.
    assert (Z.of_nat (length out') = Z.min want (Z.of_nat (length out) + Z.of_nat (length c))) as El.
    { unfold out'. rewrite length_app, length_take. lia. }
    destruct (IH (seq + Z.of_nat (length c)) seq out' rest cs (snt ++ tr) b1) as (tr' & rest' & b' & R' & Hb' & Ha'); try done; try lia.
    { by rewrite El. }
    exists (tr ++ tr'), rest', b'. rewrite R, R'. cbn [seqs_from]. rewrite E. split_and!; [|done|by rewrite acks_app, Ha, Ha'].
    rewrite last_seq_cons, app_assoc. do 3 f_equal. unfold out'. rewrite <- app_assoc. f_equal. cbn [concat].
    rewrite <- take_cut by lia. f_equal. f_equal. fold out'. rewrite El. lia.
  - destruct (other_step n pf want seq rs out pre p rest snt b) as (tr & b1 & R & Hb1 & Ha); try done; try lia.
    destruct (IH seq rs out rest (c :: cs) (snt ++ tr) b1) as (tr' & rest' & b' & R' & Hb' & Ha'); try done; try lia.
    { rewrite concat_cons, length_app. lia. }
    exists (tr ++ tr'), rest', b'. rewrite R, R', app_assoc. split_and!; [done|done|by rewrite acks_app, Ha, Ha'].
Qed.

(** The chunks that are needed of those that arrive. *)
Lemma enough_prefix seq ins cs r want :
  delivers seq ins cs → r ≤ want ≤ r + Z.of_nat (length (concat cs)) →
  ∃ cs', delivers seq ins cs' ∧ cs' `prefix_of` cs ∧ needs r want cs'.
Proof.
  intros Hd. revert r. induction Hd as [seq ins|seq p ins cs Hs _ IH|seq p ins cs Hp Hf _ IH|seq p ins c cs Hp _ IH]; intros r Hr.
  - cbn in Hr. exists []. split_and!; [constructor|done|cbn; lia].
  - destruct (IH r Hr) as (cs' & ? & ? & ?). exists cs'. split_and!; [by apply d_skip|done|done].
  - destruct (IH r Hr) as (cs' & ? & ? & ?). exists cs'. split_and!; [by apply d_other|done|done].
  - destruct (decide (r = want)) as [->|Hne].
    { exists []. split_and!; [constructor|apply prefix_nil|done]. }
    rewrite concat_cons, length_app in Hr. destruct (IH (Z.min want (r + Z.of_nat (length c)))) as (cs' & Hd' & Hpr & Hn); [lia|].
    exists (c :: cs'). split_and!; [by apply d_chunk|by apply prefix_cons|]. split; [lia|done].
Qed.

Lemma needs_length r want cs : needs r want cs → want ≤ r + Z.of_nat (length (concat cs)).
Proof.
  revert r. induction cs as [|c cs IH]; intros r Hn; cbn in Hn; [cbn; lia|].
  destruct Hn as [_ Hn]. specialize (IH _ Hn). rewrite concat_cons, length_app. lia.
Qed.

Lemma first_run n pf capacity ins c cs snt b :
  let want := Z.min capacity (i32 (unle (take 4 c))) in
  delivers 0 ins (c :: cs) → (4 ≤ length c)%nat → 0 < want → want ≤ Z.of_nat (length (concat (c :: cs))) →
  Z.of_nat (length (concat (c :: cs))) < 2 ^ 32 → buffer b → (length ins < n)%nat → (length ins < pf)%nat →
  ∃ tr rest b' cs', stream_loop n pf capacity 0 0 [] (mk_link ins snt b) =
      Ok ((take (Z.to_nat want) (concat (c :: cs)), last_seq 0 (seqs_from 0 cs')), mk_link rest (snt ++ tr) b') ∧
    buffer b' ∧ cs' `prefix_of` c :: cs ∧ needs 0 want cs' ∧ acks tr = seqs_from 0 cs'.
Proof.
  intros want. revert ins snt b. induction n as [|n IH]; intros ins snt b Hd H4 Hw Hle Hlt Hb Hf Hpf; [lia|].
  destruct (delivers_next _ _ _ _ Hd) as (pre & p & rest & -> & Hpre & Hp & Hc). rewrite length_app in Hf, Hpf. cbn in Hf, Hpf.
  destruct Hc as [[Hdp Hd']|[Hfl Hd']].
  - assert (take 4 (drop 62 p) = take 4 c) as E4.
    { destruct Hdp as (_ & _ & _ & _ & _ & Hcut). change (Z.to_nat DATA_OFFSET) with 62%nat in Hcut.
      transitivity (take 4 (take (length c) (drop 62 p))); [|by rewrite Hcut]. rewrite take_take. f_equal. lia. }
    destruct (chunk_step n pf capacity want 0 0 [] pre p rest c snt b) as (tr & b1 & R & Hb1 & Ha);
      try done; try (cbn; lia); [by rewrite E4|].
    rewrite concat_cons, length_app in Hle, Hlt.
    assert (u32 (0 + Z.of_nat (length c)) = Z.of_nat (length c)) as E by (apply Z.mod_small; lia). rewrite E in *.
    set (out := [] ++ take (Z.to_nat (want - Z.of_nat (length (@nil Z)))) c) in *.
    assert (Z.of_nat (length out) = Z.min want (0 + Z.of_nat (length c))) as El by (unfold out; cbn; rewrite length_take; lia).
    destruct (enough_prefix _ _ _ (Z.min want (0 + Z.of_nat (length c))) want Hd') as (cs' & Hd2 & [more ->] & Hn); [lia|].
    rewrite concat_app, length_app in Hlt.
    destruct (stream_run n pf want (Z.of_nat (length c)) 0 out rest cs' (snt ++ tr) b1) as (tr' & rest' & b' & R' & Hb' & Ha');
      try done; try lia; [by rewrite El|].
    exists (tr ++ tr'), rest', b', (c :: cs'). rewrite R, R'. cbn [seqs_from]. rewrite E. split_and!.
    + rewrite last_seq_cons, app_assoc. do 3 f_equal. cbn [concat]. rewrite concat_app, app_assoc.
      rewrite take_app_le by (apply needs_length in Hn; rewrite length_app; lia). rewrite <- take_cut by lia.
      rewrite El. unfold out. cbn [app length]. by rewrite Z.sub_0_r.
    + done.
    + apply prefix_cons. by exists more.
    + split; [lia|done].
    + by rewrite acks_app, Ha, Ha'.
  - destruct (other_step n pf capacity 0 0 [] pre p rest snt b) as (tr & b1 & R & Hb1 & Ha); try done; try (cbn; lia).
    destruct (IH rest (snt ++ tr) b1) as (tr' & rest' & b' & cs' & R' & Hb' & Hpr & Hn & Ha'); try done; try lia.
    exists (tr ++ tr'), rest', b', cs'. rewrite R, R', app_assoc. split_and!; [done|done|done|done|by rewrite acks_app, Ha, Ha'].
Qed.

(** ** Claims *)

(** C22 The stream of [do_net_recv_stream] is the data that was sent. When
    the chunks of a stream arrive in order, each in a packet with its sequence
    number, however many polls find nothing and however many packets with other
    sequence numbers or without the DAT flag come between, the call returns:
    the bytes are the first [min(capacity, size)] bytes of the stream, [size]
    being the four bytes it starts with, and the acknowledgements sent are
    those of the chunks that were needed, in order, and the last one again. *)
Theorem stream_received fuel capacity ins c cs b :
  let want := Z.min capacity (i32 (unle (take 4 c))) in
  delivers 0 ins (c :: cs) → (4 ≤ length c)%nat → 0 < want → want ≤ Z.of_nat (length (concat (c :: cs))) →
  Z.of_nat (length (concat (c :: cs))) < 2 ^ 32 → buffer b → (length ins < fuel)%nat →
  ∃ rest snt b' cs', let out := take (Z.to_nat want) (concat (c :: cs)) in
    do_net_recv_stream fuel capacity (mk_link ins [] b) = Ok ((out, fletcher16 (drop 4 out)), mk_link rest snt b') ∧
    cs' `prefix_of` c :: cs ∧ needs 0 want cs' ∧ acks snt = seqs_from 0 cs' ++ [last_seq 0 (seqs_from 0 cs')].
Proof.
  intros want Hd H4 Hw Hle Hlt Hb Hf.
  destruct (first_run fuel fuel capacity ins c cs [] b Hd H4 Hw Hle Hlt Hb Hf Hf) as (tr & rest & b' & cs' & R & Hb' & Hpr & Hn & Ha).
  set (rs := last_seq 0 (seqs_from 0 cs')) in *.
  exists rest, (tr ++ [put_header 4 rs b']), (put_header 4 rs b'), cs'. cbn zeta. split_and!.
  - unfold do_net_recv_stream. rewrite (bind_Ok _ _ _ _ _ R). by rewrite (bind_Ok _ _ _ _ _ (ack_run rs rest tr b')).
  - done.
  - done.
  - rewrite acks_app, Ha, acks_ack by done. do 2 f_equal. apply Z.mod_small. unfold rs, last_seq.
    assert (∀ cs x, 0 ≤ x < 2 ^ 32 → Forall (fun y => 0 ≤ y < 2 ^ 32) (seqs_from x cs)) as Hall.
    { clear. induction cs as [|c cs IH]; intros x Hx; [constructor|]. constructor; [done|]. apply IH, u32_range. }
    destruct (last (seqs_from 0 cs')) as [y|] eqn:E; [|done]. cbn. apply last_Some_elem_of in E.
    specialize (Hall cs' 0 ltac:(done)). rewrite Forall_forall in Hall. by apply Hall.
Qed.

(** The reference checksum: the sum of the bytes, and the sum of the sums. *)
Fixpoint sum_bytes (l : list Z) : Z := match l with [] => 0 | b :: l => b + sum_bytes l end.
Fixpoint sum_sums (l : list Z) : Z := match l with [] => 0 | b :: l => Z.of_nat (S (length l)) * b + sum_sums l end.

Lemma fletcher_loop_run l s1 s2 :
  (∀ b, b ∈ l → 0 ≤ b < 256) → 0 ≤ s1 → 0 ≤ s2 →
  fletcher_loop (s1 mod 255) (s2 mod 255) l =
    ((s1 + sum_bytes l) mod 255, (s2 + Z.of_nat (length l) * s1 + sum_sums l) mod 255).
Proof.
  revert s1 s2. induction l as [|b l IH]; intros s1 s2 Hb H1 H2; cbn [fletcher_loop].
  - cbn. by rewrite !Z.add_0_r.
  - assert (∀ x, u16 (x mod 255) = x mod 255) as E.
    { intros x. unfold u16, wrap. apply Z.mod_small. pose proof (Z.mod_pos_bound x 255 ltac:(done)). lia. }
    rewrite !E, Z.add_mod_idemp_l, Z.add_mod_idemp_l, Z.add_mod_idemp_r by done.
    assert (0 ≤ b < 256) by (apply Hb; by left). rewrite IH by (set_solver || lia). cbn [sum_bytes sum_sums length]. f_equal; f_equal; lia.
Qed.

(** [fletcher16] computes the Fletcher checksum: reducing both sums
    modulo 255 at every byte gives the same word as the plain sums of the bytes
    and of the running sums, reduced once at the end. *)
Theorem fletcher16_equiv l :
  (∀ b, b ∈ l → 0 ≤ b < 256) → fletcher16 l = (sum_sums l mod 255) * 256 + sum_bytes l mod 255.
Proof.
  intros Hb. unfold fletcher16. pose proof (fletcher_loop_run l 0 0 Hb ltac:(lia) ltac:(lia)) as R.
  change (0 mod 255) with 0 in R. rewrite R, Z.mul_0_r, !Z.add_0_l.
  pose proof (Z.mod_pos_bound (sum_sums l) 255 ltac:(done)). pose proof (Z.mod_pos_bound (sum_bytes l) 255 ltac:(done)).
  rewrite Z.shiftl_mul_pow2 by done. change (2 ^ 8) with 256. unfold u16, wrap.
  rewrite Z.lor_comm, (lor_disjoint _ _ 8) by (done || lia). change (2 ^ 8) with 256. rewrite Z.mod_small by lia. lia.
Qed.

(** ** A small stream *)
Definition mk_packet (mg fl n seq : Z) (c : list Z) : list Z :=
  replicate 54 0 ++ [mg; fl; n / 256; n mod 256] ++ host_to_be32 seq ++ c.
Definition chunk1 : list Z := [10; 0; 0; 0; 1; 2].
Definition chunk2 : list Z := [3; 4; 5; 6; 7].
Definition demo_ins : list (list Z) :=
  [[]; mk_packet 0x45 1 5 6 chunk2; mk_packet 0x45 1 6 0 chunk1; []; mk_packet 0x45 1 6 0 chunk1; mk_packet 0x45 1 5 6 chunk2; []].
Definition demo_buffer : list Z := replicate 2048 0.

Lemma demo_delivers : delivers 0 demo_ins [chunk1; chunk2].
Proof.
  apply d_skip; [by left|]. apply d_skip; [right; vm_compute; split_and!; intros; congruence|].
  apply d_chunk; [vm_compute; split_and!; intros; congruence|]. apply d_skip; [by left|].
  apply d_skip; [right; vm_compute; split_and!; intros; congruence|]. apply d_chunk; [vm_compute; split_and!; intros; congruence|]. apply d_done.
Qed.

Lemma stream_received_witness :
  ∃ rest snt b' cs', do_net_recv_stream 8 100 (mk_link demo_ins [] demo_buffer) =
      Ok (([10; 0; 0; 0; 1; 2; 3; 4; 5; 6], fletcher16 [1; 2; 3; 4; 5; 6]), mk_link rest snt b') ∧
    cs' `prefix_of` [chunk1; chunk2] ∧ needs 0 10 cs' ∧ acks snt = seqs_from 0 cs' ++ [last_seq 0 (seqs_from 0 cs')].
Proof.
  apply (stream_received 8 100 demo_ins chunk1 [chunk2] demo_buffer).
  - exact demo_delivers.
  - cbn. lia.
  - vm_compute. reflexivity.
  - vm_compute. congruence.
  - vm_compute. reflexivity.
  - vm_compute. reflexivity.
  - cbn. lia.
Defined.

Lemma fletcher16_equiv_witness : fletcher16 [1; 2; 255] = (sum_sums [1; 2; 255] mod 255) * 256 + sum_bytes [1; 2; 255] mod 255.
Proof. apply fletcher16_equiv. intros b Hb. set_unfold in Hb. lia. Defined.

(** A packet without the magic number is logged as ignored, and used. *)
Lemma wrong_magic_used :
  ∃ s', poll 1 0 (mk_link [mk_packet 0 1 6 0 chunk1] [] demo_buffer) = Ok (mk_header 0 1 6 0, s').
Proof. eexists. vm_compute. reflexivity. Qed.

(** The length of a header is not compared with the packet: a long one makes
    the copy read past [pkt]. *)
Lemma long_length_faults :
  do_net_recv_stream 2 100000 (mk_link [mk_packet 0x45 1 60000 0 [160; 134; 1; 0]] [] demo_buffer) = Panic "fault".
Proof. vm_compute. reflexivity. Qed.
