(* ===== verification/Pipe.v ===== *)
(** * kernel/mm/pipe.c: pipes that move pages

    A pipe is a queue of segments; a segment is a page taken from its sender,
    either a frame that belongs to no group while it is in the pipe or a place
    of the swap area. The state joins the memory of Frames.v, the queues of
    Sched.v, the heap the segments are allocated from and the table of pipes.
    As in Locks.v a call runs alone up to its call of [do_scheduler]; a reader
    that was parked goes on at [take_resume]. [pgdir] is the directory of the
    running process and [h] its hart. *)

From S2P Require Import Prelude CString Sched Bytes Block SdCard Pgtable Frames Vm.

Definition PIPE_MAX_COUNT : Z := 32.
Definition PIPE_NAME_MAX_LEN : Z := 32.
Definition PIPE_PAGE_SIZE : Z := PAGE_SIZE.
Definition PIPE_PAGE_ATTRS : Z := Z.lor PAGE_USER (Z.lor (Z.lor PAGE_READ PAGE_WRITE) PAGE_EXEC).
Definition SIZEOF_SEGMENT : Z := 24 + 8 + 8 + 8 + 8.

Inductive pipe_segment_type_t := PIPE_SEG_PHYS | PIPE_SEG_SWAP.
(** [seg_at] is the address of the node. *)
Record pipe_segment_t := mk_seg {
  seg_at : Z;
  seg_type : pipe_segment_type_t;
  page : Z;
  swap_id : Z;
  seg_length : Z;
}.

Record pipe_entry_t := mk_pipe {
  pipe_used : bool;
  pipe_name : list Z;
  pipe_lock : bool;
  segments : list pipe_segment_t;
  buffered_bytes : Z;
  refcnt : Z;
  ref_bitmap : Z;
  closing : bool;
}.
Definition set_lock (v : bool) (e : pipe_entry_t) : pipe_entry_t :=
  mk_pipe (pipe_used e) (pipe_name e) v (segments e) (buffered_bytes e) (refcnt e) (ref_bitmap e) (closing e).
Definition set_segments (l : list pipe_segment_t) (n : Z) (e : pipe_entry_t) : pipe_entry_t :=
  mk_pipe (pipe_used e) (pipe_name e) (pipe_lock e) l n (refcnt e) (ref_bitmap e) (closing e).
Definition set_refs (n b : Z) (e : pipe_entry_t) : pipe_entry_t :=
  mk_pipe (pipe_used e) (pipe_name e) (pipe_lock e) (segments e) (buffered_bytes e) n b (closing e).
Definition set_closing (v : bool) (e : pipe_entry_t) : pipe_entry_t :=
  mk_pipe (pipe_used e) (pipe_name e) (pipe_lock e) (segments e) (buffered_bytes e) (refcnt e) (ref_bitmap e) v.

(** ** The heap the segments live on

    What the pipes need of an allocator: [kmalloc] returns, with [NULL] or a
    block that was not live; [kfree] of a live block returns and leaves the
    others live. *)
Class SegmentHeap (H : Type) := {
  kmalloc_segment : M H Z;
  kfree_segment : Z → M H unit;
  live : H → gset Z → Prop;
  kmalloc_returns hp L : live hp L → ∃ q hp', kmalloc_segment hp = Ok (q, hp') ∧
    ((q = NULL ∧ live hp' L) ∨ (q ≠ NULL ∧ (q ∉ L) ∧ live hp' ({[q]} ∪ L)));
  kfree_returns hp L q : live hp L → q ∈ L → ∃ hp', kfree_segment q hp = Ok (tt, hp') ∧ live hp' (L ∖ {[q]});
}.

Section pipe.
Context {H : Type} `{SegmentHeap H}.

Record pstate := mk_ps {
  vm : mm;
  psch : sched;
  heap : H;
  pipe_initialized : bool;
  pipe_table_lock : bool;
  pipe_table : list pipe_entry_t;
}.
Abbreviation PM := (M pstate).

Definition on_vm {A} (m : MM A) : PM A := fun s =>
  match m (vm s) with
  | Ok (a, v) => Ok (a, mk_ps v (psch s) (heap s) (pipe_initialized s) (pipe_table_lock s) (pipe_table s))
  | Panic why => Panic why
  | OutOfFuel => OutOfFuel
  end.
Definition on_sched {A} (m : M sched A) : PM A := fun s =>
  match m (psch s) with
  | Ok (a, v) => Ok (a, mk_ps (vm s) v (heap s) (pipe_initialized s) (pipe_table_lock s) (pipe_table s))
  | Panic why => Panic why
  | OutOfFuel => OutOfFuel
  end.
Definition on_heap {A} (m : M H A) : PM A := fun s =>
  match m (heap s) with
  | Ok (a, v) => Ok (a, mk_ps (vm s) (psch s) v (pipe_initialized s) (pipe_table_lock s) (pipe_table s))
  | Panic why => Panic why
  | OutOfFuel => OutOfFuel
  end.
Definition set_table (l : list pipe_entry_t) (s : pstate) : pstate :=
  mk_ps (vm s) (psch s) (heap s) (pipe_initialized s) (pipe_table_lock s) l.
Definition set_table_lock (b : bool) (s : pstate) : pstate :=
  mk_ps (vm s) (psch s) (heap s) (pipe_initialized s) b (pipe_table s).
Definition set_initialized (b : bool) (s : pstate) : pstate :=
  mk_ps (vm s) (psch s) (heap s) b (pipe_table_lock s) (pipe_table s).

Definition get_pipe (i : nat) : PM pipe_entry_t := fun s =>
  match pipe_table s !! i with Some e => Ok (e, s) | None => Panic "fault" end.
Definition upd_pipe (i : nat) (f : pipe_entry_t → pipe_entry_t) : PM unit :=
  e <- get_pipe i ;; modify (fun s => set_table (<[i := f e]> (pipe_table s)) s).

(** [spin_lock_acquire] under the kernel lock: a lock that is taken is waited
    for forever. *)
Definition with_lock {A} (i : nat) (m : PM A) : PM A :=
  e <- get_pipe i ;;
  asserts (negb (pipe_lock e)) "spin_lock_acquire: waits forever" ;;
  upd_pipe i (set_lock true) ;;
  a <- m ;;
  upd_pipe i (set_lock false) ;;
  ret a.
Definition with_table_lock {A} (m : PM A) : PM A :=
  b <- gets pipe_table_lock ;;
  asserts (negb b) "spin_lock_acquire: waits forever" ;;
  modify (set_table_lock true) ;;
  a <- m ;;
  modify (set_table_lock false) ;;
  ret a.

(** ** Names *)
(** What [strncpy(name, l, PIPE_NAME_MAX_LEN - 1)] and the final zero leave in
    a field of [PIPE_NAME_MAX_LEN] bytes. *)
Definition name_field (l : list Z) : list Z :=
  let n := Z.to_nat (PIPE_NAME_MAX_LEN - 1) in take n l ++ replicate (n - length l) 0 ++ [0].
Definition pipe_name_equals (lhs rhs : list Z) : bool := strncmp (bytes lhs) (bytes rhs) PIPE_NAME_MAX_LEN =? 0.

(** ** Entries and segments *)
Definition pipe_entry_clear (i : nat) : PM unit :=
  on_sched (list_init (QPipe i)) ;;
  upd_pipe i (fun e => mk_pipe false (<[0%nat := 0]> (pipe_name e)) (pipe_lock e) [] 0 0 0 false).

Definition PAGE_GROUP_KERNEL : nat := 0.
Definition pipe_free_segment (seg : pipe_segment_t) : PM unit :=
  (match seg_type seg with
   | PIPE_SEG_PHYS => on_vm (attach_pageframe (page seg) PAGE_GROUP_KERNEL ;; free_pageframe (page seg))
   | PIPE_SEG_SWAP => on_vm (free_swap (swap_id seg))
   end) ;;
  on_heap (kfree_segment (seg_at seg)).

(** [list_shift] of the segments and the count of the bytes. *)
Definition pop_front (seg : pipe_segment_t) (rest : list pipe_segment_t) (e : pipe_entry_t) : pipe_entry_t :=
  set_segments rest (if buffered_bytes e >=? seg_length seg then buffered_bytes e - seg_length seg else 0) e.

(** The loop ends when the list is empty: [fuel] is one more than its length. *)
Fixpoint release_loop (fuel : nat) (i : nat) : PM unit :=
  match fuel with
  | O => no_fuel
  | S n =>
      e <- get_pipe i ;;
      match segments e with
      | [] => ret tt
      | seg :: rest => upd_pipe i (pop_front seg rest) ;; pipe_free_segment seg ;; release_loop n i
      end
  end.
Definition pipe_release_segments_locked (i : nat) : PM unit :=
  e <- get_pipe i ;; release_loop (S (length (segments e))) i.

Definition pipe_destroy_locked (i : nat) : PM unit :=
  with_lock i (upd_pipe i (set_closing true) ;; pipe_release_segments_locked i) ;;
  on_sched (unblock_list (QPipe i)) ;;
  with_lock i (pipe_entry_clear i).

Definition pipe_ids : list nat := seq 0 (Z.to_nat PIPE_MAX_COUNT).
Fixpoint for_pipes (l : list nat) (m : nat → PM unit) : PM unit :=
  match l with [] => ret tt | i :: l => m i ;; for_pipes l m end.
Definition pipe_system_init : PM unit :=
  b <- gets pipe_initialized ;;
  if (b : bool) then ret tt else
  modify (set_initialized true) ;;
  modify (set_table_lock false) ;;
  for_pipes pipe_ids (fun i => upd_pipe i (set_lock false) ;; pipe_entry_clear i).

Definition pipe_lookup_by_index (idx : Z) : PM (option nat) :=
  if (idx <? 0) || (idx >=? PIPE_MAX_COUNT) then ret None else
  e <- get_pipe (Z.to_nat idx) ;;
  if pipe_used e then ret (Some (Z.to_nat idx)) else ret None.

(** The address of a zeroed node; [length] is set and the other fields are
    given by the caller. *)
Definition pipe_alloc_segment : PM (option Z) :=
  q <- on_heap kmalloc_segment ;; ret (if q =? NULL then None else Some q).

Definition pipe_detach_page_from_sender (pgdir va : Z) (owner_group : nat) : PM (option pipe_segment_t) :=
  p <- on_vm (find_pte va pgdir false) ;;
  if p =? NULL then ret None else
  e <- on_vm (get_pte p) ;;
  if negb (has e PAGE_PRESENT || has e PAGE_SOFT) then ret None else
  seg <- pipe_alloc_segment ;;
  match seg with
  | None => ret None
  | Some q =>
      if has e PAGE_PRESENT then
        pg <- on_vm (pa2kva (get_pa e)) ;;
        id <- on_vm (pageframe_kva2attr pg) ;;
        on_vm (upd_frame id (set_pte NULL)) ;;
        on_vm (detach_pageframe pg owner_group) ;;
        on_vm (put_pte p 0) ;;
        ret (Some (mk_seg q PIPE_SEG_PHYS pg 0 PIPE_PAGE_SIZE))
      else
        on_vm (put_pte p 0) ;;
        ret (Some (mk_seg q PIPE_SEG_SWAP 0 (get_pfn e) PIPE_PAGE_SIZE))
  end.

Definition pipe_clear_dest_mapping (p : Z) : PM unit :=
  if p =? NULL then ret tt else
  e <- on_vm (get_pte p) ;;
  (if has e PAGE_PRESENT then
     old_page <- on_vm (pa2kva (get_pa e)) ;;
     id <- on_vm (pageframe_kva2attr old_page) ;;
     on_vm (upd_frame id (set_pte NULL)) ;;
     on_vm (free_pageframe old_page)
   else if has e PAGE_SOFT then on_vm (free_swap (get_pfn e))
   else ret tt) ;;
  on_vm (put_pte p 0).

Definition pipe_install_segment_to_dest (seg : pipe_segment_t) (p : Z) (dest_group : nat) : PM unit :=
  match seg_type seg with
  | PIPE_SEG_PHYS =>
      on_vm (attach_pageframe (page seg) dest_group) ;; on_vm (bind_page p (page seg) PIPE_PAGE_ATTRS) ;; ret tt
  | PIPE_SEG_SWAP =>
      e <- on_vm (get_pte p) ;;
      e <- set_attribute e PAGE_SOFT ;;
      on_vm (put_pte p (set_pfn e (swap_id seg)))
  end.

(** One turn of the loop of [pipe_pop_segment]; a parked reader takes another
    turn when it runs again. *)
Inductive popped := Got (seg : pipe_segment_t) | Closed | Parked.
Definition pipe_pop_segment (h : nat) (now : Z) (i : nat) : PM popped :=
  r <- with_lock i (
    e <- get_pipe i ;;
    match segments e with
    | seg :: rest => upd_pipe i (pop_front seg rest) ;; ret (Got seg)
    | [] =>
        if closing e || negb (pipe_used e) then ret Closed else
        cur <- on_sched (current_running h) ;;
        on_sched (do_block cur (QPipe i)) ;;
        ret Parked
    end) ;;
  match r with Parked => on_sched (do_scheduler h now) ;; ret Parked | _ => ret r end.

Definition pipe_push_segment (i : nat) (seg : pipe_segment_t) : PM bool :=
  pushed <- with_lock i (
    e <- get_pipe i ;;
    if negb (closing e) && pipe_used e then
      upd_pipe i (set_segments (segments e ++ [seg]) (u64 (buffered_bytes e + seg_length seg))) ;;
      ret true
    else ret false) ;;
  (if (pushed : bool) then on_sched (unblock_list (QPipe i)) else ret tt) ;;
  ret pushed.

(** ** The calls *)
Definition pid_bit (p : nat) : Z := u64 (Z.shiftl 1 (Z.of_nat p)).

(** The search of [pipe_open]: the pipe of that name, or the first free slot. *)
Fixpoint open_scan (local_name : list Z) (bit : Z) (l : list nat) (free_idx : Z) : PM (bool * Z) :=
  match l with
  | [] => ret (false, free_idx)
  | i :: l =>
      e <- get_pipe i ;;
      if pipe_used e && pipe_name_equals (pipe_name e) local_name then
        (if negb (bit =? 0) && (Z.land (ref_bitmap e) bit =? 0)
         then upd_pipe i (set_refs (i32 (refcnt e + 1)) (Z.lor (ref_bitmap e) bit)) else ret tt) ;;
        ret (true, Z.of_nat i)
      else open_scan local_name bit l (if negb (pipe_used e) && (free_idx =? -1) then Z.of_nat i else free_idx)
  end.
(** [None] is a null [name]. *)
Definition pipe_open (h : nat) (name : option (list Z)) : PM Z :=
  pipe_system_init ;;
  match name with
  | None => ret (-1)
  | Some name =>
      let local_name := name_field name in
      me <- on_sched (current_running h) ;;
      x <- on_sched (get_pcb me) ;;
      index <- on_sched (get_pcb_index (pid x)) ;;
      let bit := pid_bit index in
      with_table_lock (
        let* (found, idx) := open_scan local_name bit pipe_ids (-1) in
        if (found : bool) then ret idx else
        if idx =? -1 then ret (-1) else
        let i := Z.to_nat idx in
        pipe_entry_clear i ;;
        upd_pipe i (fun e => mk_pipe true (name_field (upto_nul local_name)) false (segments e) (buffered_bytes e)
          (if bit =? 0 then refcnt e else 1) (Z.lor (ref_bitmap e) bit) false) ;;
        ret idx)
  end.

Definition unaligned (a : Z) : bool := negb (Z.land a (PIPE_PAGE_SIZE - 1) =? 0).
(** A page is moved in every turn. *)
Definition pipe_fuel (length : Z) : nat := S (Z.to_nat (length / PIPE_PAGE_SIZE)).
Definition moved (processed : Z) : Z := if processed =? 0 then -1 else processed.

Fixpoint give_loop (fuel : nat) (i : nat) (pgdir : Z) (owner : nat) (length processed cursor : Z) : PM Z :=
  match fuel with
  | O => no_fuel
  | S n =>
      if processed <? length then
        seg <- pipe_detach_page_from_sender pgdir cursor owner ;;
        match seg with
        | None => ret (moved processed)
        | Some seg =>
            ok <- pipe_push_segment i seg ;;
            if (ok : bool)
            then give_loop n i pgdir owner length (u64 (processed + PIPE_PAGE_SIZE)) (u64 (cursor + PIPE_PAGE_SIZE))
            else pipe_free_segment seg ;; ret (moved processed)
        end
      else ret (moved processed)
  end.
Definition pipe_give_pages (pgdir idx src length : Z) : PM Z :=
  pipe_system_init ;;
  i <- pipe_lookup_by_index idx ;;
  match i with
  | None => ret (-1)
  | Some i =>
      if unaligned src || unaligned length then ret (-1) else
      if length =? 0 then ret 0 else
      owner <- on_vm (find_pagegroup pgdir) ;;
      give_loop (pipe_fuel length) i pgdir owner length 0 src
  end.

(** A reader returns, or is parked with the entry it is about to fill. *)
Inductive take_result := TDone (n : Z) | TParked (processed cursor dest_pte : Z).
Fixpoint take_loop (fuel : nat) (h : nat) (now : Z) (i : nat) (pgdir : Z) (dest_group : nat)
    (length processed cursor : Z) (waiting : option Z) : PM take_result :=
  match fuel with
  | O => no_fuel
  | S n =>
      if processed <? length then
        dest_pte <- (match waiting with Some p => ret p | None => on_vm (find_pte cursor pgdir true) end) ;;
        if dest_pte =? NULL then ret (TDone (moved processed)) else
        r <- pipe_pop_segment h now i ;;
        match r with
        | Parked => ret (TParked processed cursor dest_pte)
        | Closed => ret (TDone (moved processed))
        | Got seg =>
            pipe_clear_dest_mapping dest_pte ;;
            pipe_install_segment_to_dest seg dest_pte dest_group ;;
            on_heap (kfree_segment (seg_at seg)) ;;
            take_loop n h now i pgdir dest_group length (u64 (processed + PIPE_PAGE_SIZE)) (u64 (cursor + PIPE_PAGE_SIZE)) None
        end
      else ret (TDone (moved processed))
  end.
Definition pipe_take_pages (h : nat) (now pgdir idx dest length : Z) : PM take_result :=
  pipe_system_init ;;
  i <- pipe_lookup_by_index idx ;;
  match i with
  | None => ret (TDone (-1))
  | Some i =>
      if unaligned dest || unaligned length then ret (TDone (-1)) else
      if length =? 0 then ret (TDone 0) else
      dest_group <- on_vm (find_pagegroup pgdir) ;;
      take_loop (pipe_fuel length) h now i pgdir dest_group length 0 dest None
  end.
Definition take_resume (h : nat) (now pgdir idx : Z) (dest_group : nat) (length processed cursor dest_pte : Z) : PM take_result :=
  take_loop (pipe_fuel length) h now (Z.to_nat idx) pgdir dest_group length processed cursor (Some dest_pte).

Definition init_pipe : PM unit := pipe_system_init.

Definition cleanup_pipe (id : Z) : PM unit :=
  pipe_system_init ;;
  index <- on_sched (get_pcb_index id) ;;
  let mask := pid_bit index in
  with_table_lock (for_pipes pipe_ids (fun i =>
    e <- get_pipe i ;;
    if negb (pipe_used e) then ret tt else
    if Z.land (ref_bitmap e) mask =? 0 then ret tt else
    upd_pipe i (set_refs (if refcnt e >? 0 then refcnt e - 1 else refcnt e) (Z.land (ref_bitmap e) (not64 mask))) ;;
    e <- get_pipe i ;;
    if refcnt e =? 0 then pipe_destroy_locked i else ret tt)).

End pipe.
