(* ===== verification/PipeHeap.v ===== *)
(** * The kernel heap as the heap of the pipe segments *)

From S2P Require Import Prelude Kmalloc KmallocLists BuddyTree KmallocAlloc KmallocFree KmallocSafety Pipe.

Section heap.
Context {base : Z} {HP : PoolAt base}.

(** The blocks of [B] are live in the heap. *)
Definition heap_live (s : kstate) (B : gset Z) : Prop := ∃ L, heap_inv base s L ∧ B ⊆ dom L.

Lemma segment_size : 0 ≤ SIZEOF_SEGMENT ∧ SIZEOF_SEGMENT + sizeof_header < 2 ^ 64.
Proof. done. Qed.

Lemma malloc_live s B :
  heap_live s B → ∃ q s', kmalloc base SIZEOF_SEGMENT s = Ok (q, s') ∧
    ((q = NULL ∧ heap_live s' B) ∨ (q ≠ NULL ∧ (q ∉ B) ∧ heap_live s' ({[q]} ∪ B))).
Proof.
  intros (L & Hinv & HB). destruct segment_size as [Hs Hov].
  destruct (heap_inv_ready s L Hinv) as (s1 & t & Hk & Ht & Em & _). rewrite Em.
  destruct (kmalloc_run s1 t SIZEOF_SEGMENT Hk Hs) as [[R _]|(q & s2 & t2 & R & Hpos & Hq & _ & Hal)].
  - exists NULL, s1. split; [done|]. left. split; [done|]. exists L. split; [right; by exists t|done].
  - exists q, s2. split; [done|]. right. pose proof (tracks_malloc _ _ _ _ _ _ _ Ht Hpos Hov Hal) as Ht2.
    destruct Hal as (Hk2 & (b & Hcv & Hb & _) & _). pose proof (carved_used _ _ _ _ Hcv) as HU. rewrite Hb in HU.
    split_and!; [done| |].
    + intros Hin%HB. apply elem_of_dom in Hin as [n Hn]. destruct (tr_live _ _ _ Ht _ _ Hn) as (_ & _ & Hu).
      pose proof (used_nodup _ _ Hk2) as Hnd. rewrite HU in Hnd. cbn in Hnd. apply NoDup_cons in Hnd as [Hnot _].
      apply Hnot. apply list_elem_of_fmap. by exists (request_order n, q - sizeof_header).
    + exists (<[q := SIZEOF_SEGMENT]> L). split; [right; by exists t2|]. rewrite dom_insert_L. set_solver.
Qed.

Lemma free_live s B q :
  heap_live s B → q ∈ B → ∃ s', kfree base kfree_fuel q s = Ok (tt, s') ∧ heap_live s' (B ∖ {[q]}).
Proof.
  intros (L & Hinv & HB) Hq. apply HB in Hq as Hin. apply elem_of_dom in Hin as [n Hn].
  destruct (heap_inv_ready s L Hinv) as (s1 & t & Hk & Ht & _ & Ef & _). rewrite Ef.
  destruct (tr_live _ _ _ Ht _ _ Hn) as (_ & _ & Hu).
  destruct (kfree_run s1 t _ _ kfree_fuel Hk Hu) as (s2 & t2 & R & Hrel & _); [done|]. rewrite Z.sub_add in R, Hrel.
  exists s2. split; [done|]. exists (delete q L). split; [|rewrite dom_delete_L; set_solver].
  right. exists t2. split; [by destruct Hrel as [? _]|by eapply tracks_free].
Qed.

#[global] Instance kernel_heap : SegmentHeap kstate := {
  kmalloc_segment := kmalloc base SIZEOF_SEGMENT;
  kfree_segment := kfree base kfree_fuel;
  live := heap_live;
  kmalloc_returns := malloc_live;
  kfree_returns := free_live;
}.

End heap.
