(* ===== verification/PipeProofs.v ===== *)
(** * The runs of the operations of pipe.c *)

From S2P Require Import Prelude CString Sched SchedProofs SchedTheorems Bytes Block SdCard Pgtable PgtableProofs Frames.
From S2P Require Import FrameProofs FrameAlloc EvictProofs Vm SwapProofs MmTheorems Pipe.

(** ** Memory that changes in some bytes only *)
Definition same_off (A : Z → Prop) (m m' : ram) : Prop := ∀ a, ¬ A a → m' a = m a.
Definition in_entries (ps : list Z) (a : Z) : Prop := ∃ p, p ∈ ps ∧ p ≤ a < p + 8.

(** The walk for [va] ends at [p], through entries outside of [A]. *)
Definition walks_off (A : Z → Prop) (v : mm) (pgdir va p : Z) : Prop :=
  ∃ vpn2 vpn1 vpn0 level1 level0, get_vpn va = (vpn2, vpn1, vpn0) ∧ level v pgdir vpn2 level1 ∧
    level v level1 vpn1 level0 ∧ p = entry_addr level0 vpn0 ∧ p ≠ NULL ∧
    (∀ a, entry_addr pgdir vpn2 ≤ a < entry_addr pgdir vpn2 + 8 → ¬ A a) ∧
    (∀ a, entry_addr level1 vpn1 ≤ a < entry_addr level1 vpn1 + 8 → ¬ A a).

Lemma walks_off_walks A v pgdir va p : walks_off A v pgdir va p → walks v pgdir va p.
Proof. intros (v2 & v1 & v0 & l1 & l0 & E & H2 & H1 & Ep & Hp & _). by exists v2, v1, v0, l1, l0. Qed.

Lemma level_off A v v' dir i next :
  same_off A (mem v) (mem v') → (∀ a, entry_addr dir i ≤ a < entry_addr dir i + 8 → ¬ A a) →
  level v dir i next → level v' dir i next.
Proof.
  intros Hs Ha. unfold level. rewrite (load_ext (mem v) (mem v') (entry_addr dir i)); [done|]. intros a Hin. by apply Hs, Ha.
Qed.

Lemma walks_off_same A v v' pgdir va p :
  same_off A (mem v) (mem v') → walks_off A v pgdir va p → walks_off A v' pgdir va p.
Proof.
  intros Hs (v2 & v1 & v0 & l1 & l0 & E & H2 & H1 & Ep & Hp & A2 & A1). exists v2, v1, v0, l1, l0.
  split_and!; try done; by eapply level_off.
Qed.

Lemma walks_off_mono (A B : Z → Prop) v pgdir va p : (∀ a, A a → B a) → walks_off B v pgdir va p → walks_off A v pgdir va p.
Proof.
  intros HAB (v2 & v1 & v0 & l1 & l0 & E & H2 & H1 & Ep & Hp & A2 & A1). exists v2, v1, v0, l1, l0.
  split_and!; try done; intros a Ha Hin; [by apply (A2 a Ha), HAB|by apply (A1 a Ha), HAB].
Qed.

Lemma same_off_trans A m1 m2 m3 : same_off A m1 m2 → same_off A m2 m3 → same_off A m1 m3.
Proof. intros H1 H2 a Ha. by rewrite H2, H1. Qed.

Lemma same_off_store (A : Z → Prop) p w m : (∀ a, p ≤ a < p + 8 → A a) → same_off A m (store64 p w m).
Proof.
  intros Hin a Ha. apply put_bytes_out. rewrite le_length.
  destruct (decide (a < p)); [by left|]. right. destruct (decide (p + 8 ≤ a)); [lia|]. exfalso. apply Ha, Hin. lia.
Qed.

(** ** Lifting *)
Section proofs.
Context {H : Type} `{SegmentHeap H}.
Implicit Types s : pstate (H := H).

Definition set_vm (v : mm) s : pstate :=
  mk_ps v (psch s) (heap s) (pipe_initialized s) (pipe_table_lock s) (pipe_table s).
Definition set_psch (v : sched) s : pstate :=
  mk_ps (vm s) v (heap s) (pipe_initialized s) (pipe_table_lock s) (pipe_table s).
Definition set_heap (v : H) s : pstate :=
  mk_ps (vm s) (psch s) v (pipe_initialized s) (pipe_table_lock s) (pipe_table s).

Lemma on_vm_run {A} (m : MM A) s a v : m (vm s) = Ok (a, v) → on_vm m s = Ok (a, set_vm v s).
Proof. unfold on_vm. by intros ->. Qed.
Lemma on_vm_same {A} (m : MM A) s a : m (vm s) = Ok (a, vm s) → on_vm m s = Ok (a, s).
Proof. unfold on_vm. intros ->. by destruct s. Qed.
Lemma on_sched_run {A} (m : M sched A) s a v : m (psch s) = Ok (a, v) → on_sched m s = Ok (a, set_psch v s).
Proof. unfold on_sched. by intros ->. Qed.
Lemma on_heap_run {A} (m : M H A) s a v : m (heap s) = Ok (a, v) → on_heap m s = Ok (a, set_heap v s).
Proof. unfold on_heap. by intros ->. Qed.
Lemma get_pipe_run i e s : pipe_table s !! i = Some e → get_pipe i s = Ok (e, s).
Proof. unfold get_pipe. by intros ->. Qed.
Lemma upd_pipe_run i e f s :
  pipe_table s !! i = Some e → upd_pipe i f s = Ok (tt, set_table (<[i := f e]> (pipe_table s)) s).
Proof. intros He. unfold upd_pipe. by rewrite (bind_Ok _ _ _ _ _ (get_pipe_run i e s He)). Qed.

(** A pipe that is open and not locked. *)
Definition ready (i : nat) (e : pipe_entry_t) s : Prop :=
  pipe_initialized s = true ∧ pipe_table s !! i = Some e ∧ pipe_used e = true ∧ closing e = false ∧ pipe_lock e = false.

Lemma lookup_insert_pipe i e e' s : pipe_table s !! i = Some e → <[i := e']> (pipe_table s) !! i = Some e'.
Proof. intros He. apply list_lookup_insert_eq. by eapply lookup_lt_Some. Qed.

(** ** Sending *)
(** [v'] is [v] after frame [id], which [p] mapped, left the group [g]. *)
Record handed (v v' : mm) (p id : Z) (g : nat) : Prop := {
  hd_mem : mem v' = store64 p 0 (mem v);
  hd_frames j : frames v' j = if decide (j = id) then mk_frame None NULL (uva (frames v id)) else frames v j;
  hd_groups x : page_groups v !! g = Some x →
    page_groups v' = <[g := set_used (u64 (used x - 1)) (set_pages (filter (fun i => i ≠ id) (pages x)) x)]> (page_groups v);
  hd_rest : v' = set_mem (mem v') (set_groups (page_groups v') (set_frames (frames v') v));
}.

Lemma detach_frame_run v p id g x :
  p ≠ NULL → frame_id id → container (frames v id) = Some g → page_groups v !! g = Some x →
  ∃ v1 v2 v', upd_frame id (set_pte NULL) v = Ok (tt, v1) ∧ detach_pageframe (kva_of id) g v1 = Ok (tt, v2) ∧
    put_pte p 0 v2 = Ok (tt, v') ∧ handed v v' p id g.
Proof.
  intros Hp Hid Hc Hx. set (v1 := set_frames (<[id := set_pte NULL (frames v id)]> (frames v)) v).
  assert (container (frames v1 id) = Some g) as Hc1 by (unfold v1; cbn; by rewrite fn_lookup_insert).
  eexists v1, _, _. split; [by apply upd_frame_run|]. split.
  { unfold detach_pageframe, fifo_detach. rewrite kva2id_of by done.
    rewrite (bind_Ok _ _ _ _ _ (frame_delete_run v1 g x id Hid Hc1 Hx)).
    apply (upd_group_run _ g (set_pages (filter (fun i => i ≠ id) (pages x)) x)). cbn.
    apply list_lookup_insert_eq. by eapply lookup_lt_Some. }
  split; [by apply put_pte_run|]. split; cbn.
  - done.
  - intros j. case_decide as E; [subst|]; rewrite ?fn_lookup_insert, ?fn_lookup_insert_ne by done; done.
  - intros x' Hx'. rewrite Hx in Hx'. injection Hx' as <-. by rewrite list_insert_insert_eq.
  - by rewrite list_insert_insert_eq.
Qed.

Lemma detach_page_run s pgdir va p e a id g x q hp' :
  walks (vm s) pgdir va p → load64 (mem (vm s)) p = bound_entry e id a → 0 ≤ a < 1024 → frame_id id →
  container (frames (vm s) id) = Some g → page_groups (vm s) !! g = Some x →
  kmalloc_segment (heap s) = Ok (q, hp') → q ≠ NULL →
  ∃ v', pipe_detach_page_from_sender pgdir va g s =
    Ok (Some (mk_seg q PIPE_SEG_PHYS (kva_of id) 0 PIPE_PAGE_SIZE), set_vm v' (set_heap hp' s)) ∧
    handed (vm s) v' p id g.
Proof.
  intros Hw He Ha Hid Hc Hx Hq Hqn. pose proof (walks_nonnull _ _ _ _ Hw) as Hp.
  destruct (detach_frame_run (vm s) p id g x Hp Hid Hc Hx) as (v1 & v2 & v' & R1 & R2 & R3 & Hh). exists v'. split; [|done].
  unfold pipe_detach_page_from_sender.
  rewrite (bind_Ok _ _ _ _ _ (on_vm_same _ s _ (find_pte_run (vm s) pgdir va p false Hw))), (proj2 (Z.eqb_neq _ _) Hp).
  rewrite (bind_Ok _ _ _ _ _ (on_vm_same _ s _ (get_pte_run (vm s) p Hp))), He, bound_present by done. cbn [orb negb].
  unfold pipe_alloc_segment. rewrite <- bind_assoc, (bind_Ok _ _ _ _ _ (on_heap_run _ s _ _ Hq)).
  rewrite (proj2 (Z.eqb_neq _ _) Hqn). set (s1 := set_heap hp' s). rewrite (bind_Ok _ _ s1 (Some q) s1) by reflexivity.
  rewrite (bind_Ok _ _ _ _ _ (on_vm_same _ s1 _ (bound_walk (vm s1) e id a Hid Ha))).
  rewrite (bind_Ok _ _ s1 id s1).
  2:{ apply on_vm_same. unfold pageframe_kva2attr. by rewrite kva2id_of, frame_index_true. }
  rewrite (bind_Ok _ _ _ _ _ (on_vm_run _ s1 _ _ R1)).
  rewrite (bind_Ok _ _ _ _ _ (on_vm_run _ (set_vm v1 s1) _ _ R2)).
  by rewrite (bind_Ok _ _ _ _ _ (on_vm_run _ (set_vm v2 (set_vm v1 s1)) _ _ R3)).
Qed.

Lemma with_lock_run {A} i e (m : M (pstate (H := H)) A) s a s1 e1 :
  pipe_table s !! i = Some e → pipe_lock e = false →
  m (set_table (<[i := set_lock true e]> (pipe_table s)) s) = Ok (a, s1) → pipe_table s1 !! i = Some e1 →
  with_lock i m s = Ok (a, set_table (<[i := set_lock false e1]> (pipe_table s1)) s1).
Proof.
  intros He Hl Hm He1. unfold with_lock. rewrite (bind_Ok _ _ _ _ _ (get_pipe_run i e s He)), Hl. cbn [negb asserts].
  rewrite (bind_Ok _ _ s tt s) by reflexivity. rewrite (bind_Ok _ _ _ _ _ (upd_pipe_run i e _ s He)), (bind_Ok _ _ _ _ _ Hm).
  by rewrite (bind_Ok _ _ _ _ _ (upd_pipe_run i e1 _ s1 He1)).
Qed.

(** The entry after a segment was put at the back. *)
Definition pushed (seg : pipe_segment_t) (e : pipe_entry_t) : pipe_entry_t :=
  set_segments (segments e ++ [seg]) (u64 (buffered_bytes e + seg_length seg)) e.

Lemma push_run i e s seg :
  ready i e s → sched_good (psch s) →
  ∃ v, pipe_push_segment i seg s = Ok (true, set_psch v (set_table (<[i := pushed seg e]> (pipe_table s)) s)) ∧ sched_good v.
Proof.
  intros (Hi & He & Hu & Hc & Hl) Hg. destruct (unblock_good (QPipe i) (psch s) Hg ltac:(done)) as (v & R & Hv). exists v. split; [|done].
  unfold pipe_push_segment. set (s1 := set_table (<[i := set_lock true e]> (pipe_table s)) s).
  assert (pipe_table s1 !! i = Some (set_lock true e)) as He1 by (by eapply lookup_insert_pipe).
  rewrite (bind_Ok _ _ s true (set_table (<[i := pushed seg e]> (pipe_table s)) s)).
  - by rewrite (bind_Ok _ _ _ _ _ (on_sched_run _ (set_table (<[i := pushed seg e]> (pipe_table s)) s) _ _ R)).
  - erewrite (with_lock_run i e); [|done|done| |].
    2:{ fold s1. rewrite (bind_Ok _ _ _ _ _ (get_pipe_run i _ s1 He1)). cbn [closing set_lock pipe_used]. rewrite Hc, Hu. cbn [negb andb].
        by rewrite (bind_Ok _ _ _ _ _ (upd_pipe_run i _ _ s1 He1)). }
    2:{ cbn. rewrite list_insert_insert_eq. by eapply lookup_insert_pipe. }
    cbn. rewrite !list_insert_insert_eq. unfold pushed, set_table. do 4 f_equal. destruct e; cbn in *. by subst.
Qed.

(** ** Taking *)
(** [v'] is [v] after frame [id] joined the group [g], mapped by [p]. *)
Record installed (v v' : mm) (p id : Z) (g : nat) : Prop := {
  in_mem : mem v' = store64 p (bound_entry 0 id PIPE_PAGE_ATTRS) (store64 p 0 (mem v));
  in_frames j : frames v' j = if decide (j = id) then mk_frame (Some g) p (uva (frames v id)) else frames v j;
  in_groups x : page_groups v !! g = Some x →
    page_groups v' = <[g := set_used (used x + 1) (set_pages (id :: pages x) x)]> (page_groups v);
  in_rest : v' = set_mem (mem v') (set_groups (page_groups v') (set_frames (frames v') v));
}.

Lemma pipe_attrs_low : 0 ≤ PIPE_PAGE_ATTRS < 1024.
Proof. done. Qed.

Lemma attach_page_run v id g x :
  frame_id id → container (frames v id) = None → page_groups v !! g = Some x → 0 ≤ used x → used x + 1 ≤ capacity x → capacity x < 2 ^ 64 →
  ∃ v', attach_pageframe (kva_of id) g v = Ok (tt, v') ∧ mem v' = mem v ∧
    frames v' = <[id := set_container (Some g) (frames v id)]> (frames v) ∧
    page_groups v' = <[g := set_used (used x + 1) (set_pages (id :: pages x) x)]> (page_groups v) ∧
    v' = set_groups (page_groups v') (set_frames (frames v') v).
Proof.
  intros Hid Hc Hx Hu Hcap Hsz. unfold attach_pageframe, fifo_attach. rewrite kva2id_of by done.
  rewrite (bind_Ok _ _ _ _ _ (shrink_room v g x 1 Hx Hu ltac:(lia) ltac:(lia) Hcap)).
  rewrite (bind_Ok _ _ _ _ _ (frame_prepend_run v g x id Hid Hc Hx)). eexists. split.
  { apply (upd_group_run _ g (set_pages (id :: pages x) x)). cbn. apply list_lookup_insert_eq. by eapply lookup_lt_Some. }
  cbn. rewrite list_insert_insert_eq, u64_small by lia. done.
Qed.

Lemma install_run s p id g x seg :
  seg_type seg = PIPE_SEG_PHYS → page seg = kva_of id →
  load64 (mem (vm s)) p = 0 → p ≠ NULL → (∀ a, 0 ≤ mem (vm s) a < 256) → frame_id id →
  container (frames (vm s) id) = None → page_groups (vm s) !! g = Some x → 0 ≤ used x → used x + 1 ≤ capacity x → capacity x < 2 ^ 64 →
  ∃ v', (pipe_clear_dest_mapping p ;; pipe_install_segment_to_dest seg p g) s =
    Ok (tt, set_vm v' s) ∧ installed (vm s) v' p id g.
Proof.
  intros Ht Hpg Hz Hp Hb Hid Hc Hx Hu Hcap Hsz. set (v1 := set_mem (store64 p 0 (mem (vm s))) (vm s)).
  destruct (attach_page_run v1 id g x Hid Hc Hx Hu Hcap Hsz) as (v2 & R2 & Em & Ef & Eg & Er).
  assert (∀ a, 0 ≤ mem v2 a < 256) as Hb2 by (rewrite Em; by apply store_range).
  pose proof (bind_page_run v2 p id PIPE_PAGE_ATTRS Hp Hid pipe_attrs_low Hb2) as R3.
  assert (load64 (mem v2) p = 0) as E0 by (rewrite Em; apply load_store; done).
  rewrite E0 in R3. set (v3 := set_frames _ _) in R3. exists v3. split.
  - rewrite (bind_Ok _ _ s tt (set_vm v1 s)).
    + unfold pipe_install_segment_to_dest. rewrite Ht, Hpg.
      rewrite (bind_Ok _ _ _ _ _ (on_vm_run _ (set_vm v1 s) _ _ R2)).
      by rewrite (bind_Ok _ _ _ _ _ (on_vm_run _ (set_vm v2 (set_vm v1 s)) _ _ R3)).
    + unfold pipe_clear_dest_mapping. rewrite (proj2 (Z.eqb_neq _ _) Hp).
      rewrite (bind_Ok _ _ _ _ _ (on_vm_same _ s _ (get_pte_run (vm s) p Hp))), Hz.
      change (has 0 PAGE_PRESENT) with false. change (has 0 PAGE_SOFT) with false. cbn iota.
      rewrite (bind_Ok _ _ s tt s) by reflexivity. by rewrite (on_vm_run _ s _ _ (put_pte_run (vm s) p 0 Hp)).
  - split; unfold v3; cbn.
    + by rewrite Em.
    + intros j. rewrite Ef. cbn. case_decide as E; [subst|]; rewrite ?fn_lookup_insert, ?fn_lookup_insert_ne by done; done.
    + intros x' Hx'. rewrite Hx in Hx'. injection Hx' as <-. by rewrite Eg.
    + rewrite Er. done.
Qed.

Lemma pop_run i e s seg rest h now :
  ready i e s → segments e = seg :: rest →
  pipe_pop_segment h now i s = Ok (Got seg, set_table (<[i := pop_front seg rest e]> (pipe_table s)) s).
Proof.
  intros (Hi & He & Hu & Hc & Hl) Hs. unfold pipe_pop_segment. set (s1 := set_table (<[i := set_lock true e]> (pipe_table s)) s).
  assert (pipe_table s1 !! i = Some (set_lock true e)) as He1 by (by eapply lookup_insert_pipe).
  rewrite (bind_Ok _ _ s (Got seg) (set_table (<[i := pop_front seg rest e]> (pipe_table s)) s)); [done|].
  erewrite (with_lock_run i e); [|done|done| |].
  2:{ fold s1. rewrite (bind_Ok _ _ _ _ _ (get_pipe_run i _ s1 He1)). cbn [segments set_lock]. rewrite Hs.
      by rewrite (bind_Ok _ _ _ _ _ (upd_pipe_run i _ _ s1 He1)). }
  2:{ cbn. rewrite list_insert_insert_eq. by eapply lookup_insert_pipe. }
  cbn. rewrite !list_insert_insert_eq. unfold set_table. do 4 f_equal. destruct e; cbn in *. by subst.
Qed.

End proofs.
