(* ===== verification/PipeTheorems.v ===== *)
(** * Pages through a pipe *)

From S2P Require Import Prelude CString Sched SchedProofs SchedTheorems Bytes Block SdCard Pgtable PgtableProofs Frames.
From S2P Require Import FrameProofs FrameAlloc EvictProofs Vm SwapProofs MmTheorems Pipe PipeProofs.

(** Two mapped pages: their entries do not overlap and their frames differ. *)
Definition separate (x y : Z * Z) : Prop := (x.1 + 8 ≤ y.1 ∨ y.1 + 8 ≤ x.1) ∧ x.2 ≠ y.2.

(** From [va] on, the pages of [L] (entry, frame) are mapped, and belong to [g]. *)
Definition page_at (A : Z → Prop) (v : mm) (pgdir : Z) (g : nat) (va p id : Z) : Prop :=
  walks_off A v pgdir va p ∧ (∃ e a, 0 ≤ a < 1024 ∧ load64 (mem v) p = bound_entry e id a) ∧
  frame_id id ∧ container (frames v id) = Some g.
Fixpoint pages_at (A : Z → Prop) (v : mm) (pgdir : Z) (g : nat) (va : Z) (L : list (Z * Z)) : Prop :=
  match L with
  | [] => True
  | (p, id) :: L => page_at A v pgdir g va p id ∧ pages_at A v pgdir g (va + PAGE_SIZE) L
  end.
(** From [va] on, nothing is mapped; the entries are [ps]. *)
Fixpoint slots_at (A : Z → Prop) (v : mm) (pgdir va : Z) (ps : list Z) : Prop :=
  match ps with
  | [] => True
  | p :: ps => walks_off A v pgdir va p ∧ load64 (mem v) p = 0 ∧ slots_at A v pgdir (va + PAGE_SIZE) ps
  end.

(** The pages of [L] left the group [g], and nothing else changed. *)
Record given (v v' : mm) (g : nat) (L : list (Z * Z)) : Prop := {
  gv_mem : same_off (in_entries L.*1) (mem v) (mem v');
  gv_zero p : p ∈ L.*1 → load64 (mem v') p = 0;
  gv_frames j : j ∉ L.*2 → frames v' j = frames v j;
  gv_alone j : j ∈ L.*2 → container (frames v' j) = None;
  gv_group x : page_groups v !! g = Some x → ∃ x', page_groups v' !! g = Some x' ∧
    pages x' = filter (fun j => j ∉ L.*2) (pages x) ∧ capacity x' = capacity x ∧
    (Z.of_nat (length L) ≤ used x < 2 ^ 64 → used x' = used x - Z.of_nat (length L));
  gv_groups g' : g' ≠ g → page_groups v' !! g' = page_groups v !! g';
  gv_bytes : (∀ a, 0 ≤ mem v a < 256) → ∀ a, 0 ≤ mem v' a < 256;
  gv_card : card v' = card v ∧ attrs v' = attrs v ∧ swap_using v' = swap_using v;
}.

(** The pages of [L] joined the group [g] at their entries. *)
Record received (v v' : mm) (g : nat) (L : list (Z * Z)) : Prop := {
  rc_mem : same_off (in_entries L.*1) (mem v) (mem v');
  rc_entry p id : (p, id) ∈ L → load64 (mem v') p = bound_entry 0 id PIPE_PAGE_ATTRS;
  rc_frames j : j ∉ L.*2 → frames v' j = frames v j;
  rc_mapped p id : (p, id) ∈ L → container (frames v' id) = Some g ∧ pte (frames v' id) = p;
  rc_group x : page_groups v !! g = Some x → ∃ x', page_groups v' !! g = Some x' ∧
    pages x' = reverse L.*2 ++ pages x ∧ used x' = used x + Z.of_nat (length L) ∧ capacity x' = capacity x;
  rc_groups g' : g' ≠ g → page_groups v' !! g' = page_groups v !! g';
  rc_card : card v' = card v ∧ attrs v' = attrs v ∧ swap_using v' = swap_using v;
}.

(** The segment of the frame [id]. *)
Definition carries (seg : pipe_segment_t) (id : Z) : Prop :=
  seg_type seg = PIPE_SEG_PHYS ∧ page seg = kva_of id ∧ seg_length seg = PIPE_PAGE_SIZE.

(** ** Entries that are apart *)
Lemma in_entries_cons p ps a : in_entries (p :: ps) a ↔ p ≤ a < p + 8 ∨ in_entries ps a.
Proof. unfold in_entries. setoid_rewrite elem_of_cons. naive_solver. Qed.

Lemma entries_apart (x : Z * Z) L a : Forall (separate x) L → x.1 ≤ a < x.1 + 8 → ¬ in_entries L.*1 a.
Proof.
  intros HL Ha (p & Hp & Hin). apply list_elem_of_fmap in Hp as (y & -> & Hy).
  rewrite Forall_forall in HL. destruct (HL y Hy) as [? _]. lia.
Qed.

Lemma load_apart (x : Z * Z) L m m' :
  Forall (separate x) L → same_off (in_entries L.*1) m m' → load64 m' x.1 = load64 m x.1.
Proof. intros HL Hs. apply load_ext. intros a Ha. apply Hs. by eapply entries_apart. Qed.

Lemma same_off_mono (A B : Z → Prop) m m' : (∀ a, A a → B a) → same_off A m m' → same_off B m m'.
Proof. intros HAB Hs a Ha. apply Hs. naive_solver. Qed.

Lemma pages_at_keep A v v' pgdir g va L (x : Z * Z) :
  same_off A (mem v) (mem v') → Forall (separate x) L →
  (∀ y, y ∈ L → load64 (mem v') y.1 = load64 (mem v) y.1) →
  (∀ j, j ≠ x.2 → container (frames v' j) = container (frames v j)) →
  pages_at A v pgdir g va L → pages_at A v' pgdir g va L.
Proof.
  intros Hs. revert va. induction L as [|[p id] L IH]; intros va HL Hl Hf; [done|]. intros [(Hw & (e & a & Ha & He) & Hid & Hc) Hr].
  inversion HL as [|?? [_ Hne] HL']; subst. split; [split_and!|].
  - by eapply walks_off_same.
  - exists e, a. split; [done|]. rewrite <- He. apply (Hl (p, id)). by left.
  - done.
  - rewrite <- Hc. apply Hf. cbn in Hne. congruence.
  - apply IH; [done| |done|done]. intros y Hy. apply Hl. by right.
Qed.

Lemma slots_at_keep A v v' pgdir va ps :
  same_off A (mem v) (mem v') → (∀ p, p ∈ ps → load64 (mem v') p = load64 (mem v) p) →
  slots_at A v pgdir va ps → slots_at A v' pgdir va ps.
Proof.
  intros Hs. revert va. induction ps as [|p ps IH]; intros va Hl; [done|]. intros (Hw & H0 & Hr). split_and!.
  - by eapply walks_off_same.
  - rewrite Hl by left. done.
  - apply IH; [|done]. intros q Hq. apply Hl. by right.
Qed.

Lemma store_keeps (x y : Z * Z) w m : separate x y → load64 (store64 x.1 w m) y.1 = load64 m y.1.
Proof. intros [Hap _]. apply load_store_apart. lia. Qed.

(** ** The loops *)
Section loops.
Context {H : Type} `{SegmentHeap H}.
Implicit Types s : pstate (H := H).

(** The next [n] calls of [kmalloc] find a block. *)
Fixpoint heap_gives (n : nat) (hp : H) : Prop :=
  match n with
  | O => True
  | S n => ∃ q hp', kmalloc_segment hp = Ok (q, hp') ∧ q ≠ NULL ∧ heap_gives n hp'
  end.

Definition nodes (segs : list pipe_segment_t) : gset Z := list_to_set (seg_at <$> segs).

Lemma given_nil v g : given v v g [].
Proof.
  split; cbn; try done; try set_solver. intros x Hx. exists x. split_and!; [done| |done|lia].
  symmetry. apply filter_all. set_solver.
Qed.

(** One page, and then the rest. *)
Lemma given_cons v v1 v' g p id L x :
  page_groups v !! g = Some x → handed v v1 p id g → Forall (separate (p, id)) L → given v1 v' g L → given v v' g ((p, id) :: L).
Proof.
  intros Hx Hh HL Hg. assert (id ∉ L.*2) as Hni.
  { intros (y & Ey & Hy)%list_elem_of_fmap. rewrite Forall_forall in HL. by destruct (HL y Hy) as [_ ?]. }
  pose proof (hd_groups _ _ _ _ _ Hh x Hx) as Eg. pose proof (hd_rest _ _ _ _ _ Hh) as Er.
  split; cbn [fmap list_fmap fst snd].
  - intros a Ha. rewrite in_entries_cons in Ha. rewrite (gv_mem _ _ _ _ Hg) by tauto. rewrite (hd_mem _ _ _ _ _ Hh).
    apply (same_off_store (fun a => p ≤ a < p + 8)); tauto.
  - intros q [->|Hq]%elem_of_cons; [|by apply (gv_zero _ _ _ _ Hg)].
    etransitivity; [exact (load_apart (p, id) L _ _ HL (gv_mem _ _ _ _ Hg))|]. rewrite (hd_mem _ _ _ _ _ Hh). by apply load_store.
  - intros j [Hj1 Hj2]%not_elem_of_cons. by rewrite (gv_frames _ _ _ _ Hg), (hd_frames _ _ _ _ _ Hh), decide_False.
  - intros j [->|Hj]%elem_of_cons; [|by apply (gv_alone _ _ _ _ Hg)].
    by rewrite (gv_frames _ _ _ _ Hg), (hd_frames _ _ _ _ _ Hh), decide_True.
  - intros x0 Hx0. rewrite Hx in Hx0. injection Hx0 as <-.
    destruct (gv_group _ _ _ _ Hg (set_used (u64 (used x - 1)) (set_pages (filter (fun i => i ≠ id) (pages x)) x)))
      as (x' & Hx' & Ep & Ec & Eu).
    { rewrite Eg. apply list_lookup_insert_eq. by eapply lookup_lt_Some. }
    exists x'. split_and!; [done| |done|].
    + rewrite Ep. cbn [pages set_used set_pages]. rewrite list_filter_filter.
      apply list_filter_iff. intros j. rewrite not_elem_of_cons. tauto.
    + cbn [length used set_used] in *. intros Hu. rewrite u64_small in Eu by lia. rewrite Eu by lia. lia.
  - intros g' Hg'. rewrite (gv_groups _ _ _ _ Hg) by done. rewrite Eg. by apply list_lookup_insert_ne.
  - intros Hb. apply (gv_bytes _ _ _ _ Hg). rewrite (hd_mem _ _ _ _ _ Hh). by apply store_range.
  - destruct (gv_card _ _ _ _ Hg) as (-> & -> & ->). rewrite Er. done.
Qed.

Lemma moved_pos n : 0 < n → moved n = n.
Proof. intros Hn. unfold moved. by rewrite (proj2 (Z.eqb_neq _ _)) by lia. Qed.

Lemma give_loop_run L0 L fuel s i e pgdir g va total processed B :
  ready i e s → sched_good (psch s) → live (heap s) B → heap_gives (length L) (heap s) →
  pages_at (in_entries L0) (vm s) pgdir g va L → L.*1 ⊆ L0 → ForallOrdPairs separate L →
  is_Some (page_groups (vm s) !! g) → 0 ≤ va → va + Z.of_nat (length L) * PAGE_SIZE < 2 ^ 64 →
  0 ≤ processed → total = processed + Z.of_nat (length L) * PAGE_SIZE → total < 2 ^ 64 → (length L < fuel)%nat →
  ∃ segs s' e', give_loop fuel i pgdir g total processed va s = Ok (moved total, s') ∧ ready i e' s' ∧
    segments e' = segments e ++ segs ∧ Forall2 carries segs L.*2 ∧ sched_good (psch s') ∧
    live (heap s') (nodes segs ∪ B) ∧ NoDup (seg_at <$> segs) ∧ nodes segs ## B ∧ given (vm s) (vm s') g L.
Proof.
  revert fuel s e va processed B. induction L as [|[p id] L IH];
    intros fuel s e va processed B Hr Hsg Hlv Hgv Hpg Hsub Hsep [x Hx] Hva0 Hva Hp0 Htot Hlt Hfuel;
    (destruct fuel as [|fuel]; [cbn in Hfuel; lia|]).
  - exists [], s, e. cbn [give_loop]. cbn in Htot. rewrite (proj2 (Z.ltb_ge _ _)) by lia.
    replace total with processed by lia. rewrite app_nil_r. unfold nodes. cbn. rewrite union_empty_l_L.
    split_and!; try done; [by apply NoDup_nil_2|apply given_nil].
  - cbn [length] in Htot, Hva, Hfuel, Hgv. change PAGE_SIZE with 4096 in *. destruct Hgv as (q & hp' & Hq & Hqn & Hgv).
    destruct Hpg as [(Hw & (e0 & a & Ha & He) & Hid & Hc) Hpg]. inversion Hsep as [|?? HL Hsep']; subst.
    destruct (detach_page_run s pgdir va p e0 a id g x q hp' (walks_off_walks _ _ _ _ _ Hw) He Ha Hid Hc Hx Hq Hqn) as (v1 & R1 & Hh).
    set (seg := mk_seg q PIPE_SEG_PHYS (kva_of id) 0 PIPE_PAGE_SIZE) in *. set (s1 := set_vm v1 (set_heap hp' s)) in *.
    assert (ready i e s1) as Hr1 by done.
    destruct (push_run i e s1 seg Hr1 Hsg) as (sc & R2 & Hsc). set (s2 := set_psch sc _) in R2.
    destruct Hr as (Hi & Hie & Hu & Hcl & Hlk).
    assert (ready i (pushed seg e) s2) as Hr2 by (split_and!; try done; by eapply lookup_insert_pipe).
    assert (live hp' ({[q]} ∪ B) ∧ q ∉ B) as [Hlv1 HqB].
    { destruct (kmalloc_returns (heap s) B Hlv) as (q' & hp0 & Hq' & Hcase). rewrite Hq in Hq'. injection Hq' as <- <-. naive_solver. }
    assert (same_off (in_entries L0) (mem (vm s)) (mem v1)) as Hso.
    { rewrite (hd_mem _ _ _ _ _ Hh). apply same_off_store. intros b Hb. exists p. split; [|done]. apply Hsub. by left. }
    edestruct (IH fuel s2 (pushed seg e) (va + 4096) (processed + 4096) ({[q]} ∪ B)) as (segs & s' & e' & R3 & Hr' & Es & Hcr & Hsg' & Hlv' & Hnd & Hdj & Hg).
    + done.
    + done.
    + done.
    + done.
    + apply (pages_at_keep _ (vm s) _ _ _ _ _ (p, id)); [done|done| | |done].
      * intros y Hy. change (vm s2) with v1. rewrite (hd_mem _ _ _ _ _ Hh). apply (store_keeps (p, id)).
        by eapply Forall_forall in HL.
      * intros j Hj. change (vm s2) with v1. by rewrite (hd_frames _ _ _ _ _ Hh), decide_False.
    + intros y Hy. apply Hsub. by right.
    + done.
    + change (vm s2) with v1. rewrite (hd_groups _ _ _ _ _ Hh x Hx). eexists. apply list_lookup_insert_eq. by eapply lookup_lt_Some.
    + lia.
    + lia.
    + lia.
    + lia.
    + lia.
    + lia.
    + exists (seg :: segs), s', e'. split_and!.
      * cbn [give_loop]. rewrite (proj2 (Z.ltb_lt _ _)) by lia. rewrite (bind_Ok _ _ _ _ _ R1), (bind_Ok _ _ _ _ _ R2).
        change PIPE_PAGE_SIZE with 4096. rewrite !u64_small by lia. exact R3.
      * done.
      * rewrite Es. cbn [pushed segments set_segments]. by rewrite <- app_assoc.
      * constructor; [done|done].
      * done.
      * replace (nodes (seg :: segs) ∪ B) with (nodes segs ∪ ({[q]} ∪ B)); [done|]. unfold nodes. cbn. set_solver.
      * cbn. constructor; [|done]. intros Hin. assert (q ∈ nodes segs) by (by apply elem_of_list_to_set). set_solver.
      * unfold nodes in *. cbn. set_solver.
      * by eapply given_cons.
Qed.

Lemma received_nil v g : received v v g [].
Proof.
  split; cbn; try done; try set_solver. intros x Hx. exists x. split_and!; [done|done|lia|done].
Qed.

Lemma separate_frame p id L : Forall (separate (p, id)) L → id ∉ L.*2.
Proof. intros HL (y & Ey & Hy)%list_elem_of_fmap. rewrite Forall_forall in HL. by destruct (HL y Hy) as [_ ?]. Qed.

Lemma received_cons v v1 v' g p id L x :
  page_groups v !! g = Some x → installed v v1 p id g → frame_id id → Forall (separate (p, id)) L → received v1 v' g L →
  received v v' g ((p, id) :: L).
Proof.
  intros Hx Hh Hid HL Hg. pose proof (separate_frame _ _ _ HL) as Hni.
  pose proof (in_groups _ _ _ _ _ Hh x Hx) as Eg. pose proof (in_rest _ _ _ _ _ Hh) as Er.
  assert (frames v' id = frames v1 id) as Ef by (by apply (rc_frames _ _ _ _ Hg)).
  assert (load64 (mem v1) p = bound_entry 0 id PIPE_PAGE_ATTRS) as Ee.
  { rewrite (in_mem _ _ _ _ _ Hh). apply load_store. by apply bound_range. }
  split; cbn [fmap list_fmap fst snd].
  - intros a Ha. rewrite in_entries_cons in Ha. rewrite (rc_mem _ _ _ _ Hg) by tauto. rewrite (in_mem _ _ _ _ _ Hh).
    rewrite !(same_off_store (fun a => p ≤ a < p + 8)) by tauto. done.
  - intros q jd [[= -> ->]|Hq]%elem_of_cons; [|by apply (rc_entry _ _ _ _ Hg)].
    etransitivity; [exact (load_apart (p, id) L _ _ HL (rc_mem _ _ _ _ Hg))|]. exact Ee.
  - intros j [Hj1 Hj2]%not_elem_of_cons. by rewrite (rc_frames _ _ _ _ Hg), (in_frames _ _ _ _ _ Hh), decide_False.
  - intros q jd [[= -> ->]|Hq]%elem_of_cons; [|by apply (rc_mapped _ _ _ _ Hg)].
    by rewrite Ef, (in_frames _ _ _ _ _ Hh), decide_True.
  - intros x0 Hx0. rewrite Hx in Hx0. injection Hx0 as <-.
    destruct (rc_group _ _ _ _ Hg (set_used (used x + 1) (set_pages (id :: pages x) x))) as (x' & Hx' & Ep & Eu & Ec).
    { rewrite Eg. apply list_lookup_insert_eq. by eapply lookup_lt_Some. }
    exists x'. split_and!; [done| | |done].
    + rewrite Ep, reverse_cons, <- app_assoc. done.
    + rewrite Eu. cbn [used set_used length]. lia.
  - intros g' Hg'. rewrite (rc_groups _ _ _ _ Hg) by done. rewrite Eg. by apply list_lookup_insert_ne.
  - destruct (rc_card _ _ _ _ Hg) as (-> & -> & ->). rewrite Er. done.
Qed.

(** The frames of [L] are in no group, and [g] has room for them. *)
Definition receivable (v : mm) (g : nat) (L : list (Z * Z)) : Prop :=
  (∀ id, id ∈ L.*2 → frame_id id ∧ container (frames v id) = None) ∧
  (∀ a, 0 ≤ mem v a < 256) ∧
  ∃ x, page_groups v !! g = Some x ∧ 0 ≤ used x ∧ used x + Z.of_nat (length L) ≤ capacity x ∧ capacity x < 2 ^ 64.

Lemma receivable_step v v1 g p id L :
  receivable v g ((p, id) :: L) → installed v v1 p id g → Forall (separate (p, id)) L → receivable v1 g L.
Proof.
  intros (Hf & Hb & x & Hx & Hu & Hcap & Hsz) Hh HL. pose proof (separate_frame _ _ _ HL) as Hni. split_and!.
  - intros jd Hjd. destruct (Hf jd ltac:(by right)) as [H1 H2]. split; [done|].
    rewrite (in_frames _ _ _ _ _ Hh), decide_False by congruence. done.
  - rewrite (in_mem _ _ _ _ _ Hh). by do 2 apply store_range.
  - eexists. split; [rewrite (in_groups _ _ _ _ _ Hh x Hx); apply list_lookup_insert_eq; by eapply lookup_lt_Some|].
    cbn [length used set_used capacity set_pages] in *. lia.
Qed.

Lemma take_loop_run L0 L segs rest fuel h now s i e pgdir g va total processed B :
  ready i e s → segments e = segs ++ rest → Forall2 carries segs L.*2 →
  live (heap s) B → nodes segs ⊆ B → NoDup (seg_at <$> segs) →
  slots_at (in_entries L0) (vm s) pgdir va L.*1 → L.*1 ⊆ L0 → ForallOrdPairs separate L → receivable (vm s) g L →
  0 ≤ va → va + Z.of_nat (length L) * PAGE_SIZE < 2 ^ 64 →
  0 ≤ processed → total = processed + Z.of_nat (length L) * PAGE_SIZE → total < 2 ^ 64 → (length L < fuel)%nat →
  ∃ s' e', take_loop fuel h now i pgdir g total processed va None s = Ok (TDone (moved total), s') ∧ ready i e' s' ∧
    segments e' = rest ∧ psch s' = psch s ∧ live (heap s') (B ∖ nodes segs) ∧ received (vm s) (vm s') g L.
Proof.
  revert L fuel s e va processed B. induction segs as [|seg segs IH];
    intros L fuel s e va processed B Hr Hse Hcr Hlv HB Hnd Hsl Hsub Hsep Hrc Hva0 Hva Hp0 Htot Hlt Hfuel;
    (destruct fuel as [|fuel]; [lia|]).
  - destruct L as [|[p id] L]; [|by inversion Hcr]. exists s, e. cbn [take_loop]. cbn in Htot. rewrite (proj2 (Z.ltb_ge _ _)) by lia.
    replace total with processed by lia. unfold nodes. cbn. rewrite difference_empty_L.
    split_and!; try done. apply received_nil.
  - destruct L as [|[p id] L]; [by inversion Hcr|]. apply Forall2_cons in Hcr as [Hseg Hcr]. cbn [fst snd fmap list_fmap] in *.
    cbn [length] in Htot, Hva, Hfuel. change PAGE_SIZE with 4096 in *.
    destruct Hsl as (Hw & Hz & Hsl). inversion Hsep as [|?? HL Hsep']; subst.
    apply NoDup_cons in Hnd as [Hni Hnd]. pose proof (walks_off_walks _ _ _ _ _ Hw) as Hwk.
    pose proof (walks_nonnull _ _ _ _ Hwk) as Hp.
    pose proof Hrc as (Hf & Hb & x & Hx & Hu & Hcap & Hsz). destruct (Hf id ltac:(by left)) as [Hid Hc]. cbn [length] in Hcap.
    set (s1 := set_table (<[i := pop_front seg (segs ++ rest) e]> (pipe_table s)) s).
    pose proof (pop_run i e s seg (segs ++ rest) h now Hr Hse) as R1. fold s1 in R1.
    destruct (install_run s1 p id g x seg (proj1 Hseg) (proj1 (proj2 Hseg))) as (v1 & R2 & Hh); try assumption; [lia|].
    destruct (kfree_returns (heap s) B (seg_at seg) Hlv) as (hp' & Hfr & Hlv').
    { apply HB. unfold nodes. cbn. set_solver. }
    set (s2 := set_heap hp' (set_vm v1 s1)). destruct Hr as (Hi & Hie & Hus & Hcl & Hlk).
    assert (ready i (pop_front seg (segs ++ rest) e) s2) as Hr2 by (split_and!; try done; by eapply lookup_insert_pipe).
    assert (same_off (in_entries L0) (mem (vm s)) (mem v1)) as Hso.
    { rewrite (in_mem _ _ _ _ _ Hh). assert (∀ a, p ≤ a < p + 8 → in_entries L0 a) as Hin.
      { intros b Hb'. exists p. split; [|done]. apply Hsub. by left. }
      eapply same_off_trans; [by apply same_off_store|by apply same_off_store]. }
    edestruct (IH L fuel s2 (pop_front seg (segs ++ rest) e) (va + 4096) (processed + 4096) (B ∖ {[seg_at seg]}))
      as (s' & e' & R3 & Hr' & Es & Hsch & Hlv2 & Hg); try done; try lia.
    + unfold nodes in *. cbn in HB. intros q Hq. apply elem_of_difference. split; [set_solver|].
      intros ->%elem_of_singleton. apply elem_of_list_to_set in Hq. done.
    + apply (slots_at_keep _ (vm s)); [done| |done]. intros q (y & -> & Hy)%list_elem_of_fmap.
      change (vm s2) with v1. rewrite (in_mem _ _ _ _ _ Hh). rewrite Forall_forall in HL.
      by rewrite !(store_keeps (p, id)) by (by apply HL).
    + intros y Hy. apply Hsub. by right.
    + by eapply receivable_step.
    + exists s', e'. split_and!.
      * cbn [take_loop]. rewrite (proj2 (Z.ltb_lt _ _)) by lia.
        rewrite (bind_Ok _ _ _ _ _ (on_vm_same _ s _ (find_pte_run (vm s) pgdir va p true Hwk))), (proj2 (Z.eqb_neq _ _) Hp).
        rewrite (bind_Ok _ _ _ _ _ R1). cbn match. rewrite bind_assoc, (bind_Ok _ _ _ _ _ R2).
        rewrite (bind_Ok _ _ _ _ _ (on_heap_run _ (set_vm v1 s1) _ _ Hfr)).
        change PIPE_PAGE_SIZE with 4096. rewrite !u64_small by lia. exact R3.
      * done.
      * done.
      * done.
      * replace (B ∖ nodes (seg :: segs)) with (B ∖ {[seg_at seg]} ∖ nodes segs); [done|]. unfold nodes. cbn. set_solver.
      * by eapply received_cons.
Qed.

(** ** The calls *)
Definition page_clear (ps : list Z) (id : Z) : Prop :=
  ∀ p, p ∈ ps → p + 8 ≤ kva_of id ∨ kva_of id + PAGE_SIZE ≤ p.

Lemma page_kept ps id m m' :
  same_off (in_entries ps) m m' → page_clear ps id → bytes_at m' (kva_of id) PAGE_SIZE = bytes_at m (kva_of id) PAGE_SIZE.
Proof.
  intros Hs Hc. apply bytes_at_ext. intros j Hj. apply Hs. intros (p & Hp & Hin). specialize (Hc p Hp). lia.
Qed.

Lemma aligned_ok a : a mod PAGE_SIZE = 0 → unaligned a = false.
Proof.
  intros Ha. unfold unaligned. change (PIPE_PAGE_SIZE - 1) with (Z.ones 12). rewrite Z.land_ones by done.
  change (2 ^ 12) with PAGE_SIZE. by rewrite Ha.
Qed.

Lemma lookup_pipe_run idx e s :
  0 ≤ idx < PIPE_MAX_COUNT → ready (Z.to_nat idx) e s → pipe_lookup_by_index idx s = Ok (Some (Z.to_nat idx), s).
Proof.
  intros Hi (_ & He & Hu & _). unfold pipe_lookup_by_index. rewrite (proj2 (Z.ltb_ge _ _)), Z.geb_leb, (proj2 (Z.leb_gt _ _)) by lia.
  cbn [orb]. by rewrite (bind_Ok _ _ _ _ _ (get_pipe_run _ e s He)), Hu.
Qed.

Lemma system_init_run i e s : ready i e s → pipe_system_init s = Ok (tt, s).
Proof. intros (Hi & _). unfold pipe_system_init. by rewrite (bind_Ok _ _ s true s) by (unfold gets; by rewrite Hi). Qed.

Lemma slots_at_lookup A v pgdir va ps k p :
  slots_at A v pgdir va ps → ps !! k = Some p → walks_off A v pgdir (va + Z.of_nat k * PAGE_SIZE) p.
Proof.
  revert va k. induction ps as [|q ps IH]; intros va k Hs Hk; [done|]. destruct Hs as (Hw & _ & Hs). destruct k as [|k].
  - injection Hk as <-. by rewrite Z.add_0_r.
  - replace (va + Z.of_nat (S k) * PAGE_SIZE) with (va + PAGE_SIZE + Z.of_nat k * PAGE_SIZE) by lia. by apply IH.
Qed.

(** An access through an entry that maps a frame reaches the frame. *)
Lemma touch_mapped v pgdir va p id a :
  walks v pgdir va p → load64 (mem v) p = bound_entry 0 id a → frame_id id → 0 ≤ a < 1024 → va mod PAGE_SIZE = 0 →
  uva2kva va pgdir v = Ok (kva_of id, v).
Proof.
  intros Hw He Hid Ha Hva. pose proof (walks_nonnull _ _ _ _ Hw) as Hp. unfold uva2kva.
  pose proof (bound_present 0 id a Ha) as Hpr.
  rewrite (bind_Ok _ _ v p v).
  - rewrite (bind_Ok _ _ _ _ _ (get_pte_run v p Hp)), He, (bind_Ok _ _ _ _ _ (bound_walk v 0 id a Hid Ha)).
    change (PAGE_SIZE - 1) with (Z.ones 12). rewrite Z.land_ones by done. change (2 ^ 12) with PAGE_SIZE.
    rewrite Hva, Z.add_0_r, u64_small by fsolve. done.
  - unfold alloc_page. rewrite (bind_Ok _ _ _ _ _ (find_pte_run v pgdir va p true Hw)), (bind_Ok _ _ _ _ _ (get_pte_run v p Hp)), He.
    rewrite Hpr. rewrite (proj2 (Z.eqb_neq _ _)) by (intros E; by rewrite E in Hpr). done.
Qed.

Lemma mod_page_add va k : va mod PAGE_SIZE = 0 → (va + k * PAGE_SIZE) mod PAGE_SIZE = 0.
Proof. intros E. by rewrite Z.mod_add. Qed.

Lemma fuel_pages (n : nat) : pipe_fuel (Z.of_nat n * PAGE_SIZE) = S n.
Proof. unfold pipe_fuel. change PIPE_PAGE_SIZE with PAGE_SIZE. rewrite Z.div_mul by done. by rewrite Nat2Z.id. Qed.

Lemma give_pages_run s idx e d g src L B :
  0 ≤ idx < PIPE_MAX_COUNT → ready (Z.to_nat idx) e s → sched_good (psch s) →
  live (heap s) B → heap_gives (length L) (heap s) →
  frame_id d → container (frames (vm s) d) = Some g → is_Some (page_groups (vm s) !! g) →
  0 < Z.of_nat (length L) → 0 ≤ src → src mod PAGE_SIZE = 0 → src + Z.of_nat (length L) * PAGE_SIZE < 2 ^ 64 →
  pages_at (in_entries L.*1) (vm s) (kva_of d) g src L → ForallOrdPairs separate L →
  ∃ segs s' e', let n := Z.of_nat (length L) * PAGE_SIZE in
    pipe_give_pages (kva_of d) idx src n s = Ok (n, s') ∧ ready (Z.to_nat idx) e' s' ∧
    segments e' = segments e ++ segs ∧ Forall2 carries segs L.*2 ∧ sched_good (psch s') ∧
    live (heap s') (nodes segs ∪ B) ∧ NoDup (seg_at <$> segs) ∧ given (vm s) (vm s') g L.
Proof.
  intros Hidx Hr Hsg Hlv Hgv Hd Hc Hg Hn Hs0 Hal Hlt Hpg Hsep.
  destruct (give_loop_run L.*1 L (S (length L)) s (Z.to_nat idx) e (kva_of d) g src (Z.of_nat (length L) * PAGE_SIZE) 0 B)
    as (segs & s' & e' & R & Hr' & Es & Hcr & Hsg' & Hlv' & Hnd & _ & Hgn); try done; try lia.
  exists segs, s', e'. cbn zeta. split_and!; try done. unfold pipe_give_pages.
  rewrite (bind_Ok _ _ _ _ _ (system_init_run _ _ _ Hr)), (bind_Ok _ _ _ _ _ (lookup_pipe_run idx e s Hidx Hr)).
  rewrite !aligned_ok by (done || by apply Z.mod_mul). cbn [orb].
  rewrite (proj2 (Z.eqb_neq _ _)) by (change PAGE_SIZE with 4096; lia).
  rewrite (bind_Ok _ _ _ _ _ (on_vm_same _ s _ (find_dir_run (vm s) g d Hd Hc))), fuel_pages, R.
  by rewrite moved_pos by (change PAGE_SIZE with 4096; lia).
Qed.

Lemma take_pages_run s idx e d g dest segs rest L B h now :
  0 ≤ idx < PIPE_MAX_COUNT → ready (Z.to_nat idx) e s → segments e = segs ++ rest → Forall2 carries segs L.*2 →
  live (heap s) B → nodes segs ⊆ B → NoDup (seg_at <$> segs) →
  frame_id d → container (frames (vm s) d) = Some g →
  0 < Z.of_nat (length L) → 0 ≤ dest → dest mod PAGE_SIZE = 0 → dest + Z.of_nat (length L) * PAGE_SIZE < 2 ^ 64 →
  slots_at (in_entries L.*1) (vm s) (kva_of d) dest L.*1 → ForallOrdPairs separate L → receivable (vm s) g L →
  ∃ s' e', let n := Z.of_nat (length L) * PAGE_SIZE in
    pipe_take_pages h now (kva_of d) idx dest n s = Ok (TDone n, s') ∧ ready (Z.to_nat idx) e' s' ∧
    segments e' = rest ∧ live (heap s') (B ∖ nodes segs) ∧ received (vm s) (vm s') g L ∧
    (∀ k p id, L !! k = Some (p, id) → uva2kva (dest + Z.of_nat k * PAGE_SIZE) (kva_of d) (vm s') = Ok (kva_of id, vm s')).
Proof.
  intros Hidx Hr Hse Hcr Hlv HB Hnd Hd Hc Hn Hs0 Hal Hlt Hsl Hsep Hrc.
  destruct (take_loop_run L.*1 L segs rest (S (length L)) h now s (Z.to_nat idx) e (kva_of d) g dest (Z.of_nat (length L) * PAGE_SIZE) 0 B)
    as (s' & e' & R & Hr' & Es & _ & Hlv' & Hrd); try done; try lia.
  exists s', e'. cbn zeta. split_and!; try done.
  - unfold pipe_take_pages.
    rewrite (bind_Ok _ _ _ _ _ (system_init_run _ _ _ Hr)), (bind_Ok _ _ _ _ _ (lookup_pipe_run idx e s Hidx Hr)).
    rewrite !aligned_ok by (done || by apply Z.mod_mul). cbn [orb].
    rewrite (proj2 (Z.eqb_neq _ _)) by (change PAGE_SIZE with 4096; lia).
    rewrite (bind_Ok _ _ _ _ _ (on_vm_same _ s _ (find_dir_run (vm s) g d Hd Hc))), fuel_pages, R.
    by rewrite moved_pos by (change PAGE_SIZE with 4096; lia).
  - intros k p id Hk. apply list_elem_of_lookup_2 in Hk as Hin.
    apply (touch_mapped _ _ _ p id PIPE_PAGE_ATTRS); [|by apply (rc_entry _ _ _ _ Hrd)| |done|by apply mod_page_add].
    + apply (walks_off_walks (in_entries L.*1)), (walks_off_same _ (vm s)); [apply Hrd|].
      eapply slots_at_lookup; [done|]. by rewrite list_lookup_fmap, Hk.
    + apply Hrc. apply list_elem_of_fmap. by exists (p, id).
Qed.

(** C21 Pages given to a pipe arrive at the reader, in order and without a
    copy. When a process gives the [n] mapped pages of [L] to an open pipe (and
    the heap has room for [n] nodes), [pipe_give_pages] returns the whole
    length, the pages' segments are at the back of the pipe, their entries are
    zero and their frames in no group; no other memory changes. When a process
    later takes [n] pages from a pipe that has these segments in front, at
    addresses where nothing is mapped and with room in its group,
    [pipe_take_pages] returns the whole length without waiting: the segments are
    gone from the front, page [k] of the destination is the frame that was page
    [k] of the source, and the bytes of the frames have not changed. *)
Theorem pages_through_pipe s idx e d g src L B :
  0 ≤ idx < PIPE_MAX_COUNT → ready (Z.to_nat idx) e s → sched_good (psch s) →
  live (heap s) B → heap_gives (length L) (heap s) →
  frame_id d → container (frames (vm s) d) = Some g → is_Some (page_groups (vm s) !! g) →
  0 < Z.of_nat (length L) → 0 ≤ src → src mod PAGE_SIZE = 0 → src + Z.of_nat (length L) * PAGE_SIZE < 2 ^ 64 →
  pages_at (in_entries L.*1) (vm s) (kva_of d) g src L → ForallOrdPairs separate L →
  let n := Z.of_nat (length L) * PAGE_SIZE in
  ∃ segs s1 e1, pipe_give_pages (kva_of d) idx src n s = Ok (n, s1) ∧
    (ready (Z.to_nat idx) e1 s1 ∧ segments e1 = segments e ++ segs ∧ sched_good (psch s1) ∧
     live (heap s1) (nodes segs ∪ B) ∧ given (vm s) (vm s1) g L ∧
     ∀ id, page_clear L.*1 id → bytes_at (mem (vm s1)) (kva_of id) PAGE_SIZE = bytes_at (mem (vm s)) (kva_of id) PAGE_SIZE) ∧
    ∀ s2 e2 rest d' g' dest ps B' h now, length ps = length L → let L' := zip ps L.*2 in
      ready (Z.to_nat idx) e2 s2 → segments e2 = segs ++ rest → live (heap s2) B' → nodes segs ⊆ B' →
      frame_id d' → container (frames (vm s2) d') = Some g' →
      0 ≤ dest → dest mod PAGE_SIZE = 0 → dest + n < 2 ^ 64 →
      slots_at (in_entries ps) (vm s2) (kva_of d') dest ps → ForallOrdPairs separate L' → receivable (vm s2) g' L' →
      ∃ s3 e3, pipe_take_pages h now (kva_of d') idx dest n s2 = Ok (TDone n, s3) ∧
        ready (Z.to_nat idx) e3 s3 ∧ segments e3 = rest ∧ received (vm s2) (vm s3) g' L' ∧
        (∀ k id, L.*2 !! k = Some id → uva2kva (dest + Z.of_nat k * PAGE_SIZE) (kva_of d') (vm s3) = Ok (kva_of id, vm s3)) ∧
        (∀ id, page_clear ps id → bytes_at (mem (vm s3)) (kva_of id) PAGE_SIZE = bytes_at (mem (vm s2)) (kva_of id) PAGE_SIZE).
Proof.
  intros Hidx Hr Hsg Hlv Hgv Hd Hc Hg Hn Hs0 Hal Hlt Hpg Hsep n.
  destruct (give_pages_run s idx e d g src L B) as (segs & s1 & e1 & R & Hr1 & Es & Hcr & Hsg1 & Hlv1 & Hnd & Hgn); try assumption.
  exists segs, s1, e1. split; [exact R|]. split.
  { split_and!; try assumption. intros id. apply page_kept, Hgn. }
  intros s2 e2 rest d' g' dest ps B' h now Hps L' Hr2 Es2 Hlv2 HB Hd' Hc' Hd0 Hdal Hdlt Hsl Hsep' Hrc.
  assert (L'.*1 = ps) as E1 by (unfold L'; rewrite fst_zip; [done|rewrite length_fmap; lia]).
  assert (L'.*2 = L.*2) as E2 by (unfold L'; rewrite snd_zip; [done|rewrite length_fmap; lia]).
  assert (length L' = length L) as El by (rewrite <- (length_fmap snd L'), E2; by rewrite length_fmap).
  destruct (take_pages_run s2 idx e2 d' g' dest segs rest L' B' h now) as (s3 & e3 & R3 & Hr3 & Es3 & _ & Hrd & Hat);
    rewrite ?E1, ?E2, ?El; try assumption.
  exists s3, e3. rewrite El in R3. split; [exact R3|]. split_and!; try assumption.
  - intros k id Hk. destruct (lookup_lt_is_Some_2 ps k) as [p Hp].
    { apply lookup_lt_Some in Hk. rewrite length_fmap in Hk. lia. }
    apply (Hat k p id). unfold L'. apply lookup_zip_with_Some. by exists p, id.
  - intros id Hid. apply (page_kept ps); [|done]. rewrite <- E1. apply Hrd.
Qed.

End loops.
