(* ===== verification/PipeDemo.v ===== *)
(** * A pipe between two addresses of one process *)

From S2P Require Import Prelude Kmalloc KmallocAlloc KmallocSafety CString Sched SchedProofs SchedTheorems Bytes Block SdCard.
From S2P Require Import Pgtable PgtableProofs Frames FrameProofs FrameAlloc EvictProofs Vm SwapProofs MmTheorems MmDemo.
From S2P Require Import Pipe PipeHeap PipeProofs PipeTheorems.

(** The address space of MmDemo.v, an unused heap and one open pipe. *)
Definition demo_entry : pipe_entry_t := mk_pipe true (name_field [112]) false [] 0 1 4 false.
Definition closed_entry : pipe_entry_t := mk_pipe false (name_field []) false [] 0 0 0 false.
Definition demo_pipes : pstate := mk_ps demo_mm booted demo_boot true false (demo_entry :: replicate 31 closed_entry).

(** The two entries at the start of the last directory. *)
Definition both (a : Z) : Prop := kva_of 3 ≤ a < kva_of 3 + 16.

Lemma demo_walks va p :
  get_vpn va = (0, 0, (p - kva_of 3) / 8) → p = entry_addr (kva_of 3) ((p - kva_of 3) / 8) → p ≠ NULL →
  walks_off both demo_mm (kva_of 0) va p.
Proof.
  intros Hv Hp Hn. exists 0, 0, ((p - kva_of 3) / 8), (kva_of 2), (kva_of 3). split; [done|].
  split; [unfold level; split_and!; vm_compute; congruence|].
  split; [unfold level; split_and!; vm_compute; congruence|]. split; [done|]. split; [done|].
  change (entry_addr (kva_of 0) 0) with (kva_of 0). change (entry_addr (kva_of 2) 0) with (kva_of 2).
  split; intros a Ha [Hb _]; fsolve.
Qed.

#[local] Instance demo_kernel_heap : SegmentHeap kstate := kernel_heap (base := demo_pool).

Lemma demo_live : live demo_boot ∅.
Proof. exists ∅. split; [by left|]. done. Qed.

Lemma demo_gives : heap_gives 1 demo_boot.
Proof.
  exists (demo_pool + 8), (after_malloc SIZEOF_SEGMENT demo_boot). split_and!; [vm_compute; reflexivity|done|done].
Qed.

(** The page at address 0 goes through the pipe to address 4096. *)
Definition demo_sent : list (Z * Z) := [(kva_of 3, 1)].

Lemma in_one p a : in_entries [p] a → p ≤ a < p + 8.
Proof. by intros (q & ->%list_elem_of_singleton & Ha). Qed.
Lemma one_in_both a : in_entries demo_sent.*1 a → both a.
Proof. intros Ha%(in_one (kva_of 3)). unfold both. lia. Qed.

Lemma demo_page : pages_at (in_entries demo_sent.*1) demo_mm (kva_of 0) 0 0 demo_sent.
Proof.
  split; [|done]. split_and!.
  - apply (walks_off_mono _ both); [exact one_in_both|by apply demo_walks].
  - exists 0, (Z.lor USER_ATTRS PAGE_ACCESSED). split; [done|]. vm_compute. reflexivity.
  - split; [lia|]. vm_compute. reflexivity.
  - reflexivity.
Qed.

Lemma demo_slot v :
  same_off (in_entries demo_sent.*1) (mem demo_mm) (mem v) →
  slots_at (in_entries [kva_of 3 + 8]) v (kva_of 0) 4096 [kva_of 3 + 8].
Proof.
  intros Hs. split_and!; [| |done].
  - apply (walks_off_mono _ both).
    { intros a Ha%in_one. unfold both. lia. }
    apply (walks_off_same _ demo_mm); [|by apply demo_walks].
    apply (same_off_mono (in_entries demo_sent.*1)); [exact one_in_both|done].
  - transitivity (load64 (mem demo_mm) (kva_of 3 + 8)); [|vm_compute; reflexivity].
    apply load_ext. intros a Ha. apply Hs. intros Hin%(in_one (kva_of 3)). lia.
Qed.

Lemma demo_room v : given demo_mm v 0 demo_sent → receivable v 0 [(kva_of 3 + 8, 1)].
Proof.
  intros Hg. split_and!.
  - intros id ->%(list_elem_of_singleton id 1). split; [split; vm_compute; congruence|]. apply (gv_alone _ _ _ _ Hg). by left.
  - apply (gv_bytes _ _ _ _ Hg), demo_bytes.
  - destruct (gv_group _ _ _ _ Hg demo_group eq_refl) as (x & Hx & _ & Ec & Eu). exists x. split; [done|].
    assert (used x = 3) as -> by (rewrite Eu; [reflexivity|split; vm_compute; congruence]).
    rewrite Ec. split_and!; vm_compute; congruence.
Qed.

Lemma separate_one x : ForallOrdPairs separate [x].
Proof. constructor; constructor. Qed.

Lemma demo_dir : 0 ∉ demo_sent.*2.
Proof. by intros E%(list_elem_of_singleton 0 1). Qed.

Lemma pages_through_pipe_witness :
  ∃ s1 s3, pipe_give_pages (kva_of 0) 0 0 4096 demo_pipes = Ok (4096, s1) ∧
    pipe_take_pages 0 7 (kva_of 0) 0 4096 4096 s1 = Ok (TDone 4096, s3) ∧
    uva2kva 4096 (kva_of 0) (vm s3) = Ok (kva_of 1, vm s3) ∧
    bytes_at (mem (vm s3)) (kva_of 1) PAGE_SIZE = bytes_at (mem demo_mm) (kva_of 1) PAGE_SIZE.
Proof.
  destruct (pages_through_pipe demo_pipes 0 demo_entry 0 0 0 demo_sent ∅)
    as (segs & s1 & e1 & R1 & (Hr1 & Es1 & _ & Hlv1 & Hgn & Hb1) & Htake).
  - done.
  - done.
  - exact booted_good.
  - exact demo_live.
  - exact demo_gives.
  - split; [lia|vm_compute; reflexivity].
  - reflexivity.
  - by eexists.
  - done.
  - done.
  - done.
  - done.
  - exact demo_page.
  - apply separate_one.
  - destruct (Htake s1 e1 [] 0 0%nat 4096 [kva_of 3 + 8] (nodes segs ∪ ∅) 0%nat 7) as (s3 & e3 & R3 & _ & _ & _ & Hat & Hb3).
    + reflexivity.
    + exact Hr1.
    + rewrite Es1. by rewrite app_nil_r.
    + exact Hlv1.
    + apply union_subseteq_l.
    + split; [lia|vm_compute; reflexivity].
    + rewrite (gv_frames _ _ _ _ Hgn _ demo_dir). reflexivity.
    + lia.
    + reflexivity.
    + reflexivity.
    + apply demo_slot, Hgn.
    + apply separate_one.
    + by apply demo_room.
    + exists s1, s3. split; [exact R1|]. split; [exact R3|]. split; [exact (Hat 0%nat 1 eq_refl)|].
      rewrite Hb3, Hb1; [reflexivity| |]; intros p ->%list_elem_of_singleton; right; vm_compute; congruence.
Defined.

(** ** Corner cases *)

(** The entry of a swapped page names a sector, which [pipe_clear_dest_mapping]
    takes for the number of a slot: the slot of the page stays taken, and
    another one is freed or the write leaves the table. *)
Lemma clear_swapped_dest_wrong_slot (s : pstate (H := kstate)) p e i :
  p ≠ NULL → 0 < swap_base_location (vm s) → swap_slot i → swap_using (vm s) i = true →
  let loc := swap_base_location (vm s) + i * SWAP_LEN in
  load64 (mem (vm s)) p = swapped_entry e loc →
  (NUM_MAX_SWAP ≤ loc → pipe_clear_dest_mapping p s = Panic "fault") ∧
  (loc < NUM_MAX_SWAP → ∃ s', pipe_clear_dest_mapping p s = Ok (tt, s') ∧ swap_using (vm s') i = true ∧
    swap_using (vm s') loc = false).
Proof.
  intros Hp Hbase Hi Hu loc He. destruct swap_consts as [E1 E2]. unfold swap_slot in Hi.
  assert (loc ≠ i ∧ 0 ≤ loc) as [Hne Hl] by (unfold loc; rewrite E2; lia).
  destruct (swapped_facts e loc) as (Epfn & Esoft & Epr).
  assert (pipe_clear_dest_mapping p s = (on_vm (free_swap loc) ;; on_vm (put_pte p 0))%os s) as ->.
  { unfold pipe_clear_dest_mapping. rewrite (proj2 (Z.eqb_neq _ _) Hp).
    rewrite (bind_Ok _ _ _ _ _ (on_vm_same _ s _ (get_pte_run (vm s) p Hp))), He, Epr, Esoft, Epfn. done. }
  unfold free_swap. rewrite (proj2 (Z.leb_le _ _) Hl). cbn [andb]. split; intros Hcase.
  - unfold bind, on_vm. by rewrite (proj2 (Z.ltb_ge _ _) Hcase).
  - rewrite (proj2 (Z.ltb_lt _ _) Hcase). cbn [asserts]. eexists. split.
    + unfold bind, on_vm at 1. cbn. unfold on_vm. by rewrite put_pte_run.
    + cbn. by rewrite fn_lookup_insert_ne, fn_lookup_insert.
Qed.
