(* ===== verification/Printk.v ===== *)
(** * libs/printk.c: formatted output

    Characters are numbers, a C string is the list of its characters without
    the final zero. The output of [mini_vsnprintf] is the list of characters
    written before the final zero; the arguments of the call are a list of the
    values [va_arg] takes. *)

From S2P Require Import Prelude.
From Stdlib Require Import Ascii.

(** The characters of a literal. *)
Definition code (c : ascii) : Z := Z.of_N (N_of_ascii c).
Fixpoint str (s : string) : list Z :=
  match s with EmptyString => [] | String c s => code c :: str s end.

(** ** Numbers *)
Definition digit_char (uppercase : bool) (digit : Z) : Z :=
  u8 (if digit <? 10 then 48 + digit else (if uppercase then 65 else 97) + digit - 10).

(** The [do] loop: the digits, the last one first. *)
Fixpoint itoa_loop (fuel : nat) (value radix : Z) (uppercase unsig : bool) : list Z :=
  match fuel with
  | O => []
  | S n =>
      let digit := if unsig then i32 (u64 value mod radix) else i32 (Z.rem value radix) in
      let value := if unsig then i64 (u64 value / radix) else Z.quot value radix in
      digit_char uppercase digit :: (if value =? 0 then [] else itoa_loop n value radix uppercase unsig)
  end.
(** A 64-bit value has at most 64 digits. *)
Definition itoa_fuel : nat := 64.

(** The string in [buffer]; [value] is a [long]. *)
Definition mini_itoa (value radix : Z) (uppercase unsig : bool) (n_pad cpad : Z) : list Z :=
  if radix >? 16 then [] else
  let negative := (value <? 0) && negb unsig in
  let value := if negative then i64 (- value) else value in
  let b := itoa_loop itoa_fuel value radix uppercase unsig in
  let b := b ++ replicate (Z.to_nat n_pad - length b) cpad in
  let b := if negative then b ++ [45] else b in
  rev b.

(** ** The bounded buffer *)
Definition put_char (buffer_len ch : Z) (out : list Z) : list Z :=
  if u32 (Z.of_nat (length out) + 1) >=? buffer_len then out else out ++ [ch].
(** [None] is a null string: spaces. *)
Definition put_string (buffer_len : Z) (s : option (list Z)) (len : Z) (out : list Z) : list Z :=
  let room := buffer_len - Z.of_nat (length out) - 1 in
  let len := if room <? len then u32 room else len in
  out ++ match s with Some s => take (Z.to_nat len) s | None => replicate (Z.to_nat len) 32 end.

(** ** mini_vsnprintf *)
Inductive arg := AInt (v : Z) | AStr (s : list Z).
Definition arg_int (args : list arg) : outcome (Z * list arg) :=
  match args with AInt v :: args => Ok (v, args) | _ => Panic "fault" end.

(** The field width: the number, and the format from its first other character. *)
Fixpoint width (fmt : list Z) (n_pad : Z) : Z * list Z :=
  match fmt with
  | ch :: rest => if (48 <=? ch) && (ch <=? 57) then width rest (u32 (n_pad * 10 + ch - 48)) else (n_pad, fmt)
  | [] => (n_pad, [])
  end.
(** After the [%]: width, padding character, the [l] flag and the conversion. *)
Definition conversion (fmt : list Z) : Z * Z * bool * list Z :=
  let c_pad := match fmt with 48 :: _ => 48 | _ => 32 end in
  let '(n_pad, fmt) := width fmt 0 in
  match fmt with
  | 108 :: rest => (n_pad, c_pad, true, rest)
  | _ => (n_pad, c_pad, false, fmt)
  end.

(** The array [bf] has 24 bytes. *)
Definition BF_SIZE : Z := 24.
Definition put_number (buffer_len value radix : Z) (uppercase unsig : bool) (n_pad c_pad : Z) (out : list Z) : outcome (list Z) :=
  let bf := mini_itoa value radix uppercase unsig n_pad c_pad in
  if Z.of_nat (length bf) <? BF_SIZE then Ok (put_string buffer_len (Some bf) (Z.of_nat (length bf)) out) else Panic "fault".

(** One conversion: the output and the arguments that are left; [None] at the
    end of the format. *)
Definition convert (buffer_len ch n_pad c_pad : Z) (long : bool) (args : list arg) (out : list Z) : outcome (list Z * list arg) :=
  let number value_of radix upper unsig :=
    match arg_int args with
    | Ok (v, args) =>
        match put_number buffer_len (value_of v) radix upper unsig n_pad c_pad out with
        | Ok out => Ok (out, args)
        | Panic why => Panic why
        | OutOfFuel => OutOfFuel
        end
    | Panic why => Panic why
    | OutOfFuel => OutOfFuel
    end in
  let unsigned_arg v := if long then i64 v else u32 v in
  if ch =? 108 (* l *) then Ok (out, args)
  else if ch =? 117 (* u *) then number unsigned_arg 10 false true
  else if ch =? 100 (* d *) then number (fun v => if long then i64 v else i32 v) 10 false false
  else if ch =? 120 (* x *) then number unsigned_arg 16 false true
  else if ch =? 88 (* X *) then number unsigned_arg 16 true true
  else if ch =? 99 (* c *) then
    match arg_int args with
    | Ok (v, args) => Ok (put_char buffer_len (u8 v) out, args)
    | Panic why => Panic why
    | OutOfFuel => OutOfFuel
    end
  else if ch =? 115 (* s *) then
    match args with
    | AStr s :: args =>
        let len := Z.of_nat (length s) in
        let out := put_string buffer_len (Some s) len out in
        Ok (if len <? n_pad then put_string buffer_len None (n_pad - len) out else out, args)
    | _ => Panic "fault"
    end
  else Ok (put_char buffer_len ch out, args).

(** Every turn takes a character of the format. *)
Fixpoint vsn_loop (fuel : nat) (buffer_len : Z) (fmt : list Z) (args : list arg) (out : list Z) : outcome (list Z) :=
  match fuel with
  | O => OutOfFuel
  | S n =>
      match fmt with
      | [] => Ok out
      | ch :: fmt =>
          if u32 (Z.of_nat (length out) + 1) >=? buffer_len then Ok out else
          if negb (ch =? 37) then vsn_loop n buffer_len fmt args (put_char buffer_len ch out) else
          let '(n_pad, c_pad, long, fmt) := conversion fmt in
          match fmt with
          | [] => Ok out
          | ch :: fmt =>
              match convert buffer_len ch n_pad c_pad long args out with
              | Ok (out, args) => vsn_loop n buffer_len fmt args out
              | Panic why => Panic why
              | OutOfFuel => OutOfFuel
              end
          end
      end
  end.
Definition mini_vsnprintf (buffer_len : Z) (fmt : list Z) (args : list arg) : outcome (list Z) :=
  vsn_loop (S (length fmt)) buffer_len fmt args [].
Definition snprintf (buffer_len : Z) (fmt : list Z) (args : list arg) : outcome (list Z) :=
  mini_vsnprintf (u32 buffer_len) fmt args.
(** [_vprint]: what [output] gets. *)
Definition vprint (fmt : list Z) (args : list arg) : outcome (list Z) := mini_vsnprintf 256 fmt args.
