(* ===== verification/Etc.v ===== *)
(** * kernel/fs/etc.c: the configuration files under /proc/sys

    A file is the list of its bytes: [inode_read] from the start gives the
    first bytes, [inode_write] at the start replaces them and keeps the rest
    (Inode.v and InodeTheorems.v). The static buffers keep their bytes between
    two calls and are arguments here. *)

From S2P Require Import Prelude Bytes CString Printk PageCache Dcache.

Definition isspace (ch : Z) : bool := (ch =? 32) || (ch =? 10) || (ch =? 9) || (ch =? 11) || (ch =? 12) || (ch =? 13).
Definition isdigit (ch : Z) : bool := (48 <=? ch) && (ch <=? 57).

(** The conversion loop of [atol]; [None] is the early [return 0]. *)
Fixpoint atol_loop (base ret : Z) (s : list Z) : option Z :=
  match s with
  | [] => Some ret
  | ch :: s =>
      if isdigit ch then atol_loop base (i64 (ret * base + (ch - 48))) s
      else if base =? 16 then
        if (97 <=? ch) && (ch <=? 102) then atol_loop base (i64 (ret * base + (ch - 97 + 10))) s
        else if (65 <=? ch) && (ch <=? 70) then atol_loop base (i64 (ret * base + (ch - 65 + 10))) s
        else None
      else None
  end.
(** The loop over blanks does not advance: it never ends on a blank. *)
Definition atol (s : list Z) : outcome Z :=
  match s with
  | ch :: rest =>
      if isspace ch then OutOfFuel else
      if negb ((ch =? 43) || (ch =? 45) || isdigit ch) then Ok 0 else
      let negative := ch =? 45 in
      let s := if isdigit ch then s else rest in
      let hex := match s with 48 :: x :: _ => (x =? 120) || (x =? 88) | _ => false end in
      let '(base, s) := if hex then (16, drop 2 s) else (10, s) in
      match atol_loop base 0 s with
      | Some ret => Ok (if negative then i64 (- ret) else ret)
      | None => Ok 0
      end
  | [] => Ok 0
  end.
Definition atoi (s : list Z) : outcome Z :=
  match atol s with Ok v => Ok (i32 v) | Panic why => Panic why | OutOfFuel => OutOfFuel end.

(** ** /proc/sys/vm *)
Definition cache_policy_name (p : cache_policy_t) : list Z :=
  match p with POLICY_WRITE_BACK => str "write back" | POLICY_WRITE_THROUGH => str "write through" end.

Definition newline : list Z := [10].
Definition vm_format : list Z := str "page_cache_policy = %s" ++ newline ++ str "write_back_freq = %d" ++ newline.
(** The file after [etc_vm_reset]. *)
Definition etc_vm_reset (config : cache_config_t) (file : list Z) : outcome (list Z) :=
  match snprintf 1024 vm_format [AStr (cache_policy_name (policy config)); AInt (write_back_freq config)] with
  | Ok buffer => Ok (overlay buffer file)
  | Panic why => Panic why
  | OutOfFuel => OutOfFuel
  end.

(** [for (i = 1; i < size; i++)]: line ends become zeros. *)
Definition cut_lines (l : list Z) : list Z :=
  match l with [] => [] | c :: l => c :: ((fun x => if x =? 10 then 0 else x) <$> l) end.
Definition starts_with (l : list Z) (prefix : list Z) : bool :=
  strncmp (bytes l) (bytes prefix) (Z.of_nat (length prefix)) =? 0.

(** [Ok None] is the return value -1; [old] are the bytes of the buffer. *)
Definition etc_vm_parse (old file : list Z) : outcome (option cache_config_t) :=
  let data := take 1024 file in
  let size := length data in
  let buffer := cut_lines data ++ drop size old in
  let line1 := drop (Nat.min (length (upto_nul buffer) + 1) size) buffer in
  let go p :=
    if starts_with line1 (str "write_back_freq = ")
    then match atoi (upto_nul (drop 18 line1)) with
         | Ok v => Ok (Some (mk_config p v))
         | Panic why => Panic why
         | OutOfFuel => OutOfFuel
         end
    else Ok None in
  if starts_with buffer (str "page_cache_policy = write back") then go POLICY_WRITE_BACK
  else if starts_with buffer (str "page_cache_policy = write through") then go POLICY_WRITE_THROUGH
  else Ok None.

(** One turn of [etc_vm_daemon] while it is running: the configuration and the
    file after it. *)
Definition etc_vm_turn (old : list Z) (config : cache_config_t) (file : list Z) : outcome (cache_config_t * list Z) :=
  match etc_vm_parse old file with
  | Ok (Some c) => Ok (c, file)
  | Ok None => match etc_vm_reset config file with
               | Ok file => Ok (config, file)
               | Panic why => Panic why
               | OutOfFuel => OutOfFuel
               end
  | Panic why => Panic why
  | OutOfFuel => OutOfFuel
  end.

(** ** /proc/sys/fs/dentry *)
Definition fs_format : list Z := str "dentry_cache = %s" ++ newline ++ str "flush = 0" ++ newline.
Definition etc_fs_reset (enabled : bool) (file : list Z) : outcome (list Z) :=
  match snprintf 128 fs_format [AStr (if enabled then str "on" else str "off")] with
  | Ok buffer => Ok (overlay buffer file)
  | Panic why => Panic why
  | OutOfFuel => OutOfFuel
  end.

(** The first line, and what follows the line ends behind it. *)
Fixpoint first_line (s : list Z) : list Z * list Z :=
  match s with
  | [] => ([], [])
  | c :: s => if c =? 10 then ([], s) else let '(l, r) := first_line s in (c :: l, r)
  end.
Fixpoint skip_newlines (s : list Z) : list Z :=
  match s with c :: s' => if c =? 10 then skip_newlines s' else s | [] => [] end.

(** The return value and the file. *)
Definition etc_fs_parse (file : list Z) : DM (Z * list Z) :=
  let data := take 127 file in
  if (length data =? 0)%nat then ret (-1, file) else
  let '(line1, rest) := first_line (upto_nul data) in
  let line2 := skip_newlines rest in
  let go enable :=
    dcache_set_enabled enable ;;
    if negb (length line2 =? 0)%nat && negb (starts_with line2 (str "flush = 1")) && negb (starts_with line2 (str "flush = 0"))
    then ret (-1, file) else
    (if negb (length line2 =? 0)%nat && starts_with line2 (str "flush = 1") then dcache_reset else ret tt) ;;
    en <- dcache_is_enabled ;;
    file <- (fun d => match etc_fs_reset en file with
                      | Ok f => Ok (f, d) | Panic why => Panic why | OutOfFuel => OutOfFuel end) ;;
    ret (0, file) in
  if starts_with line1 (str "dentry_cache = on") then go true
  else if starts_with line1 (str "dentry_cache = off") then go false
  else ret (-1, file).

(** One turn of [etc_fs_daemon] on a file. *)
Definition etc_fs_turn (file : list Z) : DM (list Z) :=
  let* (r, file) := etc_fs_parse file in
  if r =? 0 then ret file else
  en <- dcache_is_enabled ;;
  fun d => match etc_fs_reset en file with
           | Ok f => Ok (f, d) | Panic why => Panic why | OutOfFuel => OutOfFuel end.
