(* ===== verification/EtcTheorems.v ===== *)
(** * Formatted output and the configuration files: the theorems *)

From S2P Require Import Prelude Bytes CString Printk PageCache Dcache Etc.

(** ** The output stays in the buffer *)
Section bounds.
Context (bl : Z) (Hbl : 0 ≤ bl < 2 ^ 32).

(** There is room for the final zero. *)
Definition fits (out : list Z) : Prop := Z.of_nat (length out) + 1 ≤ bl.

Lemma full_spec out : fits out → (u32 (Z.of_nat (length out) + 1) >=? bl) = (Z.of_nat (length out) + 1 =? bl).
Proof.
  unfold fits. intros Hf. unfold u32, wrap. rewrite Z.mod_small by lia. rewrite Z.geb_leb.
  destruct (Z.leb_spec bl (Z.of_nat (length out) + 1)), (Z.eqb_spec (Z.of_nat (length out) + 1) bl); (done || lia).
Qed.

Lemma put_char_fits ch out : fits out → fits (put_char bl ch out).
Proof.
  intros Hf. unfold put_char. rewrite full_spec by done. destruct (Z.eqb_spec (Z.of_nat (length out) + 1) bl); [done|].
  unfold fits in *. rewrite length_app. cbn. lia.
Qed.

Lemma put_string_fits s len out : fits out → fits (put_string bl s len out).
Proof.
  unfold fits, put_string. intros Hf. set (k := if _ <? len then _ else _).
  assert (Z.of_nat (Z.to_nat k) ≤ bl - Z.of_nat (length out) - 1) as Hk.
  { unfold k. destruct (Z.ltb_spec (bl - Z.of_nat (length out) - 1) len); [|lia].
    unfold u32, wrap. rewrite Z.mod_small by lia. lia. }
  rewrite length_app. destruct s as [s|]; [rewrite length_take|rewrite length_replicate]; lia.
Qed.

Lemma convert_fits ch n_pad c_pad long args out out' args' :
  fits out → convert bl ch n_pad c_pad long args out = Ok (out', args') → fits out'.
Proof.
  intros Hf. unfold convert, put_number. pose proof put_char_fits. pose proof put_string_fits.
  repeat case_match; intros; simplify_eq; eauto.
Qed.

Lemma vsn_loop_fits n fmt args out out' : fits out → vsn_loop n bl fmt args out = Ok out' → fits out'.
Proof.
  revert fmt args out. induction n as [|n IH]; intros fmt args out Hf; cbn [vsn_loop]; [done|].
  destruct fmt as [|ch fmt]; [by intros [= <-]|]. case_match; [by intros [= <-]|]. case_match.
  - apply IH. by apply put_char_fits.
  - destruct (conversion fmt) as [[[n_pad c_pad] long] rest]. destruct rest as [|ch' rest]; [by intros [= <-]|].
    destruct (convert _ _ _ _ _ _ _) as [[o a]| |] eqn:E; [|done|done]. apply IH. by eapply convert_fits.
Qed.

End bounds.

(** ** Reading back what was printed *)
Definition digits (l : list Z) : Prop := Forall (fun c => isdigit c = true) l.

Lemma digit_char_dec d : 0 ≤ d < 10 → digit_char false d = 48 + d ∧ isdigit (48 + d) = true.
Proof.
  intros Hd. unfold digit_char, isdigit. rewrite (proj2 (Z.ltb_lt _ _)) by lia. unfold u8, wrap. rewrite Z.mod_small by lia.
  split; [done|]. rewrite (proj2 (Z.leb_le _ _)), (proj2 (Z.leb_le _ _)) by lia. done.
Qed.

Lemma atol_loop_app base ret l l' :
  atol_loop base ret (l ++ l') = match atol_loop base ret l with Some r => atol_loop base r l' | None => None end.
Proof.
  revert ret. induction l as [|c l IH]; intros ret; [done|]. cbn [app atol_loop].
  destruct (isdigit c); [apply IH|]. destruct (base =? 16); [|done]. destruct ((97 <=? c) && _); [apply IH|].
  destruct ((65 <=? c) && _); [apply IH|done].
Qed.

Lemma i64_small x : 0 ≤ x < 2 ^ 63 → i64 x = x.
Proof.
  intros Hx. unfold i64, swrap, wrap. rewrite Z.mod_small by lia. change (64 - 1) with 63. by rewrite (proj2 (Z.ltb_lt _ _)) by lia.
Qed.
Lemma i64_neg x : - 2 ^ 63 < x < 0 → i64 x = x.
Proof.
  intros Hx. unfold i64, swrap, wrap. replace (x mod 2 ^ 64) with (x + 2 ^ 64).
  2:{ rewrite <- (Z.mod_small (x + 2 ^ 64) (2 ^ 64)) by lia. rewrite <- (Z.mul_1_l (2 ^ 64)) at 1. by rewrite Z_mod_plus_full. }
  change (64 - 1) with 63. rewrite (proj2 (Z.ltb_ge _ _)) by lia. lia.
Qed.

Lemma itoa_loop_run n v :
  0 ≤ v < 2 ^ 63 → v < 10 ^ Z.of_nat n → (0 < n)%nat →
  digits (itoa_loop n v 10 false false) ∧ atol_loop 10 0 (rev (itoa_loop n v 10 false false)) = Some v ∧
  itoa_loop n v 10 false false ≠ [].
Proof.
  revert v. induction n as [|n IH]; intros v Hv Hn H0; [lia|]. cbn [itoa_loop].
  rewrite Z.rem_mod_nonneg, Z.quot_div_nonneg by lia.
  pose proof (Z.mod_pos_bound v 10 ltac:(done)) as Hm. pose proof (Z.div_mod v 10 ltac:(done)) as Ed.
  assert (i32 (v mod 10) = v mod 10) as Ei.
  { unfold i32, swrap, wrap. rewrite Z.mod_small by lia. by rewrite (proj2 (Z.ltb_lt _ _)) by lia. }
  rewrite Ei. destruct (digit_char_dec (v mod 10) Hm) as [-> Hd].
  assert (0 ≤ v / 10 ∧ v / 10 ≤ v) as Hq by (split; [apply Z.div_pos; lia|apply Z.div_le_upper_bound; lia]).
  set (rest := if v / 10 =? 0 then [] else _).
  assert (digits rest ∧ atol_loop 10 0 (rev rest) = Some (v / 10)) as [Hr1 Hr2].
  { unfold rest. destruct (Z.eqb_spec (v / 10) 0) as [->|Hne]; [split; [constructor|done]|].
    destruct n as [|n].
    - change (10 ^ Z.of_nat 1) with 10 in Hn. lia.
    - rewrite Nat2Z.inj_succ, Z.pow_succ_r in Hn by lia. destruct (IH (v / 10)) as (? & ? & _); [lia|lia|lia|done]. }
  split_and!; [by constructor| |done]. cbn [rev]. rewrite atol_loop_app, Hr2. cbn [atol_loop]. rewrite Hd.
  do 2 f_equal. rewrite i64_small; lia.
Qed.

Lemma itoa_length n v k : 0 ≤ v < 10 ^ Z.of_nat (S k) → (length (itoa_loop n v 10 false false) ≤ S k)%nat.
Proof.
  revert n v. induction k as [|k IH]; intros n v Hv; (destruct n as [|n]; [cbn; lia|]); cbn [itoa_loop].
  - rewrite Z.quot_div_nonneg by lia. change (10 ^ Z.of_nat 1) with 10 in Hv. rewrite Z.div_small by lia. done.
  - rewrite Z.quot_div_nonneg by lia. rewrite Nat2Z.inj_succ, Z.pow_succ_r in Hv by lia. case_match; [cbn; lia|].
    specialize (IH n (v / 10)). cbn [length]. apply le_n_S, IH. split; [apply Z.div_pos; lia|]. apply Z.div_lt_upper_bound; lia.
Qed.

(** The second character of a decimal number is no [x]. *)
Lemma decimal_no_hex (s : list Z) :
  digits s → match s with 48 :: x :: _ => (x =? 120) || (x =? 88) | _ => false end = false.
Proof.
  intros Hs. destruct s as [|c [|x s]]; [done| |].
  - by repeat case_match.
  - inversion Hs as [|?? _ Hs']; subst. inversion Hs' as [|?? Hx _]; subst.
    assert ((x =? 120) || (x =? 88) = false) as Ex.
    { unfold isdigit in Hx. apply andb_true_iff in Hx as [H1%Z.leb_le H2%Z.leb_le].
      by rewrite !(proj2 (Z.eqb_neq _ _)) by lia. }
    repeat case_match; (done || congruence).
Qed.

Lemma digit_not_space c : isdigit c = true → isspace c = false ∧ (c =? 45) = false ∧ (c =? 43) = false.
Proof.
  unfold isdigit, isspace. intros [H1%Z.leb_le H2%Z.leb_le]%andb_true_iff.
  by rewrite !(proj2 (Z.eqb_neq _ _)) by lia.
Qed.

Lemma atol_digits D v : digits D → D ≠ [] → atol_loop 10 0 D = Some v → atol D = Ok v ∧ atol (45 :: D) = Ok (i64 (- v)).
Proof.
  intros HD Hne Hv. pose proof (decimal_no_hex D HD) as Hx. destruct D as [|c D]; [done|].
  inversion HD as [|?? Hc _]; subst. destruct (digit_not_space c Hc) as (E1 & E2 & E3). unfold atol. split.
  - rewrite E1, E2, E3, Hc. cbn [orb negb]. cbv zeta. rewrite Hx. by rewrite Hv.
  - change (isspace 45) with false. change (isdigit 45) with false. cbn [orb negb Z.eqb Pos.eqb]. cbv zeta. rewrite Hx. by rewrite Hv.
Qed.

(** What [%ld] prints for a [long]. *)
Definition decimal (v : Z) : list Z := mini_itoa v 10 false false 0 32.

Lemma decimal_eq v : - 2 ^ 63 < v < 2 ^ 63 →
  decimal v = if v <? 0 then 45 :: rev (itoa_loop itoa_fuel (- v) 10 false false) else rev (itoa_loop itoa_fuel v 10 false false).
Proof.
  intros Hv. unfold decimal, mini_itoa. cbn [Z.gtb Z.compare Z.to_nat Nat.sub replicate].
  change (10 >? 16) with false. cbn [negb]. rewrite andb_true_r. destruct (Z.ltb_spec v 0); cbn iota.
  - rewrite i64_small by lia. rewrite app_nil_r. by rewrite rev_app_distr.
  - by rewrite app_nil_r.
Qed.

Lemma decimal_atol v : - 2 ^ 63 < v < 2 ^ 63 → atol (decimal v) = Ok v.
Proof.
  intros Hv. rewrite decimal_eq by done.
  assert (∀ w, 0 ≤ w < 2 ^ 63 → let D := rev (itoa_loop itoa_fuel w 10 false false) in
    atol D = Ok w ∧ atol (45 :: D) = Ok (i64 (- w))) as HD.
  { intros w Hw D. destruct (itoa_loop_run itoa_fuel w Hw) as (H1 & H2 & H3); [etransitivity; [apply Hw|done]|unfold itoa_fuel; lia|].
    apply atol_digits; [by apply Forall_rev| |done]. intros E%(f_equal (@rev Z)). unfold D in E. by rewrite rev_involutive in E. }
  destruct (Z.ltb_spec v 0).
  - destruct (HD (- v) ltac:(lia)) as [_ ->]. rewrite i64_neg by lia. f_equal. lia.
  - by destruct (HD v ltac:(lia)) as [-> _].
Qed.

(** ** Running a format *)
Lemma vsn_literal lit n bl fmt args out :
  forallb (fun c => negb (c =? 37)) lit = true → (length lit ≤ n)%nat → Z.of_nat (length out) + Z.of_nat (length lit) + 1 < bl → bl < 2 ^ 32 →
  vsn_loop n bl (lit ++ fmt) args out = vsn_loop (n - length lit) bl fmt args (out ++ lit).
Proof.
  revert n out. induction lit as [|c lit IH]; intros n out Hc Hn Hl Hb; cbn [app].
  - by rewrite app_nil_r, Nat.sub_0_r.
  - cbn [length] in *. destruct n as [|n]; [lia|]. cbn [vsn_loop Nat.sub].
    rewrite (full_spec bl) by (unfold fits; lia). rewrite (proj2 (Z.eqb_neq _ _)) by lia.
    apply andb_true_iff in Hc as [Hc Hlit]. rewrite Hc.
    assert (put_char bl c out = out ++ [c]) as ->.
    { unfold put_char. rewrite (full_spec bl) by (unfold fits; lia). by rewrite (proj2 (Z.eqb_neq _ _)) by lia. }
    rewrite IH; [by rewrite <- app_assoc|done|lia| |done]. rewrite length_app. cbn. lia.
Qed.

Lemma put_string_room bl s out :
  Z.of_nat (length out) + Z.of_nat (length s) + 1 ≤ bl → put_string bl (Some s) (Z.of_nat (length s)) out = out ++ s.
Proof.
  intros Hl. unfold put_string. rewrite (proj2 (Z.ltb_ge _ _)) by lia. by rewrite Nat2Z.id, take_ge by lia.
Qed.

(** [%s] and [%d] without a width. *)
Lemma vsn_string n bl fmt s args out :
  Z.of_nat (length out) + Z.of_nat (length s) + 1 ≤ bl → Z.of_nat (length out) + 1 < bl → bl < 2 ^ 32 →
  vsn_loop (S n) bl (37 :: 115 :: fmt) (AStr s :: args) out = vsn_loop n bl fmt args (out ++ s).
Proof.
  intros Hl Hl' Hb. cbn [vsn_loop]. rewrite (full_spec bl) by (unfold fits; lia). rewrite (proj2 (Z.eqb_neq _ _)) by lia.
  cbn [negb Z.eqb Pos.eqb conversion width Z.leb Z.compare Pos.compare Pos.compare_cont andb convert]. cbv zeta.
  rewrite put_string_room by done. by rewrite (proj2 (Z.ltb_ge _ _)) by lia.
Qed.

Lemma vsn_int n bl fmt v args out :
  (length (decimal (i32 v)) < 24)%nat → Z.of_nat (length out) + 24 ≤ bl → bl < 2 ^ 32 →
  vsn_loop (S n) bl (37 :: 100 :: fmt) (AInt v :: args) out = vsn_loop n bl fmt args (out ++ decimal (i32 v)).
Proof.
  intros Hl Hl' Hb. cbn [vsn_loop]. rewrite (full_spec bl) by (unfold fits; lia). rewrite (proj2 (Z.eqb_neq _ _)) by lia.
  cbn [negb Z.eqb Pos.eqb conversion width Z.leb Z.compare Pos.compare Pos.compare_cont andb convert arg_int]. cbv zeta.
  unfold put_number. fold (decimal (i32 v)). rewrite (proj2 (Z.ltb_lt _ _)) by (unfold BF_SIZE; lia).
  by rewrite put_string_room by lia.
Qed.

Lemma i32_range v : - 2 ^ 31 ≤ i32 v < 2 ^ 31.
Proof.
  unfold i32, swrap, wrap. pose proof (Z.mod_pos_bound v (2 ^ 32) ltac:(done)). change (32 - 1) with 31.
  destruct (Z.ltb_spec (v mod 2 ^ 32) (2 ^ 31)); lia.
Qed.
Lemma int32_id v : - 2 ^ 31 ≤ v < 2 ^ 31 → i32 v = v.
Proof.
  intros Hv. unfold i32, swrap, wrap. change (32 - 1) with 31. destruct (Z.lt_ge_cases v 0).
  - replace (v mod 2 ^ 32) with (v + 2 ^ 32) by (rewrite <- (Z.mod_small (v + 2 ^ 32) (2 ^ 32)) by lia;
      rewrite <- (Z.mul_1_l (2 ^ 32)) at 1; by rewrite Z_mod_plus_full).
    rewrite (proj2 (Z.ltb_ge _ _)) by lia. lia.
  - rewrite Z.mod_small by lia. by rewrite (proj2 (Z.ltb_lt _ _)) by lia.
Qed.

Lemma decimal_length v : - 2 ^ 31 ≤ v < 2 ^ 31 → (length (decimal v) ≤ 11)%nat.
Proof.
  intros Hv. rewrite decimal_eq by lia. destruct (Z.ltb_spec v 0); cbn [length]; rewrite length_rev.
  - pose proof (itoa_length itoa_fuel (- v) 9) as Hl. change (10 ^ Z.of_nat 10) with 10000000000 in Hl. lia.
  - pose proof (itoa_length itoa_fuel v 9) as Hl. change (10 ^ Z.of_nat 10) with 10000000000 in Hl. lia.
Qed.

(** No character of a number ends a string or a line. *)
Lemma decimal_chars v c : - 2 ^ 63 < v < 2 ^ 63 → c ∈ decimal v → c ≠ 0 ∧ c ≠ 10.
Proof.
  intros Hv. rewrite decimal_eq by done.
  assert (∀ w, 0 ≤ w < 2 ^ 63 → c ∈ rev (itoa_loop itoa_fuel w 10 false false) → c ≠ 0 ∧ c ≠ 10) as HD.
  { intros w Hw Hc. destruct (itoa_loop_run itoa_fuel w Hw) as (H1 & _); [etransitivity; [apply Hw|done]|unfold itoa_fuel; lia|].
    apply Forall_rev in H1. eapply Forall_forall in H1; [|done]. cbn in H1. unfold isdigit in H1.
    apply andb_true_iff in H1 as [H1%Z.leb_le _]. lia. }
  destruct (Z.ltb_spec v 0).
  - intros [->|Hc]%elem_of_cons; [done|]. apply (HD (- v)); [lia|done].
  - apply HD. lia.
Qed.

(** ** /proc/sys/vm *)
Definition vm_line0 (p : cache_policy_t) : list Z := str "page_cache_policy = " ++ cache_policy_name p.
Definition vm_line1 (v : Z) : list Z := str "write_back_freq = " ++ decimal v.
Definition int32 (v : Z) : Prop := - 2 ^ 31 ≤ v < 2 ^ 31.

Lemma vm_text_run c :
  int32 (write_back_freq c) →
  snprintf 1024 vm_format [AStr (cache_policy_name (policy c)); AInt (write_back_freq c)] =
    Ok (vm_line0 (policy c) ++ newline ++ vm_line1 (write_back_freq c) ++ newline).
Proof.
  intros Hv. unfold snprintf, mini_vsnprintf. change (u32 1024) with 1024.
  assert (Z.of_nat (length (cache_policy_name (policy c))) ≤ 13) as Hp by (destruct (policy c); cbn; lia).
  pose proof (decimal_length _ Hv) as Hd. rewrite <- (int32_id _ Hv) in Hd.
  change vm_format with (str "page_cache_policy = " ++ (37 :: 115 :: (10%Z :: str "write_back_freq = ") ++ 37 :: 100 :: newline ++ [])).
  change (S (length _)) with (20 + (S (19 + S (1 + S 2))))%nat.
  rewrite vsn_literal; [|done|cbn; lia|cbn; lia|done].
  change (20 + S (19 + S (1 + S 2)) - length (str "page_cache_policy = "))%nat with (S (19 + S (1 + S 2))).
  rewrite vsn_string by (rewrite ?length_app; cbn [length app str]; lia).
  rewrite vsn_literal; [|done|cbn; lia|rewrite !length_app; cbn [length app str]; lia|done].
  change (19 + S (1 + S 2) - length (10%Z :: str "write_back_freq = "))%nat with (S (1 + S 2)).
  rewrite vsn_int; [|lia|rewrite !length_app; cbn [length app str]; lia|done].
  rewrite vsn_literal; [|done|cbn; lia|rewrite !length_app; cbn [length app str newline]; lia|done].
  cbn [vsn_loop]. f_equal. rewrite (int32_id _ Hv). unfold vm_line0, vm_line1, newline. by rewrite <- !app_assoc.
Qed.

Lemma starts_with_spec l p : Z.of_nat (length p) < 2 ^ 32 →
  starts_with l p = bool_decide (canon (length p) l = canon (length p) p).
Proof.
  intros Hp. unfold starts_with. pose proof (strncmp_canon (Z.of_nat (length p)) l p ltac:(lia)) as E. rewrite Nat2Z.id in E.
  destruct (Z.eqb_spec (strncmp (bytes l) (bytes p) (Z.of_nat (length p))) 0) as [Hz|Hz]; symmetry.
  - apply bool_decide_eq_true. by apply E.
  - apply bool_decide_eq_false. intros Hc. by apply Hz, E.
Qed.

Lemma starts_with_app l p : Z.of_nat (length p) < 2 ^ 32 → starts_with (p ++ l) p = true.
Proof. intros Hp. rewrite starts_with_spec by done. apply bool_decide_eq_true. unfold canon. by rewrite take_app_length, firstn_all. Qed.

Lemma starts_with_long a l p : Z.of_nat (length p) < 2 ^ 32 → (length p ≤ length a)%nat → starts_with (a ++ l) p = starts_with a p.
Proof. intros Hp Hl. rewrite !starts_with_spec by done. unfold canon. by rewrite take_app_le. Qed.

Lemma upto_nul_zero l m : (∀ c, c ∈ l → c ≠ 0) → upto_nul (l ++ 0 :: m) = l.
Proof.
  induction l as [|c l IH]; intros Hl; [done|]. cbn. rewrite (proj2 (Z.eqb_neq _ _)) by (apply Hl; by left).
  rewrite IH; [done|]. intros d Hd. apply Hl. by right.
Qed.

Lemma cut_app a b : a ≠ [] → cut_lines (a ++ b) = cut_lines a ++ ((fun x => if x =? 10 then 0 else x) <$> b).
Proof. destruct a as [|c a]; [done|]. intros _. cbn. by rewrite fmap_app. Qed.

Lemma cut_clean (a : list Z) : (∀ c, c ∈ a → c ≠ 10) → cut_lines a = a.
Proof.
  destruct a as [|c a]; [done|]. cbn. intros Ha. f_equal. induction a as [|d a IH]; [done|]. cbn.
  rewrite (proj2 (Z.eqb_neq _ _)) by (apply Ha; set_solver). rewrite IH; [done|]. set_solver.
Qed.
Lemma fmap_clean (a : list Z) : (∀ c, c ∈ a → c ≠ 10) → (fun x => if x =? 10 then 0 else x) <$> a = a.
Proof.
  intros Ha. induction a as [|d a IH]; [done|]. cbn. rewrite (proj2 (Z.eqb_neq _ _)) by (apply Ha; set_solver).
  rewrite IH; [done|]. set_solver.
Qed.

Definition clean (l : list Z) : bool := forallb (fun c => negb (c =? 0) && negb (c =? 10)) l.
Lemma clean_spec l c : clean l = true → c ∈ l → c ≠ 0 ∧ c ≠ 10.
Proof.
  intros Hl Hc. unfold clean in Hl. rewrite forallb_forall in Hl. apply list_elem_of_In in Hc. specialize (Hl c Hc).
  apply andb_true_iff in Hl as [H1 H2]. apply negb_true_iff, Z.eqb_neq in H1. by apply negb_true_iff, Z.eqb_neq in H2.
Qed.

Lemma line0_clean p c : c ∈ vm_line0 p → c ≠ 0 ∧ c ≠ 10.
Proof. apply clean_spec. by destruct p. Qed.
Lemma line1_clean v c : int32 v → c ∈ vm_line1 v → c ≠ 0 ∧ c ≠ 10.
Proof.
  intros Hv [Hc|Hc]%elem_of_app; [by apply (clean_spec (str "write_back_freq = "))|].
  apply (decimal_chars v); [unfold int32 in Hv; lia|done].
Qed.

(** A file that starts with the two lines parses to the configuration. *)
Lemma vm_parse_text old p v tl :
  int32 v → etc_vm_parse old (vm_line0 p ++ newline ++ vm_line1 v ++ newline ++ tl) = Ok (Some (mk_config p v)).
Proof.
  intros Hv. unfold etc_vm_parse. cbv zeta. pose proof (decimal_length v Hv) as Hd.
  set (data := take 1024 _).
  assert (∃ m, data = vm_line0 p ++ newline ++ vm_line1 v ++ newline ++ m) as [m Em].
  { exists (take (1024 - length (vm_line0 p ++ newline ++ vm_line1 v ++ newline)) tl). unfold data.
    rewrite !app_assoc. rewrite take_app_ge; [done|]. unfold vm_line1. rewrite !length_app. destruct p; cbn [length str app vm_line0 cache_policy_name newline]; lia. }
  set (buffer := cut_lines data ++ drop (length data) old).
  assert (∃ m', buffer = vm_line0 p ++ 0 :: vm_line1 v ++ 0 :: m') as [m' Eb].
  { eexists. unfold buffer. rewrite Em. rewrite cut_app by (by destruct p). rewrite cut_clean by (intros c Hc; by apply (line0_clean p)).
    rewrite !fmap_app, (fmap_clean (vm_line1 v)) by (intros c Hc; by apply (line1_clean v)). rewrite <- !app_assoc. reflexivity. }
  assert (upto_nul buffer = vm_line0 p) as -> by (rewrite Eb; apply upto_nul_zero; intros c Hc; by apply (line0_clean p)).
  rewrite Nat.min_l by (rewrite Em, !length_app; cbn; lia).
  assert (drop (length (vm_line0 p) + 1) buffer = str "write_back_freq = " ++ decimal v ++ 0 :: m') as ->.
  { rewrite Eb, <- drop_drop, drop_app_length. unfold vm_line1. by rewrite <- app_assoc. }
  pose proof (starts_with_app (decimal v ++ 0 :: m') (str "write_back_freq = ") eq_refl) as Es. rewrite Es.
  change (drop 18 (str "write_back_freq = " ++ decimal v ++ 0 :: m')) with (decimal v ++ 0 :: m').
  rewrite upto_nul_zero by (intros c Hc; apply (decimal_chars v c); [unfold int32 in Hv; lia|done]).
  unfold atoi. rewrite decimal_atol by (unfold int32 in Hv; lia). rewrite int32_id by done.
  rewrite Eb. destruct p.
  - rewrite starts_with_long by (done || (cbn; lia)). done.
  - rewrite !starts_with_long by (done || (cbn; lia)). done.
Qed.

(** ** Claims *)

(** C40 Formatted output never leaves its buffer: whatever the format and
    the arguments, when [mini_vsnprintf] returns, the characters it has written
    and the final zero fit the [buffer_len] bytes it was given (with no bytes
    at all nothing is written). *)
Theorem vsnprintf_bounded buffer_len fmt args out :
  0 ≤ buffer_len < 2 ^ 32 → mini_vsnprintf buffer_len fmt args = Ok out →
  Z.of_nat (length out) + 1 ≤ buffer_len ∨ (buffer_len = 0 ∧ out = []).
Proof.
  intros Hb R. destruct (decide (buffer_len = 0)) as [->|Hne].
  - right. split; [done|]. unfold mini_vsnprintf in R. cbn [vsn_loop] in R. destruct fmt; by injection R as <-.
  - left. apply (vsn_loop_fits buffer_len Hb _ _ _ _ _) in R; [done|]. unfold fits. cbn. lia.
Qed.

Lemma vsnprintf_bounded_witness :
  ∃ out, mini_vsnprintf 8 (str "pid %d: %s") [AInt (-42); AStr (str "shell")] = Ok out ∧ Z.of_nat (length out) + 1 ≤ 8.
Proof.
  exists (str "pid -42"). split; [vm_compute; reflexivity|].
  destruct (vsnprintf_bounded 8 (str "pid %d: %s") [AInt (-42); AStr (str "shell")] (str "pid -42")) as [Hl|[Hz _]].
  - lia.
  - vm_compute. reflexivity.
  - exact Hl.
  - lia.
Defined.

(** C39 The configuration file of the page cache reads back as it was written.
    For every policy and every 32-bit frequency, whatever the file held before:
    [etc_vm_reset] succeeds, and [etc_vm_parse] of the file then yields the same
    configuration; so a turn of the daemon on a file it cannot parse keeps the
    configuration and leaves a file that parses to it. *)
Theorem vm_config_roundtrip c file old old' :
  int32 (write_back_freq c) →
  ∃ file', etc_vm_reset c file = Ok file' ∧ etc_vm_parse old file' = Ok (Some c) ∧
    (etc_vm_parse old' file = Ok None → etc_vm_turn old' c file = Ok (c, file')).
Proof.
  intros Hv. unfold etc_vm_reset. rewrite (vm_text_run c Hv). eexists. split; [reflexivity|]. split.
  - unfold overlay. rewrite <- !app_assoc. destruct c as [p v]. by apply vm_parse_text.
  - intros E. unfold etc_vm_turn. rewrite E. unfold etc_vm_reset. by rewrite (vm_text_run c Hv).
Qed.

Lemma vm_config_roundtrip_witness :
  ∃ file', etc_vm_reset (mk_config POLICY_WRITE_THROUGH (-30)) (str "garbage") = Ok file' ∧
    etc_vm_parse [] file' = Ok (Some (mk_config POLICY_WRITE_THROUGH (-30))) ∧
    (etc_vm_parse [] (str "garbage") = Ok None →
     etc_vm_turn [] (mk_config POLICY_WRITE_THROUGH (-30)) (str "garbage") = Ok (mk_config POLICY_WRITE_THROUGH (-30), file')).
Proof. apply vm_config_roundtrip. split; vm_compute; congruence. Defined.

(** ** Corner cases *)

(** [atol] never returns on a string that starts with a blank. *)
Lemma atol_blank_hangs c s : isspace c = true → atol (c :: s) = OutOfFuel.
Proof. intros Hc. unfold atol. by rewrite Hc. Qed.

(** A field width of 24 or more overruns the 24 bytes of [bf]. *)
Lemma wide_field_faults : snprintf 256 (str "%30d") [AInt 7] = Panic "fault".
Proof. vm_compute. reflexivity. Qed.
