(* ===== verification/UserCalls.v ===== *)
(** * tiny_libc/syscall.c: the calls of user programs

    Each wrapper puts its arguments in the registers a0 to a4 and the number of
    the call in a7, traps, and returns a0 converted to its C type. *)

From S2P Require Import Prelude.

(** The C types of arguments and results; pointers, [size_t] and [uint64_t]
    are [Culong]. *)
Inductive ctype := Cvoid | Cint | Cuint | Clong | Culong.

(** ** Numbers (tiny_libc/include/syscall.h, arch/riscv/include/asm/unistd.h) *)
Definition SYSCALL_EXEC : Z := 0.
Definition SYSCALL_EXIT : Z := 1.
Definition SYSCALL_SLEEP : Z := 2.
Definition SYSCALL_KILL : Z := 3.
Definition SYSCALL_WAITPID : Z := 4.
Definition SYSCALL_PS : Z := 5.
Definition SYSCALL_GETPID : Z := 6.
Definition SYSCALL_YIELD : Z := 7.
Definition SYSCALL_WRITE : Z := 20.
Definition SYSCALL_READCH : Z := 21.
Definition SYSCALL_CURSOR : Z := 22.
Definition SYSCALL_REFLUSH : Z := 23.
Definition SYSCALL_CLEAR : Z := 24.
Definition SYSCALL_GET_TIMEBASE : Z := 30.
Definition SYSCALL_GET_TICK : Z := 31.
Definition SYSCALL_SEMA_INIT : Z := 36.
Definition SYSCALL_SEMA_UP : Z := 37.
Definition SYSCALL_SEMA_DOWN : Z := 38.
Definition SYSCALL_SEMA_DESTROY : Z := 39.
Definition SYSCALL_LOCK_INIT : Z := 40.
Definition SYSCALL_LOCK_ACQ : Z := 41.
Definition SYSCALL_LOCK_RELEASE : Z := 42.
Definition SYSCALL_SHOW_TASK : Z := 43.
Definition SYSCALL_BARR_INIT : Z := 44.
Definition SYSCALL_BARR_WAIT : Z := 45.
Definition SYSCALL_BARR_DESTROY : Z := 46.
Definition SYSCALL_COND_INIT : Z := 47.
Definition SYSCALL_COND_WAIT : Z := 48.
Definition SYSCALL_COND_SIGNAL : Z := 49.
Definition SYSCALL_COND_BROADCAST : Z := 50.
Definition SYSCALL_COND_DESTROY : Z := 51.
Definition SYSCALL_MBOX_OPEN : Z := 52.
Definition SYSCALL_MBOX_CLOSE : Z := 53.
Definition SYSCALL_MBOX_SEND : Z := 54.
Definition SYSCALL_MBOX_RECV : Z := 55.
Definition SYSCALL_FREE_MEM : Z := 56.
Definition SYSCALL_PIPE_OPEN : Z := 57.
Definition SYSCALL_PIPE_GIVE : Z := 58.
Definition SYSCALL_PIPE_TAKE : Z := 59.
Definition SYSCALL_NET_SEND : Z := 63.
Definition SYSCALL_NET_RECV : Z := 64.
Definition SYSCALL_FS_MKFS : Z := 65.
Definition SYSCALL_FS_STATFS : Z := 66.
Definition SYSCALL_FS_CD : Z := 67.
Definition SYSCALL_FS_MKDIR : Z := 68.
Definition SYSCALL_FS_RMDIR : Z := 69.
Definition SYSCALL_FS_LS : Z := 70.
Definition SYSCALL_FS_TOUCH : Z := 71.
Definition SYSCALL_FS_CAT : Z := 72.
Definition SYSCALL_FS_OPEN : Z := 73.
Definition SYSCALL_FS_READ : Z := 74.
Definition SYSCALL_FS_WRITE : Z := 75.
Definition SYSCALL_FS_CLOSE : Z := 76.
Definition SYSCALL_FS_LN : Z := 77.
Definition SYSCALL_FS_RM : Z := 78.
Definition SYSCALL_FS_LSEEK : Z := 79.
Definition SYSCALL_SET_WORKLOAD : Z := 80.
Definition SYSCALL_CURSOR_COL : Z := 81.
Definition SYSCALL_CURSOR_ROW : Z := 82.
Definition SYSCALL_TASK_SHOW : Z := 83.
Definition SYSCALL_SET_AFFINITY : Z := 84.
Definition SYSCALL_EXEC_WITH_AFF : Z := 85.
Definition SYSCALL_SET_SCROLL : Z := 86.
Definition SYSCALL_CLEAR_SCROLL : Z := 87.
Definition SYSCALL_SET_COLOR : Z := 88.
Definition SYSCALL_CLEAR_COLOR : Z := 89.
Definition SYSCALL_DELETE_LINE : Z := 90.
Definition SYSCALL_EXEC_BY_ENTRY : Z := 91.
Definition SYSCALL_DISPLAY_INFO : Z := 92.
Definition SYSCALL_SET_NICE : Z := 93.
Definition SYSCALL_SET_MAX_MEM : Z := 94.
Definition SYSCALL_GET_PROC_TICK : Z := 95.
Definition SYSCALL_SET_PAGE_ALGO : Z := 96.
Definition SYSCALL_CLEAR_LINE : Z := 97.
Definition SYSCALL_NET_RECV_STREAM : Z := 98.
Definition SYSCALL_HALT : Z := 99.

Definition IGNORE : Z := 0.

(** ** The trap *)

(** The registers at the [ecall] instruction, and the type of the result. *)
Record ecall := mk_ecall {
  e_a0 : Z;
  e_a1 : Z;
  e_a2 : Z;
  e_a3 : Z;
  e_a4 : Z;
  e_a7 : Z;
  e_type : ctype;
}.

(** The arguments are [long]; a register holds 64 bits. *)
Definition invoke_syscall (sysno arg0 arg1 arg2 arg3 arg4 : Z) : ecall :=
  mk_ecall (u64 arg0) (u64 arg1) (u64 arg2) (u64 arg3) (u64 arg4) (u64 sysno) Clong.
(** What the wrapper makes of the [long]. *)
Definition returning (t : ctype) (e : ecall) : ecall :=
  mk_ecall (e_a0 e) (e_a1 e) (e_a2 e) (e_a3 e) (e_a4 e) (e_a7 e) t.
Definition as_void : ecall → ecall := returning Cvoid.
Definition as_int : ecall → ecall := returning Cint.
Definition as_long : ecall → ecall := returning Clong.
Definition as_ulong : ecall → ecall := returning Culong.

(** ** The wrappers *)
Definition sys_yield : ecall :=
  as_void (invoke_syscall SYSCALL_YIELD IGNORE IGNORE IGNORE IGNORE IGNORE).
Definition sys_move_cursor (x y : Z) : ecall :=
  as_void (invoke_syscall SYSCALL_CURSOR x y IGNORE IGNORE IGNORE).
Definition sys_move_cursor_row (row : Z) : ecall :=
  as_void (invoke_syscall SYSCALL_CURSOR_ROW row IGNORE IGNORE IGNORE IGNORE).
Definition sys_move_cursor_col (col : Z) : ecall :=
  as_void (invoke_syscall SYSCALL_CURSOR_COL col IGNORE IGNORE IGNORE IGNORE).
Definition sys_screen_write (buff : Z) : ecall :=
  as_void (invoke_syscall SYSCALL_WRITE buff IGNORE IGNORE IGNORE IGNORE).
Definition sys_reflush : ecall :=
  as_void (invoke_syscall SYSCALL_REFLUSH IGNORE IGNORE IGNORE IGNORE IGNORE).
Definition sys_clear : ecall :=
  as_void (invoke_syscall SYSCALL_CLEAR IGNORE IGNORE IGNORE IGNORE IGNORE).
Definition sys_mutex_init (key : Z) : ecall :=
  as_int (invoke_syscall SYSCALL_LOCK_INIT key IGNORE IGNORE IGNORE IGNORE).
Definition sys_mutex_acquire (mutex_idx : Z) : ecall :=
  as_void (invoke_syscall SYSCALL_LOCK_ACQ mutex_idx IGNORE IGNORE IGNORE IGNORE).
Definition sys_mutex_release (mutex_idx : Z) : ecall :=
  as_void (invoke_syscall SYSCALL_LOCK_RELEASE mutex_idx IGNORE IGNORE IGNORE IGNORE).
Definition sys_get_timebase : ecall :=
  as_long (invoke_syscall SYSCALL_GET_TIMEBASE IGNORE IGNORE IGNORE IGNORE IGNORE).
Definition sys_get_tick : ecall :=
  as_long (invoke_syscall SYSCALL_GET_TICK IGNORE IGNORE IGNORE IGNORE IGNORE).
Definition sys_get_proc_tick : ecall :=
  as_long (invoke_syscall SYSCALL_GET_PROC_TICK IGNORE IGNORE IGNORE IGNORE IGNORE).
Definition sys_sleep (time : Z) : ecall :=
  as_void (invoke_syscall SYSCALL_SLEEP time IGNORE IGNORE IGNORE IGNORE).
Definition sys_set_sche_workload (workload : Z) : ecall :=
  as_void (invoke_syscall SYSCALL_SET_WORKLOAD workload IGNORE IGNORE IGNORE IGNORE).
Definition sys_task_show : ecall :=
  as_void (invoke_syscall SYSCALL_TASK_SHOW IGNORE IGNORE IGNORE IGNORE IGNORE).
Definition sys_set_affinity (pid affinity_mask : Z) : ecall :=
  as_int (invoke_syscall SYSCALL_SET_AFFINITY pid affinity_mask IGNORE IGNORE IGNORE).
Definition sys_exec_with_affinity (name argc argv affinity_mask : Z) : ecall :=
  as_int (invoke_syscall SYSCALL_EXEC_WITH_AFF name argc argv affinity_mask IGNORE).
Definition sys_screen_set_scroll (start_row end_row : Z) : ecall :=
  as_void (invoke_syscall SYSCALL_SET_SCROLL start_row end_row IGNORE IGNORE IGNORE).
Definition sys_screen_clear_scroll : ecall :=
  as_void (invoke_syscall SYSCALL_CLEAR_SCROLL IGNORE IGNORE IGNORE IGNORE IGNORE).
Definition sys_screen_set_color (start_col end_col foreground background : Z) : ecall :=
  as_void (invoke_syscall SYSCALL_SET_COLOR start_col end_col foreground background IGNORE).
Definition sys_screen_clear_color : ecall :=
  as_void (invoke_syscall SYSCALL_CLEAR_COLOR IGNORE IGNORE IGNORE IGNORE IGNORE).
Definition sys_screen_delete_line (nlines : Z) : ecall :=
  as_void (invoke_syscall SYSCALL_DELETE_LINE nlines IGNORE IGNORE IGNORE IGNORE).
Definition sys_screen_clear_lines (start end_ : Z) : ecall :=
  as_void (invoke_syscall SYSCALL_CLEAR_LINE start end_ IGNORE IGNORE IGNORE).
Definition sys_exec_by_entry (name entrance argc argv : Z) : ecall :=
  as_int (invoke_syscall SYSCALL_EXEC_BY_ENTRY name entrance argc argv IGNORE).
Definition sys_display_info (argc argv : Z) : ecall :=
  as_int (invoke_syscall SYSCALL_DISPLAY_INFO argc argv IGNORE IGNORE IGNORE).
Definition sys_set_sche_nice (nice pid : Z) : ecall :=
  as_int (invoke_syscall SYSCALL_SET_NICE nice pid IGNORE IGNORE IGNORE).
Definition sys_get_free_memory : ecall :=
  as_ulong (invoke_syscall SYSCALL_FREE_MEM IGNORE IGNORE IGNORE IGNORE IGNORE).
Definition sys_set_max_memory (max_mem : Z) : ecall :=
  as_int (invoke_syscall SYSCALL_SET_MAX_MEM max_mem IGNORE IGNORE IGNORE IGNORE).
Definition sys_set_page_repl_algo (algo : Z) : ecall :=
  as_int (invoke_syscall SYSCALL_SET_PAGE_ALGO algo IGNORE IGNORE IGNORE IGNORE).
Definition sys_exec (name argc argv : Z) : ecall :=
  as_int (invoke_syscall SYSCALL_EXEC name argc argv IGNORE IGNORE).
Definition sys_exit : ecall :=
  as_void (invoke_syscall SYSCALL_EXIT IGNORE IGNORE IGNORE IGNORE IGNORE).
Definition sys_kill (pid : Z) : ecall :=
  as_int (invoke_syscall SYSCALL_KILL pid IGNORE IGNORE IGNORE IGNORE).
Definition sys_waitpid (pid : Z) : ecall :=
  as_int (invoke_syscall SYSCALL_WAITPID pid IGNORE IGNORE IGNORE IGNORE).
Definition sys_ps : ecall :=
  as_int (invoke_syscall SYSCALL_PS IGNORE IGNORE IGNORE IGNORE IGNORE).
Definition sys_getpid : ecall :=
  as_int (invoke_syscall SYSCALL_GETPID IGNORE IGNORE IGNORE IGNORE IGNORE).
Definition sys_getchar : ecall :=
  as_int (invoke_syscall SYSCALL_READCH IGNORE IGNORE IGNORE IGNORE IGNORE).
Definition sys_barrier_init (key goal : Z) : ecall :=
  as_int (invoke_syscall SYSCALL_BARR_INIT key goal IGNORE IGNORE IGNORE).
Definition sys_barrier_wait (bar_idx : Z) : ecall :=
  as_void (invoke_syscall SYSCALL_BARR_WAIT bar_idx IGNORE IGNORE IGNORE IGNORE).
Definition sys_barrier_destroy (bar_idx : Z) : ecall :=
  as_void (invoke_syscall SYSCALL_BARR_DESTROY bar_idx IGNORE IGNORE IGNORE IGNORE).
Definition sys_condition_init (key : Z) : ecall :=
  as_int (invoke_syscall SYSCALL_COND_INIT key IGNORE IGNORE IGNORE IGNORE).
Definition sys_condition_wait (cond_idx mutex_idx : Z) : ecall :=
  as_void (invoke_syscall SYSCALL_COND_WAIT cond_idx mutex_idx IGNORE IGNORE IGNORE).
Definition sys_condition_signal (cond_idx : Z) : ecall :=
  as_void (invoke_syscall SYSCALL_COND_SIGNAL cond_idx IGNORE IGNORE IGNORE IGNORE).
Definition sys_condition_broadcast (cond_idx : Z) : ecall :=
  as_void (invoke_syscall SYSCALL_COND_BROADCAST cond_idx IGNORE IGNORE IGNORE IGNORE).
Definition sys_condition_destroy (cond_idx : Z) : ecall :=
  as_void (invoke_syscall SYSCALL_COND_DESTROY cond_idx IGNORE IGNORE IGNORE IGNORE).
Definition sys_semaphore_init (key init : Z) : ecall :=
  as_int (invoke_syscall SYSCALL_SEMA_INIT key init IGNORE IGNORE IGNORE).
Definition sys_semaphore_up (sema_idx : Z) : ecall :=
  as_void (invoke_syscall SYSCALL_SEMA_UP sema_idx IGNORE IGNORE IGNORE IGNORE).
Definition sys_semaphore_down (sema_idx : Z) : ecall :=
  as_void (invoke_syscall SYSCALL_SEMA_DOWN sema_idx IGNORE IGNORE IGNORE IGNORE).
Definition sys_semaphore_destroy (sema_idx : Z) : ecall :=
  as_void (invoke_syscall SYSCALL_SEMA_DESTROY sema_idx IGNORE IGNORE IGNORE IGNORE).
Definition sys_mbox_open (name : Z) : ecall :=
  as_int (invoke_syscall SYSCALL_MBOX_OPEN name IGNORE IGNORE IGNORE IGNORE).
Definition sys_mbox_close (mbox_id : Z) : ecall :=
  as_void (invoke_syscall SYSCALL_MBOX_CLOSE mbox_id IGNORE IGNORE IGNORE IGNORE).
Definition sys_mbox_send (mbox_idx msg msg_length : Z) : ecall :=
  as_int (invoke_syscall SYSCALL_MBOX_SEND mbox_idx msg msg_length IGNORE IGNORE).
Definition sys_mbox_recv (mbox_idx msg msg_length : Z) : ecall :=
  as_int (invoke_syscall SYSCALL_MBOX_RECV mbox_idx msg msg_length IGNORE IGNORE).
Definition sys_pipe_open (name : Z) : ecall :=
  as_int (invoke_syscall SYSCALL_PIPE_OPEN name IGNORE IGNORE IGNORE IGNORE).
Definition sys_pipe_give_pages (idx src length : Z) : ecall :=
  as_long (invoke_syscall SYSCALL_PIPE_GIVE idx src length IGNORE IGNORE).
Definition sys_pipe_take_pages (idx dest length : Z) : ecall :=
  as_long (invoke_syscall SYSCALL_PIPE_TAKE idx dest length IGNORE IGNORE).
Definition sys_net_send (txpacket length : Z) : ecall :=
  as_int (invoke_syscall SYSCALL_NET_SEND txpacket length IGNORE IGNORE IGNORE).
Definition sys_net_recv (rxbuffer pkt_num pkt_lens : Z) : ecall :=
  as_int (invoke_syscall SYSCALL_NET_RECV rxbuffer pkt_num pkt_lens IGNORE IGNORE).
Definition sys_net_recv_stream (buffer nbytes : Z) : ecall :=
  as_int (invoke_syscall SYSCALL_NET_RECV_STREAM buffer nbytes IGNORE IGNORE IGNORE).
Definition sys_mkfs : ecall :=
  as_int (invoke_syscall SYSCALL_FS_MKFS IGNORE IGNORE IGNORE IGNORE IGNORE).
Definition sys_statfs : ecall :=
  as_int (invoke_syscall SYSCALL_FS_STATFS IGNORE IGNORE IGNORE IGNORE IGNORE).
Definition sys_cd (path : Z) : ecall :=
  as_int (invoke_syscall SYSCALL_FS_CD path IGNORE IGNORE IGNORE IGNORE).
Definition sys_mkdir (path : Z) : ecall :=
  as_int (invoke_syscall SYSCALL_FS_MKDIR path IGNORE IGNORE IGNORE IGNORE).
Definition sys_rmdir (path : Z) : ecall :=
  as_int (invoke_syscall SYSCALL_FS_RMDIR path IGNORE IGNORE IGNORE IGNORE).
Definition sys_ls (path option : Z) : ecall :=
  as_int (invoke_syscall SYSCALL_FS_LS path option IGNORE IGNORE IGNORE).
Definition sys_open (path mode : Z) : ecall :=
  as_int (invoke_syscall SYSCALL_FS_OPEN path mode IGNORE IGNORE IGNORE).
Definition sys_read (fd buff length : Z) : ecall :=
  as_int (invoke_syscall SYSCALL_FS_READ fd buff length IGNORE IGNORE).
Definition sys_write (fd buff length : Z) : ecall :=
  as_int (invoke_syscall SYSCALL_FS_WRITE fd buff length IGNORE IGNORE).
Definition sys_close (fd : Z) : ecall :=
  as_int (invoke_syscall SYSCALL_FS_CLOSE fd IGNORE IGNORE IGNORE IGNORE).
Definition sys_ln (src_path dst_path : Z) : ecall :=
  as_int (invoke_syscall SYSCALL_FS_LN src_path dst_path IGNORE IGNORE IGNORE).
Definition sys_rm (path : Z) : ecall :=
  as_int (invoke_syscall SYSCALL_FS_RM path IGNORE IGNORE IGNORE IGNORE).
Definition sys_lseek (fd offset whence : Z) : ecall :=
  as_int (invoke_syscall SYSCALL_FS_LSEEK fd offset whence IGNORE IGNORE).
Definition sys_halt : ecall :=
  as_void (invoke_syscall SYSCALL_HALT IGNORE IGNORE IGNORE IGNORE IGNORE).

(** ** A call of a user program *)
Inductive ucall :=
| Uyield
| Umove_cursor (x y : Z)
| Umove_cursor_row (row : Z)
| Umove_cursor_col (col : Z)
| Uscreen_write (buff : Z)
| Ureflush
| Uclear
| Umutex_init (key : Z)
| Umutex_acquire (mutex_idx : Z)
| Umutex_release (mutex_idx : Z)
| Uget_timebase
| Uget_tick
| Uget_proc_tick
| Usleep (time : Z)
| Uset_sche_workload (workload : Z)
| Utask_show
| Uset_affinity (pid affinity_mask : Z)
| Uexec_with_affinity (name argc argv affinity_mask : Z)
| Uscreen_set_scroll (start_row end_row : Z)
| Uscreen_clear_scroll
| Uscreen_set_color (start_col end_col foreground background : Z)
| Uscreen_clear_color
| Uscreen_delete_line (nlines : Z)
| Uscreen_clear_lines (start end_ : Z)
| Uexec_by_entry (name entrance argc argv : Z)
| Udisplay_info (argc argv : Z)
| Uset_sche_nice (nice pid : Z)
| Uget_free_memory
| Uset_max_memory (max_mem : Z)
| Uset_page_repl_algo (algo : Z)
| Uexec (name argc argv : Z)
| Uexit
| Ukill (pid : Z)
| Uwaitpid (pid : Z)
| Ups
| Ugetpid
| Ugetchar
| Ubarrier_init (key goal : Z)
| Ubarrier_wait (bar_idx : Z)
| Ubarrier_destroy (bar_idx : Z)
| Ucondition_init (key : Z)
| Ucondition_wait (cond_idx mutex_idx : Z)
| Ucondition_signal (cond_idx : Z)
| Ucondition_broadcast (cond_idx : Z)
| Ucondition_destroy (cond_idx : Z)
| Usemaphore_init (key init : Z)
| Usemaphore_up (sema_idx : Z)
| Usemaphore_down (sema_idx : Z)
| Usemaphore_destroy (sema_idx : Z)
| Umbox_open (name : Z)
| Umbox_close (mbox_id : Z)
| Umbox_send (mbox_idx msg msg_length : Z)
| Umbox_recv (mbox_idx msg msg_length : Z)
| Upipe_open (name : Z)
| Upipe_give_pages (idx src length : Z)
| Upipe_take_pages (idx dest length : Z)
| Unet_send (txpacket length : Z)
| Unet_recv (rxbuffer pkt_num pkt_lens : Z)
| Unet_recv_stream (buffer nbytes : Z)
| Umkfs
| Ustatfs
| Ucd (path : Z)
| Umkdir (path : Z)
| Urmdir (path : Z)
| Uls (path option : Z)
| Uopen (path mode : Z)
| Uread (fd buff length : Z)
| Uwrite (fd buff length : Z)
| Uclose (fd : Z)
| Uln (src_path dst_path : Z)
| Urm (path : Z)
| Ulseek (fd offset whence : Z)
| Uhalt.

Definition ecall_of (u : ucall) : ecall :=
  match u with
  | Uyield => sys_yield
  | Umove_cursor x y => sys_move_cursor x y
  | Umove_cursor_row row => sys_move_cursor_row row
  | Umove_cursor_col col => sys_move_cursor_col col
  | Uscreen_write buff => sys_screen_write buff
  | Ureflush => sys_reflush
  | Uclear => sys_clear
  | Umutex_init key => sys_mutex_init key
  | Umutex_acquire mutex_idx => sys_mutex_acquire mutex_idx
  | Umutex_release mutex_idx => sys_mutex_release mutex_idx
  | Uget_timebase => sys_get_timebase
  | Uget_tick => sys_get_tick
  | Uget_proc_tick => sys_get_proc_tick
  | Usleep time => sys_sleep time
  | Uset_sche_workload workload => sys_set_sche_workload workload
  | Utask_show => sys_task_show
  | Uset_affinity pid affinity_mask => sys_set_affinity pid affinity_mask
  | Uexec_with_affinity name argc argv affinity_mask => sys_exec_with_affinity name argc argv affinity_mask
  | Uscreen_set_scroll start_row end_row => sys_screen_set_scroll start_row end_row
  | Uscreen_clear_scroll => sys_screen_clear_scroll
  | Uscreen_set_color start_col end_col foreground background => sys_screen_set_color start_col end_col foreground background
  | Uscreen_clear_color => sys_screen_clear_color
  | Uscreen_delete_line nlines => sys_screen_delete_line nlines
  | Uscreen_clear_lines start end_ => sys_screen_clear_lines start end_
  | Uexec_by_entry name entrance argc argv => sys_exec_by_entry name entrance argc argv
  | Udisplay_info argc argv => sys_display_info argc argv
  | Uset_sche_nice nice pid => sys_set_sche_nice nice pid
  | Uget_free_memory => sys_get_free_memory
  | Uset_max_memory max_mem => sys_set_max_memory max_mem
  | Uset_page_repl_algo algo => sys_set_page_repl_algo algo
  | Uexec name argc argv => sys_exec name argc argv
  | Uexit => sys_exit
  | Ukill pid => sys_kill pid
  | Uwaitpid pid => sys_waitpid pid
  | Ups => sys_ps
  | Ugetpid => sys_getpid
  | Ugetchar => sys_getchar
  | Ubarrier_init key goal => sys_barrier_init key goal
  | Ubarrier_wait bar_idx => sys_barrier_wait bar_idx
  | Ubarrier_destroy bar_idx => sys_barrier_destroy bar_idx
  | Ucondition_init key => sys_condition_init key
  | Ucondition_wait cond_idx mutex_idx => sys_condition_wait cond_idx mutex_idx
  | Ucondition_signal cond_idx => sys_condition_signal cond_idx
  | Ucondition_broadcast cond_idx => sys_condition_broadcast cond_idx
  | Ucondition_destroy cond_idx => sys_condition_destroy cond_idx
  | Usemaphore_init key init => sys_semaphore_init key init
  | Usemaphore_up sema_idx => sys_semaphore_up sema_idx
  | Usemaphore_down sema_idx => sys_semaphore_down sema_idx
  | Usemaphore_destroy sema_idx => sys_semaphore_destroy sema_idx
  | Umbox_open name => sys_mbox_open name
  | Umbox_close mbox_id => sys_mbox_close mbox_id
  | Umbox_send mbox_idx msg msg_length => sys_mbox_send mbox_idx msg msg_length
  | Umbox_recv mbox_idx msg msg_length => sys_mbox_recv mbox_idx msg msg_length
  | Upipe_open name => sys_pipe_open name
  | Upipe_give_pages idx src length => sys_pipe_give_pages idx src length
  | Upipe_take_pages idx dest length => sys_pipe_take_pages idx dest length
  | Unet_send txpacket length => sys_net_send txpacket length
  | Unet_recv rxbuffer pkt_num pkt_lens => sys_net_recv rxbuffer pkt_num pkt_lens
  | Unet_recv_stream buffer nbytes => sys_net_recv_stream buffer nbytes
  | Umkfs => sys_mkfs
  | Ustatfs => sys_statfs
  | Ucd path => sys_cd path
  | Umkdir path => sys_mkdir path
  | Urmdir path => sys_rmdir path
  | Uls path option => sys_ls path option
  | Uopen path mode => sys_open path mode
  | Uread fd buff length => sys_read fd buff length
  | Uwrite fd buff length => sys_write fd buff length
  | Uclose fd => sys_close fd
  | Uln src_path dst_path => sys_ln src_path dst_path
  | Urm path => sys_rm path
  | Ulseek fd offset whence => sys_lseek fd offset whence
  | Uhalt => sys_halt
  end.

(** The arguments with their C types. *)
Definition typed_args (u : ucall) : list (ctype * Z) :=
  match u with
  | Uyield => []
  | Umove_cursor x y => [(Cint, x); (Cint, y)]
  | Umove_cursor_row row => [(Cint, row)]
  | Umove_cursor_col col => [(Cint, col)]
  | Uscreen_write buff => [(Culong, buff)]
  | Ureflush => []
  | Uclear => []
  | Umutex_init key => [(Cint, key)]
  | Umutex_acquire mutex_idx => [(Cint, mutex_idx)]
  | Umutex_release mutex_idx => [(Cint, mutex_idx)]
  | Uget_timebase => []
  | Uget_tick => []
  | Uget_proc_tick => []
  | Usleep time => [(Cuint, time)]
  | Uset_sche_workload workload => [(Cint, workload)]
  | Utask_show => []
  | Uset_affinity pid affinity_mask => [(Cint, pid); (Cuint, affinity_mask)]
  | Uexec_with_affinity name argc argv affinity_mask => [(Culong, name); (Cint, argc); (Culong, argv); (Cint, affinity_mask)]
  | Uscreen_set_scroll start_row end_row => [(Cint, start_row); (Cint, end_row)]
  | Uscreen_clear_scroll => []
  | Uscreen_set_color start_col end_col foreground background => [(Cint, start_col); (Cint, end_col); (Cint, foreground); (Cint, background)]
  | Uscreen_clear_color => []
  | Uscreen_delete_line nlines => [(Cint, nlines)]
  | Uscreen_clear_lines start end_ => [(Cint, start); (Cint, end_)]
  | Uexec_by_entry name entrance argc argv => [(Culong, name); (Culong, entrance); (Cint, argc); (Culong, argv)]
  | Udisplay_info argc argv => [(Cint, argc); (Culong, argv)]
  | Uset_sche_nice nice pid => [(Cint, nice); (Cint, pid)]
  | Uget_free_memory => []
  | Uset_max_memory max_mem => [(Culong, max_mem)]
  | Uset_page_repl_algo algo => [(Culong, algo)]
  | Uexec name argc argv => [(Culong, name); (Cint, argc); (Culong, argv)]
  | Uexit => []
  | Ukill pid => [(Cint, pid)]
  | Uwaitpid pid => [(Cint, pid)]
  | Ups => []
  | Ugetpid => []
  | Ugetchar => []
  | Ubarrier_init key goal => [(Cint, key); (Cint, goal)]
  | Ubarrier_wait bar_idx => [(Cint, bar_idx)]
  | Ubarrier_destroy bar_idx => [(Cint, bar_idx)]
  | Ucondition_init key => [(Cint, key)]
  | Ucondition_wait cond_idx mutex_idx => [(Cint, cond_idx); (Cint, mutex_idx)]
  | Ucondition_signal cond_idx => [(Cint, cond_idx)]
  | Ucondition_broadcast cond_idx => [(Cint, cond_idx)]
  | Ucondition_destroy cond_idx => [(Cint, cond_idx)]
  | Usemaphore_init key init => [(Cint, key); (Cint, init)]
  | Usemaphore_up sema_idx => [(Cint, sema_idx)]
  | Usemaphore_down sema_idx => [(Cint, sema_idx)]
  | Usemaphore_destroy sema_idx => [(Cint, sema_idx)]
  | Umbox_open name => [(Culong, name)]
  | Umbox_close mbox_id => [(Cint, mbox_id)]
  | Umbox_send mbox_idx msg msg_length => [(Cint, mbox_idx); (Culong, msg); (Cint, msg_length)]
  | Umbox_recv mbox_idx msg msg_length => [(Cint, mbox_idx); (Culong, msg); (Cint, msg_length)]
  | Upipe_open name => [(Culong, name)]
  | Upipe_give_pages idx src length => [(Cint, idx); (Culong, src); (Culong, length)]
  | Upipe_take_pages idx dest length => [(Cint, idx); (Culong, dest); (Culong, length)]
  | Unet_send txpacket length => [(Culong, txpacket); (Cint, length)]
  | Unet_recv rxbuffer pkt_num pkt_lens => [(Culong, rxbuffer); (Cint, pkt_num); (Culong, pkt_lens)]
  | Unet_recv_stream buffer nbytes => [(Culong, buffer); (Culong, nbytes)]
  | Umkfs => []
  | Ustatfs => []
  | Ucd path => [(Culong, path)]
  | Umkdir path => [(Culong, path)]
  | Urmdir path => [(Culong, path)]
  | Uls path option => [(Culong, path); (Cint, option)]
  | Uopen path mode => [(Culong, path); (Cint, mode)]
  | Uread fd buff length => [(Cint, fd); (Culong, buff); (Cint, length)]
  | Uwrite fd buff length => [(Cint, fd); (Culong, buff); (Cint, length)]
  | Uclose fd => [(Cint, fd)]
  | Uln src_path dst_path => [(Culong, src_path); (Culong, dst_path)]
  | Urm path => [(Culong, path)]
  | Ulseek fd offset whence => [(Cint, fd); (Cint, offset); (Cint, whence)]
  | Uhalt => []
  end.

Definition in_ctype (a : ctype * Z) : bool :=
  match a.1 with
  | Cvoid => true
  | Cint => (- 2 ^ 31 <=? a.2) && (a.2 <? 2 ^ 31)
  | Cuint => (0 <=? a.2) && (a.2 <? 2 ^ 32)
  | Clong => (- 2 ^ 63 <=? a.2) && (a.2 <? 2 ^ 63)
  | Culong => (0 <=? a.2) && (a.2 <? 2 ^ 64)
  end.
Definition well_typed (u : ucall) : bool := forallb in_ctype (typed_args u).

(** The C result of the wrapper, from the register a0. *)
Definition cconv (t : ctype) (a0 : Z) : Z :=
  match t with
  | Cvoid => 0
  | Cint => i32 a0
  | Cuint => u32 a0
  | Clong => i64 a0
  | Culong => u64 a0
  end.
