(* ===== verification/Syscall.v ===== *)
(** * kernel/syscall/syscall.cpp: the system calls of the kernel

    [handle_syscall] finds the handler of a trap in a table of 128 entries and
    calls it with the registers a0 to a5, which the handler reads by the C types
    of its parameters. What the handlers call is an interface, the class
    [Kernel] over the operations [kop]. *)

From S2P Require Import Prelude CString Printk UserCalls.

(** ** What the handlers call *)

(** An entry of the table of tasks. *)
Record task_info_t := mk_task { task_name : list Z; task_entrance : Z }.

(** The functions behind the sub-commands of [info]. *)
Inductive info_t :=
| show_tasks | do_process_show | show_process_tree | show_pcb | show_timer | show_cputime | show_conditions | show_mutexes
| show_barriers | show_semaphores | show_mailboxes | show_pagegroups | show_swap | do_statfs | show_blocks | show_help.

Inductive kop : Type → Type :=
(* memory of the caller: [uva_object_t] *)
| UvaStr (addr : Z) : kop (option (list Z))
| UvaArgv (addr argc : Z) : kop (option (list (option (list Z))))
| LoadInt (addr : Z) : kop Z
| StoreInt (addr v : Z) : kop unit
| CopyToUser (dest src size : Z) : kop unit
| CopyToNetBuffer (src size : Z) : kop unit
| Kmalloc (size : Z) : kop Z
| Kfree (p : Z) : kop unit
(* processes *)
| DoSleep (time : Z) : kop unit
| DoScheduler : kop unit
| FindTask (name : option (list Z)) : kop (option task_info_t)
| DoExec (task : task_info_t) (name : list Z) (entrance argc : Z) (argv : option (list (option (list Z)))) (affinity : Z) : kop Z
| CurrentAffinity : kop Z
| CurrentPid : kop Z
| FindPcb (pid : Z) : kop (option nat)
| SetProcAffinity (pcb : nat) (mask : Z) : kop Z
| SetWorkload (workload : Z) : kop unit
| SetNice (nice pid : Z) : kop Z
| DoExit : kop unit
| DoKill (pid : Z) : kop Z
| DoWaitpid (pid : Z) : kop Z
| DoInfo (what : info_t) : kop Z
(* memory *)
| GetFreeMemory : kop Z
| SetMaxMemory (max_mem : Z) : kop Z
| SetPageAlgo (algo : option (list Z)) : kop Z
(* screen and console *)
| ScreenSetScroll (start_row end_row : Z) : kop unit
| ScreenClearScroll : kop unit
| ScreenSetColor (start_col end_col foreground background : Z) : kop unit
| ScreenClearColor : kop unit
| ScreenDeleteLine (nlines : Z) : kop unit
| ScreenWrite (buff : option (list Z)) : kop unit
| ScreenMoveCursor (x y : Z) : kop unit
| ScreenMoveCursorRow (row : Z) : kop unit
| ScreenMoveCursorCol (col : Z) : kop unit
| ScreenReflush : kop unit
| ScreenClear : kop unit
| ScreenClearLines (start end_ : Z) : kop unit
| Getchar : kop Z
(* synchronisation *)
| MutexInit (key : Z) : kop Z
| MutexAcquire (handle : Z) : kop unit
| MutexRelease (handle : Z) : kop unit
| BarrierInit (key goal : Z) : kop Z
| BarrierDestroy (bar_idx : Z) : kop unit
| BarrierWait (bar_idx : Z) : kop unit
| ConditionInit (key : Z) : kop Z
| ConditionWait (cond_idx mutex_idx : Z) : kop unit
| ConditionSignal (cond_idx : Z) : kop unit
| ConditionBroadcast (cond_idx : Z) : kop unit
| ConditionDestroy (cond_idx : Z) : kop unit
| SemaphoreInit (key init : Z) : kop Z
| SemaphoreUp (sema_idx : Z) : kop unit
| SemaphoreDown (sema_idx : Z) : kop unit
| SemaphoreDestroy (sema_idx : Z) : kop unit
| MboxOpen (name : option (list Z)) : kop Z
| MboxClose (mbox_id : Z) : kop unit
| MboxSend (mbox_idx msg msg_length : Z) : kop Z
| MboxRecv (mbox_idx msg msg_length : Z) : kop Z
(* time *)
| GetTimeBase : kop Z
| GetTicks : kop Z
| GetProcTick : kop Z
(* pipes and network *)
| PipeOpen (name : option (list Z)) : kop Z
| PipeGivePages (idx src length : Z) : kop Z
| PipeTakePages (idx dest length : Z) : kop Z
| DoNetSend (txpacket length : Z) : kop Z
| DoNetRecv (buffer pkt_num lens : Z) : kop Z
| DoNetRecvStream (buffer nbytes : Z) : kop Z
(* files *)
| DoRemakefs : kop Z
| DoStatfs : kop Z
| DoLs (path : option (list Z)) (option : Z) : kop Z
| DoCd (path : option (list Z)) : kop Z
| DoMkdir (path : option (list Z)) : kop Z
| DoRmdir (path : option (list Z)) : kop Z
| DoOpen (path : option (list Z)) (mode : Z) : kop Z
| DoClose (fd : Z) : kop Z
| DoRead (fd buff length : Z) : kop Z
| DoWrite (fd buff length : Z) : kop Z
| DoLn (src_path dst_path : option (list Z)) : kop Z
| DoRm (path : option (list Z)) : kop Z
| DoLseek (fd offset whence : Z) : kop Z
| DoHalt : kop unit.

Class Kernel (K : Type) := kdo : ∀ {R}, kop R → M K R.

Definition TX_PKT_SIZE : Z := 2048.
Definition RX_PKT_SIZE : Z := 2048.

Section Handlers.

Context {K : Type} `{Kernel K}.

(** ** Processes *)
Definition sys_sleep (time : Z) : M K Z := kdo (DoSleep time) ;; ret 0.
Definition sys_yield : M K Z := kdo DoScheduler ;; ret 0.

Definition exec_dispatch (uname argc uargv entrance affinity : Z) : M K Z :=
  name <- kdo (UvaStr uname) ;;
  argv <- kdo (UvaArgv uargv argc) ;;
  task <- kdo (FindTask name) ;;
  match task with
  | None => ret 0
  | Some task =>
      let entrance := if entrance =? u64 (-1) then task_entrance task else entrance in
      kdo (DoExec task (task_name task) entrance argc argv affinity)
  end.
Definition sys_exec_with_affinity (name argc argv affinity : Z) : M K Z :=
  exec_dispatch name argc argv (u64 (-1)) affinity.
Definition sys_exec (name argc argv : Z) : M K Z :=
  a <- kdo CurrentAffinity ;; exec_dispatch name argc argv (u64 (-1)) a.
Definition sys_exec_by_entry (name entrance argc argv : Z) : M K Z :=
  a <- kdo CurrentAffinity ;; exec_dispatch name argc argv entrance a.

Definition sys_set_affinity (pid affinity_mask : Z) : M K Z :=
  pcb <- kdo (FindPcb pid) ;;
  match pcb with
  | Some p => err <- kdo (SetProcAffinity p affinity_mask) ;; ret (if err =? 0 then 1 else 0)
  | None => ret 0
  end.
Definition sys_set_workload (workload : Z) : M K Z := kdo (SetWorkload workload) ;; ret 0.
Definition sys_set_nice (nice pid : Z) : M K Z := kdo (SetNice nice pid).
Definition sys_exit : M K Z := kdo DoExit ;; ret 0.
Definition sys_kill (pid : Z) : M K Z := kdo (DoKill pid).
Definition sys_waitpid (pid : Z) : M K Z := kdo (DoWaitpid pid).
Definition sys_getpid : M K Z := kdo CurrentPid.
Definition sys_get_free_memory : M K Z := kdo GetFreeMemory.
(** The bodies of the next two are [sys_set_max_memory] and
    [sys_set_page_repl_algo] of Vm.v. *)
Definition sys_set_max_memory (max_mem : Z) : M K Z := kdo (SetMaxMemory max_mem).
Definition sys_set_page_repl_algo (ualgo : Z) : M K Z :=
  algo <- kdo (UvaStr ualgo) ;; kdo (SetPageAlgo algo).
Definition sys_process_show : M K Z := kdo (DoInfo do_process_show).
Definition sys_task_show : M K Z := kdo (DoInfo show_tasks) ;; ret 0.

(** ** [info] *)
Definition show_sync : M K unit :=
  kdo (DoInfo show_mutexes) ;; kdo (DoInfo show_conditions) ;; kdo (DoInfo show_barriers) ;;
  kdo (DoInfo show_semaphores) ;; kdo (DoInfo show_mailboxes) ;; ret tt.
Definition show_time : M K unit := kdo (DoInfo show_timer) ;; kdo (DoInfo show_cputime) ;; ret tt.
Definition shows (what : info_t) : M K unit := kdo (DoInfo what) ;; ret tt.
Definition INFO_COMMANDS : list (string * M K unit) :=
  [("task", shows show_tasks); ("proc", shows do_process_show); ("ptree", shows show_process_tree);
   ("pcb", shows show_pcb); ("time", show_time); ("cond", shows show_conditions); ("mutex", shows show_mutexes);
   ("bar", shows show_barriers); ("sema", shows show_semaphores); ("sync", show_sync); ("mbox", shows show_mailboxes);
   ("page", shows show_pagegroups); ("swap", shows show_swap); ("fs", shows do_statfs); ("block", shows show_blocks);
   ("help", shows show_help)]%string.

(** The loop over the commands: did one match? *)
Fixpoint info_loop (cmds : list (string * M K unit)) (subcmd : list Z) : M K bool :=
  match cmds with
  | [] => ret false
  | (name, handler) :: cmds =>
      if bool_decide (subcmd = str name) then handler ;; ret true else info_loop cmds subcmd
  end.
Definition sys_display_info (argc uargv : Z) : M K Z :=
  argv <- kdo (UvaArgv uargv argc) ;;
  hit <- (if argc >? 1 then
            match argv ≫= (.!! 1%nat) with
            | Some (Some subcmd) => info_loop INFO_COMMANDS subcmd
            | _ => panic "fault"
            end
          else ret false) ;;
  (if (hit : bool) then ret tt else shows show_help) ;;
  ret (if hit then 0 else 1).

(** ** Screen *)
Definition sys_screen_set_scroll (start_row end_row : Z) : M K Z := kdo (ScreenSetScroll start_row end_row) ;; ret 0.
Definition sys_screen_clear_scroll : M K Z := kdo ScreenClearScroll ;; ret 0.
Definition sys_screen_set_color (start_col end_col foreground background : Z) : M K Z :=
  kdo (ScreenSetColor start_col end_col foreground background) ;; ret 0.
Definition sys_screen_clear_color : M K Z := kdo ScreenClearColor ;; ret 0.
Definition sys_screen_delete_line (nlines : Z) : M K Z := kdo (ScreenDeleteLine nlines) ;; ret 0.
Definition sys_screen_write (ubuff : Z) : M K Z :=
  buff <- kdo (UvaStr ubuff) ;; kdo (ScreenWrite buff) ;; ret 0.
Definition sys_readch : M K Z := kdo Getchar.
Definition sys_move_cursor (x y : Z) : M K Z := kdo (ScreenMoveCursor x y) ;; ret 0.
Definition sys_move_cursor_row (row : Z) : M K Z := kdo (ScreenMoveCursorRow row) ;; ret 0.
Definition sys_move_cursor_col (col : Z) : M K Z := kdo (ScreenMoveCursorCol col) ;; ret 0.
Definition sys_screen_reflush : M K Z := kdo ScreenReflush ;; ret 0.
Definition sys_screen_clear : M K Z := kdo ScreenClear ;; ret 0.
Definition sys_screen_clear_lines (start end_ : Z) : M K Z := kdo (ScreenClearLines start end_) ;; ret 0.

(** ** Synchronisation *)
Definition sys_lock_init (key : Z) : M K Z := kdo (MutexInit key).
Definition sys_lock_acquire (handle : Z) : M K Z := kdo (MutexAcquire handle) ;; ret 0.
Definition sys_lock_release (handle : Z) : M K Z := kdo (MutexRelease handle) ;; ret 0.
Definition sys_barrier_init (key goal : Z) : M K Z := kdo (BarrierInit key goal).
Definition sys_barrier_destroy (bar_idx : Z) : M K Z := kdo (BarrierDestroy bar_idx) ;; ret 0.
Definition sys_barrier_wait (bar_idx : Z) : M K Z := kdo (BarrierWait bar_idx) ;; ret 0.
Definition sys_condition_init (key : Z) : M K Z := kdo (ConditionInit key).
Definition sys_condition_wait (cond_idx mutex_idx : Z) : M K Z := kdo (ConditionWait cond_idx mutex_idx) ;; ret 0.
Definition sys_condition_signal (cond_idx : Z) : M K Z := kdo (ConditionSignal cond_idx) ;; ret 0.
Definition sys_condition_broadcast (cond_idx : Z) : M K Z := kdo (ConditionBroadcast cond_idx) ;; ret 0.
Definition sys_condition_destroy (cond_idx : Z) : M K Z := kdo (ConditionDestroy cond_idx) ;; ret 0.
Definition sys_semaphore_init (key init : Z) : M K Z := kdo (SemaphoreInit key init).
Definition sys_semaphore_up (sema_idx : Z) : M K Z := kdo (SemaphoreUp sema_idx) ;; ret 0.
Definition sys_semaphore_down (sema_idx : Z) : M K Z := kdo (SemaphoreDown sema_idx) ;; ret 0.
Definition sys_semaphore_destroy (sema_idx : Z) : M K Z := kdo (SemaphoreDestroy sema_idx) ;; ret 0.
Definition sys_mbox_open (uname : Z) : M K Z := name <- kdo (UvaStr uname) ;; kdo (MboxOpen name).
Definition sys_mbox_close (mbox_id : Z) : M K Z := kdo (MboxClose mbox_id) ;; ret 0.
Definition sys_mbox_send (mbox_idx msg msg_length : Z) : M K Z := kdo (MboxSend mbox_idx msg msg_length) ;; ret msg_length.
Definition sys_mbox_recv (mbox_idx msg msg_length : Z) : M K Z := kdo (MboxRecv mbox_idx msg msg_length) ;; ret msg_length.

(** ** Time *)
Definition sys_get_timebase : M K Z := kdo GetTimeBase.
Definition sys_get_tick : M K Z := kdo GetTicks.
Definition sys_get_proc_tick : M K Z := kdo GetProcTick.

(** ** Pipes and network *)
Definition sys_pipe_open (uname : Z) : M K Z := name <- kdo (UvaStr uname) ;; kdo (PipeOpen name).
Definition sys_pipe_give_pages (idx src length : Z) : M K Z := kdo (PipeGivePages idx src length).
Definition sys_pipe_take_pages (idx dest length : Z) : M K Z := kdo (PipeTakePages idx dest length).
(** The copy in the static buffer is made and not used. *)
Definition sys_net_send (txpacket length : Z) : M K Z :=
  if length >? TX_PKT_SIZE then ret 0 else
  kdo (CopyToNetBuffer txpacket (u64 length)) ;;
  kdo (DoNetSend txpacket length).
Definition sys_net_recv (rxbuffer pkt_num pkt_lens : Z) : M K Z :=
  buffer <- kdo (Kmalloc (u64 (i32 (pkt_num * RX_PKT_SIZE)))) ;;
  buffer_lens <- kdo (Kmalloc (u64 (4 * pkt_num))) ;;
  r <- kdo (DoNetRecv buffer pkt_num buffer_lens) ;;
  kdo (CopyToUser rxbuffer buffer (u64 r)) ;;
  kdo (CopyToUser pkt_lens buffer_lens (u64 (4 * pkt_num))) ;;
  kdo (Kfree buffer) ;;
  kdo (Kfree buffer_lens) ;;
  ret r.
(** [DoNetRecvStream] answers with the new value of [nbytes_kernel]. *)
Definition sys_net_recv_stream (buffer nbytes : Z) : M K Z :=
  n <- kdo (LoadInt nbytes) ;;
  buffer_kernel <- kdo (Kmalloc (u64 n)) ;;
  n <- kdo (LoadInt nbytes) ;;
  n <- kdo (DoNetRecvStream buffer_kernel n) ;;
  kdo (CopyToUser buffer (u64 (buffer_kernel + 4)) (u64 (i32 (n - 4)))) ;;
  kdo (Kfree buffer_kernel) ;;
  let n := i32 (n - 4) in
  kdo (StoreInt nbytes n) ;;
  ret n.

(** ** Files *)
Definition sys_mkfs : M K Z := kdo DoRemakefs.
Definition sys_statfs : M K Z := kdo DoStatfs.
Definition sys_ls (upath option : Z) : M K Z := path <- kdo (UvaStr upath) ;; kdo (DoLs path option).
Definition sys_cd (upath : Z) : M K Z := path <- kdo (UvaStr upath) ;; kdo (DoCd path).
Definition sys_mkdir (upath : Z) : M K Z := path <- kdo (UvaStr upath) ;; kdo (DoMkdir path).
Definition sys_rmdir (upath : Z) : M K Z := path <- kdo (UvaStr upath) ;; kdo (DoRmdir path).
Definition sys_open (upath mode : Z) : M K Z := path <- kdo (UvaStr upath) ;; kdo (DoOpen path mode).
Definition sys_close (fd : Z) : M K Z := kdo (DoClose fd).
Definition sys_read (fd buff length : Z) : M K Z := kdo (DoRead fd buff length).
Definition sys_write (fd buff length : Z) : M K Z := kdo (DoWrite fd buff length).
Definition sys_ln (usrc_path udst_path : Z) : M K Z :=
  src_path <- kdo (UvaStr usrc_path) ;; dst_path <- kdo (UvaStr udst_path) ;; kdo (DoLn src_path dst_path).
Definition sys_rm (upath : Z) : M K Z := path <- kdo (UvaStr upath) ;; kdo (DoRm path).
Definition sys_lseek (fd offset whence : Z) : M K Z := kdo (DoLseek fd offset whence).
Definition sys_halt : M K Z := kdo DoHalt ;; ret 0.

(** ** The table *)

(** A parameter of type [int] reads the low half of its register, signed, one
    of type [unsigned] unsigned; [long], [size_t] and pointers all of it. *)
Definition arg_int : Z → Z := i32.
Definition arg_uint : Z → Z := u32.
Definition arg_ulong : Z → Z := u64.

Definition syscall_t : Type := Z → Z → Z → Z → Z → Z → M K Z.
Definition NUM_SYSCALLS : nat := 128.

(** The assignments of [init_syscall], in order. *)
Definition handlers : list (Z * syscall_t) :=
  [
   (SYSCALL_EXEC, fun a0 a1 a2 _ _ _ => sys_exec (arg_ulong a0) (arg_int a1) (arg_ulong a2));
   (SYSCALL_EXIT, fun _ _ _ _ _ _ => sys_exit);
   (SYSCALL_EXEC_WITH_AFF, fun a0 a1 a2 a3 _ _ => sys_exec_with_affinity (arg_ulong a0) (arg_int a1) (arg_ulong a2) (arg_int a3));
   (SYSCALL_EXEC_BY_ENTRY, fun a0 a1 a2 a3 _ _ => sys_exec_by_entry (arg_ulong a0) (arg_ulong a1) (arg_int a2) (arg_ulong a3));
   (SYSCALL_SLEEP, fun a0 _ _ _ _ _ => sys_sleep (arg_uint a0));
   (SYSCALL_KILL, fun a0 _ _ _ _ _ => sys_kill (arg_int a0));
   (SYSCALL_WAITPID, fun a0 _ _ _ _ _ => sys_waitpid (arg_int a0));
   (SYSCALL_GETPID, fun _ _ _ _ _ _ => sys_getpid);
   (SYSCALL_YIELD, fun _ _ _ _ _ _ => sys_yield);
   (SYSCALL_PS, fun _ _ _ _ _ _ => sys_process_show);
   (SYSCALL_TASK_SHOW, fun _ _ _ _ _ _ => sys_task_show);
   (SYSCALL_DISPLAY_INFO, fun a0 a1 _ _ _ _ => sys_display_info (arg_int a0) (arg_ulong a1));
   (SYSCALL_FREE_MEM, fun _ _ _ _ _ _ => sys_get_free_memory);
   (SYSCALL_SET_MAX_MEM, fun a0 _ _ _ _ _ => sys_set_max_memory (arg_ulong a0));
   (SYSCALL_SET_PAGE_ALGO, fun a0 _ _ _ _ _ => sys_set_page_repl_algo (arg_ulong a0));
   (SYSCALL_WRITE, fun a0 _ _ _ _ _ => sys_screen_write (arg_ulong a0));
   (SYSCALL_READCH, fun _ _ _ _ _ _ => sys_readch);
   (SYSCALL_CURSOR, fun a0 a1 _ _ _ _ => sys_move_cursor (arg_int a0) (arg_int a1));
   (SYSCALL_CURSOR_COL, fun a0 _ _ _ _ _ => sys_move_cursor_col (arg_int a0));
   (SYSCALL_CURSOR_ROW, fun a0 _ _ _ _ _ => sys_move_cursor_row (arg_int a0));
   (SYSCALL_REFLUSH, fun _ _ _ _ _ _ => sys_screen_reflush);
   (SYSCALL_CLEAR, fun _ _ _ _ _ _ => sys_screen_clear);
   (SYSCALL_GET_TIMEBASE, fun _ _ _ _ _ _ => sys_get_timebase);
   (SYSCALL_GET_TICK, fun _ _ _ _ _ _ => sys_get_tick);
   (SYSCALL_GET_PROC_TICK, fun _ _ _ _ _ _ => sys_get_proc_tick);
   (SYSCALL_LOCK_INIT, fun a0 _ _ _ _ _ => sys_lock_init (arg_int a0));
   (SYSCALL_LOCK_ACQ, fun a0 _ _ _ _ _ => sys_lock_acquire (arg_int a0));
   (SYSCALL_LOCK_RELEASE, fun a0 _ _ _ _ _ => sys_lock_release (arg_int a0));
   (SYSCALL_BARR_INIT, fun a0 a1 _ _ _ _ => sys_barrier_init (arg_int a0) (arg_int a1));
   (SYSCALL_BARR_WAIT, fun a0 _ _ _ _ _ => sys_barrier_wait (arg_int a0));
   (SYSCALL_BARR_DESTROY, fun a0 _ _ _ _ _ => sys_barrier_destroy (arg_int a0));
   (SYSCALL_COND_INIT, fun a0 _ _ _ _ _ => sys_condition_init (arg_int a0));
   (SYSCALL_COND_WAIT, fun a0 a1 _ _ _ _ => sys_condition_wait (arg_int a0) (arg_int a1));
   (SYSCALL_COND_SIGNAL, fun a0 _ _ _ _ _ => sys_condition_signal (arg_int a0));
   (SYSCALL_COND_BROADCAST, fun a0 _ _ _ _ _ => sys_condition_broadcast (arg_int a0));
   (SYSCALL_COND_DESTROY, fun a0 _ _ _ _ _ => sys_condition_destroy (arg_int a0));
   (SYSCALL_SEMA_INIT, fun a0 a1 _ _ _ _ => sys_semaphore_init (arg_int a0) (arg_int a1));
   (SYSCALL_SEMA_UP, fun a0 _ _ _ _ _ => sys_semaphore_up (arg_int a0));
   (SYSCALL_SEMA_DOWN, fun a0 _ _ _ _ _ => sys_semaphore_down (arg_int a0));
   (SYSCALL_SEMA_DESTROY, fun a0 _ _ _ _ _ => sys_semaphore_destroy (arg_int a0));
   (SYSCALL_MBOX_OPEN, fun a0 _ _ _ _ _ => sys_mbox_open (arg_ulong a0));
   (SYSCALL_MBOX_CLOSE, fun a0 _ _ _ _ _ => sys_mbox_close (arg_int a0));
   (SYSCALL_MBOX_SEND, fun a0 a1 a2 _ _ _ => sys_mbox_send (arg_int a0) (arg_ulong a1) (arg_int a2));
   (SYSCALL_MBOX_RECV, fun a0 a1 a2 _ _ _ => sys_mbox_recv (arg_int a0) (arg_ulong a1) (arg_int a2));
   (SYSCALL_PIPE_OPEN, fun a0 _ _ _ _ _ => sys_pipe_open (arg_ulong a0));
   (SYSCALL_PIPE_GIVE, fun a0 a1 a2 _ _ _ => sys_pipe_give_pages (arg_int a0) (arg_ulong a1) (arg_ulong a2));
   (SYSCALL_PIPE_TAKE, fun a0 a1 a2 _ _ _ => sys_pipe_take_pages (arg_int a0) (arg_ulong a1) (arg_ulong a2));
   (SYSCALL_SET_WORKLOAD, fun a0 _ _ _ _ _ => sys_set_workload (arg_int a0));
   (SYSCALL_SET_AFFINITY, fun a0 a1 _ _ _ _ => sys_set_affinity (arg_int a0) (arg_uint a1));
   (SYSCALL_SET_NICE, fun a0 a1 _ _ _ _ => sys_set_nice (arg_int a0) (arg_int a1));
   (SYSCALL_SET_SCROLL, fun a0 a1 _ _ _ _ => sys_screen_set_scroll (arg_int a0) (arg_int a1));
   (SYSCALL_CLEAR_SCROLL, fun _ _ _ _ _ _ => sys_screen_clear_scroll);
   (SYSCALL_SET_COLOR, fun a0 a1 a2 a3 _ _ => sys_screen_set_color (arg_int a0) (arg_int a1) (arg_int a2) (arg_int a3));
   (SYSCALL_CLEAR_COLOR, fun _ _ _ _ _ _ => sys_screen_clear_color);
   (SYSCALL_DELETE_LINE, fun a0 _ _ _ _ _ => sys_screen_delete_line (arg_int a0));
   (SYSCALL_CLEAR_LINE, fun a0 a1 _ _ _ _ => sys_screen_clear_lines (arg_int a0) (arg_int a1));
   (SYSCALL_NET_SEND, fun a0 a1 _ _ _ _ => sys_net_send (arg_ulong a0) (arg_int a1));
   (SYSCALL_NET_RECV, fun a0 a1 a2 _ _ _ => sys_net_recv (arg_ulong a0) (arg_int a1) (arg_ulong a2));
   (SYSCALL_NET_RECV_STREAM, fun a0 a1 _ _ _ _ => sys_net_recv_stream (arg_ulong a0) (arg_ulong a1));
   (SYSCALL_FS_MKFS, fun _ _ _ _ _ _ => sys_mkfs);
   (SYSCALL_FS_STATFS, fun _ _ _ _ _ _ => sys_statfs);
   (SYSCALL_FS_LS, fun a0 a1 _ _ _ _ => sys_ls (arg_ulong a0) (arg_int a1));
   (SYSCALL_FS_CD, fun a0 _ _ _ _ _ => sys_cd (arg_ulong a0));
   (SYSCALL_FS_MKDIR, fun a0 _ _ _ _ _ => sys_mkdir (arg_ulong a0));
   (SYSCALL_FS_RMDIR, fun a0 _ _ _ _ _ => sys_rmdir (arg_ulong a0));
   (SYSCALL_FS_OPEN, fun a0 a1 _ _ _ _ => sys_open (arg_ulong a0) (arg_int a1));
   (SYSCALL_FS_CLOSE, fun a0 _ _ _ _ _ => sys_close (arg_int a0));
   (SYSCALL_FS_READ, fun a0 a1 a2 _ _ _ => sys_read (arg_int a0) (arg_ulong a1) (arg_int a2));
   (SYSCALL_FS_WRITE, fun a0 a1 a2 _ _ _ => sys_write (arg_int a0) (arg_ulong a1) (arg_int a2));
   (SYSCALL_FS_LN, fun a0 a1 _ _ _ _ => sys_ln (arg_ulong a0) (arg_ulong a1));
   (SYSCALL_FS_RM, fun a0 _ _ _ _ _ => sys_rm (arg_ulong a0));
   (SYSCALL_FS_LSEEK, fun a0 a1 a2 _ _ _ => sys_lseek (arg_int a0) (arg_int a1) (arg_int a2));
   (SYSCALL_HALT, fun _ _ _ _ _ _ => sys_halt)].

Definition set_entry (t : list (option syscall_t)) (h : Z * syscall_t) : list (option syscall_t) :=
  <[Z.to_nat h.1 := Some h.2]> t.
Definition init_syscall : list (option syscall_t) := foldl set_entry (replicate NUM_SYSCALLS None) handlers.

(** ** The trap *)

(** The saved registers ([regs_context_t]). *)
Record regs_context_t := mk_regs { regs : list Z; sstatus : Z; sepc : Z; sbadaddr : Z; scause : Z }.
Definition REG_A0 : nat := 10.
Definition REG_A1 : nat := 11.
Definition REG_A2 : nat := 12.
Definition REG_A3 : nat := 13.
Definition REG_A4 : nat := 14.
Definition REG_A5 : nat := 15.
Definition REG_A7 : nat := 17.
Definition reg (r : regs_context_t) (n : nat) : Z := default 0 (regs r !! n).
Definition advance (r : regs_context_t) : regs_context_t :=
  mk_regs (regs r) (sstatus r) (u64 (sepc r + 4)) (sbadaddr r) (scause r).
Definition set_a0 (v : Z) (r : regs_context_t) : regs_context_t :=
  mk_regs (<[REG_A0 := u64 v]> (regs r)) (sstatus r) (sepc r) (sbadaddr r) (scause r).

(** The number is not compared with the size of the table: an entry beyond it
    or one never set is a jump to nowhere. *)
Definition handle_syscall (r : regs_context_t) : M K regs_context_t :=
  let sysno := reg r REG_A7 in
  let arg0 := reg r REG_A0 in
  let arg1 := reg r REG_A1 in
  let arg2 := reg r REG_A2 in
  let arg3 := reg r REG_A3 in
  let arg4 := reg r REG_A4 in
  let arg5 := reg r REG_A5 in
  let r := advance r in
  match mjoin (init_syscall !! Z.to_nat sysno) with
  | Some f => v <- f arg0 arg1 arg2 arg3 arg4 arg5 ;; ret (set_a0 v r)
  | None => panic "fault"
  end.

End Handlers.
