(* ===== verification/SyscallTheorems.v ===== *)
(** * A call of a user program reaches the kernel as it was made

    The wrappers of the user library, the trap frame and the table of the kernel
    compose to a plain call of the handler with the arguments of the program;
    the descriptor calls are carried through to the file system. *)

From S2P Require Import Prelude CString Printk Block BlockProofs BlockAlloc SdCard BlockTheorems Dcache Inode.
From S2P Require Import InodeLayout InodeMap InodeMapRun InodeIO InodeTheorems Dir DirTheorems Fs FdTheorems UserCalls Syscall.

(** ** Registers and C types *)
Lemma i32_u64 x : i32 (u64 x) = i32 x.
Proof. unfold i32, swrap, u64. by rewrite wrap_wrap. Qed.

Lemma cconv_u64 t x : cconv t (u64 x) = cconv t x.
Proof.
  destruct t; cbn [cconv]; [done | apply i32_u64 | | |]; unfold u32, i64, swrap, u64; by rewrite !wrap_wrap.
Qed.

(** A value of a C type comes back from its register. *)
Lemma cconv_typed t x : t ≠ Cvoid → in_ctype (t, x) = true → cconv t x = x.
Proof.
  intros Ht Hx. destruct t; [done|..]; cbn in Hx |- *; apply andb_true_iff in Hx as [H1%Z.leb_le H2%Z.ltb_lt].
  - by apply swrap_small.
  - unfold u32, wrap. by rewrite Z.mod_small.
  - by apply swrap_small.
  - unfold u64, wrap. by rewrite Z.mod_small.
Qed.

Lemma arg_int_typed x : in_ctype (Cint, x) = true → arg_int (u64 x) = x.
Proof. intros Hx. unfold arg_int. rewrite i32_u64. by apply (cconv_typed Cint). Qed.

Lemma arg_uint_typed x : in_ctype (Cuint, x) = true → arg_uint (u64 x) = x.
Proof. intros Hx. unfold arg_uint, u32, u64. rewrite wrap_wrap by lia. by apply (cconv_typed Cuint). Qed.

Lemma arg_ulong_typed x : in_ctype (Culong, x) = true → arg_ulong (u64 x) = x.
Proof. intros Hx. unfold arg_ulong, u64. rewrite wrap_wrap by lia. by apply (cconv_typed Culong). Qed.

(** Read every argument register back. *)
Ltac read_args :=
  repeat first [rewrite arg_int_typed by assumption | rewrite arg_uint_typed by assumption
    | rewrite arg_ulong_typed by assumption].

Section Served.

Context {K : Type} `{Kernel K}.
Implicit Types (r : regs_context_t).

(** ** What a call means: the handler, called with the program's arguments *)
Definition meaning (u : ucall) : M K Z :=
  match u with
  | Uyield => Syscall.sys_yield
  | Umove_cursor x y => Syscall.sys_move_cursor x y
  | Umove_cursor_row row => Syscall.sys_move_cursor_row row
  | Umove_cursor_col col => Syscall.sys_move_cursor_col col
  | Uscreen_write buff => Syscall.sys_screen_write buff
  | Ureflush => Syscall.sys_screen_reflush
  | Uclear => Syscall.sys_screen_clear
  | Umutex_init key => Syscall.sys_lock_init key
  | Umutex_acquire mutex_idx => Syscall.sys_lock_acquire mutex_idx
  | Umutex_release mutex_idx => Syscall.sys_lock_release mutex_idx
  | Uget_timebase => Syscall.sys_get_timebase
  | Uget_tick => Syscall.sys_get_tick
  | Uget_proc_tick => Syscall.sys_get_proc_tick
  | Usleep time => Syscall.sys_sleep time
  | Uset_sche_workload workload => Syscall.sys_set_workload workload
  | Utask_show => Syscall.sys_task_show
  | Uset_affinity pid affinity_mask => Syscall.sys_set_affinity pid affinity_mask
  | Uexec_with_affinity name argc argv affinity_mask => Syscall.sys_exec_with_affinity name argc argv affinity_mask
  | Uscreen_set_scroll start_row end_row => Syscall.sys_screen_set_scroll start_row end_row
  | Uscreen_clear_scroll => Syscall.sys_screen_clear_scroll
  | Uscreen_set_color start_col end_col foreground background => Syscall.sys_screen_set_color start_col end_col foreground background
  | Uscreen_clear_color => Syscall.sys_screen_clear_color
  | Uscreen_delete_line nlines => Syscall.sys_screen_delete_line nlines
  | Uscreen_clear_lines start end_ => Syscall.sys_screen_clear_lines start end_
  | Uexec_by_entry name entrance argc argv => Syscall.sys_exec_by_entry name entrance argc argv
  | Udisplay_info argc argv => Syscall.sys_display_info argc argv
  | Uset_sche_nice nice pid => Syscall.sys_set_nice nice pid
  | Uget_free_memory => Syscall.sys_get_free_memory
  | Uset_max_memory max_mem => Syscall.sys_set_max_memory max_mem
  | Uset_page_repl_algo algo => Syscall.sys_set_page_repl_algo algo
  | Uexec name argc argv => Syscall.sys_exec name argc argv
  | Uexit => Syscall.sys_exit
  | Ukill pid => Syscall.sys_kill pid
  | Uwaitpid pid => Syscall.sys_waitpid pid
  | Ups => Syscall.sys_process_show
  | Ugetpid => Syscall.sys_getpid
  | Ugetchar => Syscall.sys_readch
  | Ubarrier_init key goal => Syscall.sys_barrier_init key goal
  | Ubarrier_wait bar_idx => Syscall.sys_barrier_wait bar_idx
  | Ubarrier_destroy bar_idx => Syscall.sys_barrier_destroy bar_idx
  | Ucondition_init key => Syscall.sys_condition_init key
  | Ucondition_wait cond_idx mutex_idx => Syscall.sys_condition_wait cond_idx mutex_idx
  | Ucondition_signal cond_idx => Syscall.sys_condition_signal cond_idx
  | Ucondition_broadcast cond_idx => Syscall.sys_condition_broadcast cond_idx
  | Ucondition_destroy cond_idx => Syscall.sys_condition_destroy cond_idx
  | Usemaphore_init key init => Syscall.sys_semaphore_init key init
  | Usemaphore_up sema_idx => Syscall.sys_semaphore_up sema_idx
  | Usemaphore_down sema_idx => Syscall.sys_semaphore_down sema_idx
  | Usemaphore_destroy sema_idx => Syscall.sys_semaphore_destroy sema_idx
  | Umbox_open name => Syscall.sys_mbox_open name
  | Umbox_close mbox_id => Syscall.sys_mbox_close mbox_id
  | Umbox_send mbox_idx msg msg_length => Syscall.sys_mbox_send mbox_idx msg msg_length
  | Umbox_recv mbox_idx msg msg_length => Syscall.sys_mbox_recv mbox_idx msg msg_length
  | Upipe_open name => Syscall.sys_pipe_open name
  | Upipe_give_pages idx src length => Syscall.sys_pipe_give_pages idx src length
  | Upipe_take_pages idx dest length => Syscall.sys_pipe_take_pages idx dest length
  | Unet_send txpacket length => Syscall.sys_net_send txpacket length
  | Unet_recv rxbuffer pkt_num pkt_lens => Syscall.sys_net_recv rxbuffer pkt_num pkt_lens
  | Unet_recv_stream buffer nbytes => Syscall.sys_net_recv_stream buffer nbytes
  | Umkfs => Syscall.sys_mkfs
  | Ustatfs => Syscall.sys_statfs
  | Ucd path => Syscall.sys_cd path
  | Umkdir path => Syscall.sys_mkdir path
  | Urmdir path => Syscall.sys_rmdir path
  | Uls path option => Syscall.sys_ls path option
  | Uopen path mode => Syscall.sys_open path mode
  | Uread fd buff length => Syscall.sys_read fd buff length
  | Uwrite fd buff length => Syscall.sys_write fd buff length
  | Uclose fd => Syscall.sys_close fd
  | Uln src_path dst_path => Syscall.sys_ln src_path dst_path
  | Urm path => Syscall.sys_rm path
  | Ulseek fd offset whence => Syscall.sys_lseek fd offset whence
  | Uhalt => Syscall.sys_halt
  end.

(** The frame saved at the [ecall] of [e]. *)
Record trap_frame (e : ecall) r : Prop := {
  tf_length : length (regs r) = 32%nat;
  tf_a0 : reg r REG_A0 = e_a0 e;
  tf_a1 : reg r REG_A1 = e_a1 e;
  tf_a2 : reg r REG_A2 = e_a2 e;
  tf_a3 : reg r REG_A3 = e_a3 e;
  tf_a4 : reg r REG_A4 = e_a4 e;
  tf_a7 : reg r REG_A7 = e_a7 e;
}.

(** The number of a wrapper leads to its handler, and the handler reads the
    arguments of the wrapper. *)
Lemma dispatch_run u r :
  well_typed u = true → trap_frame (ecall_of u) r →
  ∃ f, mjoin (init_syscall !! Z.to_nat (reg r REG_A7)) = Some f ∧
    f (reg r REG_A0) (reg r REG_A1) (reg r REG_A2) (reg r REG_A3) (reg r REG_A4) (reg r REG_A5) = meaning u.
Proof.
  intros Hw [_ A0 A1 A2 A3 A4 A7]. rewrite A0, A1, A2, A3, A4, A7. unfold well_typed in Hw.
  destruct u; cbn [typed_args forallb] in Hw; repeat (apply andb_true_iff in Hw as [? Hw]);
    (eexists; split; [reflexivity|]; cbn -[u64 arg_int arg_uint arg_ulong reg]; read_args; reflexivity).
Qed.

Lemma handle_run u r s :
  well_typed u = true → trap_frame (ecall_of u) r →
  handle_syscall r s = (v <- meaning u ;; ret (set_a0 v (advance r))) s.
Proof.
  intros Hw Hf. destruct (dispatch_run u r Hw Hf) as (f & Ef & E). unfold handle_syscall. by rewrite Ef, E.
Qed.

Lemma set_a0_reg v r : length (regs r) = 32%nat → reg (set_a0 v r) REG_A0 = u64 v.
Proof. intros Hl. unfold reg, set_a0. cbn [regs]. rewrite list_lookup_insert_eq; [done|]. unfold REG_A0. lia. Qed.

(** C24 A system call is a call: for each of the 73 wrappers of the user library,
    called with arguments of its C types, the trap finds the kernel's handler of
    the same name in the table and the handler runs with exactly these
    arguments. When it returns, the program continues after the trap with every
    register but a0 as it was, and the wrapper returns the handler's result in
    its C type, unchanged when it fits; when the handler halts the kernel, so
    does the trap. This holds for every implementation of the operations behind
    the handlers. *)
Theorem user_call_served u r s :
  well_typed u = true → trap_frame (ecall_of u) r →
  match meaning u s with
  | Ok (v, s') => ∃ r', handle_syscall r s = Ok (r', s') ∧ sepc r' = u64 (sepc r + 4) ∧ sstatus r' = sstatus r ∧
      (∀ n, n ≠ REG_A0 → regs r' !! n = regs r !! n) ∧
      let t := e_type (ecall_of u) in
      cconv t (reg r' REG_A0) = cconv t v ∧ (t ≠ Cvoid → in_ctype (t, v) = true → cconv t (reg r' REG_A0) = v)
  | Panic why => handle_syscall r s = Panic why
  | OutOfFuel => handle_syscall r s = OutOfFuel
  end.
Proof.
  intros Hw Hf. rewrite (handle_run u r s Hw Hf). unfold bind. destruct (meaning u s) as [[v s']| |]; [|done..].
  exists (set_a0 v (advance r)). pose proof (set_a0_reg v (advance r) (tf_length _ _ Hf)) as Ea.
  cbv zeta. rewrite Ea, cconv_u64. split_and!; [done | done | done | | done | by apply cconv_typed].
  intros n Hn. cbn [set_a0 regs advance]. by rewrite list_lookup_insert_ne.
Qed.

(** ** Numbers without a handler *)
Lemma entries_other (l : list (Z * syscall_t (K := K))) t n :
  Forall (fun h => Z.to_nat h.1 ≠ n) l → foldl set_entry t l !! n = t !! n.
Proof.
  revert t. induction l as [|h l IH]; intros t Hl; [done|]. apply Forall_cons in Hl as [Hh Hl]. cbn [foldl].
  rewrite IH by done. unfold set_entry. by rewrite list_lookup_insert_ne.
Qed.

Lemma handlers_numbers : Forall (fun h => 0 ≤ h.1) (handlers (K := K)).
Proof. unfold handlers. repeat (constructor; [by vm_compute|]). constructor. Qed.

(** [handle_syscall] does not check the number: one that no handler was
    registered for, inside or beyond the table, is a jump to nowhere. *)
Lemma unknown_number_faults r s :
  0 ≤ reg r REG_A7 → Forall (fun h => h.1 ≠ reg r REG_A7) (handlers (K := K)) → handle_syscall r s = Panic "fault".
Proof.
  intros H0 Hno. unfold handle_syscall, init_syscall. rewrite entries_other.
  - destruct (replicate NUM_SYSCALLS None !! _) as [e|] eqn:E; [|done]. by apply lookup_replicate in E as [-> _].
  - apply Forall_forall. intros h Hh. pose proof (proj1 (Forall_forall _ _) handlers_numbers h Hh).
    pose proof (proj1 (Forall_forall _ _) Hno h Hh). cbn in *. lia.
Qed.

End Served.

(** ** Descriptor calls of a program *)
Section UserFiles.

Context {D : Type} `{SectorStore D}.

(** The running process and its memory. *)
Record ustate := mk_ustate { u_proc : pstate D; u_mem : Z → Z }.

Definition get_user (buff len : Z) (mem : Z → Z) : list Z := mem <$> seqZ buff len.
Definition put_user (buff : Z) (l : list Z) (mem : Z → Z) : Z → Z := fun a =>
  if decide (buff ≤ a < buff + Z.of_nat (length l)) then default 0 (l !! Z.to_nat (a - buff)) else mem a.

Definition in_proc {A} (m : M (pstate D) A) : M ustate A := fun s =>
  match m (u_proc s) with
  | Ok (a, p) => Ok (a, mk_ustate p (u_mem s))
  | Panic why => Panic why
  | OutOfFuel => OutOfFuel
  end.

Lemma in_proc_Ok {A} (m : M (pstate D) A) s a p :
  m (u_proc s) = Ok (a, p) → in_proc m s = Ok (a, mk_ustate p (u_mem s)).
Proof. unfold in_proc. by intros ->. Qed.

(** The file system of Fs.v behind the descriptor calls; the run ends at any
    other call, and at a write of negative length, which the file system would
    take for a huge one. *)
#[global] Instance file_kernel : Kernel ustate := fun R op =>
  match op in kop R return M ustate R with
  | DoRead fd buff len =>
      l <- in_proc (do_read fd len) ;;
      modify (fun s => mk_ustate (u_proc s) (put_user buff l (u_mem s))) ;;
      ret (Z.of_nat (length l))
  | DoWrite fd buff len =>
      if len <? 0 then panic "negative length" else
      l <- gets (fun s => get_user buff len (u_mem s)) ;; in_proc (do_write fd l)
  | DoLseek fd offset whence => in_proc (do_lseek fd offset whence)
  | DoClose fd => in_proc (do_close fd)
  | _ => panic "not a descriptor call"
  end.

(** A program makes a call: its registers at the trap, and what it goes on with. *)
Definition load_ecall (e : ecall) (r : regs_context_t) : regs_context_t :=
  mk_regs (<[REG_A0 := e_a0 e]> (<[REG_A1 := e_a1 e]> (<[REG_A2 := e_a2 e]> (<[REG_A3 := e_a3 e]>
    (<[REG_A4 := e_a4 e]> (<[REG_A7 := e_a7 e]> (regs r))))))) (sstatus r) (sepc r) (sbadaddr r) (scause r).

Lemma load_frame e r : length (regs r) = 32%nat → trap_frame e (load_ecall e r).
Proof.
  intros Hl. destruct r as [l ? ? ? ?]. cbn in Hl. do 33 (destruct l as [|? l]; [done|]). done.
Qed.

Fixpoint user_calls (us : list ucall) (r : regs_context_t) : M ustate (list Z) :=
  match us with
  | [] => ret []
  | u :: us =>
      r <- handle_syscall (load_ecall (ecall_of u) r) ;;
      vs <- user_calls us r ;;
      ret (cconv (e_type (ecall_of u)) (reg r REG_A0) :: vs)
  end.

(** ** The same calls on an abstract file *)
Definition fcall_of (fd : Z) (mem : Z → Z) (u : ucall) : option fcall :=
  match u with
  | Uread fd' _ len => if fd' =? fd then Some (CRead len) else None
  | Uwrite fd' buff len => if (fd' =? fd) && (0 <=? len) then Some (CWrite (get_user buff len mem)) else None
  | Ulseek fd' offset whence => if fd' =? fd then Some (CSeek offset whence) else None
  | _ => None
  end.
(** What the call leaves in the memory of the program. *)
Definition delivers (u : ucall) (l : list Z) (mem : Z → Z) : Z → Z :=
  match u with Uread _ buff _ => put_user buff l mem | _ => mem end.

Fixpoint a_user_calls (fd : Z) (us : list ucall) (a : afile) (mem : Z → Z) : option (list Z * afile * (Z → Z)) :=
  match us with
  | [] => Some ([], a, mem)
  | u :: us =>
      c ← fcall_of fd mem u;
      if well_typed u && a_fits c a then
        let '((l, v), a) := a_call c a in
        '(vs, a, mem) ← a_user_calls fd us a (delivers u l mem);
        Some (v :: vs, a, mem)
      else None
  end.

(** The result of a call that fits is a C int. *)
Lemma a_call_int C n fp c a : FdTheorems.shows C n fp a → a_fits c a = true → - 2 ^ 31 ≤ snd (fst (a_call c a)) < 2 ^ 31.
Proof.
  intros [_ _ _ _ (? & ? & ?)] Hfit. destruct c; cbn [a_call a_read a_write a_seek fst snd a_fits] in *.
  - apply andb_true_iff in Hfit as [?%Z.leb_le ?%Z.ltb_lt]. lia.
  - apply Z.ltb_lt in Hfit. lia.
  - apply andb_true_iff in Hfit as [[[?%Z.leb_le ?%Z.ltb_lt]%andb_true_iff ?%Z.leb_le]%andb_true_iff ?%Z.ltb_lt]. lia.
Qed.

(** One call, from the trap to the file. *)
Lemma user_call_run b s C fd d fp i u c a :
  fd_open b (u_proc s) C fd d fp i → FdTheorems.shows C (node i) fp a →
  fcall_of fd (u_mem s) u = Some c → a_fits c a = true →
  ∃ l v p C' n' fp', meaning u s = Ok (v, mk_ustate p (delivers u l (u_mem s))) ∧
    fd_open b p C' fd d fp' (set_node n' i) ∧ others_kept b C (node i) C' n' ∧
    (first_free b C' = None ∨ (l, v) = fst (a_call c a) ∧ FdTheorems.shows C' n' fp' (snd (a_call c a))).
Proof.
  intros Ho Hsh Hc Hfit.
  destruct (fd_call_run b (u_proc s) C fd d fp i c a Ho Hsh Hfit) as ([l v] & p & C' & n' & fp' & R & Ho' & Hk & Hres).
  exists l, v, p, C', n', fp'. split_and!; [|exact Ho' | exact Hk | exact Hres]. clear Ho' Hk Hres.
  destruct u; try done; cbn [fcall_of] in Hc.
  - destruct (Z.eqb_spec fd0 fd) as [->|]; [|done]. injection Hc as <-. cbn [fd_call] in R.
    apply bind_Ok_inv in R as (l' & p' & R & E). injection E as -> <- ->. cbn [meaning delivers].
    unfold sys_read, kdo, file_kernel. by rewrite (bind_Ok _ _ _ _ _ (in_proc_Ok _ s _ _ R)).
  - destruct (Z.eqb_spec fd0 fd) as [->|]; [|done]. destruct (Z.leb_spec 0 length); [|done]. injection Hc as <-. cbn [fd_call] in R.
    apply bind_Ok_inv in R as (k & p' & R & E). injection E as <- -> ->. cbn [meaning delivers].
    unfold sys_write, kdo, file_kernel, gets. rewrite (proj2 (Z.ltb_ge _ _)) by lia. exact (in_proc_Ok _ s _ _ R).
  - destruct (Z.eqb_spec fd0 fd) as [->|]; [|done]. injection Hc as <-. cbn [fd_call] in R.
    apply bind_Ok_inv in R as (k & p' & R & E). injection E as <- -> ->. cbn [meaning delivers].
    exact (in_proc_Ok _ s _ _ R).
Qed.

(** C5 A program that reads, writes and seeks on an open descriptor works on a
    file. The calls go through the user library, the registers of the trap, the
    kernel's table, the descriptor layer, the inode and block layers and the
    buffers of the card; every call returns to the program the number the
    abstract file gives, and the bytes read are where the program wanted them,
    until the volume is full; the descriptor keeps showing the file and every
    other file of the volume keeps its bytes. *)
Theorem user_files_served b s C fd d fp i us r a vs a' mem' :
  fd_open b (u_proc s) C fd d fp i → FdTheorems.shows C (node i) fp a → length (regs r) = 32%nat →
  a_user_calls fd us a (u_mem s) = Some (vs, a', mem') →
  ∃ pre ws s' C' n' fp', user_calls pre r s = Ok (ws, s') ∧ fd_open b (u_proc s') C' fd d fp' (set_node n' i) ∧
    others_kept b C (node i) C' n' ∧
    (pre = us ∧ ws = vs ∧ FdTheorems.shows C' n' fp' a' ∧ u_mem s' = mem' ∨
     (∃ rest, us = pre ++ rest) ∧ pre ≠ [] ∧ first_free b C' = None).
Proof.
  revert s C fp i r a vs. induction us as [|u us IH]; intros s C fp i r a vs Ho Hsh Hr Ha; cbn [a_user_calls] in Ha.
  { injection Ha as <- <- <-. exists [], [], s, C, (node i), fp. replace (set_node (node i) i) with i by (by destruct i).
    split_and!; [done | done | apply others_refl | by left]. }
  destruct (fcall_of fd (u_mem s) u) as [c|] eqn:Ec; [|done]. cbn in Ha.
  destruct (well_typed u && a_fits c a) eqn:Ew; [|done]. apply andb_true_iff in Ew as [Hw Hfit].
  destruct (user_call_run b s C fd d fp i u c a Ho Hsh Ec Hfit) as (l & v & p & C1 & n1 & fp1 & R1 & Ho1 & Hk1 & Hres).
  set (s1 := mk_ustate p _) in R1. set (f := load_ecall (ecall_of u) r).
  assert (handle_syscall f s = Ok (set_a0 v (advance f), s1)) as Rh.
  { rewrite (handle_run u f s Hw (load_frame _ _ Hr)). by rewrite (bind_Ok _ _ _ _ _ R1). }
  assert (length (regs f) = 32%nat) as Hf by apply (load_frame (ecall_of u) r Hr).
  destruct Hres as [Hfull|[Ev Hsh1]].
  { exists [u]. cbn [user_calls]. fold f. rewrite (bind_Ok _ _ _ _ _ Rh). eexists _, s1, C1, n1, fp1.
    split_and!; try done. right. split_and!; try done. by exists us. }
  pose proof (a_call_int C (node i) fp c a Hsh Hfit) as Hint.
  destruct (a_call c a) as [[l1 v1] a1]. cbn [fst snd] in *. injection Ev as <- <-.
  destruct (a_user_calls fd us a1 (delivers u l (u_mem s))) as [[[vs1 a2] mem2]|] eqn:Ea; [|done]. injection Ha as <- <- <-.
  destruct (IH s1 C1 fp1 (set_node n1 i) (set_a0 v (advance f)) a1 vs1 Ho1 Hsh1) as (pre & ws & s2 & C2 & n2 & fp2 & R2 & Ho2 & Hk2 & Hres2);
    [cbn; by rewrite length_insert | exact Ea |].
  exists (u :: pre). cbn [user_calls]. fold f. rewrite (bind_Ok _ _ _ _ _ Rh), (bind_Ok _ _ _ _ _ R2).
  eexists _, s2, C2, n2, fp2. split_and!; [done | exact Ho2 | by eapply others_trans |].
  destruct Hres2 as [(-> & -> & ? & ?)|([rest ->] & _ & ?)]; [left | right; split_and!; try done; by exists rest].
  split_and!; try done. f_equal. rewrite (set_a0_reg v (advance f) Hf), cconv_u64.
  assert (e_type (ecall_of u) = Cint) as -> by (by destruct u).
  apply cconv_typed; [done|]. unfold in_ctype. cbn [fst snd]. rewrite (proj2 (Z.leb_le _ _)), (proj2 (Z.ltb_lt _ _)) by lia. done.
Qed.

End UserFiles.

(** ** A program that writes four bytes across a block boundary and reads them back *)
Definition demo_user : ustate (D := sdcard) := mk_ustate demo_process (fun a => a mod 251).
Definition demo_regs : regs_context_t := mk_regs (replicate 32 7) 0 65536 0 8.
Definition demo_program : list ucall := [Ulseek 2 4094 SEEK_SET; Uwrite 2 1000 4; Ulseek 2 (-3) SEEK_END; Uread 2 5000 10].

Lemma demo_program_run :
  match user_calls demo_program demo_regs demo_user with Ok (vs, s) => (vs, get_user 4999 5 (u_mem s)) | _ => ([], []) end =
  ([4094; 4; 4095; 3], [4999 mod 251; 1001 mod 251; 1002 mod 251; 1003 mod 251; 5003 mod 251]).
Proof. vm_compute. reflexivity. Qed.

Lemma user_call_served_witness : ∃ r' s',
  handle_syscall (load_ecall (ecall_of (Ulseek 2 100 SEEK_SET)) demo_regs) demo_user = Ok (r', s') ∧
  cconv Cint (reg r' REG_A0) = 100.
Proof.
  pose proof (user_call_served (Ulseek 2 100 SEEK_SET) (load_ecall (ecall_of (Ulseek 2 100 SEEK_SET)) demo_regs) demo_user
    eq_refl (load_frame _ demo_regs eq_refl)) as Hs.
  assert (match meaning (Ulseek 2 100 SEEK_SET) demo_user with Ok (v, _) => v | _ => -1 end = 100) as Hv by (vm_compute; reflexivity).
  destruct (meaning (Ulseek 2 100 SEEK_SET) demo_user) as [[v s']| |]; [|discriminate Hv..].
  destruct Hs as (r' & R & _ & _ & _ & E & _). exists r', s'. split; [exact R|]. rewrite Hv in E. exact E.
Defined.

Lemma user_files_served_witness : ∃ vs a' mem',
  a_user_calls 2 demo_program demo_afile (u_mem demo_user) = Some (vs, a', mem') ∧ vs = [4094; 4; 4095; 3] ∧
  ∃ pre ws s' C', user_calls pre demo_regs demo_user = Ok (ws, s') ∧
    (pre = demo_program ∧ ws = vs ∧ u_mem s' = mem' ∨ pre ≠ [] ∧ first_free demo_superblock C' = None).
Proof.
  eexists _, _, _. split; [reflexivity|]. split; [vm_compute; reflexivity|].
  edestruct (user_files_served demo_superblock demo_user demo_contents 2 5 demo_fdesc (mk_inode demo_node true 1 false) demo_program
    demo_regs demo_afile _ _ _ demo_fd_open demo_fd_shows eq_refl eq_refl) as (pre & ws & s' & C' & n' & fp' & R & _ & _ & Hres).
  exists pre, ws, s', C'. split; [exact R|]. destruct Hres as [(E1 & E2 & _ & E3)|(_ & E1 & E2)]; [left | right]; auto.
Defined.

(** Number 10 has no handler, 1000 is beyond the table. *)
Lemma unknown_numbers_demo :
  handle_syscall (mk_regs (<[REG_A7 := 10]> (replicate 32 0)) 0 0 0 8) demo_user = Panic "fault" ∧
  handle_syscall (mk_regs (<[REG_A7 := 1000]> (replicate 32 0)) 0 0 0 8) demo_user = Panic "fault".
Proof. split; apply unknown_number_faults; try done; unfold handlers; repeat (constructor; [by vm_compute|]); constructor. Qed.
