(* ===== verification/Irq.v ===== *)
(** * kernel/irq/irq.c: traps

    The dispatch of a trap by its cause, the handlers of the interrupts and the
    accounting of processor time around the handler. What the handlers do to
    the rest of the kernel, of state [X], is the class [Machine]; system calls
    go to Syscall.v. *)

From S2P Require Import Prelude CString Printk UserCalls Syscall.

Definition NR_CPUS : Z := 2.
Definition SCAUSE_IRQ_FLAG : Z := 2 ^ 63.
Definition IRQC_S_SOFT : Z := 1.
Definition IRQC_S_TIMER : Z := 5.
Definition IRQC_S_EXT : Z := 9.
Definition IRQC_COUNT : Z := 12.
Definition EXCC_SYSCALL : Z := 8.
Definition EXCC_INST_PAGE_FAULT : Z := 12.
Definition EXCC_LOAD_PAGE_FAULT : Z := 13.
Definition EXCC_STORE_PAGE_FAULT : Z := 15.
Definition EXCC_COUNT : Z := 16.
Definition PLIC_E1000_PYNQ_IRQ : Z := 3.
Definition PLIC_E1000_QEMU_IRQ : Z := 33.

(** ** Processor time *)
Record cpu_time_t := mk_time { sys_irq : Z; sys_exc : Z; user : Z; idle : Z; last : Z }.
Definition zero_time : cpu_time_t := mk_time 0 0 0 0 0.

(** The times of the harts and of the processes. *)
Record tstate := mk_tstate { cpu_times : list cpu_time_t; cputime : list Z }.

Definition charge_proc (pcb : nat) (d : Z) (l : list Z) : list Z := alter (fun t => u64 (t + d)) pcb l.

(** The first half of [interrupt_helper], at [new_tick] on [hart]. *)
Definition enter (hart : nat) (pcb : nat) (pid new_tick : Z) (t : tstate) : tstate :=
  match cpu_times t !! hart with
  | None => t
  | Some tim =>
      let d := u64 (new_tick - last tim) in
      let tim' :=
        if last tim =? 0 then tim
        else if pid >=? NR_CPUS then mk_time (sys_irq tim) (sys_exc tim) (u64 (user tim + d)) (idle tim) (last tim)
        else mk_time (sys_irq tim) (sys_exc tim) (user tim) (u64 (idle tim + d)) (last tim) in
      mk_tstate (<[hart := mk_time (sys_irq tim') (sys_exc tim') (user tim') (idle tim') new_tick]> (cpu_times t))
        (if last tim =? 0 then cputime t else charge_proc pcb d (cputime t))
  end.

(** The second half; [hart] is the one the trap was entered on. *)
Definition leave (hart : nat) (pcb : nat) (is_irq : bool) (new_tick : Z) (t : tstate) : tstate :=
  match cpu_times t !! hart with
  | None => t
  | Some tim =>
      let d := u64 (new_tick - last tim) in
      let tim' :=
        if is_irq then mk_time (u64 (sys_irq tim + d)) (sys_exc tim) (user tim) (idle tim) new_tick
        else mk_time (sys_irq tim) (u64 (sys_exc tim + d)) (user tim) (idle tim) new_tick in
      mk_tstate (<[hart := tim']> (cpu_times t)) (charge_proc pcb d (cputime t))
  end.

(** [show_cputime] prints shares and clears the records; the share of a record without
    time, a division by zero, is 0 here. *)
Definition total (tim : cpu_time_t) : Z := u64 (sys_irq tim + sys_exc tim + user tim + idle tim).
Definition show_cputime (t : tstate) : list (Z * Z * Z * Z) * tstate :=
  ((fun tim => (u64 (idle tim * 100) / total tim, u64 (user tim * 100) / total tim,
                u64 (sys_irq tim * 100) / total tim, u64 (sys_exc tim * 100) / total tim)) <$> cpu_times t,
   mk_tstate (replicate (Z.to_nat NR_CPUS) zero_time) (cputime t)).

(** ** The handlers *)
Inductive handler_t := handle_other | handle_syscall_ | handle_exc_pagefault | handle_irq_timer | handle_irq_ext | handle_irq_sw.
#[global] Instance handler_eq_dec : EqDecision handler_t.
Proof. solve_decision. Defined.

Definition set_handler (i : Z) (h : handler_t) (t : list handler_t) : list handler_t := <[Z.to_nat i := h]> t.
(** The tables after [init_exception]. *)
Definition exc_table : list handler_t :=
  set_handler EXCC_INST_PAGE_FAULT handle_exc_pagefault
    (set_handler EXCC_STORE_PAGE_FAULT handle_exc_pagefault
      (set_handler EXCC_LOAD_PAGE_FAULT handle_exc_pagefault
        (set_handler EXCC_SYSCALL handle_syscall_ (replicate (Z.to_nat EXCC_COUNT) handle_other)))).
Definition irq_table : list handler_t :=
  set_handler IRQC_S_SOFT handle_irq_sw
    (set_handler IRQC_S_EXT handle_irq_ext
      (set_handler IRQC_S_TIMER handle_irq_timer (replicate (Z.to_nat IRQC_COUNT) handle_other))).

(** The stacks of a process, for [stack_sanity_check]. *)
Record stacks := mk_stacks {
  kernel_sp : Z; kernel_stack_base : Z; kernel_stack_bottom : Z;
  user_sp : Z; user_stack_base : Z; user_stack_bottom : Z;
}.

(** The rest of the kernel as the trap code uses it. *)
Class Machine (X : Type) := {
  get_current_cpu_id : X → nat;
  current_running : X → nat;
  pid_of : X → nat → Z;
  stacks_of : X → nat → stacks;
  get_ticks : X → Z;
  set_user_memory : bool → X → X;    (* open_user_memory, close_user_memory *)
  page_fault : Z → Z → M X unit;     (* stval, scause *)
  on_timer : M X unit;
  reset_timer : M X unit;
  do_scheduler : M X unit;
  plic_claim : M X Z;
  plic_complete : Z → M X unit;
  e1000_handle_interrupt : M X unit;
  check_halted : M X unit;
}.

Section Traps.

Context {X : Type} `{Machine X} `{Kernel X}.

Definition irq_timer : M X unit := on_timer ;; reset_timer ;; do_scheduler.
Definition irq_ext : M X unit :=
  device <- plic_claim ;;
  if device =? 0 then ret tt else
  asserts ((device =? PLIC_E1000_QEMU_IRQ) || (device =? PLIC_E1000_PYNQ_IRQ)) "unknown external irq" ;;
  e1000_handle_interrupt ;;
  plic_complete device.

(** [handle_other] prints the registers and ends in [assert(0)]. *)
Definition run_handler (h : handler_t) (r : regs_context_t) (stval scause : Z) : M X regs_context_t :=
  match h with
  | handle_other => panic "assertion failed"
  | handle_syscall_ => handle_syscall r
  | handle_exc_pagefault => page_fault stval scause ;; ret r
  | handle_irq_timer => irq_timer ;; ret r
  | handle_irq_ext => irq_ext ;; ret r
  | handle_irq_sw => check_halted ;; ret r
  end.

(** ** The trap *)
Record trapstate := mk_trap { times : tstate; rest : X }.

Definition in_rest {A} (m : M X A) : M trapstate A := fun s =>
  match m (rest s) with
  | Ok (a, x) => Ok (a, mk_trap (times s) x)
  | Panic why => Panic why
  | OutOfFuel => OutOfFuel
  end.

Definition stacks_sane (k : stacks) : bool :=
  (kernel_sp k <=? kernel_stack_base k) && (kernel_stack_bottom k <=? kernel_sp k) &&
  (user_sp k <=? user_stack_base k) && (user_stack_bottom k <=? user_sp k).
Definition stack_sanity_check : M trapstate unit := fun s =>
  asserts (stacks_sane (stacks_of (rest s) (current_running (rest s)))) "stack sanity check failed" s.

(** A handler of a table; an index beyond it is a jump to nowhere. *)
Definition table_handler (tbl : list handler_t) (code : Z) : M trapstate handler_t :=
  match tbl !! Z.to_nat code with Some h => ret h | None => panic "fault" end.

(** [~is_irq] is never zero, so the bound of the exception table is the one
    that is checked. *)
Definition code_valid (is_irq : bool) (code : Z) : bool :=
  (is_irq && (code <? IRQC_COUNT)) || (code <? EXCC_COUNT).

Definition dispatch (r : regs_context_t) (stval scause : Z) : M trapstate regs_context_t :=
  let is_irq := negb (Z.land scause SCAUSE_IRQ_FLAG =? 0) in
  let code := Z.land scause (SCAUSE_IRQ_FLAG - 1) in
  (if code_valid is_irq code then ret tt else in_rest (run_handler handle_other r stval scause) ;; ret tt) ;;
  if is_irq then
    h <- table_handler irq_table code ;; in_rest (run_handler h r stval scause)
  else
    modify (fun s => mk_trap (times s) (set_user_memory true (rest s))) ;;
    h <- table_handler exc_table code ;;
    r <- in_rest (run_handler h r stval scause) ;;
    modify (fun s => mk_trap (times s) (set_user_memory false (rest s))) ;;
    ret r.

Definition account_enter : M trapstate nat := fun s =>
  let x := rest s in
  let hart := get_current_cpu_id x in
  Ok (hart, mk_trap (enter hart (current_running x) (pid_of x (current_running x)) (get_ticks x) (times s)) x).
Definition account_leave (hart : nat) (is_irq : bool) : M trapstate unit := fun s =>
  let x := rest s in
  Ok (tt, mk_trap (leave hart (current_running x) is_irq (get_ticks x) (times s)) x).

Definition interrupt_helper (r : regs_context_t) (stval scause : Z) : M trapstate regs_context_t :=
  stack_sanity_check ;;
  hart <- account_enter ;;
  r <- dispatch r stval scause ;;
  account_leave hart (negb (Z.land scause SCAUSE_IRQ_FLAG =? 0)) ;;
  ret r.

End Traps.

(** ** drivers/plic.c: the interrupt controller

    Its registers: the priority of each source, the enable bits in words of 32
    sources, the threshold. *)
Record plic := mk_plic { priority : Z → Z; enable : Z → Z; threshold : Z; present : bool }.

Definition plic_toggle (hwirq : Z) (on : bool) (p : plic) : plic :=
  let w := hwirq / 32 in
  let hwirq_mask := u32 (Z.shiftl 1 (hwirq mod 32)) in
  mk_plic (priority p)
    (fun k => if k =? w then (if on then Z.lor (enable p w) hwirq_mask else Z.land (enable p w) (Z.lxor hwirq_mask (2 ^ 32 - 1)))
              else enable p k)
    (threshold p) (present p).
Definition plic_irq_unmask (hwirq : Z) (p : plic) : plic :=
  let p := mk_plic (fun k => if k =? hwirq then 1 else priority p k) (enable p) (threshold p) (present p) in
  if present p then plic_toggle hwirq true p else p.
(** [for (hwirq = 1; hwirq <= nr_irqs; hwirq++)]. *)
Definition plic_init (nr_irqs : Z) (p : plic) : plic :=
  let p := mk_plic (priority p) (enable p) (if present p then 2 ^ 32 - 1 else 0) true in
  let p := foldl (fun p hwirq => plic_toggle hwirq false p) p (seqZ 1 nr_irqs) in
  plic_irq_unmask (if nr_irqs + 1 >? PLIC_E1000_QEMU_IRQ then PLIC_E1000_QEMU_IRQ else PLIC_E1000_PYNQ_IRQ) p.
(** Source [k] is enabled. *)
Definition enabled (p : plic) (k : Z) : bool := Z.testbit (enable p (k / 32)) (k mod 32).
