(* ===== verification/IrqTheorems.v ===== *)
(** * Traps: the processor time adds up, every cause has its handler *)

From S2P Require Import Prelude CString Printk UserCalls Syscall SyscallTheorems Irq.

(** ** Processor time *)

(** A half of [interrupt_helper] on a hart, for the process it charges, or
    [show_cputime], which the handler of a system call runs in between. *)
Inductive tevent :=
| EEnter (hart pcb : nat) (pid tick : Z)
| ELeave (hart pcb : nat) (is_irq : bool) (tick : Z)
| EShow.

Definition t_event (t : tstate) (e : tevent) : tstate :=
  match e with
  | EEnter h p pid k => enter h p pid k t
  | ELeave h p irq k => leave h p irq k t
  | EShow => (show_cputime t).2
  end.

(** The time since each hart's record began, as the ticks of its beginning and
    of the last event; both are 0 when the record is empty. [sp_closed] is the
    time of the records that were cleared, [sp_shown] says whether some were. *)
Record span := mk_span { sp_first : nat → Z; sp_last : nat → Z; sp_closed : Z; sp_shown : bool }.
Definition no_span : span := mk_span (fun _ => 0) (fun _ => 0) 0 false.
Definition sp_total (s : span) : Z :=
  sp_closed s + (sp_last s 0%nat - sp_first s 0%nat) + (sp_last s 1%nat - sp_first s 1%nat).
(** An empty record begins when a trap is entered; when a trap is left, it
    counts from tick 0. *)
Definition span_step (s : span) (e : tevent) : span :=
  match e with
  | EEnter h _ _ k =>
      mk_span (<[h := if sp_last s h =? 0 then k else sp_first s h]> (sp_first s)) (<[h := k]> (sp_last s)) (sp_closed s) (sp_shown s)
  | ELeave h _ _ k =>
      mk_span (<[h := if sp_last s h =? 0 then 0 else sp_first s h]> (sp_first s)) (<[h := k]> (sp_last s)) (sp_closed s) (sp_shown s)
  | EShow => mk_span (fun _ => 0) (fun _ => 0) (sp_total s) true
  end.

(** Time does not go back on a hart; a trap is entered before it is left, unless
    the records were cleared; there are [n] processes; the time charged in all
    fits 63 bits. *)
Definition timed (n : nat) (s : span) (e : tevent) : bool :=
  (sp_total (span_step s e) <? 2 ^ 63) &&
  match e with
  | EEnter h p _ k | ELeave h p _ k =>
      bool_decide (h < 2)%nat && bool_decide (p < n)%nat && (0 <? k) && (k <? 2 ^ 62) && (sp_last s h <=? k)
  | EShow => true
  end &&
  match e with ELeave h _ _ _ => (0 <? sp_last s h) || sp_shown s | _ => true end.
Fixpoint well_timed (n : nat) (s : span) (es : list tevent) : bool :=
  match es with [] => true | e :: es => timed n s e && well_timed n (span_step s e) es end.

Definition boot_times (n : nat) : tstate := mk_tstate (replicate 2 zero_time) (replicate n 0).
Definition sumZ (l : list Z) : Z := foldr Z.add 0 l.
Definition spent (tim : cpu_time_t) : Z := sys_irq tim + sys_exc tim + user tim + idle tim.

Lemma sumZ_alter f i x l : l !! i = Some x → sumZ (alter f i l) = sumZ l + (f x - x).
Proof.
  revert i. induction l as [|y l IH]; intros [|i] Hi; try done.
  - injection Hi as ->. cbn. unfold sumZ. cbn. lia.
  - cbn in Hi. specialize (IH i Hi). unfold sumZ in *. cbn in *. rewrite IH. lia.
Qed.

Lemma sumZ_member l i x : Forall (fun y => 0 ≤ y) l → l !! i = Some x → 0 ≤ x ≤ sumZ l.
Proof.
  intros Hl. revert i. induction Hl as [|y l Hy Hl IH]; intros i Hi; [done|].
  assert (0 ≤ sumZ l) by (clear -Hl; induction Hl; unfold sumZ in *; cbn in *; lia).
  destruct i as [|i]; [injection Hi as ->; unfold sumZ in *; cbn; lia|]. specialize (IH i Hi). unfold sumZ in *. cbn. lia.
Qed.

Record time_ok (tim : cpu_time_t) (f l : Z) : Prop := {
  ti_last : last tim = l;
  ti_range : 0 ≤ f ≤ l ∧ l < 2 ^ 62 ∧ (l = 0 → f = 0);
  ti_parts : 0 ≤ sys_irq tim ∧ 0 ≤ sys_exc tim ∧ 0 ≤ user tim ∧ 0 ≤ idle tim;
  ti_spent : spent tim = l - f;
}.

(** The invariant: each hart's parts add up to its span, and the processes'
    times to all of them. *)
Record times_ok (n : nat) (t : tstate) (s : span) : Prop := {
  to_hart h : (h < 2)%nat → ∃ tim, cpu_times t !! h = Some tim ∧ time_ok tim (sp_first s h) (sp_last s h);
  to_len : length (cputime t) = n;
  to_pos : Forall (fun x => 0 ≤ x) (cputime t);
  to_sum : sumZ (cputime t) = sp_total s;
  to_harts : length (cpu_times t) = 2%nat;
}.

Lemma boot_times_ok n : times_ok n (boot_times n) no_span.
Proof.
  split; cbn; try done.
  - intros [|[|h]] Hh; [exists zero_time; by split..|lia].
  - by rewrite length_replicate.
  - by apply Forall_replicate.
  - unfold sumZ. clear. induction n; cbn; [done|]. lia.
Qed.

(** Charging a process for ticks of a hart. *)
Lemma charge_ok n t s p d :
  times_ok n t s → (p < n)%nat → 0 ≤ d → sp_total s + d < 2 ^ 63 →
  length (charge_proc p d (cputime t)) = n ∧ Forall (fun x => 0 ≤ x) (charge_proc p d (cputime t)) ∧
  sumZ (charge_proc p d (cputime t)) = sumZ (cputime t) + d.
Proof.
  intros [Hh Hl Hp Hs _] Hn Hd Htot. destruct (lookup_lt_is_Some_2 (cputime t) p) as [x Hx]; [lia|].
  destruct (sumZ_member _ _ _ Hp Hx) as [Hx0 Hxs].
  assert (u64 (x + d) = x + d) as E by (apply u64_small; lia).
  unfold charge_proc. split_and!.
  - by rewrite length_alter.
  - apply Forall_alter; [done|]. intros y Hy _. assert (y = x) as -> by congruence. cbn. rewrite E. lia.
  - rewrite (sumZ_alter _ _ _ _ Hx), E. lia.
Qed.

(** A hart's record is replaced. *)
Lemma hart_set n t s h tim' f' l' pt :
  times_ok n t s → (h < 2)%nat → time_ok tim' f' l' →
  length pt = n → Forall (fun x => 0 ≤ x) pt →
  sumZ pt = sumZ (cputime t) + (l' - f') - (sp_last s h - sp_first s h) →
  times_ok n (mk_tstate (<[h := tim']> (cpu_times t)) pt)
    (mk_span (<[h := f']> (sp_first s)) (<[h := l']> (sp_last s)) (sp_closed s) (sp_shown s)).
Proof.
  intros [Hh Hl Hp Hs H2] Hlt Ht Hn Hpos Hsum. split; cbn [cpu_times cputime sp_first sp_last]; try done.
  - intros k Hk. destruct (Hh k Hk) as (tim & Hk' & Hok). destruct (decide (k = h)) as [->|Hne].
    + exists tim'. rewrite !fn_lookup_insert. split; [|done]. apply list_lookup_insert_eq. by eapply lookup_lt_Some.
    + exists tim. rewrite !fn_lookup_insert_ne by done. split; [|done]. by rewrite list_lookup_insert_ne.
  - rewrite Hsum, Hs. unfold sp_total. cbn [sp_first sp_last sp_closed]. destruct h as [|[|h]]; [| |lia].
    + rewrite !fn_lookup_insert, !fn_lookup_insert_ne by done. lia.
    + rewrite !fn_lookup_insert, !fn_lookup_insert_ne by done. lia.
  - by rewrite length_insert.
Qed.

(** The total after an event on hart [h]. *)
Lemma total_set s h f l : (h < 2)%nat →
  sp_total (mk_span (<[h := f]> (sp_first s)) (<[h := l]> (sp_last s)) (sp_closed s) (sp_shown s)) =
  sp_total s + (l - f) - (sp_last s h - sp_first s h).
Proof.
  intros Hh. unfold sp_total. cbn [sp_first sp_last sp_closed]. destruct h as [|[|h]]; [| |lia];
    rewrite !fn_lookup_insert, !fn_lookup_insert_ne by done; lia.
Qed.

Lemma enter_ok n t s h p pid k : times_ok n t s → timed n s (EEnter h p pid k) = true →
  times_ok n (enter h p pid k t) (span_step s (EEnter h p pid k)).
Proof.
  intros Ht Hw. unfold timed in Hw. rewrite andb_true_r in Hw. cbn [span_step] in *.
  apply andb_true_iff in Hw as [Htot%Z.ltb_lt [[[[Hh%bool_decide_eq_true Hp%bool_decide_eq_true]%andb_true_iff H0%Z.ltb_lt]%andb_true_iff
    H62%Z.ltb_lt]%andb_true_iff Hle%Z.leb_le]%andb_true_iff].
  rewrite (total_set s h _ _ Hh) in Htot. destruct (to_hart _ _ _ Ht _ Hh) as (tim & Etim & [El Hr Hpt Hsp]). unfold spent in Hsp.
  unfold enter. rewrite Etim. cbv zeta. set (d := k - last tim). assert (0 ≤ d < 2 ^ 62) as Hd by lia.
  assert (u64 d = d) as Ed by (apply u64_small; lia). rewrite Ed, <- El. destruct (Z.eqb_spec (last tim) 0) as [E0|E0].
  - apply (hart_set n t s); try done; [|apply Ht..|lia]. split; cbn; try done; unfold spent; cbn; lia.
  - rewrite <- El, (proj2 (Z.eqb_neq _ 0) E0) in Htot.
    destruct (charge_ok n t s p d Ht Hp) as (Cl & Cp & Cs); [lia | lia |].
    apply (hart_set n t s); try done; [|lia]. destruct (pid >=? NR_CPUS); split; cbn; try lia; unfold spent; cbn;
      rewrite ?u64_small by lia; lia.
Qed.

Lemma leave_ok n t s h p irq k : times_ok n t s → timed n s (ELeave h p irq k) = true →
  times_ok n (leave h p irq k t) (span_step s (ELeave h p irq k)).
Proof.
  intros Ht Hw. unfold timed in Hw. cbn [span_step] in *.
  apply andb_true_iff in Hw as [[Htot%Z.ltb_lt [[[[Hh%bool_decide_eq_true Hp%bool_decide_eq_true]%andb_true_iff H0%Z.ltb_lt]%andb_true_iff
    H62%Z.ltb_lt]%andb_true_iff Hle%Z.leb_le]%andb_true_iff]%andb_true_iff _].
  rewrite (total_set s h _ _ Hh) in Htot. destruct (to_hart _ _ _ Ht _ Hh) as (tim & Etim & [El Hr Hpt Hsp]). unfold spent in Hsp.
  unfold leave. rewrite Etim. cbv zeta. set (d := k - last tim). assert (0 ≤ d < 2 ^ 62) as Hd by lia.
  assert (u64 d = d) as Ed by (apply u64_small; lia).
  assert ((if sp_last s h =? 0 then 0 else sp_first s h) = sp_first s h) as Ef by (destruct (Z.eqb_spec (sp_last s h) 0); lia).
  rewrite Ef in *. destruct (charge_ok n t s p d Ht Hp) as (Cl & Cp & Cs); [lia | lia |]. rewrite Ed.
  apply (hart_set n t s); try done; [|lia]. destruct irq; split; cbn; try lia; unfold spent; cbn; rewrite ?u64_small by lia; lia.
Qed.

Lemma show_ok n t s : times_ok n t s → times_ok n (show_cputime t).2 (span_step s EShow).
Proof.
  intros [Hh Hl Hp Hs H2]. split; cbn [show_cputime snd cpu_times cputime span_step sp_first sp_last]; try done.
  - intros [|[|h]] Hlt; [exists zero_time; by split..|lia].
  - rewrite Hs. unfold sp_total. cbn. lia.
Qed.

Lemma t_event_ok n t s e : times_ok n t s → timed n s e = true → times_ok n (t_event t e) (span_step s e).
Proof. destruct e; intros Ht Hw; [by apply enter_ok | by apply leave_ok | by apply show_ok]. Qed.

Lemma t_events_ok n es t s :
  times_ok n t s → well_timed n s es = true → times_ok n (foldl t_event t es) (foldl span_step s es).
Proof.
  revert t s. induction es as [|e es IH]; intros t s Ht Hw; [done|].
  cbn [well_timed] in Hw. apply andb_true_iff in Hw as [He Hes]. cbn [foldl]. apply IH; [by apply t_event_ok | done].
Qed.

(** C26 The processor time of the records adds up. Whatever traps the two harts
    enter and leave, in whatever order the scheduler switches between the
    processes meanwhile, and whenever [show_cputime] clears the records, as long
    as time does not go back and the time charged in all fits 63 bits: the user,
    idle, interrupt and exception times of a hart add up, without overflow, to
    the time from the beginning of its record to its last tick, and the times of
    all processes to those of both records and of the records cleared before. A record begins at the first
    trap that is entered after boot, so that until [show_cputime] is called no
    tick is lost or charged twice; when a trap is left after the records were
    cleared, its hart's record counts from tick 0 (which charges the time since
    power-on, see [info_time_charges_uptime]). *)
Theorem cpu_time_adds_up n es :
  well_timed n no_span es = true →
  let t := foldl t_event (boot_times n) es in
  let s := foldl span_step no_span es in
  (∀ h, (h < 2)%nat → ∃ tim, cpu_times t !! h = Some tim ∧ last tim = sp_last s h ∧
     sys_irq tim + sys_exc tim + user tim + idle tim = sp_last s h - sp_first s h) ∧
  sumZ (cputime t) = sp_closed s + (sp_last s 0%nat - sp_first s 0%nat) + (sp_last s 1%nat - sp_first s 1%nat).
Proof.
  intros Hw t s. destruct (t_events_ok n es _ _ (boot_times_ok n) Hw) as [Hh _ _ Hs _]. split; [|exact Hs].
  intros h Hlt. destruct (Hh h Hlt) as (tim & Et & [El _ _ Esp]). by exists tim.
Qed.

(** A timer interrupt of process 3 that switches to process 4, which had called
    the kernel, and an idle hart; then process 4 asks for the times. *)
Definition demo_events : list tevent :=
  [EEnter 0 3 5 100; EEnter 1 1 1 110; ELeave 0 4 false 120; EEnter 0 4 6 200; ELeave 1 1 true 140; ELeave 0 4 true 230; EEnter 1 1 1 300;
   EEnter 0 4 6 310; EShow; ELeave 0 4 false 320; EEnter 0 4 6 350].

Lemma cpu_time_adds_up_witness : well_timed 8 no_span demo_events = true ∧
  sumZ (cputime (foldl t_event (boot_times 8) demo_events)) = (310 - 100) + (300 - 110) + (350 - 0).
Proof.
  split; [vm_compute; reflexivity|].
  rewrite (proj2 (cpu_time_adds_up 8 demo_events ltac:(vm_compute; reflexivity))). vm_compute. reflexivity.
Defined.

(** [show_cputime] clears the tick of the last trap too: when the call that
    shows the times returns, the process is charged the ticks since power-on. *)
Lemma info_time_charges_uptime :
  let t := enter 0 3 5 1000000 (boot_times 8) in
  let t := leave 0 3 false 1000010 (snd (show_cputime t)) in
  cputime t !! 3%nat = Some 1000010 ∧ sys_exc <$> (cpu_times t !! 0%nat) = Some 1000010.
Proof. vm_compute. done. Qed.

(** ** Dispatch *)

(** The handler of a cause. *)
Definition cause_handler (scause : Z) : handler_t :=
  if scause <? 2 ^ 63 then
    if scause =? 8 then handle_syscall_
    else if (scause =? 12) || (scause =? 13) || (scause =? 15) then handle_exc_pagefault else handle_other
  else
    let code := scause - 2 ^ 63 in
    if code =? 1 then handle_irq_sw else if code =? 5 then handle_irq_timer else if code =? 9 then handle_irq_ext
    else handle_other.

Lemma cause_split scause :
  0 ≤ scause < 2 ^ 64 →
  (Z.land scause SCAUSE_IRQ_FLAG =? 0) = (scause <? 2 ^ 63) ∧
  Z.land scause (SCAUSE_IRQ_FLAG - 1) = if scause <? 2 ^ 63 then scause else scause - 2 ^ 63.
Proof.
  intros Hs. unfold SCAUSE_IRQ_FLAG.
  assert (Z.land scause (2 ^ 63 - 1) = scause mod 2 ^ 63) as El by (rewrite <- Z.land_ones by lia; by rewrite Z.ones_equiv).
  assert (Z.testbit scause 63 = negb (scause <? 2 ^ 63)) as Eb.
  { destruct (Z.ltb_spec scause (2 ^ 63)) as [Hlt|Hge]; cbn [negb].
    - apply Z.testbit_false; [lia|]. rewrite Z.div_small by lia. done.
    - apply Z.testbit_true; [lia|]. replace (scause / 2 ^ 63) with 1; [done|]. apply (Z.div_unique_pos _ _ _ (scause - 2 ^ 63)); lia. }
  split.
  - destruct (Z.ltb_spec scause (2 ^ 63)) as [Hlt|Hge]; cbn [negb] in Eb.
    + apply Z.eqb_eq, Z.bits_inj'. intros k Hk. rewrite Z.land_spec, Z.bits_0, Z.pow2_bits_eqb by lia.
      destruct (Z.eqb_spec 63 k) as [<-|]; [by rewrite Eb | by rewrite andb_false_r].
    + apply Z.eqb_neq. intros E. apply (f_equal (fun z => Z.testbit z 63)) in E.
      rewrite Z.land_spec, Eb, Z.pow2_bits_true, Z.bits_0 in E by lia. done.
  - rewrite El. destruct (Z.ltb_spec scause (2 ^ 63)); [apply Z.mod_small; lia|].
    symmetry. apply (Z.mod_unique_pos _ _ 1); lia.
Qed.

Lemma exc_entry code : 0 ≤ code < 16 → exc_table !! Z.to_nat code = Some (cause_handler code).
Proof.
  intros Hc. assert (code ∈ seqZ 0 16) as Hin by (apply elem_of_seqZ; lia).
  cbn in Hin. repeat (apply elem_of_cons in Hin as [->|Hin]; [reflexivity|]). by apply elem_of_nil in Hin.
Qed.

Lemma irq_entry code : 0 ≤ code < 12 → irq_table !! Z.to_nat code = Some (cause_handler (2 ^ 63 + code)).
Proof.
  intros Hc. assert (code ∈ seqZ 0 12) as Hin by (apply elem_of_seqZ; lia).
  cbn in Hin. repeat (apply elem_of_cons in Hin as [->|Hin]; [reflexivity|]). by apply elem_of_nil in Hin.
Qed.

Section Dispatch.

Context {X : Type} `{Machine X} `{Kernel X}.

(** What a trap does, by its cause: an exception is handled with the user's
    memory open. *)
Definition trap_spec (r : regs_context_t) (stval scause : Z) (s : trapstate (X := X)) : outcome (regs_context_t * trapstate (X := X)) :=
  let x := rest s in
  let hart := get_current_cpu_id x in
  let t := enter hart (current_running x) (pid_of x (current_running x)) (get_ticks x) (times s) in
  let exc := scause <? 2 ^ 63 in
  match run_handler (cause_handler scause) r stval scause (if exc then set_user_memory true x else x) with
  | Ok (r, x) =>
      let x := if exc then set_user_memory false x else x in
      Ok (r, mk_trap (leave hart (current_running x) (negb exc) (get_ticks x) t) x)
  | Panic why => Panic why
  | OutOfFuel => OutOfFuel
  end.

(** C25 A trap reaches the handler of its cause: on sound stacks, for every
    value of scause but the interrupts 12 to 15, [interrupt_helper] accounts the
    time before, runs the system-call handler, the page-fault handler or the
    handler of the timer, the software or the external interrupt exactly for
    their causes, with the memory of the user open during exceptions only, and
    accounts the time after, on the hart the trap was entered on; every other
    cause halts the kernel. *)
Theorem trap_dispatched r stval scause s :
  0 ≤ scause < 2 ^ 64 → ¬ (2 ^ 63 + 12 ≤ scause < 2 ^ 63 + 16) →
  stacks_sane (stacks_of (rest s) (current_running (rest s))) = true →
  interrupt_helper r stval scause s = trap_spec r stval scause s.
Proof.
  intros Hs Hgap Hst. destruct (cause_split scause Hs) as [Ei Ec].
  unfold interrupt_helper, stack_sanity_check, account_enter, trap_spec. cbn [bind]. unfold bind at 1. rewrite Hst. cbn [asserts ret].
  unfold dispatch, bind. cbn [times rest]. rewrite Ec, Ei. cbv zeta. set (t := enter _ _ _ _ _).
  destruct (Z.ltb_spec scause (2 ^ 63)) as [Hexc|Hirq]; cbn [negb].
  - unfold code_valid. cbn [andb orb]. destruct (Z.ltb_spec scause EXCC_COUNT) as [Hlt|Hge]; unfold EXCC_COUNT in *.
    + cbn [ret modify rest times]. unfold table_handler. rewrite exc_entry by lia. cbn [ret]. unfold in_rest. cbn [rest times].
      destruct (run_handler (cause_handler scause) r stval scause _) as [[r' x]| |]; done.
    + cbn. unfold cause_handler. rewrite (proj2 (Z.ltb_lt _ _) Hexc).
      rewrite !(proj2 (Z.eqb_neq scause _)) by lia. done.
  - set (code := scause - 2 ^ 63) in *. assert (scause = 2 ^ 63 + code) as Esc by lia.
    unfold code_valid. cbn [andb]. destruct (Z.ltb_spec code IRQC_COUNT) as [Hlt|Hge]; unfold IRQC_COUNT in *; cbn [orb].
    + cbn [ret rest times]. unfold table_handler. rewrite irq_entry, <- Esc by lia. cbn [ret]. unfold in_rest. cbn [rest times].
      destruct (run_handler (cause_handler scause) r stval scause _) as [[r' x]| |]; done.
    + rewrite (proj2 (Z.ltb_ge code EXCC_COUNT)) by (unfold EXCC_COUNT; lia). cbn. unfold cause_handler.
      rewrite (proj2 (Z.ltb_ge scause _)) by lia. cbv zeta. fold code. rewrite !(proj2 (Z.eqb_neq code _)) by lia. done.
Qed.

(** The interrupts 12 to 15 pass the check of the code and are beyond the
    table. *)
Lemma irq_beyond_table r stval code s :
  12 ≤ code < 16 → stacks_sane (stacks_of (rest s) (current_running (rest s))) = true →
  interrupt_helper r stval (2 ^ 63 + code) s = Panic "fault".
Proof.
  intros Hc Hst. destruct (cause_split (2 ^ 63 + code)) as [Ei Ec]; [lia|].
  unfold interrupt_helper, stack_sanity_check, account_enter. cbn [bind]. unfold bind at 1. rewrite Hst. cbn [asserts ret].
  unfold dispatch, bind. rewrite Ec, Ei. rewrite (proj2 (Z.ltb_ge (2 ^ 63 + code) _)) by lia. cbn [negb].
  replace (2 ^ 63 + code - 2 ^ 63) with code by lia. unfold code_valid. rewrite (proj2 (Z.ltb_lt code EXCC_COUNT)) by (unfold EXCC_COUNT; lia).
  rewrite orb_true_r. cbn [ret]. unfold table_handler. rewrite lookup_ge_None_2; [done|]. change (length irq_table) with 12%nat. lia.
Qed.

End Dispatch.

(** ** A machine of one process that was interrupted in user mode *)
Record demo_machine := mk_demo { dm_tick : Z; dm_open : bool; dm_log : list Z }.
Definition dm_note (k d : Z) : M demo_machine unit := modify (fun s => mk_demo (dm_tick s + d) (dm_open s) (dm_log s ++ [k])).
#[local] Instance demo_is_machine : Machine demo_machine := {|
  get_current_cpu_id := fun _ => 0%nat; current_running := fun _ => 3%nat; pid_of := fun _ _ => 5;
  stacks_of := fun _ _ => mk_stacks 90 100 50 30 40 10;
  get_ticks := dm_tick; set_user_memory := fun o s => mk_demo (dm_tick s) o (dm_log s);
  page_fault := fun stval _ => dm_note stval 2; on_timer := dm_note 1 1; reset_timer := dm_note 2 1; do_scheduler := dm_note 3 5;
  plic_claim := dm_note 4 1 ;; ret 33; plic_complete := fun k => dm_note k 1; e1000_handle_interrupt := dm_note 5 4;
  check_halted := ret tt;
|}.
#[local] Instance demo_kernel : Kernel demo_machine := fun R op => panic "no call".

Lemma trap_dispatched_witness :
  let s := mk_trap (boot_times 8) (mk_demo 700 false []) in
  ∃ s', interrupt_helper demo_regs 0 (2 ^ 63 + 9) s = Ok (demo_regs, s') ∧
    dm_log (rest s') = [4; 5; 33] ∧ sys_irq <$> (cpu_times (times s') !! 0%nat) = Some 6.
Proof.
  intros s. rewrite (trap_dispatched demo_regs 0 (2 ^ 63 + 9) s); [|lia | lia | reflexivity].
  eexists. split; [vm_compute; reflexivity|]. split; reflexivity.
Defined.

(** ** The interrupt controller *)
Lemma toggle_enabled k on p j : 0 ≤ k → 0 ≤ j → enabled (plic_toggle k on p) j = if j =? k then on else enabled p j.
Proof.
  intros Hk Hj. unfold enabled, plic_toggle. cbn [enable].
  pose proof (Z.mod_pos_bound k 32 ltac:(lia)) as Hkm. pose proof (Z.mod_pos_bound j 32 ltac:(lia)) as Hjm.
  assert (u32 (Z.shiftl 1 (k mod 32)) = 2 ^ (k mod 32)) as Em.
  { rewrite Z.shiftl_mul_pow2, Z.mul_1_l by lia. apply Z.mod_small. split; [apply Z.pow_nonneg; lia | apply Z.pow_lt_mono_r; lia]. }
  rewrite Em. destruct (Z.eqb_spec (j / 32) (k / 32)) as [Eq|Ne].
  2: { destruct (Z.eqb_spec j k) as [->|]; [done|]. reflexivity. }
  assert ((j =? k) = (k mod 32 =? j mod 32)) as ->.
  { pose proof (Z.div_mod j 32 ltac:(lia)). pose proof (Z.div_mod k 32 ltac:(lia)).
    destruct (Z.eqb_spec j k), (Z.eqb_spec (k mod 32) (j mod 32)); try done; [congruence | lia]. }
  rewrite <- Eq. destruct on.
  - rewrite Z.lor_spec, Z.pow2_bits_eqb by lia. destruct (k mod 32 =? j mod 32); [apply orb_true_r | apply orb_false_r].
  - rewrite Z.land_spec, Z.lxor_spec, Z.pow2_bits_eqb by lia.
    assert (Z.testbit (2 ^ 32 - 1) (j mod 32) = true) as -> by (change (2 ^ 32 - 1) with (Z.ones 32); apply Z.ones_spec_low; lia).
    destruct (k mod 32 =? j mod 32); [apply andb_false_r | apply andb_true_r].
Qed.

Lemma disable_all n p j :
  0 ≤ n → 1 ≤ j → let p' := foldl (fun p k => plic_toggle k false p) p (seqZ 1 n) in
  enabled p' j = (if j <=? n then false else enabled p j) ∧ present p' = present p ∧ threshold p' = threshold p.
Proof.
  intros Hn Hj. cbv zeta. revert n Hn. apply natlike_ind; [cbn; rewrite (proj2 (Z.leb_gt _ _)) by lia; done|].
  intros n Hn (IH1 & IH2 & IH3). unfold Z.succ. rewrite seqZ_app, foldl_app by lia.
  replace (seqZ (1 + n) 1) with [n + 1] by (symmetry; unfold seqZ; cbn; by rewrite Z.add_comm). cbn [foldl]. rewrite toggle_enabled, IH1 by lia.
  split_and!; [|exact IH2 | exact IH3].
  destruct (Z.eqb_spec j (n + 1)), (Z.leb_spec j n), (Z.leb_spec j (n + 1)); try done; lia.
Qed.

(** After [plic_init] of at least three sources, exactly the network card's
    source is enabled, with priority 1: source 33 when the controller has it,
    else source 3; the threshold is 0 on the first call, so its interrupts are
    taken. *)
Theorem plic_init_enables_card nr p k :
  3 ≤ nr < 2 ^ 31 → 1 ≤ k ≤ nr → present p = false →
  let p' := plic_init nr p in
  enabled p' k = (k =? (if 33 <=? nr then PLIC_E1000_QEMU_IRQ else PLIC_E1000_PYNQ_IRQ)) ∧
  priority p' (if 33 <=? nr then PLIC_E1000_QEMU_IRQ else PLIC_E1000_PYNQ_IRQ) = 1 ∧ threshold p' = 0.
Proof.
  intros Hnr Hk Hp. unfold plic_init. rewrite Hp. set (p0 := mk_plic _ _ _ _).
  assert ((nr + 1 >? PLIC_E1000_QEMU_IRQ) = (33 <=? nr)) as ->.
  { unfold PLIC_E1000_QEMU_IRQ. rewrite Z.gtb_ltb. destruct (Z.ltb_spec 33 (nr + 1)), (Z.leb_spec 33 nr); try done; lia. }
  destruct (disable_all nr p0 k ltac:(lia) ltac:(lia)) as (E1 & E2 & E3). cbv zeta in *.
  set (p1 := foldl _ _ _) in *. set (src := if 33 <=? nr then _ else _).
  assert (0 ≤ src) by (unfold src, PLIC_E1000_QEMU_IRQ, PLIC_E1000_PYNQ_IRQ; destruct (33 <=? nr); lia).
  unfold plic_irq_unmask. cbn [present]. rewrite E2. cbn [p0 present]. rewrite toggle_enabled by lia.
  unfold enabled. cbn [enable]. fold (enabled p1 k). rewrite E1, (proj2 (Z.leb_le k nr)) by lia.
  cbn [plic_toggle priority threshold]. rewrite Z.eqb_refl, E3. destruct (k =? src); done.
Qed.

Lemma plic_init_enables_card_witness :
  let p := plic_init 52 (mk_plic (fun _ => 0) (fun _ => 2 ^ 32 - 1) 7 false) in
  enabled p 33 = true ∧ enabled p 3 = false ∧ threshold p = 0.
Proof.
  intros p. destruct (plic_init_enables_card 52 (mk_plic (fun _ => 0) (fun _ => 2 ^ 32 - 1) 7 false) 33) as (E & _ & T); [lia | lia | reflexivity |].
  split_and!; [exact E | | exact T]. vm_compute. reflexivity.
Defined.
