(* ===== verification/Image.v ===== *)
(** * tools/createimage.c and kernel/loader/loader.c: programs on the card

    The image builder copies the loadable segments of the boot block, the kernel
    and the programs one after the other, appends a table of the programs and
    writes the places of all into the boot block. The boot block and
    [init_task_info] read the table back, and the loader copies a program from
    the card into its memory. *)

From S2P Require Import Prelude Bytes CString Printk Block SdCard Inode.

Definition NBYTES2SEC (n : Z) : Z := Z.quot n SECTOR_SIZE + (if Z.rem n SECTOR_SIZE =? 0 then 0 else 1).
Definition i16 : Z → Z := swrap 16.

(** ** [task_info_t] *)
Record task_info_t := mk_info { ti_name : list Z; ti_phyaddr : Z; ti_filesize : Z; ti_memsize : Z; ti_entrance : Z }.
Definition sizeof_task_info : Z := 40.
(** Four bytes of padding stand before the entrance. *)
Definition enc_info (t : task_info_t) : list Z :=
  ti_name t ++ le 4 (ti_phyaddr t) ++ le 4 (ti_filesize t) ++ le 4 (ti_memsize t) ++ replicate 4 0 ++ le 8 (ti_entrance t).
Definition dec_info (l : list Z) : task_info_t :=
  mk_info (take 16 l) (i32 (field 16 4 l)) (i32 (field 20 4 l)) (i32 (field 24 4 l)) (field 32 8 l).
Definition empty_info : task_info_t := mk_info (replicate 16 0) 0 0 0 0.
Definition TASK_MAXNUM : nat := 32.

(** [strcpy] into a name of 16 bytes. *)
Definition name_field (name : list Z) : list Z := name ++ replicate (16 - length name) 0.

(** ** ELF files (Elf64_Ehdr, Elf64_Phdr) *)
Record ehdr := mk_ehdr { e_entry : Z; e_phoff : Z; e_phentsize : Z; e_phnum : Z }.
Record phdr := mk_phdr { p_type : Z; p_offset : Z; p_filesz : Z; p_memsz : Z }.
Definition PT_LOAD : Z := 1.

(** [None]: an assertion of the builder fails. *)
Definition read_ehdr (file : list Z) : option ehdr :=
  if bool_decide (64 ≤ length file)%nat && bool_decide (take 3 (drop 1 file) = str "ELF")
  then Some (mk_ehdr (field 24 8 file) (field 32 8 file) (field 54 2 file) (field 56 2 file)) else None.
Definition read_phdr (file : list Z) (ph : Z) (eh : ehdr) : option phdr :=
  let o := Z.to_nat (e_phoff eh + ph * e_phentsize eh) in
  if bool_decide (o + 56 ≤ length file)%nat
  then Some (mk_phdr (field o 4 file) (field (o + 8) 8 file) (field (o + 32) 8 file) (field (o + 40) 8 file)) else None.

(** The bytes [write_segment] copies; [fgetc] beyond the file gives 255. *)
Definition segment_bytes (file : list Z) (ph : phdr) : list Z :=
  if negb (p_memsz ph =? 0) && (p_type ph =? PT_LOAD)
  then (fun k => default 255 (file !! Z.to_nat k)) <$> seqZ (p_offset ph) (p_filesz ph) else [].

(** ** The builder *)

(** The image so far ([phyaddr] is its length), the table and the size of the
    kernel in the file and in memory. *)
Record istate := mk_istate { img : list Z; taskinfo : list task_info_t; nbytes_kernel : Z; nbytes_kernel_memsz : Z }.
Definition phyaddr (s : istate) : Z := Z.of_nat (length (img s)).
Definition append (l : list Z) (s : istate) : istate :=
  mk_istate (img s ++ l) (taskinfo s) (nbytes_kernel s) (nbytes_kernel_memsz s).
Definition set_info (i : nat) (f : task_info_t → task_info_t) (s : istate) : istate :=
  mk_istate (img s) (alter f i (taskinfo s)) (nbytes_kernel s) (nbytes_kernel_memsz s).

(** [write_padding]; [None] is the call of [error]. *)
Definition write_padding (new_phyaddr : Z) (s : istate) : option istate :=
  if phyaddr s >? new_phyaddr then None
  else Some (append (replicate (Z.to_nat (new_phyaddr - phyaddr s)) 0) s).
Definition write_align_padding (s : istate) : option istate :=
  write_padding ((phyaddr s + SECTOR_SIZE - 1) / SECTOR_SIZE * SECTOR_SIZE) s.

(** One program header of file [name], of program [task] when there is one. *)
Definition add_segment (name file : list Z) (task : option nat) (ph : phdr) (s : istate) : option istate :=
  if negb (p_type ph =? PT_LOAD) then Some s else
  let s := append (segment_bytes file ph) s in
  let s := if bool_decide (name = str "main")
           then mk_istate (img s) (taskinfo s) (i32 (nbytes_kernel s + u32 (p_filesz ph))) (i32 (nbytes_kernel_memsz s + p_memsz ph))
           else s in
  match task with
  | None => Some s
  | Some i =>
      t ← taskinfo s !! i;
      if negb (ti_memsize t =? 0) then None
      else Some (set_info i (fun t => mk_info (ti_name t) (ti_phyaddr t) (ti_filesize t) (i32 (p_memsz ph)) (ti_entrance t)) s)
  end.
Fixpoint add_segments (n : nat) (ph : Z) (name file : list Z) (eh : ehdr) (task : option nat) (s : istate) : option istate :=
  match n with
  | O => Some s
  | S n => p ← read_phdr file ph eh; s ← add_segment name file task p s; add_segments n (ph + 1) name file eh task s
  end.

(** The index of the program in file [fidx]. *)
Definition taskidx (fidx : nat) : option nat := if (2 <=? fidx)%nat then Some (fidx - 2)%nat else None.

(** One turn of the loop of [create_image]. The model ends ([None]) where the
    builder would write beyond a name or beyond the table. *)
Definition add_file (fidx : nat) (f : list Z * list Z) (s : istate) : option istate :=
  let '(name, file) := f in
  let task := taskidx fidx in
  let start := phyaddr s in
  s ← match task with
      | None => Some s
      | Some i =>
          if bool_decide (i < TASK_MAXNUM)%nat && bool_decide (length name < 16)%nat
          then Some (set_info i (fun t => mk_info (name_field name) (i32 start) (ti_filesize t) (ti_memsize t) (ti_entrance t)) s)
          else None
      end;
  eh ← read_ehdr file;
  let s := match task with
           | None => s
           | Some i => set_info i (fun t => mk_info (ti_name t) (ti_phyaddr t) (ti_filesize t) (ti_memsize t) (e_entry eh)) s
           end in
  s ← add_segments (Z.to_nat (e_phnum eh)) 0 name file eh task s;
  s ← (if bool_decide (name = str "bootblock") then write_padding SECTOR_SIZE s else Some s);
  match task with
  | None => Some s
  | Some i => Some (set_info i (fun t => mk_info (ti_name t) (ti_phyaddr t) (i32 (phyaddr s - ti_phyaddr t)) (ti_memsize t) (ti_entrance t)) s)
  end.
Fixpoint add_files (fidx : nat) (files : list (list Z * list Z)) (s : istate) : option istate :=
  match files with [] => Some s | f :: files => s ← add_file fidx f s; add_files (S fidx) files s end.

Definition BOOT_LOADER_SIG_OFFSET : nat := 510.
Definition OS_SIZE_LOC : nat := BOOT_LOADER_SIG_OFFSET - 4.
Definition TASKINFO_START_LOC : nat := BOOT_LOADER_SIG_OFFSET - 6.
Definition TASKINFO_SIZE_LOC : nat := BOOT_LOADER_SIG_OFFSET - 8.
Definition TASKINFO_TASKNUM_LOC : nat := BOOT_LOADER_SIG_OFFSET - 10.
Definition SWAP_FILE_LOC : nat := BOOT_LOADER_SIG_OFFSET - 12.

(** [fseek] and [fwrite]. *)
Definition patch (loc : nat) (l : list Z) (s : istate) : istate :=
  mk_istate (splice loc l (img s)) (taskinfo s) (nbytes_kernel s) (nbytes_kernel_memsz s).

(** The kernel may fill nine tenths of the memory below the heap. *)
Definition OS_LIMIT : Z := 13212057.

Definition write_img_info (tasknum : nat) (s : istate) : option istate :=
  s ← write_align_padding s;
  let taskinfo_start := i16 (phyaddr s / SECTOR_SIZE) in
  let taskinfo_bytes := i16 (sizeof_task_info * Z.of_nat tasknum) in
  let s := append (concat (enc_info <$> take tasknum (taskinfo s))) s in
  s ← write_align_padding s;
  let swap_file_sector := i16 (phyaddr s / SECTOR_SIZE) in
  s ← write_padding (phyaddr s + SECTOR_SIZE) s;
  let s := patch TASKINFO_START_LOC (le 2 taskinfo_start) s in
  let s := patch TASKINFO_SIZE_LOC (le 2 taskinfo_bytes) s in
  let s := patch TASKINFO_TASKNUM_LOC (le 2 (Z.of_nat tasknum)) s in
  let s := patch SWAP_FILE_LOC (le 2 swap_file_sector) s in
  let s := patch OS_SIZE_LOC (le 4 (nbytes_kernel s)) s in
  if nbytes_kernel_memsz s >? OS_LIMIT then None else Some s.

Definition create_image (files : list (list Z * list Z)) : option (list Z) :=
  s ← add_files 0 files (mk_istate [] (replicate TASK_MAXNUM empty_info) 0 0);
  s ← write_img_info (length files - 2) s;
  Some (img s).

(** ** The boot block and [init_task_info] *)

(** A [short] of the boot block, which is the first sector. *)
Definition boot_half (loc : nat) (d : sdcard) : Z := i16 (field loc 2 (bios_sd_read 1 0 d)).
Definition boot_os_size (d : sdcard) : Z := i32 (field OS_SIZE_LOC 4 (bios_sd_read 1 0 d)).
(** [sdread]: rounds of 64 sectors while sectors are left. *)
Fixpoint sdread (fuel : nat) (num_of_blocks block_id : Z) (d : sdcard) : list Z :=
  match fuel with
  | O => []
  | S fuel => bios_sd_read 64 block_id d ++ (if 0 <? num_of_blocks - 64 then sdread fuel (num_of_blocks - 64) (block_id + 64) d else [])
  end.
(** [copy_data]: words while bytes are left. *)
Fixpoint copy_data (fuel : nat) (size : Z) (src : list Z) : list Z :=
  match fuel with
  | O => []
  | S fuel => take 4 src ++ (if 0 <? size - 4 then copy_data fuel (size - 4) (drop 4 src) else [])
  end.
(** The kernel: the first [os_size] bytes of what was copied. *)
Definition boot_kernel (d : sdcard) : list Z :=
  let os_size := boot_os_size d in
  let num_of_blocks := (os_size + 511) / 512 in
  let temp := sdread (S (Z.to_nat (num_of_blocks / 64))) num_of_blocks 1 d in
  take (Z.to_nat os_size) (copy_data (S (Z.to_nat (os_size / 4))) os_size temp).
Definition boot_taskinfo (d : sdcard) : list Z :=
  bios_sd_read ((boot_half TASKINFO_SIZE_LOC d + 511) / 512) (boot_half TASKINFO_START_LOC d) d.
(** [memcpy] of [task_num] entries to [tasks]. *)
Definition init_task_info (d : sdcard) : list task_info_t :=
  (fun i => dec_info (drop (40 * i) (boot_taskinfo d))) <$> seq 0 (Z.to_nat (boot_half TASKINFO_TASKNUM_LOC d)).

(** [find_task]: the first program whose name compares equal. *)
Fixpoint find_task (name : list Z) (tasks : list task_info_t) : option task_info_t :=
  match tasks with
  | [] => None
  | t :: tasks => if bool_decide (upto_nul (ti_name t) = name) then Some t else find_task name tasks
  end.

(** ** The loader *)

(** [memcpy_kva2uva]: bytes go to the program's memory, by virtual address
    (Vm.v has the copy through the page table). *)
Definition copy_out (dest : Z) (l : list Z) (mem : Z → Z) : Z → Z := fun a =>
  if decide (dest ≤ a < dest + Z.of_nat (length l)) then default 0 (l !! Z.to_nat (a - dest)) else mem a.

(** [for (int i = 0; i < nblocks; i++)], from block [blk] on. *)
Fixpoint load_loop (n : nat) (blk dest offset sum_len : Z) (d : sdcard) (mem : Z → Z) : Z → Z :=
  match n with
  | O => mem
  | S n =>
      let buffer := bios_sd_read 1 blk d in
      let delta_len := Z.min sum_len (SECTOR_SIZE - offset) in
      let mem := copy_out dest (take (Z.to_nat delta_len) (drop (Z.to_nat offset) buffer)) mem in
      load_loop n (blk + 1) (dest + delta_len) 0 (sum_len - delta_len) d mem
  end.
Definition load_task_img (task : task_info_t) (d : sdcard) (mem : Z → Z) : Z * (Z → Z) :=
  let offset := Z.rem (ti_phyaddr task) SECTOR_SIZE in
  let src_blockid := Z.quot (ti_phyaddr task) SECTOR_SIZE in
  let aligned_phyaddr := ti_phyaddr task - offset in
  let nblocks := NBYTES2SEC (ti_phyaddr task + ti_filesize task - aligned_phyaddr) in
  (ti_entrance task,
   load_loop (Z.to_nat nblocks) src_blockid (ti_entrance task) offset (ti_filesize task) d mem).
