(* ===== verification/ImageTheorems.v ===== *)
(** * What the image builder puts on the card is what the loader loads *)

From S2P Require Import Prelude Bytes CString Printk Block SdCard Inode InodeLayout SyscallTheorems Image.

(** ** The loader *)
Lemma read_slice blk offset len d :
  0 ≤ offset → 0 ≤ len → offset + len ≤ SECTOR_SIZE →
  take (Z.to_nat len) (drop (Z.to_nat offset) (bios_sd_read 1 blk d)) = (fun j => d (blk * SECTOR_SIZE + offset + j)) <$> seqZ 0 len.
Proof.
  intros Ho Hl Hs. apply list_eq. intros i. destruct (decide (Z.of_nat i < len)) as [Hi|Hi].
  - rewrite lookup_take_lt, lookup_drop, sd_read_lookup, decide_True by lia. rewrite list_lookup_fmap, lookup_seqZ_lt by lia.
    cbn. do 2 f_equal. lia.
  - rewrite lookup_take_ge by lia. rewrite list_lookup_fmap, lookup_seqZ_ge by lia. done.
Qed.

Lemma load_loop_run n blk dest offset sum_len d mem a :
  0 ≤ offset < SECTOR_SIZE → 0 ≤ sum_len ≤ Z.of_nat n * SECTOR_SIZE - offset ∨ sum_len = 0 →
  load_loop n blk dest offset sum_len d mem a =
    if decide (dest ≤ a < dest + sum_len) then d (blk * SECTOR_SIZE + offset + (a - dest)) else mem a.
Proof.
  revert blk dest offset sum_len mem. induction n as [|n IH]; intros blk dest offset sum_len mem Ho Hs; cbn [load_loop].
  { rewrite decide_False by lia. done. }
  set (delta := Z.min sum_len (SECTOR_SIZE - offset)). rewrite IH by (unfold SECTOR_SIZE in *; lia).
  rewrite read_slice by (unfold delta; lia). unfold copy_out. rewrite length_fmap, length_seqZ.
  destruct (decide (dest + delta ≤ a < dest + delta + (sum_len - delta))) as [Hin|Hout].
  - rewrite decide_True by lia. f_equal. unfold SECTOR_SIZE in *. lia.
  - destruct (decide (dest ≤ a < dest + Z.of_nat (Z.to_nat delta))) as [Hin|Hout2].
    + rewrite decide_True by lia. rewrite list_lookup_fmap, lookup_seqZ_lt by lia. cbn. f_equal. lia.
    + rewrite decide_False by (unfold SECTOR_SIZE in *; lia). done.
Qed.

Lemma NBYTES2SEC_covers n : 0 ≤ n → n ≤ NBYTES2SEC n * SECTOR_SIZE ∧ 0 ≤ NBYTES2SEC n.
Proof.
  intros Hn. unfold NBYTES2SEC, SECTOR_SIZE. rewrite Z.quot_div_nonneg, Z.rem_mod_nonneg by lia. pose proof (Z.div_mod n 512 ltac:(lia)). pose proof (Z.mod_pos_bound n 512 ltac:(lia)).
  pose proof (Z.div_pos n 512 ltac:(lia) ltac:(lia)). destruct (Z.eqb_spec (n mod 512) 0); lia.
Qed.

Lemma load_task_run t d mem a :
  0 ≤ ti_phyaddr t → 0 ≤ ti_filesize t →
  snd (load_task_img t d mem) a =
    if decide (ti_entrance t ≤ a < ti_entrance t + ti_filesize t) then d (ti_phyaddr t + (a - ti_entrance t)) else mem a.
Proof.
  intros Hp Hf. unfold load_task_img. cbn [snd]. rewrite Z.quot_div_nonneg, Z.rem_mod_nonneg by (try done; lia).
  pose proof (Z.div_mod (ti_phyaddr t) SECTOR_SIZE ltac:(done)) as Hd.
  pose proof (Z.mod_pos_bound (ti_phyaddr t) SECTOR_SIZE ltac:(done)) as Hm.
  set (offset := ti_phyaddr t mod SECTOR_SIZE) in *. set (blk := ti_phyaddr t / SECTOR_SIZE) in *.
  destruct (NBYTES2SEC_covers (ti_phyaddr t + ti_filesize t - (ti_phyaddr t - offset)) ltac:(lia)) as [H1 H2].
  rewrite load_loop_run; [|lia | left; rewrite Z2Nat.id by lia; lia].
  case_decide; [|done]. f_equal. lia.
Qed.

(** ** Entries of the table *)
Record info_wf (t : task_info_t) : Prop := {
  iw_name : length (ti_name t) = 16%nat;
  iw_phyaddr : 0 ≤ ti_phyaddr t < 2 ^ 31;
  iw_filesize : 0 ≤ ti_filesize t < 2 ^ 31;
  iw_memsize : 0 ≤ ti_memsize t < 2 ^ 31;
  iw_entrance : 0 ≤ ti_entrance t < 2 ^ 64;
}.

Lemma enc_info_length t : length (ti_name t) = 16%nat → length (enc_info t) = 40%nat.
Proof. intros Hn. unfold enc_info. rewrite !length_app, !le_length, length_replicate. lia. Qed.

(** A field behind a prefix. *)
Lemma field_skip o w p l : (length p ≤ o)%nat → field o w (p ++ l) = field (o - length p) w l.
Proof. intros Ho. unfold field. by rewrite drop_app_ge. Qed.

Lemma field_here w n x l : w = n → 0 ≤ x < 256 ^ Z.of_nat n → field 0 w (le n x ++ l) = x.
Proof. intros -> Hx. unfold field. rewrite drop_0, take_app_length' by (by rewrite le_length). by apply unle_le_small. Qed.

Lemma i32_fits x : 0 ≤ x < 2 ^ 31 → i32 x = x.
Proof. intros Hx. apply (swrap_small 32); lia. Qed.

Lemma dec_enc_info t rest : info_wf t → dec_info (enc_info t ++ rest) = t.
Proof.
  intros [Hn Hp Hf Hm He]. unfold dec_info, enc_info. rewrite <- !app_assoc.
  rewrite take_app_length' by done.
  rewrite !(field_skip _ _ (ti_name t)), !Hn by lia. cbn [Nat.sub].
  rewrite (field_here 4 4) by (done || lia).
  rewrite (field_skip 4 4 (le 4 _)), (field_skip 8 4 (le 4 _)), (field_skip 16 8 (le 4 _)) by (rewrite le_length; lia).
  rewrite !le_length. cbn [Nat.sub]. rewrite (field_here 4 4) by (done || lia).
  rewrite (field_skip 4 4 (le 4 _)), (field_skip 12 8 (le 4 _)) by (rewrite le_length; lia).
  rewrite !le_length. cbn [Nat.sub]. rewrite (field_here 4 4) by (done || lia).
  rewrite (field_skip 8 8 (le 4 _)) by (rewrite le_length; lia). rewrite le_length. cbn [Nat.sub].
  rewrite (field_skip 4 8 (replicate 4 0)) by done. rewrite length_replicate. cbn [Nat.sub].
  rewrite (field_here 8 8) by (done || lia). rewrite !i32_fits by done. by destruct t.
Qed.

Lemma drop_table i ts t rest :
  Forall (fun t => length (ti_name t) = 16%nat) ts → ts !! i = Some t →
  ∃ rest', drop (40 * i) (concat (enc_info <$> ts) ++ rest) = enc_info t ++ rest'.
Proof.
  intros Hw. revert i. induction Hw as [|t0 ts Ht Hts IH]; intros i Hi; [done|]. cbn [fmap list_fmap concat]. rewrite <- app_assoc.
  destruct i as [|i].
  - injection Hi as ->. eexists. by rewrite Nat.mul_0_r, drop_0.
  - destruct (IH i Hi) as [r Hr]. exists r. rewrite <- Hr. rewrite drop_app_ge by (rewrite enc_info_length by done; lia).
    rewrite enc_info_length by done. f_equal. lia.
Qed.

Lemma table_length ts : Forall (fun t => length (ti_name t) = 16%nat) ts → length (concat (enc_info <$> ts)) = (40 * length ts)%nat.
Proof.
  induction 1 as [|t ts Ht Hts IH]; [done|]. cbn [fmap list_fmap concat length]. rewrite length_app, enc_info_length, IH by done. lia.
Qed.

(** ** What the files hold *)
Definition loads (phs : list phdr) : list phdr := filter (fun p => p_type p = PT_LOAD) phs.
Fixpoint read_phdrs (n : nat) (k : Z) (file : list Z) (eh : ehdr) : option (list phdr) :=
  match n with
  | O => Some []
  | S n => p ← read_phdr file k eh; ps ← read_phdrs n (k + 1) file eh; Some (p :: ps)
  end.
Definition parse_elf (file : list Z) : option (ehdr * list phdr) :=
  eh ← read_ehdr file; phs ← read_phdrs (Z.to_nat (e_phnum eh)) 0 file eh; Some (eh, loads phs).
Definition contents (file : list Z) (phs : list phdr) : list Z := concat (segment_bytes file <$> phs).

Record prog := mk_prog { pg_name : list Z; pg_entry : Z; pg_memsz : Z; pg_bytes : list Z }.

(** A program: one loadable segment, and a name of its own that fits. *)
Definition parse_program (f : list Z * list Z) : option prog :=
  '(eh, phs) ← parse_elf f.2;
  match phs with
  | [ph] =>
      if bool_decide (length f.1 < 16)%nat && bool_decide (0 ∉ f.1) && bool_decide (f.1 ≠ str "main") &&
         bool_decide (f.1 ≠ str "bootblock") && (0 <=? p_memsz ph) && (p_memsz ph <? 2 ^ 31) &&
         (0 <=? e_entry eh) && (e_entry eh <? 2 ^ 64)
      then Some (mk_prog f.1 (e_entry eh) (p_memsz ph) (segment_bytes f.2 ph)) else None
  | _ => None
  end.
(** The boot block fits in its sector. *)
Definition parse_boot (file : list Z) : option (list Z) :=
  '(_, phs) ← parse_elf file;
  if bool_decide (length (contents file phs) ≤ 512)%nat then Some (contents file phs) else None.
(** The kernel: no segment is larger in the file than in memory, and all fit. *)
Definition sizes (f : phdr → Z) (phs : list phdr) : Z := foldr Z.add 0 (f <$> phs).
Definition parse_kernel (file : list Z) : option (list Z) :=
  '(_, phs) ← parse_elf file;
  if forallb (fun p => (0 <=? p_filesz p) && (p_filesz p <=? p_memsz p)) phs && (sizes p_memsz phs <=? OS_LIMIT)
  then Some (contents file phs) else None.

(** ** The loop over the segments *)
Fixpoint fold_segs (name file : list Z) (task : option nat) (phs : list phdr) (s : istate) : option istate :=
  match phs with [] => Some s | ph :: phs => s ← add_segment name file task ph s; fold_segs name file task phs s end.

Lemma add_segments_fold n k name file eh task phs s :
  read_phdrs n k file eh = Some phs → add_segments n k name file eh task s = fold_segs name file task (loads phs) s.
Proof.
  revert k phs s. induction n as [|n IH]; intros k phs s Hr; cbn [read_phdrs add_segments] in *; [by injection Hr as <-|].
  destruct (read_phdr file k eh) as [p|]; [|done]. cbn in *. destruct (read_phdrs n (k + 1) file eh) as [ps|] eqn:E; [|done].
  injection Hr as <-. unfold loads. rewrite filter_cons. destruct (decide (p_type p = PT_LOAD)) as [Hp|Hp].
  - cbn [fold_segs]. destruct (add_segment name file task p s); [|done]. cbn. by apply IH.
  - unfold add_segment. rewrite (proj2 (Z.eqb_neq _ _) Hp). cbn. by apply IH.
Qed.

Lemma loads_type phs : Forall (fun p => p_type p = PT_LOAD) (loads phs).
Proof. apply Forall_forall. intros p Hp. by apply list_elem_of_filter in Hp as [? _]. Qed.

Lemma fold_segs_plain name file phs s :
  Forall (fun p => p_type p = PT_LOAD) phs → name ≠ str "main" →
  fold_segs name file None phs s = Some (append (contents file phs) s).
Proof.
  intros Hp Hn. revert s. induction Hp as [|p phs Hp Hps IH]; intros s; cbn [fold_segs].
  { unfold contents, append. cbn. rewrite app_nil_r. by destruct s. }
  unfold add_segment at 1. rewrite Hp. cbn [PT_LOAD]. rewrite Z.eqb_refl. cbn [negb]. rewrite bool_decide_eq_false_2 by done. cbn.
  rewrite IH. unfold append, contents. cbn. by rewrite <- app_assoc.
Qed.

Lemma segment_length file p : 0 ≤ p_filesz p ≤ p_memsz p → p_type p = PT_LOAD → Z.of_nat (length (segment_bytes file p)) = p_filesz p.
Proof.
  intros Hs Ht. unfold segment_bytes. rewrite Ht, Z.eqb_refl, andb_true_r. destruct (Z.eqb_spec (p_memsz p) 0); cbn [negb].
  - cbn. lia.
  - rewrite length_fmap, length_seqZ. lia.
Qed.

Lemma fold_segs_main file phs s :
  Forall (fun p => p_type p = PT_LOAD ∧ 0 ≤ p_filesz p ≤ p_memsz p) phs →
  0 ≤ nbytes_kernel s → 0 ≤ nbytes_kernel_memsz s →
  nbytes_kernel s ≤ nbytes_kernel_memsz s → nbytes_kernel_memsz s + sizes p_memsz phs < 2 ^ 31 →
  fold_segs (str "main") file None phs s = Some (mk_istate (img s ++ contents file phs) (taskinfo s)
    (nbytes_kernel s + Z.of_nat (length (contents file phs))) (nbytes_kernel_memsz s + sizes p_memsz phs)).
Proof.
  intros Hp. revert s. induction Hp as [|p phs [Hp Hs] Hps IH]; intros s H0 H1 H01 Hb; cbn [fold_segs].
  { unfold contents, sizes. cbn. rewrite app_nil_r, !Z.add_0_r. by destruct s. }
  assert (0 ≤ sizes p_memsz phs) as Hnn.
  { clear -Hps. unfold sizes. induction Hps as [|p phs [_ Hp] Hps IH]; cbn in *; lia. }
  unfold sizes in Hb. cbn in Hb. fold (sizes p_memsz phs) in Hb.
  unfold add_segment at 1. rewrite Hp, Z.eqb_refl. cbn [negb]. rewrite bool_decide_eq_true_2 by done. cbn [append img taskinfo nbytes_kernel nbytes_kernel_memsz mbind option_bind].
  assert (u32 (p_filesz p) = p_filesz p) as -> by (apply Z.mod_small; lia).
  rewrite !i32_fits by lia. rewrite IH by (cbn; lia). cbn [img taskinfo nbytes_kernel nbytes_kernel_memsz].
  unfold contents, sizes. cbn [fmap list_fmap concat foldr]. rewrite length_app, <- app_assoc. f_equal. f_equal.
  - pose proof (segment_length file p Hs Hp). lia.
  - lia.
Qed.

(** ** One file *)
Lemma parse_elf_inv file eh phs :
  parse_elf file = Some (eh, phs) → ∃ all, read_ehdr file = Some eh ∧
    read_phdrs (Z.to_nat (e_phnum eh)) 0 file eh = Some all ∧ phs = loads all.
Proof.
  unfold parse_elf. destruct (read_ehdr file) as [e|]; [|done]. cbn.
  destruct (read_phdrs _ 0 file e) as [all|] eqn:E; [|done]. cbn. intros [= <- <-]. by exists all.
Qed.

Lemma add_boot_run file boot t :
  parse_boot file = Some boot →
  add_file 0 (str "bootblock", file) (mk_istate [] t 0 0) =
    Some (mk_istate (boot ++ replicate (512 - length boot) 0) t 0 0) ∧ (length boot ≤ 512)%nat.
Proof.
  unfold parse_boot. destruct (parse_elf file) as [[eh phs]|] eqn:E; [|done]. cbn. case_bool_decide as Hl; [|done]. intros [= <-].
  destruct (parse_elf_inv _ _ _ E) as (all & E1 & E2 & ->). split; [|done]. unfold add_file.
  change (taskidx 0) with (@None nat). cbn [mbind option_bind]. rewrite E1. cbn [mbind option_bind].
  rewrite (add_segments_fold _ _ _ _ _ _ _ _ E2), fold_segs_plain by (done || apply loads_type). cbn [mbind option_bind].
  rewrite bool_decide_eq_true_2 by done.
  unfold write_padding, phyaddr, append. cbn [img taskinfo nbytes_kernel nbytes_kernel_memsz app].
  rewrite Z.gtb_ltb, (proj2 (Z.ltb_ge _ _)) by (unfold SECTOR_SIZE; lia). cbn [mbind option_bind]. do 4 f_equal. unfold SECTOR_SIZE. lia.
Qed.

Lemma add_kernel_run file kernel s :
  parse_kernel file = Some kernel → nbytes_kernel s = 0 → nbytes_kernel_memsz s = 0 →
  ∃ memsz, 0 ≤ memsz ≤ OS_LIMIT ∧ Z.of_nat (length kernel) ≤ memsz ∧
    add_file 1 (str "main", file) s = Some (mk_istate (img s ++ kernel) (taskinfo s) (Z.of_nat (length kernel)) memsz).
Proof.
  unfold parse_kernel. destruct (parse_elf file) as [[eh phs]|] eqn:E; [|done]. cbn.
  destruct (forallb _ phs && _) eqn:Ec; [|done]. intros [= <-] Z1 Z2. apply andb_true_iff in Ec as [Ef%Is_true_true%forallb_True Es%Z.leb_le].
  destruct (parse_elf_inv _ _ _ E) as (all & E1 & E2 & ->).
  assert (Forall (fun p => p_type p = PT_LOAD ∧ 0 ≤ p_filesz p ≤ p_memsz p) (loads all)) as Hall.
  { apply Forall_and. split; [apply loads_type|]. eapply Forall_impl; [exact Ef|]. intros p Hp.
    apply Is_true_true, andb_true_iff in Hp as [?%Z.leb_le ?%Z.leb_le]. lia. }
  assert (0 ≤ sizes p_memsz (loads all) ∧ Z.of_nat (length (contents file (loads all))) ≤ sizes p_memsz (loads all)) as Hs.
  { clear -Hall. unfold sizes, contents. induction Hall as [|p phs [Ht Hp] Hps IH]; cbn [fmap list_fmap foldr concat]; [cbn; lia|].
    rewrite length_app. pose proof (segment_length file p Hp Ht). lia. }
  exists (sizes p_memsz (loads all)). split_and!; [lia | lia | lia |].
  unfold add_file. change (taskidx 1) with (@None nat). cbn [mbind option_bind]. rewrite E1. cbn [mbind option_bind].
  rewrite (add_segments_fold _ _ _ _ _ _ _ _ E2), fold_segs_main by (first [done | rewrite ?Z1, ?Z2; unfold OS_LIMIT in *; lia]). cbn [mbind option_bind].
  rewrite bool_decide_eq_false_2 by done. cbn [mbind option_bind]. by rewrite Z1, Z2.
Qed.

(** The entry of a program that was put at [start]. *)
Definition info_of (start : Z) (g : prog) : task_info_t :=
  mk_info (name_field (pg_name g)) start (Z.of_nat (length (pg_bytes g))) (pg_memsz g) (pg_entry g).

Lemma add_task_run i f g s :
  parse_program f = Some g → taskinfo s !! i = Some empty_info → (i < TASK_MAXNUM)%nat →
  phyaddr s + Z.of_nat (length (pg_bytes g)) < 2 ^ 31 →
  add_file (2 + i) f s = Some (mk_istate (img s ++ pg_bytes g) (<[i := info_of (phyaddr s) g]> (taskinfo s))
    (nbytes_kernel s) (nbytes_kernel_memsz s)).
Proof.
  intros Hg Hi Hlt Hb. destruct f as [name file]. unfold parse_program in Hg. cbn [fst snd] in Hg.
  destruct (parse_elf file) as [[eh phs]|] eqn:E; [|done]. cbn in Hg. destruct phs as [|ph [|]]; [done| |done].
  destruct (_ && _) eqn:Ec in Hg; [|done]. injection Hg as <-.
  apply andb_true_iff in Ec as [[[[[[[H1%bool_decide_eq_true _]%andb_true_iff H3%bool_decide_eq_true]%andb_true_iff
    H4%bool_decide_eq_true]%andb_true_iff H5%Z.leb_le]%andb_true_iff H6%Z.ltb_lt]%andb_true_iff _]%andb_true_iff _].
  destruct (parse_elf_inv _ _ _ E) as (all & E1 & E2 & Eall). pose proof (loads_type all) as Hty. rewrite <- Eall in Hty.
  apply Forall_cons in Hty as [Hty _]. assert (0 ≤ phyaddr s) as Hp0 by (unfold phyaddr; lia). cbn [pg_bytes] in *.
  unfold add_file. replace (taskidx (2 + i)) with (Some i) by (unfold taskidx; cbn; by rewrite Nat.sub_0_r).
  rewrite (bool_decide_eq_true_2 _ Hlt), (bool_decide_eq_true_2 _ H1). cbn [andb mbind option_bind]. rewrite E1. cbn [mbind option_bind].
  rewrite (add_segments_fold _ _ _ _ _ _ _ _ E2), <- Eall. cbn [fold_segs]. unfold add_segment. rewrite Hty, Z.eqb_refl. cbn [negb].
  rewrite (bool_decide_eq_false_2 (name = str "main")) by done. cbn [append set_info taskinfo].
  rewrite !list_lookup_alter_eq, Hi. cbn [fmap option_fmap option_map mbind option_bind ti_memsize empty_info].
  change (0 =? 0) with true. cbn [negb]. cbn [mbind option_bind]. rewrite (bool_decide_eq_false_2 (name = str "bootblock")) by done.
  cbn [mbind option_bind set_info img taskinfo nbytes_kernel nbytes_kernel_memsz append].
  unfold set_info, append. cbn [img taskinfo nbytes_kernel nbytes_kernel_memsz]. f_equal. f_equal.
  apply list_eq. intros k. destruct (decide (k = i)) as [->|Hne].
  - rewrite !list_lookup_alter_eq, Hi, list_lookup_insert_eq by (by eapply lookup_lt_Some). cbn [fmap option_fmap option_map].
    unfold info_of, phyaddr in *. cbn [ti_name ti_phyaddr ti_filesize ti_memsize ti_entrance img pg_name pg_bytes pg_memsz pg_entry].
    rewrite length_app in *. rewrite !i32_fits; [do 2 f_equal | ..]; rewrite ?i32_fits; lia.
  - rewrite !list_lookup_alter_ne, list_lookup_insert_ne by done. done.
Qed.

(** ** The programs, one after the other *)
Definition all_bytes (gs : list prog) : list Z := concat (pg_bytes <$> gs).
Fixpoint infos (start : Z) (gs : list prog) : list task_info_t :=
  match gs with [] => [] | g :: gs => info_of start g :: infos (start + Z.of_nat (length (pg_bytes g))) gs end.

Lemma infos_length start gs : length (infos start gs) = length gs.
Proof. revert start. induction gs; intros start; cbn; auto. Qed.

Lemma add_tasks_run files gs filled s :
  mapM parse_program files = Some gs → taskinfo s = filled ++ replicate (TASK_MAXNUM - length filled) empty_info →
  (length filled + length files ≤ TASK_MAXNUM)%nat → phyaddr s + Z.of_nat (length (all_bytes gs)) < 2 ^ 31 →
  add_files (2 + length filled) files s = Some (mk_istate (img s ++ all_bytes gs)
    (filled ++ infos (phyaddr s) gs ++ replicate (TASK_MAXNUM - length filled - length files) empty_info) (nbytes_kernel s) (nbytes_kernel_memsz s)).
Proof.
  revert gs filled s. induction files as [|f files IH]; intros gs filled s Hg Ht Hn Hb; cbn [mapM] in Hg.
  { injection Hg as <-. cbn [add_files infos all_bytes fmap list_fmap concat app length]. rewrite Nat.sub_0_r, app_nil_r, <- Ht. by destruct s. }
  destruct (parse_program f) as [g|] eqn:Ef; [|done]. cbn in Hg. destruct (mapM parse_program files) as [gs'|] eqn:Eg; [|done].
  injection Hg as <-. cbn [length] in Hn. unfold all_bytes in Hb |- *. cbn [fmap list_fmap concat] in Hb |- *. rewrite length_app in Hb.
  cbn [add_files]. rewrite (add_task_run (length filled) f g s Ef); [|rewrite Ht, lookup_app_r, Nat.sub_diag by done; apply lookup_replicate_2; lia | lia | lia].
  cbn [mbind option_bind]. set (s1 := mk_istate _ _ _ _).
  assert (length (filled ++ [info_of (phyaddr s) g]) = S (length filled)) as El by (rewrite length_app; cbn; lia).
  specialize (IH gs' (filled ++ [info_of (phyaddr s) g]) s1 eq_refl). rewrite El in IH.
  assert (phyaddr s1 = phyaddr s + Z.of_nat (length (pg_bytes g))) as Ep by (unfold phyaddr; cbn; rewrite length_app; lia).
  change (S (2 + length filled)) with (2 + S (length filled))%nat. rewrite IH; [| |lia | unfold all_bytes in *; lia].
  - cbn [infos length s1 img nbytes_kernel nbytes_kernel_memsz]. rewrite Ep, <- !app_assoc. cbn [app].
    replace (TASK_MAXNUM - S (length filled) - length files)%nat with (TASK_MAXNUM - length filled - S (length files))%nat by lia. done.
  - cbn [s1 taskinfo]. rewrite Ht, insert_app_r_alt, Nat.sub_diag by done.
    replace (TASK_MAXNUM - length filled)%nat with (S (TASK_MAXNUM - S (length filled))) by lia. cbn. by rewrite <- app_assoc.
Qed.

(** ** The boot block's fields *)
Lemma splice_app o v a b : (o + length v ≤ length a)%nat → splice o v (a ++ b) = splice o v a ++ b.
Proof.
  intros Hl. unfold splice. rewrite take_app_le, drop_app_le by lia. by rewrite !app_assoc.
Qed.

Lemma field_splice_eq o w v d : length v = w → (o ≤ length d)%nat → field o w (splice o v d) = unle v.
Proof.
  intros <- Ho. unfold field, splice. rewrite drop_app_length' by (rewrite length_take; lia). by rewrite take_app_length.
Qed.

Lemma field_splice_ne o w o' v d :
  (o + w ≤ o' ∨ o' + length v ≤ o)%nat → (o' + length v ≤ length d)%nat → field o w (splice o' v d) = field o w d.
Proof.
  intros Hd Hl. unfold field. f_equal. apply list_eq. intros i. destruct (decide (i < w)%nat) as [Hi|Hi].
  - rewrite !lookup_take_lt, !lookup_drop by done. unfold splice. destruct Hd as [Hd|Hd].
    + rewrite lookup_app_l by (rewrite length_take; lia). by rewrite lookup_take_lt by lia.
    + rewrite lookup_app_r by (rewrite length_take; lia). rewrite lookup_app_r by (rewrite length_take; lia).
      rewrite lookup_drop, length_take. f_equal. lia.
  - by rewrite !lookup_take_ge by lia.
Qed.

(** ** The end of the image *)
Definition round_up (n : Z) : Z := (n + SECTOR_SIZE - 1) / SECTOR_SIZE * SECTOR_SIZE.

Lemma round_up_spec n : 0 ≤ n → n ≤ round_up n < n + SECTOR_SIZE ∧ round_up n mod SECTOR_SIZE = 0.
Proof.
  intros Hn. unfold round_up, SECTOR_SIZE. pose proof (Z.div_mod (n + 512 - 1) 512 ltac:(lia)).
  pose proof (Z.mod_pos_bound (n + 512 - 1) 512 ltac:(lia)). split; [lia|]. by rewrite Z.mod_mul.
Qed.

Lemma padding_run n s : phyaddr s ≤ n → write_padding n s = Some (append (replicate (Z.to_nat (n - phyaddr s)) 0) s).
Proof. intros Hn. unfold write_padding. by rewrite Z.gtb_ltb, (proj2 (Z.ltb_ge _ _)). Qed.

Lemma align_run s :
  write_align_padding s = Some (append (replicate (Z.to_nat (round_up (phyaddr s) - phyaddr s)) 0) s).
Proof. apply padding_run. destruct (round_up_spec (phyaddr s)); [unfold phyaddr; lia | lia]. Qed.

Lemma append_phyaddr l s : phyaddr (append l s) = phyaddr s + Z.of_nat (length l).
Proof. unfold phyaddr, append. cbn. rewrite length_app. lia. Qed.

Lemma i16_fits x : 0 ≤ x < 2 ^ 15 → i16 x = x.
Proof. intros Hx. apply (swrap_small 16); lia. Qed.

(** The boot block with its five fields. *)
Definition header (start bytes num swap os : Z) (hdr : list Z) : list Z :=
  splice OS_SIZE_LOC (le 4 os) (splice SWAP_FILE_LOC (le 2 swap) (splice TASKINFO_TASKNUM_LOC (le 2 num)
    (splice TASKINFO_SIZE_LOC (le 2 bytes) (splice TASKINFO_START_LOC (le 2 start) hdr)))).

(** A splice inside the boot block keeps its length. *)
Lemma splice_sector o v d : length d = 512%nat → (o + length v ≤ 512)%nat → length (splice o v d) = 512%nat.
Proof. intros Hd Hv. rewrite splice_length; lia. Qed.

Ltac in_sector :=
  repeat first [apply splice_sector | rewrite le_length]; first [assumption | vm_compute; lia].

Lemma header_length start bytes num swap os hdr : length hdr = 512%nat → length (header start bytes num swap os hdr) = 512%nat.
Proof. intros Hh. unfold header. in_sector. Qed.

Lemma header_app start bytes num swap os hdr body :
  length hdr = 512%nat →
  splice OS_SIZE_LOC (le 4 os) (splice SWAP_FILE_LOC (le 2 swap) (splice TASKINFO_TASKNUM_LOC (le 2 num)
    (splice TASKINFO_SIZE_LOC (le 2 bytes) (splice TASKINFO_START_LOC (le 2 start) (hdr ++ body))))) =
  header start bytes num swap os hdr ++ body.
Proof.
  intros Hh. unfold header.
  repeat (rewrite splice_app; [|match goal with |- (_ ≤ length ?d)%nat =>
    let H := fresh in assert (length d = 512%nat) as H by in_sector; rewrite H, le_length; vm_compute; lia end]).
  done.
Qed.

(** A field that a splice elsewhere leaves alone, in the boot block. *)
Lemma field_other o w o' v d :
  length d = 512%nat → (o + w ≤ o' ∨ o' + length v ≤ o)%nat → (o' + length v ≤ 512)%nat → field o w (splice o' v d) = field o w d.
Proof. intros Hd Ho Hv. apply field_splice_ne; lia. Qed.

Lemma field_this o w x d :
  length d = 512%nat → (o ≤ 512)%nat → 0 ≤ x < 256 ^ Z.of_nat w → field o w (splice o (le w x) d) = x.
Proof. intros Hd Ho Hx. rewrite field_splice_eq by (rewrite ?le_length; lia). by apply unle_le_small. Qed.

Lemma header_fields start bytes num swap os hdr :
  length hdr = 512%nat → 0 ≤ start < 2 ^ 15 → 0 ≤ bytes < 2 ^ 15 → 0 ≤ num < 2 ^ 15 → 0 ≤ os < 2 ^ 31 →
  let h := header start bytes num swap os hdr in
  field TASKINFO_START_LOC 2 h = start ∧ field TASKINFO_SIZE_LOC 2 h = bytes ∧
  field TASKINFO_TASKNUM_LOC 2 h = num ∧ field OS_SIZE_LOC 4 h = os.
Proof.
  intros Hh H1 H2 H3 H4. cbv zeta. unfold header.
  split_and!; repeat (rewrite field_other; [|in_sector|rewrite le_length; vm_compute; lia|rewrite le_length; vm_compute; lia]);
    (apply field_this; [in_sector | vm_compute; lia |]); [change (256 ^ Z.of_nat 2) with 65536; lia.. |].
  change (256 ^ Z.of_nat 4) with (2 ^ 32). lia.
Qed.

Lemma write_img_info_run n s hdr body :
  img s = hdr ++ body → length hdr = 512%nat → (n ≤ TASK_MAXNUM)%nat → (n ≤ length (taskinfo s))%nat →
  Forall (fun t => length (ti_name t) = 16%nat) (take n (taskinfo s)) →
  phyaddr s < 512 * 32000 → 0 ≤ nbytes_kernel s < 2 ^ 31 → nbytes_kernel_memsz s ≤ OS_LIMIT →
  let A := round_up (phyaddr s) in
  ∃ s' swap z rest, write_img_info n s = Some s' ∧
    img s' = header (A / 512) (40 * Z.of_nat n) (Z.of_nat n) swap (nbytes_kernel s) hdr ++
      body ++ z ++ concat (enc_info <$> take n (taskinfo s)) ++ rest ∧
    512 + Z.of_nat (length body) + Z.of_nat (length z) = A ∧ A mod 512 = 0 ∧ 0 ≤ A / 512 < 2 ^ 15.
Proof.
  intros Himg Hh Hn Hlen Hnames Hp Hk Hm A.
  assert (0 ≤ phyaddr s) as Hp0 by (unfold phyaddr; lia). destruct (round_up_spec _ Hp0) as [HA HAm]. fold A in HA, HAm.
  set (T := concat (enc_info <$> take n (taskinfo s))).
  assert (length T = (40 * n)%nat) as HT by (unfold T; rewrite table_length, length_take by done; f_equal; lia).
  set (z := replicate (Z.to_nat (A - phyaddr s)) 0). set (s1 := append z s). set (s2 := append T s1).
  assert (phyaddr s1 = A) as E1 by (unfold s1; rewrite append_phyaddr; unfold z; rewrite length_replicate; lia).
  assert (phyaddr s2 = A + Z.of_nat (40 * n)) as E2 by (unfold s2; rewrite append_phyaddr, HT, E1; done).
  set (B := round_up (phyaddr s2)). destruct (round_up_spec (phyaddr s2)) as [HB HBm]; [rewrite E2; lia|]. fold B in HB, HBm.
  set (s3 := append (replicate (Z.to_nat (B - phyaddr s2)) 0) s2).
  assert (phyaddr s3 = B) as E3 by (unfold s3; rewrite append_phyaddr, length_replicate; lia).
  unfold TASK_MAXNUM in Hn. unfold write_img_info. rewrite align_run. fold A z s1. cbn [mbind option_bind].
  change (taskinfo s1) with (taskinfo s). fold T s2. rewrite align_run. fold B s3. cbn [mbind option_bind].
  rewrite padding_run by (unfold SECTOR_SIZE; lia). cbn [mbind option_bind]. rewrite E1, E3.
  assert (0 ≤ A / 512 < 2 ^ 15 ∧ 0 ≤ B / 512 < 2 ^ 15) as [Hs Hsw].
  { unfold SECTOR_SIZE in *. split; (split; [apply Z.div_pos; lia | apply Z.div_lt_upper_bound; lia]). }
  change SECTOR_SIZE with 512 in *. rewrite !i16_fits by (unfold sizeof_task_info; lia).
  change (nbytes_kernel_memsz (patch _ _ _)) with (nbytes_kernel_memsz s). rewrite Z.gtb_ltb, (proj2 (Z.ltb_ge _ _)) by lia.
  set (rest := replicate (Z.to_nat (B - phyaddr s2)) 0 ++ replicate (Z.to_nat (B + 512 - B)) 0).
  eexists _, (B / 512), z, rest. split; [reflexivity|]. split_and!; [| |done | lia | lia].
  - unfold patch. cbn [img append s3 s2 s1]. rewrite Himg, <- !app_assoc. fold rest. by rewrite <- header_app.
  - unfold z. rewrite length_replicate. unfold phyaddr in *. rewrite Himg, length_app, Hh in *. lia.
Qed.

(** ** Reading the card *)
Definition on_card (d : sdcard) (l : list Z) : Prop := ∀ a x, 0 ≤ a → l !! Z.to_nat a = Some x → d a = x.

(** ** The loader's loops *)
Lemma sd_read_app a b k (d : sdcard) : 0 ≤ a → 0 ≤ b → bios_sd_read (a + b) k d = bios_sd_read a k d ++ bios_sd_read b (k + a) d.
Proof.
  intros Ha Hb. unfold bios_sd_read, SECTOR_SIZE. rewrite Z.mul_add_distr_r, seqZ_app, fmap_app by lia. f_equal.
  rewrite Z.add_0_l, <- (Z.add_0_r (a * 512)) at 1. rewrite <- fmap_add_seqZ, <- list_fmap_compose.
  apply list_fmap_ext. intros _ j _. cbn. f_equal. lia.
Qed.

Lemma sdread_run fuel num blk d :
  num ≤ 64 * Z.of_nat fuel → (0 < fuel)%nat → ∃ m, num ≤ m ∧ 0 ≤ m ∧ sdread fuel num blk d = bios_sd_read m blk d.
Proof.
  revert num blk. induction fuel as [|fuel IH]; intros num blk Hn Hf; [lia|]. cbn [sdread].
  destruct (Z.ltb_spec 0 (num - 64)) as [Hl|Hl].
  - destruct (IH (num - 64) (blk + 64)) as (m & Hm & H0 & ->); [lia | lia |].
    exists (64 + m). split_and!; [lia | lia |]. by rewrite sd_read_app by lia.
  - exists 64. split_and!; [lia | lia |]. apply app_nil_r.
Qed.

Lemma copy_data_run fuel size src :
  size ≤ 4 * Z.of_nat fuel → (0 < fuel)%nat → ∃ m, size ≤ Z.of_nat m ∧ copy_data fuel size src = take m src.
Proof.
  revert size src. induction fuel as [|fuel IH]; intros size src Hn Hf; [lia|]. cbn [copy_data].
  destruct (Z.ltb_spec 0 (size - 4)) as [Hl|Hl].
  - destruct (IH (size - 4) (drop 4 src)) as (m & Hm & ->); [lia | lia |].
    exists (4 + m)%nat. split; [lia|]. apply take_take_drop.
  - exists 4%nat. split; [lia|]. apply app_nil_r.
Qed.

Lemma boot_kernel_sectors d :
  0 ≤ boot_os_size d → ∃ m, (boot_os_size d + 511) / 512 ≤ m ∧
    boot_kernel d = take (Z.to_nat (boot_os_size d)) (bios_sd_read m 1 d).
Proof.
  intros H0. set (n := boot_os_size d) in *. unfold boot_kernel. fold n. cbv zeta. set (q := (n + 511) / 512).
  assert (0 ≤ q) as Hq by (apply Z.div_pos; lia).
  destruct (sdread_run (S (Z.to_nat (q / 64))) q 1 d) as (m & Hm & _ & ->).
  { rewrite Nat2Z.inj_succ, Z2Nat.id by (apply Z.div_pos; lia). pose proof (Z.div_mod q 64 ltac:(lia)).
    pose proof (Z.mod_pos_bound q 64 ltac:(lia)). lia. } { lia. }
  exists m. split; [done|].
  destruct (copy_data_run (S (Z.to_nat (n / 4))) n (bios_sd_read m 1 d)) as (k & Hk & ->).
  { rewrite Nat2Z.inj_succ, Z2Nat.id by (apply Z.div_pos; lia). pose proof (Z.div_mod n 4 ltac:(lia)).
    pose proof (Z.mod_pos_bound n 4 ltac:(lia)). lia. } { lia. }
  rewrite take_take. f_equal. lia.
Qed.

(** A piece of the image that lies at [at_]. *)
Lemma card_piece d at_ pre l post x j :
  on_card d (pre ++ l ++ post) → Z.of_nat (length pre) = at_ → l !! j = Some x → d (at_ + Z.of_nat j) = x.
Proof.
  intros Hd <- Hj. apply Hd; [lia|]. replace (Z.to_nat (Z.of_nat (length pre) + Z.of_nat j)) with (length pre + j)%nat by lia.
  rewrite lookup_app_r, lookup_app_l by (first [lia | pose proof (lookup_lt_Some _ _ _ Hj); lia]).
  by replace (length pre + j - length pre)%nat with j by lia.
Qed.

Lemma card_sectors d blk n pre l post :
  on_card d (pre ++ l ++ post) → Z.of_nat (length pre) = blk * 512 → 0 ≤ n → Z.of_nat (length l) ≤ n * 512 →
  ∃ r, bios_sd_read n blk d = l ++ r.
Proof.
  intros Hd Hp Hn Hl. exists (drop (length l) (bios_sd_read n blk d)).
  rewrite <- (take_drop (length l) (bios_sd_read n blk d)) at 1. f_equal. apply list_eq. intros j.
  destruct (decide (j < length l)%nat) as [Hj|Hj].
  - destruct (lookup_lt_is_Some_2 l j Hj) as [x Hx]. rewrite lookup_take_lt, sd_read_lookup, decide_True by (unfold SECTOR_SIZE; lia).
    rewrite Hx. f_equal. by eapply card_piece.
  - rewrite lookup_take_ge, lookup_ge_None_2 by lia. done.
Qed.

Lemma infos_lookup start gs i g :
  gs !! i = Some g → ∃ pre post, all_bytes gs = pre ++ pg_bytes g ++ post ∧
    infos start gs !! i = Some (info_of (start + Z.of_nat (length pre)) g).
Proof.
  revert start i. induction gs as [|g0 gs IH]; intros start [|i] Hi; try done; cbn [lookup list_lookup] in Hi.
  - injection Hi as ->. exists [], (all_bytes gs). by rewrite Z.add_0_r.
  - destruct (IH (start + Z.of_nat (length (pg_bytes g0))) i Hi) as (pre & post & E & Ei).
    exists (pg_bytes g0 ++ pre), post. unfold all_bytes in *. cbn [fmap list_fmap concat]. rewrite E, <- app_assoc. split; [done|].
    change (infos start (g0 :: gs) !! S i) with (infos (start + Z.of_nat (length (pg_bytes g0))) gs !! i). rewrite Ei. do 2 f_equal. rewrite length_app. lia.
Qed.

Lemma parse_program_wf f g :
  parse_program f = Some g → (length (pg_name g) < 16)%nat ∧ (0 ∉ pg_name g) ∧ 0 ≤ pg_memsz g < 2 ^ 31 ∧ 0 ≤ pg_entry g < 2 ^ 64.
Proof.
  unfold parse_program. destruct (parse_elf f.2) as [[eh phs]|]; [|done]. cbn [mbind option_bind]. destruct phs as [|ph [|]]; [done| |done].
  destruct (_ && _) eqn:Ec; [|done]. intros [= <-].
  apply andb_true_iff in Ec as [[[[[[[H1%bool_decide_eq_true H2%bool_decide_eq_true]%andb_true_iff H3]%andb_true_iff
    H4]%andb_true_iff H5%Z.leb_le]%andb_true_iff H6%Z.ltb_lt]%andb_true_iff H7%Z.leb_le]%andb_true_iff H8%Z.ltb_lt]. done.
Qed.

Lemma mapM_program files gs :
  mapM parse_program files = Some gs → length gs = length files ∧
    Forall (fun g => (length (pg_name g) < 16)%nat ∧ (0 ∉ pg_name g) ∧ 0 ≤ pg_memsz g < 2 ^ 31 ∧ 0 ≤ pg_entry g < 2 ^ 64) gs.
Proof.
  intros Hg. apply mapM_Some in Hg. induction Hg as [|f g files gs Hf Hg [IH1 IH2]]; [done|].
  cbn [length]. split; [by rewrite IH1|]. constructor; [by eapply parse_program_wf | done].
Qed.

Lemma name_field_length nm : (length nm < 16)%nat → length (name_field nm) = 16%nat.
Proof. intros Hn. unfold name_field. rewrite length_app, length_replicate. lia. Qed.

Lemma name_field_name nm : (length nm < 16)%nat → 0 ∉ nm → upto_nul (name_field nm) = nm.
Proof.
  intros Hn H0. unfold name_field. assert (∃ k, (16 - length nm)%nat = S k) as [k ->] by (exists (15 - length nm)%nat; lia). clear Hn.
  induction nm as [|x nm IH]; [done|]. apply not_elem_of_cons in H0 as [Hx H0]. cbn. rewrite (proj2 (Z.eqb_neq x 0)) by congruence.
  f_equal. by apply IH.
Qed.

Lemma infos_wf start gs :
  Forall (fun g => (length (pg_name g) < 16)%nat ∧ (0 ∉ pg_name g) ∧ 0 ≤ pg_memsz g < 2 ^ 31 ∧ 0 ≤ pg_entry g < 2 ^ 64) gs →
  0 ≤ start → start + Z.of_nat (length (all_bytes gs)) < 2 ^ 31 → Forall info_wf (infos start gs).
Proof.
  intros Hg. revert start. induction Hg as [|g gs (H1 & _ & H3 & H4) Hg IH]; intros start H0 Hb; [constructor|].
  unfold all_bytes in Hb. cbn [fmap list_fmap concat] in Hb. rewrite length_app in Hb. constructor.
  - split; cbn; try lia. by apply name_field_length.
  - apply IH; [lia | unfold all_bytes; lia].
Qed.

Lemma infos_names start gs :
  Forall (fun g => (length (pg_name g) < 16)%nat ∧ (0 ∉ pg_name g) ∧ 0 ≤ pg_memsz g < 2 ^ 31 ∧ 0 ≤ pg_entry g < 2 ^ 64) gs →
  (fun t => upto_nul (ti_name t)) <$> infos start gs = pg_name <$> gs.
Proof.
  intros Hg. revert start. induction Hg as [|g gs (H1 & H2 & _) Hg IH]; intros start; [done|].
  cbn [infos fmap list_fmap info_of ti_name]. rewrite (name_field_name _ H1 H2). f_equal. apply IH.
Qed.

Lemma find_task_at name ts i t :
  ts !! i = Some t → upto_nul (ti_name t) = name → NoDup ((fun t => upto_nul (ti_name t)) <$> ts) → find_task name ts = Some t.
Proof.
  revert i. induction ts as [|t0 ts IH]; intros i Hi Hn Hnd; [done|]. cbn in Hnd. apply NoDup_cons in Hnd as [H0 Hnd].
  cbn [find_task]. destruct i as [|i]; [injection Hi as ->; by rewrite bool_decide_eq_true_2|]. cbn in Hi.
  rewrite bool_decide_eq_false_2; [by eapply IH|]. intros E. apply H0. rewrite E, <- Hn.
  apply list_elem_of_fmap. exists t. split; [done|]. by eapply list_elem_of_lookup_2.
Qed.

(** The image that the builder makes of a boot block, a kernel and programs. *)
Lemma create_image_run bootf kernelf files boot kernel gs :
  parse_boot bootf = Some boot → parse_kernel kernelf = Some kernel → mapM parse_program files = Some gs →
  (length files ≤ TASK_MAXNUM)%nat → 512 + Z.of_nat (length kernel) + Z.of_nat (length (all_bytes gs)) < 512 * 32000 →
  let start := 512 + Z.of_nat (length kernel) in
  let A := round_up (start + Z.of_nat (length (all_bytes gs))) in
  ∃ l hdr swap z rest, create_image ((str "bootblock", bootf) :: (str "main", kernelf) :: files) = Some l ∧
    l = header (A / 512) (40 * Z.of_nat (length files)) (Z.of_nat (length files)) swap (Z.of_nat (length kernel)) hdr ++
      (kernel ++ all_bytes gs) ++ z ++ concat (enc_info <$> infos start gs) ++ rest ∧
    length hdr = 512%nat ∧ 512 + Z.of_nat (length (kernel ++ all_bytes gs)) + Z.of_nat (length z) = A ∧ A mod 512 = 0 ∧ 0 ≤ A / 512 < 2 ^ 15.
Proof.
  intros Hbt Hk Hg Hn Hsz start A. destruct (mapM_program _ _ Hg) as [Hlen Hwf].
  destruct (add_boot_run bootf boot (replicate TASK_MAXNUM empty_info) Hbt) as [R0 Hb].
  set (hdr := boot ++ replicate (512 - length boot) 0) in *.
  assert (length hdr = 512%nat) as Hh by (unfold hdr; rewrite length_app, length_replicate; lia).
  set (s0 := mk_istate hdr _ 0 0) in R0. destruct (add_kernel_run kernelf kernel s0 Hk eq_refl eq_refl) as (memsz & Hm & Hkm & R1).
  set (s1 := mk_istate _ _ _ _) in R1. assert (phyaddr s1 = start) as E1 by (unfold phyaddr, start; cbn; rewrite length_app, Hh; lia).
  pose proof (add_tasks_run files gs [] s1 Hg) as R2. rewrite E1 in R2. cbn [length app] in R2.
  specialize (R2 ltac:(cbn [s1 taskinfo s0]; by rewrite Nat.sub_0_r) ltac:(lia) ltac:(lia)). set (s2 := mk_istate _ _ _ _) in R2.
  assert (take (length files) (taskinfo s2) = infos start gs) as Et.
  { cbn [s2 taskinfo]. rewrite take_app_length' by (rewrite infos_length; lia). done. }
  assert (phyaddr s2 = start + Z.of_nat (length (all_bytes gs))) as E2.
  { unfold phyaddr, start. cbn [s2 s1 s0 img]. rewrite !length_app, Hh. lia. }
  destruct (write_img_info_run (length files) s2 hdr (kernel ++ all_bytes gs)) as (s3 & swap & z & rest & R3 & Ei & HA & HAm & HA2).
  { cbn [s2 s1 s0 img]. by rewrite <- app_assoc. } { done. } { done. }
  { cbn [s2 taskinfo]. rewrite length_app, infos_length. lia. }
  { rewrite Et. eapply Forall_impl; [apply (infos_wf start gs Hwf); unfold start; lia|]. by intros t []. }
  { rewrite E2. unfold start. lia. } { cbn [s2 s1 nbytes_kernel]. unfold OS_LIMIT in *. lia. } { cbn [s2 s1 nbytes_kernel_memsz]. lia. }
  rewrite E2 in *. fold A in Ei, HA, HAm, HA2. rewrite Et in Ei. change (nbytes_kernel s2) with (Z.of_nat (length kernel)) in Ei.
  exists (img s3), hdr, swap, z, rest. split_and!; [|exact Ei | exact Hh | exact HA | exact HAm | lia | lia].
  unfold create_image. cbn [add_files]. rewrite R0. cbn [mbind option_bind]. rewrite R1. cbn [mbind option_bind].
  change (add_files 2 files s1) with (add_files (2 + 0) files s1). rewrite R2. cbn [mbind option_bind length].
  replace (S (S (length files)) - 2)%nat with (length files) by lia. by rewrite R3.
Qed.

(** What the boot code finds on a card with such an image. *)
Lemma boot_run d start swap hdr kernel gs z rest n :
  let A := round_up (512 + Z.of_nat (length kernel) + Z.of_nat (length (all_bytes gs))) in
  on_card d (header (A / 512) (40 * Z.of_nat n) (Z.of_nat n) swap (Z.of_nat (length kernel)) hdr ++
    (kernel ++ all_bytes gs) ++ z ++ concat (enc_info <$> infos start gs) ++ rest) →
  length hdr = 512%nat → 512 + Z.of_nat (length (kernel ++ all_bytes gs)) + Z.of_nat (length z) = A → A mod 512 = 0 → 0 ≤ A / 512 < 2 ^ 15 →
  n = length gs → (n ≤ TASK_MAXNUM)%nat → Z.of_nat (length kernel) < 2 ^ 31 → Forall info_wf (infos start gs) →
  boot_kernel d = kernel ∧ init_task_info d = infos start gs.
Proof.
  intros A Hd Hh HA HAm HA2 Hn Hmax Hk Hwf. unfold TASK_MAXNUM in Hmax. set (H := header _ _ _ _ _ _) in Hd.
  destruct (header_fields (A / 512) (40 * Z.of_nat n) (Z.of_nat n) swap (Z.of_nat (length kernel)) hdr Hh) as (F1 & F2 & F3 & F4);
    [lia.. |]. fold H in F1, F2, F3, F4. pose proof (header_length (A / 512) (40 * Z.of_nat n) (Z.of_nat n) swap (Z.of_nat (length kernel)) hdr Hh) as HH. fold H in HH.
  assert (bios_sd_read 1 0 d = H) as E0.
  { destruct (card_sectors d 0 1 [] H _ Hd) as [r Er]; [done | lia | rewrite HH; lia |].
    assert (length (bios_sd_read 1 0 d) = 512%nat) as El by apply sd_read_length. rewrite Er, length_app, HH in El.
    destruct r; [by rewrite Er, app_nil_r | cbn in El; lia]. }
  assert (boot_os_size d = Z.of_nat (length kernel)) as Eos by (unfold boot_os_size; rewrite E0, F4; apply i32_fits; lia).
  assert (boot_half TASKINFO_SIZE_LOC d = 40 * Z.of_nat n) as Esz by (unfold boot_half; rewrite E0, F2; apply i16_fits; lia).
  assert (boot_half TASKINFO_START_LOC d = A / 512) as Est by (unfold boot_half; rewrite E0, F1; apply i16_fits; lia).
  assert (boot_half TASKINFO_TASKNUM_LOC d = Z.of_nat n) as Enum by (unfold boot_half; rewrite E0, F3; apply i16_fits; lia).
  assert (∀ x, 0 ≤ x → x ≤ (x + 511) / 512 * 512) as Hup.
  { intros x Hx. pose proof (Z.div_mod (x + 511) 512 ltac:(lia)). pose proof (Z.mod_pos_bound (x + 511) 512 ltac:(lia)). lia. }
  assert (∀ x, 0 ≤ x → 0 ≤ (x + 511) / 512) as Hpos by (intros x Hx; apply Z.div_pos; lia).
  split.
  - destruct (boot_kernel_sectors d) as (m & Hm & ->); [lia|]. rewrite Eos in *. rewrite <- app_assoc in Hd.
    pose proof (Hpos (Z.of_nat (length kernel)) ltac:(lia)). pose proof (Hup (Z.of_nat (length kernel)) ltac:(lia)).
    destruct (card_sectors d 1 m H kernel _ Hd) as [r ->]; [rewrite HH; lia | lia | lia |]. by rewrite Nat2Z.id, take_app_length.
  - set (T := concat (enc_info <$> infos start gs)) in *.
    assert (Forall (fun t => length (ti_name t) = 16%nat) (infos start gs)) as Hnm by (eapply Forall_impl; [exact Hwf|]; by intros t []).
    assert (length T = (40 * n)%nat) as HT by (unfold T; by rewrite table_length, infos_length, <- Hn).
    rewrite !app_assoc in Hd. rewrite <- (app_assoc _ T rest) in Hd.
    destruct (card_sectors d (A / 512) ((40 * Z.of_nat n + 511) / 512) _ T rest Hd) as [r Er].
    { rewrite !length_app, HH in *. pose proof (Z.div_mod A 512 ltac:(lia)). lia. } { apply Hpos; lia. } { rewrite HT. pose proof (Hup (40 * Z.of_nat n)). lia. }
    unfold init_task_info, boot_taskinfo. rewrite Enum, Esz, Est, Er, Nat2Z.id.
    apply list_eq. intros i. rewrite list_lookup_fmap. destruct (decide (i < n)%nat) as [Hi|Hi].
    + rewrite lookup_seq_lt by done. cbn [fmap option_fmap option_map].
      destruct (lookup_lt_is_Some_2 (infos start gs) i) as [t Ht]; [rewrite infos_length; lia|].
      destruct (drop_table i _ t r Hnm Ht) as [r' Er']. fold T in Er'. rewrite Nat.add_0_l, Er', Ht, dec_enc_info; [done|].
      by eapply Forall_lookup_1.
    + rewrite lookup_seq_ge, lookup_ge_None_2; [done | rewrite infos_length; lia | lia].
Qed.


(** ** A card with two programs *)
Definition mk_elf (entry : Z) (data : list Z) : list Z :=
  [127; 69; 76; 70] ++ replicate 20 0 ++ le 8 entry ++ le 8 64 ++ replicate 14 0 ++ le 2 56 ++ le 2 1 ++ replicate 6 0 ++
  le 4 PT_LOAD ++ replicate 4 0 ++ le 8 120 ++ replicate 16 0 ++ le 8 (Z.of_nat (length data)) ++ le 8 (Z.of_nat (length data)) ++
  replicate 8 0 ++ data.
Definition demo_files : list (list Z * list Z) :=
  [(str "shell", mk_elf 65536 (seqZ 1 200)); (str "fly", mk_elf 69632 (replicate 600 7))].

