(* ===== verification/Shell.v ===== *)
(** * test/shell.c: the line editor of the shell

    Keys are edited into a buffer of 80 bytes and echoed; after every key the
    buffer is split into arguments, the arguments are given colours ([lint]), the
    words of the line are coloured on the screen ([render]) and the command is
    looked up. The model ends ([None]) where the program would read or write
    beyond a buffer. *)

From S2P Require Import Prelude Bytes CString Printk Etc.

Definition BUFFER_LEN : nat := 80.
Definition ARGUMENT_LEN : nat := 16.
Definition BACKSPACE : Z := 127.
Definition BACKSPACE2 : Z := 8.
Definition CTRL_U : Z := 21.
Definition CTRL_W : Z := 23.
Definition CTRL_N : Z := 14.
Definition CTRL_P : Z := 16.
Definition NEWLINE : Z := 13.
Definition TAB : Z := 9.

Definition COLOR_RED : Z := 31.
Definition COLOR_GREEN : Z := 32.
Definition COLOR_YELLOW : Z := 33.
Definition COLOR_BLUE : Z := 34.
Definition COLOR_RESET : Z := 0.
Definition prompt : list Z := str "> root@UCAS_OS: ".

(** The functions [subcmd_linter] points to: [subcmd_lint], the four that mark
    one flag as well, and those of time and watch. *)
Inductive linter_t := LintPlain | LintFlag (flag : list Z) | LintTime | LintWatch.

(** Names and linters of [COMMAND_TABLE]. *)
Definition COMMAND_TABLE : list (list Z * linter_t) :=
  (fun c => (str c.1, c.2)) <$>
  [("echo", LintPlain); ("ts", LintPlain); ("ps", LintPlain); ("exec", LintPlain); ("kill", LintPlain); ("clear", LintPlain);
   ("taskset", LintFlag (str "-p")); ("top", LintPlain); ("info", LintPlain); ("set_height", LintPlain);
   ("help", LintFlag (str "-a")); ("exit", LintPlain); ("nice", LintPlain); ("free", LintFlag (str "-h")); ("time", LintTime);
   ("watch", LintWatch); ("mkfs", LintPlain); ("statfs", LintPlain); ("mkdir", LintPlain); ("rmdir", LintPlain); ("cd", LintPlain);
   ("ln", LintPlain); ("rm", LintPlain); ("ls", LintFlag (str "-l")); ("touch", LintPlain); ("cat", LintPlain);
   (".keycode", LintPlain)]%string.
Definition COMMANDS : list (list Z) := fst <$> COMMAND_TABLE.

Definition isalpha (ch : Z) : bool := ((65 <=? ch) && (ch <=? 90)) || ((97 <=? ch) && (ch <=? 122)).
Definition isdigit (ch : Z) : bool := (48 <=? ch) && (ch <=? 57).
Definition isspace (ch : Z) : bool :=
  (ch =? 32) || (ch =? 9) || (ch =? 10) || (ch =? 11) || (ch =? 12) || (ch =? 13).
(** The characters of [issymbol]; 34 is the double quote. *)
Definition symbols : list Z := str "~!@#$%^&*()-_=+[{]}\|;:'" ++ [34] ++ str ",<.>/?".
Definition issymbol (ch : Z) : bool := bool_decide (ch ∈ symbols).

(** ** [parse]: arguments as offsets into the buffer *)
Fixpoint parse_loop (n i : nat) (raw : list Z) (space : bool) (argv : list nat) : option (list Z * list nat) :=
  match n with
  | O => Some (raw, argv)
  | S n =>
      ch ← raw !! i;
      if ch =? 0 then Some (raw, argv)
      else if ch =? 32 then parse_loop n (S i) (<[i := 0]> raw) true argv
      else if space then
        if (length argv <? ARGUMENT_LEN)%nat then parse_loop n (S i) raw false (argv ++ [i]) else None
      else parse_loop n (S i) raw false argv
  end.
Definition parse (raw : list Z) (maxn : nat) : option (list Z * list nat) := parse_loop maxn 0 raw true [].
(** The string an argument points to. *)
Definition arg_string (raw : list Z) (i : nat) : list Z := upto_nul (drop i raw).

(** ** [find] and [complete] *)
Fixpoint find_loop (names : list (list Z)) (i : nat) (name : list Z) : option nat :=
  match names with
  | [] => None
  | n :: names => if bool_decide (name = n) then Some i else find_loop names (S i) name
  end.
Definition find (name : option (list Z)) : option nat := name ≫= find_loop COMMANDS 0.

Fixpoint complete_loop (names : list (list Z)) (start : list Z) (len : Z) (matched : option (list Z)) : option (list Z) :=
  match names with
  | [] => matched
  | n :: names =>
      if strncmp (bytes start) (bytes n) len =? 0 then
        match matched with
        | Some _ => None
        | None => complete_loop names start len (Some (drop (Z.to_nat len) n))
        end
      else complete_loop names start len matched
  end.
Definition complete (buffer : list Z) (pos : nat) : option (list Z) := complete_loop COMMANDS buffer (Z.of_nat pos) None.

(** ** [lint]

    [dest] and [argv] always point to the same position of [color_buffer] and of
    the array of arguments, here [o]; the entries of that array behind the
    [argc] arguments are null. *)
Definition set_dest (i : nat) (c : Z) (colors : list Z) : option (list Z) :=
  if (i <? length colors)%nat then Some (<[i := c]> colors) else None.
(** The [memset] of [argc] entries of [dest]. *)
Fixpoint clear_dest (argc o : nat) (colors : list Z) : option (list Z) :=
  match argc with O => Some colors | S n => colors ← set_dest o 0 colors; clear_dest n (S o) colors end.
Definition OPS : list (list Z) := str <$> ["&"; "&&"; "||"; "|"]%string.
Fixpoint subcmd_lint (argc o : nat) (argv : list (list Z)) (colors : list Z) : option (list Z) :=
  match argc with
  | O => Some colors
  | S n =>
      w ← argv !! o;
      colors ← (if bool_decide (w ∈ OPS) then set_dest o COLOR_BLUE colors else Some colors);
      subcmd_lint n (S o) argv colors
  end.
(** [argc >= 1 && strcmp(flag, argv[0]) == 0] *)
Definition first_is (flag : list Z) (argc o : nat) (argv : list (list Z)) : bool :=
  (1 <=? argc)%nat && bool_decide (argv !! o = Some flag).

Fixpoint lint (fuel argc o : nat) (argv : list (list Z)) (colors : list Z) : option (list Z) :=
  match fuel with
  | O => None
  | S fuel =>
      colors ← clear_dest argc o colors;
      if (ARGUMENT_LEN <=? o)%nat then None else
      match find (argv !! o) with
      | None => colors ← set_dest o COLOR_RED colors; set_dest (S o) COLOR_RESET colors
      | Some k =>
          colors ← set_dest o COLOR_GREEN colors;
          let argc := (argc - 1)%nat in
          let o := S o in
          colors ← subcmd_lint argc o argv colors;
          match snd <$> COMMAND_TABLE !! k with
          | Some (LintFlag flag) => if first_is flag argc o argv then set_dest o COLOR_YELLOW colors else Some colors
          | Some LintTime =>
              if first_is (str "-g") argc o argv then
                colors ← set_dest o COLOR_YELLOW colors;
                if (1 <? argc)%nat then lint fuel (argc - 1) (o + 1) argv colors else Some colors
              else lint fuel argc o argv colors
          | Some LintWatch =>
              if first_is (str "-n") argc o argv then
                colors ← set_dest o COLOR_YELLOW colors;
                if (2 <? argc)%nat then lint fuel (argc - 2) (o + 2) argv colors else Some colors
              else lint fuel argc o argv colors
          | _ => Some colors
          end
      end
  end.
(** Every call of [lint] moves on in [argv]. *)
Definition lint_fuel : nat := S (S ARGUMENT_LEN).

(** ** [render]: the calls of [sys_screen_set_color], after the colours of the row
    were cleared *)
Fixpoint run_length (p : Z → bool) (l : list Z) : nat :=
  match l with [] => O | c :: l => if p c then S (run_length p l) else O end.
Definition blank_ch (c : Z) : bool := negb (c =? 0) && isspace c.
Definition word_ch (c : Z) : bool := negb (c =? 0) && negb (isspace c).
Definition prompt_len : Z := Z.of_nat (length prompt).

Fixpoint render_loop (n : nat) (buffer : list Z) (i arg_id : nat) (colors : list Z) : option (list (Z * Z * Z)) :=
  match n with
  | O => None
  | S n =>
      ch ← buffer !! i;
      if ch =? 0 then Some [] else
      let start := (i + run_length blank_ch (drop i buffer))%nat in
      ch ← buffer !! start;
      if ch =? 0 then Some [] else
      let end_ := (start + run_length word_ch (drop start buffer))%nat in
      _ ← buffer !! end_;
      c ← colors !! arg_id;
      rest ← render_loop n buffer (S end_) (S arg_id) colors;
      Some (if c =? 0 then rest else (Z.of_nat start + prompt_len, Z.of_nat end_ + prompt_len, c) :: rest)
  end.
Definition render (buffer colors : list Z) : option (list (Z * Z * Z)) := render_loop (S BUFFER_LEN) buffer 0 0 colors.

(** ** [readline] *)
Record lstate := mk_lstate {
  buffer : list Z;
  pos : nat;
  last_buffer : list Z;     (* static *)
  last_pos : nat;           (* static *)
  args_buffer : list Z;     (* static *)
  args : list nat;
  task : option nat;
  out : list Z;             (* what was printed *)
  color_buffer : list Z;
  shown : list (Z * Z * Z); (* the columns and colours set on the row *)
}.
Definition set_line (b : list Z) (p : nat) (o : list Z) (s : lstate) : lstate :=
  mk_lstate b p (last_buffer s) (last_pos s) (args_buffer s) (args s) (task s) (out s ++ o) (color_buffer s) (shown s).
Definition RUBOUT : list Z := [8; 32; 8].

(** [pos--; buffer[pos] = '\0'; printf("\b \b")], [n] times. *)
Fixpoint rub (n : nat) (s : lstate) : lstate :=
  match n with
  | O => s
  | S n => rub n (set_line (<[(pos s - 1)%nat := 0]> (buffer s)) (pos s - 1) RUBOUT s)
  end.
(** The characters before the cursor that are no blanks. *)
Fixpoint word_before (n : nat) (b : list Z) : nat :=
  match n with
  | O => O
  | S k => if isspace (default 0 (b !! k)) then O else S (word_before k b)
  end.
(** [buffer[pos++] = ch; printf("%c", ch)]. *)
Definition type_ch (ch : Z) (s : lstate) : option lstate :=
  if (pos s <? BUFFER_LEN)%nat then Some (set_line (<[pos s := ch]> (buffer s)) (S (pos s)) [ch] s) else None.
Fixpoint type_all (l : list Z) (s : lstate) : option lstate :=
  match l with [] => Some s | ch :: l => s ← type_ch ch s; type_all l s end.

(** CTRL_N and CTRL_P exchange the line with the previous one. *)
Definition history (s : lstate) : lstate :=
  mk_lstate (last_buffer s) (last_pos s) (buffer s) (pos s) (args_buffer s) (args s) (task s)
    (out s ++ concat (replicate (pos s) RUBOUT) ++ take (last_pos s) (last_buffer s)) (color_buffer s) (shown s).

Definition key (ch : Z) (s : lstate) : option lstate :=
  if (ch =? BACKSPACE) || (ch =? BACKSPACE2) then Some (if (pos s =? 0)%nat then s else rub 1 s)
  else if ch =? CTRL_U then Some (rub (pos s) s)
  else if ch =? CTRL_W then
    Some (if (pos s =? 0)%nat then s
          else let s := rub 1 s in rub (word_before (pos s) (buffer s)) s)
  else if (ch =? CTRL_N) || (ch =? CTRL_P) then Some (history s)
  else if ch =? TAB then
    match complete (buffer s) (pos s) with
    | Some c => type_all (c ++ [32]) s
    | None => Some s
    end
  else if isalpha ch || isdigit ch || isspace ch || issymbol ch then type_ch ch s else Some s.

(** The end of the loop's body: [strcpy(args_buffer, buffer)], [parse], [lint],
    [render], [find]. *)
Definition after_key (s : lstate) : option lstate :=
  let line := upto_nul (buffer s) in
  if (length line <? BUFFER_LEN)%nat then
    '(raw, argv) ← parse (overlay (line ++ [0]) (args_buffer s)) BUFFER_LEN;
    let strings := arg_string raw <$> argv in
    colors ← lint lint_fuel (length argv) 0 strings (color_buffer s);
    spans ← render (buffer s) colors;
    Some (mk_lstate (buffer s) (pos s) (last_buffer s) (last_pos s) raw argv (find (head strings)) (out s) colors spans)
  else None.

Fixpoint keys (ks : list Z) (s : lstate) : option lstate :=
  match ks with [] => Some s | k :: ks => s ← key k s; s ← after_key s; keys ks s end.

(** The keys up to [NEWLINE]; the statics of the last call are in [s]. *)
Definition readline (ks : list Z) (s : lstate) : option lstate :=
  s ← keys ks (mk_lstate (replicate BUFFER_LEN 0) 0 (last_buffer s) (last_pos s) (replicate BUFFER_LEN 0) [] None (out s)
    (replicate ARGUMENT_LEN 0) (shown s));
  Some (mk_lstate (buffer s) (pos s) (overlay (upto_nul (buffer s) ++ [0]) (last_buffer s)) (pos s) (args_buffer s) (args s) (task s)
    (out s ++ [10]) (color_buffer s) (shown s)).
Definition arguments (s : lstate) : list (list Z) := arg_string (args_buffer s) <$> args s.
Definition boot_shell : lstate := mk_lstate (replicate BUFFER_LEN 0) 0 (replicate BUFFER_LEN 0) 0 (replicate BUFFER_LEN 0) [] None [] (replicate ARGUMENT_LEN 0) [].
