(* ===== verification/ShellTheorems.v ===== *)
(** * The shell's line editor keeps the line

    The editor is compared with an abstract one that keeps only the line, as a
    list of characters. *)

From S2P Require Import Prelude Bytes CString Printk Etc Shell.

(** ** The abstract editor *)

Definition printable (ch : Z) : bool := isalpha ch || isdigit ch || isspace ch || issymbol ch.
(** The commands that begin with [l]. *)
Definition completions (l : list Z) : list (list Z) := filter (λ n, l `prefix_of` n) COMMANDS.
Fixpoint skip_word (l : list Z) : list Z :=
  match l with [] => [] | c :: l => if isspace c then c :: l else skip_word l end.
(** [edit k l]: the line after key [k]. *)
Definition edit (l : list Z) (k : Z) : list Z :=
  if (k =? BACKSPACE) || (k =? BACKSPACE2) then removelast l
  else if k =? CTRL_U then []
  else if k =? CTRL_W then rev (skip_word (tail (rev l)))
  else if k =? TAB then match completions l with [n] => n ++ [32] | _ => l end
  else if printable k then l ++ [k] else l.
Definition typed (ks : list Z) : list Z := fold_left edit ks [].

(** The blank-separated words; [sp] says whether the character before [l] is a
    blank (or the line begins here). *)
Fixpoint take_word (l : list Z) : list Z :=
  match l with [] => [] | c :: l => if c =? 32 then [] else c :: take_word l end.
Fixpoint words_from (sp : bool) (l : list Z) : list (list Z) :=
  match l with
  | [] => []
  | c :: l => if c =? 32 then words_from true l else if sp then (c :: take_word l) :: words_from false l else words_from false l
  end.
Definition words (l : list Z) : list (list Z) := words_from true l.

(** A terminal line: the characters left of the cursor, last first, and those
    from the cursor on. *)
Definition glass := (list Z * list Z)%type.
Definition echo (t : glass) (ch : Z) : glass :=
  if ch =? 8 then match t.1 with [] => t | c :: l => (l, c :: t.2) end else (ch :: t.1, tail t.2).
Definition echoes (o : list Z) : glass := fold_left echo o ([], []).

(** ** [parse] *)

Definition zap (l : list Z) : list Z := (λ c, if c =? 32 then 0 else c) <$> l.
Fixpoint starts (i : nat) (sp : bool) (l : list Z) : list nat :=
  match l with
  | [] => []
  | c :: l => if c =? 32 then starts (S i) true l else if sp then i :: starts (S i) false l else starts (S i) false l
  end.

Definition no_nul (l : list Z) : Prop := Forall (λ c, c ≠ 0) l.

Lemma parse_loop_run n pre l rest sp argv :
  no_nul l → (length l < n)%nat → (length (argv ++ starts (length pre) sp l) ≤ ARGUMENT_LEN)%nat →
  parse_loop n (length pre) (pre ++ l ++ 0 :: rest) sp argv
  = Some (pre ++ zap l ++ 0 :: rest, argv ++ starts (length pre) sp l).
Proof.
  intros Hl. revert n pre sp argv. induction Hl as [|c l Hc Hl IH]; intros n pre sp argv Hn Ha;
    (destruct n as [|n]; [simpl in Hn; lia|]); cbn [parse_loop starts app] in *.
  - rewrite list_lookup_middle by done. simpl. by rewrite app_nil_r.
  - rewrite (list_lookup_middle _ _ c) by done. simpl. rewrite (proj2 (Z.eqb_neq c 0)) by done.
    assert (∀ d, pre ++ d :: l ++ 0 :: rest = (pre ++ [d]) ++ l ++ 0 :: rest) as Ed by (intros d; by rewrite <- app_assoc).
    assert (∀ d : Z, S (length pre) = length (pre ++ [d])) as Ep by (intros d; rewrite length_app; simpl; lia).
    simpl in Hn. destruct (c =? 32) eqn:E32.
    + rewrite insert_app_r_alt, Nat.sub_diag by done. simpl. rewrite (Ed 0), (Ep 0) in *.
      rewrite IH by (try done; lia). do 2 f_equal. by rewrite <- app_assoc.
    + rewrite (Ed c), (Ep c) in *. destruct sp.
      * rewrite (proj2 (Nat.ltb_lt _ _)) by (rewrite length_app in Ha; simpl in Ha; lia).
        rewrite IH by (try lia; rewrite <- app_assoc; simpl; rewrite <- (Ep c) in *; exact Ha).
        rewrite <- !app_assoc. simpl. by rewrite <- (Ep c).
      * rewrite IH by (try done; lia). do 2 f_equal. by rewrite <- app_assoc.
Qed.

Lemma zap_word l rest : no_nul l → upto_nul (zap l ++ 0 :: rest) = take_word l.
Proof.
  induction 1 as [|c l Hc Hl IH]; [done|]. simpl.
  destruct (c =? 32) eqn:E; [done|]. rewrite (proj2 (Z.eqb_neq c 0)) by done. f_equal. exact IH.
Qed.

Lemma starts_words pre l rest sp :
  no_nul l → arg_string (pre ++ zap l ++ 0 :: rest) <$> starts (length pre) sp l = words_from sp l.
Proof.
  intros Hl. revert pre sp. induction Hl as [|c l Hc Hl IH]; intros pre sp; [done|]. cbn [starts words_from].
  assert (∀ d : Z, S (length pre) = length (pre ++ [d])) as Ep by (intros d; rewrite length_app; simpl; lia).
  assert (∀ d, pre ++ d :: zap l ++ 0 :: rest = (pre ++ [d]) ++ zap l ++ 0 :: rest) as Ed by (intros d; by rewrite <- app_assoc).
  destruct (c =? 32) eqn:E32.
  - cbn [zap fmap list_fmap app]. rewrite E32. rewrite (Ep 0). fold (zap l). rewrite Ed. apply IH.
  - assert (zap (c :: l) = c :: zap l) as -> by (cbn; by rewrite E32). cbn [app]. rewrite Ed. destruct sp.
    + rewrite fmap_cons, (Ep c), IH. f_equal. unfold arg_string.
      rewrite <- Ed, drop_app_length. cbn [upto_nul]. rewrite (proj2 (Z.eqb_neq c 0)) by done.
      by rewrite zap_word.
    + rewrite (Ep c). apply IH.
Qed.

Lemma starts_length i sp l : length (starts i sp l) = length (words_from sp l).
Proof. revert i sp. induction l as [|c l IH]; intros i sp; [done|]. simpl. destruct (c =? 32), sp; simpl; by rewrite ?IH. Qed.

Lemma parse_words l rest :
  no_nul l → (length l < BUFFER_LEN)%nat → (length (words l) ≤ ARGUMENT_LEN)%nat →
  ∃ raw argv, parse (l ++ 0 :: rest) BUFFER_LEN = Some (raw, argv) ∧ arg_string raw <$> argv = words l.
Proof.
  intros Hl Hn Ha. unfold parse.
  rewrite (parse_loop_run _ [] l rest true []) by (try done; simpl; by rewrite starts_length).
  eexists _, _. split; [done|]. apply (starts_words [] l rest true Hl).
Qed.

(** ** [find] and [complete] *)

Lemma COMMANDS_distinct : NoDup COMMANDS.
Proof. apply (bool_decide_unpack _). vm_compute. exact I. Qed.
Lemma COMMANDS_glyphs : Forall (Forall (λ c, c ≠ 0 ∧ c ≠ 8 ∧ isspace c = (c =? 32))) COMMANDS.
Proof. apply (bool_decide_unpack _). vm_compute. exact I. Qed.

Lemma find_loop_spec names k name i :
  NoDup names → find_loop names k name = Some i ↔ (k ≤ i)%nat ∧ names !! (i - k)%nat = Some name.
Proof.
  intros Hn. revert k. induction Hn as [|n names Hnin Hn IH]; intros k; cbn [find_loop].
  { split; [done | by intros [_ [=]]]. }
  case_bool_decide as E; [subst|rewrite IH].
  - split; [intros [= ->]; by rewrite Nat.sub_diag|]. intros [Hk Hl]. f_equal.
    destruct (i - k)%nat as [|j] eqn:Ej; [lia|]. simpl in Hl.
    exfalso. apply Hnin. by eapply list_elem_of_lookup_2.
  - split; intros [Hk Hl].
    + split; [lia|]. by replace (i - k)%nat with (S (i - S k)) by lia.
    + destruct (i - k)%nat as [|j] eqn:Ej; [simpl in Hl; congruence|]. split; [lia|].
      by replace (i - S k)%nat with j by lia.
Qed.
Lemma find_spec name i : find (Some name) = Some i ↔ COMMANDS !! i = Some name.
Proof.
  unfold find. change (Some name ≫= find_loop COMMANDS 0) with (find_loop COMMANDS 0 name).
  rewrite find_loop_spec by apply COMMANDS_distinct.
  rewrite Nat.sub_0_r. split; [by intros [] | intros; split; [lia | done]].
Qed.

Lemma upto_nul_no_nul l : no_nul l → upto_nul l = l.
Proof. induction 1 as [|c l Hc Hl IH]; [done|]. simpl. rewrite (proj2 (Z.eqb_neq c 0)) by done. by rewrite IH. Qed.
Lemma upto_nul_line l rest : no_nul l → upto_nul (l ++ 0 :: rest) = l.
Proof. induction 1 as [|c l Hc Hl IH]; [done|]. simpl. rewrite (proj2 (Z.eqb_neq c 0)) by done. by rewrite IH. Qed.

Lemma strncmp_prefix l rest n :
  no_nul l → no_nul n → Z.of_nat (length l) < 2 ^ 32 →
  strncmp (bytes (l ++ rest)) (bytes n) (Z.of_nat (length l)) = 0 ↔ l `prefix_of` n.
Proof.
  intros Hl Hn Hb. rewrite strncmp_canon by lia. unfold canon. rewrite Nat2Z.id, take_app_length.
  rewrite !upto_nul_no_nul by (try done; by apply Forall_take).
  split; [intros ->; by apply prefix_take|]. intros [m ->]. by rewrite take_app_length.
Qed.

Lemma complete_loop_spec names l rest matched :
  Forall no_nul names → no_nul l → Z.of_nat (length l) < 2 ^ 32 →
  complete_loop names (l ++ rest) (Z.of_nat (length l)) matched
  = match matched, filter (λ n, l `prefix_of` n) names with
    | Some m, [] => Some m
    | None, [n] => Some (drop (length l) n)
    | _, _ => None
    end.
Proof.
  intros Hns Hl Hb. revert matched. induction Hns as [|n names Hn Hns IH]; intros matched; cbn [complete_loop].
  { by destruct matched. }
  rewrite filter_cons. pose proof (strncmp_prefix l rest n Hl Hn Hb) as Hp.
  destruct (decide (l `prefix_of` n)) as [Hd|Hd].
  - rewrite (proj2 (Z.eqb_eq _ _)) by tauto. destruct matched; [done|]. rewrite IH, Nat2Z.id.
    by destruct (filter _ names).
  - rewrite (proj2 (Z.eqb_neq _ _)) by tauto. apply IH.
Qed.

(** ** [lint] *)

(** The colour of the word at [o]: green for a command. *)
Definition word_color (name : option (list Z)) : Z := match find name with Some _ => COLOR_GREEN | None => COLOR_RED end.
(** [c'] has an entry for every argument and agrees with [c] before [o]. *)
Definition color_extends (o : nat) (c c' : list Z) : Prop := length c' = length c ∧ ∀ j, (j < o)%nat → c' !! j = c !! j.

Lemma color_extends_trans o o' c c' c'' : (o ≤ o')%nat → color_extends o c c' → color_extends o' c' c'' → color_extends o c c''.
Proof. intros Ho [L1 H1] [L2 H2]. split; [congruence|]. intros j Hj. rewrite H2 by lia. by apply H1. Qed.
Lemma color_extends_last o c c' x : color_extends (S o) c c' → c !! o = Some x → c' !! o = Some x.
Proof. intros [_ H] Hx. rewrite H by lia. done. Qed.

Lemma set_dest_ok i x c : (i < length c)%nat → ∃ c', set_dest i x c = Some c' ∧ color_extends i c c' ∧ c' !! i = Some x.
Proof.
  intros Hi. unfold set_dest. rewrite (proj2 (Nat.ltb_lt _ _)) by done. eexists. split; [done|]. split.
  - split; [apply length_insert|]. intros j Hj. by rewrite list_lookup_insert_ne by lia.
  - by apply list_lookup_insert_eq.
Qed.
Lemma clear_dest_ok n o c : (o + n ≤ length c)%nat → ∃ c', clear_dest n o c = Some c' ∧ color_extends o c c'.
Proof.
  revert o c. induction n as [|n IH]; intros o c Hn; cbn [clear_dest]; [by exists c|].
  destruct (set_dest_ok o 0 c) as (c1 & -> & E1 & _); [lia|]. cbn [mbind option_bind].
  destruct (IH (S o) c1) as (c2 & -> & E2); [destruct E1; lia|]. exists c2. split; [done|].
  by apply (color_extends_trans o (S o) c c1); [lia|..].
Qed.
Lemma subcmd_lint_ok n o argv c :
  (o + n = length argv)%nat → (length argv ≤ length c)%nat → ∃ c', subcmd_lint n o argv c = Some c' ∧ color_extends o c c'.
Proof.
  revert o c. induction n as [|n IH]; intros o c Hn Hc; cbn [subcmd_lint]; [by exists c|].
  destruct (lookup_lt_is_Some_2 argv o) as [w ->]; [lia|]. cbn [mbind option_bind].
  assert (∃ c1, (if bool_decide (w ∈ OPS) then set_dest o COLOR_BLUE c else Some c) = Some c1 ∧ color_extends o c c1) as (c1 & -> & E1).
  { case_bool_decide; [|by exists c]. destruct (set_dest_ok o COLOR_BLUE c) as (c1 & ? & ? & _); [lia|]. by exists c1. }
  cbn [mbind option_bind]. destruct (IH (S o) c1) as (c2 & -> & E2); [lia|destruct E1; lia|].
  exists c2. split; [done|]. by apply (color_extends_trans o (S o) c c1); [lia|..].
Qed.

Lemma find_null : find None = None.
Proof. done. Qed.

(** What a call of [lint] at [o] with room for two more entries does. *)
Definition linted (o : nat) (argv : list (list Z)) (c : list Z) (r : option (list Z)) : Prop :=
  ∃ c', r = Some c' ∧ color_extends o c c' ∧ c' !! o = Some (word_color (argv !! o)).

(** The linters of the commands, given that [lint] works behind them. *)
Lemma linter_ok (again : nat → nat → list Z → option (list Z)) l argc o argv c :
  (o + argc = length argv)%nat → (o + argc < length c)%nat →
  (∀ argc' o' c', (o ≤ o')%nat → (o' + argc' = length argv)%nat → length c' = length c → linted o' argv c' (again argc' o' c')) →
  ∃ c', (match l with
         | Some (LintFlag flag) => if first_is flag argc o argv then set_dest o COLOR_YELLOW c else Some c
         | Some LintTime =>
             if first_is (str "-g") argc o argv then
               c ← set_dest o COLOR_YELLOW c; if (1 <? argc)%nat then again (argc - 1)%nat (o + 1)%nat c else Some c
             else again argc o c
         | Some LintWatch =>
             if first_is (str "-n") argc o argv then
               c ← set_dest o COLOR_YELLOW c; if (2 <? argc)%nat then again (argc - 2)%nat (o + 2)%nat c else Some c
             else again argc o c
         | _ => Some c
         end) = Some c' ∧ color_extends o c c'.
Proof.
  intros Hn Hc Ha. assert (∀ k, (1 ≤ k)%nat →
    ∃ c', (c ← set_dest o COLOR_YELLOW c; if (k <? argc)%nat then again (argc - k)%nat (o + k)%nat c else Some c) = Some c' ∧ color_extends o c c') as Hf.
  { intros k Hk. destruct (set_dest_ok o COLOR_YELLOW c) as (c1 & -> & E1 & _); [lia|]. cbn [mbind option_bind].
    destruct (k <? argc)%nat eqn:E; [|by exists c1]. apply Nat.ltb_lt in E.
    destruct (Ha (argc - k)%nat (o + k)%nat c1) as (c2 & -> & E2 & _); [lia|lia|apply E1|].
    exists c2. split; [done|]. by apply (color_extends_trans o (o + k) c c1); [lia|..]. }
  assert (∃ c', again argc o c = Some c' ∧ color_extends o c c') as Hp.
  { destruct (Ha argc o c) as (c1 & ? & ? & _); [done..|]. by exists c1. }
  destruct l as [[|flag| |]|]; try by exists c.
  - destruct (first_is flag argc o argv); [|by exists c].
    destruct (set_dest_ok o COLOR_YELLOW c) as (c1 & -> & E1 & _); [lia|]. by exists c1.
  - destruct (first_is _ argc o argv); [apply Hf; lia|done].
  - destruct (first_is _ argc o argv); [apply Hf; lia|done].
Qed.

Lemma lint_ok fuel argc o argv c :
  (o + argc = length argv)%nat → length c = ARGUMENT_LEN → (length argv + 2 ≤ ARGUMENT_LEN)%nat → (length argv < fuel + o)%nat →
  linted o argv c (lint fuel argc o argv c).
Proof.
  revert argc o c. induction fuel as [|fuel IH]; intros argc o c Hn Hc Hv Hf; [lia|]. cbn [lint].
  destruct (clear_dest_ok argc o c) as (c0 & -> & E0); [lia|]. cbn [mbind option_bind].
  assert (length c0 = ARGUMENT_LEN) as L0 by (destruct E0; congruence).
  rewrite (proj2 (Nat.leb_gt _ _)) by lia. unfold linted, word_color. destruct (find (argv !! o)) as [k|] eqn:Ef.
  - assert (o < length argv)%nat as Ho.
    { apply lookup_lt_is_Some_1. destruct (argv !! o) as [w|]; [by exists w|done]. }
    destruct (set_dest_ok o COLOR_GREEN c0) as (c1 & -> & E1 & G1); [lia|]. cbn [mbind option_bind].
    assert (length c1 = ARGUMENT_LEN) as L1 by (destruct E1; congruence).
    destruct (subcmd_lint_ok (argc - 1) (S o) argv c1) as (c2 & -> & E2); [lia|lia|]. cbn [mbind option_bind].
    assert (length c2 = ARGUMENT_LEN) as L2 by (destruct E2; congruence).
    destruct (linter_ok (λ argc o c, lint fuel argc o argv c) (snd <$> COMMAND_TABLE !! k) (argc - 1) (S o) argv c2)
      as (c3 & -> & E3); [lia|lia| |].
    { intros argc' o' c' Ho' Hn' Hc'. apply IH; [done|congruence|done|lia]. }
    exists c3. split; [done|]. split.
    + apply (color_extends_trans o o c c0); [lia|done|]. apply (color_extends_trans o (S o) c0 c1); [lia|done|].
      by apply (color_extends_trans (S o) (S o) c1 c2); [lia|..].
    + eapply color_extends_last; [exact E3|]. by eapply color_extends_last.
  - destruct (set_dest_ok o COLOR_RED c0) as (c1 & -> & E1 & G1); [lia|]. cbn [mbind option_bind].
    assert (length c1 = ARGUMENT_LEN) as L1 by (destruct E1; congruence).
    destruct (set_dest_ok (S o) COLOR_RESET c1) as (c2 & -> & E2 & _); [lia|].
    exists c2. split; [done|]. split; [|by eapply color_extends_last].
    apply (color_extends_trans o o c c0); [lia|done|]. by apply (color_extends_trans o (S o) c0 c1); [lia|..].
Qed.

(** ** [render] *)

Definition blanks (n : nat) : list Z := replicate n 0.
Definition blank_is_space (l : list Z) : Prop := Forall (λ c, isspace c = (c =? 32)) l.

Lemma run_length_app p a c b : Forall (λ x, p x = true) a → p c = false → run_length p (a ++ c :: b) = length a.
Proof. intros Ha Hc. induction Ha as [|x a Hx Ha IH]; simpl; [by rewrite Hc|]. rewrite Hx. by rewrite IH. Qed.

(** A line is blanks, then nothing or a first word. *)
Lemma first_word l :
  no_nul l → blank_is_space l →
  (∃ b, l = replicate b 32 ∧ words l = []) ∨
  (∃ b w rest, l = replicate b 32 ++ w ++ rest ∧ w ≠ [] ∧ Forall (λ x, word_ch x = true) w ∧
     words l = w :: words rest ∧ (rest = [] ∨ ∃ r, rest = 32 :: r)).
Proof.
  intros Hn Hb. induction Hb as [|c l Hc Hb IH]; [left; by exists 0%nat|].
  apply Forall_cons in Hn as [Hc0 Hn]. unfold words in *. cbn [words_from]. destruct (Z.eqb_spec c 32) as [->|E].
  - destruct (IH Hn) as [(b & -> & Hw)|(b & w & rest & -> & Hne & Hw & Hws & Hr)]; [left|right]; exists (S b); [done|].
    by exists w, rest.
  - right. exists 0%nat. clear IH. exists (c :: take_word l).
    assert (∃ rest, l = take_word l ++ rest ∧ Forall (λ x, word_ch x = true) (take_word l) ∧
      words_from false l = words_from true rest ∧ (rest = [] ∨ ∃ r, rest = 32 :: r)) as (rest & El & Hw & Hws & Hr).
    { induction Hb as [|d l Hd Hb IH]; [exists []; split; [done|]; split; [constructor|]; tauto|].
      apply Forall_cons in Hn as [Hd0 Hn]. cbn [take_word words_from]. destruct (Z.eqb_spec d 32) as [->|Ed].
      { exists (32 :: l). split; [done|]. split; [constructor|]. split; [done|]. right. by exists l. }
      destruct (IH Hn) as (rest & El & Hw & Hws & Hr). exists rest. cbn [app]. rewrite <- El. split; [done|].
      split; [|done]. constructor; [|done]. unfold word_ch. by rewrite (proj2 (Z.eqb_neq d 0)), Hd. }
    exists rest. cbn [app]. rewrite <- El. split; [done|]. split; [done|]. split.
    { constructor; [|done]. unfold word_ch. by rewrite (proj2 (Z.eqb_neq c 0)), Hc. }
    by rewrite Hws.
Qed.

(** The columns [b], ..., of word [w] shown in colour [c]. *)
Definition mark (b : nat) (w : list Z) (c : Z) : Z * Z * Z :=
  (Z.of_nat b + prompt_len, Z.of_nat (b + length w) + prompt_len, c).

Lemma nul_no_blank : blank_ch 0 = false ∧ word_ch 0 = false ∧ word_ch 32 = false.
Proof. done. Qed.
Lemma word_no_blank c : word_ch c = true → blank_ch c = false ∧ c ≠ 0.
Proof. unfold word_ch, blank_ch. destruct (Z.eqb_spec c 0); [done|]. simpl. by destruct (isspace c). Qed.

(** The scans of one turn of the loop find the first word. *)
Lemma scan_word pre b w c post :
  w ≠ [] → Forall (λ x, word_ch x = true) w → word_ch c = false →
  let buf := pre ++ replicate b 32 ++ w ++ c :: post in
  let start := (length pre + b)%nat in
  run_length blank_ch (drop (length pre) buf) = b ∧
  run_length word_ch (drop start buf) = length w ∧
  (∃ d, buf !! length pre = Some d ∧ d ≠ 0) ∧ (∃ d, buf !! start = Some d ∧ d ≠ 0) ∧
  buf !! (start + length w)%nat = Some c.
Proof.
  intros Hne Hw Hc. cbv zeta. rewrite drop_app_length. destruct w as [|d w]; [done|].
  pose proof Hw as Hw'. apply Forall_cons in Hw' as [Hd _]. apply word_no_blank in Hd as [Hd1 Hd0]. split_and!.
  - cbn [app]. rewrite run_length_app; [apply length_replicate| |done]. by apply Forall_replicate.
  - rewrite app_assoc, drop_app_length' by (by rewrite length_app, length_replicate). by apply run_length_app.
  - rewrite lookup_app_r, Nat.sub_diag by done. destruct b; cbn [replicate app]; by eexists.
  - rewrite app_assoc, lookup_app_r by (rewrite length_app, length_replicate; lia).
    rewrite length_app, length_replicate, Nat.sub_diag. by eexists.
  - rewrite !app_assoc. apply list_lookup_middle. rewrite !length_app, length_replicate. lia.
Qed.

Lemma render_loop_ok n pre l k arg colors :
  no_nul l → blank_is_space l → (1 ≤ k)%nat → (l ≠ [] → 2 ≤ k)%nat → (arg + length (words l) ≤ length colors)%nat → (length l < n)%nat →
  ∃ sp, render_loop n (pre ++ l ++ blanks k) (length pre) arg colors = Some sp ∧
    (∀ w ws c, words l = w :: ws → colors !! arg = Some c → c ≠ 0 →
      ∃ b rest, l = replicate b 32 ++ w ++ rest ∧ head sp = Some (mark (length pre + b) w c)).
Proof.
  revert pre l k arg. induction n as [|n IH]; intros pre l k arg Hn Hb Hk Hk2 Ha Hl; [lia|]. cbn [render_loop].
  destruct k as [|k]; [lia|]. unfold blanks. cbn [replicate]. fold (blanks k).
  destruct (first_word l Hn Hb) as [(b & -> & Hw)|(b & w & rest & -> & Hne & Hw & Hws & Hr)].
  { exists []. split; [|intros w ws c E; congruence]. destruct b as [|b].
    { cbn [replicate app]. rewrite (list_lookup_middle pre _ 0 (length pre)) by done. reflexivity. }
    rewrite (lookup_app_r pre _ (length pre)), Nat.sub_diag by lia. cbn [replicate app lookup list_lookup mbind option_bind Z.eqb].
    change (32 :: replicate b 32 ++ 0 :: blanks k) with (replicate (S b) 32 ++ 0 :: blanks k).
    rewrite drop_app_length, run_length_app by (try done; by apply Forall_replicate).
    rewrite app_assoc, (list_lookup_middle (pre ++ replicate (S b) 32) _ 0 (length pre + length (replicate (S b) 32%Z))) by (by rewrite length_app). reflexivity. }
  assert (∃ c post pre' r k', word_ch c = false ∧ (replicate b 32 ++ w ++ rest) ++ 0 :: blanks k = replicate b 32 ++ w ++ c :: post ∧
    pre ++ replicate b 32 ++ w ++ c :: post = pre' ++ r ++ blanks k' ∧ length pre' = S (length pre + b + length w) ∧
    words r = words rest ∧ no_nul r ∧ blank_is_space r ∧ (1 ≤ k')%nat ∧ (r ≠ [] → 2 ≤ k')%nat ∧ (length r < n)%nat)
    as (c & post & pre' & r & k' & Hc & E1 & E2 & E3 & Er & Hn' & Hb' & Hk' & Hk2' & Hl').
  { apply Forall_app in Hn as [_ Hn]. apply Forall_app in Hn as [_ Hn]. apply Forall_app in Hb as [_ Hb]. apply Forall_app in Hb as [_ Hb].
    rewrite !length_app, length_replicate in Hl. assert (0 < length w)%nat by (destruct w; [done|simpl; lia]).
    destruct Hr as [->|(r & ->)].
    - exists 0, (blanks k), (pre ++ replicate b 32 ++ w ++ [0]), [], k. split_and!; try done.
      + by rewrite app_nil_r, <- !app_assoc.
      + by rewrite <- !app_assoc.
      + rewrite !length_app, length_replicate. simpl. lia.
      + assert (2 ≤ S k)%nat by (apply Hk2; destruct b; [destruct w; done|done]). lia.
      + simpl in Hl |- *. lia.
    - exists 32, (r ++ 0 :: blanks k), (pre ++ replicate b 32 ++ w ++ [32]), r, (S k). split_and!; try done.
      + by rewrite <- !app_assoc.
      + by rewrite <- !app_assoc.
      + rewrite !length_app, length_replicate. simpl. lia.
      + by apply Forall_cons in Hn as [].
      + by apply Forall_cons in Hb as [].
      + intros _. apply Hk2. destruct b; [destruct w; done|done].
      + simpl in Hl. lia. }
  rewrite E1. destruct (scan_word pre b w c post Hne Hw Hc) as (S1 & S2 & (d1 & S3 & D1) & (d2 & S4 & D2) & S5).
  rewrite S3. cbn [mbind option_bind]. rewrite (proj2 (Z.eqb_neq d1 0)), S1, S4 by done. cbn [mbind option_bind].
  rewrite (proj2 (Z.eqb_neq d2 0)), S2, S5 by done. cbn [mbind option_bind].
  rewrite Hws in Ha. simpl in Ha. destruct (lookup_lt_is_Some_2 colors arg) as [x Hx]; [lia|]. rewrite Hx. cbn [mbind option_bind].
  rewrite E2, <- E3. destruct (IH pre' r k' (S arg)) as (sp & -> & _); [done..|rewrite Er; lia|done|]. cbn [mbind option_bind].
  eexists. split; [done|]. intros w' ws' c' Hw' [= <-] Hx0. rewrite Hws in Hw'. injection Hw' as <- <-.
  exists b, rest. split; [done|]. by rewrite (proj2 (Z.eqb_neq x 0)).
Qed.

Lemma render_ok l colors :
  no_nul l → blank_is_space l → (S (length l) < BUFFER_LEN)%nat → (length (words l) ≤ length colors)%nat →
  ∃ sp, render (l ++ blanks (BUFFER_LEN - length l)) colors = Some sp ∧
    (∀ w ws c, words l = w :: ws → colors !! 0%nat = Some c → c ≠ 0 →
      ∃ b rest, l = replicate b 32 ++ w ++ rest ∧ head sp = Some (mark b w c)).
Proof.
  intros Hn Hb Hl Hw. unfold render.
  apply (render_loop_ok (S BUFFER_LEN) [] l (BUFFER_LEN - length l) 0 colors Hn Hb); [lia|intros _; lia|exact Hw|lia].
Qed.

(** ** The state of the editor for a line *)

(** [s] holds line [l], the cursor behind it; the bytes printed since [o] leave
    exactly the line on the screen. *)
Record holds (o : list Z) (l : list Z) (s : lstate) : Prop := {
  h_buf : buffer s = l ++ blanks (BUFFER_LEN - length l);
  h_pos : pos s = length l;
  h_len : (length l < BUFFER_LEN)%nat;
  h_nul : no_nul l;
  h_blank : blank_is_space l;
  h_colors : length (color_buffer s) = ARGUMENT_LEN;
  h_out : ∃ e n, out s = o ++ e ∧ echoes e = (rev l, replicate n 32);
}.

Lemma echoes_app e f : echoes (e ++ f) = fold_left echo f (echoes e).
Proof. apply fold_left_app. Qed.

(** The characters the editor puts into the line. *)
Definition glyph (ch : Z) : Prop := ch ≠ 0 ∧ ch ≠ 8 ∧ isspace ch = (ch =? 32).

Lemma type_ch_holds o l s ch :
  holds o l s → glyph ch → (S (length l) < BUFFER_LEN)%nat →
  ∃ s', type_ch ch s = Some s' ∧ holds o (l ++ [ch]) s'.
Proof.
  intros [Hb Hp Hl Hn Hbl Hco (e & n & Ho & He)] (H0 & H8 & Hsp) Hs. unfold type_ch.
  rewrite Hp, (proj2 (Nat.ltb_lt _ _)) by done. eexists. split; [done|].
  unfold set_line. split; simpl.
  - rewrite Hb, insert_app_r_alt, Nat.sub_diag by done.
    destruct (BUFFER_LEN - length l)%nat as [|k] eqn:Ek; [lia|]. simpl.
    rewrite <- app_assoc, length_app. cbn [length app]. by replace (BUFFER_LEN - (length l + 1))%nat with k by lia.
  - rewrite length_app. simpl. lia.
  - rewrite length_app. simpl. lia.
  - apply Forall_app. split; [done | by constructor].
  - apply Forall_app. split; [done | by constructor].
  - done.
  - exists (e ++ [ch]), (pred n). rewrite app_assoc, Ho. split; [done|].
    rewrite echoes_app, He. simpl. unfold echo. rewrite (proj2 (Z.eqb_neq ch 8)) by done. simpl.
    rewrite rev_app_distr. f_equal. by destruct n.
Qed.

Lemma type_all_holds o c l s :
  holds o l s → Forall glyph c → (length (l ++ c) < BUFFER_LEN)%nat →
  ∃ s', type_all c s = Some s' ∧ holds o (l ++ c) s'.
Proof.
  intros Hs Hc. revert l s Hs. induction Hc as [|ch c Hch Hc IH]; intros l s Hs Hl; simpl.
  { exists s. by rewrite app_nil_r. }
  rewrite length_app in Hl. simpl in Hl.
  destruct (type_ch_holds o l s ch) as (s1 & -> & H1); [done..|lia|]. simpl.
  destruct (IH _ _ H1) as (s2 & -> & H2); [rewrite !length_app; simpl; lia|].
  exists s2. split; [done|]. by rewrite <- app_assoc in H2.
Qed.

Lemma rub_one o l c s : holds o (l ++ [c]) s → holds o l (rub 1 s).
Proof.
  intros [Hb Hp Hl Hn Hbl Hco (e & n & Ho & He)]. rewrite length_app in *. simpl in *.
  assert (pos s - 1 = length l)%nat as Ep by lia. unfold set_line. rewrite Ep. split; simpl.
  - rewrite Hb, <- app_assoc, insert_app_r_alt, Nat.sub_diag by done. simpl.
    replace (BUFFER_LEN - length l)%nat with (S (BUFFER_LEN - (length l + 1))) by lia. done.
  - done.
  - lia.
  - by apply Forall_app in Hn as [].
  - by apply Forall_app in Hbl as [].
  - done.
  - exists (e ++ RUBOUT), (S n). rewrite app_assoc, Ho. split; [done|].
    rewrite echoes_app, He, rev_app_distr. done.
Qed.

Lemma rub_more o n l m s : holds o (l ++ m) s → length m = n → holds o l (rub n s).
Proof.
  revert m s. induction n as [|n IH]; intros m s Hs Hm.
  { apply nil_length_inv in Hm. subst. by rewrite app_nil_r in Hs. }
  destruct m as [|c m _] using rev_ind; [done|]. rewrite length_app in Hm. simpl in Hm.
  change (rub (S n) s) with (rub n (rub 1 s)). apply (IH m); [|lia].
  rewrite app_assoc in Hs. exact (rub_one _ _ _ _ Hs).
Qed.

Lemma skip_word_before l rest :
  ∃ w, l = rev (skip_word (rev l)) ++ w ∧ word_before (length l) (l ++ rest) = length w.
Proof.
  revert rest. induction l as [|c l IH] using rev_ind; intros rest; [by exists []|].
  rewrite rev_app_distr, length_app. cbn [rev app skip_word length]. rewrite Nat.add_1_r. cbn [word_before].
  rewrite <- app_assoc. cbn [app]. rewrite list_lookup_middle by done. simpl.
  destruct (isspace c) eqn:Ec.
  - exists []. simpl. by rewrite rev_involutive, app_nil_r.
  - destruct (IH (c :: rest)) as (w & Hw & Hlen). exists (w ++ [c]).
    cbn [app]. rewrite Hlen, length_app. simpl. split; [|lia]. rewrite app_assoc. by rewrite <- Hw.
Qed.

Definition plain_key (k : Z) : bool := negb (bool_decide (k ∈ [NEWLINE; CTRL_N; CTRL_P; 10; 11; 12])).

Lemma printable_glyph k : printable k = true → k ≠ TAB → k ≠ 8 → plain_key k = true → glyph k.
Proof.
  intros Hp Ht H8 Hk. split; [by intros ->|]. split; [done|]. apply negb_true_iff, bool_decide_eq_false in Hk.
  unfold isspace. destruct (Z.eqb_spec k 32); [done|].
  assert (k ≠ NEWLINE ∧ k ≠ 10 ∧ k ≠ 11 ∧ k ≠ 12) as (H1 & H2 & H3 & H4) by (split_and!; intros ->; apply Hk; set_solver).
  unfold NEWLINE, TAB in *. by repeat rewrite (proj2 (Z.eqb_neq k _)) by assumption.
Qed.
Lemma COMMANDS_nul : Forall no_nul COMMANDS.
Proof. eapply Forall_impl; [apply COMMANDS_glyphs|]. intros n Hn. eapply Forall_impl; [exact Hn|]. by intros c (? & _ & _). Qed.

Lemma tab_holds o l s :
  holds o l s → (length (edit l TAB) < BUFFER_LEN)%nat →
  ∃ s', key TAB s = Some s' ∧ holds o (edit l TAB) s'.
Proof.
  intros Hs Hl. change (edit l TAB) with (match completions l with [n] => n ++ [32] | _ => l end) in *.
  change (key TAB s) with (match complete (buffer s) (pos s) with Some c => type_all (c ++ [32]) s | None => Some s end).
  unfold complete. rewrite (h_pos _ _ _ Hs), (h_buf _ _ _ Hs).
  rewrite complete_loop_spec; [|apply COMMANDS_nul|apply Hs|pose proof (h_len _ _ _ Hs); unfold BUFFER_LEN in *; lia].
  fold (completions l). destruct (completions l) as [|n [|]] eqn:Ec; [by exists s| |by exists s].
  assert (n ∈ completions l) as Hin by (rewrite Ec; set_solver).
  apply list_elem_of_filter in Hin as [[m ->] Hin]. rewrite drop_app_length. rewrite <- app_assoc in Hl |- *.
  apply type_all_holds; [done| |done]. apply Forall_app. split; [|by repeat constructor].
  pose proof COMMANDS_glyphs as Hg. rewrite Forall_forall in Hg. apply Hg in Hin.
  by apply Forall_app in Hin as [_ Hin].
Qed.

Lemma key_holds o k l s :
  holds o l s → plain_key k = true → (length (edit l k) < BUFFER_LEN)%nat →
  ∃ s', key k s = Some s' ∧ holds o (edit l k) s'.
Proof.
  intros Hs Hpk Hl. pose proof Hpk as Hk. unfold plain_key in Hk. apply negb_true_iff, bool_decide_eq_false in Hk.
  destruct (decide (k = TAB)) as [->|Ht]; [by apply tab_holds|].
  unfold key, edit in *. fold (printable k).
  destruct ((k =? BACKSPACE) || (k =? BACKSPACE2)) eqn:Eb.
  { eexists. split; [done|]. rewrite (h_pos _ _ _ Hs).
    destruct l as [|c l _] using rev_ind; [done|]. rewrite length_app, Nat.add_1_r. cbn [Nat.eqb].
    rewrite removelast_last. by eapply rub_one. }
  destruct (k =? CTRL_U).
  { eexists. split; [done|]. rewrite (h_pos _ _ _ Hs). by apply (rub_more _ _ [] l). }
  destruct (k =? CTRL_W).
  { eexists. split; [done|]. rewrite (h_pos _ _ _ Hs).
    destruct l as [|c l _] using rev_ind; [done|]. rewrite length_app, Nat.add_1_r. cbn [Nat.eqb].
    apply rub_one in Hs. rewrite rev_app_distr. cbn [rev app tail].
    rewrite (h_pos _ _ _ Hs), (h_buf _ _ _ Hs).
    destruct (skip_word_before l (blanks (BUFFER_LEN - length l))) as (w & Hw & ->).
    apply (rub_more _ _ _ w); [by rewrite <- Hw | done]. }
  rewrite (proj2 (Z.eqb_neq k CTRL_N)), (proj2 (Z.eqb_neq k CTRL_P)) by (intros ->; apply Hk; set_solver). simpl orb.
  rewrite (proj2 (Z.eqb_neq k TAB)) in * by done.
  destruct (printable k) eqn:Ep; [|by exists s].
  apply orb_false_iff in Eb as [_ Eb]. apply Z.eqb_neq in Eb.
  rewrite length_app, Nat.add_1_r in Hl. apply type_ch_holds; [done|by apply printable_glyph|done].
Qed.

(** What [parse], [find], [lint] and [render] left behind: the first word has the colour
    of a command or of no command. *)
Definition colored (l : list Z) (s : lstate) : Prop :=
  ∀ w ws, words l = w :: ws → ∃ b rest, l = replicate b 32 ++ w ++ rest ∧
    head (shown s) = Some (mark b w (if bool_decide (w ∈ COMMANDS) then COLOR_GREEN else COLOR_RED)).
Definition parsed (l : list Z) (s : lstate) : Prop :=
  arguments s = words l ∧ task s = find (head (words l)) ∧ colored l s.
(** [render] reads the character behind the terminator, [lint] writes one entry behind the
    arguments. *)
Definition MAX_LINE : nat := BUFFER_LEN - 2.
Definition MAX_WORDS : nat := ARGUMENT_LEN - 2.
Definition fits (l : list Z) : Prop := (length l ≤ MAX_LINE)%nat ∧ (length (words l) ≤ MAX_WORDS)%nat.

Lemma word_color_command w : word_color (Some w) = if bool_decide (w ∈ COMMANDS) then COLOR_GREEN else COLOR_RED.
Proof.
  unfold word_color. destruct (find (Some w)) as [i|] eqn:E.
  - apply find_spec in E. rewrite bool_decide_true; [done|]. by eapply list_elem_of_lookup_2.
  - rewrite bool_decide_false; [done|]. intros [i Hi]%list_elem_of_lookup_1. apply find_spec in Hi. congruence.
Qed.

Lemma after_key_holds o l s :
  holds o l s → fits l → ∃ s', after_key s = Some s' ∧ holds o l s' ∧ parsed l s'.
Proof.
  intros Hs [Hl Hw]. unfold MAX_LINE, MAX_WORDS in *. unfold after_key.
  assert (upto_nul (buffer s) = l) as ->.
  { rewrite (h_buf _ _ _ Hs). unfold blanks. pose proof (h_len _ _ _ Hs).
    destruct (BUFFER_LEN - length l)%nat as [|k] eqn:Ek; [lia|]. apply upto_nul_line, Hs. }
  rewrite (proj2 (Nat.ltb_lt _ _)) by apply Hs. unfold overlay. rewrite <- app_assoc. cbn [app].
  destruct (parse_words l (drop (length (l ++ [0])) (args_buffer s))) as (raw & argv & -> & Ha);
    [apply Hs|apply Hs|unfold ARGUMENT_LEN in *; lia|].
  cbn [mbind option_bind]. rewrite Ha.
  assert (length argv = length (words l)) as -> by (rewrite <- Ha; symmetry; apply length_fmap).
  destruct (lint_ok lint_fuel (length (words l)) 0 (words l) (color_buffer s)) as (c & -> & [Ec _] & Hc);
    [done|apply Hs|unfold ARGUMENT_LEN in *; lia|unfold lint_fuel; unfold ARGUMENT_LEN in *; lia|].
  cbn [mbind option_bind]. rewrite (h_colors _ _ _ Hs) in Ec.
  destruct (render_ok l c) as (sp & Er & Hsp); [apply Hs|apply Hs|unfold BUFFER_LEN in *; lia|unfold ARGUMENT_LEN in *; lia|].
  rewrite (h_buf _ _ _ Hs), Er. cbn [mbind option_bind]. eexists. split; [done|]. split.
  - destruct Hs. by split.
  - split; [exact Ha|]. split; [done|]. intros w ws Ew. rewrite <- word_color_command.
    apply (Hsp w ws _ Ew); [by rewrite Ew in Hc|]. rewrite word_color_command. by case_bool_decide.
Qed.

Lemma keys_holds o ks l s :
  holds o l s → parsed l s → Forall (λ k, plain_key k = true) ks →
  (∀ n, fits (fold_left edit (take n ks) l)) →
  ∃ s', keys ks s = Some s' ∧ holds o (fold_left edit ks l) s' ∧ parsed (fold_left edit ks l) s'.
Proof.
  intros Hs Hp Hks. revert l s Hs Hp. induction Hks as [|k ks Hk Hks IH]; intros l s Hs Hp Hf; [by exists s|]. simpl.
  destruct (key_holds o k l s) as (s1 & -> & H1); [done|done|destruct (Hf 1%nat); unfold MAX_LINE, BUFFER_LEN in *; simpl in *; lia|]. simpl.
  destruct (after_key_holds o _ s1 H1 (Hf 1%nat)) as (s2 & -> & H2 & Hp2). simpl.
  apply (IH _ _ H2 Hp2). intros n. apply (Hf (S n)).
Qed.

(** ** Properties *)

(** C27 The line editor of the shell implements the abstract editor. For any keys but
    the history keys and line breaks, as long as the line has at most 78 characters and
    14 words after every key, [readline] returns (none of its buffers overflows, in
    [parse], [lint] or [render]): its buffer holds the edited line
    (backspace, erase line, erase word, completion of a command whose beginning is
    unambiguous), the arguments are the words of that line, the command is the
    one its first word names in the table, what was echoed leaves exactly the line,
    followed by blanks, on the screen, and the first span coloured on the row is the
    first word of the line, if it has one: green for a command, red otherwise. *)
Theorem readline_edits ks s :
  Forall (λ k, plain_key k = true) ks → (∀ n, fits (typed (take n ks))) →
  ∃ s' e n, readline ks s = Some s' ∧
    take (pos s') (buffer s') = typed ks ∧ upto_nul (buffer s') = typed ks ∧
    arguments s' = words (typed ks) ∧
    (∀ i, task s' = Some i ↔ ∃ w, head (words (typed ks)) = Some w ∧ COMMANDS !! i = Some w) ∧
    out s' = out s ++ e ++ [10] ∧ echoes e = (rev (typed ks), replicate n 32) ∧
    colored (typed ks) s'.
Proof.
  intros Hks Hf. unfold readline.
  edestruct (keys_holds (out s) ks []) as (s' & -> & Hs & Hp & Ht & Hc); [| |exact Hks|exact Hf|].
  { split; simpl; [done|done|unfold BUFFER_LEN; lia|constructor|constructor|done|]. exists [], 0%nat. by rewrite app_nil_r. }
  { done. }
  fold (typed ks) in *. destruct (h_out _ _ _ Hs) as (e & n & Ho & He). simpl. eexists _, e, n. split; [done|]. simpl.
  rewrite (h_pos _ _ _ Hs), (h_buf _ _ _ Hs), take_app_length, Ho, <- app_assoc. split; [done|].
  split; [pose proof (h_len _ _ _ Hs); unfold blanks; destruct (BUFFER_LEN - length (typed ks))%nat eqn:E; [lia|];
    apply upto_nul_line, Hs|].
  split; [exact Hp|]. split; [|done]. intros i. rewrite Ht. destruct (words (typed ks)) as [|w ws]; cbn [head].
  - split; [done | by intros (? & [=] & _)].
  - rewrite find_spec. split; [by exists w | by intros (? & [= ->] & ?)].
Qed.

(** "exex", backspace, TAB completes to "exec "; then "fly1 80", erase word, "a". *)
Lemma readline_edits_witness :
  ∃ s', readline (str "exex" ++ [127; 9] ++ str "fly1 80" ++ [23] ++ str "a") boot_shell = Some s' ∧
    upto_nul (buffer s') = str "exec fly1 a" ∧
    arguments s' = [str "exec"; str "fly1"; str "a"] ∧ task s' = Some 3%nat ∧
    head (shown s') = Some (16, 20, COLOR_GREEN).
Proof.
  pose (ks := str "exex" ++ [127; 9] ++ str "fly1 80" ++ [23] ++ str "a").
  assert (Forall (λ k, plain_key k = true) ks) as Hk by (apply (bool_decide_unpack _); vm_compute; exact I).
  assert (∀ n, fits (typed (take n ks))) as Hf.
  { intros n. destruct (decide (n ≤ length ks)%nat) as [Hn|Hn].
    - assert (Forall (λ n, (length (typed (take n ks)) ≤ MAX_LINE)%nat ∧ (length (words (typed (take n ks))) ≤ MAX_WORDS)%nat)
        (seq 0 (S (length ks)))) as Ha by (apply (bool_decide_unpack _); vm_compute; exact I).
      rewrite Forall_forall in Ha. apply Ha. apply elem_of_seq. lia.
    - rewrite take_ge by lia. split; vm_compute; lia. }
  destruct (readline_edits ks boot_shell Hk Hf) as (s' & e & m & Hr & _ & Hu & Ha & Ht & _ & _ & Hc).
  exists s'. split; [exact Hr|]. split; [exact Hu|]. split; [exact Ha|].
  split; [apply Ht; eexists; split; vm_compute; reflexivity|].
  destruct (Hc (str "exec") [str "fly1"; str "a"]) as (b & rest & Hl & Hh); [vm_compute; reflexivity|].
  rewrite Hh. destruct b as [|b]; [vm_compute; reflexivity|]. vm_compute in Hl. discriminate Hl.
Defined.

(** The previous line is copied with its terminator only, so what a longer line left
    behind it stays in [last_buffer]; recalled and typed over, it appears in the line. *)
Lemma history_stale_tail :
  (s ← readline (str "exec fly1") boot_shell; s ← readline (str "ps") s; s ← readline [CTRL_P; 32] s; Some (arguments s))
  = Some [str "ps"; str "c"; str "fly1"].
Proof. vm_compute. reflexivity. Qed.

Definition spaced (w : list Z) (n : nat) : list Z := concat (replicate n (w ++ [32])).
(** Each [time] hands the words behind it to [lint] again; behind the fifteenth there is
    no word, and [lint] writes [color_buffer[15]] and [color_buffer[16]]. *)
Lemma fifteen_times_overflow :
  is_Some (readline (spaced (str "time") 14) boot_shell) ∧ readline (spaced (str "time") 15) boot_shell = None.
Proof. split; vm_compute; [by eexists | reflexivity]. Qed.
(** [render] steps over the terminator: behind a word that ends a line of 79 characters it
    reads [buffer[80]]. *)
Lemma long_line_overread :
  is_Some (readline (replicate 78 97) boot_shell) ∧ readline (replicate 79 97) boot_shell = None.
Proof. split; vm_compute; [by eexists | reflexivity]. Qed.
